(* ===== verification/_CoqProject ===== *)
-Q . S2P
Prelude.v
Borsh.v
SolanaRuntime.v
GateTypes.v
GateHash.v
CoreHash.v
HostHash.v
Text.v
LogScan.v
AbiParams.v
EvmReader.v
ListSort.v
Quorum.v
Effects.v
Interleave.v
Failover.v
Endpoints.v
Allowlist.v
ScannerState.v
GateState.v
GateVerify.v
HostVerify.v
GateGov.v
GateTransfers.v
HostRecord.v
SigStore.v
Db.v
DbSafety.v
DbLifecycle.v
SigServer.v
ServerSafety.v
RefundQueue.v
HostGate.v
GateAdmin.v
GateAssets.v
GateProgram.v
GateSafety.v
Origin.v
SourceScan.v
Attester.v
Submitter.v
SubmitterGate.v
SubmitterSafety.v
Observer.v
ObserverSafety.v
SwapMath.v
ScaleGuard.v
Validator.v
Indexer.v
IndexerSafety.v
ValidatorSafety.v
ValidatorRefund.v
RefundVotes.v
KeeperTx.v
KeeperSigs.v
KeeperQueue.v
Keeper.v
KeeperLoop.v
KeeperSafety.v
KeeperProgress.v
SolanaSwap.v
PoolEffects.v
PoolSafety.v
Codecs.v
Sample.v
GateWitness.v
PoolWitness.v
HostSample.v
HostWitness.v
StoreWitness.v
NodeSample.v
NodeWitness.v
KeeperWitness.v
SubmitterWitness.v
ObserverWitness.v
DbWitness.v
IndexerWitness.v
