(* ===== verification/Prelude.v ===== *)
(** * A verified model of the bridge's Rust programs

    The program moves tokens between EVM chains and Solana. On each chain a gate
    locks (or burns) on [send] and pays on [claim], against signatures of a quorum of
    validators over the submission id, the keccak hash of every field of the
    transfer. A transfer that is not claimed in time can be cancelled on the
    destination and refunded at the source, again by quorum. The Solana gate is a
    native program (src/crates/solana-gate); next to it runs a swap pool with a
    keeper-fed price (src/crates/solana-swap, src/crates/swap-math). Off-chain
    processes watch the chains, sign and submit: src/crates/solana-relayer on the
    host library src/crates/bridge-solana, and the store and validators on
    src/crates/bridge-core, with a keeper that carries a quorum to an EVM gate
    (src/crates/keeper). This library models these Rust crates as pure functions
    and proves what makes them correct. One definition stands for one Rust function,
    under the same name where Rocq allows it.

    ** Conventions

    Integers are [Z] with their width written where it matters ([is_u], [checked_add],
    [as_u]: Prelude.v). Keys and hashes are arrays of fixed length ([arr]). A fallible
    function returns [result]. A program instruction is a [prog]: it reads and writes
    one shared ledger of accounts, so that an account passed twice is one account, and
    an error drops its writes, as a failed transaction does. What the code takes from
    other crates is a type class with laws for what it relies on: the runtime, SPL
    and hashing ([Runtime], [RuntimeLaws]), derived Borsh ([GateBorsh], [SwapBorsh], [SubmitBorsh]),
    hex, base64 and the ECDSA libraries of the host ([HexCodec], [Base64],
    [EventCodec], [Base58], [HostSigner], [HostCrypto], and [Alloy] for the EVM libraries of the
    signature store, with [AlloyText] for what its parsers do with letter case). Theorems are stated over these classes;
    Codecs.v, Sample.v, HostSample.v and NodeSample.v give instances that satisfy the
    laws, and on them the theorems are applied to concrete runs.
    The async methods of the validator are programs [eff] over a state and a world that
    answers each call anew (Effects.v): nodes, the store, the disk and the operator are
    classes of such answers ([Network], [Nodes], [ScaleReads], [ValidatorWorld],
    [RefundWorld], [KeeperWorld], [SolanaNode], [ObserverNode]) without laws, so a theorem holds against every behaviour that its
    hypotheses do not exclude. Instants are nanoseconds of a clock read anew at each
    call; what another loop of the same account did to shared state is an answer too
    ([kw_other]), taken where the code takes the lock.

    ** Files

    - Prelude.v: widths, bytes, [result], lists, automation ([prog_inv], [bool_inv]).
    - Borsh.v: the Borsh format as composable codecs; Codecs.v: the derived codecs.
    - SolanaRuntime.v: accounts, the ledger, account access, cross-program calls,
      and [evolves], what a program may do to accounts it does not mean to touch.
    - The gate (solana-gate/src/lib.rs): GateTypes.v (data, errors), GateHash.v
      (ids, signing domains), GateState.v (stored accounts and markers), GateVerify.v
      (signature quorum), GateGov.v (48-hour timelock), GateTransfers.v (send, claim,
      cancel, refund), GateAdmin.v and GateAssets.v (administration), GateProgram.v
      (dispatch), GateSafety.v (histories of transactions).
    - CoreHash.v: the EVM-side ids (bridge-core/src/lib.rs, submission.rs).
    - The pool (solana-swap, swap-math): SwapMath.v (prices, quotes, the refresh
      planner, PDA search), SolanaSwap.v (instructions), PoolEffects.v, PoolSafety.v
      (reachable ledgers; solana-price-keeper.rs).
    - The host library (bridge-solana): HostHash.v (ids and conversions), HostVerify.v
      (recovery, canonical signatures, quorum, the choice of signatures to submit),
      HostGate.v (gate.rs: the in-memory gate of the host and its claim),
      AbiParams.v (the EVM payload codec), LogScan.v (which log lines the gate
      printed; the event line), Text.v and ListSort.v (string and sorting
      functions of the standard library they use).
    - The relayer (solana-relayer): HostRecord.v (records: source.rs, target.rs),
      Origin.v (the decision to sign: source.rs, store.rs), SourceScan.v (pagination,
      cursor, quarantine: source.rs, state.rs), EvmReader.v (evm.rs), Attester.v
      (refund.rs, observer.rs), RefundQueue.v (the refund loop's walk over pages:
      refund.rs, bridge-core/src/backend.rs), Submitter.v (one pass over the claim and
      refund queues: target.rs, gate.rs), SubmitterGate.v (the gate's instructions on the
      accounts the submitter lists), SubmitterSafety.v, Observer.v (one pass over the
      markers of open transfers and the search for the transaction behind one:
      observer.rs, store.rs), ObserverSafety.v.
    - SigStore.v: the signature store in a file (bridge-core/src/store.rs).
    - The database and its server (bridge-db, sig-store): Interleave.v (programs of atomic
      statements that run at the same time), Db.v (tables and methods: bridge-db/src/lib.rs,
      schema.sql), DbSafety.v (the invariant of the tables), DbLifecycle.v (what stays, and
      the abstract lifecycle), SigServer.v (scoped tokens: bridge-core/src/auth.rs; routes:
      sig-store/src/main.rs), ServerSafety.v (what a credential can do). The indexer that
      reports to them: Indexer.v (one loop per chain: indexer/src/main.rs) and
      IndexerSafety.v.
    - The EVM validator (validator): Quorum.v (majorities, scan windows, comparison of
      logs: provider.rs, bridge-core/src/scan.rs), Effects.v (the monad of its methods),
      Failover.v (several endpoints of one chain: provider.rs), Endpoints.v (connecting,
      cross-checked reads, redacted urls), Allowlist.v (bridge-core/src/allow.rs),
      ScannerState.v (state.rs, the operator of api.rs), ScaleGuard.v (scale.rs),
      Validator.v (main.rs: one turn of the scan loop, one event), ValidatorSafety.v
      (what is signed, how the cursors move, restarts), ValidatorRefund.v and
      RefundVotes.v (refund.rs).
    - The EVM keeper (keeper): KeeperTx.v (requests, fees, transactions in flight, the
      watch on the head nonce), KeeperSigs.v (the signatures it forwards, and the check of
      src/contracts/src/Gate.sol they must pass), KeeperQueue.v (finalize.rs, min_claim of
      config.rs), Keeper.v (main.rs: one turn of the claim loop and of the refund loop),
      KeeperLoop.v (invariants of these loops, once for all), KeeperSafety.v and
      KeeperProgress.v.
    - Sample.v, HostSample.v: concrete instances; GateWitness.v, PoolWitness.v,
      HostWitness.v, StoreWitness.v: a deployment run through the programs' own instructions, on
      which the theorems are applied. NodeSample.v, NodeWitness.v: two chains of three
      nodes of which one lies, and the validator's runs on them. KeeperWitness.v: a gate with
      its validators and the keeper's runs against it. SubmitterWitness.v: passes of the
      submitter over a queue of the sample deployment. ObserverWitness.v: the observer on a
      transfer called off there. DbWitness.v: the database and the
      server on the sample record, and two schedules that lose what was reported.
      IndexerWitness.v: the indexer's loop on a short chain.

    ** What is proved

    Safety of the gate, over every history of its transactions interleaved with
    transactions that do not run it: an id is claimed or cancelled at most once, a
    send is refunded at most once, nonces of a corridor are consecutive, the stored
    configuration moves only by steps of an abstract governance machine, and power
    (a new validator, a lower threshold, another guardian) needs a matured approval
    of exactly that change. Function of each transfer instruction: who is paid what,
    from where, on whose authority, with which marks left. Ids: the hashed bytes
    determine the transfer, the three signing domains are disjoint, and the programs
    on both sides compute the same id. The pool: every reachable ledger is solvent
    and within its parameter bounds, a swap pays the quoted amount, a round trip never
    profits, a price moves only within the guards.

    The off-chain side is joined to those histories. What the scanner signs was
    locked by a send of the history and not refunded since, and every send can be
    signed ([signed_event_genuine], [genuine_send_signed]); its cursor passes no event that
    is not settled ([collect_without_gap], [tick_without_gap]); log lines are attributed to
    the program that printed them ([attribution_exact]). The signatures the relayer
    submits are accepted by the gate exactly when there is a quorum
    ([relayer_quorum_exact]), for the arguments that hash to the record's id
    ([encodable_binds]); every instruction the submitter sends passes all checks of the
    program that it can answer for ([submissions_pass_the_gate]), and a quorum is submitted
    ([quorum_is_submitted]). A refund vote is about an id that can never be claimed again
    ([refund_vote_never_double_pays]); a vote about a transfer from here rests on its
    send ([source_vote_needs_send]); the walk over refund candidates reaches every one of
    them ([every_candidate_examined]). The observer reports only what has happened for good
    ([observed_reports_true]), once ([reported_once]), and whatever has happened
    ([terminal_gets_reported]); the test by which it names the transaction is exact
    ([creates_marker_exact]). The store that carries the signatures holds
    only authentic ones for the id of its record ([store_always_authentic]) and loses
    none ([store_append_only]).

    The database that replaces the file is proved under interleaving: each SQL statement is
    atomic, any number of calls run at once, any statement may fail or lose its answer.
    Rows stay bound to their ids and signatures authentic ([db_always_authentic]), nothing
    is forgotten ([history_never_rewritten]), and calls that do not overlap implement an
    abstract lifecycle whatever order the chains are read in
    ([arrival_order_irrelevant]). Before it stands the server: only the indexer's scope
    moves a lifecycle ([lifecycle_needs_indexer]), a token signs for the validator it is
    bound to ([leaked_token_contained]), and no junk locks a validator out
    ([validator_never_locked_out]). The indexer's cursor passes only blocks whose events the
    tables hold, whatever runs beside it ([cursor_passes_only_recorded]).

    The EVM validator is proved against nodes that answer anything. With at most one
    lying endpoint per chain, a window that is agreed upon is exactly the chain's
    ([one_liar_cannot_forge]), an honest majority of three is not stalled
    ([one_liar_cannot_stall]), the head worked towards is one a majority has reached
    ([scan_head_follows_majority]) and the verdict on a corridor's scale is the
    destination's ([one_liar_cannot_misjudge]). Composed: every signature it posts is for
    an event of the chain ([signed_only_genuine]), its cursors pass only events that are
    done with ([cursor_passes_only_settled]), a safety stop outlives a restart
    ([halt_survives_restart]), an allowlist cannot be switched off from outside ([required_denies_by_default]), and its
    refund votes rest on confirmed reads of both chains ([refund_votes_sound]).

    The keeper trusts neither the store nor the order of its rows: every call it sends
    carries signatures the gate accepts for the id it recomputes ([keeper_calls_accepted]),
    and a quorum hidden among rubbish is sent ([quorum_is_relayed]). What may still land is
    not sent twice ([in_flight_not_resent]), a claim is reported only after its receipt
    ([claim_marked_after_receipt]), and what a stuck account can cost is bounded
    ([fee_bumps_bounded], [head_transfer_safe], [in_flight_well_formed]).

    ** Assumptions and bounds

    Collision resistance of keccak is never assumed: where it matters the theorem
    speaks of the bytes that are hashed. That two
    program-derived addresses of one gate differ is assumed per address
    ([sent_isolated], [executed_isolated], [config_isolated], [gov_isolated]...), never for all
    seeds at once. Between the gate's transactions anything may happen that respects
    ownership ([environment]). Fuel: the walk over pages has the code's own bound
    [MAX_PAGES], the searches for an aged block their 24 steps, printing a number 39 digits
    past the first, enough for 128 bits (77 for 256 bits); no other function uses fuel.
    That at most one endpoint of a chain lies, and that honest ones say what the chain
    says, are hypotheses of the theorems about the validator, never of its model. Of the indexer's
    endpoints it is assumed that one that answers with a window's last block returns every
    log of the window ([vouches]): the code asks for both in one batch for that reason. The
    theorems about the keeper's calls assume a gate whose validators stay the same during
    the run and nodes that answer truly about them when they answer ([gate_reads]); those
    about fees assume quoted prices below 2^126; [EcdsaLaws] relates the recovery of the
    keeper's library to that of the contract. Those about the submitter assume nodes that,
    when they answer, show the gate's own configuration and asset accounts ([gate_shown])
    and records whose fields fit their widths ([record_fits]).

    ** Not modelled

    Input and output (RPC, HTTP, SQL, files, command lines), logging and metrics;
    the EVM contracts; bridge-core's rate limit and remote client; in the
    validator and the keeper, process start, configuration and sleeps, and the guard of
    the validator's operator API; in the store server, the arithmetic of the rate limiter and
    the history and swap views; the read API (graphql-api). *)

From Stdlib Require Export ZArith Lia.
From Stdlib Require Strings.Byte.
From stdpp Require Export prelude gmap strings pretty.

Open Scope Z_scope.

Declare Scope bridge_scope.
Delimit Scope bridge_scope with bridge.
Open Scope bridge_scope.

Abbreviation byte := Corelib.Init.Byte.byte.

(** * Bytes *)

Definition Z_of_byte (b : byte) : Z := Z.of_N (Byte.to_N b).

(** Truncation to eight bits, as Rust's [as u8]. *)
Definition byte_of_Z (z : Z) : byte :=
  match Byte.of_N (Z.to_N (z mod 256)) with Some b => b | None => Byte.x00 end.

#[export] Instance byte_eq_dec : EqDecision byte := Byte.byte_eq_dec.
#[export] Instance byte_countable : Countable byte.
Proof.
  refine (inj_countable Byte.to_N Byte.of_N _).
  intros b. apply Byte.of_to_N.
Defined.

Lemma Z_of_byte_range b : 0 <= Z_of_byte b < 256.
Proof. unfold Z_of_byte. pose proof (Byte.to_N_bounded b). lia. Qed.

Lemma Z_of_byte_of_Z z : Z_of_byte (byte_of_Z z) = z mod 256.
Proof.
  unfold Z_of_byte, byte_of_Z.
  pose proof (Z.mod_pos_bound z 256 ltac:(lia)).
  destruct (Byte.of_N _) as [b|] eqn:E.
  - apply Byte.to_of_N in E. lia.
  - apply Byte.of_N_None_iff in E. lia.
Qed.

Lemma byte_of_Z_of_byte b : byte_of_Z (Z_of_byte b) = b.
Proof.
  unfold byte_of_Z, Z_of_byte.
  pose proof (Byte.to_N_bounded b).
  rewrite Z.mod_small by lia. rewrite N2Z.id, Byte.of_to_N. done.
Qed.

Lemma byte_of_Z_inj x y : 0 <= x < 256 -> 0 <= y < 256 -> byte_of_Z x = byte_of_Z y -> x = y.
Proof.
  intros Hx Hy H. apply (f_equal Z_of_byte) in H.
  rewrite !Z_of_byte_of_Z, !Z.mod_small in H; lia.
Qed.

(** * Fixed-width encodings *)

Fixpoint le_bytes (n : nat) (z : Z) : list byte :=
  match n with
  | O => []
  | S n => byte_of_Z z :: le_bytes n (z / 256)
  end.

Fixpoint Z_of_le (l : list byte) : Z :=
  match l with
  | [] => 0
  | b :: l => Z_of_byte b + 256 * Z_of_le l
  end.

Definition be_bytes (n : nat) (z : Z) : list byte := reverse (le_bytes n z).
Definition Z_of_be (l : list byte) : Z := Z_of_le (reverse l).
Definition zeros (n : nat) : list byte := replicate n Byte.x00.

Lemma length_le_bytes n z : length (le_bytes n z) = n.
Proof. revert z. induction n; intros; simpl; auto. Qed.
Lemma length_be_bytes n z : length (be_bytes n z) = n.
Proof. unfold be_bytes. by rewrite length_reverse, length_le_bytes. Qed.
Lemma length_zeros n : length (zeros n) = n.
Proof. apply length_replicate. Qed.

Lemma Z_of_le_range l : 0 <= Z_of_le l < 256 ^ Z.of_nat (length l).
Proof.
  induction l as [|b l IH]; simpl; [lia|].
  rewrite Nat2Z.inj_succ, Z.pow_succ_r by lia.
  pose proof (Z_of_byte_range b). nia.
Qed.

Lemma Z_of_le_bytes n z : Z_of_le (le_bytes n z) = z mod 256 ^ Z.of_nat n.
Proof.
  revert z. induction n as [|n IH]; intros z; simpl; [by rewrite Z.mod_1_r|].
  rewrite IH, Z_of_byte_of_Z, Nat2Z.inj_succ, Z.pow_succ_r by lia.
  rewrite Z.rem_mul_r; lia.
Qed.
Lemma le_bytes_of_Z l : le_bytes (length l) (Z_of_le l) = l.
Proof.
  induction l as [|b l IH]; simpl; [done|]. pose proof (Z_of_byte_range b).
  replace (Z_of_byte b + 256 * Z_of_le l) with (Z_of_byte b + Z_of_le l * 256) by lia.
  rewrite Z.div_add, Z.div_small, Z.add_0_l, IH by lia. f_equal.
  unfold byte_of_Z. rewrite Z.mod_add by lia. apply byte_of_Z_of_byte.
Qed.

Lemma le_bytes_inj n x y :
  0 <= x < 256 ^ Z.of_nat n -> 0 <= y < 256 ^ Z.of_nat n -> le_bytes n x = le_bytes n y -> x = y.
Proof.
  intros Hx Hy H. apply (f_equal Z_of_le) in H.
  by rewrite !Z_of_le_bytes, !Z.mod_small in H.
Qed.
Lemma be_bytes_inj n x y :
  0 <= x < 256 ^ Z.of_nat n -> 0 <= y < 256 ^ Z.of_nat n -> be_bytes n x = be_bytes n y -> x = y.
Proof. intros ?? H%(inj reverse). by apply le_bytes_inj in H. Qed.
Lemma Z_of_be_bytes n z : Z_of_be (be_bytes n z) = z mod 256 ^ Z.of_nat n.
Proof. unfold Z_of_be, be_bytes. rewrite reverse_involutive. apply Z_of_le_bytes. Qed.

(** Zero-extension of a big-endian word on the left. *)
Lemma be_bytes_widen m n z :
  0 <= z < 256 ^ Z.of_nat n -> be_bytes (m + n) z = zeros m ++ be_bytes n z.
Proof.
  intros Hz. unfold be_bytes.
  assert (le_bytes (n + m) z = le_bytes n z ++ zeros m) as E.
  { revert z Hz. induction n as [|n IH]; intros z Hz; simpl.
    - assert (z = 0) as -> by lia. clear. induction m; simpl; [done|].
      by rewrite Z.div_0_l, IHm by lia.
    - rewrite Nat2Z.inj_succ, Z.pow_succ_r in Hz by lia.
      rewrite IH; [done|]. split; [apply Z.div_pos; lia|].
      apply Z.div_lt_upper_bound; lia. }
  rewrite Nat.add_comm, E, reverse_app. f_equal.
  unfold zeros. apply reverse_replicate.
Qed.

(** Lexicographic comparison of byte strings: Rust's [Ord] on [u8] arrays. *)
Fixpoint bytes_leb (x y : list byte) : bool :=
  match x, y with
  | [], _ => true
  | _ :: _, [] => false
  | a :: x, b :: y =>
      if Z_of_byte a <? Z_of_byte b then true
      else if Z_of_byte b <? Z_of_byte a then false
      else bytes_leb x y
  end.

Lemma Z_of_byte_inj a b : Z_of_byte a = Z_of_byte b -> a = b.
Proof. intros H. by rewrite <- (byte_of_Z_of_byte a), H, byte_of_Z_of_byte. Qed.

Lemma bytes_leb_refl x : bytes_leb x x = true.
Proof. induction x as [|a x IH]; simpl; [done|]. by rewrite Z.ltb_irrefl. Qed.

Lemma bytes_leb_total x y : bytes_leb x y = false -> bytes_leb y x = true.
Proof.
  revert y. induction x as [|a x IH]; intros [|b y]; simpl; try done.
  destruct (Z.ltb_spec (Z_of_byte a) (Z_of_byte b)), (Z.ltb_spec (Z_of_byte b) (Z_of_byte a));
    try done; auto.
Qed.

Lemma bytes_leb_antisym x y : bytes_leb x y = true -> bytes_leb y x = true -> x = y.
Proof.
  revert y. induction x as [|a x IH]; intros [|b y]; simpl; try done.
  destruct (Z.ltb_spec (Z_of_byte a) (Z_of_byte b)), (Z.ltb_spec (Z_of_byte b) (Z_of_byte a));
    try done; try lia.
  intros. f_equal; [apply Z_of_byte_inj; lia | auto].
Qed.

Lemma bytes_leb_trans x y z : bytes_leb x y = true -> bytes_leb y z = true -> bytes_leb x z = true.
Proof.
  revert y z. induction x as [|a x IH]; intros [|b y] [|c z]; simpl; try done.
  destruct (Z.ltb_spec (Z_of_byte a) (Z_of_byte b)), (Z.ltb_spec (Z_of_byte b) (Z_of_byte a)),
    (Z.ltb_spec (Z_of_byte b) (Z_of_byte c)), (Z.ltb_spec (Z_of_byte c) (Z_of_byte b)),
    (Z.ltb_spec (Z_of_byte a) (Z_of_byte c)), (Z.ltb_spec (Z_of_byte c) (Z_of_byte a));
    try done; try lia; eauto.
Qed.

(** Rust's strict order [x < y]. *)
Definition bytes_lt (x y : list byte) : Prop := bytes_leb y x = false.

#[export] Instance bytes_lt_strict : StrictOrder bytes_lt.
Proof.
  unfold bytes_lt. split.
  - intros x H. by rewrite bytes_leb_refl in H.
  - intros x y z H1 H2. destruct (bytes_leb z x) eqn:E; [|done].
    apply bytes_leb_total in H1. by rewrite (bytes_leb_trans z x y E H1) in H2.
Qed.

(** * Fixed-size byte arrays: Rust's [[u8; n]] *)

Record arr (n : nat) := Arr { arr_bytes :> list byte; arr_ok : bool_decide (length arr_bytes = n) }.
Arguments Arr {_} _ _.
Arguments arr_bytes {_} _.

Lemma length_arr {n} (a : arr n) : length a = n.
Proof. destruct a as [l H]. simpl. exact (bool_decide_unpack _ H). Qed.

Lemma arr_eq {n} (a b : arr n) : arr_bytes a = arr_bytes b -> a = b.
Proof. destruct a, b; simpl; intros ->. f_equal. apply proof_irrel. Qed.

#[export] Instance arr_bytes_inj n : Inj (=) (=) (@arr_bytes n).
Proof. intros a b. apply arr_eq. Qed.

#[export] Instance arr_eq_dec n : EqDecision (arr n) := fun a b =>
  match decide (arr_bytes a = arr_bytes b) with
  | left H => left (arr_eq a b H)
  | right H => right (fun E => H (f_equal arr_bytes E))
  end.

(** Rust's [<[u8; n]>::try_from(slice)]. *)
Definition arr_of_list (n : nat) (l : list byte) : option (arr n) :=
  match decide (length l = n) with
  | left H => Some (Arr l (bool_decide_pack _ H))
  | right _ => None
  end.

Lemma arr_of_list_Some n l (a : arr n) : arr_of_list n l = Some a <-> arr_bytes a = l.
Proof.
  unfold arr_of_list. destruct (decide _) as [H|H]; split; intros E; simplify_eq/=; try done.
  - f_equal. by apply arr_eq.
  - by rewrite length_arr in H.
Qed.
Lemma arr_of_list_bytes {n} (a : arr n) : arr_of_list n a = Some a.
Proof. by apply arr_of_list_Some. Qed.

#[export] Instance arr_countable n : Countable (arr n).
Proof. refine (inj_countable (@arr_bytes n) (arr_of_list n) arr_of_list_bytes). Defined.

(** The all-zero array: [[0u8; n]] and [Pubkey::default()]. *)
Definition arr_zero (n : nat) : arr n :=
  Arr (zeros n) (bool_decide_pack _ (length_zeros n)).
Definition arr_fill (n : nat) (b : byte) : arr n :=
  Arr (replicate n b) (bool_decide_pack _ (length_replicate n b)).

(** * Machine integers: a [w]-bit integer is a [Z] in range *)

Definition is_u (w : Z) (z : Z) : Prop := 0 <= z < 2 ^ w.
Definition is_i (w : Z) (z : Z) : Prop := - 2 ^ (w - 1) <= z < 2 ^ (w - 1).
#[export] Instance is_u_dec w z : Decision (is_u w z).
Proof. unfold is_u. apply _. Defined.
#[export] Instance is_i_dec w z : Decision (is_i w z).
Proof. unfold is_i. apply _. Defined.

Definition u_max (w : Z) : Z := 2 ^ w - 1.
Definition i_max (w : Z) : Z := 2 ^ (w - 1) - 1.
Definition i_min (w : Z) : Z := - 2 ^ (w - 1).
(** [as uN] *)
Definition as_u (w z : Z) : Z := z mod 2 ^ w.
(** [checked_*] *)
Definition u_checked (w z : Z) : option Z := if (0 <=? z) && (z <? 2 ^ w) then Some z else None.
Definition i_checked (w z : Z) : option Z := if (i_min w <=? z) && (z <=? i_max w) then Some z else None.
Definition checked_add (w a b : Z) : option Z := u_checked w (a + b).
Definition checked_sub (w a b : Z) : option Z := u_checked w (a - b).
Definition checked_mul (w a b : Z) : option Z := u_checked w (a * b).
Definition checked_pow (w a e : Z) : option Z := u_checked w (a ^ e).
(** [saturating_*] *)
Definition saturating_sub (a b : Z) : Z := Z.max 0 (a - b).
Definition saturating_add (w a b : Z) : Z := Z.min (u_max w) (a + b).
Definition i_clamp (w z : Z) : Z := Z.max (i_min w) (Z.min (i_max w) z).
Definition i_saturating_add (w a b : Z) : Z := i_clamp w (a + b).
Definition i_saturating_sub (w a b : Z) : Z := i_clamp w (a - b).
(** [usize] lengths seen as integers *)
Definition len {A} (l : list A) : Z := Z.of_nat (length l).
Lemma len_app {A} (l k : list A) : len (l ++ k) = len l + len k.
Proof. unfold len. rewrite length_app. lia. Qed.

Lemma u_checked_Some w z r : u_checked w z = Some r <-> r = z /\ is_u w z.
Proof.
  unfold u_checked, is_u. destruct (Z.leb_spec 0 z), (Z.ltb_spec z (2 ^ w)); simpl;
    split; intros; simplify_eq; auto; try lia; naive_solver lia.
Qed.
Lemma u_checked_None w z : u_checked w z = None <-> ~ is_u w z.
Proof.
  unfold u_checked, is_u. destruct (Z.leb_spec 0 z), (Z.ltb_spec z (2 ^ w)); simpl;
    split; intros; simplify_eq; auto; try lia; naive_solver lia.
Qed.
Lemma i_checked_Some w z r : i_checked w z = Some r <-> r = z /\ is_i w z.
Proof.
  unfold i_checked, is_i, i_min, i_max.
  destruct (Z.leb_spec (- 2 ^ (w - 1)) z), (Z.leb_spec z (2 ^ (w - 1) - 1)); simpl;
    split; intros; simplify_eq; auto; try lia; naive_solver lia.
Qed.

(** * Results and programs *)

(** Rust's [Result]. *)
Inductive result (E A : Type) :=
  | Ok (a : A)
  | Err (e : E).
Arguments Ok {_ _} _.
Arguments Err {_ _} _.

#[export] Instance result_eq_dec {E A} `{EqDecision E, EqDecision A} : EqDecision (result E A).
Proof. solve_decision. Defined.

#[export] Instance result_ret {E} : MRet (result E) := fun A a => Ok a.
#[export] Instance result_bind {E} : MBind (result E) := fun A B f m =>
  match m with Ok a => f a | Err e => Err e end.

(** [ok_or], [ensure]-style guards and [map_err(|_| e)]. *)
Definition ok_or {E A} (o : option A) (e : E) : result E A :=
  match o with Some a => Ok a | None => Err e end.
Definition require {E} (b : bool) (e : E) : result E unit :=
  if b then Ok tt else Err e.
Definition map_err {E E' A} (f : E -> E') (r : result E A) : result E' A :=
  match r with Ok a => Ok a | Err e => Err (f e) end.

Lemma result_bind_Ok {E A B} (m : result E A) (f : A -> result E B) b :
  m ≫= f = Ok b <-> exists a, m = Ok a /\ f a = Ok b.
Proof. destruct m; unfold mbind; simpl; naive_solver. Qed.
Lemma ok_or_Ok {E A} (o : option A) (e : E) a : ok_or o e = Ok a <-> o = Some a.
Proof. destruct o; simpl; naive_solver. Qed.
Lemma require_Ok {E} b (e : E) u : require b e = Ok u <-> b = true.
Proof. destruct b, u; simpl; naive_solver. Qed.
Lemma map_err_Ok {E E' A} (f : E -> E') (r : result E A) a : map_err f r = Ok a <-> r = Ok a.
Proof. destruct r; simpl; naive_solver. Qed.

(** Boolean tests of the code, as propositions. *)
Ltac bool_inv :=
  repeat match goal with
  | H : negb _ = true |- _ => apply negb_true_iff in H
  | H : negb _ = false |- _ => apply negb_false_iff in H
  | H : bool_decide _ = true |- _ => apply bool_decide_eq_true in H
  | H : bool_decide _ = false |- _ => apply bool_decide_eq_false in H
  | H : _ && _ = true |- _ => apply andb_true_iff in H; destruct H
  | H : _ || _ = false |- _ => apply orb_false_iff in H; destruct H
  | H : (_ =? _) = true |- _ => apply Z.eqb_eq in H
  | H : (_ =? _) = false |- _ => apply Z.eqb_neq in H
  | H : (_ <? _) = true |- _ => apply Z.ltb_lt in H
  | H : (_ <? _) = false |- _ => apply Z.ltb_ge in H
  | H : (_ <=? _) = true |- _ => apply Z.leb_le in H
  | H : (_ <=? _) = false |- _ => apply Z.leb_gt in H
  end.

#[global] Opaque zeros be_bytes.
