(* ===== verification/Borsh.v ===== *)
(** Borsh, as the derived codecs lay values out: little-endian integers, one tag
    byte for booleans, options and enums, a 32-bit count before a vector, the
    fields of a struct in order. Each codec carries the set of values the Rust
    type has and its laws: decoding inverts encoding and consumes exactly it. *)

From S2P Require Import Prelude.

#[local] Unset Program Cases.
#[local] Obligation Tactic := idtac.

Record codec (A : Type) := Codec {
  enc : A -> list byte;
  dec : list byte -> option (A * list byte);
  valid : A -> Prop;
  dec_enc : forall a rest, valid a -> dec (enc a ++ rest) = Some (a, rest);
  dec_inv : forall l a rest, dec l = Some (a, rest) -> valid a /\ l = enc a ++ rest;
}.
Arguments Codec {_} _ _ _ _ _.
Arguments enc {_} _ _.
Arguments dec {_} _ _.
Arguments valid {_} _ _.
Arguments dec_enc {_} _ _ _ _.
Arguments dec_inv {_} _ _ _ _ _.

(** * Fixed-size chunks *)

Definition take_n (n : nat) (l : list byte) : option (list byte * list byte) :=
  if bool_decide (n <= length l)%nat then Some (take n l, drop n l) else None.
Lemma take_n_app n x rest : length x = n -> take_n n (x ++ rest) = Some (x, rest).
Proof.
  intros <-. unfold take_n. rewrite bool_decide_eq_true_2 by (rewrite length_app; lia).
  by rewrite take_app_length, drop_app_length.
Qed.
Lemma take_n_Some n l x rest : take_n n l = Some (x, rest) -> length x = n /\ l = x ++ rest.
Proof.
  unfold take_n. case_bool_decide; [|done]. intros [= <- <-]. rewrite length_take, take_drop. split; [lia|done].
Qed.

Program Definition c_arr (n : nat) : codec (arr n) :=
  Codec arr_bytes (fun l => '(x, rest) ← take_n n l; a ← arr_of_list n x; Some (a, rest)) (fun _ => True) _ _.
Next Obligation.
  intros n a rest _. cbn beta in *. rewrite take_n_app by apply length_arr. simpl. by rewrite arr_of_list_bytes.
Qed.
Next Obligation.
  intros n l a rest H. cbn beta in *. destruct (take_n n l) as [[x r]|] eqn:E; [|done]. simpl in H.
  destruct (arr_of_list n x) as [b|] eqn:Eb; [|done]. simpl in H. simplify_eq.
  apply take_n_Some in E as [_ ->]. apply arr_of_list_Some in Eb. by rewrite Eb.
Qed.

(** Unsigned integers of [n] bytes. *)
Program Definition c_u (n : nat) : codec Z :=
  Codec (le_bytes n) (fun l => '(x, rest) ← take_n n l; Some (Z_of_le x, rest)) (is_u (8 * Z.of_nat n)) _ _.
Next Obligation.
  intros n a rest Ha. cbn beta in *. rewrite take_n_app by apply length_le_bytes. simpl. rewrite Z_of_le_bytes, Z.mod_small; [done|].
  unfold is_u in Ha. rewrite Z.pow_mul_r in Ha by lia. done.
Qed.
Next Obligation.
  intros n l a rest H. cbn beta in *. destruct (take_n n l) as [[x r]|] eqn:E; [|done]. simpl in H. simplify_eq.
  apply take_n_Some in E as [Hl ->]. split.
  - pose proof (Z_of_le_range x) as Hr. rewrite Hl in Hr. unfold is_u. rewrite Z.pow_mul_r by lia. done.
  - by rewrite <- Hl, le_bytes_of_Z.
Qed.
Definition c_u8 : codec Z := c_u 1.
Definition c_u16 : codec Z := c_u 2.
Definition c_u32 : codec Z := c_u 4.
Definition c_u64 : codec Z := c_u 8.
Definition c_u128 : codec Z := c_u 16.

(** A codec through a bijection of the valid values. *)
Program Definition c_map {A B} (c : codec A) (f : A -> B) (g : B -> A) (P : B -> Prop)
    (Hg : forall b, P b -> valid c (g b) /\ f (g b) = b)
    (Hf : forall a, valid c a -> P (f a) /\ g (f a) = a) : codec B :=
  Codec (fun b => enc c (g b)) (fun l => '(a, rest) ← dec c l; Some (f a, rest)) P _ _.
Next Obligation.
  intros A B c f g P Hg Hf b rest Hb. cbn beta in *. destruct (Hg b Hb) as [Hv E]. rewrite dec_enc by done. simpl. by rewrite E.
Qed.
Next Obligation.
  intros A B c f g P Hg Hf l b rest H. cbn beta in *. destruct (dec c l) as [[a r]|] eqn:E; [|done]. simpl in H. simplify_eq.
  apply dec_inv in E as [Hv ->]. destruct (Hf a Hv) as [? ->]. done.
Qed.

(** [i64], in two's complement. *)
Program Definition c_i64 : codec Z :=
  c_map c_u64 (fun z => if z <? 2 ^ 63 then z else z - 2 ^ 64) (as_u 64) (is_i 64) _ _.
Next Obligation.
  intros z Hz. cbn beta in *. unfold as_u, is_i, is_u, c_u64, c_u in *. cbn [valid]. change (8 * Z.of_nat 8) with 64. pose proof (Z.mod_pos_bound z (2 ^ 64) eq_refl).
  split; [split; lia|]. change (2 ^ (64 - 1)) with (2 ^ 63) in *.
  destruct (Z.neg_nonneg_cases z).
  - rewrite <- (Z.mod_unique z (2 ^ 64) (-1) (z + 2 ^ 64)) by lia. destruct (Z.ltb_spec (z + 2 ^ 64) (2 ^ 63)); lia.
  - rewrite Z.mod_small by lia. destruct (Z.ltb_spec z (2 ^ 63)); lia.
Qed.
Next Obligation.
  intros z Hz. cbn beta in *. unfold as_u, is_i, is_u, c_u64, c_u in *. cbn [valid] in *. change (8 * Z.of_nat 8) with 64 in Hz. unfold is_u in Hz.
  change (2 ^ (64 - 1)) with (2 ^ 63) in *. destruct (Z.ltb_spec z (2 ^ 63)).
  - split; [lia|]. apply Z.mod_small. lia.
  - split; [lia|]. symmetry. apply (Z.mod_unique _ _ (-1)); lia.
Qed.

Program Definition c_bool : codec bool :=
  Codec (fun b : bool => [if b then Byte.x01 else Byte.x00])
    (fun l => match l with
              | Byte.x00 :: rest => Some (false, rest)
              | Byte.x01 :: rest => Some (true, rest)
              | _ => None
              end) (fun _ => True) _ _.
Next Obligation. by intros []. Qed.
Next Obligation. intros l b rest H. cbn beta in *. destruct l as [|[] ?]; simplify_eq; done. Qed.

(** * Products, vectors and options *)

Program Definition c_pair {A B} (c : codec A) (d : codec B) : codec (A * B) :=
  Codec (fun p => enc c (fst p) ++ enc d (snd p))
    (fun l => '(a, r) ← dec c l; '(b, r') ← dec d r; Some ((a, b), r'))
    (fun p => valid c (fst p) /\ valid d (snd p)) _ _.
Next Obligation.
  intros A B c d [a b] rest [Ha Hb]. cbn beta in *. simpl in *. rewrite <- app_assoc, dec_enc by done. simpl. by rewrite dec_enc.
Qed.
Next Obligation.
  intros A B c d l [a b] rest H. cbn beta in *. destruct (dec c l) as [[a' r]|] eqn:Ec; [|done]. simpl in H.
  destruct (dec d r) as [[b' r']|] eqn:Ed; [|done]. simpl in H. simplify_eq.
  apply dec_inv in Ec as [? ->]. apply dec_inv in Ed as [? ->]. simpl. by rewrite <- app_assoc.
Qed.

Fixpoint dec_n {A} (c : codec A) (n : nat) (l : list byte) : option (list A * list byte) :=
  match n with
  | O => Some ([], l)
  | S n => '(a, r) ← dec c l; '(t, r') ← dec_n c n r; Some (a :: t, r')
  end.
Definition enc_all {A} (c : codec A) (l : list A) : list byte := concat (enc c <$> l).
Lemma dec_n_enc {A} (c : codec A) l rest : Forall (valid c) l ->
  dec_n c (length l) (enc_all c l ++ rest) = Some (l, rest).
Proof.
  induction 1 as [|a l Ha _ IH]; [done|]. unfold enc_all in *. cbn [length dec_n fmap list_fmap concat].
  rewrite <- app_assoc, dec_enc by done. cbn [mbind option_bind]. by rewrite IH.
Qed.
Lemma dec_n_inv {A} (c : codec A) n l x rest : dec_n c n l = Some (x, rest) ->
  length x = n /\ Forall (valid c) x /\ l = enc_all c x ++ rest.
Proof.
  revert l x. induction n as [|n IH]; intros l x H; simpl in H; [by simplify_eq|].
  destruct (dec c l) as [[a r]|] eqn:Ec; [|done]. simpl in H.
  destruct (dec_n c n r) as [[t r']|] eqn:Et; [|done]. simpl in H. simplify_eq.
  apply IH in Et as (<- & Ht & ->). apply dec_inv in Ec as [? ->].
  split_and!; [done|by constructor|]. unfold enc_all. simpl. by rewrite <- app_assoc.
Qed.

Program Definition c_vec {A} (c : codec A) : codec (list A) :=
  Codec (fun l => enc c_u32 (len l) ++ enc_all c l)
    (fun l => '(n, r) ← dec c_u32 l; dec_n c (Z.to_nat n) r)
    (fun l => is_u 32 (len l) /\ Forall (valid c) l) _ _.
Next Obligation.
  intros A c l rest [Hn Hl]. cbn beta in *. rewrite <- app_assoc, dec_enc by done. cbn [mbind option_bind].
  unfold len. rewrite Nat2Z.id. by apply dec_n_enc.
Qed.
Next Obligation.
  intros A c l x rest H. cbn beta in *. destruct (dec c_u32 l) as [[n r]|] eqn:En; [|done]. cbn [mbind option_bind] in H.
  apply dec_inv in En as [Hn ->]. apply dec_n_inv in H as (Hx & Hv & ->).
  assert (n = len x) as -> by (unfold len, is_u in *; cbn in Hn; unfold is_u in Hn; lia).
  split; [done|by rewrite <- app_assoc].
Qed.

Program Definition c_byte : codec byte :=
  Codec (fun b => [b]) (fun l => match l with b :: r => Some (b, r) | [] => None end) (fun _ => True) _ _.
Next Obligation. done. Qed.
Next Obligation. intros [|b l] a rest H; by simplify_eq. Qed.
Definition c_bytes : codec (list byte) := c_vec c_byte.

Program Definition c_option {A} (c : codec A) : codec (option A) :=
  Codec (fun o => match o with None => [Byte.x00] | Some a => Byte.x01 :: enc c a end)
    (fun l => match l with
              | Byte.x00 :: r => Some (None, r)
              | Byte.x01 :: r => '(a, r') ← dec c r; Some (Some a, r')
              | _ => None
              end)
    (fun o => match o with None => True | Some a => valid c a end) _ _.
Next Obligation. intros A c [a|] rest Ha; simpl in *; [by rewrite dec_enc|done]. Qed.
Next Obligation.
  intros A c l o rest H. cbn beta in *. destruct l as [|[] l]; try done; [by simplify_eq|].
  destruct (dec c l) as [[a r]|] eqn:E; [|done]. simpl in H. simplify_eq. by apply dec_inv in E as [? ->].
Qed.

(** [deserialize] on a prefix and [try_from_slice] on the whole input. *)
Definition deserialize {A} (c : codec A) (l : list byte) : option A := fst <$> dec c l.
Definition try_from_slice {A} (c : codec A) (l : list byte) : option A :=
  match dec c l with Some (a, []) => Some a | _ => None end.

Lemma deserialize_enc {A} (c : codec A) a rest : valid c a -> deserialize c (enc c a ++ rest) = Some a.
Proof. intros Ha. unfold deserialize. by rewrite dec_enc. Qed.
Lemma deserialize_inv {A} (c : codec A) l a : deserialize c l = Some a -> valid c a /\ exists rest, l = enc c a ++ rest.
Proof.
  unfold deserialize. destruct (dec c l) as [[b r]|] eqn:E; [|done]. intros [= <-]. apply dec_inv in E. naive_solver.
Qed.

(** A struct as the tuple of its fields. *)
Program Definition c_iso {A B} (c : codec A) (f : A -> B) (g : B -> A) (Hfg : forall b, f (g b) = b)
    (Hgf : forall a, g (f a) = a) : codec B := c_map c f g (fun b => valid c (g b)) _ _.
Next Obligation. intros A B c f g Hfg Hgf b Hb. done. Qed.
Next Obligation. intros A B c f g Hfg Hgf a Ha. cbn beta. by rewrite Hgf. Qed.

(** * Sizes *)

Lemma len_enc_arr n (a : arr n) : length (enc (c_arr n) a) = n.
Proof. apply length_arr. Qed.
Lemma len_enc_u n z : length (enc (c_u n) z) = n.
Proof. apply length_le_bytes. Qed.
Lemma len_enc_i64 z : length (enc c_i64 z) = 8%nat.
Proof. apply length_le_bytes. Qed.
Lemma len_enc_bool b : length (enc c_bool b) = 1%nat.
Proof. done. Qed.
Lemma len_enc_all {A} (c : codec A) k l : (forall a, length (enc c a) = k) ->
  length (enc_all c l) = (k * length l)%nat.
Proof.
  intros Hk. unfold enc_all. induction l as [|a l IH]; [simpl; lia|].
  rewrite fmap_cons. cbn [concat length]. rewrite length_app, Hk, IH. lia.
Qed.
