(* ===== verification/SolanaRuntime.v ===== *)
(** The Solana runtime as the on-chain programs see it.

    [Runtime] collects everything the programs call that is not part of the
    repository (hash and signature syscalls, PDA derivation, rent, the SPL token
    and loader account decoders, cross-program invocation); [RuntimeLaws] states
    the documented behaviour the proofs rely on. The ledger is a shared store
    keyed by address, so two [AccountInfo]s naming the same account alias. A
    handler is a [prog]: it either fails, and the runtime discards every change
    (the ledger is not part of the error), or returns the new ledger. *)

From S2P Require Import Prelude.

Abbreviation pubkey := (arr 32).
Abbreviation hash32 := (arr 32).
Abbreviation evm_address := (arr 20).

(** [Pubkey::default()] *)
Definition pubkey_default : pubkey := arr_zero 32.

(** The variants of [solana_program::ProgramError] the programs return. *)
Inductive program_error :=
  | Custom (code : Z)
  | InvalidArgument
  | InvalidInstructionData
  | InvalidAccountData
  | AccountDataTooSmall
  | IncorrectProgramId
  | MissingRequiredSignature
  | AccountAlreadyInitialized
  | NotEnoughAccountKeys
  | InvalidSeeds
  | BorshIoError
  | IllegalOwner
  | InvalidRealloc
  | ArithmeticOverflow
  | CpiError (code : Z)
  | ProgramPanic  (* not a ProgramError: the program aborts, e.g. an index out of range *).
#[export] Instance program_error_eq_dec : EqDecision program_error.
Proof. solve_decision. Defined.

Record account := Account {
  acc_lamports : Z;
  acc_owner : pubkey;
  acc_data : list byte;
}.

(** [msg!] lines and [sol_log_data] records. *)
Inductive log_entry :=
  | LogMsg (s : string)
  | LogData (fields : list (list byte)).

Record ledger := Ledger {
  accts : gmap pubkey account;
  clock : Z;                 (* Clock::unix_timestamp, an i64 *)
  logs : list log_entry;
}.

(** One entry of the instruction's account list: an address and its privileges. *)
Record account_info := AccountInfo {
  ai_key : pubkey;
  is_signer : bool;
  is_writable : bool;
}.

(** The cross-program invocations the programs make. The SPL constructors carry
    the token program address handed to the instruction builder. *)
Inductive cpi_instruction :=
  | SysTransfer (from to : pubkey) (lamports : Z)
  | SysAllocate (target : pubkey) (space : Z)
  | SysAssign (target owner : pubkey)
  | SplTransfer (token_program src dst authority : pubkey) (amount : Z)
  | SplTransferChecked (token_program src mint dst authority : pubkey) (amount decimals : Z).

(** The fields of [spl_token::state::Account] the programs read. *)
Record token_account := TokenAccount {
  ta_mint : pubkey;
  ta_owner : pubkey;
  ta_amount : Z;
  ta_delegate : option pubkey;
  ta_close_authority : option pubkey;
}.

Inductive loader_state :=
  | ProgramData (upgrade_authority_address : option pubkey)
  | OtherLoaderState.

Class Runtime := {
  system_program_id : pubkey;
  spl_token_id : pubkey;
  bpf_loader_upgradeable_id : pubkey;
  (** [keccak::hash]; [hashv] is [keccak] of the concatenation *)
  keccak : list byte -> hash32;
  (** digest, recovery id, 64-byte signature; [None] is an error *)
  secp256k1_recover : hash32 -> Z -> list byte -> option (list byte);
  (** [Pubkey::find_program_address]: the address and its bump *)
  find_program_address : list (list byte) -> pubkey -> pubkey * byte;
  rent_minimum_balance : Z -> Z;
  spl_account_unpack : list byte -> option token_account;
  (** [Mint::unpack(..).decimals] *)
  spl_mint_unpack : list byte -> option Z;
  bincode_loader_state : list byte -> option loader_state;
  pubkey_to_string : pubkey -> string;
  (** build and invoke: the instruction, the account infos passed along, the PDA
      signer seeds, and the accounts before *)
  cpi : cpi_instruction -> list account_info -> list (list (list byte)) ->
        gmap pubkey account -> result program_error (gmap pubkey account);
}.

Definition hashv `{Runtime} (slices : list (list byte)) : hash32 := keccak (concat slices).

(** The account at an address; an address never used is empty and system-owned. *)
Definition acct `{Runtime} (m : gmap pubkey account) (k : pubkey) : account :=
  default (Account 0 system_program_id []) (m !! k).

(** SPL balance, mint and owner of a token account, as a client reads them. *)
Definition token_at `{Runtime} (m : gmap pubkey account) (k : pubkey) : option token_account :=
  spl_account_unpack (acc_data (acct m k)).
Definition token_balance `{Runtime} (m : gmap pubkey account) (k : pubkey) : Z :=
  from_option ta_amount 0 (token_at m k).

(** What an SPL transfer of [amount] from [src] to [dst] does to the accounts. *)
Record spl_moved `{Runtime} (src dst auth : pubkey) (amount : Z) (m m' : gmap pubkey account) : Prop := {
  spl_src_owned : acc_owner (acct m src) = spl_token_id;
  spl_dst_owned : acc_owner (acct m dst) = spl_token_id;
  spl_owners : forall k, acc_owner (acct m' k) = acc_owner (acct m k);
  spl_others : forall k, k <> src -> k <> dst -> acc_data (acct m' k) = acc_data (acct m k);
  spl_authority : forall t, token_at m src = Some t -> ta_owner t = auth \/ ta_delegate t = Some auth;
  spl_enough : 0 <= amount <= token_balance m src;
  spl_debit : src <> dst -> token_balance m' src = token_balance m src - amount;
  spl_credit : src <> dst -> token_balance m' dst = token_balance m dst + amount;
  spl_credit_fits : src <> dst -> token_balance m' dst < 2 ^ 64;
  spl_self : src = dst -> acc_data (acct m' src) = acc_data (acct m src);
  spl_mints : forall k, ta_mint <$> token_at m' k = ta_mint <$> token_at m k;
  spl_keeps : forall k t, token_at m k = Some t -> exists t', token_at m' k = Some t' /\
    ta_owner t' = ta_owner t /\ (ta_delegate t = None -> ta_delegate t' = None) /\
    ta_close_authority t' = ta_close_authority t;
}.

Class RuntimeLaws `{Runtime} : Prop := {
  system_not_spl : system_program_id <> spl_token_id;
  spl_amount_u64 : forall d t, spl_account_unpack d = Some t -> is_u 64 (ta_amount t);
  spl_mint_decimals_u8 : forall d x, spl_mint_unpack d = Some x -> is_u 8 x;
  cpi_system_transfer : forall f t n infos seeds m m',
    cpi (SysTransfer f t n) infos seeds m = Ok m' ->
    forall k, acc_owner (acct m' k) = acc_owner (acct m k) /\ acc_data (acct m' k) = acc_data (acct m k);
  cpi_system_allocate : forall k n infos seeds m m',
    cpi (SysAllocate k n) infos seeds m = Ok m' ->
    acc_data (acct m k) = [] /\ acc_owner (acct m k) = system_program_id /\
    acc_data (acct m' k) = zeros (Z.to_nat n) /\ acc_owner (acct m' k) = system_program_id /\
    forall k', k' <> k -> acct m' k' = acct m k';
  cpi_system_assign : forall k o infos seeds m m',
    cpi (SysAssign k o) infos seeds m = Ok m' ->
    acc_owner (acct m' k) = o /\ acc_data (acct m' k) = acc_data (acct m k) /\
    (acc_owner (acct m k) = system_program_id \/ acc_owner (acct m k) = o) /\
    forall k', k' <> k -> acct m' k' = acct m k';
  cpi_spl_transfer : forall tp src dst auth n infos seeds m m',
    cpi (SplTransfer tp src dst auth n) infos seeds m = Ok m' ->
    tp = spl_token_id /\ spl_moved src dst auth n m m';
  cpi_spl_transfer_checked : forall tp src mint dst auth n d infos seeds m m',
    cpi (SplTransferChecked tp src mint dst auth n d) infos seeds m = Ok m' ->
    tp = spl_token_id /\ spl_moved src dst auth n m m';
}.

(** * Programs *)

Definition prog (A : Type) : Type := ledger -> result program_error (A * ledger).

#[export] Instance prog_ret : MRet prog := fun A a s => Ok (a, s).
#[export] Instance prog_bind : MBind prog := fun A B f m s =>
  match m s with Ok (a, s') => f a s' | Err e => Err e end.

Definition fail {A} (e : program_error) : prog A := fun _ => Err e.
(** Run a pure fallible computation. *)
Definition lift {A} (r : result program_error A) : prog A := fun s =>
  match r with Ok a => Ok (a, s) | Err e => Err e end.
(** An early return [if !b { return Err(e) }]. *)
Definition ensure (b : bool) (e : program_error) : prog unit := lift (require b e).

(** [next_account_info(it)?]: the account and the advanced iterator. *)
Definition next_account_info (it : list account_info) : prog (account_info * list account_info) :=
  match it with
  | a :: it => mret (a, it)
  | [] => fail NotEnoughAccountKeys
  end.
(** [next_account_info(it).map_err(|_| e)?] *)
Definition next_account_info_or (it : list account_info) (e : program_error)
    : prog (account_info * list account_info) :=
  match it with
  | a :: it => mret (a, it)
  | [] => fail e
  end.

(** [Clock::get()?.unix_timestamp] *)
Definition clock_now : prog Z := fun s => Ok (clock s, s).
Definition emit_log (e : log_entry) : prog unit := fun s =>
  Ok (tt, Ledger (accts s) (clock s) (logs s ++ [e])).
Definition msg (m : string) : prog unit := emit_log (LogMsg m).
Definition sol_log_data (fields : list (list byte)) : prog unit := emit_log (LogData fields).

Section Ops.
Context {RT : Runtime}.

Definition get_account (ai : account_info) : prog account := fun s =>
  Ok (acct (accts s) (ai_key ai), s).
(** [ai.owner], [ai.data.borrow()], [ai.lamports()] *)
Definition ai_owner (ai : account_info) : prog pubkey := a ← get_account ai; mret (acc_owner a).
Definition ai_data (ai : account_info) : prog (list byte) := a ← get_account ai; mret (acc_data a).
Definition ai_lamports (ai : account_info) : prog Z := a ← get_account ai; mret (acc_lamports a).

Definition set_acct_data (m : gmap pubkey account) (k : pubkey) (d : list byte) : gmap pubkey account :=
  <[k := Account (acc_lamports (acct m k)) (acc_owner (acct m k)) d]> m.
Definition set_data (ai : account_info) (d : list byte) : prog unit := fun s =>
  Ok (tt, Ledger (set_acct_data (accts s) (ai_key ai) d) (clock s) (logs s)).

(** [value.serialize(&mut &mut ai.data.borrow_mut()[..])?]: fills the start of the
    buffer and leaves the rest; too small a buffer is an I/O error. *)
Definition write_prefix (ai : account_info) (b : list byte) : prog unit :=
  d ← ai_data ai;
  _ ← ensure (bool_decide (length b <= length d)%nat) BorshIoError;
  set_data ai (b ++ drop (length b) d).

(** [ai.realloc(space, true)] growing the account to [space] bytes, the new ones
    zeroed; the programs never shrink one (the call is guarded by
    [data_len() < space]). *)
Definition max_permitted_data_increase : Z := 10240.
Definition realloc_zero (ai : account_info) (space : Z) : prog unit :=
  d ← ai_data ai;
  _ ← ensure (space - len d <=? max_permitted_data_increase) InvalidRealloc;
  set_data ai (d ++ zeros (Z.to_nat space - length d)).

(** [invoke] and [invoke_signed] *)
Definition invoke_signed (ix : cpi_instruction) (infos : list account_info)
    (seeds : list (list (list byte))) : prog unit := fun s =>
  match cpi ix infos seeds (accts s) with
  | Ok m => Ok (tt, Ledger m (clock s) (logs s))
  | Err e => Err e
  end.
Definition invoke (ix : cpi_instruction) (infos : list account_info) : prog unit :=
  invoke_signed ix infos [].
End Ops.

(** * Inverting a successful run *)

Lemma prog_bind_Ok {A B} (m : prog A) (f : A -> prog B) s r :
  (m ≫= f) s = Ok r <-> exists a s', m s = Ok (a, s') /\ f a s' = Ok r.
Proof.
  unfold mbind, prog_bind. destruct (m s) as [[a s']|e]; naive_solver.
Qed.
Lemma prog_bind_run {A B} (m : prog A) (f : A -> prog B) s a s' :
  m s = Ok (a, s') -> (m ≫= f) s = f a s'.
Proof. unfold mbind, prog_bind. by intros ->. Qed.
Lemma ensure_run {B} b e (f : unit -> prog B) s : (ensure b e ≫= f) s = if b then f tt s else Err e.
Proof. by destruct b. Qed.
Lemma prog_ret_Ok {A} (a b : A) s s' : (mret a : prog A) s = Ok (b, s') <-> b = a /\ s' = s.
Proof. unfold mret, prog_ret. naive_solver. Qed.
Lemma fail_Ok {A} e s (r : A * ledger) : fail e s = Ok r <-> False.
Proof. unfold fail. naive_solver. Qed.
Lemma lift_Ok {A} (x : result program_error A) s a s' :
  lift x s = Ok (a, s') <-> x = Ok a /\ s' = s.
Proof. unfold lift. destruct x; naive_solver. Qed.
Lemma ensure_Ok b e s u s' : ensure b e s = Ok (u, s') <-> b = true /\ s' = s.
Proof. unfold ensure. rewrite lift_Ok, require_Ok. done. Qed.
Lemma next_account_info_Ok it s a it' s' :
  next_account_info it s = Ok ((a, it'), s') <-> it = a :: it' /\ s' = s.
Proof. destruct it; unfold next_account_info, mret, prog_ret, fail; naive_solver. Qed.
Lemma next_account_info_or_Ok it e s a it' s' :
  next_account_info_or it e s = Ok ((a, it'), s') <-> it = a :: it' /\ s' = s.
Proof. destruct it; unfold next_account_info_or, mret, prog_ret, fail; naive_solver. Qed.
Lemma clock_now_Ok s t s' : clock_now s = Ok (t, s') <-> t = clock s /\ s' = s.
Proof. unfold clock_now. naive_solver. Qed.
Lemma emit_log_Ok e s u s' :
  emit_log e s = Ok (u, s') <-> s' = Ledger (accts s) (clock s) (logs s ++ [e]).
Proof. unfold emit_log. destruct u; naive_solver. Qed.

Section OpsOk.
Context {RT : Runtime}.
Lemma ai_owner_Ok ai s o s' :
  ai_owner ai s = Ok (o, s') <-> o = acc_owner (acct (accts s) (ai_key ai)) /\ s' = s.
Proof. unfold ai_owner, get_account, mbind, prog_bind, mret, prog_ret. naive_solver. Qed.
Lemma ai_data_Ok ai s o s' :
  ai_data ai s = Ok (o, s') <-> o = acc_data (acct (accts s) (ai_key ai)) /\ s' = s.
Proof. unfold ai_data, get_account, mbind, prog_bind, mret, prog_ret. naive_solver. Qed.
Lemma ai_lamports_Ok ai s o s' :
  ai_lamports ai s = Ok (o, s') <-> o = acc_lamports (acct (accts s) (ai_key ai)) /\ s' = s.
Proof. unfold ai_lamports, get_account, mbind, prog_bind, mret, prog_ret. naive_solver. Qed.
Lemma set_data_Ok ai d s u s' :
  set_data ai d s = Ok (u, s') <->
  s' = Ledger (set_acct_data (accts s) (ai_key ai) d) (clock s) (logs s).
Proof. unfold set_data. destruct u. naive_solver. Qed.
Lemma invoke_signed_Ok ix infos seeds s u s' :
  invoke_signed ix infos seeds s = Ok (u, s') <->
  exists m, cpi ix infos seeds (accts s) = Ok m /\ s' = Ledger m (clock s) (logs s).
Proof. unfold invoke_signed. destruct (cpi _ _ _ _), u; naive_solver. Qed.
Lemma write_prefix_Ok ai b s u s' :
  write_prefix ai b s = Ok (u, s') <->
  let d := acc_data (acct (accts s) (ai_key ai)) in
  (length b <= length d)%nat /\
  s' = Ledger (set_acct_data (accts s) (ai_key ai) (b ++ drop (length b) d)) (clock s) (logs s).
Proof.
  unfold write_prefix. rewrite prog_bind_Ok. split.
  - intros (d & s1 & (-> & ->)%ai_data_Ok & Hr). apply prog_bind_Ok in Hr as (? & ? & Hr & Hs).
    apply ensure_Ok in Hr as [Hb%bool_decide_eq_true ->]. by apply set_data_Ok in Hs.
  - intros [Hb ->]. eexists _, s. split; [by apply ai_data_Ok|]. apply prog_bind_Ok.
    exists tt, s. split; [apply ensure_Ok; by rewrite bool_decide_eq_true | by apply set_data_Ok].
Qed.
End OpsOk.

(** [prog_inv H] turns a successful run [H : p s = Ok (a, s')] of a monadic
    program into the facts about each step. *)
Ltac prog_leaf H :=
  lazymatch type of H with
  | (mret _) _ = Ok _ => apply prog_ret_Ok in H; destruct H; subst
  | fail _ _ = Ok _ => apply fail_Ok in H; destruct H
  | lift _ _ = Ok _ => apply lift_Ok in H; destruct H as [H ?]; subst; prog_leaf H
  | ensure _ _ _ = Ok _ => apply ensure_Ok in H; destruct H as [H ?]; subst
  | next_account_info _ _ = Ok (?p, _) =>
      try (is_var p; destruct p); apply next_account_info_Ok in H; destruct H; subst
  | next_account_info_or _ _ _ = Ok (?p, _) =>
      try (is_var p; destruct p); apply next_account_info_or_Ok in H; destruct H; subst
  | clock_now _ = Ok _ => apply clock_now_Ok in H; destruct H; subst
  | emit_log _ _ = Ok _ => apply emit_log_Ok in H; subst
  | msg _ _ = Ok _ => apply emit_log_Ok in H; subst
  | sol_log_data _ _ = Ok _ => apply emit_log_Ok in H; subst
  | ai_owner _ _ = Ok _ => apply ai_owner_Ok in H; destruct H; subst
  | ai_data _ _ = Ok _ => apply ai_data_Ok in H; destruct H; subst
  | ai_lamports _ _ = Ok _ => apply ai_lamports_Ok in H; destruct H; subst
  | set_data _ _ _ = Ok _ => apply set_data_Ok in H; subst
  | write_prefix _ _ _ = Ok _ =>
      apply write_prefix_Ok in H; destruct H as [H ?]; subst
  | invoke_signed _ _ _ _ = Ok _ =>
      apply invoke_signed_Ok in H;
      let m := fresh "m" in destruct H as (m & H & ?); subst
  | invoke _ _ _ = Ok _ => unfold invoke in H; prog_leaf H
  | require _ _ = Ok _ => apply require_Ok in H
  | ok_or _ _ = Ok _ => apply ok_or_Ok in H
  | map_err _ _ = Ok _ => apply map_err_Ok in H
  | Ok _ = Ok _ => injection H as H; subst
  | Err _ = Ok _ => discriminate H
  | _ => idtac
  end.
Ltac prog_step H :=
  lazymatch type of H with
  | (mbind _ _) _ = Ok _ =>
      let a := fresh "v" in let s := fresh "s" in let H1 := fresh "Hrun" in
      apply prog_bind_Ok in H; destruct H as (a & s & H1 & H); prog_leaf H1
  | mbind _ _ = Ok _ =>
      let a := fresh "v" in let H1 := fresh "Hrun" in
      apply result_bind_Ok in H; destruct H as (a & H1 & H); prog_leaf H1
  | (let '(_, _) := ?p in _) _ = Ok _ => let E := fresh "E" in destruct p eqn:E
  | (let '(_, _) := ?p in _) = Ok _ => let E := fresh "E" in destruct p eqn:E
  | (if ?b then _ else _) _ = Ok _ => let E := fresh "E" in destruct b eqn:E
  | _ => prog_leaf H
  end.
Ltac prog_inv H := repeat (progress (prog_step H; cbn beta iota zeta in H)).
(** Evaluates a program one primitive at a time, to prove that it succeeds. *)
Ltac prog_run :=
  unfold mbind, prog_bind, result_bind, mret, prog_ret, ai_owner, ai_data, ai_lamports, get_account,
    ensure, lift, require, msg, sol_log_data, emit_log, clock_now, set_data; simpl.
Ltac prog_inv_all :=
  repeat match goal with
  | H : _ = Ok _ |- _ => progress prog_inv H
  end.

(** * How the accounts evolve *)

Section Accounts.
Context {RT : Runtime}.

Lemma acct_insert m k a : acct (<[k := a]> m) k = a.
Proof. unfold acct. by rewrite lookup_insert_eq. Qed.
Lemma acct_insert_ne m k k' a : k <> k' -> acct (<[k := a]> m) k' = acct m k'.
Proof. intros Hne. unfold acct. by rewrite lookup_insert_ne. Qed.
Lemma acct_set_data m k d :
  acct (set_acct_data m k d) k = Account (acc_lamports (acct m k)) (acc_owner (acct m k)) d.
Proof. apply acct_insert. Qed.
Lemma acct_set_data_ne m k k' d : k <> k' -> acct (set_acct_data m k d) k' = acct m k'.
Proof. apply acct_insert_ne. Qed.
Lemma set_data_owner m k k' d : acc_owner (acct (set_acct_data m k d) k') = acc_owner (acct m k').
Proof. destruct (decide (k = k')) as [->|]; [by rewrite acct_set_data|by rewrite acct_set_data_ne]. Qed.
Lemma token_at_set_data m k k' d : k <> k' -> token_at (set_acct_data m k d) k' = token_at m k'.
Proof. intros. unfold token_at. by rewrite acct_set_data_ne. Qed.

(** A program-owned account that holds data. *)
Definition live (program_id : pubkey) (m : gmap pubkey account) (k : pubkey) : Prop :=
  acc_owner (acct m k) = program_id /\ acc_data (acct m k) <> [].

(** From [m] to [m'], live accounts stay live and never shrink, and only those at
    addresses in [K] may change content or become live. *)
Record evolves (program_id : pubkey) (K : pubkey -> Prop) (m m' : gmap pubkey account) : Prop := {
  ev_live : forall k, live program_id m k -> live program_id m' k;
  ev_grows : forall k, live program_id m k ->
    (length (acc_data (acct m k)) <= length (acc_data (acct m' k)))%nat;
  ev_same : forall k, live program_id m k -> K k \/ acc_data (acct m' k) = acc_data (acct m k);
  ev_dead : forall k, ~ live program_id m k -> K k \/ ~ live program_id m' k;
}.

Lemma evolves_refl pid K m : evolves pid K m m.
Proof. by constructor; auto. Qed.
Lemma evolves_trans pid K m1 m2 m3 : evolves pid K m1 m2 -> evolves pid K m2 m3 -> evolves pid K m1 m3.
Proof.
  intros [L1 G1 S1 D1] [L2 G2 S2 D2]. constructor; intros k Hk; [by auto|..].
  - specialize (G1 k Hk). specialize (G2 k (L1 k Hk)). lia.
  - destruct (S1 k Hk) as [?|E1]; [by left|].
    destruct (S2 k (L1 k Hk)) as [?|E2]; [by left|right; congruence].
  - destruct (D1 k Hk) as [?|Hd]; [by left|auto].
Qed.
Lemma evolves_weaken pid (K K' : pubkey -> Prop) m m' :
  evolves pid K m m' -> (forall k, K k -> K' k) -> evolves pid K' m m'.
Proof.
  intros [L G S D] HK. constructor; intros k Hk; [by auto..| |].
  - destruct (S k Hk); auto.
  - destruct (D k Hk); auto.
Qed.
(** Owners and data untouched. *)
Lemma evolves_same pid K m m' :
  (forall k, acc_owner (acct m' k) = acc_owner (acct m k) /\ acc_data (acct m' k) = acc_data (acct m k)) ->
  evolves pid K m m'.
Proof.
  intros Hs. constructor; intros k Hk; unfold live in *; destruct (Hs k) as [Eo Ed]; rewrite ?Eo, ?Ed; auto.
Qed.
(** Only [k], in [K], was rewritten, without shrinking. *)
Lemma evolves_at pid (K : pubkey -> Prop) m m' k : K k ->
  (live pid m k -> live pid m' k /\ (length (acc_data (acct m k)) <= length (acc_data (acct m' k)))%nat) ->
  (forall k', k' <> k -> acct m' k' = acct m k') -> evolves pid K m m'.
Proof.
  intros HK Hl Hoth. constructor; intros k' Hk'; destruct (decide (k' = k)) as [->|Hne]; auto;
    unfold live in *; rewrite ?(Hoth _ Hne); auto; by apply Hl.
Qed.

Lemma evolves_set_data pid (K : pubkey -> Prop) m k d :
  K k -> (length (acc_data (acct m k)) <= length d)%nat -> evolves pid K m (set_acct_data m k d).
Proof.
  intros Hk Hl. apply (evolves_at _ _ _ _ k); [done| |by intros; rewrite acct_set_data_ne].
  unfold live. rewrite acct_set_data. simpl. intros [Ho Hd]. split_and!; [done| |done].
  destruct (acc_data (acct m k)), d; done || (simpl in Hl; lia).
Qed.

(** A program whose successful runs evolve the accounts this way. *)
Definition keeps {A} (program_id : pubkey) (K : pubkey -> Prop) (p : prog A) : Prop :=
  forall s a s', p s = Ok (a, s') -> evolves program_id K (accts s) (accts s').

Lemma keeps_bind {A B} pid K (m : prog A) (f : A -> prog B) :
  keeps pid K m -> (forall s a s', m s = Ok (a, s') -> keeps pid K (f a)) -> keeps pid K (m ≫= f).
Proof.
  intros Hm Hf s b s' (a & s1 & H1 & H2)%prog_bind_Ok.
  eapply evolves_trans; [by eapply Hm|]. by eapply Hf.
Qed.
Lemma keeps_pure {A} pid K (p : prog A) :
  (forall s a s', p s = Ok (a, s') -> accts s' = accts s) -> keeps pid K p.
Proof. intros Hp s a s' Hs. rewrite (Hp _ _ _ Hs). apply evolves_refl. Qed.
Lemma keeps_weaken {A} pid (K K' : pubkey -> Prop) (p : prog A) :
  keeps pid K p -> (forall k, K k -> K' k) -> keeps pid K' p.
Proof. intros Hp HK s a s' Hs. eapply evolves_weaken; [by eapply Hp|done]. Qed.

Lemma keeps_ret {A} pid K (a : A) : keeps pid K (mret a).
Proof. apply keeps_pure. intros ??? [-> ->]%prog_ret_Ok. done. Qed.
Lemma keeps_fail {A} pid K e : keeps (A:=A) pid K (fail e).
Proof. intros ???. by rewrite fail_Ok. Qed.
Lemma keeps_lift {A} pid K (r : result program_error A) : keeps pid K (lift r).
Proof. apply keeps_pure. intros ??? [_ ->]%lift_Ok. done. Qed.
Lemma keeps_ensure pid K b e : keeps pid K (ensure b e).
Proof. apply keeps_lift. Qed.
Lemma keeps_next pid K it : keeps pid K (next_account_info it).
Proof. destruct it; [apply keeps_fail|apply keeps_ret]. Qed.
Lemma keeps_next_or pid K it e : keeps pid K (next_account_info_or it e).
Proof. destruct it; [apply keeps_fail|apply keeps_ret]. Qed.
Lemma keeps_clock pid K : keeps pid K clock_now.
Proof. apply keeps_pure. intros ??? [_ ->]%clock_now_Ok. done. Qed.
Lemma keeps_log pid K e : keeps pid K (emit_log e).
Proof. apply keeps_pure. intros ??? ->%emit_log_Ok. done. Qed.
Lemma keeps_msg pid K e : keeps pid K (msg e).
Proof. apply keeps_log. Qed.
Lemma keeps_log_data pid K e : keeps pid K (sol_log_data e).
Proof. apply keeps_log. Qed.
Lemma keeps_owner pid K ai : keeps pid K (ai_owner ai).
Proof. apply keeps_pure. intros ??? [_ ->]%ai_owner_Ok. done. Qed.
Lemma keeps_data pid K ai : keeps pid K (ai_data ai).
Proof. apply keeps_pure. intros ??? [_ ->]%ai_data_Ok. done. Qed.
Lemma keeps_lamports pid K ai : keeps pid K (ai_lamports ai).
Proof. apply keeps_pure. intros ??? [_ ->]%ai_lamports_Ok. done. Qed.
Lemma keeps_write_prefix pid (K : pubkey -> Prop) ai b : K (ai_key ai) -> keeps pid K (write_prefix ai b).
Proof.
  intros HK s a s' [Hl ->]%write_prefix_Ok. simpl. apply evolves_set_data; [done|].
  rewrite length_app, length_drop. lia.
Qed.
Lemma keeps_realloc pid (K : pubkey -> Prop) ai n : K (ai_key ai) -> keeps pid K (realloc_zero ai n).
Proof.
  intros HK s a s' Hs. unfold realloc_zero in Hs. prog_inv Hs. simpl.
  apply evolves_set_data; [done|]. rewrite length_app. lia.
Qed.
(** Zeroing an account in place. *)
Lemma keeps_wipe {A} pid (K : pubkey -> Prop) ai (f : list byte -> prog A) :
  K (ai_key ai) -> (forall d, keeps pid K (f d)) ->
  keeps pid K (d ← ai_data ai; _ ← set_data ai (zeros (length d)); f d).
Proof.
  intros HK Hf s a s' Hs. prog_inv Hs. eapply evolves_trans; [|by eapply Hf].
  apply evolves_set_data; [done|]. by rewrite length_zeros.
Qed.
End Accounts.

Section CpiKeeps.
Context {RT : Runtime} {RL : RuntimeLaws}.
Lemma keeps_sys_transfer pid K f t n infos seeds :
  keeps pid K (invoke_signed (SysTransfer f t n) infos seeds).
Proof.
  intros s a s' (m & Hm & ->)%invoke_signed_Ok. apply evolves_same, (cpi_system_transfer _ _ _ _ _ _ _ Hm).
Qed.
Lemma keeps_sys_allocate pid (K : pubkey -> Prop) k n infos seeds :
  K k -> keeps pid K (invoke_signed (SysAllocate k n) infos seeds).
Proof.
  intros HK s a s' (m & Hm & ->)%invoke_signed_Ok. simpl.
  destruct (cpi_system_allocate _ _ _ _ _ _ Hm) as (He & _ & _ & _ & Hoth).
  apply (evolves_at _ _ _ _ k); [done|by intros [_ Hd]|done].
Qed.
Lemma keeps_sys_assign pid (K : pubkey -> Prop) k infos seeds :
  K k -> keeps pid K (invoke_signed (SysAssign k pid) infos seeds).
Proof.
  intros HK s a s' (m & Hm & ->)%invoke_signed_Ok. simpl.
  destruct (cpi_system_assign _ _ _ _ _ _ Hm) as (Ho1 & Hd1 & _ & Hoth).
  apply (evolves_at _ _ _ _ k); [done| |done]. unfold live. rewrite Hd1. by intros [_ Hd].
Qed.
Lemma spl_moved_keeps pid K src dst auth n m m' :
  pid <> spl_token_id -> spl_moved src dst auth n m m' -> evolves pid K m m'.
Proof.
  intros Hp [Hs Hd Ho Hoth _ _ _ _ _ _ _ _].
  assert (forall k, acc_owner (acct m k) = pid -> acc_data (acct m' k) = acc_data (acct m k)) as Hsame.
  { intros k Hk. apply Hoth; congruence. }
  constructor; unfold live; intros k Hk; rewrite ?Ho.
  - rewrite Hsame by apply Hk. done.
  - rewrite Hsame by apply Hk. done.
  - right. apply Hsame, Hk.
  - right. intros [Hk1 Hk2]. rewrite Hsame in Hk2 by done. auto.
Qed.
Lemma keeps_spl_transfer pid K tp src dst auth n infos seeds : pid <> spl_token_id ->
  keeps pid K (invoke_signed (SplTransfer tp src dst auth n) infos seeds).
Proof.
  intros Hp s a s' (m & Hm & ->)%invoke_signed_Ok. simpl.
  apply cpi_spl_transfer in Hm as [_ Hm]. by eapply spl_moved_keeps.
Qed.
Lemma keeps_spl_transfer_checked pid K tp src mint dst auth n d infos seeds : pid <> spl_token_id ->
  keeps pid K (invoke_signed (SplTransferChecked tp src mint dst auth n d) infos seeds).
Proof.
  intros Hp s a s' (m & Hm & ->)%invoke_signed_Ok. simpl.
  apply cpi_spl_transfer_checked in Hm as [_ Hm]. by eapply spl_moved_keeps.
Qed.
End CpiKeeps.

Create HintDb keeps discriminated.
#[export] Hint Resolve keeps_ret keeps_fail keeps_lift keeps_ensure keeps_next keeps_next_or keeps_clock
  keeps_log keeps_msg keeps_log_data keeps_owner keeps_data keeps_lamports keeps_write_prefix keeps_realloc
  keeps_sys_transfer keeps_sys_allocate keeps_sys_assign keeps_spl_transfer
  keeps_spl_transfer_checked : keeps.

(** Walks a handler: binds, branches and pattern matches, leaving the primitive
    operations to the [keeps] hints. *)
Ltac keeps_step :=
  lazymatch goal with
  | |- keeps _ _ (mbind _ _) =>
      apply keeps_bind; [| let s := fresh "s" in let a := fresh "v" in let s' := fresh "s'" in
                           let H := fresh "Hrun" in intros s a s' H; cbn beta iota]
  | |- keeps _ _ (let '(_, _) := ?p in _) => let E := fresh "E" in destruct p eqn:E
  | |- keeps _ _ (if ?b then _ else _) => let E := fresh "E" in destruct b eqn:E
  | |- keeps _ _ (match ?x with _ => _ end) => let E := fresh "E" in destruct x eqn:E
  | |- keeps _ _ (invoke _ _) => unfold invoke
  end.
Ltac keeps_tac := repeat (first [solve [eauto with keeps nocore] | keeps_step | progress cbv zeta]).
