(* ===== verification/GateTypes.v ===== *)
(** Data of the Solana gate (crates/solana-gate/src/lib.rs): instructions,
    arguments, stored records, events, constants and errors, and the interface
    [GateBorsh] to the derived Borsh codecs of those types. *)

From S2P Require Import Prelude.
From S2P Require Import SolanaRuntime.

(** * Constants *)

Definition SOLANA_CHAIN_ID : Z := 7565164.
Definition SUBMISSION_PREFIX : Z := 1.
Definition CANCEL_PREFIX : Z := 2.
Definition REFUND_PREFIX : Z := 3.
Definition GOVERNANCE_DELAY : Z := 48 * 60 * 60.
Definition GOVERNANCE_GRACE : Z := 7 * 24 * 60 * 60.
Definition GOVERNANCE_LEN : Z := 8.
Definition SETUP_WINDOW : Z := 7 * 24 * 60 * 60.
Definition CONFIG_SLACK : Z := 64.
Definition ASSET_CONFIG_LEN : Z := 32 * 3 + 2.
Definition LEGACY_ASSET_CONFIG_LEN : Z := 32 * 3.
Definition ASSET_CONFIG_SLACK : Z := 32.
Definition SENT_RECORD_LEN : Z := 32 + 32 + 32 + 32 + 8 + 8.
Definition VAULT_BINDING_LEN : Z := 33.
Definition MARKER_LEN : Z := 1.
Definition MARKER_CLAIMED : byte := Byte.x01.
Definition MARKER_CANCELLED : byte := Byte.x02.
Definition MAX_THRESHOLD : Z := 8.
Definition SENT_EVENT_VERSION : Z := 2.

(** Byte-string literals, [b"..."]. *)
Definition bytes_of_string (s : string) : list byte := String.list_byte_of_string s.
Definition ACTION_ID_VERSION : list byte := bytes_of_string "gate-governance-v2:".
Definition SENT_EVENT_TAG : list byte := bytes_of_string "BRIDGE_SENT".
Definition CANCELLED_EVENT_TAG : list byte := bytes_of_string "BRIDGE_CANCELLED".
Definition REFUNDED_EVENT_TAG : list byte := bytes_of_string "BRIDGE_REFUNDED".

(** * Instruction arguments *)

Record AutoParamsWire := MkAutoParamsWire {
  execution_fee : Z;          (* u128 *)
  flags : Z;                  (* u64 *)
  fallback_address : list byte;
  auto_data : list byte;
}.

Record InitArgs := MkInitArgs {
  ia_bridge_domain : hash32;
  ia_validators : list evm_address;
  ia_threshold : Z;           (* u32 *)
  ia_chain_id : Z;            (* u64 *)
  ia_max_validators : Z;      (* u32 *)
  ia_max_corridors : Z;       (* u32 *)
  ia_guardian : pubkey;
}.

Record SendArgs := MkSendArgs {
  sa_debridge_id : hash32;
  sa_amount : Z;              (* u64, local decimals *)
  sa_chain_id_to : Z;         (* u64 *)
  sa_receiver : list byte;
  sa_auto : option AutoParamsWire;
}.

Record ClaimArgs := MkClaimArgs {
  cl_debridge_id : hash32;
  cl_amount : Z;              (* u64, wire decimals *)
  cl_bridge_decimals : Z;     (* u8 *)
  cl_chain_id_from : Z;
  cl_nonce : Z;
  cl_receiver : list byte;
  cl_auto : option AutoParamsWire;
  cl_native_sender : list byte;
  cl_signatures : list (list byte);
}.

Record CancelArgs := MkCancelArgs {
  ca_debridge_id : hash32;
  ca_amount : Z;
  ca_bridge_decimals : Z;
  ca_chain_id_from : Z;
  ca_nonce : Z;
  ca_receiver : list byte;
  ca_auto : option AutoParamsWire;
  ca_native_sender : list byte;
  ca_signatures : list (list byte);
}.

Record RefundArgs := MkRefundArgs {
  ra_debridge_id : hash32;
  ra_amount : Z;
  ra_bridge_decimals : Z;
  ra_chain_id_to : Z;
  ra_nonce : Z;
  ra_receiver : list byte;
  ra_auto : option AutoParamsWire;
  ra_native_sender : list byte;
  ra_signatures : list (list byte);
}.

(** What [ScheduleAction] queues. *)
Inductive GovernanceAction :=
  | GA_AddValidator (validator : evm_address)
  | GA_LowerThreshold (threshold : Z)
  | GA_RegisterAsset (debridge_id : hash32) (bridge_decimals : Z)
  | GA_SetGuardian (guardian : pubkey).

Inductive GateInstruction :=
  | Init (args : InitArgs)
  | Send (args : SendArgs)
  | Claim (args : ClaimArgs)
  | SetValidator (validator : evm_address) (active : bool)
  | SetThreshold (threshold : Z)
  | RegisterAsset (debridge_id : hash32) (bridge_decimals : Z)
  | RegisterCorridor (chain_id_to : Z)
  | Pause
  | Unpause
  | SetGuardian (guardian : pubkey)
  | Cancel (args : CancelArgs)
  | Refund (args : RefundArgs)
  | ScheduleGovernance (action_id : hash32)
  | CancelScheduledGovernance (action_id : hash32)
  | Seal
  | ScheduleAction (action : GovernanceAction).

(** * Stored records *)

Record GovernanceSchedule := MkGovernanceSchedule { ready_at : Z (* i64 *) }.
Definition GovernanceSchedule_default : GovernanceSchedule := MkGovernanceSchedule 0.

Record Config := MkConfig {
  cfg_owner : pubkey;
  cfg_bridge_domain : hash32;
  cfg_guardian : pubkey;
  cfg_validators : list evm_address;
  cfg_threshold : Z;          (* u32 *)
  cfg_chain_id : Z;           (* u64 *)
  cfg_paused : bool;
  cfg_max_validators : Z;     (* u32 *)
  cfg_max_corridors : Z;      (* u32 *)
  cfg_nonce_to : list (Z * Z);  (* (u64, u64) *)
  cfg_sealed : bool;
  cfg_setup_deadline : Z;     (* i64 *)
}.

Definition with_validators (c : Config) v := MkConfig (cfg_owner c) (cfg_bridge_domain c)
  (cfg_guardian c) v (cfg_threshold c) (cfg_chain_id c) (cfg_paused c) (cfg_max_validators c)
  (cfg_max_corridors c) (cfg_nonce_to c) (cfg_sealed c) (cfg_setup_deadline c).
Definition with_threshold (c : Config) t := MkConfig (cfg_owner c) (cfg_bridge_domain c)
  (cfg_guardian c) (cfg_validators c) t (cfg_chain_id c) (cfg_paused c) (cfg_max_validators c)
  (cfg_max_corridors c) (cfg_nonce_to c) (cfg_sealed c) (cfg_setup_deadline c).
Definition with_guardian (c : Config) g := MkConfig (cfg_owner c) (cfg_bridge_domain c)
  g (cfg_validators c) (cfg_threshold c) (cfg_chain_id c) (cfg_paused c) (cfg_max_validators c)
  (cfg_max_corridors c) (cfg_nonce_to c) (cfg_sealed c) (cfg_setup_deadline c).
Definition with_paused (c : Config) p := MkConfig (cfg_owner c) (cfg_bridge_domain c)
  (cfg_guardian c) (cfg_validators c) (cfg_threshold c) (cfg_chain_id c) p (cfg_max_validators c)
  (cfg_max_corridors c) (cfg_nonce_to c) (cfg_sealed c) (cfg_setup_deadline c).
Definition with_nonce_to (c : Config) n := MkConfig (cfg_owner c) (cfg_bridge_domain c)
  (cfg_guardian c) (cfg_validators c) (cfg_threshold c) (cfg_chain_id c) (cfg_paused c)
  (cfg_max_validators c) (cfg_max_corridors c) n (cfg_sealed c) (cfg_setup_deadline c).
Definition with_sealed (c : Config) b := MkConfig (cfg_owner c) (cfg_bridge_domain c)
  (cfg_guardian c) (cfg_validators c) (cfg_threshold c) (cfg_chain_id c) (cfg_paused c)
  (cfg_max_validators c) (cfg_max_corridors c) (cfg_nonce_to c) b (cfg_setup_deadline c).

Record AssetConfig := MkAssetConfig {
  as_debridge_id : hash32;
  as_mint : pubkey;
  as_vault : pubkey;
  as_bridge_decimals : Z;     (* u8 *)
  as_local_decimals : Z;      (* u8 *)
}.

Record SentRecord := MkSentRecord {
  sr_debridge_id : hash32;
  sr_sender : pubkey;
  sr_source_token : pubkey;
  sr_mint : pubkey;
  sr_amount : Z;              (* u64, local decimals *)
  sr_locked_at : Z;           (* i64 *)
}.

Record VaultBinding := MkVaultBinding {
  vb_mint : pubkey;
  vb_bridge_decimals : Z;     (* u8 *)
}.

#[export] Instance AssetConfig_eq_dec : EqDecision AssetConfig.
Proof. solve_decision. Defined.
#[export] Instance VaultBinding_eq_dec : EqDecision VaultBinding.
Proof. solve_decision. Defined.

(** * Events *)

Record SentEvent := MkSentEvent {
  se_version : Z;
  se_submission_id : hash32;
  se_debridge_id : hash32;
  se_mint : hash32;
  se_amount : Z;
  se_bridge_decimals : Z;
  se_chain_id_from : Z;
  se_chain_id_to : Z;
  se_nonce : Z;
  se_receiver : list byte;
  se_native_sender : list byte;
  se_auto : option AutoParamsWire;
}.

Record LifecycleEvent := MkLifecycleEvent {
  le_version : Z;
  le_submission_id : hash32;
  le_debridge_id : hash32;
  le_chain_id : Z;
  le_nonce : Z;
}.

(** * Errors *)

Inductive GateError :=
  | ZeroAmount | BadReceiver | AlreadyExecuted | InvalidSignerOrder | NotEnoughSignatures
  | BadSignature | CorridorNotRegistered | Paused | AtCapacity | NotSent | AlreadyClaimed
  | NotCancelled | TooManySignatures | ReceiverNotTokenAccount | AssetAlreadyRegistered
  | ZeroBridgeDomain | GovernanceNotScheduled | GovernanceNotReady | GovernanceExpired
  | DuplicateValidator | ZeroValidator | InexactAmount | InvalidBridgeDecimals | AmountOverflow
  | BridgeScaleMismatch | NotSealed | AlreadySealed | VaultAssetMismatch | ThresholdTooHigh
  | UseTypedSchedule | NotSchedulable.
#[export] Instance GateError_eq_dec : EqDecision GateError.
Proof. solve_decision. Defined.

(** The enum discriminant, [e as u32]. *)
Definition GateError_discriminant (e : GateError) : Z :=
  match e with
  | ZeroAmount => 0 | BadReceiver => 1 | AlreadyExecuted => 2 | InvalidSignerOrder => 3
  | NotEnoughSignatures => 4 | BadSignature => 5 | CorridorNotRegistered => 6 | Paused => 7
  | AtCapacity => 8 | NotSent => 9 | AlreadyClaimed => 10 | NotCancelled => 11
  | TooManySignatures => 12 | ReceiverNotTokenAccount => 13 | AssetAlreadyRegistered => 14
  | ZeroBridgeDomain => 15 | GovernanceNotScheduled => 16 | GovernanceNotReady => 17
  | GovernanceExpired => 18 | DuplicateValidator => 19 | ZeroValidator => 20
  | InexactAmount => 21 | InvalidBridgeDecimals => 22 | AmountOverflow => 23
  | BridgeScaleMismatch => 24 | NotSealed => 25 | AlreadySealed => 26
  | VaultAssetMismatch => 27 | ThresholdTooHigh => 28 | UseTypedSchedule => 29
  | NotSchedulable => 30
  end.

(** [impl From<GateError> for ProgramError] *)
Definition gate_err (e : GateError) : program_error := Custom (GateError_discriminant e + 1).

#[export] Instance gate_err_inj : Inj (=) (=) gate_err.
Proof. intros x y [= H]. destruct x, y; try done; simpl in H; lia. Qed.

(** * Well-formedness: the ranges Rust's types enforce *)

Definition Config_wf (c : Config) : Prop :=
  is_u 32 (len (cfg_validators c)) /\ is_u 32 (cfg_threshold c) /\ is_u 64 (cfg_chain_id c) /\
  is_u 32 (cfg_max_validators c) /\ is_u 32 (cfg_max_corridors c) /\
  is_u 32 (len (cfg_nonce_to c)) /\
  Forall (fun e => is_u 64 (fst e) /\ is_u 64 (snd e)) (cfg_nonce_to c) /\
  is_i 64 (cfg_setup_deadline c).
Definition AssetConfig_wf (a : AssetConfig) : Prop :=
  is_u 8 (as_bridge_decimals a) /\ is_u 8 (as_local_decimals a).
Definition SentRecord_wf (r : SentRecord) : Prop := is_u 64 (sr_amount r) /\ is_i 64 (sr_locked_at r).
Definition VaultBinding_wf (b : VaultBinding) : Prop := is_u 8 (vb_bridge_decimals b).
Definition GovernanceSchedule_wf (g : GovernanceSchedule) : Prop := is_i 64 (ready_at g).

Definition InitArgs_wf (a : InitArgs) : Prop :=
  is_u 32 (len (ia_validators a)) /\ is_u 32 (ia_threshold a) /\ is_u 64 (ia_chain_id a) /\
  is_u 32 (ia_max_validators a) /\ is_u 32 (ia_max_corridors a).
Definition auto_wf (auto : option AutoParamsWire) : Prop :=
  match auto with Some a => is_u 128 (execution_fee a) /\ is_u 64 (flags a) | None => True end.
#[export] Instance auto_wf_dec auto : Decision (auto_wf auto).
Proof. destruct auto; apply _. Defined.
Definition SendArgs_wf (a : SendArgs) : Prop :=
  is_u 64 (sa_amount a) /\ is_u 64 (sa_chain_id_to a) /\ auto_wf (sa_auto a).
Definition ClaimArgs_wf (a : ClaimArgs) : Prop :=
  is_u 64 (cl_amount a) /\ is_u 8 (cl_bridge_decimals a) /\ is_u 64 (cl_chain_id_from a) /\
  is_u 64 (cl_nonce a) /\ auto_wf (cl_auto a).
Definition CancelArgs_wf (a : CancelArgs) : Prop :=
  is_u 64 (ca_amount a) /\ is_u 8 (ca_bridge_decimals a) /\ is_u 64 (ca_chain_id_from a) /\
  is_u 64 (ca_nonce a) /\ auto_wf (ca_auto a).
Definition RefundArgs_wf (a : RefundArgs) : Prop :=
  is_u 64 (ra_amount a) /\ is_u 8 (ra_bridge_decimals a) /\ is_u 64 (ra_chain_id_to a) /\
  is_u 64 (ra_nonce a) /\ auto_wf (ra_auto a).
Definition GovernanceAction_wf (a : GovernanceAction) : Prop :=
  match a with
  | GA_LowerThreshold t => is_u 32 t
  | GA_RegisterAsset _ d => is_u 8 d
  | _ => True
  end.
Definition GateInstruction_wf (ix : GateInstruction) : Prop :=
  match ix with
  | Init a => InitArgs_wf a
  | Send a => SendArgs_wf a
  | Claim a => ClaimArgs_wf a
  | SetThreshold t => is_u 32 t
  | RegisterAsset _ d => is_u 8 d
  | RegisterCorridor x => is_u 64 x
  | Cancel a => CancelArgs_wf a
  | Refund a => RefundArgs_wf a
  | ScheduleAction a => GovernanceAction_wf a
  | _ => True
  end.
#[export] Instance GateInstruction_wf_dec ix : Decision (GateInstruction_wf ix).
Proof.
  destruct ix as [| | | | | | | | | | | | | | |[]]; simpl;
    unfold InitArgs_wf, SendArgs_wf, ClaimArgs_wf, CancelArgs_wf, RefundArgs_wf; apply _.
Defined.

#[export] Instance SendArgs_wf_dec a : Decision (SendArgs_wf a).
Proof. unfold SendArgs_wf. apply _. Defined.
#[export] Instance InitArgs_wf_dec a : Decision (InitArgs_wf a).
Proof. unfold InitArgs_wf. apply _. Defined.
#[export] Instance Config_wf_dec c : Decision (Config_wf c).
Proof. unfold Config_wf. apply _. Defined.
#[export] Instance AssetConfig_wf_dec c : Decision (AssetConfig_wf c).
Proof. unfold AssetConfig_wf. apply _. Defined.
#[export] Instance SentRecord_wf_dec c : Decision (SentRecord_wf c).
Proof. unfold SentRecord_wf. apply _. Defined.

(** * Borsh *)

(** A Borsh codec: [deserialize] reads a prefix and ignores what follows. *)
Class Borsh (A : Type) := {
  borsh_ser : A -> list byte;
  borsh_de : list byte -> option A;
}.

(** What a codec promises on the values of the Rust type. *)
Class BorshLaws (A : Type) `{Borsh A} (wf : A -> Prop) (size : A -> Z) : Prop := {
  borsh_roundtrip : forall a rest, wf a -> borsh_de (borsh_ser a ++ rest) = Some a;
  borsh_size : forall a, wf a -> len (borsh_ser a) = size a;
  borsh_de_wf : forall l a, borsh_de l = Some a -> wf a;
  borsh_de_len : forall l a, borsh_de l = Some a -> size a <= len l;
}.

(** The derived codecs the gate uses. [ix_try_from_slice] is
    [GateInstruction::try_from_slice]; events are only written. *)
Class GateBorsh := {
  #[global] Config_borsh :: Borsh Config;
  #[global] AssetConfig_borsh :: Borsh AssetConfig;
  #[global] SentRecord_borsh :: Borsh SentRecord;
  #[global] VaultBinding_borsh :: Borsh VaultBinding;
  #[global] GovernanceSchedule_borsh :: Borsh GovernanceSchedule;
  ix_try_from_slice : list byte -> option GateInstruction;
  SentEvent_to_vec : SentEvent -> list byte;
  LifecycleEvent_to_vec : LifecycleEvent -> list byte;
}.
