(* ===== verification/GateHash.v ===== *)
(** Hashing: the submissionId and the three signing domains of the Solana gate
    (crates/solana-gate/src/lib.rs) and the governance action ids. The hash function is the
    runtime's [keccak]; the theorems are about the preimages fed to it. *)

From S2P Require Import Prelude.
From S2P Require Import SolanaRuntime.
From S2P Require Import GateTypes.

Section Hash.
Context {RT : Runtime}.

(** * The gate's hashing *)

Definition be32 (v : Z) : list byte := zeros 24 ++ be_bytes 8 v.
Definition amount_word (v : Z) : list byte := zeros 24 ++ be_bytes 8 v.

Definition submission_id (bridge_domain debridge_id : hash32) (bridge_decimals amount chain_id_from
    chain_id_to nonce : Z) (receiver : list byte) (auto : option AutoParamsWire)
    (native_sender : list byte) : hash32 :=
  let prefix := be32 SUBMISSION_PREFIX in
  let cf := be32 chain_id_from in
  let ct := be32 chain_id_to in
  let amt := amount_word amount in
  let nz := be32 nonce in
  let bd := [byte_of_Z bridge_decimals] in
  let base := [prefix; arr_bytes bridge_domain; arr_bytes debridge_id; cf; ct; bd; amt; receiver; nz] in
  match auto with
  | None => hashv base
  | Some a =>
      let fee := zeros 16 ++ be_bytes 16 (execution_fee a) in
      let flags := be32 (flags a) in
      let fb := hashv [fallback_address a] in
      let data := hashv [auto_data a] in
      let ns := hashv [native_sender] in
      hashv [prefix; arr_bytes bridge_domain; arr_bytes debridge_id; cf; ct; bd; amt; receiver; nz; fee;
             flags; arr_bytes fb; arr_bytes data; arr_bytes ns]
  end.

Definition cancel_id (submission_id : hash32) : hash32 :=
  hashv [be32 CANCEL_PREFIX; arr_bytes submission_id].
Definition refund_id (submission_id : hash32) : hash32 :=
  hashv [be32 REFUND_PREFIX; arr_bytes submission_id].

Definition add_validator_action_id (v : evm_address) : hash32 :=
  hashv [ACTION_ID_VERSION; bytes_of_string "addValidator"; arr_bytes v].
Definition set_guardian_action_id (guardian : pubkey) : hash32 :=
  hashv [ACTION_ID_VERSION; bytes_of_string "setGuardian"; arr_bytes guardian].
Definition lower_threshold_action_id (t : Z) : hash32 :=
  hashv [ACTION_ID_VERSION; bytes_of_string "lowerThreshold"; be32 t].
Definition register_asset_action_id (debridge_id : hash32) (mint vault : pubkey)
    (bridge_decimals : Z) : hash32 :=
  hashv [ACTION_ID_VERSION; bytes_of_string "registerAsset"; arr_bytes debridge_id; arr_bytes mint;
         arr_bytes vault; [byte_of_Z bridge_decimals]].

(** [b"\x19Ethereum Signed Message:\n32"] *)
Definition eth_message_prefix : list byte :=
  Byte.x19 :: bytes_of_string "Ethereum Signed Message:" ++ [Byte.x0a; Byte.x33; Byte.x32].
Definition eth_signed_digest (id : hash32) : hash32 := hashv [eth_message_prefix; arr_bytes id].

(** * The transfer a submissionId stands for *)

(** The fields hashed into an id (an abstract view, not a type of the code). *)
Record transfer := Transfer {
  tr_domain : hash32; tr_debridge_id : hash32; tr_decimals : Z; tr_amount : Z;
  tr_from : Z; tr_to : Z; tr_nonce : Z; tr_receiver : list byte;
  tr_auto : option AutoParamsWire; tr_native_sender : list byte;
}.
Definition transfer_wf (t : transfer) : Prop :=
  is_u 8 (tr_decimals t) /\ is_u 64 (tr_amount t) /\ is_u 64 (tr_from t) /\ is_u 64 (tr_to t) /\
  is_u 64 (tr_nonce t) /\ (length (tr_receiver t) = 20%nat \/ length (tr_receiver t) = 32%nat) /\
  (forall a, tr_auto t = Some a -> is_u 128 (execution_fee a) /\ is_u 64 (flags a)).
Definition transfer_id (t : transfer) : hash32 :=
  submission_id (tr_domain t) (tr_debridge_id t) (tr_decimals t) (tr_amount t) (tr_from t) (tr_to t)
    (tr_nonce t) (tr_receiver t) (tr_auto t) (tr_native_sender t).

(** The bytes under the outer hash. *)
Definition auto_tail (auto : option AutoParamsWire) (native_sender : list byte) : list byte :=
  match auto with
  | None => []
  | Some a => zeros 16 ++ be_bytes 16 (execution_fee a) ++ be32 (flags a) ++
      arr_bytes (keccak (fallback_address a)) ++ arr_bytes (keccak (auto_data a)) ++
      arr_bytes (keccak native_sender)
  end.
Definition transfer_preimage (t : transfer) : list byte :=
  be32 SUBMISSION_PREFIX ++ arr_bytes (tr_domain t) ++ arr_bytes (tr_debridge_id t) ++
  be32 (tr_from t) ++ be32 (tr_to t) ++ [byte_of_Z (tr_decimals t)] ++ be32 (tr_amount t) ++
  tr_receiver t ++ be32 (tr_nonce t) ++ auto_tail (tr_auto t) (tr_native_sender t).

Lemma transfer_id_preimage t : transfer_id t = keccak (transfer_preimage t).
Proof.
  unfold transfer_id, submission_id, transfer_preimage, hashv, amount_word, auto_tail.
  destruct (tr_auto t); cbn [concat]; rewrite ?app_nil_r, <- ?app_assoc; done.
Qed.

Lemma length_be32 v : length (be32 v) = 32%nat.
Proof. unfold be32. by rewrite length_app, length_zeros, length_be_bytes. Qed.
Lemma be32_inj x y : is_u 64 x -> is_u 64 y -> be32 x = be32 y -> x = y.
Proof.
  unfold be32. intros Hx Hy E. apply (inj (zeros 24 ++.)) in E.
  by apply be_bytes_inj in E.
Qed.
Lemma be32_word v : is_u 64 v -> be32 v = be_bytes 32 v.
Proof. intros Hv. symmetry. apply (be_bytes_widen 24 8). exact Hv. Qed.
Lemma fee_word v : is_u 128 v -> zeros 16 ++ be_bytes 16 v = be_bytes 32 v.
Proof. intros Hv. symmetry. apply (be_bytes_widen 16 16). exact Hv. Qed.

Lemma length_auto_tail a ns : length (auto_tail a ns) = match a with None => 0%nat | Some _ => 160%nat end.
Proof.
  destruct a; simpl; [|done].
  rewrite !length_app, length_zeros, length_be_bytes, length_be32, !length_arr. done.
Qed.

Lemma auto_tail_inj a ns a' ns' :
  (forall x, a = Some x -> is_u 128 (execution_fee x) /\ is_u 64 (flags x)) ->
  (forall x, a' = Some x -> is_u 128 (execution_fee x) /\ is_u 64 (flags x)) ->
  auto_tail a ns = auto_tail a' ns' ->
  match a, a' with
  | None, None => True
  | Some x, Some y => execution_fee x = execution_fee y /\ flags x = flags y /\
      keccak (fallback_address x) = keccak (fallback_address y) /\
      keccak (auto_data x) = keccak (auto_data y) /\ keccak ns = keccak ns'
  | _, _ => False
  end.
Proof.
  intros Hx Hy E. assert (Hl := f_equal length E). rewrite !length_auto_tail in Hl.
  destruct a as [x|], a' as [y|]; try done. simpl in E.
  destruct (Hx x eq_refl), (Hy y eq_refl).
  apply app_inj_1 in E as [_ E]; [|done].
  apply app_inj_1 in E as [E1 E]; [|by rewrite !length_be_bytes].
  apply app_inj_1 in E as [E2 E]; [|by rewrite !length_be32].
  apply app_inj_1 in E as [E3 E]; [|by rewrite !length_arr].
  apply app_inj_1 in E as [E4 E5]; [|by rewrite !length_arr].
  apply be_bytes_inj in E1; [|done..]. apply be32_inj in E2; [|done..].
  apply arr_eq in E3, E4, E5. auto.
Qed.

(** Two transfers agree on everything their id commits to. The execution payload
    is committed to through the hashes of its variable-length parts. *)
Definition same_transfer (t u : transfer) : Prop :=
  tr_domain t = tr_domain u /\ tr_debridge_id t = tr_debridge_id u /\ tr_decimals t = tr_decimals u /\
  tr_amount t = tr_amount u /\ tr_from t = tr_from u /\ tr_to t = tr_to u /\
  tr_nonce t = tr_nonce u /\ tr_receiver t = tr_receiver u /\
  match tr_auto t, tr_auto u with
  | None, None => True
  | Some x, Some y => execution_fee x = execution_fee y /\ flags x = flags y /\
      keccak (fallback_address x) = keccak (fallback_address y) /\
      keccak (auto_data x) = keccak (auto_data y) /\
      keccak (tr_native_sender t) = keccak (tr_native_sender u)
  | _, _ => False
  end.

Lemma transfer_preimage_length t :
  length (transfer_preimage t) =
    (225 + length (tr_receiver t) + match tr_auto t with None => 0 | Some _ => 160 end)%nat.
Proof.
  unfold transfer_preimage. rewrite !length_app, !length_be32, !length_arr, length_auto_tail.
  simpl. lia.
Qed.

Lemma preimage_same t u :
  transfer_wf t -> transfer_wf u -> transfer_preimage t = transfer_preimage u -> same_transfer t u.
Proof.
  intros (Hd & Ha & Hf & Ht & Hn & Hr & Hau) (Hd' & Ha' & Hf' & Ht' & Hn' & Hr' & Hau') E.
  assert (length (tr_receiver t) = length (tr_receiver u)) as Hlen.
  { apply (f_equal length) in E. rewrite !transfer_preimage_length in E.
    destruct (tr_auto t), (tr_auto u); lia. }
  unfold transfer_preimage in E.
  apply app_inj_1 in E as [_ E]; [|done].
  apply app_inj_1 in E as [E1 E]; [|by rewrite !length_arr].
  apply app_inj_1 in E as [E2 E]; [|by rewrite !length_arr].
  apply app_inj_1 in E as [E3 E]; [|by rewrite !length_be32].
  apply app_inj_1 in E as [E4 E]; [|by rewrite !length_be32].
  apply app_inj_1 in E as [E5 E]; [|done].
  apply app_inj_1 in E as [E6 E]; [|by rewrite !length_be32].
  apply app_inj_1 in E as [E7 E]; [|done].
  apply app_inj_1 in E as [E8 E]; [|by rewrite !length_be32].
  apply auto_tail_inj in E; [|done..].
  injection E5 as E5. apply byte_of_Z_inj in E5; [|done..].
  apply be32_inj in E3, E4, E6, E8; try done. apply arr_eq in E1, E2.
  unfold same_transfer. auto 10.
Qed.

(** C34. The bytes hashed into a submissionId determine the transfer: two
    well-typed transfers (20- or 32-byte receivers, machine-width fields) with
    the same preimage agree on domain, asset, scale, amount, chains, nonce and
    receiver and on whether there is an execution payload; with one, also on its
    fee and flags and on the hashes of its fallback address, of its data and of
    the native sender (without a payload the native sender is not in the
    preimage). No field can be shifted into a neighbour although the receiver has
    two widths and the payload is optional. *)
Theorem transfer_preimage_inj t u :
  transfer_wf t -> transfer_wf u ->
  transfer_id t = keccak (transfer_preimage t) /\
  (transfer_preimage t = transfer_preimage u -> same_transfer t u).
Proof. intros Ht Hu. split; [apply transfer_id_preimage|by apply preimage_same]. Qed.

(** ** Signing domains *)

(** What validators sign in each domain, before hashing. *)
Definition domain_preimage (prefix : Z) (id : hash32) : list byte := be32 prefix ++ arr_bytes id.

Lemma cancel_id_preimage id : cancel_id id = keccak (domain_preimage CANCEL_PREFIX id).
Proof. unfold cancel_id, hashv. simpl. by rewrite app_nil_r. Qed.
Lemma refund_id_preimage id : refund_id id = keccak (domain_preimage REFUND_PREFIX id).
Proof. unfold refund_id, hashv. simpl. by rewrite app_nil_r. Qed.

Lemma be32_prefix_neq x y l l' : is_u 64 x -> is_u 64 y -> x <> y -> be32 x ++ l <> be32 y ++ l'.
Proof. intros Hx Hy Hne E. apply app_inj_1 in E as [E _]; [|done]. by apply be32_inj in E. Qed.

(** The transfer, cancel and refund ids hash preimages from three disjoint
    families (whatever the receiver width), and within the last two the
    preimage determines the submissionId: a signature collected for one
    domain is over a different message in the others. *)
Theorem signing_domains_disjoint t id id' :
  transfer_preimage t <> domain_preimage CANCEL_PREFIX id /\
  transfer_preimage t <> domain_preimage REFUND_PREFIX id /\
  domain_preimage CANCEL_PREFIX id <> domain_preimage REFUND_PREFIX id' /\
  (domain_preimage CANCEL_PREFIX id = domain_preimage CANCEL_PREFIX id' -> id = id') /\
  (domain_preimage REFUND_PREFIX id = domain_preimage REFUND_PREFIX id' -> id = id') /\
  transfer_id t = keccak (transfer_preimage t) /\
  cancel_id id = keccak (domain_preimage CANCEL_PREFIX id) /\
  refund_id id = keccak (domain_preimage REFUND_PREFIX id).
Proof.
  unfold domain_preimage. split_and!;
    try (apply be32_prefix_neq; by vm_compute);
    try (intros E; apply app_inj_1 in E as [_ E]; [by apply arr_eq|done]);
    auto using transfer_id_preimage, cancel_id_preimage, refund_id_preimage.
Qed.

(** ** Governance action ids *)

Inductive gov_change :=
  | ChangeAddValidator (v : evm_address)
  | ChangeSetGuardian (g : pubkey)
  | ChangeLowerThreshold (t : Z)
  | ChangeRegisterAsset (debridge_id : hash32) (mint vault : pubkey) (decimals : Z).
Definition gov_change_wf (c : gov_change) : Prop :=
  match c with
  | ChangeLowerThreshold t => is_u 32 t
  | ChangeRegisterAsset _ _ _ d => is_u 8 d
  | _ => True
  end.
Definition action_preimage (c : gov_change) : list byte :=
  ACTION_ID_VERSION ++
  match c with
  | ChangeAddValidator v => bytes_of_string "addValidator" ++ arr_bytes v
  | ChangeSetGuardian g => bytes_of_string "setGuardian" ++ arr_bytes g
  | ChangeLowerThreshold t => bytes_of_string "lowerThreshold" ++ be32 t
  | ChangeRegisterAsset d m v x =>
      bytes_of_string "registerAsset" ++ arr_bytes d ++ arr_bytes m ++ arr_bytes v ++ [byte_of_Z x]
  end.
Definition action_id (c : gov_change) : hash32 :=
  match c with
  | ChangeAddValidator v => add_validator_action_id v
  | ChangeSetGuardian g => set_guardian_action_id g
  | ChangeLowerThreshold t => lower_threshold_action_id t
  | ChangeRegisterAsset d m v x => register_asset_action_id d m v x
  end.

Lemma action_id_preimage c : action_id c = keccak (action_preimage c).
Proof.
  destruct c; unfold action_id, add_validator_action_id, set_guardian_action_id,
    lower_threshold_action_id, register_asset_action_id, hashv, action_preimage; cbn [concat];
    by rewrite ?app_nil_r.
Qed.

Lemma is_u_32_64 t : is_u 32 t -> is_u 64 t.
Proof. unfold is_u. lia. Qed.

(** A scheduled action id commits to the exact change: the preimages of two
    action ids are equal only for the same kind of action with the same
    parameters (validator, guardian, threshold value, or asset, mint, vault and
    scale), so an approval can only be spent on what was scheduled. *)
Theorem action_preimage_inj c d :
  gov_change_wf c -> gov_change_wf d ->
  action_id c = keccak (action_preimage c) /\
  (action_preimage c = action_preimage d -> c = d).
Proof.
  intros Hc Hd. split; [apply action_id_preimage|]. unfold action_preimage. intros E.
  apply app_inv_head in E. assert (El := f_equal length E).
  destruct c, d; rewrite !length_app, ?length_arr, ?length_be32 in El; try discriminate El;
    apply app_inv_head in E.
  - f_equal. by apply arr_eq.
  - f_equal. by apply arr_eq.
  - f_equal. by apply be32_inj in E; [|apply is_u_32_64..].
  - apply app_inj_1 in E as [E1 E]; [|by rewrite !length_arr].
    apply app_inj_1 in E as [E2 E]; [|by rewrite !length_arr].
    apply app_inj_1 in E as [E3 E4]; [|by rewrite !length_arr].
    injection E4 as E4. apply byte_of_Z_inj in E4; [|done..]. apply arr_eq in E1, E2, E3.
    by subst.
Qed.
End Hash.
