(* ===== verification/CoreHash.v ===== *)
(** Off-chain hashing (crates/bridge-core/src/lib.rs, src/submission.rs): the
    packed preimages built over 256-bit words, and the proof that they are the
    bytes the Solana gate hashes. *)

From S2P Require Import Prelude.
From S2P Require Import SolanaRuntime.
From S2P Require GateTypes GateHash.
Import GateTypes(SUBMISSION_PREFIX, CANCEL_PREFIX, REFUND_PREFIX).

Section CoreHash.
Context {RT : Runtime}.

(** * bridge-core's hashing (crates/bridge-core/src/lib.rs, submission.rs) *)

(** 256-bit words are integers in range; addresses and hashes are arrays. *)
Record AutoParams := MkAutoParams {
  execution_fee : Z;
  flags : Z;
  fallback_address : list byte;
  data : list byte;
  native_sender : list byte;
}.

Definition debridge_id (native_chain_id : Z) (native_token : evm_address) : hash32 :=
  keccak (be_bytes 32 native_chain_id ++ arr_bytes native_token).

Definition packed_submission (bridge_domain debridge_id : hash32) (bridge_decimals amount chain_id_from
    chain_id_to nonce : Z) (receiver : list byte) : list byte :=
  be_bytes 32 SUBMISSION_PREFIX ++ arr_bytes bridge_domain ++ arr_bytes debridge_id ++
  be_bytes 32 chain_id_from ++ be_bytes 32 chain_id_to ++ [byte_of_Z bridge_decimals] ++
  be_bytes 32 amount ++ receiver ++ be_bytes 32 nonce.

Definition submission_id (bridge_domain debridge_id : hash32) (bridge_decimals amount chain_id_from
    chain_id_to nonce : Z) (receiver : list byte) : hash32 :=
  keccak (packed_submission bridge_domain debridge_id bridge_decimals amount chain_id_from
            chain_id_to nonce receiver).

Definition submission_id_with_auto (bridge_domain debridge_id : hash32) (bridge_decimals amount
    chain_id_from chain_id_to nonce : Z) (receiver : list byte) (auto : AutoParams) : hash32 :=
  keccak (packed_submission bridge_domain debridge_id bridge_decimals amount chain_id_from
            chain_id_to nonce receiver ++
          be_bytes 32 (execution_fee auto) ++ be_bytes 32 (flags auto) ++
          arr_bytes (keccak (fallback_address auto)) ++ arr_bytes (keccak (data auto)) ++
          arr_bytes (keccak (native_sender auto))).

Definition domain_id (prefix : Z) (submission_id : hash32) : hash32 :=
  keccak (be_bytes 32 prefix ++ arr_bytes submission_id).
Definition cancel_id (submission_id : hash32) : hash32 := domain_id CANCEL_PREFIX submission_id.
Definition refund_id (submission_id : hash32) : hash32 := domain_id REFUND_PREFIX submission_id.

Record Submission := MkSubmission {
  sub_bridge_domain : hash32;
  sub_debridge_id : hash32;
  sub_bridge_decimals : Z;
  sub_amount : Z;
  sub_chain_id_from : Z;
  sub_chain_id_to : Z;
  sub_nonce : Z;
  sub_receiver : list byte;
  sub_auto : option AutoParams;
}.

Definition compute_id (s : Submission) : hash32 :=
  match sub_auto s with
  | None => submission_id (sub_bridge_domain s) (sub_debridge_id s) (sub_bridge_decimals s)
      (sub_amount s) (sub_chain_id_from s) (sub_chain_id_to s) (sub_nonce s) (sub_receiver s)
  | Some auto => submission_id_with_auto (sub_bridge_domain s) (sub_debridge_id s)
      (sub_bridge_decimals s) (sub_amount s) (sub_chain_id_from s) (sub_chain_id_to s)
      (sub_nonce s) (sub_receiver s) auto
  end.


(** * Agreement with the on-chain program *)

(** The off-chain payload carries the packed sender; the wire payload does not. *)
Definition auto_of_wire (a : GateTypes.AutoParamsWire) (sender : list byte) : AutoParams :=
  MkAutoParams (GateTypes.execution_fee a) (GateTypes.flags a) (GateTypes.fallback_address a)
    (GateTypes.auto_data a) sender.
Definition submission_of (t : GateHash.transfer) : Submission :=
  MkSubmission (GateHash.tr_domain t) (GateHash.tr_debridge_id t) (GateHash.tr_decimals t)
    (GateHash.tr_amount t) (GateHash.tr_from t) (GateHash.tr_to t) (GateHash.tr_nonce t)
    (GateHash.tr_receiver t)
    ((fun a => auto_of_wire a (GateHash.tr_native_sender t)) <$> GateHash.tr_auto t).

Lemma compute_id_transfer t : GateHash.transfer_wf t -> compute_id (submission_of t) = GateHash.transfer_id t.
Proof.
  intros (Hd & Ha & Hf & Ht & Hn & _ & Hau).
  rewrite GateHash.transfer_id_preimage. unfold GateHash.transfer_preimage, GateHash.auto_tail.
  unfold compute_id, submission_of. simpl. rewrite !GateHash.be32_word by done.
  destruct (GateHash.tr_auto t) as [a|]; simpl.
  - destruct (Hau a eq_refl) as [H1 H2].
    unfold submission_id_with_auto, packed_submission, auto_of_wire. simpl.
    rewrite (app_assoc (zeros 16)), GateHash.fee_word by done.
    f_equal. rewrite GateHash.be32_word by done. rewrite <- !app_assoc. simpl. by rewrite <- !app_assoc.
  - unfold submission_id, packed_submission. by rewrite app_nil_r.
Qed.

(** Off-chain and on-chain ids agree: for every well-typed transfer the id a
    validator recomputes from a [Submission] is the id the Solana program
    derives, with or without an execution payload, and so are the cancel and
    refund ids built on it. *)
Theorem compute_id_is_gate_id t :
  GateHash.transfer_wf t ->
  compute_id (submission_of t) = GateHash.transfer_id t /\
  cancel_id (compute_id (submission_of t)) = GateHash.cancel_id (GateHash.transfer_id t) /\
  refund_id (compute_id (submission_of t)) = GateHash.refund_id (GateHash.transfer_id t).
Proof.
  intros Hwf. rewrite compute_id_transfer by done. split_and!; [done| |].
  - rewrite GateHash.cancel_id_preimage. unfold cancel_id, domain_id, GateHash.domain_preimage.
    by rewrite GateHash.be32_word by (by vm_compute).
  - rewrite GateHash.refund_id_preimage. unfold refund_id, domain_id, GateHash.domain_preimage.
    by rewrite GateHash.be32_word by (by vm_compute).
Qed.
End CoreHash.
