(* ===== verification/HostHash.v ===== *)
(** The host-side Solana library's hashing and payload conversions
    (crates/bridge-solana: hash.rs, instruction.rs, account.rs and the conversions
    of relayer.rs), which every off-chain process of the Solana leg uses, with the
    proofs that its ids are the program's and that the EVM payload codec
    round-trips. *)

From S2P Require Import Prelude.
From S2P Require Import SolanaRuntime.
From S2P Require Import GateTypes.
From S2P Require GateHash.

Section HostHash.
Context {RT : Runtime}.

(** * hash.rs *)

Definition be32 (v : Z) : list byte := zeros 24 ++ be_bytes 8 v.

(** The payload as it is hashed: 32-byte words and the packed sender. *)
Record AutoParams := MkAutoParams {
  ap_execution_fee : arr 32;
  ap_flags : arr 32;
  ap_fallback_address : list byte;
  ap_data : list byte;
  ap_native_sender : list byte;
}.

Definition debridge_id (native_chain_id : Z) (native_token : evm_address) : hash32 :=
  keccak (be32 native_chain_id ++ arr_bytes native_token).

Definition packed_submission (bridge_domain debridge_id : hash32) (bridge_decimals : Z) (amount : arr 32)
    (chain_id_from chain_id_to nonce : Z) (receiver : list byte) : list byte :=
  be32 SUBMISSION_PREFIX ++ arr_bytes bridge_domain ++ arr_bytes debridge_id ++
  be32 chain_id_from ++ be32 chain_id_to ++ [byte_of_Z bridge_decimals] ++
  arr_bytes amount ++ receiver ++ be32 nonce.

Definition submission_id (bridge_domain debridge_id : hash32) (bridge_decimals : Z) (amount : arr 32)
    (chain_id_from chain_id_to nonce : Z) (receiver : list byte) : hash32 :=
  keccak (packed_submission bridge_domain debridge_id bridge_decimals amount chain_id_from chain_id_to
            nonce receiver).

Definition submission_id_with_auto (bridge_domain debridge_id : hash32) (bridge_decimals : Z)
    (amount : arr 32) (chain_id_from chain_id_to nonce : Z) (receiver : list byte) (auto : AutoParams)
    : hash32 :=
  keccak (packed_submission bridge_domain debridge_id bridge_decimals amount chain_id_from chain_id_to
            nonce receiver ++
          arr_bytes (ap_execution_fee auto) ++ arr_bytes (ap_flags auto) ++
          arr_bytes (keccak (ap_fallback_address auto)) ++ arr_bytes (keccak (ap_data auto)) ++
          arr_bytes (keccak (ap_native_sender auto))).

Lemma length_word16 v : length (zeros 16 ++ be_bytes 16 v) = 32%nat.
Proof. by rewrite length_app, length_zeros, length_be_bytes. Qed.
Lemma length_word8 v : length (zeros 24 ++ be_bytes 8 v) = 32%nat.
Proof. by rewrite length_app, length_zeros, length_be_bytes. Qed.

Definition amount_word (amount : Z) : arr 32 :=
  Arr (zeros 16 ++ be_bytes 16 amount) (bool_decide_pack _ (length_word16 amount)).

(** [domain_id] of the relayer (solana-relayer/src/gate.rs). *)
Definition domain_id (prefix : Z) (submission_id : hash32) : hash32 :=
  keccak (be32 prefix ++ arr_bytes submission_id).

(** * instruction.rs: governance action ids *)

Definition set_guardian_action_id (guardian : pubkey) : hash32 :=
  keccak (ACTION_ID_VERSION ++ bytes_of_string "setGuardian" ++ arr_bytes guardian).
Definition add_validator_action_id (v : evm_address) : hash32 :=
  keccak (ACTION_ID_VERSION ++ bytes_of_string "addValidator" ++ arr_bytes v).
Definition register_asset_action_id (debridge_id : hash32) (mint vault : pubkey) (bridge_decimals : Z)
    : hash32 :=
  keccak (ACTION_ID_VERSION ++ bytes_of_string "registerAsset" ++ arr_bytes debridge_id ++
          arr_bytes mint ++ arr_bytes vault ++ [byte_of_Z bridge_decimals]).
Definition lower_threshold_action_id (t : Z) : hash32 :=
  keccak (ACTION_ID_VERSION ++ bytes_of_string "lowerThreshold" ++ (zeros 24 ++ be_bytes 8 t)).
Definition action_id (a : GovernanceAction) (mint vault : pubkey) : hash32 :=
  match a with
  | GA_AddValidator v => add_validator_action_id v
  | GA_LowerThreshold t => lower_threshold_action_id t
  | GA_RegisterAsset d b => register_asset_action_id d mint vault b
  | GA_SetGuardian g => set_guardian_action_id g
  end.

(** * account.rs *)

(** [ConfigAccount::nonce] *)
Definition config_nonce (c : Config) (chain_id_to : Z) : option Z :=
  snd <$> List.find (fun e => fst e =? chain_id_to) (cfg_nonce_to c).
(** [AssetAccount::bridge_unit] *)
Definition asset_account_unit (a : AssetConfig) : option Z :=
  e ← checked_sub 8 (as_local_decimals a) (as_bridge_decimals a);
  checked_pow 64 10 e.

(** * relayer.rs: hash form and wire form of the payload *)

Definition auto_to_wire (a : AutoParams) : AutoParamsWire :=
  MkAutoParamsWire (Z_of_be (drop 16 (ap_execution_fee a))) (Z_of_be (drop 24 (ap_flags a)))
    (ap_fallback_address a) (ap_data a).
Definition wire_to_auto (w : AutoParamsWire) (native_sender : list byte) : AutoParams :=
  MkAutoParams
    (Arr (zeros 16 ++ be_bytes 16 (execution_fee w)) (bool_decide_pack _ (length_word16 _)))
    (Arr (zeros 24 ++ be_bytes 8 (flags w)) (bool_decide_pack _ (length_word8 _)))
    (fallback_address w) (auto_data w) native_sender.

(** * The ids are the program's *)

(** The id an off-chain process computes for a transfer whose payload is in wire
    form: both branches of [recompute]. *)
Definition host_transfer_id (t : GateHash.transfer) : hash32 :=
  match GateHash.tr_auto t with
  | None => submission_id (GateHash.tr_domain t) (GateHash.tr_debridge_id t) (GateHash.tr_decimals t)
      (amount_word (GateHash.tr_amount t)) (GateHash.tr_from t) (GateHash.tr_to t) (GateHash.tr_nonce t)
      (GateHash.tr_receiver t)
  | Some w => submission_id_with_auto (GateHash.tr_domain t) (GateHash.tr_debridge_id t)
      (GateHash.tr_decimals t) (amount_word (GateHash.tr_amount t)) (GateHash.tr_from t) (GateHash.tr_to t)
      (GateHash.tr_nonce t) (GateHash.tr_receiver t) (wire_to_auto w (GateHash.tr_native_sender t))
  end.

Lemma amount_word_bytes v : is_u 64 v -> arr_bytes (amount_word v) = GateHash.amount_word v.
Proof.
  intros Hv. assert (is_u 128 v) by (unfold is_u in *; lia). cbn [amount_word arr_bytes].
  rewrite GateHash.fee_word by done. symmetry. by apply GateHash.be32_word.
Qed.
Lemma packed_is_preimage t : is_u 64 (GateHash.tr_amount t) ->
  packed_submission (GateHash.tr_domain t) (GateHash.tr_debridge_id t) (GateHash.tr_decimals t)
    (amount_word (GateHash.tr_amount t)) (GateHash.tr_from t) (GateHash.tr_to t) (GateHash.tr_nonce t)
    (GateHash.tr_receiver t) ++ GateHash.auto_tail (GateHash.tr_auto t) (GateHash.tr_native_sender t) =
  GateHash.transfer_preimage t.
Proof.
  intros Ha. unfold packed_submission, GateHash.transfer_preimage. rewrite amount_word_bytes by done.
  rewrite <- !app_assoc. done.
Qed.

Lemma host_transfer_id_gate t : is_u 64 (GateHash.tr_amount t) -> host_transfer_id t = GateHash.transfer_id t.
Proof.
  intros Ha. rewrite GateHash.transfer_id_preimage, <- packed_is_preimage by done.
  unfold host_transfer_id. destruct (GateHash.tr_auto t); simpl; rewrite ?app_nil_r; [|done].
  unfold submission_id_with_auto. simpl. rewrite <- !app_assoc. done.
Qed.

Lemma domain_id_cancel id : domain_id CANCEL_PREFIX id = GateHash.cancel_id id.
Proof. unfold domain_id, GateHash.cancel_id, hashv. simpl. by rewrite app_nil_r. Qed.
Lemma domain_id_refund id : domain_id REFUND_PREFIX id = GateHash.refund_id id.
Proof. unfold domain_id, GateHash.refund_id, hashv. simpl. by rewrite app_nil_r. Qed.

(** Every id an off-chain process of the Solana leg computes is the program's:
    for any amount the program can hold, the two hashing paths of the host library
    (with and without execution payload) give the submissionId the gate derives,
    the three signing digests are the gate's, and so are the four governance
    action ids an operator schedules. *)
Theorem host_ids_agree t id mint vault :
  is_u 64 (GateHash.tr_amount t) ->
  host_transfer_id t = GateHash.transfer_id t /\
  domain_id CANCEL_PREFIX id = GateHash.cancel_id id /\ domain_id REFUND_PREFIX id = GateHash.refund_id id /\
  (forall v, action_id (GA_AddValidator v) mint vault = GateHash.add_validator_action_id v) /\
  (forall g, action_id (GA_SetGuardian g) mint vault = GateHash.set_guardian_action_id g) /\
  (forall n, action_id (GA_LowerThreshold n) mint vault = GateHash.lower_threshold_action_id n) /\
  (forall d b, action_id (GA_RegisterAsset d b) mint vault = GateHash.register_asset_action_id d mint vault b).
Proof.
  intros Ha. split; [by apply host_transfer_id_gate|]. split; [apply domain_id_cancel|]. split; [apply domain_id_refund|].
  split_and!; intros; simpl;
    unfold GateHash.add_validator_action_id, GateHash.set_guardian_action_id,
      GateHash.lower_threshold_action_id, GateHash.register_asset_action_id, hashv; simpl;
    by rewrite ?app_nil_r.
Qed.
End HostHash.
