(* ===== verification/Text.v ===== *)
(** Text as the off-chain processes handle it: a Rust [str] is its sequence of
    Unicode scalar values, with the [str] methods the sources use ([trim],
    [strip_prefix], [split_once], [split_whitespace], [starts_with], [to_lowercase]
    on ASCII) and their laws. *)

From S2P Require Import Prelude.

Definition text : Type := list Z.
(** An ASCII literal. *)
Definition txt (s : string) : text := map (fun a => Z.of_N (Ascii.N_of_ascii a)) (String.list_ascii_of_string s).

(** [char::is_whitespace]: the Unicode property White_Space. *)
Definition is_whitespace (c : Z) : bool :=
  ((9 <=? c) && (c <=? 13)) || (c =? 32) || (c =? 133) || (c =? 160) || (c =? 5760) ||
  ((8192 <=? c) && (c <=? 8202)) || (c =? 8232) || (c =? 8233) || (c =? 8239) || (c =? 8287) || (c =? 12288).

Fixpoint trim_start (l : text) : text :=
  match l with
  | c :: l' => if is_whitespace c then trim_start l' else l
  | [] => []
  end.
Definition trim_end (l : text) : text := reverse (trim_start (reverse l)).
Definition trim (l : text) : text := trim_end (trim_start l).

Fixpoint strip_prefix (p l : text) : option text :=
  match p, l with
  | [], _ => Some l
  | a :: p, b :: l => if a =? b then strip_prefix p l else None
  | _ :: _, [] => None
  end.
Definition starts_with (p l : text) : bool :=
  match strip_prefix p l with Some _ => true | None => false end.

Fixpoint split_once (c : Z) (l : text) : option (text * text) :=
  match l with
  | [] => None
  | x :: l => if x =? c then Some ([], l) else '(a, b) ← split_once c l; Some (x :: a, b)
  end.

(** The maximal runs of characters that are not whitespace. *)
Fixpoint split_ws (word : text) (l : text) : list text :=
  match l with
  | [] => if bool_decide (word = []) then [] else [word]
  | c :: l =>
      if is_whitespace c then (if bool_decide (word = []) then [] else [word]) ++ split_ws [] l
      else split_ws (word ++ [c]) l
  end.
Definition split_whitespace (l : text) : list text := split_ws [] l.

(** * Laws *)

Lemma strip_prefix_Some p l r : strip_prefix p l = Some r <-> l = p ++ r.
Proof.
  revert l. induction p as [|a p IH]; intros l; simpl; [naive_solver|].
  destruct l as [|b l]; [naive_solver|]. destruct (Z.eqb_spec a b); [subst; rewrite IH|]; naive_solver.
Qed.
Lemma strip_prefix_app p l : strip_prefix p (p ++ l) = Some l.
Proof. by apply strip_prefix_Some. Qed.
Lemma starts_with_iff p l : starts_with p l = true <-> exists r, l = p ++ r.
Proof.
  unfold starts_with. destruct (strip_prefix p l) eqn:E.
  - apply strip_prefix_Some in E. naive_solver.
  - split; [done|]. intros [r ->]. by rewrite strip_prefix_app in E.
Qed.

Lemma split_once_None c l : split_once c l = None <-> c ∉ l.
Proof.
  induction l as [|x l IH]; simpl; [split; [intros _; apply not_elem_of_nil|done]|].
  destruct (Z.eqb_spec x c); [subst; split; [done|]; intros []; left|].
  rewrite not_elem_of_cons, <- IH. destruct (split_once c l) as [[]|]; naive_solver.
Qed.
Lemma split_once_app c a b : c ∉ a -> split_once c (a ++ c :: b) = Some (a, b).
Proof.
  induction a as [|x a IH]; simpl; [by rewrite Z.eqb_refl|].
  intros [Hx Ha]%not_elem_of_cons. rewrite (proj2 (Z.eqb_neq x c)) by congruence. by rewrite IH.
Qed.

Definition no_ws (l : text) : Prop := Forall (fun c => is_whitespace c = false) l.
#[export] Instance no_ws_dec l : Decision (no_ws l) := _.
Lemma no_ws_space l : no_ws l -> 32 ∉ l.
Proof. intros H Hin. unfold no_ws in H. rewrite Forall_forall in H. by specialize (H 32 Hin). Qed.

Lemma trim_start_id c l : is_whitespace c = false -> trim_start (c :: l) = c :: l.
Proof. simpl. by intros ->. Qed.
Lemma trim_start_ws w l : Forall (fun c => is_whitespace c = true) w -> trim_start (w ++ l) = trim_start l.
Proof. induction 1 as [|c w Hc _ IH]; simpl; [done|]. by rewrite Hc. Qed.
Lemma trim_end_snoc l c : is_whitespace c = false -> trim_end (l ++ [c]) = l ++ [c].
Proof. intros Hc. unfold trim_end. rewrite reverse_app. simpl. rewrite Hc. by rewrite reverse_cons, reverse_involutive. Qed.

(** Trimming the end never reaches past a character that is not whitespace. *)
Lemma trim_start_app_stop a c b :
  is_whitespace c = false -> trim_start (b ++ c :: a) = trim_start b ++ c :: a.
Proof.
  intros Hc. induction b as [|x b IH]; simpl; [by rewrite Hc|]. by destruct (is_whitespace x).
Qed.
Lemma trim_end_app a c b : is_whitespace c = false -> trim_end ((a ++ [c]) ++ b) = (a ++ [c]) ++ trim_end b.
Proof.
  intros Hc. unfold trim_end. rewrite !reverse_app. simpl. rewrite trim_start_app_stop by done.
  by rewrite reverse_app, reverse_cons, reverse_involutive.
Qed.
Lemma trim_app x a c b : is_whitespace x = false -> is_whitespace c = false ->
  trim ((x :: a ++ [c]) ++ b) = (x :: a ++ [c]) ++ trim_end b.
Proof.
  intros Hx Hc. unfold trim. change (x :: a ++ [c]) with ((x :: a) ++ [c]).
  change (((x :: a) ++ [c]) ++ b) with (x :: (a ++ [c]) ++ b). rewrite trim_start_id by done.
  change (x :: (a ++ [c]) ++ b) with (((x :: a) ++ [c]) ++ b). by apply trim_end_app.
Qed.
Lemma trim_end_prefix l : exists w, l = trim_end l ++ w /\ Forall (fun c => is_whitespace c = true) w.
Proof.
  assert (forall k, exists w, reverse k = reverse (trim_start k) ++ w /\
    Forall (fun c => is_whitespace c = true) w) as H; [|specialize (H (reverse l)); by rewrite reverse_involutive in H].
  induction k as [|c k (w & IH & Hw)]; [by exists []|].
  simpl. destruct (is_whitespace c) eqn:E; [|exists []; by rewrite app_nil_r].
  exists (w ++ [c]). rewrite reverse_cons, IH, <- app_assoc. split; [done|]. apply Forall_app. auto.
Qed.
Lemma trim_end_no_ws l : no_ws l -> trim_end l = l.
Proof.
  destruct l as [|c l] using rev_ind; [done|]. intros H. apply trim_end_snoc.
  unfold no_ws in H. rewrite Forall_app, Forall_singleton in H. apply H.
Qed.

Lemma split_ws_word w l : no_ws l -> split_ws w l = if bool_decide (w ++ l = []) then [] else [w ++ l].
Proof.
  intros Hl. revert w. induction Hl as [|c l Hc _ IH]; intros w; simpl; [by rewrite app_nil_r|].
  rewrite Hc, IH, <- app_assoc. done.
Qed.
Lemma split_ws_step w l r : no_ws l -> w ++ l <> [] -> split_ws w (l ++ 32 :: r) = (w ++ l) :: split_ws [] r.
Proof.
  intros Hl. revert w. induction Hl as [|c l Hc _ IH]; intros w Hne; simpl.
  - rewrite app_nil_r in *. by rewrite bool_decide_eq_false_2.
  - rewrite Hc, IH, <- app_assoc; [done|]. by rewrite <- app_assoc.
Qed.
Lemma split_whitespace_two a b : no_ws a -> no_ws b -> a <> [] -> b <> [] ->
  split_whitespace (a ++ 32 :: b) = [a; b].
Proof.
  intros Ha Hb Hna Hnb. unfold split_whitespace. rewrite split_ws_step, split_ws_word by done.
  by rewrite bool_decide_eq_false_2.
Qed.

(** * Decimal numbers *)

(** [to_string] of an unsigned integer; [fuel] bounds the number of digits after
    the first. *)
Fixpoint dec_digits (fuel : nat) (z : Z) : text :=
  match fuel with
  | O => [48 + z]
  | S fuel => if z <? 10 then [48 + z] else dec_digits fuel (z / 10) ++ [48 + z mod 10]
  end.
Definition to_dec (z : Z) : text := dec_digits 39 z.

(** [str::parse::<uN>]: an optional plus sign, then digits, within the width. *)
Definition is_digit (c : Z) : bool := (48 <=? c) && (c <=? 57).
Definition digits_value (l : text) : Z := fold_left (fun v c => v * 10 + (c - 48)) l 0.
Definition parse_uint (w : Z) (l : text) : option Z :=
  let l := match l with c :: l' => if c =? 43 then l' else l | [] => [] end in
  if bool_decide (l = []) || negb (forallb is_digit l) then None else u_checked w (digits_value l).

Lemma digits_value_snoc l c : digits_value (l ++ [c]) = digits_value l * 10 + (c - 48).
Proof. unfold digits_value. by rewrite fold_left_app. Qed.
Lemma dec_digits_spec fuel z : 0 <= z < 10 ^ (Z.of_nat fuel + 1) ->
  digits_value (dec_digits fuel z) = z /\ forallb is_digit (dec_digits fuel z) = true /\
  dec_digits fuel z <> [] /\ head (dec_digits fuel z) <> Some 43.
Proof.
  revert z. induction fuel as [|fuel IH]; intros z Hz.
  - simpl in Hz. cbn [dec_digits]. unfold digits_value, is_digit. simpl.
    assert ((48 <=? 48 + z) && (48 + z <=? 57) = true) as -> by (apply andb_true_intro; split; apply Z.leb_le; lia).
    split_and!; [lia|done|done|intros [=]; lia].
  - cbn [dec_digits]. destruct (Z.ltb_spec z 10) as [Hlt|Hge].
    + unfold digits_value, is_digit. simpl.
      assert ((48 <=? 48 + z) && (48 + z <=? 57) = true) as -> by (apply andb_true_intro; split; apply Z.leb_le; lia).
      split_and!; [lia|done|done|intros [=]; lia].
    + pose proof (Z.mod_pos_bound z 10 ltac:(lia)). destruct (IH (z / 10)) as (Hv & Hd & Hn & Hh).
      { split; [apply Z.div_pos; lia|]. apply Z.div_lt_upper_bound; [lia|].
        rewrite <- Z.pow_succ_r by lia. replace (Z.succ (Z.of_nat fuel + 1)) with (Z.of_nat (S fuel) + 1) by lia. lia. }
      rewrite digits_value_snoc, Hv, forallb_app, Hd. split_and!.
      * pose proof (Z.div_mod z 10). lia.
      * simpl. unfold is_digit. rewrite andb_true_r. apply andb_true_intro; split; apply Z.leb_le; lia.
      * destruct (dec_digits fuel (z / 10)); done.
      * destruct (dec_digits fuel (z / 10)); done.
Qed.
(** A printed number parses back, at any width that holds it. *)
Lemma parse_to_dec w z : w <= 128 -> is_u w z -> parse_uint w (to_dec z) = Some z.
Proof.
  intros Hw Hz. assert (0 <= z < 10 ^ (Z.of_nat 39 + 1)) as Hr.
  { destruct Hz as [H1 H2]. split; [done|]. pose proof (Z.pow_le_mono_r 2 w 128).
    assert (2 ^ 128 < 10 ^ (Z.of_nat 39 + 1)) by (vm_compute; done). lia. }
  unfold to_dec, parse_uint. destruct (dec_digits_spec 39 z Hr) as (Hv & Hd & Hn & Hh).
  set (l := dec_digits 39 z) in *. clearbody l. destruct l as [|c l]; [done|].
  destruct (Z.eqb_spec c 43); [by subst|].
  rewrite bool_decide_eq_false_2, Hd, Hv by done. by apply u_checked_Some.
Qed.

Lemma parse_uint_range w l z : parse_uint w l = Some z -> is_u w z.
Proof. unfold parse_uint. destruct (_ || _); [done|]. by intros [-> ?]%u_checked_Some. Qed.
Lemma parse_uint_widen w w' l z : w <= w' -> parse_uint w l = Some z -> parse_uint w' l = Some z.
Proof.
  unfold parse_uint. intros Hw. destruct (_ || _); [done|]. rewrite !u_checked_Some. intros [-> [H1 H2]].
  split; [done|]. split; [done|]. pose proof (Z.pow_le_mono_r 2 w w'). lia.
Qed.

(** * Hexadecimal *)

(** The [hex] crate. *)
Class HexCodec := {
  hex_encode : list byte -> text;
  hex_decode : text -> option (list byte);
}.
Class HexLaws `{HexCodec} : Prop := {
  hex_roundtrip : forall b, hex_decode (hex_encode b) = Some b;
  hex_length : forall b, length (hex_encode b) = (2 * length b)%nat;
  hex_chars : forall b, Forall (fun c => is_digit c || ((97 <=? c) && (c <=? 102)) = true) (hex_encode b);
}.

Section Hex.
Context `{HexCodec}.
(** [format!("0x{}", hex::encode(b))] *)
Definition hex0x (b : list byte) : text := txt "0x" ++ hex_encode b.
(** solana-relayer gate.rs [hex_bytes], [hex32] *)
Definition hex_bytes (s : text) : option (list byte) :=
  let s := from_option id s (strip_prefix (txt "0x") s) in
  if bool_decide (s = []) then Some [] else hex_decode s.
Definition hex32 (s : text) : option (arr 32) := b ← hex_bytes s; arr_of_list 32 b.

Context `{!HexLaws}.
Lemma hex_bytes_0x b : hex_bytes (hex0x b) = Some b.
Proof.
  unfold hex_bytes, hex0x. rewrite strip_prefix_app. simpl.
  case_bool_decide as E; [|apply hex_roundtrip].
  pose proof (hex_length b) as Hl. rewrite E in Hl. by destruct b.
Qed.
Lemma hex32_0x (a : arr 32) : hex32 (hex0x (arr_bytes a)) = Some a.
Proof. unfold hex32. rewrite hex_bytes_0x. apply arr_of_list_bytes. Qed.
End Hex.

(** [str::to_ascii_lowercase] *)
Definition to_ascii_lowercase (l : text) : text :=
  map (fun c => if (65 <=? c) && (c <=? 90) then c + 32 else c) l.
