(* ===== verification/LogScan.v ===== *)
(** Which program said it: the attribution of [Program data:] log lines to the
    gate (crates/bridge-solana/src/relayer.rs, [gate_program_data_lines]), against
    the call tree of the transaction that printed them; and the event line itself
    ([sent_event_to_program_data_line], [parse_sent_event_line]). *)

From S2P Require Import Prelude.
From S2P Require Import Text.
From S2P Require Import GateTypes.

(** * The scanner *)

Definition PROGRAM_DATA_PREFIX : text := txt "Program data:".

Definition parse_invoke (line : text) : option text :=
  rest ← strip_prefix (txt "Program ") line;
  '(who, tail) ← split_once 32 rest;
  if starts_with (txt "invoke [") tail then Some who else None.

Definition parse_terminator (line : text) : option text :=
  rest ← strip_prefix (txt "Program ") line;
  '(who, tail) ← split_once 32 rest;
  if bool_decide (tail = txt "success") || starts_with (txt "failed") tail then Some who else None.

(** The innermost frame is the head of [stack]. *)
Fixpoint scan_lines (program_id : text) (stack : list text) (logs : list text) : list text :=
  match logs with
  | [] => []
  | line :: logs =>
      let line := trim line in
      match parse_invoke line with
      | Some who => scan_lines program_id (who :: stack) logs
      | None =>
          match parse_terminator line with
          | Some _ => scan_lines program_id (tail stack) logs
          | None =>
              (if starts_with PROGRAM_DATA_PREFIX line && bool_decide (head stack = Some program_id)
               then [line] else []) ++
              scan_lines program_id stack logs
          end
      end
  end.
Definition gate_program_data_lines (logs : list text) (program_id : text) : list text :=
  scan_lines program_id [] logs.

(** * What the runtime prints *)

(** A line a running program causes: [msg!], [sol_log_data], [set_return_data], and
    the runtime's own compute-unit line. *)
Inductive line_kind := LogLine | DataLine | ReturnLine | ConsumedLine.
Inductive verdict := Success | Failed (why : text).

(** The execution of a list of instructions: [Print] a line, or [Call] a program,
    then the rest. *)
Inductive trace :=
  | Done
  | Print (k : line_kind) (m : text) (rest : trace)
  | Call (who : text) (body : trace) (v : verdict) (rest : trace).

(** Every line is [Program <word> <tail>]. *)
Definition program_line (w m : text) : text := txt "Program " ++ w ++ 32 :: m.
Definition line_word (who : text) (k : line_kind) : text :=
  match k with
  | LogLine => txt "log:" | DataLine => txt "data:" | ReturnLine => txt "return:" | ConsumedLine => who
  end.
Definition line_tail (who : text) (k : line_kind) (m : text) : text :=
  match k with
  | LogLine | DataLine => m
  | ReturnLine => who ++ 32 :: m
  | ConsumedLine => txt "consumed " ++ m
  end.
Definition show_line (who : text) (k : line_kind) (m : text) : text :=
  program_line (line_word who k) (line_tail who k m).
Definition invoke_line (who : text) (depth : N) : text :=
  program_line who (txt "invoke [" ++ txt (pretty depth) ++ txt "]").
Definition end_line (who : text) (v : verdict) : text :=
  program_line who (match v with Success => txt "success" | Failed why => txt "failed: " ++ why end).

Fixpoint render (who : text) (depth : N) (t : trace) : list text :=
  match t with
  | Done => []
  | Print k m rest => show_line who k m :: render who depth rest
  | Call w body v rest =>
      invoke_line w depth :: render w (depth + 1) body ++ end_line w v :: render who depth rest
  end.

(** The data lines printed while [pid] itself runs. *)
Fixpoint emitted (pid who : text) (t : trace) : list text :=
  match t with
  | Done => []
  | Print DataLine m rest =>
      (if bool_decide (who = pid) then [trim (show_line who DataLine m)] else []) ++ emitted pid who rest
  | Print _ _ rest => emitted pid who rest
  | Call w body v rest => emitted pid w body ++ emitted pid who rest
  end.

(** A program id: no whitespace and no colon. *)
Definition clean (w : text) : Prop := no_ws w /\ w <> [] /\ 58 ∉ w.
#[export] Instance clean_dec w : Decision (clean w).
Proof. unfold clean. apply _. Defined.

Definition is_invoke (m : text) : bool := starts_with (txt "invoke [") m.
Definition is_end (m : text) : bool := bool_decide (m = txt "success") || starts_with (txt "failed") m.
(** A payload that cannot be taken for the runtime's own framing. *)
Definition plain (m : text) : bool := negb (is_invoke (trim_end m)) && negb (is_end (trim_end m)).

(** What is asked of the gate's own frames, and of the programs it calls. *)
Fixpoint quiet (who : text) (t : trace) : Prop :=
  match t with
  | Done => True
  | Print k m rest => plain (line_tail who k m) = true /\ quiet who rest
  | Call w body v rest => clean w /\ quiet w body /\ quiet who rest
  end.
(** Any other program prints what it likes. *)
Fixpoint guarded (pid who : text) (t : trace) : Prop :=
  match t with
  | Done => True
  | Print k m rest => guarded pid who rest
  | Call w body v rest =>
      clean w /\ (if decide (w = pid) then quiet pid body else guarded pid w body) /\ guarded pid who rest
  end.
#[export] Instance quiet_dec who t : Decision (quiet who t).
Proof. revert who. induction t as [|k m r IH|c b IHb v r IHr]; intros w; simpl; apply _. Defined.
#[export] Instance guarded_dec pid who t : Decision (guarded pid who t).
Proof. revert who. induction t as [|k m r IH|c b IHb v r IHr]; intros w; simpl; try apply _. destruct (decide (c = pid)); apply _. Defined.

(** * One line *)

(** A word of the framing: a program id, or [log:], [data:] or [return:]. *)
Definition word_ok (w : text) : Prop := no_ws w /\ w <> [].
Lemma clean_word w : clean w -> word_ok w.
Proof. intros (H1 & H2 & _). done. Qed.

Lemma trim_end_space m : trim_end (32 :: m) = if bool_decide (trim_end m = []) then [] else 32 :: trim_end m.
Proof.
  destruct (trim_end_prefix m) as (w & Em & Hw). case_bool_decide as E.
  - rewrite E in Em. simpl in Em. subst w. unfold trim_end. rewrite reverse_cons.
    rewrite trim_start_ws; [done|]. by apply Forall_reverse.
  - destruct (trim_end m) as [|c l] eqn:El using rev_ind; [done|]. clear IHl.
    assert (is_whitespace c = false) as Hc.
    { assert (trim_end (trim_end m) = trim_end m) as Hi.
      { unfold trim_end. rewrite reverse_involutive. f_equal. clear. induction (reverse m) as [|x k IH]; simpl; [done|].
        destruct (is_whitespace x) eqn:Ex; [done|]. simpl. by rewrite Ex. }
      rewrite El in Hi. unfold trim_end in Hi. rewrite reverse_app in Hi. simpl in Hi.
      destruct (is_whitespace c); [|done]. apply (f_equal length) in Hi.
      rewrite length_reverse, length_app in Hi. simpl in Hi.
      assert (forall k, (length (trim_start k) <= length k)%nat) as Hl.
      { induction k as [|x k IH]; simpl; [done|]. destruct (is_whitespace x); simpl; lia. }
      specialize (Hl (reverse l)). rewrite length_reverse in Hl. lia. }
    rewrite Em. change (32 :: (l ++ [c]) ++ w) with (((32 :: l) ++ [c]) ++ w).
    rewrite trim_end_app by done. change (32 :: l ++ [c]) with ((32 :: l) ++ [c]).
    rewrite <- (app_nil_r ((32 :: l) ++ [c])) at 2. f_equal. unfold trim_end.
    rewrite <- (app_nil_r (reverse w)), trim_start_ws; [done|]. by apply Forall_reverse.
Qed.

(** A framing line, trimmed. *)
Lemma trim_program_line w m : word_ok w ->
  trim (program_line w m) =
    if bool_decide (trim_end m = []) then txt "Program " ++ w else program_line w (trim_end m).
Proof.
  intros [Hw Hne]. destruct w as [|c w] using rev_ind; [done|]. clear IHw.
  unfold no_ws in Hw. rewrite Forall_app, Forall_singleton in Hw. destruct Hw as [_ Hc].
  unfold program_line. change (txt "Program ") with (80 :: txt "rogram ").
  replace ((80 :: txt "rogram ") ++ (w ++ [c]) ++ 32 :: m)
    with ((80 :: (txt "rogram " ++ w) ++ [c]) ++ 32 :: m) by (simpl; by rewrite <- ?app_assoc).
  rewrite trim_app, trim_end_space by done. case_bool_decide; simpl; by rewrite <- ?app_assoc, ?app_nil_r.
Qed.

Lemma program_line_parts w m : no_ws w -> strip_prefix (txt "Program ") (program_line w m) = Some (w ++ 32 :: m) /\
  split_once 32 (w ++ 32 :: m) = Some (w, m).
Proof. intros Hw. split; [apply strip_prefix_app|]. by apply split_once_app, no_ws_space. Qed.

Lemma parse_program_line w m : word_ok w ->
  let line := trim (program_line w m) in
  parse_invoke line = (if is_invoke (trim_end m) then Some w else None) /\
  parse_terminator line = (if is_end (trim_end m) then Some w else None).
Proof.
  intros Hw line. unfold line. rewrite trim_program_line by done. destruct Hw as [Hw Hne].
  unfold parse_invoke, parse_terminator. case_bool_decide as E.
  - rewrite E, strip_prefix_app. simpl. rewrite (proj2 (split_once_None 32 w)) by by apply no_ws_space. done.
  - destruct (program_line_parts w (trim_end m) Hw) as [-> Hs]. simpl. rewrite Hs. done.
Qed.

Lemma data_prefix w m : word_ok w ->
  starts_with PROGRAM_DATA_PREFIX (trim (program_line w m)) = true <-> starts_with (txt "data:") w = true.
Proof.
  intros Hw. rewrite trim_program_line by done. destruct Hw as [_ Hne].
  change PROGRAM_DATA_PREFIX with (txt "Program " ++ txt "data:").
  assert (forall k, (k = [] \/ exists k', k = 32 :: k') ->
    (exists r, w ++ k = txt "data:" ++ r) <-> (exists r, w = txt "data:" ++ r)) as H.
  { intros k Hk. split; [|intros [r ->]; exists (r ++ k); by rewrite app_assoc].
    change (txt "data:") with [100; 97; 116; 97; 58]. intros [r E].
    do 5 (destruct w as [|? w]; [destruct Hk as [->|[? ->]]; simplify_eq/=|simpl in E; injection E as -> E]).
    by eexists. }
  rewrite !starts_with_iff. setoid_rewrite <- app_assoc. rewrite <- (H (if bool_decide (trim_end m = []) then [] else 32 :: trim_end m)).
  - case_bool_decide; unfold program_line; rewrite ?app_nil_r;
      (split; intros [r Hr]; exists r; [by apply app_inv_head in Hr|by rewrite Hr]).
  - case_bool_decide; eauto.
Qed.

(** One step of the scanner over a framing line. *)
Lemma scan_program_line pid st w m logs : word_ok w ->
  scan_lines pid st (program_line w m :: logs) =
    if is_invoke (trim_end m) then scan_lines pid (w :: st) logs
    else if is_end (trim_end m) then scan_lines pid (tail st) logs
    else (if starts_with PROGRAM_DATA_PREFIX (trim (program_line w m)) && bool_decide (head st = Some pid)
          then [trim (program_line w m)] else []) ++ scan_lines pid st logs.
Proof.
  intros Hw. cbn [scan_lines]. destruct (parse_program_line w m Hw) as [-> ->].
  destruct (is_invoke _); [done|]. by destruct (is_end _).
Qed.

Lemma word_line who k : clean who -> word_ok (line_word who k).
Proof.
  intros Hc. destruct k; [..|by apply clean_word];
    (split; [by apply (bool_decide_unpack _)|discriminate]).
Qed.
Lemma scan_invoke pid st w d logs : clean w ->
  scan_lines pid st (invoke_line w d :: logs) = scan_lines pid (w :: st) logs.
Proof.
  intros Hw. unfold invoke_line. rewrite scan_program_line by by apply clean_word.
  assert (trim_end (txt "invoke [" ++ txt (pretty d) ++ txt "]") = txt "invoke [" ++ txt (pretty d) ++ txt "]") as ->.
  { rewrite app_assoc. by apply trim_end_snoc. }
  assert (is_invoke (txt "invoke [" ++ txt (pretty d) ++ txt "]") = true) as ->; [|done].
  apply starts_with_iff. eauto.
Qed.
Lemma scan_end pid st w v logs : clean w ->
  scan_lines pid st (end_line w v :: logs) = scan_lines pid (tail st) logs.
Proof.
  intros Hw. unfold end_line. rewrite scan_program_line by by apply clean_word.
  destruct v as [|why]; [done|].
  change (txt "failed: " ++ why) with ((txt "faile" ++ [100]) ++ 58 :: 32 :: why).
  rewrite trim_end_app by done. done.
Qed.

Lemma data_word who k : clean who ->
  starts_with (txt "data:") (line_word who k) = true <-> k = DataLine.
Proof.
  intros (_ & _ & Hc). destruct k; try done. split; [|done]. intros [r E]%starts_with_iff.
  cbn [line_word] in E. subst who. exfalso. apply Hc. change (txt "data:") with [100; 97; 116; 97; 58]. by repeat constructor.
Qed.
Lemma scan_quiet_line pid st who k m logs : clean who -> plain (line_tail who k m) = true ->
  scan_lines pid (who :: st) (show_line who k m :: logs) =
    emitted pid who (Print k m Done) ++ scan_lines pid (who :: st) logs.
Proof.
  intros Hw [Hi He]%andb_true_iff. bool_inv. unfold show_line.
  rewrite scan_program_line by by apply word_line. rewrite Hi, He. cbn [head]. f_equal.
  destruct (starts_with PROGRAM_DATA_PREFIX _) eqn:E.
  - apply data_prefix, data_word in E as ->; [|done|by apply word_line]. cbn [emitted andb].
    rewrite app_nil_r. by rewrite (bool_decide_ext (Some who = Some pid) (who = pid)) by naive_solver.
  - destruct k; try done. exfalso. apply not_true_iff_false in E. apply E.
    by apply data_prefix; [apply word_line|].
Qed.

(** * The call tree *)

(** Inside the gate's frames the scanner's stack is the real one. *)
Lemma scan_quiet pid who t : clean who -> quiet who t -> forall st d logs,
  scan_lines pid (who :: st) (render who d t ++ logs) = emitted pid who t ++ scan_lines pid (who :: st) logs.
Proof.
  revert who. induction t as [|k m r IH|w b IHb v r IHr]; intros who Hw Hq st d logs; [done|..].
  - destruct Hq as [Hp Hq]. cbn [render app]. rewrite scan_quiet_line, IH by done.
    destruct k; cbn [emitted app]; rewrite <- ?app_assoc; done.
  - destruct Hq as (Hc & Hb & Hr). cbn [render emitted app]. rewrite scan_invoke, <- !app_assoc by done.
    rewrite IHb by done. cbn [app]. rewrite scan_end by done. cbn [tail]. by rewrite IHr.
Qed.

(** Outside them the stack may be wrong, but never names the gate. *)
Lemma foreign_line pid who k : clean pid -> clean who -> who <> pid -> line_word who k <> pid.
Proof.
  intros (_ & _ & Hc) _ Hne. destruct k; try done; intros <-; apply Hc; by apply (bool_decide_unpack _).
Qed.
Lemma head_not_in (pid : text) st : pid ∉ st -> bool_decide (head st = Some pid) = false.
Proof. intros H. apply bool_decide_eq_false. destruct st; [done|]. intros [= ->]. apply H. left. Qed.
Lemma tail_not_in (pid : text) st : pid ∉ st -> pid ∉ tail st.
Proof. intros H Hin. apply H. destruct st; [done|]. by right. Qed.

Lemma scan_foreign pid who t : clean pid -> clean who -> who <> pid -> guarded pid who t -> forall st d, pid ∉ st ->
  exists st', pid ∉ st' /\ forall logs,
    scan_lines pid st (render who d t ++ logs) = emitted pid who t ++ scan_lines pid st' logs.
Proof.
  intros Hp. revert who. induction t as [|k m r IH|w b IHb v r IHr]; intros who Hw Hne Hg st d Hst; [by exists st|..].
  - cbn [render app guarded] in *.
    assert (emitted pid who (Print k m r) = emitted pid who r) as ->.
    { destruct k; try done. cbn [emitted]. by rewrite bool_decide_eq_false_2. }
    unfold show_line. setoid_rewrite scan_program_line; [|by apply word_line].
    destruct (is_invoke _); [|destruct (is_end _)].
    + apply IH; [done..|]. apply not_elem_of_cons. split; [|done]. by apply not_eq_sym, foreign_line.
    + apply IH; [done..|]. by apply tail_not_in.
    + rewrite head_not_in, andb_false_r by done. by apply IH.
  - destruct Hg as (Hc & Hb & Hr). cbn [render emitted app]. setoid_rewrite scan_invoke; [|done].
    setoid_rewrite <- app_assoc. destruct (decide (w = pid)) as [->|Hwp].
    + destruct (IHr who Hw Hne Hr st d Hst) as (st' & Hst' & H). exists st'. split; [done|]. intros logs.
      rewrite scan_quiet by done. f_equal. cbn [app]. rewrite scan_end by done. apply H.
    + destruct (IHb w Hc Hwp Hb (w :: st) (d + 1)%N) as (st1 & Hst1 & H1); [by apply not_elem_of_cons|].
      destruct (IHr who Hw Hne Hr (tail st1) d) as (st' & Hst' & H); [by apply tail_not_in|].
      exists st'. split; [done|]. intros logs. rewrite H1. f_equal. cbn [app]. rewrite scan_end by done. apply H.
Qed.

(** The whole of a transaction's log: instructions at depth one. *)
Definition transaction_log (t : trace) : list text := render (txt "-") 1 t.


(** * The event line *)

(** Base64 with the standard alphabet. *)
Class Base64 := {
  b64_encode : list byte -> text;
  b64_decode : text -> option (list byte);
}.
Class Base64Laws `{Base64} : Prop := {
  b64_roundtrip : forall b, b64_decode (b64_encode b) = Some b;
  b64_no_ws : forall b, no_ws (b64_encode b);
  b64_nonempty : forall b, b <> [] -> b64_encode b <> [];
}.

(** [SentEvent::try_from_bytes], the derived Borsh reader. *)
Class EventCodec := { SentEvent_try_from_bytes : list byte -> option SentEvent }.
Definition SentEvent_wf (e : SentEvent) : Prop :=
  is_u 8 (se_version e) /\ is_u 64 (se_amount e) /\ is_u 8 (se_bridge_decimals e) /\
  is_u 64 (se_chain_id_from e) /\ is_u 64 (se_chain_id_to e) /\ is_u 64 (se_nonce e) /\
  is_u 32 (len (se_receiver e)) /\ is_u 32 (len (se_native_sender e)) /\
  (forall w, se_auto e = Some w -> is_u 128 (execution_fee w) /\ is_u 64 (flags w) /\
     is_u 32 (len (fallback_address w)) /\ is_u 32 (len (auto_data w))).
Class EventCodecLaws `{GateBorsh, EventCodec} : Prop := {
  event_roundtrip : forall e, SentEvent_wf e -> SentEvent_try_from_bytes (SentEvent_to_vec e) = Some e;
  event_nonempty : forall e, SentEvent_to_vec e <> [];
}.

Inductive LineError := MissingPayload | BadBase64 | BadEvent.

Section EventLine.
Context `{GateBorsh, Base64, EventCodec}.

Definition sent_event_to_program_data_line (event : SentEvent) : text :=
  PROGRAM_DATA_PREFIX ++ 32 :: b64_encode SENT_EVENT_TAG ++ 32 :: b64_encode (SentEvent_to_vec event).

Definition parse_sent_event_line (line : text) : option (result LineError SentEvent) :=
  rest ← strip_prefix PROGRAM_DATA_PREFIX (trim line);
  match split_whitespace (trim rest) with
  | [] => None
  | tag_b64 :: fields =>
      tag ← b64_decode tag_b64;
      if negb (bool_decide (tag = SENT_EVENT_TAG)) then None
      else Some (match fields with
                 | [] => Err MissingPayload
                 | payload_b64 :: _ =>
                     bytes ← ok_or (b64_decode payload_b64) BadBase64;
                     ok_or (SentEvent_try_from_bytes bytes) BadEvent
                 end)
  end.

(** The version byte, whatever the rest decodes to. *)
Definition payload_version (line : text) : option Z :=
  rest ← strip_prefix PROGRAM_DATA_PREFIX (trim line);
  payload ← split_whitespace rest !! 1%nat;
  bytes ← b64_decode payload;
  Z_of_byte <$> head bytes.

(** The line the runtime prints for the gate's [sol_log_data]. *)
Lemma event_line_shown e who :
  show_line who DataLine (b64_encode SENT_EVENT_TAG ++ 32 :: b64_encode (SentEvent_to_vec e)) =
  sent_event_to_program_data_line e.
Proof. done. Qed.

Context `{!Base64Laws, !EventCodecLaws}.

Lemma event_line_trimmed e : trim (sent_event_to_program_data_line e) = sent_event_to_program_data_line e.
Proof.
  rewrite <- (event_line_shown e []). unfold show_line. cbn [line_word line_tail].
  rewrite trim_program_line by (split; [by apply (bool_decide_unpack _)|done]).
  set (v := b64_encode (SentEvent_to_vec e)).
  assert (trim_end (b64_encode SENT_EVENT_TAG ++ 32 :: v) = b64_encode SENT_EVENT_TAG ++ 32 :: v) as E.
  { pose proof (b64_no_ws (SentEvent_to_vec e)) as Hv. pose proof (b64_nonempty _ (event_nonempty e)) as Hn.
    fold v in Hv, Hn. destruct v as [|c v'] using rev_ind; [done|]. clear IHv'.
    unfold no_ws in Hv. rewrite Forall_app, Forall_singleton in Hv.
    change (b64_encode SENT_EVENT_TAG ++ 32 :: v' ++ [c]) with (b64_encode SENT_EVENT_TAG ++ (32 :: v') ++ [c]).
    rewrite app_assoc. apply trim_end_snoc, Hv. }
  rewrite E, bool_decide_eq_false_2; [done|]. by destruct (b64_encode SENT_EVENT_TAG).
Qed.

(** An event survives the log: the line the runtime prints for the gate's event
    parses back to exactly that event, whatever whitespace is
    put in front of it. *)
Theorem event_line_roundtrip e pad : SentEvent_wf e -> Forall (fun c => is_whitespace c = true) pad ->
  parse_sent_event_line (pad ++ sent_event_to_program_data_line e) = Some (Ok e).
Proof.
  intros Hwf Hpad. unfold parse_sent_event_line.
  assert (trim (pad ++ sent_event_to_program_data_line e) = sent_event_to_program_data_line e) as ->.
  { rewrite <- (event_line_trimmed e) at 2. unfold trim. by rewrite trim_start_ws. }
  unfold sent_event_to_program_data_line. rewrite strip_prefix_app. cbn [mbind option_bind].
  set (tag := b64_encode SENT_EVENT_TAG). set (v := b64_encode (SentEvent_to_vec e)).
  assert (trim (32 :: tag ++ 32 :: v) = tag ++ 32 :: v) as ->.
  { pose proof (event_line_trimmed e) as E. unfold sent_event_to_program_data_line in E. fold tag v in E.
    pose proof (b64_no_ws SENT_EVENT_TAG) as Ht. pose proof (b64_nonempty SENT_EVENT_TAG ltac:(done)) as Hn.
    pose proof (b64_no_ws (SentEvent_to_vec e)) as Hv. pose proof (b64_nonempty _ (event_nonempty e)) as Hm.
    fold tag v in Ht, Hn, Hv, Hm. unfold trim. change (trim_start (32 :: tag ++ 32 :: v)) with (trim_start (tag ++ 32 :: v)).
    destruct tag as [|x tag']; [done|]. unfold no_ws in Ht. rewrite Forall_cons in Ht.
    cbn [app]. rewrite trim_start_id by apply Ht.
    destruct v as [|c v'] using rev_ind; [done|]. clear IHv'. unfold no_ws in Hv.
    rewrite Forall_app, Forall_singleton in Hv.
    change (x :: tag' ++ 32 :: v' ++ [c]) with ((x :: tag') ++ (32 :: v') ++ [c]).
    rewrite app_assoc. apply trim_end_snoc, Hv. }
  rewrite split_whitespace_two by (first [apply b64_no_ws|apply b64_nonempty; first [done|apply event_nonempty]]).
  unfold tag, v. cbn [mbind option_bind]. rewrite !b64_roundtrip. cbn [mbind option_bind].
  match goal with |- context [bool_decide ?P] => rewrite (bool_decide_eq_true_2 P) by done end.
  simpl. by rewrite event_roundtrip.
Qed.
End EventLine.
