(* ===== verification/AbiParams.v ===== *)
(** The EVM execution payload on the Solana side (crates/bridge-solana/src/relayer.rs,
    [decode_evm_auto_params] and [encode_evm_auto_params]): a hand-written
    [abi.encode(AutoParamsTo)] reader and writer. Offsets and lengths are [usize]
    of a 64-bit release build: a plain [+] wraps, [checked_add] does not. *)

From S2P Require Import Prelude.
From S2P Require Import GateTypes.

(** * The codec *)

Inductive AutoParamsError :=
  | Malformed (why : string)
  | Unrepresentable (field : string).

(** [slice.get(a..b)] *)
Definition slice_get (d : list byte) (a b : Z) : option (list byte) :=
  if (a <=? b) && (b <=? len d) then Some (take (Z.to_nat (b - a)) (drop (Z.to_nat a) d)) else None.
Definition all_zero (l : list byte) : bool := forallb (fun b => bool_decide (b = Byte.x00)) l.

Definition abi_word (data : list byte) (at_ : Z) : result AutoParamsError (list byte) :=
  ok_or (w ← slice_get data at_ (as_u 64 (at_ + 32)); arr_bytes <$> arr_of_list 32 w)
    (Malformed "truncated word").

Definition abi_usize (data : list byte) (at_ : Z) : result AutoParamsError Z :=
  w ← abi_word data at_;
  _ ← require (all_zero (take 24 w)) (Malformed "offset/length too large");
  Ok (Z_of_be (drop 24 w)).

Definition abi_bytes (data : list byte) (base head : Z) : result AutoParamsError (list byte) :=
  o ← abi_usize data head;
  off ← ok_or (checked_add 64 base o) (Malformed "offset overflow");
  n ← abi_usize data off;
  let start := as_u 64 (off + 32) in
  stop ← ok_or (checked_add 64 start n) (Malformed "length overflow");
  ok_or (slice_get data start stop) (Malformed "bytes run past the blob").

Definition decode_evm_auto_params (blob : list byte) : result AutoParamsError (option AutoParamsWire) :=
  if bool_decide (blob = []) then Ok None
  else
    base ← abi_usize blob 0;
    _ ← require (base =? 32) (Malformed "tuple offset is not 0x20");
    fee ← abi_word blob base;
    flags ← abi_word blob (as_u 64 (base + 32));
    _ ← require (all_zero (take 16 fee)) (Unrepresentable "executionFee");
    _ ← require (all_zero (take 24 flags)) (Unrepresentable "flags");
    fallback_address ← abi_bytes blob base (as_u 64 (base + 64));
    data ← abi_bytes blob base (as_u 64 (base + 96));
    Ok (Some (MkAutoParamsWire (Z_of_be (drop 16 fee)) (Z_of_be (drop 24 flags)) fallback_address data)).

Definition word (v : Z) : list byte := zeros 16 ++ be_bytes 16 v.
(** [out.resize(32 + b.len().div_ceil(32) * 32, 0)] after the length word and the bytes *)
Definition padding (n : Z) : Z := (n + 31) / 32 * 32 - n.
Definition padded (b : list byte) : list byte := word (len b) ++ b ++ zeros (Z.to_nat (padding (len b))).

Definition encode_evm_auto_params (w : AutoParamsWire) : list byte :=
  let fallback := padded (fallback_address w) in
  let data := padded (auto_data w) in
  word 32 ++ word (execution_fee w) ++ word (flags w) ++ word 128 ++ word (128 + len fallback) ++
  fallback ++ data.

(** * Reading back what was written *)

(** [w] can be laid out in a blob a 64-bit process can address. *)
Definition payload_wf (w : AutoParamsWire) : Prop :=
  is_u 128 (execution_fee w) /\ is_u 64 (flags w) /\
  len (fallback_address w) + len (auto_data w) < 2 ^ 62.

Lemma len_nonneg {A} (l : list A) : 0 <= len l.
Proof. unfold len. lia. Qed.
Lemma len_zeros n : 0 <= n -> len (zeros (Z.to_nat n)) = n.
Proof. intros. unfold len. rewrite length_zeros. lia. Qed.
Lemma length_word v : length (word v) = 32%nat.
Proof. unfold word. by rewrite length_app, length_zeros, length_be_bytes. Qed.
Lemma len_word v : len (word v) = 32.
Proof. unfold len. by rewrite length_word. Qed.
Lemma padding_range n : 0 <= padding n <= 31.
Proof. unfold padding. pose proof (Z.div_mod (n + 31) 32 ltac:(lia)). pose proof (Z.mod_pos_bound (n + 31) 32). lia. Qed.
Lemma len_padded b : len (padded b) = 32 + len b + padding (len b).
Proof.
  unfold padded. rewrite !len_app, len_word, len_zeros; [lia|]. apply padding_range.
Qed.

#[local] Transparent zeros.
Lemma all_zero_zeros n : all_zero (zeros n) = true.
Proof. unfold all_zero. apply forallb_forall. intros x Hx. apply list_elem_of_In in Hx.
  apply elem_of_replicate in Hx as [-> _]. done. Qed.
Lemma all_zero_true l : all_zero l = true -> l = zeros (length l).
Proof.
  induction l as [|b l IH]; simpl; [done|]. intros [->%bool_decide_eq_true H]%andb_true_iff.
  unfold zeros. simpl. f_equal. by apply IH.
Qed.
#[local] Opaque zeros.

(** Reading at the position just past a prefix. *)
Lemma slice_get_app p l r : len p + len l < 2 ^ 64 ->
  slice_get (p ++ l ++ r) (len p) (as_u 64 (len p + len l)) = Some l.
Proof.
  intros Hb. pose proof (len_nonneg p). pose proof (len_nonneg l). pose proof (len_nonneg r).
  unfold slice_get, as_u. rewrite Z.mod_small by lia. rewrite !len_app.
  destruct (Z.leb_spec (len p) (len p + len l)), (Z.leb_spec (len p + len l) (len p + (len l + len r))); try lia.
  simpl. f_equal. replace (len p + len l - len p) with (len l) by lia. unfold len. rewrite !Nat2Z.id.
  by rewrite drop_app_length, take_app_length.
Qed.
Lemma abi_word_app p v r : len p < 2 ^ 63 -> abi_word (p ++ word v ++ r) (len p) = Ok (word v).
Proof.
  intros. unfold abi_word.
  replace (as_u 64 (len p + 32)) with (as_u 64 (len p + len (word v))) by (by rewrite len_word).
  rewrite slice_get_app by (rewrite len_word; lia).
  assert (arr_of_list 32 (word v) = Some (Arr (word v) (bool_decide_pack _ (length_word v)))) as E
    by (by apply arr_of_list_Some).
  unfold mbind, option_bind. by rewrite E.
Qed.
Lemma word_small v : 0 <= v < 2 ^ 64 -> word v = zeros 24 ++ be_bytes 8 v.
Proof.
  intros. unfold word. rewrite (be_bytes_widen 8 8) by (simpl; lia).
  rewrite (app_assoc (zeros 16) (zeros 8)). f_equal.
Qed.
Lemma abi_usize_app p v r : len p < 2 ^ 63 -> 0 <= v < 2 ^ 64 -> abi_usize (p ++ word v ++ r) (len p) = Ok v.
Proof.
  intros Hp Hv. unfold abi_usize. rewrite abi_word_app by done. unfold mbind, result_bind. cbn iota beta.
  rewrite word_small by done. rewrite take_app_length' by (by rewrite length_zeros).
  rewrite all_zero_zeros. cbn [require]. rewrite drop_app_length' by (by rewrite length_zeros).
  rewrite Z_of_be_bytes, Z.mod_small by (simpl; lia). done.
Qed.

(** The same, for a blob that can be split at the position. *)
Lemma abi_word_at blob p v r at_ : blob = p ++ word v ++ r -> len p = at_ -> at_ < 2 ^ 63 ->
  abi_word blob at_ = Ok (word v).
Proof. intros -> <- ?. by apply abi_word_app. Qed.
Lemma abi_usize_at blob p v r at_ : blob = p ++ word v ++ r -> len p = at_ -> at_ < 2 ^ 63 ->
  0 <= v < 2 ^ 64 -> abi_usize blob at_ = Ok v.
Proof. intros -> <- ??. by apply abi_usize_app. Qed.
Lemma abi_bytes_at blob base head o p m q b r :
  blob = p ++ word o ++ m -> len p = head -> head < 2 ^ 63 ->
  blob = q ++ word (len b) ++ b ++ r -> len q = base + o -> 0 <= o -> 0 <= base ->
  len q + 32 + len b < 2 ^ 63 -> abi_bytes blob base head = Ok b.
Proof.
  intros Hp Hh Hhb Hq Hl Ho Hbase Hb. pose proof (len_nonneg b). pose proof (len_nonneg q).
  unfold abi_bytes. rewrite (abi_usize_at blob p o m) by (done || lia).
  unfold mbind, result_bind. cbn iota beta.
  unfold checked_add at 1. rewrite (proj2 (u_checked_Some _ _ (base + o))) by (split; [done|unfold is_u; lia]).
  cbn [ok_or]. rewrite <- Hl. rewrite (abi_usize_at blob q (len b) (b ++ r)) by (done || lia).
  replace (as_u 64 (len q + 32)) with (len (q ++ word (len b)))
    by (rewrite len_app, len_word; unfold as_u; rewrite Z.mod_small by lia; done).
  assert (len (q ++ word (len b)) = len q + 32) as Eq by (by rewrite len_app, len_word).
  unfold checked_add. rewrite (proj2 (u_checked_Some _ _ (len (q ++ word (len b)) + len b)))
    by (split; [done|unfold is_u; lia]). cbn [ok_or].
  rewrite Hq. rewrite (app_assoc q).
  replace (len (q ++ word (len b)) + len b) with (as_u 64 (len (q ++ word (len b)) + len b))
    by (unfold as_u; rewrite Z.mod_small by lia; done).
  by rewrite slice_get_app by lia.
Qed.

Lemma be_word_range v n : (n <= 32)%nat ->
  length v = 32%nat -> 0 <= Z_of_be (drop n v) < 256 ^ Z.of_nat (32 - n).
Proof.
  intros Hn Hv. unfold Z_of_be. pose proof (Z_of_le_range (reverse (drop n v))) as H.
  by rewrite length_reverse, length_drop, Hv in H.
Qed.
Lemma abi_word_length d a w : abi_word d a = Ok w -> length w = 32%nat.
Proof.
  unfold abi_word. intros (s & Hs & H)%ok_or_Ok%bind_Some.
  apply fmap_Some in H as (x & Hx & ->). apply length_arr.
Qed.

Lemma encode_nonempty w : encode_evm_auto_params w <> [].
Proof.
  intros E%(f_equal length). unfold encode_evm_auto_params in E.
  rewrite length_app, length_word in E. simpl in E. lia.
Qed.
Lemma word_high v : is_u 128 v -> take 16 (word v) = zeros 16 /\ Z_of_be (drop 16 (word v)) = v.
Proof.
  intros Hv. unfold word. rewrite take_app_length', drop_app_length' by (by rewrite length_zeros).
  split; [done|]. by rewrite Z_of_be_bytes, Z.mod_small by exact Hv.
Qed.
Lemma word_high8 v : is_u 64 v -> take 24 (word v) = zeros 24 /\ Z_of_be (drop 24 (word v)) = v.
Proof.
  intros Hv. rewrite word_small by done.
  rewrite take_app_length', drop_app_length' by (by rewrite length_zeros).
  split; [done|]. by rewrite Z_of_be_bytes, Z.mod_small by exact Hv.
Qed.

Lemma decode_encode w : payload_wf w ->
  decode_evm_auto_params (encode_evm_auto_params w) = Ok (Some w).
Proof.
  intros (Hf & Hg & Hl). pose proof (encode_nonempty w) as Hne.
  destruct (word_high _ Hf) as [Hf1 Hf2], (word_high8 _ Hg) as [Hg1 Hg2].
  unfold decode_evm_auto_params. rewrite bool_decide_eq_false_2 by done.
  unfold encode_evm_auto_params. destruct w as [fee fl fb da]. simpl in *.
  pose proof (len_nonneg fb). pose proof (len_nonneg da).
  pose proof (len_padded fb) as Lf. pose proof (padding_range (len fb)).
  pose proof (len_padded da) as Ld.
  match goal with |- context [abi_usize ?b 0] => set (blob := b) end.
  pose (pre := word 32 ++ word fee ++ word fl). assert (len pre = 96) as Lpre
    by (unfold pre; by rewrite !len_app, !len_word).
  assert (blob = pre ++ word 128 ++ word (128 + len (padded fb)) ++ padded fb ++ padded da) as E
    by (unfold blob, pre; by rewrite <- !app_assoc).
  rewrite (abi_usize_at blob [] 32 (drop 32 blob) 0) by (done || lia).
  unfold mbind, result_bind. cbn [require Z.eqb Pos.eqb].
  rewrite (abi_word_at blob (word 32) fee (drop 64 blob) 32) by done.
  rewrite (abi_word_at blob (word 32 ++ word fee) fl (drop 96 blob)) by done.
  rewrite Hf1, Hg1, !all_zero_zeros. cbn [require].
  rewrite (abi_bytes_at blob 32 (as_u 64 (32 + 64)) 128 pre (drop 128 blob)
    (pre ++ word 128 ++ word (128 + len (padded fb))) fb (zeros (Z.to_nat (padding (len fb))) ++ padded da));
    [|done|done|done|unfold padded in E |- *; by rewrite E, <- !app_assoc|..];
    rewrite ?len_app, ?len_word; try lia.
  rewrite (abi_bytes_at blob 32 (as_u 64 (32 + 96)) (128 + len (padded fb)) (pre ++ word 128) (padded fb ++ padded da)
    (pre ++ word 128 ++ word (128 + len (padded fb)) ++ padded fb) da (zeros (Z.to_nat (padding (len da)))));
    [|by rewrite E, <- !app_assoc|by rewrite len_app, Lpre, len_word|done
     |unfold padded at 3 in E; by rewrite E, <- !app_assoc|..]; rewrite ?len_app, ?len_word; try lia.
  by rewrite Hf2, Hg2.
Qed.

Lemma decode_sound blob o : decode_evm_auto_params blob = Ok o ->
  (o = None <-> blob = []) /\ (forall v, o = Some v -> is_u 128 (execution_fee v) /\ is_u 64 (flags v)).
Proof.
  unfold decode_evm_auto_params. destruct (decide (blob = [])) as [->|Hb].
  { rewrite bool_decide_eq_true_2 by done. intros [= <-]. naive_solver. }
  rewrite bool_decide_eq_false_2 by done. intros H.
  repeat (apply result_bind_Ok in H as (? & ? & H)). simplify_eq/=. split; [naive_solver|].
  intros v [= <-]. simpl.
  repeat match goal with Hw : abi_word _ _ = Ok _ |- _ => apply abi_word_length in Hw end.
  split; [eapply (be_word_range _ 16)|eapply (be_word_range _ 24)]; done || lia.
Qed.

(** The payload survives the trip between the EVM encoding and the program's
    form. Whatever payload the program can hash is read back exactly from the blob
    written for it, and the blob is never empty, so it is never mistaken for a
    transfer without a payload; the empty blob, and only it, reads as no payload;
    and every payload that is read fits the fields the program hashes. *)
Theorem auto_params_roundtrip w : payload_wf w ->
  encode_evm_auto_params w <> [] /\
  decode_evm_auto_params (encode_evm_auto_params w) = Ok (Some w) /\
  forall blob o, decode_evm_auto_params blob = Ok o ->
    (o = None <-> blob = []) /\ (forall v, o = Some v -> is_u 128 (execution_fee v) /\ is_u 64 (flags v)).
Proof.
  intros (Hf & Hg & Hl). split_and!.
  - intros E. apply (f_equal length) in E. unfold encode_evm_auto_params in E.
    rewrite length_app, length_word in E. simpl in E. lia.
  - apply decode_encode. by split_and!.
  - apply decode_sound.
Qed.
