(* ===== verification/EvmReader.v ===== *)
(** The relayer's hand-written view of an EVM gate (solana-relayer evm.rs): the ABI
    words it accepts and the search for a block that is provably old enough. The
    JSON-RPC transport is not modelled: a node is what it answers. *)

From S2P Require Import Prelude.
From S2P Require Import SolanaRuntime.
From S2P Require Import GateTypes.
From S2P Require Import AbiParams.

(** * The node *)

(** A failed [eth_call]: the contract reverted, or the request did not get through. *)
Inductive CallError := CallReverted | CallFailed.
Record evm_node := MkEvmNode {
  nd_block_number : result unit Z;             (* u64 *)
  nd_timestamp : Z -> result unit Z;           (* u64, of a block *)
  nd_call : list byte -> Z -> result CallError (list byte);
}.
Record GateReader := MkGateReader { gr_node : evm_node; gr_block_confirmation : Z }.

Record EvmDestinationState := MkEvmDestinationState { ed_executed : bool; ed_cancelled : bool }.
Record EvmSourceState := MkEvmSourceState { es_sent : bool; es_refunded : bool }.

(** * ABI words *)

Definition byte_at (l : list byte) (n : nat) : Z := Z_of_byte (nth n l Byte.x00).

Definition decode_bool (ret : list byte) : option bool :=
  if negb (len ret =? 32) then None
  else if negb (all_zero (take 31 ret)) || (byte_at ret 31 >? 1) then None
  else Some (byte_at ret 31 =? 1).
Definition decode_address_is_set (ret : list byte) : option bool :=
  if negb (len ret =? 32) then None
  else if negb (all_zero (take 12 ret)) then None
  else Some (negb (all_zero (drop 12 ret))).
Definition decode_address (ret : list byte) : option (option evm_address) :=
  if negb (len ret =? 32) then None
  else if negb (all_zero (take 12 ret)) then None
  else a ← arr_of_list 20 (drop 12 ret); Some (if bool_decide (a = arr_zero 20) then None else Some a).
(** [decode_bridge_decimals_for] with [want = 128], [decode_bridge_decimals_of] with 96. *)
Definition decode_bridge_decimals (want : Z) (ret : list byte) : option (option Z) :=
  if len ret <? want then None
  else if negb (all_zero (take 31 ret)) || (byte_at ret 31 >? 1) then None
  else if byte_at ret 31 =? 0 then Some None
  else if negb (all_zero (take 31 (drop 32 ret))) then None
  else Some (Some (byte_at ret 63)).
Definition decode_bridge_decimals_for := decode_bridge_decimals 128.
Definition decode_bridge_decimals_of := decode_bridge_decimals 96.

(** * Reading a gate *)

Section Reader.
Context {RT : Runtime}.

Definition selector (signature : string) : list byte := take 4 (keccak (bytes_of_string signature)).
Definition encode_bytes32_call (signature : string) (id : hash32) : list byte := selector signature ++ arr_bytes id.
Definition encode_address_call (signature : string) (addr : evm_address) : list byte :=
  selector signature ++ zeros 12 ++ arr_bytes addr.

(** [as i64] *)
Definition as_i64 (z : Z) : Z := let u := as_u 64 z in if u <? 2 ^ 63 then u else u - 2 ^ 64.
Definition saturating_mul (w a b : Z) : Z := Z.min (u_max w) (a * b).

Variable r : GateReader.
Abbreviation node := (gr_node r).

Definition confirmed_block : result unit Z :=
  latest ← nd_block_number node; Ok (saturating_sub latest (gr_block_confirmation r)).
Definition block_timestamp (number : Z) : result unit Z := t ← nd_timestamp node number; Ok (as_i64 t).
Definition call (data : list byte) (block : Z) : result unit (list byte) :=
  map_err (fun _ => tt) (nd_call node data block).

Definition destination_state (id : hash32) : result unit EvmDestinationState :=
  block ← confirmed_block;
  ret ← call (encode_bytes32_call "executed(bytes32)" id) block;
  executed ← ok_or (decode_bool ret) tt;
  ret ← call (encode_bytes32_call "cancelled(bytes32)" id) block;
  cancelled ← ok_or (decode_bool ret) tt;
  Ok (MkEvmDestinationState executed cancelled).

Definition source_state (id : hash32) : result unit EvmSourceState :=
  block ← confirmed_block;
  ret ← call (encode_bytes32_call "sentBy(bytes32)" id) block;
  sent ← ok_or (decode_address_is_set ret) tt;
  ret ← call (encode_bytes32_call "refunded(bytes32)" id) block;
  refunded ← ok_or (decode_bool ret) tt;
  Ok (MkEvmSourceState sent refunded).

Definition bridge_decimals_fallback (debridge_id : hash32) (block : Z) : result unit (option Z) :=
  match nd_call node (encode_bytes32_call "tokenOf(bytes32)" debridge_id) block with
  | Err CallReverted => Ok None
  | Err CallFailed => Err tt
  | Ok ret =>
      match decode_address ret with
      | None | Some None => Ok None
      | Some (Some local) =>
          match nd_call node (encode_address_call "bridgeDecimalsOf(address)" local) block with
          | Ok ret => Ok (default None (decode_bridge_decimals_of ret))
          | Err CallReverted => Ok None
          | Err CallFailed => Err tt
          end
      end
  end.
Definition bridge_decimals_for (debridge_id : hash32) : result unit (option Z) :=
  block ← confirmed_block;
  match nd_call node (encode_bytes32_call "bridgeDecimalsFor(bytes32)" debridge_id) block with
  | Ok ret =>
      match decode_bridge_decimals_for ret with
      | Some v => Ok v
      | None => bridge_decimals_fallback debridge_id block
      end
  | Err _ => bridge_decimals_fallback debridge_id block
  end.

(** The exponential walk back from the head. *)
Fixpoint aged_loop (fuel : nat) (head_num target step : Z) : result unit (option Z) :=
  match fuel with
  | O => Ok None
  | S fuel =>
      match checked_sub 64 head_num step with
      | None => Ok None
      | Some candidate =>
          ts ← block_timestamp candidate;
          if ts <=? target then Ok (Some candidate)
          else aged_loop fuel head_num target (saturating_mul 64 step 2)
      end
  end.
Definition first_step (timeout_secs : Z) : Z := Z.max (as_u 64 (Z.max timeout_secs 1) / 12) 1.
Definition aged_block (timeout_secs : Z) : result unit (option Z) :=
  head_num ← confirmed_block;
  head_ts ← block_timestamp head_num;
  let target := i_saturating_sub 64 head_ts timeout_secs in
  aged_loop 24 head_num target (first_step timeout_secs).

Definition was_sent_by_block (id : hash32) (block : Z) : result unit bool :=
  ret ← call (encode_bytes32_call "sentBy(bytes32)" id) block;
  ok_or (decode_address_is_set ret) tt.
Definition aged_out (id : hash32) (timeout_secs : Z) : result unit bool :=
  found ← aged_block timeout_secs;
  match found with
  | Some block => was_sent_by_block id block
  | None => Ok false
  end.

(** * The words *)

Lemma byte_at_app l k n : (length l <= n)%nat -> byte_at (l ++ k) n = byte_at k (n - length l).
Proof. intros Hn. unfold byte_at. by rewrite app_nth2. Qed.
Lemma all_zero_iff l : all_zero l = true <-> l = zeros (length l).
Proof. split; [apply all_zero_true|]. intros ->. apply all_zero_zeros. Qed.
Lemma word_of_byte b : be_bytes 32 (Z_of_byte b) = zeros 31 ++ [b].
Proof.
  pose proof (Z_of_byte_range b). rewrite (be_bytes_widen 31 1) by (simpl; lia). f_equal.
  #[local] Transparent be_bytes. unfold be_bytes. simpl. by rewrite byte_of_Z_of_byte.
  #[local] Opaque be_bytes.
Qed.
Lemma split_31 l : len l = 32 -> l = take 31 l ++ [nth 31 l Byte.x00].
Proof.
  unfold len. intros Hl. rewrite <- (take_drop 31 l) at 1. f_equal.
  assert (length (drop 31 l) = 1%nat) as H by (rewrite length_drop; lia).
  destruct (drop 31 l) as [|b [|]] eqn:E; try done. f_equal.
  rewrite <- (take_drop 31 l), E, app_nth2 by (rewrite length_take; lia).
  by rewrite length_take, Nat.min_l, Nat.sub_diag by lia.
Qed.

(** A getter's answer is believed only if it is the encoding of the value: 32 bytes
    that are exactly the ABI word of [false] or of [true] read as that boolean, and
    everything else (an empty answer from an address that is no gate, a longer one,
    a word above one) is an error; so [false], the answer that lets a burn be
    attested, is never read out of nothing. *)
Theorem decode_bool_exact ret b : decode_bool ret = Some b <-> ret = be_bytes 32 (if b then 1 else 0).
Proof.
  assert (forall b : byte, Z_of_byte b <= 1 -> be_bytes 32 (Z_of_byte b) = zeros 31 ++ [b]) as Hw
    by (intros; apply word_of_byte).
  unfold decode_bool. split.
  - destruct (Z.eqb_spec (len ret) 32) as [Hl|]; [|done]. cbn [negb].
    destruct (all_zero (take 31 ret)) eqn:Hz; [|done]. cbn [negb orb].
    apply all_zero_true in Hz. rewrite length_take in Hz. unfold len in Hl. rewrite Nat.min_l in Hz by lia.
    rewrite Z.gtb_ltb. destruct (Z.ltb_spec 1 (byte_at ret 31)); [done|]. intros [= <-].
    assert (ret = be_bytes 32 (byte_at ret 31)) as E.
    { rewrite (split_31 ret) at 1 by done. by rewrite Hz, <- Hw. }
    rewrite E at 1. f_equal. pose proof (Z_of_byte_range (nth 31 ret Byte.x00)). unfold byte_at in *.
    destruct (Z.eqb_spec (Z_of_byte (nth 31 ret Byte.x00)) 1); lia.
  - intros ->. assert (be_bytes 32 (if b then 1 else 0) = zeros 31 ++ [if b then Byte.x01 else Byte.x00]) as ->
      by (destruct b; [apply (word_of_byte Byte.x01)|apply (word_of_byte Byte.x00)]).
    unfold len. rewrite length_app, length_zeros. cbn [length Nat.add negb].
    change (Z.of_nat 32 =? 32) with true. cbn [negb].
    rewrite take_app_length', all_zero_zeros by (by rewrite length_zeros). cbn [negb orb].
    rewrite byte_at_app by (by rewrite length_zeros). rewrite length_zeros. by destruct b.
Qed.

(** * The age proof *)

Lemma aged_loop_sound fuel head_num target step b : 0 < step -> aged_loop fuel head_num target step = Ok (Some b) ->
  0 <= b < head_num /\ exists ts, block_timestamp b = Ok ts /\ ts <= target.
Proof.
  revert step. induction fuel as [|fuel IH]; intros step Hs; cbn [aged_loop]; [done|].
  destruct (checked_sub 64 head_num step) as [cand|] eqn:Hc; [|done].
  apply u_checked_Some in Hc as [-> [Hc _]]. intros (ts & Hts & H)%result_bind_Ok.
  destruct (Z.leb_spec ts target).
  - injection H as <-. split; [lia|]. eauto.
  - apply IH in H; [done|]. unfold saturating_mul, u_max. lia.
Qed.

Lemma first_step_pos t : 1 <= first_step t.
Proof. unfold first_step. lia. Qed.

(** An old enough block is proved, never assumed. If the attester concludes that a
    transfer has been unclaimed for the timeout, then the gate reported the deposit
    at a block that lies below the confirmed head and whose own timestamp is at
    least the timeout before the confirmed head's. *)
Theorem aged_out_proof id timeout_secs : is_i 64 timeout_secs -> 0 <= timeout_secs ->
  aged_out id timeout_secs = Ok true ->
  exists latest head_ts block block_ts ret,
    nd_block_number node = Ok latest /\
    let head_num := saturating_sub latest (gr_block_confirmation r) in
    block_timestamp head_num = Ok head_ts /\ 0 <= block < head_num /\
    block_timestamp block = Ok block_ts /\ (i_min 64 <= head_ts - timeout_secs -> block_ts <= head_ts - timeout_secs) /\
    nd_call node (encode_bytes32_call "sentBy(bytes32)" id) block = Ok ret /\
    len ret = 32 /\ take 12 ret = zeros 12 /\ drop 12 ret <> zeros 20.
Proof.
  intros Ht Ht0. unfold aged_out, aged_block, confirmed_block. intros (found & Hf & H)%result_bind_Ok.
  apply result_bind_Ok in Hf as (hd & Hl & Hf). apply result_bind_Ok in Hl as (latest & Hl & [= <-]).
  apply result_bind_Ok in Hf as (head_ts & Hts & Hf).
  destruct found as [block|]; [|done].
  pose proof (first_step_pos timeout_secs) as Hpos.
  apply aged_loop_sound in Hf as (Hb & ts & Hbts & Hle); [|lia].
  unfold was_sent_by_block, call in H. apply result_bind_Ok in H as (ret & Hret%map_err_Ok & Hd%ok_or_Ok).
  exists latest, head_ts, block, ts, ret. split_and!; try done; try lia.
  - intros Hmin. unfold i_saturating_sub, i_clamp, i_max in Hle. unfold is_i in *. lia.
  - unfold decode_address_is_set in Hd. destruct (Z.eqb_spec (len ret) 32); [done|done].
  - unfold decode_address_is_set in Hd. destruct (Z.eqb_spec (len ret) 32) as [El|]; [|done]. cbn [negb] in Hd.
    destruct (all_zero (take 12 ret)) eqn:Hz; [|done]. apply all_zero_true in Hz. rewrite length_take in Hz.
    unfold len in El. by rewrite Nat.min_l in Hz by lia.
  - unfold decode_address_is_set in Hd. destruct (negb _); [done|]. destruct (negb _); [done|].
    injection Hd as Hd. intros E. rewrite E, all_zero_zeros in Hd. done.
Qed.

(** The search finds a block whenever one of the 24 it looks at is old enough. *)
Lemma aged_loop_complete fuel head_num target step k :
  0 < step -> (k < fuel)%nat -> step * 2 ^ Z.of_nat k <= head_num -> head_num < 2 ^ 64 ->
  (forall j, (j <= k)%nat -> exists ts, block_timestamp (head_num - step * 2 ^ Z.of_nat j) = Ok ts /\ (j = k -> ts <= target)) ->
  exists b, aged_loop fuel head_num target step = Ok (Some b) /\ head_num - step * 2 ^ Z.of_nat k <= b.
Proof.
  revert step k. induction fuel as [|fuel IH]; intros step k Hs Hk Hle Hh Hts; [lia|]. cbn [aged_loop].
  assert (1 <= 2 ^ Z.of_nat k) as Hp by (pose proof (Z.pow_pos_nonneg 2 (Z.of_nat k)); lia).
  unfold checked_sub. rewrite (proj2 (u_checked_Some 64 (head_num - step) (head_num - step)))
    by (split; [done|split; nia]).
  destruct (Hts 0%nat ltac:(lia)) as (ts & Ht & Ht0). rewrite Z.pow_0_r, Z.mul_1_r in Ht. rewrite Ht.
  cbn [mbind result_bind]. destruct (Z.leb_spec ts target) as [|Hlt].
  - exists (head_num - step). split; [done|]. nia.
  - destruct k as [|k]; [exfalso; specialize (Ht0 eq_refl); lia|].
    rewrite Nat2Z.inj_succ, Z.pow_succ_r in * by lia.
    assert (0 < 2 ^ Z.of_nat k) by (apply Z.pow_pos_nonneg; lia).
    assert (saturating_mul 64 step 2 = step * 2) as ->.
    { unfold saturating_mul, u_max. apply Z.min_r. nia. }
    destruct (IH (step * 2) k) as (b & Hb & Hbl); [lia|lia|nia|done| |exists b; split; [done|nia]].
    intros j Hj. destruct (Hts (S j) ltac:(lia)) as (ts' & Ht' & Hk').
    exists ts'. rewrite Nat2Z.inj_succ, Z.pow_succ_r in Ht' by lia. split.
    + rewrite <- Ht'. f_equal. lia.
    + intros ->. auto.
Qed.
End Reader.
