(* ===== verification/ListSort.v ===== *)
(** Rust's stable [sort_by_key] and [dedup_by_key] on lists, for keys compared by a
    total order: what a sorted and deduplicated list contains. *)

From S2P Require Import Prelude.
From Stdlib Require Import Sorting.Sorted.

Section SortBy.
Context {A K : Type} `{EqDecision K} (key : A -> K) (leb : K -> K -> bool).

(** Insertion after the elements that are not greater: equal keys keep their order. *)
Fixpoint insert_by (x : A) (l : list A) : list A :=
  match l with
  | [] => [x]
  | y :: l' => if leb (key y) (key x) then y :: insert_by x l' else x :: l
  end.
Definition sort_by_key (l : list A) : list A := fold_left (fun acc x => insert_by x acc) l [].

(** Drops every element whose key is that of the element before it. *)
Fixpoint dedup_after (k : K) (l : list A) : list A :=
  match l with
  | [] => []
  | x :: l => if bool_decide (key x = k) then dedup_after k l else x :: dedup_after (key x) l
  end.
Definition dedup_by_key (l : list A) : list A :=
  match l with [] => [] | x :: l => x :: dedup_after (key x) l end.

Definition key_le (x y : A) : Prop := leb (key x) (key y) = true.
(** [x < y] on keys. *)
Definition key_lt (x y : A) : Prop := leb (key y) (key x) = false.

Hypothesis leb_total : forall x y, leb x y = false -> leb y x = true.
Hypothesis leb_trans : forall x y z, leb x y = true -> leb y z = true -> leb x z = true.
Hypothesis leb_antisym : forall x y, leb x y = true -> leb y x = true -> x = y.

Lemma insert_by_Permutation x l : insert_by x l ≡ₚ x :: l.
Proof using Type.
  clear. induction l as [|y l IH]; simpl; [done|]. destruct (leb _ _); [|done].
  rewrite IH. apply Permutation_swap.
Qed.
Lemma sort_by_key_Permutation l : sort_by_key l ≡ₚ l.
Proof using Type.
  clear. unfold sort_by_key. assert (forall acc, fold_left (fun acc x => insert_by x acc) l acc ≡ₚ acc ++ l) as H.
  { induction l as [|x l IH]; intros acc; simpl; [by rewrite app_nil_r|].
    rewrite IH, insert_by_Permutation. apply Permutation_middle. }
  apply H.
Qed.

Lemma insert_by_Sorted x l : StronglySorted key_le l -> StronglySorted key_le (insert_by x l).
Proof using leb_total leb_trans.
  induction 1 as [|y l Hs IH Hf]; simpl; [by repeat constructor|].
  destruct (leb (key y) (key x)) eqn:E.
  - constructor; [done|]. apply Forall_forall. intros z Hz. rewrite insert_by_Permutation in Hz.
    apply elem_of_cons in Hz as [->|Hz]; [done|]. by eapply Forall_forall in Hf.
  - apply leb_total in E. constructor; [by constructor|]. constructor; [done|].
    eapply Forall_impl; [exact Hf|]. intros z Hz. exact (leb_trans _ _ _ E Hz).
Qed.
Lemma sort_by_key_Sorted l : StronglySorted key_le (sort_by_key l).
Proof using leb_total leb_trans.
  unfold sort_by_key. assert (forall acc, StronglySorted key_le acc ->
    StronglySorted key_le (fold_left (fun acc x => insert_by x acc) l acc)) as H.
  { induction l as [|x l IH]; intros acc Ha; simpl; [done|]. by apply IH, insert_by_Sorted. }
  apply H. constructor.
Qed.

Lemma dedup_after_spec k l : Forall (fun x => leb k (key x) = true) l -> StronglySorted key_le l ->
  StronglySorted key_lt (dedup_after k l) /\
  Forall (fun x => leb (key x) k = false) (dedup_after k l) /\
  (forall x, x ∈ dedup_after k l -> x ∈ l) /\
  (forall x, x ∈ l -> key x = k \/ exists y, y ∈ dedup_after k l /\ key y = key x).
Proof using leb_total leb_trans leb_antisym.
  revert k. induction l as [|x l IH]; intros k Hk Hs; simpl.
  { split_and!; [constructor|constructor|set_solver..]. }
  apply Forall_cons in Hk as [Hkx Hk]. inversion Hs as [|? ? Hs' Hf]; subst.
  case_bool_decide as E.
  - destruct (IH k) as (H1 & H2 & H3 & H4); [done..|].
    split_and!; [done|done|set_solver|]. intros y [->|Hy]%elem_of_cons; [by left|auto].
  - destruct (IH (key x)) as (H1 & H2 & H3 & H4); [done..|].
    assert (leb (key x) k = false) as Hx.
    { destruct (leb (key x) k) eqn:E'; [|done]. by destruct E; apply leb_antisym. }
    split_and!.
    + constructor; [done|]. exact H2.
    + constructor; [done|]. eapply Forall_impl; [exact H2|]. intros y Hy. simpl in Hy.
      destruct (leb (key y) k) eqn:E'; [|done]. by rewrite (leb_trans _ _ _ E' Hkx) in Hy.
    + intros y [->|Hy]%elem_of_cons; set_solver.
    + intros y [->|Hy]%elem_of_cons; [right; exists x; set_solver|].
      destruct (H4 y Hy) as [Hyx|(z & Hz & Hzy)]; right; [exists x|exists z]; set_solver.
Qed.

(** Sorting and deduplicating keeps one element per key, strictly ascending. *)
Lemma dedup_sort_spec l :
  StronglySorted key_lt (dedup_by_key (sort_by_key l)) /\
  (forall x, x ∈ dedup_by_key (sort_by_key l) -> x ∈ l) /\
  (forall x, x ∈ l -> exists y, y ∈ dedup_by_key (sort_by_key l) /\ key y = key x).
Proof using leb_total leb_trans leb_antisym.
  pose proof (sort_by_key_Sorted l) as Hs. pose proof (sort_by_key_Permutation l) as Hp.
  destruct (sort_by_key l) as [|x s]; simpl.
  { split_and!; [constructor|set_solver|]. intros x Hx. rewrite <- Hp in Hx. set_solver. }
  inversion Hs as [|? ? Hs' Hf]; subst.
  destruct (dedup_after_spec (key x) s) as (H1 & H2 & H3 & H4); [done..|].
  split_and!.
  - constructor; [done|]. eapply Forall_impl; [exact H2|]. done.
  - intros y Hy. rewrite <- Hp. set_solver.
  - intros y Hy. rewrite <- Hp in Hy. apply elem_of_cons in Hy as [->|Hy]; [exists x; set_solver|].
    destruct (H4 y Hy) as [E|(z & Hz & E)]; [exists x|exists z]; set_solver.
Qed.
End SortBy.
