(* ===== verification/Quorum.v ===== *)
(** Who is believed when nodes disagree (validator/src/provider.rs, the pure part, and
    bridge-core/src/scan.rs): majorities of answers, the highest head a majority has
    reached, where a scan window may end, the comparison of log sets as multisets and
    the count of the endpoints that back one. *)

From S2P Require Import Prelude.
From S2P Require Import SolanaRuntime.
From S2P Require Import Text.
From S2P Require Import ListSort.
From Stdlib Require Import Sorting.Sorted.

(** * Majorities *)

(** Why [majority] refused; the text of the reason is not modelled. *)
Record NoMajority := MkNoMajority { nm_disagreement : bool }.

Section Majority.
Context {T : Type} `{EqDecision T}.

Definition min_agree (configured : nat) (require : bool) : nat :=
  if (2 <=? configured)%nat || require then 2 else 1.

Definition backers (answers : list (text * T)) (candidate : T) : nat :=
  length (filter (fun a => a.2 = candidate) answers).
Definition majority (answers : list (text * T)) (min_agree : nat) : result NoMajority T :=
  if (length answers <? min_agree)%nat then Err (MkNoMajority false)
  else
    let backed c := (min_agree <=? backers answers c)%nat && (length answers <? backers answers c * 2)%nat in
    match find (fun a => backed a.2) answers with
    | Some (_, candidate) => Ok candidate
    | None => Err (MkNoMajority true)
    end.
End Majority.

(** Rust's [Ord]: a total order, as a test. *)
Class Ord (T : Type) := { ord_leb : T -> T -> bool }.
Class OrdLaws (T : Type) `{Ord T} : Prop := {
  ord_total : forall a b : T, ord_leb a b = true \/ ord_leb b a = true;
  ord_trans : forall a b c : T, ord_leb a b = true -> ord_leb b c = true -> ord_leb a c = true;
  ord_antisym : forall a b : T, ord_leb a b = true -> ord_leb b a = true -> a = b;
}.
#[export] Instance Z_Ord : Ord Z := { ord_leb := Z.leb }.
#[export] Instance Z_OrdLaws : OrdLaws Z.
Proof. split; simpl; intros *; rewrite !Z.leb_le; lia. Qed.
(** [None] below everything. *)
#[export] Instance option_Ord {T} `{Ord T} : Ord (option T) := {
  ord_leb a b := match a, b with None, _ => true | Some _, None => false | Some a, Some b => ord_leb a b end }.
#[export] Instance option_OrdLaws {T} `{OrdLaws T} : OrdLaws (option T).
Proof.
  split.
  - intros [a|] [b|]; simpl; auto. apply ord_total.
  - intros [a|] [b|] [c|]; simpl; try done. apply ord_trans.
  - intros [a|] [b|]; simpl; try done. intros. f_equal. by apply ord_antisym.
Qed.

(** [sort_unstable_by] descending, then the element at [len / 2]. *)
Definition majority_floor {T} `{Ord T} (values : list T) : option T :=
  match values with
  | [] => None
  | _ => sort_by_key id (fun a b => ord_leb b a) values !! (length values / 2)%nat
  end.

Definition HEAD_LAG_ROTATE : Z := 64.

(** * Scan windows *)

Definition clamp_scan_window (from_block to_block endpoint_head confirmations : Z) : option Z :=
  let confirmed := saturating_sub endpoint_head confirmations in
  if confirmed <? from_block then None else Some (Z.min to_block confirmed).

Fixpoint corroborated_window_end (from_block serving_to : Z) (peer_heads : list Z) (confirmations : Z) : option Z :=
  match peer_heads with
  | [] => None
  | head :: rest =>
      match clamp_scan_window from_block serving_to head confirmations with
      | Some e => Some e
      | None => corroborated_window_end from_block serving_to rest confirmations
      end
  end.

(** * Logs *)

Record Log := MkLog {
  log_address : evm_address;
  log_topics : list hash32;
  log_data : list byte;
  log_block_number : option Z;
  log_index : option Z;
  log_transaction_hash : option hash32;
  log_removed : bool;
}.

Definition LogKey : Type := Z * Z * option hash32 * evm_address * list hash32 * list byte.
Definition log_key (l : Log) : LogKey :=
  (default 0 (log_block_number l), default 0 (log_index l), log_transaction_hash l, log_address l,
   log_topics l, log_data l).
#[export] Instance LogKey_eq_dec : EqDecision LogKey.
Proof. unfold LogKey. solve_decision. Defined.
#[export] Instance LogKey_countable : Countable LogKey.
Proof. unfold LogKey. apply _. Defined.

Abbreviation LogBag := (gmap LogKey nat).
Abbreviation live logs := (filter (fun l => log_removed l = false) logs).
Definition log_bag (logs : list Log) : LogBag :=
  fold_left (fun bag l => <[log_key l := S (default 0%nat (bag !! log_key l))]> bag) (live logs) ∅.
Definition bag_excess (a b : LogBag) : nat :=
  map_fold (fun k n total => (n - default 0 (b !! k) + total)%nat) 0%nat a.

Abbreviation log_pos l := (log_block_number l, log_index l).
(** How many elements of [l] are already in [seen] or occur earlier in [l]. *)
Fixpoint count_seen {A} `{EqDecision A} (seen : list A) (l : list A) : nat :=
  match l with
  | [] => 0
  | x :: l => if bool_decide (x ∈ seen) then S (count_seen seen l) else count_seen (x :: seen) l
  end.
Definition duplicate_positions (logs : list Log) : nat :=
  count_seen [] (map (fun l => log_pos l) (live logs)).

(** The [retain] of [dedupe_logs]: what was seen where, what is kept, and the first
    position at which two logs differ. *)
Fixpoint dedupe_retain (seen : gmap (option Z * option Z) LogKey) (conflict : option (option Z * option Z))
    (logs : list Log) : list Log * option (option Z * option Z) :=
  match logs with
  | [] => ([], conflict)
  | l :: logs =>
      match seen !! log_pos l with
      | None => let '(kept, c) := dedupe_retain (<[log_pos l := log_key l]> seen) conflict logs in (l :: kept, c)
      | Some k =>
          if bool_decide (k = log_key l) then dedupe_retain seen conflict logs
          else let '(kept, c) := dedupe_retain seen (Some (default (log_pos l) conflict)) logs in (l :: kept, c)
      end
  end.
(** The logs left, and how many copies were dropped. *)
Definition dedupe_logs (logs : list Log) : result (option Z * option Z) (list Log * nat) :=
  match dedupe_retain ∅ None logs with
  | (_, Some pos) => Err pos
  | (kept, None) => Ok (kept, (length logs - length kept)%nat)
  end.

(** * The count of one window's answers *)

(** The numbers of the code's message. *)
Record TallyDetail := MkTallyDetail {
  td_from_block : Z; td_scanned_to : Z; td_fabricated : nat; td_withheld : nat; td_for_served : nat; td_total : nat;
}.
Inductive Tally :=
  | TNoAnswer
  | TAgreed (by_ : nat) (dissenters : nat)
  | TDisagreed (first_dissenter : nat) (promote : option nat) (detail : TallyDetail).

Fixpoint find_map {A B} (f : A -> option B) (l : list A) : option B :=
  match l with [] => None | x :: l => match f x with Some y => Some y | None => find_map f l end end.

Definition supporters (sets : list (nat * LogBag)) (bag : LogBag) : list nat :=
  map fst (filter (fun s => s.2 = bag) sets).
(** A member, other than the first dissenter, of a strict majority behind one other set. *)
Definition promotion (sets : list (nat * LogBag)) (mine : LogBag) (total first_dissenter : nat) : option nat :=
  find_map (fun '(_, candidate) =>
    let bs := supporters sets candidate in
    if bool_decide (candidate <> mine) && (total <? length bs * 2)%nat
    then find (fun i => negb (i =? first_dissenter)%nat) bs else None) sets.

Definition bags (answers : list (nat * list Log)) : list (nat * LogBag) := map (fun a => (a.1, log_bag a.2)) answers.
(** [None]: an [expect] fails. *)
Definition tally (served : list Log) (answers : list (nat * list Log)) (from_block scanned_to : Z) : option Tally :=
  if bool_decide (answers = []) then Some TNoAnswer
  else
    let mine := log_bag served in
    let sets := bags answers in
    let total := (length sets + 1)%nat in
    let for_served := (1 + length (supporters sets mine))%nat in
    if (total <? for_served * 2)%nat then
      '(by_, _) ← find (fun s => bool_decide (s.2 = mine)) sets;
      Some (TAgreed by_ (total - for_served))
    else
      '(first_dissenter, theirs) ← find (fun s => bool_decide (s.2 <> mine)) sets;
      Some (TDisagreed first_dissenter (promotion sets mine total first_dissenter)
              (MkTallyDetail from_block scanned_to (bag_excess mine theirs) (bag_excess theirs mine) for_served total)).

(** * Majorities: what they decide *)

Lemma filter_Forall {A} (P : A -> Prop) `{forall x, Decision (P x)} l : Forall P l -> filter P l = l.
Proof. induction 1; [done|]. rewrite filter_cons_True by done. by f_equal. Qed.
Lemma filter_Forall_not {A} (P : A -> Prop) `{forall x, Decision (P x)} l : Forall (fun x => ~ P x) l -> filter P l = [].
Proof. induction 1; [done|]. by rewrite filter_cons_False. Qed.

Section MajorityFacts.
Context {T : Type} `{EqDecision T}.
Implicit Types answers : list (text * T).

Lemma backers_le answers v : (backers answers v <= length answers)%nat.
Proof. apply length_filter. Qed.
Lemma backers_disjoint answers v w : v <> w -> (backers answers v + backers answers w <= length answers)%nat.
Proof.
  intros Hvw. unfold backers. induction answers as [|[u x] answers IH]; [done|].
  rewrite !filter_cons. cbn [snd length]. destruct (decide (x = v)), (decide (x = w)); simplify_eq; simpl; lia.
Qed.
Lemma backers_elem answers v : (0 < backers answers v)%nat -> exists u, (u, v) ∈ answers.
Proof.
  unfold backers. destruct (filter _ _) as [|[u x] l] eqn:E; simpl; [lia|]. intros _.
  assert ((u, x) ∈ filter (fun a => a.2 = v) answers) as H by (rewrite E; left).
  apply list_elem_of_filter in H as [[= ->] H]. eauto.
Qed.

(** Two answers with some property come from two of those who were asked. *)
Lemma two_of {U A} (P : U -> A -> Prop) (Q : A -> Prop) `{!forall a, Decision (Q a)} (who : list U) (answers : list A) :
  Forall2 P who answers -> (2 <= length (filter Q answers))%nat ->
  exists u1 u2, [u1; u2] `sublist_of` who /\ (exists a, P u1 a /\ Q a) /\ (exists a, P u2 a /\ Q a).
Proof using Type.
  intros Hf. assert (forall k, (k <= length (filter Q answers))%nat ->
    exists sub, sub `sublist_of` who /\ length sub = k /\ Forall (fun u => exists a, P u a /\ Q a) sub) as Hk.
  { induction Hf as [|u a who answers Hu Hf IH]; intros k Hk.
    - simpl in Hk. exists []. split_and!; [done|simpl; lia|done].
    - rewrite filter_cons in Hk. destruct (decide (Q a)) as [Ev|Ev].
      + destruct k as [|k]; [exists []; split_and!; [apply sublist_nil_l|done|done]|].
        destruct (IH k) as (sub & Hs & Hl & Hp); [simpl in Hk; lia|]. exists (u :: sub).
        split_and!; [by constructor|simpl; lia|]. constructor; [by exists a|done].
      + destruct (IH k Hk) as (sub & Hs & Hl & Hp). exists sub. split_and!; [by constructor|done|done]. }
  intros H2. destruct (Hk 2%nat H2) as (sub & Hs & Hl & Hp). destruct sub as [|u1 [|u2 [|]]]; try done.
  exists u1, u2. inversion Hp as [|? ? H1 Hp']; subst. inversion Hp'; subst. done.
Qed.
(** An answer with two backers comes from two of those who were asked. *)
Lemma backed_by_two {U} (P : U -> T -> Prop) (v : T) (who : list U) answers : Forall2 (fun u a => P u a.2) who answers ->
  (2 <= backers answers v)%nat -> exists u1 u2, [u1; u2] `sublist_of` who /\ P u1 v /\ P u2 v.
Proof.
  unfold backers. intros Hf H2. destruct (two_of _ (fun a => a.2 = v) _ _ Hf H2) as (u1 & u2 & Hs & (a1 & H1 & <-) & (a2 & H2' & E)).
  exists u1, u2. split_and!; [done|done|]. by rewrite <- E.
Qed.

(** A cross-checked read settles exactly on what a strict majority of the answering
    endpoints, and at least [min_agree] of them, returned: no minority can forge an
    answer, and none can stall one that has its majority. Too few answers and a
    disagreement are told apart. *)
Theorem majority_exact answers k v :
  (majority answers k = Ok v <-> (k <= backers answers v)%nat /\ (length answers < 2 * backers answers v)%nat) /\
  (majority answers k = Err (MkNoMajority false) <-> (length answers < k)%nat).
Proof.
  unfold majority. destruct (Nat.ltb_spec (length answers) k) as [Hk|Hk].
  { pose proof (backers_le answers v). split; split; [done|lia|done|done]. }
  set (p := fun a : text * T => _). destruct (find p answers) as [[u c]|] eqn:Hf.
  - apply find_some in Hf as [_ Hc]. subst p. cbn in Hc. apply andb_true_iff in Hc as [H1 H2].
    apply Nat.leb_le in H1. apply Nat.ltb_lt in H2. split; [|split; [done|lia]]. split; [intros [= <-]; lia|].
    intros [_ Hv]. f_equal. destruct (decide (c = v)) as [|Hne]; [done|].
    pose proof (backers_disjoint answers c v Hne). lia.
  - split; [|split; [done|lia]]. split; [done|]. intros [H1 H2].
    destruct (backers_elem answers v ltac:(lia)) as [u Hu%list_elem_of_In].
    pose proof (find_none _ _ Hf _ Hu) as Hn. subst p. cbn in Hn.
    apply andb_false_iff in Hn as [Hn%Nat.leb_gt|Hn%Nat.ltb_ge]; lia.
Qed.
End MajorityFacts.

Section Floor.
Context {T : Type} `{OrdLaws T}.

(** A strict majority of [values] is at [x] or above. *)
Definition reached (values : list T) (x : T) : Prop :=
  (length values < 2 * length (filter (fun v => ord_leb x v = true) values))%nat.

Lemma descending_split (l : list T) n m : StronglySorted (fun a b => ord_leb b a = true) l -> l !! n = Some m ->
  Forall (fun a => ord_leb m a = true) (take n l) /\ Forall (fun a => ord_leb a m = true) (drop n l).
Proof using Type*.
  revert n. induction l as [|a l IH]; intros n Hs Hn; [done|]. inversion Hs as [|? ? Hs' Hf]; subst.
  destruct n as [|n]; simpl in Hn.
  - injection Hn as ->. split; [constructor|]. simpl. constructor; [by destruct (ord_total m m)|done].
  - destruct (IH n Hs' Hn) as [H1 H2]. simpl. split; [|done]. constructor; [|done].
    eapply Forall_forall in Hf; [exact Hf|]. by eapply list_elem_of_lookup_2.
Qed.
Lemma sorted_descending values : StronglySorted (fun a b : T => ord_leb b a = true) (sort_by_key id (fun a b => ord_leb b a) values).
Proof using Type*.
  apply (sort_by_key_Sorted id (fun a b : T => ord_leb b a)).
  - intros a b Hab. destruct (ord_total a b); [done|congruence].
  - intros a b c Hab Hbc. by eapply ord_trans.
Qed.
Lemma reached_elem values x : reached values x -> exists v, v ∈ values /\ ord_leb x v = true.
Proof using Type*.
  unfold reached. intros Hr. destruct (filter (fun v => ord_leb x v = true) values) as [|v l] eqn:E; [simpl in Hr; lia|].
  assert (v ∈ filter (fun v => ord_leb x v = true) values) as Hv by (rewrite E; left).
  apply list_elem_of_filter in Hv as [? ?]. eauto.
Qed.

(** The element at [len / 2] of a descending list. *)
Lemma middle_reached (s : list T) h m : StronglySorted (fun a b => ord_leb b a = true) s ->
  s !! h = Some m -> (length s < 2 * S h)%nat -> (2 * h <= length s)%nat ->
  reached s m /\ forall x, reached s x -> ord_leb x m = true.
Proof using Type*.
  intros Hs Hm Hlo Hhi. destruct (descending_split _ _ _ Hs Hm) as [H1 H2]. pose proof (lookup_lt_Some _ _ _ Hm) as Hlt. split.
  - unfold reached. rewrite <- (take_drop h s) at 2. rewrite filter_app, length_app.
    rewrite (drop_S _ _ _ Hm), filter_cons_True by (by destruct (ord_total m m)). cbn [length].
    rewrite filter_Forall by done. rewrite length_take, Nat.min_l by lia. lia.
  - intros x Hx. destruct (ord_leb x m) eqn:E; [done|exfalso]. unfold reached in Hx.
    rewrite <- (take_drop h s) in Hx at 2. rewrite filter_app, length_app in Hx.
    rewrite (filter_Forall_not (fun v => ord_leb x v = true) (drop h s)) in Hx.
    + pose proof (length_filter (fun v => ord_leb x v = true) (take h s)) as Hle.
      rewrite length_take, Nat.min_l in Hle by lia. cbn [length] in Hx. lia.
    + eapply Forall_impl; [exact H2|]. intros a Ha Hxa. cbn in Ha, Hxa. rewrite (ord_trans _ _ _ Hxa Ha) in E. done.
Qed.

Lemma floor_exact values m :
  (majority_floor values = Some m <-> reached values m /\ forall x, reached values x -> ord_leb x m = true) /\
  (majority_floor values = None <-> values = []).
Proof using Type*.
  unfold majority_floor. destruct values as [|v vs] eqn:E.
  { split; [|done]. split; [done|]. intros [Hr _]. unfold reached in Hr. simpl in Hr. lia. }
  rewrite <- E. assert (0 < length values)%nat as Hl by (subst; simpl; lia). clear E v vs.
  pose proof (sort_by_key_Permutation id (fun a b : T => ord_leb b a) values) as Hp.
  pose proof (sorted_descending values) as Hs. revert Hp Hs. generalize (sort_by_key id (fun a b : T => ord_leb b a) values).
  intros s Hp Hs. pose proof (Permutation_length Hp) as Hlen.
  assert (forall x, reached s x <-> reached values x) as Hr by (intros x; unfold reached; by rewrite Hp).
  assert (exists h, length values / 2 = h /\ h < length values /\ length values < 2 * S h /\ 2 * h <= length values)%nat
    as (h & -> & Hh1 & Hh2 & Hh3).
  { exists (length values / 2)%nat. pose proof (Nat.mod_upper_bound (length values) 2).
    pose proof (Nat.div_mod_eq (length values) 2). lia. }
  destruct (lookup_lt_is_Some_2 s h) as [y Hy]; [by rewrite Hlen|]. rewrite Hy.
  destruct (middle_reached s h y Hs Hy) as [Hry Hmax]; [lia..|]. split.
  2:{ split; [done|]. intros ->. simpl in Hl. lia. }
  split; [intros [= <-]|intros [Hm Hmm]; f_equal].
  - split; [by apply Hr|]. intros x Hx. by apply Hmax, Hr.
  - apply ord_antisym; [apply Hmm; by apply Hr|apply Hmax; by apply Hr].
Qed.
End Floor.

(** The head the scanner works towards is the greatest one that a strict majority of
    the answering endpoints has reached: a minority can neither push it up nor hold it
    back. There is one whenever any endpoint answered. *)
Theorem majority_floor_exact (values : list Z) m :
  (majority_floor values = Some m <-> reached values m /\ forall x, reached values x -> x <= m) /\
  (majority_floor values = None <-> values = []).
Proof.
  destruct (floor_exact values m) as [H1 H2]. split; [|done]. rewrite H1. simpl.
  split; intros [? Hm]; (split; [done|]; intros x Hx; apply Z.leb_le, Hm, Hx).
Qed.

(** * Where a window may end *)

Lemma clamp_scan_window_Some from to head conf e : clamp_scan_window from to head conf = Some e <->
  e = Z.min to (saturating_sub head conf) /\ from <= saturating_sub head conf.
Proof.
  unfold clamp_scan_window. destruct (Z.ltb_spec (saturating_sub head conf) from); split; try naive_solver lia.
Qed.
Lemma window_end_Some from to heads conf e : corroborated_window_end from to heads conf = Some e ->
  exists head, head ∈ heads /\ clamp_scan_window from to head conf = Some e.
Proof.
  induction heads as [|h heads IH]; simpl; [done|]. destruct (clamp_scan_window from to h conf) as [e'|] eqn:E.
  - intros [= <-]. exists h. split; [left|done].
  - intros H. destruct (IH H) as (h' & ? & ?). exists h'. split; [by right|done].
Qed.
Lemma window_end_exists from to heads conf head : head ∈ heads -> from <= saturating_sub head conf ->
  is_Some (corroborated_window_end from to heads conf).
Proof.
  induction 1 as [h heads|h h' heads Hin IH]; intros Hf; simpl.
  - destruct (clamp_scan_window _ _ _ _) eqn:E; [done|]. unfold clamp_scan_window in E.
    destruct (Z.ltb_spec (saturating_sub h conf) from); [lia|done].
  - destruct (clamp_scan_window _ _ _ _); [done|auto].
Qed.

(** * Bags of logs *)

Definition live_keys (logs : list Log) : list LogKey := map log_key (live logs).

Lemma count_fold (keys : list LogKey) (bag : LogBag) k :
  default 0%nat (fold_left (fun b x => <[x := S (default 0%nat (b !! x))]> b) keys bag !! k) =
  (count_occ (fun x y => decide (x = y)) keys k + default 0%nat (bag !! k))%nat.
Proof.
  revert bag. induction keys as [|x keys IH]; intros bag; simpl; [done|]. rewrite IH.
  destruct (decide (x = k)) as [->|Hne]; [rewrite lookup_insert_eq; simpl; lia|by rewrite lookup_insert_ne].
Qed.
Lemma log_bag_keys logs : log_bag logs =
  fold_left (fun b x => <[x := S (default 0%nat (b !! x))]> b) (live_keys logs) ∅.
Proof.
  unfold log_bag, live_keys. generalize (live logs), (∅ : LogBag). clear.
  intros l. induction l as [|x l IH]; intros bag; simpl; [done|]. apply IH.
Qed.
Lemma bag_pos (keys : list LogKey) (bag : LogBag) k n :
  (forall k n, bag !! k = Some n -> (0 < n)%nat) ->
  fold_left (fun b x => <[x := S (default 0%nat (b !! x))]> b) keys bag !! k = Some n -> (0 < n)%nat.
Proof.
  revert bag. induction keys as [|x keys IH]; intros bag Hb; simpl; [apply Hb|]. apply IH. intros k' n'.
  destruct (decide (x = k')) as [->|Hne]; [rewrite lookup_insert_eq; intros [= <-]; lia|].
  rewrite lookup_insert_ne by done. apply Hb.
Qed.
(** Two bags are equal when the live logs say the same things at the same places. *)
Lemma log_bag_eq a b : log_bag a = log_bag b <-> live_keys a ≡ₚ live_keys b.
Proof.
  rewrite (Permutation_count_occ (fun x y => decide (x = y))), !log_bag_keys. split.
  - intros E k. pose proof (count_fold (live_keys a) ∅ k) as Ha. pose proof (count_fold (live_keys b) ∅ k) as Hb.
    rewrite E in Ha. rewrite Ha in Hb. rewrite lookup_empty in Hb. simpl in Hb. lia.
  - intros Hc. apply map_eq. intros k.
    pose proof (count_fold (live_keys a) ∅ k) as Ha. pose proof (count_fold (live_keys b) ∅ k) as Hb.
    rewrite lookup_empty in Ha, Hb. simpl in Ha, Hb. rewrite Nat.add_0_r in Ha, Hb. specialize (Hc k).
    rewrite <- Ha, <- Hb in Hc.
    destruct (_ !! k) as [n|] eqn:E1 in Hc |- *, (_ !! k) as [m|] eqn:E2 in Hc |- *; simpl in Hc; try done.
    + by f_equal.
    + apply bag_pos in E1; [lia|done].
    + apply bag_pos in E2; [lia|done].
Qed.
Lemma live_key_in logs l : l ∈ live logs -> log_key l ∈ live_keys logs.
Proof. apply list_elem_of_fmap_2. Qed.

Lemma count_seen_zero {A} `{EqDecision A} (seen l : list A) :
  count_seen seen l = 0%nat <-> NoDup l /\ Forall (fun x => x ∉ seen) l.
Proof.
  revert seen. induction l as [|x l IH]; intros seen; simpl; [by split; [split; constructor|]|].
  case_bool_decide as Hx; [split; [done|intros [_ Hf]; inversion Hf; done]|].
  rewrite IH, NoDup_cons, Forall_cons. split.
  - intros [Hn Hf]. rewrite Forall_forall in Hf. split_and!; [|done|done|].
    + intros Hin. apply (Hf x Hin). left.
    + apply Forall_forall. intros y Hy Hs. apply (Hf y Hy). by right.
  - intros [[Hni Hn] [_ Hf]]. split; [done|]. apply Forall_forall. intros y Hy Hs.
    apply elem_of_cons in Hs as [->|Hs]; [done|]. eapply Forall_forall in Hf; eauto.
Qed.
Lemma duplicate_positions_zero logs :
  duplicate_positions logs = 0%nat <-> NoDup (map (fun l => log_pos l) (live logs)).
Proof.
  unfold duplicate_positions. rewrite count_seen_zero. split; [by intros []|]. split; [done|].
  apply Forall_forall. intros x _. apply not_elem_of_nil.
Qed.

(** ** Dropping copies *)

Lemma dedupe_retain_spec logs : forall seen conflict kept,
  dedupe_retain seen conflict logs = (kept, None) ->
  conflict = None /\ kept `sublist_of` logs /\
  NoDup (map (fun l => log_pos l) kept) /\ Forall (fun l => seen !! log_pos l = None) kept /\
  Forall (fun l => seen !! log_pos l = Some (log_key l) \/ exists m, m ∈ kept /\ log_pos m = log_pos l /\ log_key m = log_key l) logs.
Proof.
  induction logs as [|l logs IH]; intros seen conflict kept; cbn [dedupe_retain].
  { intros [= <- ->]. split_and!; constructor. }
  destruct (seen !! log_pos l) as [k|] eqn:E.
  - case_bool_decide as Hk.
    + intros H. destruct (IH _ _ _ H) as (-> & Hs & Hn & Hf & Ha). split_and!; [done|by constructor|done|done|].
      constructor; [left; congruence|done].
    + destruct (dedupe_retain _ _ logs) as [kept' c] eqn:Er. intros [= <- ->].
      apply IH in Er as [[=] _].
  - destruct (dedupe_retain _ _ logs) as [kept' c] eqn:Er. intros [= <- ->].
    destruct (IH _ _ _ Er) as (-> & Hs & Hn & Hf & Ha). rewrite Forall_forall in Hf. split_and!; [done|by constructor| | |].
    + simpl. constructor; [|done]. intros (m & Em & Hm)%list_elem_of_fmap.
      specialize (Hf m Hm). rewrite <- Em, lookup_insert_eq in Hf. done.
    + constructor; [done|]. apply Forall_forall. intros m Hm. specialize (Hf m Hm).
      destruct (decide (log_pos l = log_pos m)) as [Em|Hne]; [by rewrite <- Em|].
      by rewrite lookup_insert_ne in Hf.
    + constructor; [right; exists l; split; [left|done]|]. eapply Forall_impl; [exact Ha|].
      intros m [Hm|(x & Hx & ? & ?)]; cbn beta; [|right; exists x; split; [by right|done]].
      destruct (decide (log_pos l = log_pos m)) as [Em|Hne].
      * rewrite Em, lookup_insert_eq in Hm. apply (inj Some) in Hm. right. exists l. split; [left|done].
      * rewrite lookup_insert_ne in Hm by done. by left.
Qed.
Lemma dedupe_retain_conflict logs : forall seen conflict kept pos,
  dedupe_retain seen conflict logs = (kept, Some pos) -> conflict = Some pos \/
  exists l k, l ∈ logs /\ log_pos l = pos /\ k <> log_key l /\
    (seen !! pos = Some k \/ exists m, m ∈ logs /\ log_pos m = pos /\ log_key m = k).
Proof.
  induction logs as [|l logs IH]; intros seen conflict kept pos; cbn [dedupe_retain].
  { intros [= _ ->]. by left. }
  assert (forall s : gmap (option Z * option Z) LogKey, (forall p k, s !! p = Some k -> seen !! p = Some k \/ (p = log_pos l /\ k = log_key l)) ->
    (exists l0 k, l0 ∈ logs /\ log_pos l0 = pos /\ k <> log_key l0 /\
      (s !! pos = Some k \/ exists m, m ∈ logs /\ log_pos m = pos /\ log_key m = k)) ->
    exists l0 k, l0 ∈ l :: logs /\ log_pos l0 = pos /\ k <> log_key l0 /\
      (seen !! pos = Some k \/ exists m, m ∈ l :: logs /\ log_pos m = pos /\ log_key m = k)) as Hext.
  { intros s Hs (l0 & k & Hl & Hp & Hk & [Hin|(m & Hm & ? & ?)]); exists l0, k.
    - split_and!; [by right|done|done|]. destruct (Hs _ _ Hin) as [|[-> ->]]; [by left|].
      right. exists l. split; [left|done].
    - split_and!; [by right|done|done|]. right. exists m. split; [by right|done]. }
  destruct (seen !! log_pos l) as [k|] eqn:E.
  - case_bool_decide as Hk.
    + intros H. destruct (IH _ _ _ _ H) as [->|Hx]; [by left|right]. apply (Hext seen); [by left|done].
    + destruct (dedupe_retain _ _ logs) as [kept' c] eqn:Er. intros [= _ ->].
      destruct (IH _ _ _ _ Er) as [Hp|Hx]; [|right; apply (Hext seen); [by left|done]].
      destruct conflict as [p|]; simpl in Hp; [by left|right]. apply (inj Some) in Hp. subst pos.
      exists l, k. split_and!; [left|done|done|]. by left.
  - destruct (dedupe_retain _ _ logs) as [kept' c] eqn:Er. intros [= _ ->].
    destruct (IH _ _ _ _ Er) as [->|Hx]; [by left|right]. eapply Hext; [|exact Hx].
    intros p k0. destruct (decide (log_pos l = p)) as [<-|Hne].
    + rewrite lookup_insert_eq. intros Hk%(inj Some). by right.
    + rewrite lookup_insert_ne by done. by left.
Qed.

Lemma dedupe_kept logs kept dropped : dedupe_logs logs = Ok (kept, dropped) ->
  kept `sublist_of` logs /\ (length kept + dropped = length logs)%nat /\
  NoDup (map (fun l => log_pos l) kept) /\
  forall l, l ∈ logs -> exists m, m ∈ kept /\ log_pos m = log_pos l /\ log_key m = log_key l.
Proof.
  unfold dedupe_logs. destruct (dedupe_retain ∅ None logs) as [kept' [pos|]] eqn:E; [done|]. intros [= <- <-].
  apply dedupe_retain_spec in E as (_ & Hs & Hn & _ & Ha). split_and!; [done| |done|].
  - pose proof (sublist_length _ _ Hs). lia.
  - intros l Hl. rewrite Forall_forall in Ha. destruct (Ha l Hl) as [|]; [done|done].
Qed.

(** Dropping repeated logs never changes what they say: every position keeps exactly
    one log, in order, every dropped log was a copy of the one kept there, and the window
    is refused just when two different logs claim one position. *)
Theorem dedupe_logs_exact logs :
  match dedupe_logs logs with
  | Ok (kept, dropped) => kept `sublist_of` logs /\ (length kept + dropped = length logs)%nat /\
      NoDup (map (fun l => log_pos l) kept) /\
      (forall l, l ∈ logs -> exists m, m ∈ kept /\ log_pos m = log_pos l /\ log_key m = log_key l)
  | Err pos => exists l m, l ∈ logs /\ m ∈ logs /\ log_pos l = pos /\ log_pos m = pos /\ log_key l <> log_key m
  end.
Proof.
  destruct (dedupe_logs logs) as [[kept dropped]|pos] eqn:E; [by apply dedupe_kept|].
  unfold dedupe_logs in E. destruct (dedupe_retain ∅ None logs) as [kept [pos'|]] eqn:Er; [|done].
  injection E as ->. apply dedupe_retain_conflict in Er as [|(l & k & Hl & Hp & Hk & [Hx|(m & Hm & ? & <-)])]; [done|done|].
  exists l, m. by split_and!.
Qed.

(** * The count *)

Lemma supporters_count (sets : list (nat * LogBag)) bag :
  length (supporters sets bag) = length (filter (fun s => s.2 = bag) sets).
Proof. unfold supporters. by rewrite length_map. Qed.
Lemma supporters_elem (sets : list (nat * LogBag)) bag i :
  i ∈ supporters sets bag <-> (i, bag) ∈ sets.
Proof.
  unfold supporters. rewrite list_elem_of_fmap. split.
  - intros ([j b] & -> & Hb%list_elem_of_filter). cbn in Hb. destruct Hb as [-> Hb]. done.
  - intros Hin. exists (i, bag). split; [done|]. by apply list_elem_of_filter.
Qed.
Lemma supporters_disjoint (sets : list (nat * LogBag)) a b : a <> b ->
  (length (supporters sets a) + length (supporters sets b) <= length sets)%nat.
Proof.
  rewrite !supporters_count. intros Hab. induction sets as [|[i s] sets IH]; [done|].
  rewrite !filter_cons. cbn [snd length]. destruct (decide (s = a)), (decide (s = b)); simplify_eq; simpl; lia.
Qed.
Lemma find_map_Some {A B} (f : A -> option B) l y : find_map f l = Some y -> exists x, x ∈ l /\ f x = Some y.
Proof.
  induction l as [|x l IH]; simpl; [done|]. destruct (f x) as [z|] eqn:E.
  - intros [= <-]. exists x. split; [left|done].
  - intros H. destruct (IH H) as (x' & ? & ?). exists x'. split; [by right|done].
Qed.
Lemma find_map_None {A B} (f : A -> option B) l : find_map f l = None <-> Forall (fun x => f x = None) l.
Proof.
  induction l as [|x l IH]; simpl; [by split; [constructor|]|]. rewrite Forall_cons.
  destruct (f x); [by split; [|intros []]|]. rewrite IH. by split; [|intros []].
Qed.
Lemma length_bags answers : length (bags answers) = length answers.
Proof. apply length_map. Qed.
Lemma bags_elem answers i bag : (i, bag) ∈ bags answers <-> exists logs, (i, logs) ∈ answers /\ log_bag logs = bag.
Proof.
  unfold bags. rewrite list_elem_of_fmap. split.
  - intros ([j logs] & [= -> ->] & H). eauto.
  - intros (logs & H & <-). by exists (i, logs).
Qed.
Lemma supporters_NoDup answers bag : NoDup (map fst answers) -> NoDup (supporters (bags answers) bag).
Proof.
  intros Hn. unfold supporters, bags. eapply sublist_NoDup; [exact Hn|].
  etrans; [apply (fmap_sublist fst), (sublist_filter _)|].
  rewrite <- list_fmap_compose. done.
Qed.
(** A majority of at least two has a member other than any given one. *)
Lemma promotion_None answers mine f bag : NoDup (map fst answers) -> answers <> [] ->
  promotion (bags answers) mine (length answers + 1) f = None -> bag <> mine ->
  (2 * length (supporters (bags answers) bag) <= length answers + 1)%nat.
Proof.
  intros Hn Hne Hp Hbag. destruct (Nat.le_gt_cases (2 * length (supporters (bags answers) bag)) (length answers + 1)) as [|Hgt]; [done|exfalso].
  pose proof (supporters_NoDup answers bag Hn) as Hnd. pose proof (supporters_elem (bags answers) bag) as Hin.
  assert (0 < length answers)%nat by (destruct answers; simpl; [done|lia]).
  unfold promotion in Hp. apply find_map_None in Hp. rewrite Forall_forall in Hp.
  destruct (supporters (bags answers) bag) as [|i [|j l]] eqn:E; simpl in Hgt; [lia..|].
  specialize (Hp (i, bag) (proj1 (Hin i) ltac:(left))). cbv beta iota zeta in Hp. rewrite E in Hp.
  rewrite bool_decide_eq_true_2 in Hp by done.
  rewrite (proj2 (Nat.ltb_lt _ _)) in Hp by (simpl; lia). cbn [andb] in Hp.
  pose proof (find_none _ _ Hp i ltac:(by left)) as Hi. pose proof (find_none _ _ Hp j ltac:(by right; left)) as Hj.
  apply negb_false_iff, Nat.eqb_eq in Hi, Hj. subst. apply NoDup_cons in Hnd as [Hx _]. apply Hx. left.
Qed.
Lemma promotion_Some answers mine total f p : promotion (bags answers) mine total f = Some p ->
  p <> f /\ exists bag, bag <> mine /\ (total < 2 * length (supporters (bags answers) bag))%nat /\
    p ∈ supporters (bags answers) bag.
Proof.
  intros ([i bag] & _ & Hf)%find_map_Some. cbv zeta in Hf.
  destruct (bool_decide (bag <> mine)) eqn:E1; [|done]. apply bool_decide_eq_true in E1.
  destruct (Nat.ltb_spec total (length (supporters (bags answers) bag) * 2)) as [E2|]; [|done]. cbn [andb] in Hf.
  apply find_some in Hf as [H1 H2]. apply negb_true_iff, Nat.eqb_neq in H2. split; [done|].
  exists bag. split_and!; [done|lia|by apply list_elem_of_In].
Qed.

(** The count of one window never fails, and decides exactly: the served logs are
    agreed upon when the endpoints that returned the same logs, the serving one
    included, are a strict majority of those that answered, at least one other endpoint
    among them. Otherwise an endpoint is promoted exactly when a strict majority returned
    one other set of logs, and it is a member of that majority, never the peer whose
    disagreement opened the count. *)
Theorem tally_exact served answers from_block scanned_to : NoDup (map fst answers) ->
  let backing bag := length (supporters (bags answers) bag) in
  let mine := log_bag served in
  let total := (length answers + 1)%nat in
  exists t, tally served answers from_block scanned_to = Some t /\
  match t with
  | TNoAnswer => answers = []
  | TAgreed by_ dissenters =>
      (total < 2 * (1 + backing mine))%nat /\ by_ ∈ supporters (bags answers) mine /\
      (dissenters + backing mine = length answers)%nat
  | TDisagreed first_dissenter promote _ =>
      (2 * (1 + backing mine) <= total)%nat /\
      (exists bag, bag <> mine /\ first_dissenter ∈ supporters (bags answers) bag) /\
      match promote with
      | Some p => p <> first_dissenter /\
          exists bag, bag <> mine /\ (total < 2 * backing bag)%nat /\ p ∈ supporters (bags answers) bag
      | None => forall bag, bag <> mine -> (2 * backing bag <= total)%nat
      end
  end.
Proof.
  intros Hn backing mine total. unfold tally. case_bool_decide as He; [eauto|].
  rewrite length_bags. fold mine. fold total. change (length (supporters (bags answers) mine)) with (backing mine).
  assert (0 < length answers)%nat as Hpos by (destruct answers; simpl; [done|lia]).
  assert (backing mine <= length answers)%nat as Hle.
  { unfold backing. rewrite supporters_count, <- length_bags. apply length_filter. }
  destruct (Nat.ltb_spec total ((1 + backing mine) * 2)) as [Hlt|Hge].
  - destruct (find _ (bags answers)) as [[i b]|] eqn:Hf.
    + apply find_some in Hf as [Hin%list_elem_of_In Hb%bool_decide_eq_true]. cbn in Hb. subst b.
      eexists. split; [reflexivity|]. cbn. split_and!; [unfold total in *; lia|by apply supporters_elem|unfold total in *; lia].
    + exfalso. assert (0 < backing mine)%nat as H1 by (unfold total in Hlt; lia).
      unfold backing in H1. destruct (supporters (bags answers) mine) as [|i l] eqn:E; [simpl in H1; lia|].
      assert ((i, mine) ∈ bags answers) as Hin by (apply supporters_elem; rewrite E; left).
      apply list_elem_of_In in Hin. pose proof (find_none _ _ Hf _ Hin) as H2.
      apply bool_decide_eq_false in H2. by apply H2.
  - destruct (find _ (bags answers)) as [[i b]|] eqn:Hf.
    + apply find_some in Hf as [Hin%list_elem_of_In Hb%bool_decide_eq_true]. cbn in Hb.
      eexists. split; [reflexivity|]. cbn beta iota. split_and!; [lia|exists b; split; [done|by apply supporters_elem]|].
      destruct (promotion _ _ _ _) as [p|] eqn:Hp; [by apply promotion_Some in Hp|].
      intros bag Hbag. by eapply promotion_None.
    + exfalso. assert (backing mine = length answers) as H1; [|unfold total in Hge; lia].
      unfold backing. rewrite supporters_count, filter_Forall, length_bags; [done|].
      apply Forall_forall. intros x Hx%list_elem_of_In. pose proof (find_none _ _ Hf _ Hx) as H2.
      apply bool_decide_eq_false in H2. by apply dec_stable in H2.
Qed.
