(* ===== verification/Effects.v ===== *)
(** Programs that keep a state, call the outside world and may fail: the state-passing
    form of the validator's async methods. The world is a family of answers indexed by
    the number of calls made before, so two calls never have to agree; an error keeps
    the state reached. With it, the weakest preconditions the proofs use. *)

From S2P Require Import Prelude.

Definition eff (S E A : Type) : Type := S -> nat -> result E A * S * nat.

#[export] Instance eff_ret {S E} : MRet (eff S E) := fun A a s t => (Ok a, s, t).
#[export] Instance eff_bind {S E} : MBind (eff S E) := fun A B f m s t =>
  match m s t with (Ok a, s', t') => f a s' t' | (Err e, s', t') => (Err e, s', t') end.

Section Primitives.
Context {S E : Type}.

Definition fail {A} (e : E) : eff S E A := fun s t => (Err e, s, t).
Definition get : eff S E S := fun s t => (Ok s, s, t).
Definition modify (f : S -> S) : eff S E unit := fun s t => (Ok tt, f s, t).
(** One call to the world. *)
Definition ask {A} (world : nat -> A) : eff S E A := fun s t => (Ok (world t), s, Datatypes.S t).
(** [?] and [ok_or]. *)
Definition try {A} (r : result E A) : eff S E A := match r with Ok a => mret a | Err e => fail e end.
Definition expect {A} (o : option A) (e : E) : eff S E A := match o with Some a => mret a | None => fail e end.
End Primitives.

(** A computation on a part of the state. *)
Definition on_part {S P E A} (get_part : S -> P) (set_part : P -> S -> S) (m : eff P E A) : eff S E A := fun s t =>
  match m (get_part s) t with (r, p, t') => (r, set_part p s, t') end.
(** A computation with its error handed to the caller: [match f().await]. *)
Definition attempt {S E A} (m : eff S E A) {E' : Type} : eff S E' (result E A) := fun s t =>
  match m s t with (r, s', t') => (Ok r, s', t') end.

(** * Weakest preconditions *)

Definition is_Ok {E A} (r : result E A) : Prop := exists a, r = Ok a.

Section Wp.
Context {S E : Type}.
Definition wp {A} (m : eff S E A) (Q : result E A -> S -> Prop) (s : S) : Prop :=
  forall t, Q (m s t).1.1 (m s t).1.2.

Lemma wp_run {A} (m : eff S E A) Q s t r s' t' : wp m Q s -> m s t = (r, s', t') -> Q r s'.
Proof. intros H Er. specialize (H t). by rewrite Er in H. Qed.
Lemma wp_mono {A} (m : eff S E A) (Q Q' : result E A -> S -> Prop) s :
  wp m Q s -> (forall r s', Q r s' -> Q' r s') -> wp m Q' s.
Proof. intros H HQ t. apply HQ, H. Qed.
Lemma wp_and {A} (m : eff S E A) (P Q : result E A -> S -> Prop) s :
  wp m P s -> wp m Q s -> wp m (fun r s' => P r s' /\ Q r s') s.
Proof. intros HP HQ t. by split. Qed.
Lemma wp_ret {A} (a : A) (Q : result E A -> S -> Prop) s : Q (Ok a) s -> wp (mret a) Q s.
Proof. intros H t. exact H. Qed.
Lemma wp_fail {A} e (Q : result E A -> S -> Prop) s : Q (Err e) s -> wp (fail e) Q s.
Proof. intros H t. exact H. Qed.
Lemma wp_bind {A B} (m : eff S E A) (f : A -> eff S E B) Q s :
  wp m (fun r s' => match r with Ok a => wp (f a) Q s' | Err e => Q (Err e) s' end) s -> wp (m ≫= f) Q s.
Proof.
  intros H t. specialize (H t). unfold mbind, eff_bind. destruct (m s t) as [[[a|e] s'] t']; simpl in *; [apply H|done].
Qed.
Lemma wp_get (Q : result E S -> S -> Prop) s : Q (Ok s) s -> wp get Q s.
Proof. intros H t. exact H. Qed.
Lemma wp_modify f (Q : result E unit -> S -> Prop) s : Q (Ok tt) (f s) -> wp (modify f) Q s.
Proof. intros H t. exact H. Qed.
Lemma wp_ask {A} (world : nat -> A) (Q : result E A -> S -> Prop) s :
  (forall t, Q (Ok (world t)) s) -> wp (ask world) Q s.
Proof. intros H t. apply H. Qed.
Lemma wp_try {A} (r : result E A) (Q : result E A -> S -> Prop) s : Q r s -> wp (try r) Q s.
Proof. intros H t. by destruct r. Qed.
Lemma wp_expect {A} (o : option A) e (Q : result E A -> S -> Prop) s :
  (forall a, o = Some a -> Q (Ok a) s) -> (o = None -> Q (Err e) s) -> wp (expect o e) Q s.
Proof. intros H1 H2 t. destruct o; simpl; auto. Qed.
End Wp.

Lemma wp_on_part {S P E A} (get_part : S -> P) set_part (m : eff P E A) (Q : result E A -> S -> Prop) s :
  wp m (fun r p => Q r (set_part p s)) (get_part s) -> wp (on_part get_part set_part m) Q s.
Proof. intros H t. specialize (H t). unfold on_part. by destruct (m (get_part s) t) as [[r p] t']. Qed.
Lemma wp_attempt {S E A E'} (m : eff S E A) (Q : result E' (result E A) -> S -> Prop) s :
  wp m (fun r s' => Q (Ok r) s') s -> wp (attempt m) Q s.
Proof. intros H t. specialize (H t). unfold attempt. by destruct (m s t) as [[r s'] t']. Qed.
Lemma wp_mapM {S E A B} (I : S -> Prop) (f : A -> eff S E B) l s :
  (forall x s, x ∈ l -> I s -> wp (f x) (fun r s' => I s') s) -> I s -> wp (mapM f l) (fun r s' => I s') s.
Proof.
  revert s. induction l as [|x l IH]; intros s Hf Hs; cbn; [by apply wp_ret|].
  apply wp_bind. eapply wp_mono; [apply Hf; [set_solver|done]|]. intros [b|e] s' Hs'; [|done].
  apply wp_bind. eapply wp_mono; [apply IH; [intros; apply Hf; [set_solver|done]|done]|].
  intros [bs|e] s'' Hs''; [by apply wp_ret|done].
Qed.
