(* ===== verification/Interleave.v ===== *)
(** Programs that share a state and run at the same time: each is a sequence of
    statements, every statement is atomic, and between two statements of one program any
    others may run. A statement can fail without effect, or take effect and lose its
    answer; either way the program that made it sees the same error. *)

From S2P Require Import Prelude.

Inductive sprog (S E A : Type) : Type :=
  | Ret (r : result E A)
  | Stmt (upd : Z -> S -> S) (k : Z -> S -> sprog S E A) (b : sprog S E A).   (* [b]: no answer *)
Arguments Ret {S E A} r.
Arguments Stmt {S E A} upd k b.

Fixpoint sprog_bind {S E A B} (f : A -> sprog S E B) (p : sprog S E A) : sprog S E B :=
  match p with
  | Ret (Ok a) => f a
  | Ret (Err e) => Ret (Err e)
  | Stmt upd k b => Stmt upd (fun t s => sprog_bind f (k t s)) (sprog_bind f b)
  end.
#[export] Instance sprog_mbind {S E} : MBind (sprog S E) := @sprog_bind S E.
#[export] Instance sprog_mret {S E} : MRet (sprog S E) := fun A a => Ret (Ok a).

(** The error of a statement that gets no answer. *)
Class Broken (E : Type) := broken : E.

Section Statements.
Context {S E : Type} {BE : Broken E}.
(** One statement at an instant, with what it answers. *)
Definition sql {A} (f : Z -> S -> S * A) : sprog S E A :=
  Stmt (fun t s => (f t s).1) (fun t s => Ret (Ok (f t s).2)) (Ret (Err broken)).
(** A statement, or a transaction, that can be refused and then changes nothing. *)
Definition transaction {A} (f : Z -> S -> result E (S * A)) : sprog S E A :=
  Stmt (fun t s => match f t s with Ok (s', _) => s' | Err _ => s end)
    (fun t s => Ret (match f t s with Ok (_, a) => Ok a | Err e => Err e end)) (Ret (Err broken)).
Definition lift {A} (r : result E A) : sprog S E A := Ret r.
Definition throw {A} (e : E) : sprog S E A := Ret (Err e).
(** [match p.await]: the error is a value. *)
Fixpoint caught {A} (p : sprog S E A) : sprog S E (result E A) :=
  match p with
  | Ret r => Ret (Ok r)
  | Stmt upd k b => Stmt upd (fun t s => caught (k t s)) (caught b)
  end.
End Statements.

(** * Running alone *)

Fixpoint alone {S E A} (t : Z) (p : sprog S E A) (s : S) : result E A * S :=
  match p with Ret r => (r, s) | Stmt upd k _ => alone t (k t s) (upd t s) end.

Lemma alone_bind {S E A B} t (p : sprog S E A) (f : A -> sprog S E B) s :
  alone t (p ≫= f) s =
    match alone t p s with (Ok a, s') => alone t (f a) s' | (Err e, s') => (Err e, s') end.
Proof.
  unfold mbind, sprog_mbind. revert s. induction p as [[a|e]|upd k IH b _]; intros s; cbn; [done|done|]. apply IH.
Qed.
Lemma alone_sql {S E A} `{Broken E} t (f : Z -> S -> S * A) s : alone (E := E) t (sql f) s = (Ok (f t s).2, (f t s).1).
Proof. done. Qed.
Lemma alone_caught {S E A} t (p : sprog S E A) s : alone t (caught p) s = (Ok (alone t p s).1, (alone t p s).2).
Proof. revert s. induction p as [r|upd k IH b _]; intros s; cbn; [done|]. apply IH. Qed.
Lemma alone_ret {S E A} t (a : A) (s : S) : alone (E := E) t (mret a) s = (Ok a, s).
Proof. done. Qed.
Lemma alone_transaction {S E A} `{Broken E} t (f : Z -> S -> result E (S * A)) s :
  alone t (transaction f) s = match f t s with Ok (s', a) => (Ok a, s') | Err e => (Err e, s) end.
Proof. unfold transaction. cbn. by destruct (f t s) as [[s' a]|e]. Qed.

(** * Running together *)

(** How a statement ends: with its answer, without effect, or with its answer lost. *)
Inductive Ending := Answered | NotExecuted | AnswerLost.

Section System.
Context {S E : Type}.

Record System := MkSystem { sys_state : S; sys_threads : list (sprog S E unit) }.

Definition statement (t : Z) (e : Ending) (p : sprog S E unit) (s : S) : S * sprog S E unit :=
  match p with
  | Ret r => (s, Ret r)
  | Stmt upd k b =>
      match e with
      | Answered => (upd t s, k t s)
      | NotExecuted => (s, b)
      | AnswerLost => (upd t s, b)
      end
  end.

(** Thread [i] makes its next statement at instant [t]. *)
Record Turn := MkTurn { tn_thread : nat; tn_time : Z; tn_ending : Ending }.
Definition turn (c : Turn) (y : System) : System :=
  match sys_threads y !! tn_thread c with
  | None => y
  | Some p =>
      let '(s, p) := statement (tn_time c) (tn_ending c) p (sys_state y) in
      MkSystem s (<[tn_thread c := p]> (sys_threads y))
  end.
Definition schedule (l : list Turn) (y : System) : System := fold_left (fun y c => turn c y) l y.

(** What may be called; a call starts a thread. *)
Variable calls : sprog S E unit -> Prop.
Inductive sys_step (y : System) : System -> Prop :=
  | SysTurn c : sys_step y (turn c y)
  | SysCall p : calls p -> sys_step y (MkSystem (sys_state y) (sys_threads y ++ [p])).

(** [I] holds whenever a statement of the program starts, [R] relates the states before and
    after each of its statements, and what it returns satisfies [Q]. *)
Section Guarded.
Variables (I : S -> Prop) (R : S -> S -> Prop).
Inductive guarded {A} (Q : A -> Prop) : sprog S E A -> Prop :=
  | GuardRet r : (forall a, r = Ok a -> Q a) -> guarded Q (Ret r)
  | GuardStmt upd k b : (forall t s, I s -> R s (upd t s)) -> (forall t s, I s -> guarded Q (k t s)) -> guarded Q b ->
      guarded Q (Stmt upd k b).

Lemma guarded_bind {A B} (P : A -> Prop) (Q : B -> Prop) (p : sprog S E A) (f : A -> sprog S E B) :
  guarded P p -> (forall a, P a -> guarded Q (f a)) -> guarded Q (p ≫= f).
Proof.
  intros Hp Hf. unfold mbind, sprog_mbind. induction Hp as [[a|e] Hr|upd k b Hu Hk IH Hb IHb]; cbn; [by apply Hf, Hr| |by constructor].
  by constructor.
Qed.
Lemma guarded_mono {A} (P Q : A -> Prop) (p : sprog S E A) : guarded P p -> (forall a, P a -> Q a) -> guarded Q p.
Proof. intros Hp HQ. induction Hp as [r Hr|upd k b Hu Hk IH Hb IHb]; constructor; auto. Qed.
Lemma guarded_ret {A} (Q : A -> Prop) (a : A) : Q a -> guarded Q (mret a).
Proof. intros H. constructor. by intros b [= <-]. Qed.
Lemma guarded_throw {A} (Q : A -> Prop) e : guarded Q (throw e).
Proof. by constructor. Qed.
Lemma guarded_lift {A} (r : result E A) : guarded (fun a => r = Ok a) (lift r).
Proof. by constructor. Qed.
Lemma guarded_sql {A} {BE : Broken E} (Q : A -> Prop) (f : Z -> S -> S * A) :
  (forall t s, I s -> R s (f t s).1 /\ Q (f t s).2) -> guarded Q (sql f).
Proof.
  intros H. constructor; [intros t s Hs; by apply H|intros t s Hs; constructor; intros a [= <-]; by apply H|by constructor].
Qed.
Lemma guarded_transaction {A} {BE : Broken E} (Q : A -> Prop) (f : Z -> S -> result E (S * A)) :
  (forall s, I s -> R s s) -> (forall t s s' a, I s -> f t s = Ok (s', a) -> R s s' /\ Q a) -> guarded Q (transaction f).
Proof.
  intros Hr H. constructor; [intros t s Hs..|by constructor].
  - destruct (f t s) as [[s' a]|e] eqn:Ef; [by eapply H|by apply Hr].
  - constructor. intros a. destruct (f t s) as [[s' b]|e] eqn:Ef; [|done]. intros [= <-]. by eapply H.
Qed.

(** Whatever the order of the statements and wherever they break off. *)
Hypothesis R_refl : forall s, I s -> R s s.
Hypothesis R_keeps : forall s s', I s -> R s s' -> I s'.
Hypothesis calls_guarded : forall p, calls p -> guarded (fun _ => True) p.

Definition system_ok (y : System) : Prop := I (sys_state y) /\ Forall (guarded (fun _ => True)) (sys_threads y).
Lemma turn_ok c y : system_ok y -> system_ok (turn c y) /\ R (sys_state y) (sys_state (turn c y)).
Proof using R_refl R_keeps.
  intros [HI HT]. unfold turn. destruct (sys_threads y !! tn_thread c) as [p|] eqn:Ep; [|by split; [|apply R_refl]].
  assert (Hp : guarded (fun _ => True) p) by exact (Forall_lookup_1 _ _ _ _ HT Ep).
  assert (Hs : R (sys_state y) (statement (tn_time c) (tn_ending c) p (sys_state y)).1 /\
    guarded (fun _ => True) (statement (tn_time c) (tn_ending c) p (sys_state y)).2).
  { destruct Hp as [r Hr|upd k b Hu Hk Hb]; cbn; [by split; [apply R_refl|constructor]|].
    destruct (tn_ending c); cbn; (split; [by auto|]); by auto. }
  destruct (statement _ _ p _) as [s' p']. cbn in *. destruct Hs as [Hs Hp'].
  split; [|done]. split; cbn; [by eapply R_keeps|by apply Forall_insert].
Qed.
Lemma sys_step_ok y y' : system_ok y -> sys_step y y' -> system_ok y' /\ R (sys_state y) (sys_state y').
Proof using R_refl R_keeps calls_guarded.
  intros Hy [c|p Hp]; [by apply turn_ok|]. destruct Hy as [HI HT]. split; [|by apply R_refl].
  split; cbn; [done|]. apply Forall_app. split; [done|]. constructor; [by apply calls_guarded|constructor].
Qed.
Lemma sys_steps_ok y y' : system_ok y -> rtc sys_step y y' -> system_ok y' /\ rtc R (sys_state y) (sys_state y').
Proof using R_refl R_keeps calls_guarded.
  intros Hy H. induction H as [y|y y1 y2 H1 H2 IH]; [by split; [|constructor]|].
  destruct (sys_step_ok _ _ Hy H1) as [Hy1 HR]. destruct (IH Hy1) as [Hy2 HR2]. split; [done|]. by econstructor.
Qed.
End Guarded.

Lemma guarded_weaken {A} (I I' : S -> Prop) (R R' : S -> S -> Prop) (Q : A -> Prop) (p : sprog S E A) :
  guarded I R Q p -> (forall s, I' s -> I s) -> (forall s s', I' s -> R s s' -> R' s s') -> guarded I' R' Q p.
Proof. intros Hp HI HR. induction Hp as [r Hr|upd k b Hu Hk IH Hb IHb]; constructor; auto. Qed.
Lemma guarded_relation {A} (I : S -> Prop) (R R' : S -> S -> Prop) (Q : A -> Prop) (p : sprog S E A) :
  guarded I R Q p -> (forall s s', I s -> R s s' -> R' s s') -> guarded I R' Q p.
Proof. intros Hp HR. by eapply guarded_weaken. Qed.
(** ** Facts that last

    A thread may count on what it established before as long as no statement of any thread
    can undo it. [rely Q P p]: started where [P] holds, every statement of [p] is within [R],
    and it ends with [Q]; between two statements the others may do anything within [R]. *)
Section Rely.
Variables (I : S -> Prop) (R : S -> S -> Prop).
Definition lasting (P : S -> Prop) : Prop := forall s s', I s -> P s -> R s s' -> P s'.
Inductive rely {A} (Q : A -> S -> Prop) : (S -> Prop) -> sprog S E A -> Prop :=
  | RelyRet (P : S -> Prop) r : (forall a s, r = Ok a -> I s -> P s -> Q a s) -> rely Q P (Ret r)
  | RelyStmt (P : S -> Prop) upd k b :
      (forall t s, I s -> P s -> R s (upd t s) /\ exists P', lasting P' /\ P' (upd t s) /\ rely Q P' (k t s)) ->
      rely Q P b -> rely Q P (Stmt upd k b).

Lemma rely_pre {A} (Q : A -> S -> Prop) (P P' : S -> Prop) p : rely Q P p -> (forall s, I s -> P' s -> P s) -> rely Q P' p.
Proof.
  intros Hp. revert P'. induction Hp as [P r Hr|P upd k b Hk Hb IH]; intros P' H; constructor; eauto.
Qed.
Lemma rely_mono {A} (Q Q' : A -> S -> Prop) P p : rely Q P p -> (forall a s, I s -> Q a s -> Q' a s) -> rely Q' P p.
Proof.
  intros Hp H. revert P Hp. induction p as [r|upd k IH b IHb]; intros P Hp; inversion Hp as [P0 r0 Hr|P0 u0 k0 b0 Hk Hb]; subst.
  - constructor. eauto.
  - constructor; [|by apply IHb]. intros t s HI HP. destruct (Hk t s HI HP) as (HR & P' & HL & HP' & Hr). split; [done|].
    exists P'. split_and!; [done|done|]. by apply IH.
Qed.
Lemma rely_bind {A B} (M : A -> S -> Prop) (Q : B -> S -> Prop) P (p : sprog S E A) (f : A -> sprog S E B) :
  rely M P p -> (forall a, rely Q (M a) (f a)) -> rely Q P (p ≫= f).
Proof.
  intros Hp Hf. unfold mbind, sprog_mbind. revert P Hp. induction p as [r|upd k IH b IHb]; intros P Hp; inversion Hp as [P0 r0 Hr|P0 u0 k0 b0 Hk Hb]; subst; cbn.
  - destruct r as [a|e]; [|by constructor]. eapply rely_pre; [apply Hf|]. eauto.
  - constructor; [|by apply IHb]. intros t s HI HP. destruct (Hk t s HI HP) as (HR & P' & HL & HP' & Hr). split; [done|].
    exists P'. split_and!; [done|done|]. by apply IH.
Qed.
Lemma rely_ret {A} (Q : A -> S -> Prop) (P : S -> Prop) (a : A) : (forall s, I s -> P s -> Q a s) -> rely Q P (mret a).
Proof. intros H. constructor. intros b s [= <-]. eauto. Qed.
Lemma rely_when {A} (C : Prop) (Q : A -> S -> Prop) (P : S -> Prop) (p : sprog S E A) :
  (C -> rely Q P p) -> rely Q (fun s => C /\ P s) p.
Proof.
  revert P. induction p as [r|upd k IH b IHb]; intros P H.
  - constructor. intros a s Ha HI [HC HP]. specialize (H HC). inversion H; subst. eauto.
  - constructor; [|apply IHb; intros HC; specialize (H HC); by inversion H; subst].
    intros t s HI [HC HP]. specialize (H HC). inversion H; subst. eauto.
Qed.
Lemma rely_lift {A} (P : S -> Prop) (r : result E A) : rely (fun a s => r = Ok a /\ P s) P (lift r).
Proof. constructor. by intros. Qed.
Lemma rely_sql {A} {BE : Broken E} (Q : A -> S -> Prop) (P : S -> Prop) (f : Z -> S -> S * A) :
  (forall t s, I s -> P s -> R s (f t s).1 /\ exists P', lasting P' /\ P' (f t s).1 /\ forall s', I s' -> P' s' -> Q (f t s).2 s') ->
  rely Q P (sql f).
Proof.
  intros H. constructor; [|by constructor]. intros t s HI HP. destruct (H t s HI HP) as (HR & P' & HL & HP' & HQ). split; [done|].
  exists P'. split_and!; [done|done|]. constructor. intros a s' [= <-]. apply HQ.
Qed.
Lemma rely_transaction {A} {BE : Broken E} (Q : A -> S -> Prop) (P : S -> Prop) (f : Z -> S -> result E (S * A)) :
  (forall s, I s -> R s s) ->
  (forall t s s' a, I s -> P s -> f t s = Ok (s', a) ->
     R s s' /\ exists P', lasting P' /\ P' s' /\ forall s', I s' -> P' s' -> Q a s') ->
  rely Q P (transaction f).
Proof.
  intros Hrefl H. constructor; [|by constructor]. intros t s HI HP. destruct (f t s) as [[s' a]|e] eqn:Ef.
  - destruct (H t s s' a HI HP Ef) as (HR & P' & HL & HP' & HQ). split; [done|]. exists P'. split_and!; [done|done|].
    constructor. intros b s2 [= <-]. apply HQ.
  - split; [by apply Hrefl|]. exists (fun _ => True). split_and!; [done|done|]. by constructor.
Qed.
(** What only keeps within [R] undoes nothing that lasts. *)
Lemma rely_guarded {A} (Q : A -> Prop) (P : S -> Prop) (p : sprog S E A) : lasting P -> guarded I R Q p ->
  rely (fun a s => Q a /\ P s) P p.
Proof.
  intros HL Hp. induction Hp as [r Hr|upd k b Hu Hk IH Hb IHb]; constructor; [eauto| |done].
  intros t s HI HP. pose proof (Hu t s HI) as HR. split; [done|]. exists P. split_and!; [done|by eapply HL|by apply IH].
Qed.
(** A fact that lasts goes along. *)
Lemma rely_frame {A} (Q : A -> S -> Prop) (P F : S -> Prop) (p : sprog S E A) : lasting F -> rely Q P p ->
  rely (fun a s => Q a s /\ F s) (fun s => P s /\ F s) p.
Proof.
  intros HF. revert P. induction p as [r|upd k IH b IHb]; intros P Hp; inversion Hp as [P0 r0 Hr|P0 u0 k0 b0 Hk Hb]; subst.
  - constructor. intros a s Ha HI [HP HFs]. split; [by eapply Hr|done].
  - constructor; [|by apply IHb]. intros t s HI [HP HFs]. destruct (Hk t s HI HP) as (HR & P' & HL & HP' & Hr). split; [done|].
    exists (fun s => P' s /\ F s). split_and!; [|done|by eapply HF|by apply IH].
    intros s1 s2 HI1 [H1 H2] HR1. split; [by eapply HL|by eapply HF].
Qed.
(** It holds as well when the program ends with an error. *)
Lemma rely_caught {A} (Q : A -> S -> Prop) (P F : S -> Prop) (p : sprog S E A) : lasting F -> (forall s, I s -> P s -> F s) ->
  rely Q P p -> rely (fun r s => F s /\ forall a, r = Ok a -> Q a s) P (caught p).
Proof.
  intros HF HPF Hp. apply (rely_frame _ _ _ _ HF) in Hp. eapply (rely_pre _ (fun s => P s /\ F s)); [|auto]. clear HPF.
  assert (Hc : forall P', (forall s, I s -> P' s -> F s) -> rely (fun a s => Q a s /\ F s) P' p ->
    rely (fun r s => F s /\ forall a, r = Ok a -> Q a s) P' (caught p)).
  { clear Hp. induction p as [r|upd k IH b IHb]; intros P' HP' Hp; inversion Hp as [P0 r0 Hr|P0 u0 k0 b0 Hk Hb]; subst; cbn.
    - constructor. intros a s [= <-] HI HPs. split; [by eapply HP'|]. intros a ->. by eapply Hr.
    - constructor; [|by apply IHb]. intros t s HI HPs. destruct (Hk t s HI HPs) as (HR & P2 & HL & HP2 & Hr). split; [done|].
      exists (fun s => P2 s /\ F s). split_and!; [|done|by eapply HF, HR; [|eapply HP']|].
      + intros s1 s2 HI1 [H1 H2] HR1. split; [by eapply HL|by eapply HF].
      + apply IH; [by intros s1 _ [_ ?]|]. eapply rely_pre; [exact Hr|]. by intros s1 _ [? _]. }
  apply Hc; [by intros s _ [_ ?]|done].
Qed.

Hypothesis R_refl : forall s, I s -> R s s.
Hypothesis R_keeps : forall s s', I s -> R s s' -> I s'.
Definition runs_within (s : S) (p : sprog S E unit) : Prop := exists P : S -> Prop, lasting P /\ P s /\ rely (fun _ _ => True) P p.
Hypothesis calls_rely : forall p, calls p -> rely (fun _ _ => True) (fun _ => True) p.

Definition relied (y : System) : Prop := I (sys_state y) /\ Forall (runs_within (sys_state y)) (sys_threads y).
Lemma runs_within_later s s' p : I s -> R s s' -> runs_within s p -> runs_within s' p.
Proof. intros HI HR (P & HL & HP & Hp). exists P. split_and!; [done|by eapply HL|done]. Qed.
Lemma statement_rely t e s p : I s -> runs_within s p ->
  R s (statement t e p s).1 /\ runs_within (statement t e p s).1 (statement t e p s).2.
Proof using R_refl R_keeps.
  intros HI (P & HL & HP & Hp). destruct Hp as [P r Hr|P upd k b Hk Hb]; cbn.
  - split; [by apply R_refl|]. exists P. split_and!; [done|done|by constructor].
  - destruct (Hk t s HI HP) as (HR & P' & HL' & HP' & Hr). destruct e; cbn.
    + split; [done|]. by exists P'.
    + split; [by apply R_refl|]. by exists P.
    + split; [done|]. exists P. split_and!; [done|by eapply HL|done].
Qed.
Lemma relied_turn c y : relied y -> relied (turn c y) /\ R (sys_state y) (sys_state (turn c y)).
Proof using R_refl R_keeps.
  intros [HI HT]. unfold turn. destruct (sys_threads y !! tn_thread c) as [p|] eqn:Ep; [|by split; [|apply R_refl]].
  destruct (statement_rely (tn_time c) (tn_ending c) (sys_state y) p HI (Forall_lookup_1 _ _ _ _ HT Ep)) as [HR Hp].
  destruct (statement _ _ p _) as [s' p']. cbn in *. split; [|done]. split; cbn; [by eapply R_keeps|].
  apply Forall_insert; [|done]. eapply Forall_impl; [exact HT|]. intros q. by apply runs_within_later.
Qed.
Lemma relied_step y y' : relied y -> sys_step y y' -> relied y' /\ R (sys_state y) (sys_state y').
Proof using R_refl R_keeps calls_rely.
  intros Hy [c|p Hp]; [by apply relied_turn|]. destruct Hy as [HI HT]. split; [|by apply R_refl].
  split; cbn; [done|]. apply Forall_app. split; [done|]. constructor; [|constructor].
  exists (fun _ => True). split_and!; [done|done|]. by apply calls_rely.
Qed.
Lemma relied_steps y y' : relied y -> rtc sys_step y y' -> relied y' /\ rtc R (sys_state y) (sys_state y').
Proof using R_refl R_keeps calls_rely.
  intros Hy H. induction H as [y|y y1 y2 H1 H2 IH]; [by split; [|constructor]|].
  destruct (relied_step _ _ Hy H1) as [Hy1 HR]. destruct (IH Hy1) as [Hy2 HR2]. split; [done|]. by econstructor.
Qed.
End Rely.
End System.
Arguments System : clear implicits.
