(* ===== verification/Failover.v ===== *)
(** One chain seen through several nodes (validator/src/provider.rs, [Failover]): which
    endpoint is asked, when another takes its place, what head the scanner works
    towards, and the check of every scan window against the other endpoints. Nodes are
    whatever they answer, at every call anew. *)

From S2P Require Import Prelude.
From S2P Require Import SolanaRuntime.
From S2P Require Import Text.
From S2P Require Import Quorum.
From S2P Require Import Effects.

(** * Nodes *)

Record Filter := MkFilter { flt_address : evm_address; flt_event : hash32; flt_from : Z; flt_to : Z }.

(** The answer to a call, by the number of calls made before it. *)
Class Network := {
  Provider : Type;
  head_at : nat -> Provider -> result text Z;
  head_u64 : forall t p h, head_at t p = Ok h -> is_u 64 h;
  logs_at : nat -> Provider -> Filter -> result text (list Log);
}.

(** * State, errors and calls *)

Section Failover.
Context {NW : Network}.

Record Endpoint := MkEndpoint { ep_url : text; ep_provider : Provider }.
Record Failover := MkFailover {
  fo_endpoints : list Endpoint;
  fo_active : nat;
  fo_last_heads : list (text * result text Z);
}.

(** [FoPanic]: an index out of range or a failed [expect]. *)
Inductive FoError := FoPanic | FoFailed.

Abbreviation M := (eff Failover FoError).
Definition get_fo : M Failover := get.
Definition set_active (i : nat) : M unit := modify (fun fo => MkFailover (fo_endpoints fo) i (fo_last_heads fo)).
Definition set_last_heads (h : list (text * result text Z)) : M unit :=
  modify (fun fo => MkFailover (fo_endpoints fo) (fo_active fo) h).
(** [self.endpoints[idx]] *)
Definition endpoint (idx : nat) : M Endpoint := fo ← get_fo; expect (fo_endpoints fo !! idx) FoPanic.
Definition ask_head (e : Endpoint) : M (result text Z) := ask (fun t => head_at t (ep_provider e)).
Definition ask_logs (e : Endpoint) (f : Filter) : M (result text (list Log)) := ask (fun t => logs_at t (ep_provider e) f).

Definition endpoint_count (fo : Failover) : nat := length (fo_endpoints fo).
Definition n_endpoints : M nat := fo ← get_fo; mret (endpoint_count fo).
Definition active : M nat := fo ← get_fo; mret (fo_active fo).

(** * Choosing an endpoint *)

(** [rotate_left(offset % n)] *)
Definition stagger (offset : nat) (fo : Failover) : Failover :=
  let n := endpoint_count fo in
  if (1 <? n)%nat
  then MkFailover (drop (offset mod n) (fo_endpoints fo) ++ take (offset mod n) (fo_endpoints fo))
         (fo_active fo) (fo_last_heads fo)
  else fo.

Definition promote (to : nat) : M unit :=
  a ← active;
  if (to =? a)%nat then mret tt else _ ← endpoint a; _ ← set_active to; _ ← endpoint to; mret tt.

(** The attempts of [with_failover], for [get_block_number]. *)
Fixpoint failover_attempts (attempts : list nat) : M Z :=
  match attempts with
  | [] => fail FoFailed
  | attempt :: attempts =>
      a ← active; n ← n_endpoints;
      let idx := ((a + attempt) mod n)%nat in
      e ← endpoint idx;
      r ← ask_head e;
      match r with
      | Ok v => _ ← (if (idx =? a)%nat then mret tt else set_active idx); mret v
      | Err _ => failover_attempts attempts
      end
  end.
Definition get_block_number : M Z := n ← n_endpoints; failover_attempts (seq 0 n).

Fixpoint ask_heads (idx : nat) (eps : list Endpoint) : M (list (nat * Z) * list (text * result text Z)) :=
  match eps with
  | [] => mret ([], [])
  | e :: eps =>
      r ← ask_head e;
      rest ← ask_heads (S idx) eps;
      mret (match r with Ok h => (idx, h) :: rest.1 | Err _ => rest.1 end, (ep_url e, r) :: rest.2)
  end.
(** The first endpoint after the active one, in stagger order, that has reached [head]. *)
Definition rotate_to (a n : nat) (heads : list (nat * Z)) (head : Z) : option nat :=
  find (fun i => existsb (fun '(j, h) => (j =? i)%nat && (head <=? h)) heads)
    (map (fun k => ((a + k) mod n)%nat) (seq 1 (n - 1))).
Definition scan_head : M Z :=
  fo ← get_fo;
  let n := endpoint_count fo in
  r ← ask_heads 0 (fo_endpoints fo);
  let '(heads, report) := r in
  _ ← set_last_heads report;
  match majority_floor (map snd heads) with
  | None => fail FoFailed
  | Some head =>
      let active_head := snd <$> find (fun '(i, _) => (i =? fo_active fo)%nat) heads in
      let lags := match active_head with None => true | Some h => saturating_add 64 h HEAD_LAG_ROTATE <? head end in
      _ ← (if lags then match rotate_to (fo_active fo) n heads head with Some to => set_active to | None => mret tt end
           else mret tt);
      mret head
  end.

(** * The corroborated window *)

(** The numbers in the message of a disagreement. *)
Inductive Detail := DuplicatePositions (from_block scanned_to : Z) (dups : nat) | Counted (d : TallyDetail).
Inductive Corroboration :=
  | Agreed (url : text)
  | Disagreed (served_by checked_by : text) (detail : Detail)
  | Inconclusive
  | Unavailable.

Definition window (f : Filter) (from to : Z) : Filter := MkFilter (flt_address f) (flt_event f) from to.
Definition logs_from (idx : nat) (f : Filter) (from to : Z) : M (result text (list Log)) :=
  e ← endpoint idx; ask_logs e (window f from to).

(** The peers' heads in stagger order; one that cannot tell is left out. *)
Fixpoint peer_heads (s n : nat) (steps : list nat) : M (list (nat * Z)) :=
  match steps with
  | [] => mret []
  | step :: steps =>
      let idx := ((s + step) mod n)%nat in
      e ← endpoint idx;
      r ← ask_head e;
      rest ← peer_heads s n steps;
      mret (match r with Ok head => (idx, head) :: rest | Err _ => rest end)
  end.

(** Asks the peers in turn until the first one agrees and nobody has dissented. *)
Fixpoint ask_peers (f : Filter) (from to confirmations : Z) (served_keys : LogBag) (peers : list (nat * Z))
    (answers : list (nat * list Log)) : M (list (nat * list Log)) :=
  match peers with
  | [] => mret answers
  | (idx, head) :: peers =>
      if saturating_sub head confirmations <? to
      then ask_peers f from to confirmations served_keys peers answers
      else
        r ← logs_from idx f from to;
        match r with
        | Err _ => ask_peers f from to confirmations served_keys peers answers
        | Ok logs =>
            let answers := answers ++ [(idx, logs)] in
            if bool_decide (log_bag logs = served_keys) && (length answers =? 1)%nat then mret answers
            else ask_peers f from to confirmations served_keys peers answers
        end
  end.

Definition settle (s : nat) (t : Tally) : M Corroboration :=
  match t with
  | TNoAnswer => mret Inconclusive
  | TAgreed by_ _ => e ← endpoint by_; mret (Agreed (ep_url e))
  | TDisagreed first_dissenter to detail =>
      e ← endpoint s; e' ← endpoint first_dissenter;
      _ ← match to with Some to => promote to | None => mret tt end;
      mret (Disagreed (ep_url e) (ep_url e') (Counted detail))
  end.

Abbreviation verdict := (option (list Log * Z * Corroboration)).
(** From the serving endpoint's answer on: the peers are heard, the window is known. *)
Definition check_window (f : Filter) (from_block scanned_to confirmations : Z) (n s : nat) (peers : list (nat * Z))
    : M verdict :=
  r ← logs_from s f from_block scanned_to;
  match r with
  | Err _ => _ ← set_active ((s + 1) mod n)%nat; fail FoFailed
  | Ok served =>
      let dups := duplicate_positions served in
      if (0 <? dups)%nat then
        e ← endpoint s;
        _ ← set_active ((s + 1) mod n)%nat;
        _ ← endpoint ((s + 1) mod n)%nat;
        mret (Some (served, scanned_to, Disagreed (ep_url e) (ep_url e)
                        (DuplicatePositions from_block scanned_to dups)))
      else
        answers ← ask_peers f from_block scanned_to confirmations (log_bag served) peers [];
        match tally served answers from_block scanned_to with
        | None => fail FoPanic
        | Some t => v ← settle s t; mret (Some (served, scanned_to, v))
        end
  end.

Definition get_logs_corroborated (f : Filter) (from_block to_block confirmations : Z) : M verdict :=
  n ← n_endpoints;
  serving_head ← get_block_number;
  s ← active;
  match clamp_scan_window from_block to_block serving_head confirmations with
  | None => mret None
  | Some serving_to =>
      if (n <? 2)%nat then
        r ← logs_from s f from_block serving_to;
        match r with
        | Err _ => fail FoFailed
        | Ok logs => mret (Some (logs, serving_to, Unavailable))
        end
      else
        peers ← peer_heads s n (seq 1 (n - 1));
        match corroborated_window_end from_block serving_to (map snd peers) confirmations with
        | None => mret (Some ([], serving_to, Inconclusive))
        | Some scanned_to => check_window f from_block scanned_to confirmations n s peers
        end
  end.

(** * Reasoning about calls *)

Lemma wp_active (Q : result FoError nat -> Failover -> Prop) fo : Q (Ok (fo_active fo)) fo -> wp active Q fo.
Proof. intros H t. exact H. Qed.
Lemma wp_n_endpoints (Q : result FoError nat -> Failover -> Prop) fo :
  Q (Ok (endpoint_count fo)) fo -> wp n_endpoints Q fo.
Proof. intros H t. exact H. Qed.
Lemma wp_get_fo (Q : result FoError Failover -> Failover -> Prop) fo : Q (Ok fo) fo -> wp get_fo Q fo.
Proof. intros H t. exact H. Qed.
Lemma wp_set_active i (Q : result FoError unit -> Failover -> Prop) fo :
  Q (Ok tt) (MkFailover (fo_endpoints fo) i (fo_last_heads fo)) -> wp (set_active i) Q fo.
Proof. intros H t. exact H. Qed.
Lemma wp_set_last_heads h (Q : result FoError unit -> Failover -> Prop) fo :
  Q (Ok tt) (MkFailover (fo_endpoints fo) (fo_active fo) h) -> wp (set_last_heads h) Q fo.
Proof. intros H t. exact H. Qed.
Lemma wp_endpoint i e (Q : result FoError Endpoint -> Failover -> Prop) fo :
  fo_endpoints fo !! i = Some e -> Q (Ok e) fo -> wp (endpoint i) Q fo.
Proof. intros He H t. unfold endpoint, mbind, eff_bind, get_fo, get. by rewrite He. Qed.

(** What an endpoint was heard to say, at some call. *)
Definition head_said (e : Endpoint) (h : Z) : Prop := exists t, head_at t (ep_provider e) = Ok h.
Definition logs_said (e : Endpoint) (f : Filter) (l : list Log) : Prop := exists t, logs_at t (ep_provider e) f = Ok l.

Lemma wp_ask_head e (Q : result FoError (result text Z) -> Failover -> Prop) fo :
  (forall h, head_said e h -> Q (Ok (Ok h)) fo) ->
  (forall x, (exists t, head_at t (ep_provider e) = Err x) -> Q (Ok (Err x)) fo) -> wp (ask_head e) Q fo.
Proof.
  intros H1 H2 t. unfold ask_head. simpl. destruct (head_at t _) eqn:E; [apply H1|apply H2]; by exists t.
Qed.
Lemma wp_logs_from i e f from to (Q : result FoError (result text (list Log)) -> Failover -> Prop) fo :
  fo_endpoints fo !! i = Some e ->
  (forall l, logs_said e (window f from to) l -> Q (Ok (Ok l)) fo) ->
  (forall x, (exists t, logs_at t (ep_provider e) (window f from to) = Err x) -> Q (Ok (Err x)) fo) ->
  wp (logs_from i f from to) Q fo.
Proof.
  intros He H1 H2. apply wp_bind, (wp_endpoint _ _ _ _ He). intros t. unfold ask_logs. simpl.
  destruct (logs_at t _ _) eqn:E; [apply H1|apply H2]; by exists t.
Qed.

(** The active index is an endpoint. *)
Definition fo_wf (fo : Failover) : Prop := (fo_active fo < endpoint_count fo)%nat.
Definition same_endpoints (fo fo' : Failover) : Prop := fo_endpoints fo' = fo_endpoints fo.
Lemma endpoint_in fo i : (i < endpoint_count fo)%nat -> exists e, fo_endpoints fo !! i = Some e.
Proof. intros H. exact (lookup_lt_is_Some_2 _ _ H). Qed.
Lemma mod_in fo i : fo_wf fo -> (i mod endpoint_count fo < endpoint_count fo)%nat.
Proof. unfold fo_wf. intros H. apply Nat.mod_upper_bound. lia. Qed.

(** Offsets from an index reach every other index. *)
Lemma offset_index n s i : (s < n)%nat -> (i < n)%nat -> exists k, k ∈ seq 0 n /\ i = ((s + k) mod n)%nat /\ (i <> s -> (1 <= k)%nat).
Proof.
  intros Hs Hi. destruct (decide (s <= i)%nat).
  - exists (i - s)%nat. split; [apply elem_of_seq; lia|]. rewrite Nat.mod_small by lia. lia.
  - exists (i + n - s)%nat. split; [apply elem_of_seq; lia|]. split; [apply (Nat.mod_unique _ _ 1); lia|lia].
Qed.
Lemma peer_index n s i : (s < n)%nat -> (i < n)%nat -> i <> s -> exists k, k ∈ seq 1 (n - 1) /\ i = ((s + k) mod n)%nat.
Proof.
  intros Hs Hi Hne. destruct (offset_index n s i Hs Hi) as (k & Hk%elem_of_seq & E & Hk1). exists k.
  split; [apply elem_of_seq; specialize (Hk1 Hne); lia|done].
Qed.

Definition always_heard (e : Endpoint) : Prop := forall t, is_Ok (head_at t (ep_provider e)).
Lemma failover_attempts_wp l fo : fo_wf fo -> wp (failover_attempts l) (fun r fo' =>
  same_endpoints fo fo' /\ fo_wf fo' /\
  match r with
  | Ok h => exists e, fo_endpoints fo' !! fo_active fo' = Some e /\ head_said e h
  | Err x => x = FoFailed /\ forall k e, k ∈ l ->
      fo_endpoints fo !! ((fo_active fo + k) mod endpoint_count fo)%nat = Some e -> ~ always_heard e
  end) fo.
Proof.
  intros Hwf. induction l as [|k l IH]; cbn [failover_attempts].
  { apply wp_fail. split_and!; [done|done|done|]. intros ? ? []%elem_of_nil. }
  apply wp_bind, wp_active, wp_bind, wp_n_endpoints, wp_bind.
  pose proof (mod_in fo (fo_active fo + k) Hwf) as Hi. destruct (endpoint_in _ _ Hi) as [e He].
  apply (wp_endpoint _ _ _ _ He), wp_bind, wp_ask_head.
  - intros h Hh. apply wp_bind. destruct (Nat.eqb_spec ((fo_active fo + k) mod endpoint_count fo) (fo_active fo)) as [E|E].
    + apply wp_ret, wp_ret. split_and!; [done|done|]. rewrite E in He. eauto.
    + apply wp_set_active, wp_ret. split_and!; [done|exact Hi|]. exists e. done.
  - intros x [t Hx]. eapply wp_mono; [exact IH|]. intros r fo' (H1 & H2 & H3). split_and!; [done|done|].
    destruct r as [h|y]; [done|]. destruct H3 as [-> H3]. split; [done|]. intros k' e' [->|Hk]%elem_of_cons He'; [|by eapply H3].
    simplify_eq. intros Hok. destruct (Hok t). congruence.
Qed.
Lemma get_block_number_wp fo : fo_wf fo -> wp get_block_number (fun r fo' =>
  same_endpoints fo fo' /\ fo_wf fo' /\
  match r with
  | Ok h => exists e, fo_endpoints fo' !! fo_active fo' = Some e /\ head_said e h
  | Err x => x = FoFailed /\ forall i e, fo_endpoints fo !! i = Some e -> ~ always_heard e
  end /\
  (forall e, fo_endpoints fo !! fo_active fo = Some e -> always_heard e -> fo' = fo)) fo.
Proof.
  intros Hwf t. change (get_block_number fo t) with (failover_attempts (seq 0 (endpoint_count fo)) fo t).
  pose proof (failover_attempts_wp (seq 0 (endpoint_count fo)) fo Hwf t) as (H1 & H2 & H3). split_and!; [done|done| |].
  - destruct ((failover_attempts _ fo t).1.1) as [h|x] in *; [done|]. destruct H3 as [-> H3]. split; [done|].
    intros i e He. destruct (offset_index (endpoint_count fo) (fo_active fo) i Hwf) as (k & Hk & E & _); [by eapply lookup_lt_Some|].
    rewrite E in He. by eapply H3.
  - intros e He Hok. unfold fo_wf in Hwf. destruct (endpoint_count fo) as [|n] eqn:En; [lia|].
    cbn [seq failover_attempts]. unfold active, n_endpoints, endpoint, ask_head, get_fo, get, ask, mret, eff_ret, mbind, eff_bind.
    cbv beta iota. rewrite En, Nat.add_0_r, Nat.mod_small, He by lia. unfold expect, mret, eff_ret. cbv beta iota.
    destruct (Hok t) as [h ->]. by rewrite Nat.eqb_refl.
Qed.

(** * The peers of one window *)

Section Window.
Variables (eps : list Endpoint) (s : nat).
Abbreviation n := (length eps).
Hypothesis Hs : (s < n)%nat.

Definition peer_of (step : nat) : nat := ((s + step) mod n)%nat.
Lemma peer_lt step : (peer_of step < n)%nat.
Proof using Hs. apply Nat.mod_upper_bound. lia. Qed.
Lemma peers_distinct : NoDup (map peer_of (seq 1 (n - 1))) /\ s ∉ map peer_of (seq 1 (n - 1)).
Proof using Hs.
  assert (forall k, k < n -> peer_of k = if decide (s + k < n) then s + k else s + k - n)%nat as Hp.
  { intros k Hk. unfold peer_of. destruct (decide (s + k < n)%nat); [by apply Nat.mod_small|].
    symmetry. apply (Nat.mod_unique _ _ 1); lia. }
  split.
  - apply NoDup_fmap_2_strong; [|apply NoDup_seq]. intros x y Hx%elem_of_seq Hy%elem_of_seq.
    rewrite !Hp by lia. destruct (decide _), (decide _); lia.
  - intros (k & E & Hk%elem_of_seq)%list_elem_of_fmap. rewrite Hp in E by lia. destruct (decide _); lia.
Qed.

(** A peer whose head was heard. *)
Definition heard (p : nat * Z) : Prop := exists e, eps !! p.1 = Some e /\ head_said e p.2.

Lemma peer_heads_wp steps fo : fo_endpoints fo = eps -> wp (peer_heads s n steps) (fun r fo' => fo' = fo /\
  exists peers, r = Ok peers /\ Forall heard peers /\ map fst peers `sublist_of` map peer_of steps /\
    (forall step e, step ∈ steps -> eps !! peer_of step = Some e -> always_heard e ->
       peer_of step ∈ map fst peers)) fo.
Proof using Hs.
  intros Hfo. induction steps as [|step steps IH]; cbn [peer_heads].
  { apply wp_ret. split; [done|]. exists []. split_and!; [done|constructor|constructor|]. intros ? ? []%elem_of_nil. }
  destruct (lookup_lt_is_Some_2 eps _ (peer_lt step)) as [e He].
  apply wp_bind. eapply wp_endpoint; [by rewrite Hfo|]. apply wp_bind, wp_ask_head.
  - intros h Hh. apply wp_bind. eapply wp_mono; [exact IH|]. intros r fo' (-> & peers & -> & Hf & Hsub & Hc).
    apply wp_ret. split; [done|]. exists ((peer_of step, h) :: peers). split_and!; [done| |by constructor|].
    + constructor; [|done]. by exists e.
    + cbn [map fst]. intros st e' [->|Hin]%elem_of_cons He' Hok; [left|right; by eapply Hc].
  - intros x [t Hx]. apply wp_bind. eapply wp_mono; [exact IH|]. intros r fo' (-> & peers & -> & Hf & Hsub & Hc).
    apply wp_ret. split; [done|]. exists peers. split_and!; [done|done|by constructor|].
    intros st e' [->|Hin]%elem_of_cons He' Hok; [|by eapply Hc]. simplify_eq. destruct (Hok t). congruence.
Qed.

Variables (f : Filter) (from to conf : Z).

(** An answer for the window from a peer that has it confirmed. *)
Definition answer_of (a : nat * list Log) : Prop := exists e h, eps !! a.1 = Some e /\ head_said e h /\
  to <= saturating_sub h conf /\ logs_said e (window f from to) a.2.
(** An endpoint that has the window confirmed and always answers. *)
Definition answers_window (i : nat) : Prop := exists e, eps !! i = Some e /\
  (forall t h, head_at t (ep_provider e) = Ok h -> to <= saturating_sub h conf) /\
  (forall t, is_Ok (logs_at t (ep_provider e) (window f from to))).

(** Either the first peer asked agreed, or everyone who could answer did. *)
Lemma ask_peers_wp mine peers answers0 fo : fo_endpoints fo = eps -> Forall heard peers ->
  wp (ask_peers f from to conf mine peers answers0) (fun r fo' => fo' = fo /\
    exists more, r = Ok (answers0 ++ more) /\ Forall answer_of more /\ map fst more `sublist_of` map fst peers /\
    ((answers0 = [] /\ exists i l, more = [(i, l)] /\ log_bag l = mine) \/
     forall i, i ∈ map fst peers -> answers_window i -> i ∈ map fst more)) fo.
Proof.
  intros Hfo Hp. revert answers0. induction Hp as [|[i h] peers (e & He & Hh) Hp IH]; intros answers0; cbn [ask_peers].
  { apply wp_ret. split; [done|]. exists []. split_and!; [by rewrite app_nil_r|constructor|constructor|].
    right. intros i Hi _. by apply elem_of_nil in Hi. }
  cbn in He, Hh. destruct (Z.ltb_spec (saturating_sub h conf) to) as [Hlt|Hge].
  - eapply wp_mono; [apply IH|]. intros r fo' (-> & more & -> & Hm & Hsub & Hend). split; [done|].
    exists more. split_and!; [done|done|by constructor|]. destruct Hend as [|Hc]; [by left|right].
    cbn [map fst]. intros j [->|Hj]%elem_of_cons Ha; [|by apply Hc]. destruct Ha as (e' & He' & Hcf & _). cbn in He'. simplify_eq.
    destruct Hh as [t Ht]. specialize (Hcf t h Ht). lia.
  - apply wp_bind. eapply wp_logs_from; [by rewrite Hfo| |].
    + intros l Hl. assert (answer_of (i, l)) as Ha by (by exists e, h).
      assert (wp (ask_peers f from to conf mine peers (answers0 ++ [(i, l)])) (fun r fo' => fo' = fo /\
        exists more, r = Ok (answers0 ++ more) /\ Forall answer_of more /\
          map fst more `sublist_of` i :: map fst peers /\
          ((answers0 = [] /\ exists i l, more = [(i, l)] /\ log_bag l = mine) \/
           forall j, j ∈ i :: map fst peers -> answers_window j -> j ∈ map fst more)) fo) as Hrest.
      { eapply wp_mono; [apply IH|]. intros r fo' (-> & more & -> & Hm & Hsub & Hend). split; [done|].
        exists ((i, l) :: more). rewrite <- app_assoc. split_and!; [done|by constructor|by constructor|].
        destruct Hend as [[E _]|Hc]; [by destruct answers0|right].
        cbn [map fst]. intros j [->|Hj]%elem_of_cons Haj; [left|right; by apply Hc]. }
      destruct (bool_decide (log_bag l = mine)) eqn:E1; [|exact Hrest].
      destruct (Nat.eqb_spec (length (answers0 ++ [(i, l)])) 1) as [E2|]; [|exact Hrest]. cbn [andb].
      apply bool_decide_eq_true in E1. rewrite length_app in E2. cbn [length] in E2.
      assert (answers0 = []) as -> by (apply length_zero_iff_nil; lia).
      apply wp_ret. split; [done|]. exists [(i, l)]. split_and!; [done|by constructor| |left; eauto].
      constructor. apply sublist_nil_l.
    + intros x [t Hx]. eapply wp_mono; [apply IH|]. intros r fo' (-> & more & -> & Hm & Hsub & Hend). split; [done|].
      exists more. split_and!; [done|done|by constructor|]. destruct Hend as [|Hc]; [by left|right].
      cbn [map fst]. intros j [->|Hj]%elem_of_cons Ha; [|by apply Hc]. destruct Ha as (e' & He' & _ & Hcl). cbn in He'. simplify_eq.
      destruct (Hcl t). congruence.
Qed.

(** ** The verdict *)

Definition served_by_s (served : list Log) : Prop := answer_of (s, served).
Definition settled (t : Tally) (fo' : Failover) (v : Corroboration) : Prop :=
  fo_endpoints fo' = eps /\
  match t with
  | TNoAnswer => v = Inconclusive /\ fo_active fo' = s
  | TAgreed i _ => fo_active fo' = s /\ exists e, eps !! i = Some e /\ v = Agreed (ep_url e)
  | TDisagreed i to d => fo_active fo' = default s to /\
      exists e e', eps !! s = Some e /\ eps !! i = Some e' /\ v = Disagreed (ep_url e) (ep_url e') (Counted d)
  end.

Lemma answer_endpoint answers i bag : Forall answer_of answers -> i ∈ supporters (bags answers) bag ->
  exists e, eps !! i = Some e.
Proof using Type.
  intros Ha (l & Hin & _)%supporters_elem%bags_elem. rewrite Forall_forall in Ha.
  destruct (Ha _ Hin) as (e & _ & He & _). eauto.
Qed.

Lemma settle_wp served answers t fo : fo_endpoints fo = eps -> fo_active fo = s -> Forall answer_of answers ->
  NoDup (map fst answers) -> tally served answers from to = Some t ->
  wp (settle s t) (fun r fo' => exists v, r = Ok v /\ settled t fo' v) fo.
Proof using Hs.
  intros Hfo Hact Ha Hn Ht. destruct (tally_exact served answers from to Hn) as (t' & Ht' & Hspec).
  rewrite Ht in Ht'. injection Ht' as <-. destruct (lookup_lt_is_Some_2 eps s Hs) as [es Hes].
  destruct t as [|i d|i p d]; cbn [settle].
  - apply wp_ret. exists Inconclusive. done.
  - destruct Hspec as (_ & Hi & _). destruct (answer_endpoint _ _ _ Ha Hi) as [e He].
    apply wp_bind. eapply wp_endpoint; [by rewrite Hfo|]. apply wp_ret. eexists. split; [done|]. split; [done|]. eauto.
  - destruct Hspec as (_ & (bag & _ & Hi) & Hp). destruct (answer_endpoint _ _ _ Ha Hi) as [e He].
    apply wp_bind. eapply wp_endpoint; [by rewrite Hfo|]. apply wp_bind. eapply wp_endpoint; [by rewrite Hfo|].
    apply wp_bind. destruct p as [p|].
    + destruct Hp as (_ & bag' & _ & _ & Hp). destruct (answer_endpoint _ _ _ Ha Hp) as [ep Hep].
      unfold promote. apply wp_bind, wp_active. rewrite Hact. destruct (Nat.eqb_spec p s) as [->|].
      * apply wp_ret, wp_ret. eexists. split; [done|]. split; [done|]. split; [done|]. eauto.
      * apply wp_bind. eapply wp_endpoint; [by rewrite Hfo|]. apply wp_bind, wp_set_active, wp_bind.
        eapply wp_endpoint; [by rewrite Hfo|]. apply wp_ret, wp_ret. eexists. split; [done|]. split; [done|].
        split; [done|]. eauto.
    + apply wp_ret, wp_ret. eexists. split; [done|]. split; [done|]. split; [done|]. eauto.
Qed.
End Window.

(** ** The whole check *)

(** What is known when the answers of a window were counted. *)
Record counted (eps : list Endpoint) (f : Filter) (from to_block conf : Z) (s : nat) (served : list Log) (to : Z)
    (answers : list (nat * list Log)) : Prop := {
  ct_serving : (s < length eps)%nat;
  ct_served : answer_of eps f from to conf (s, served);
  ct_answers : Forall (answer_of eps f from to conf) answers;
  ct_distinct : NoDup (s :: map fst answers);
  ct_positions : NoDup (map (fun l => log_pos l) (live served));
  ct_window : to <= to_block /\ (from <= to_block -> from <= to);
  ct_bounded : exists i e h, i <> s /\ eps !! i = Some e /\ head_said e h /\ to <= saturating_sub h conf;
  ct_asked : (exists i l, answers = [(i, l)] /\ log_bag l = log_bag served) \/
    forall i e, i <> s -> eps !! i = Some e -> always_heard e ->
      answers_window eps f from to conf i -> i ∈ map fst answers;
}.

(** What a check of a window can come to, for the serving endpoint [s]. *)
Inductive outcome (eps : list Endpoint) (f : Filter) (from to_block conf : Z) (s : nat) (fo' : Failover)
    : result FoError verdict -> Prop :=
  | ONoHead : (forall i e, eps !! i = Some e -> ~ always_heard e) -> outcome eps f from to_block conf s fo' (Err FoFailed)
  | OLags h e : fo_active fo' = s -> eps !! s = Some e -> head_said e h -> clamp_scan_window from to_block h conf = None ->
      outcome eps f from to_block conf s fo' (Ok None)
  | OSingle r : length eps = 1%nat ->
      (r = Err FoFailed \/ exists logs to, r = Ok (Some (logs, to, Unavailable))) ->
      outcome eps f from to_block conf s fo' r
  | ONoPeer to : (2 <= length eps)%nat ->
      (forall i e, i <> s -> eps !! i = Some e -> always_heard e ->
         exists h, head_said e h /\ saturating_sub h conf < from) ->
      outcome eps f from to_block conf s fo' (Ok (Some ([], to, Inconclusive)))
  | OBad e to r : (2 <= length eps)%nat -> eps !! s = Some e -> fo_active fo' = ((s + 1) mod length eps)%nat ->
      to <= to_block -> (exists h, head_said e h /\ to <= saturating_sub h conf) ->
      (r = Err FoFailed /\ (exists t x, logs_at t (ep_provider e) (window f from to) = Err x) \/
       exists served url d, r = Ok (Some (served, to, Disagreed url url d)) /\
         logs_said e (window f from to) served /\ ~ NoDup (map (fun l => log_pos l) (live served))) ->
      outcome eps f from to_block conf s fo' r
  | OCounted served to answers t v : counted eps f from to_block conf s served to answers ->
      tally served answers from to = Some t -> settled eps s t fo' v ->
      outcome eps f from to_block conf s fo' (Ok (Some (served, to, v))).

Lemma settled_wf eps f from to conf s served answers t fo' v : (s < length eps)%nat ->
  Forall (answer_of eps f from to conf) answers -> NoDup (map fst answers) ->
  tally served answers from to = Some t -> settled eps s t fo' v -> fo_wf fo'.
Proof.
  intros Hs Hans Hnd Ht [Hv1 Hv2]. unfold fo_wf, endpoint_count. rewrite Hv1.
  destruct (tally_exact served answers from to Hnd) as (t' & Ht' & Hspec). rewrite Ht in Ht'. injection Ht' as <-.
  destruct t as [|j d|j p d]; [by destruct Hv2 as [_ ->]|by destruct Hv2 as [-> _]|]. destruct Hv2 as [-> _].
  destruct p as [p|]; [|done]. destruct Hspec as (_ & _ & _ & bag & _ & _ & Hp).
  destruct (answer_endpoint _ _ _ _ _ _ _ _ Hans Hp) as [e He]. by eapply lookup_lt_Some.
Qed.

(** What the peers' heads are known to be when the window's end is chosen. *)
Record heard_peers (eps : list Endpoint) (s : nat) (peers : list (nat * Z)) : Prop := {
  hp_heard : Forall (heard eps) peers;
  hp_distinct : NoDup (s :: map fst peers);
  hp_all : forall i e, i <> s -> eps !! i = Some e -> always_heard e -> i ∈ map fst peers;
}.
Lemma peer_heads_run fo s : (s < endpoint_count fo)%nat ->
  wp (peer_heads s (endpoint_count fo) (seq 1 (endpoint_count fo - 1))) (fun r fo' => fo' = fo /\
    exists peers, r = Ok peers /\ heard_peers (fo_endpoints fo) s peers) fo.
Proof.
  intros Hs. eapply wp_mono; [by apply (peer_heads_wp (fo_endpoints fo) s Hs)|].
  intros r fo' (-> & peers & -> & Hh & Hsub & Hall). split; [done|]. exists peers. split; [done|].
  destruct (peers_distinct (fo_endpoints fo) s Hs) as [Hpn Hps]. constructor; [done| |].
  - apply NoDup_cons. split; [|by eapply sublist_NoDup]. intros Hx. apply Hps. by eapply elem_of_sublist.
  - intros i e Hi He Hok. destruct (peer_index (endpoint_count fo) s i Hs) as (k & Hk & Ek); [by eapply lookup_lt_Some|done|].
    rewrite Ek in He |- *. by eapply Hall.
Qed.

Lemma check_window_wp f from to_block conf fo head serving_to to peers :
  let eps := fo_endpoints fo in let s := fo_active fo in
  fo_wf fo -> (2 <= length eps)%nat -> heard_peers eps s peers ->
  (exists e, eps !! s = Some e /\ head_said e head) -> clamp_scan_window from to_block head conf = Some serving_to ->
  corroborated_window_end from serving_to (map snd peers) conf = Some to ->
  wp (check_window f from to conf (length eps) s peers) (fun r fo' =>
    fo_endpoints fo' = eps /\ fo_wf fo' /\ outcome eps f from to_block conf s fo' r) fo.
Proof.
  intros eps s Hwf Hn [Hheard Hps Hpeer] (es & Hes & Hh) Hc Hend.
  apply clamp_scan_window_Some in Hc as [Est Hfrom].
  destruct (window_end_Some _ _ _ _ _ Hend) as (h & ([i h'] & -> & Hin)%list_elem_of_fmap & [Eto Hf2]%clamp_scan_window_Some).
  cbn in Eto, Hf2. assert (exists h, head_said es h /\ to <= saturating_sub h conf) as Hsh by (exists head; split; [done|lia]).
  assert (fo_wf (MkFailover eps ((s + 1) mod length eps) (fo_last_heads fo))) as Hwf' by (by apply (mod_in fo)).
  unfold check_window. apply wp_bind. eapply wp_logs_from; [exact Hes| |].
  2:{ intros x [t Hx]. apply wp_bind, wp_set_active, wp_fail. split_and!; [done|done|].
      apply (OBad _ _ _ _ _ _ _ es to); [done|exact Hes|done|lia|done|]. left. eauto. }
  intros served Hserved. cbv zeta. destruct (Nat.ltb_spec 0 (duplicate_positions served)) as [Hd|Hd].
  { apply wp_bind. eapply wp_endpoint; [exact Hes|]. apply wp_bind, wp_set_active, wp_bind.
    destruct (endpoint_in fo ((s + 1) mod length eps)) as [e' He']; [by apply (mod_in fo)|].
    eapply wp_endpoint; [exact He'|]. apply wp_ret. split_and!; [done|done|].
    apply (OBad _ _ _ _ _ _ _ es to); [done|exact Hes|done|lia|done|]. right. eexists _, _, _. split_and!; [done|done|].
    rewrite <- duplicate_positions_zero. lia. }
  assert (duplicate_positions served = 0%nat) as Hdup%duplicate_positions_zero by lia. clear Hd.
  apply wp_bind. eapply wp_mono; [by apply (ask_peers_wp eps s)|].
  intros r fo2 (-> & answers & -> & Hans & Hsub2 & Hasked). cbn [app].
  assert (NoDup (s :: map fst answers)) as Hnd by (eapply sublist_NoDup; [exact Hps|by constructor]).
  pose proof (proj2 (proj1 (NoDup_cons _ _) Hnd)) as Hnd'.
  destruct (tally_exact served answers from to Hnd') as (t & Ht & _). rewrite Ht.
  apply wp_bind. eapply wp_mono; [by eapply (settle_wp eps)|]. intros r fo2 (v & -> & Hv).
  apply wp_ret. split_and!; [by destruct Hv|by apply (settled_wf eps f from to conf s served answers t _ v)|]. eapply OCounted; [|done|done].
  rewrite Forall_forall in Hheard. destruct (Hheard _ Hin) as (e & He & Hhs). cbn in He, Hhs. constructor; try done.
  - exists es, head. split_and!; [done|done|lia|done].
  - lia.
  - exists i, e, h'. split_and!; [|done|done|lia]. intros ->. apply NoDup_cons in Hps as [Hx _]. apply Hx.
    apply list_elem_of_fmap. by exists (s, h').
  - destruct Hasked as [[_ Hfirst]|Hall2]; [by left|right]. intros j e' Hj He' Hok Haw. apply Hall2; [by eapply Hpeer|done].
Qed.

Lemma get_logs_corroborated_wp f from to_block conf fo : fo_wf fo ->
  wp (get_logs_corroborated f from to_block conf) (fun r fo' =>
    fo_endpoints fo' = fo_endpoints fo /\ fo_wf fo' /\
    exists s, outcome (fo_endpoints fo) f from to_block conf s fo' r /\
      (forall e, fo_endpoints fo !! fo_active fo = Some e -> always_heard e -> s = fo_active fo)) fo.
Proof.
  intros Hwf. unfold get_logs_corroborated. apply wp_bind, wp_n_endpoints, wp_bind.
  eapply wp_mono; [by apply get_block_number_wp|]. intros r fo1 (He1 & Hwf1 & Hr & Hsame). unfold same_endpoints in He1.
  assert (forall e, fo_endpoints fo !! fo_active fo = Some e -> always_heard e -> fo_active fo1 = fo_active fo) as Hact.
  { intros e He Hok. by rewrite (Hsame e). }
  destruct r as [head|e]; [|destruct Hr as [-> Hr]; split_and!; [done|done|]; exists (fo_active fo1); split; [by apply ONoHead|done]].
  destruct Hr as (es & Hes & Hh). apply wp_bind, wp_active.
  assert (endpoint_count fo = endpoint_count fo1) as -> by (unfold endpoint_count; by rewrite He1). rewrite <- He1 in Hact |- *.
  destruct (clamp_scan_window from to_block head conf) as [serving_to|] eqn:Hc.
  2:{ apply wp_ret. split_and!; [done|done|]. exists (fo_active fo1). split; [by eapply OLags|done]. }
  unfold fo_wf in Hwf1. destruct (Nat.ltb_spec (endpoint_count fo1) 2) as [Hn|Hn].
  { assert (length (fo_endpoints fo1) = 1%nat) as H1 by (unfold endpoint_count in *; lia).
    apply wp_bind. eapply wp_logs_from; [exact Hes| |].
    - intros l _. apply wp_ret. split_and!; [done|done|]. eexists. split; [apply OSingle; [done|eauto]|done].
    - intros x _. apply wp_fail. split_and!; [done|done|]. eexists. split; [apply OSingle; [done|eauto]|done]. }
  apply wp_bind. eapply wp_mono; [by apply peer_heads_run|]. intros r fo2 (-> & peers & -> & Hp).
  destruct (corroborated_window_end from serving_to (map snd peers) conf) as [to|] eqn:Hend.
  - eapply wp_mono; [eapply (check_window_wp f from to_block); eauto|]. intros r fo2 (H1 & H2 & H3). split_and!; [done|done|]. eauto.
  - apply wp_ret. split_and!; [done|done|]. eexists. split; [apply ONoPeer; [done|]|done]. intros i e Hi He Hok.
    destruct Hp as [Hheard _ Hpeer]. pose proof (Hpeer i e Hi He Hok) as ([i' h] & -> & Hin)%list_elem_of_fmap. exists h.
    rewrite Forall_forall in Hheard. destruct (Hheard _ Hin) as (e' & He' & Hh'). cbn in He', Hh', He. simplify_eq.
    split; [done|]. destruct (Z.lt_ge_cases (saturating_sub h conf) from) as [|Hge]; [done|exfalso].
    destruct (window_end_exists from serving_to (map snd peers) conf h) as [x Hx]; [|done|congruence].
    apply list_elem_of_fmap. by exists (i', h).
Qed.

(** * What one lying endpoint can do *)

Lemma outcome_Agreed eps f from to_block conf s fo' served to url :
  outcome eps f from to_block conf s fo' (Ok (Some (served, to, Agreed url))) ->
  exists answers t, counted eps f from to_block conf s served to answers /\
    tally served answers from to = Some t /\ settled eps s t fo' (Agreed url).
Proof.
  intros H. inversion H as [|h e ? ? ? ?|r ? [?|(? & ? & ?)]| |e' to' r ? ? ? ? ? [[? _]|(? & ? & ? & ? & _)]|];
    simplify_eq; eauto.
Qed.

Lemma outcome_Unavailable eps f from to_block conf s fo' served to :
  outcome eps f from to_block conf s fo' (Ok (Some (served, to, Unavailable))) -> length eps = 1%nat.
Proof.
  intros H. inversion H as [|h e ? ? ? ?|r ? ?| |e' to' r ? ? ? ? ? [[? _]|(? & ? & ? & ? & _)]|? ? ? t ? Hct Ht Hv]; simplify_eq; [done|].
  destruct Hv as [_ Hv]. destruct t as [|i d|i p d]; [by destruct Hv|by destruct Hv as (_ & ? & _ & [=])|].
  by destruct Hv as (_ & ? & ? & _ & _ & [=]).
Qed.

Section OneLiar.
Variables (f : Filter) (from to_block conf : Z) (fo : Failover).
Abbreviation eps := (fo_endpoints fo).
(** The events of the chain up to a block, as the keys of their logs. *)
Variable chain : Z -> list LogKey.
Variable honest : nat -> bool.
(** At most one endpoint is not honest. *)
Hypothesis one_liar : forall i j, i <> j -> honest i = true \/ honest j = true.
(** What an honest endpoint returns for a window it has confirmed is what the chain says. *)
Hypothesis honest_logs : forall i e h to l, honest i = true -> eps !! i = Some e -> head_said e h ->
  to <= saturating_sub h conf -> logs_said e (window f from to) l -> live_keys l ≡ₚ chain to.

Lemma honest_answer i l to : honest i = true -> answer_of eps f from to conf (i, l) -> live_keys l ≡ₚ chain to.
Proof using honest_logs. intros Hi (e & h & He & Hh & Hto & Hl). by eapply honest_logs. Qed.

Lemma counted_Agreed s served to answers fo' url t v : counted eps f from to_block conf s served to answers ->
  tally served answers from to = Some t -> settled eps s t fo' v -> v = Agreed url ->
  (length answers + 1 < 2 * (1 + length (supporters (bags answers) (log_bag served))))%nat /\
  exists i e, i ∈ supporters (bags answers) (log_bag served) /\ i <> s /\ eps !! i = Some e /\ url = ep_url e.
Proof using Type.
  intros Hct Ht [_ Hv] ->. destruct (NoDup_cons s (map fst answers)) as [Hnd _]. destruct (Hnd (ct_distinct _ _ _ _ _ _ _ _ _ Hct)) as [Hs Hn].
  destruct (tally_exact served answers from to Hn) as (t' & Ht' & Hspec). rewrite Ht in Ht'. injection Ht' as <-.
  destruct t as [|i d|i p d].
  - by destruct Hv.
  - destruct Hv as (_ & e & He & [= ->]), Hspec as (Hc & Hi & _). split; [done|]. exists i, e. split_and!; [done| |done|done].
    intros ->. apply Hs. apply supporters_elem, bags_elem in Hi as (l & Hl & _). apply list_elem_of_fmap. by exists (s, l).
  - destruct Hv as (_ & e & e' & _ & _ & [=]).
Qed.

(** What is agreed upon is true. *)
Lemma agreed_true s fo' served to url : outcome eps f from to_block conf s fo' (Ok (Some (served, to, Agreed url))) ->
  live_keys served ≡ₚ chain to /\ NoDup (map (fun l => log_pos l) (live served)) /\
  to <= to_block /\ (from <= to_block -> from <= to) /\
  exists i e h, honest i = true /\ eps !! i = Some e /\ head_said e h /\ to <= saturating_sub h conf.
Proof using one_liar honest_logs.
  intros (answers & t0 & Hct & Ht & Hv)%outcome_Agreed.
  destruct (counted_Agreed _ _ _ _ _ _ _ _ Hct Ht Hv eq_refl) as (_ & i & e & Hi & Hne & _).
  destruct Hct as [_ Hserved Hans _ Hpos [Hto Hfrom] (j & ej & hj & Hj & Hej & Hhj & Htoj) _].
  split_and!; [|done|done|done|].
  - apply supporters_elem, bags_elem in Hi as (l & Hl & Hbag%log_bag_eq). rewrite Forall_forall in Hans.
    destruct (one_liar i s Hne) as [H|H]; [|by eapply honest_answer].
    rewrite <- Hbag. eapply (honest_answer i); [done|]. by apply Hans.
  - destruct (one_liar j s Hj) as [H|H]; [by exists j, ej, hj|].
    destruct Hserved as (es & h & He & Hh & Hle & _). by exists s, es, h.
Qed.

(** C30. One lying endpoint cannot get anything signed. Whatever a single endpoint reports
    as its head and serves as its logs, and whichever role it plays, the logs of a window
    that is agreed upon are exactly what the chain holds there, each at its own position,
    in a range that an honest endpoint has confirmed. *)
Theorem one_liar_cannot_forge served to url fo' t t' : fo_wf fo ->
  get_logs_corroborated f from to_block conf fo t = (Ok (Some (served, to, Agreed url)), fo', t') ->
  live_keys served ≡ₚ chain to /\ NoDup (map (fun l => log_pos l) (live served)) /\ to <= to_block /\
  exists i e h, honest i = true /\ eps !! i = Some e /\ head_said e h /\ to <= saturating_sub h conf.
Proof using one_liar honest_logs.
  intros Hwf Hrun. destruct (wp_run _ _ _ _ _ _ _ (get_logs_corroborated_wp f from to_block conf fo Hwf) Hrun)
    as (_ & _ & s & Hout & _).
  destruct (agreed_true _ _ _ _ _ Hout) as (? & ? & ? & _ & ?). by split_and!.
Qed.

(** Honest endpoints that are up: they answer every call and have the range confirmed. *)
Hypothesis honest_up : forall i e, honest i = true -> eps !! i = Some e -> always_heard e /\
  (forall h, head_said e h -> to_block <= saturating_sub h conf) /\
  (forall to t, to <= to_block -> exists l, logs_at t (ep_provider e) (window f from to) = Ok l /\
     NoDup (map (fun l => log_pos l) (live l))).
Hypothesis three : (3 <= length eps)%nat.
Hypothesis nonempty : from <= to_block.

Lemma honest_peer s : exists i e, i <> s /\ eps !! i = Some e /\ honest i = true.
Proof using one_liar three.
  clear -one_liar three. destruct (lookup_lt_is_Some_2 eps 0) as [e0 H0]; [lia|].
  destruct (lookup_lt_is_Some_2 eps 1) as [e1 H1]; [lia|]. destruct (lookup_lt_is_Some_2 eps 2) as [e2 H2]; [lia|].
  assert (exists i j ei ej, eps !! i = Some ei /\ eps !! j = Some ej /\ i <> j /\ i <> s /\ j <> s)
    as (i & j & ei & ej & Hi & Hj & Hij & His & Hjs).
  { destruct s as [|[|s]]; [exists 1%nat, 2%nat, e1, e2|exists 0%nat, 2%nat, e0, e2|exists 0%nat, 1%nat, e0, e1]; done. }
  destruct (one_liar i j Hij); [by exists i, ei|by exists j, ej].
Qed.
Lemma honest_answers i e to : honest i = true -> eps !! i = Some e -> to <= to_block ->
  answers_window eps f from to conf i.
Proof using honest_up.
  intros Hi He Hto. destruct (honest_up i e Hi He) as (_ & Hh & Hl). exists e. split_and!; [done| |].
  - intros t h Ht. transitivity to_block; [done|]. apply Hh. by exists t.
  - intros t. destruct (Hl to t Hto) as (l & ? & _). by exists l.
Qed.

(** Among answers of distinct endpoints, at most one is not what the honest ones say. *)
Lemma honest_backing to answers bag : Forall (answer_of eps f from to conf) answers -> NoDup (map fst answers) ->
  (exists i l, honest i = true /\ (i, l) ∈ answers /\ log_bag l = bag) ->
  (length answers <= S (length (supporters (bags answers) bag)))%nat /\
  forall i, honest i = true -> i ∈ map fst answers -> i ∈ supporters (bags answers) bag.
Proof using one_liar honest_logs.
  clear three. intros Hans Hnd (i0 & l0 & Hi0 & Hin0 & <-). rewrite Forall_forall in Hans.
  pose proof (honest_answer i0 l0 to Hi0 (Hans _ Hin0)) as Hk0.
  assert (forall i l, honest i = true -> (i, l) ∈ answers -> log_bag l = log_bag l0) as Hsame.
  { intros i l Hi Hin. apply log_bag_eq. rewrite (honest_answer i l to Hi (Hans _ Hin)). by symmetry. }
  split.
  2:{ intros i Hi ([j l] & -> & Hin)%list_elem_of_fmap. apply supporters_elem, bags_elem. exists l. split; [done|]. by apply (Hsame j). }
  clear Hin0 Hk0 Hans. unfold bags. rewrite supporters_count.
  assert (forall a b, a ∈ answers -> b ∈ answers -> log_bag a.2 <> log_bag l0 -> log_bag b.2 <> log_bag l0 -> a.1 = b.1) as Hone.
  { intros [a la] [b lb] Ha Hb Hla Hlb. cbn in *. destruct (decide (a = b)) as [|Hne]; [done|exfalso].
    destruct (one_liar a b Hne) as [H|H]; [apply Hla|apply Hlb]; by eapply Hsame. }
  clear Hsame. induction answers as [|a answers IH]; [simpl; lia|]. cbn [map] in *. apply NoDup_cons in Hnd as [Hni Hnd].
  rewrite filter_cons. cbn [snd]. destruct (decide (log_bag a.2 = log_bag l0)) as [E|E].
  - cbn [length]. apply le_n_S, IH; [done|]. intros x y Hx Hy. apply Hone; by right.
  - cbn [length]. apply le_n_S. rewrite filter_Forall; [by rewrite length_map|].
    apply Forall_forall. intros x ([i l] & -> & Hin)%list_elem_of_fmap. cbn. destruct (decide (log_bag l = log_bag l0)) as [|Hne]; [done|exfalso].
    apply Hni. rewrite (Hone a (i, l)); [|left|by right|done|done]. apply list_elem_of_fmap. by exists (i, l).
Qed.

(** The count of a window that honest endpoints take part in. *)
Lemma counted_settles s served to answers fo' t v : counted eps f from to_block conf s served to answers ->
  tally served answers from to = Some t -> settled eps s t fo' v ->
  (exists url, v = Agreed url) \/ honest s = false /\ honest (fo_active fo') = true.
Proof using one_liar honest_logs honest_up three.
  intros [Hs Hserved Hans Hdist _ [Hto _] _ Hasked] Ht [_ Hv].
  apply NoDup_cons in Hdist as [Hns Hnd]. pose proof Hserved as (es & _ & Hes & _).
  destruct (tally_exact served answers from to Hnd) as (t' & Ht' & Hspec). rewrite Ht in Ht'. injection Ht' as <-.
  destruct t as [|i d|i p d]; [|left; destruct Hv as (_ & e & _ & ->); eauto|].
  { exfalso. subst answers. destruct Hasked as [(? & ? & [=] & _)|Hall]. destruct (honest_peer s) as (i & e & Hi & He & Hh).
    pose proof (Hall i e Hi He (proj1 (honest_up i e Hh He)) (honest_answers i e to Hh He Hto)) as []%elem_of_nil. }
  destruct Hspec as (Hmin & _ & Hp). destruct Hasked as [(i0 & l0 & -> & Hb)|Hall].
  { exfalso. unfold bags, supporters in Hmin. cbn [map fst snd] in Hmin.
    rewrite filter_cons_True in Hmin by done. cbn [map length] in Hmin. lia. }
  assert (forall j e, j <> s -> eps !! j = Some e -> honest j = true -> j ∈ map fst answers) as Hin.
  { intros j e Hj He Hh. eapply Hall; [done|exact He|by apply (honest_up j)|by eapply honest_answers]. }
  destruct (honest_peer s) as (j & e & Hj & He & Hh).
  pose proof (Hin j e Hj He Hh) as ([j' lj] & Ej & Hlj)%list_elem_of_fmap. cbn in Ej. subst j'.
  pose proof (honest_backing to answers (log_bag lj) Hans Hnd ltac:(by exists j, lj)) as [Hlen Hsup].
  assert (exists j2 e2, j2 <> s /\ j2 <> j /\ eps !! j2 = Some e2) as (j2 & e2 & Hj2 & Hj2' & He2).
  { clear -three. destruct (lookup_lt_is_Some_2 eps 0) as [e0 H0]; [lia|].
    destruct (lookup_lt_is_Some_2 eps 1) as [e1 H1]; [lia|]. destruct (lookup_lt_is_Some_2 eps 2) as [e2 H2]; [lia|].
    destruct s as [|[|s]], j as [|[|j]];
      first [by exists 0%nat, e0|by exists 1%nat, e1|by exists 2%nat, e2]. }
  assert (1 <= length (supporters (bags answers) (log_bag lj)))%nat as Hone.
  { pose proof (Hsup j Hh ltac:(by eapply Hin)) as H1. destruct (supporters (bags answers) (log_bag lj)); [by apply elem_of_nil in H1|cbn [length]; lia]. }
  right. destruct (honest s) eqn:Hhs.
  - exfalso. assert (log_bag lj = log_bag served) as E.
    { apply log_bag_eq. rewrite Forall_forall in Hans.
      by rewrite (honest_answer j lj to Hh (Hans _ Hlj)), (honest_answer s served to Hhs Hserved). }
    rewrite <- E in Hmin. lia.
  - split; [done|]. assert (log_bag lj <> log_bag served) as Hne by (intros E; rewrite <- E in Hmin; lia).
    destruct (one_liar j2 s Hj2) as [Hh2|]; [|congruence].
    assert (length (supporters (bags answers) (log_bag lj)) = length answers) as Hallb.
    { rewrite supporters_count, filter_Forall, length_bags; [done|]. apply Forall_forall.
      intros [k b] Hb. pose proof Hb as (l & Hl & <-)%bags_elem.
      assert (k ∈ map fst answers) as Hk by (apply list_elem_of_fmap; by exists (k, l)).
      destruct (one_liar k s) as [Hhk|]; [by intros ->| |congruence].
      pose proof (Hsup k Hhk Hk) as (l' & Hl' & <-)%supporters_elem%bags_elem. cbn.
      rewrite Forall_forall in Hans. apply log_bag_eq.
      by rewrite (honest_answer k l to Hhk (Hans _ Hl)), (honest_answer k l' to Hhk (Hans _ Hl')). }
    assert (2 <= length answers)%nat as H2.
    { rewrite <- Hallb. pose proof (Hsup j Hh ltac:(by eapply Hin)) as H1.
      pose proof (Hsup j2 Hh2 ltac:(by eapply Hin)) as H2. clear -H1 H2 Hj2'.
      destruct (supporters _ _) as [|x [|y l]]; [by apply elem_of_nil in H1| |cbn [length]; lia].
      apply list_elem_of_singleton in H1, H2. congruence. }
    destruct p as [p|]; [|specialize (Hp _ Hne); lia]. destruct Hv as [-> _]. cbn.
    destruct Hp as (_ & bag & _ & _ & (lp & Hlp & _)%supporters_elem%bags_elem).
    destruct (one_liar p s) as [|]; [|done|congruence]. intros ->. apply Hns. apply list_elem_of_fmap. by exists (s, lp).
Qed.

(** One lying endpoint cannot stall the scanner. With three endpoints or more, the
    honest ones up and having the range confirmed, a scan served by an honest endpoint
    always ends in agreement; one served by the liar ends in agreement too, or hands over
    to an honest endpoint, unless the liar reports a head that has not reached the range
    (which is the case [scan_head] handles). *)
Theorem one_liar_cannot_stall r fo' t t' : fo_wf fo ->
  get_logs_corroborated f from to_block conf fo t = (r, fo', t') ->
  (exists served to url, r = Ok (Some (served, to, Agreed url))) \/
  honest (fo_active fo) = false /\
    (honest (fo_active fo') = true \/
     r = Ok None /\ exists e h, eps !! fo_active fo' = Some e /\ head_said e h /\ saturating_sub h conf < from).
Proof using one_liar honest_logs honest_up three nonempty.
  intros Hwf Hrun. destruct (wp_run _ _ _ _ _ _ _ (get_logs_corroborated_wp f from to_block conf fo Hwf) Hrun)
    as (_ & _ & s & Hout & Hsame).
  destruct (endpoint_in fo (fo_active fo) Hwf) as [ea Hea].
  assert (honest s = false -> honest (fo_active fo) = false) as Hact.
  { intros H. destruct (honest (fo_active fo)) eqn:E; [|done]. destruct (honest_up _ _ E Hea) as [Hok _].
    rewrite (Hsame ea Hea Hok) in H. congruence. }
  destruct (honest_peer s) as (j & ej & Hj & Hej & Hhj). destruct (honest_up _ _ Hhj Hej) as (Hokj & Hupj & _).
  inversion Hout as [Hno|h e Hs He Hh Hc|r0 H1 _|to H1 Hlow|e to r0 H1 He Hs Hto Hc Hbad|served to answers t0 v Hct Ht Hv]; subst.
  - by destruct (Hno j ej Hej).
  - right. assert (saturating_sub h conf < from) as Hlt.
    { unfold clamp_scan_window in Hc. destruct (Z.ltb_spec (saturating_sub h conf) from); [done|discriminate]. }
    split; [apply Hact|right; eauto 6]. destruct (honest (fo_active fo')) eqn:E; [exfalso|done].
    destruct (honest_up _ _ E He) as (_ & Hup & _). specialize (Hup h Hh). lia.
  - lia.
  - destruct (Hlow j ej Hj Hej Hokj) as (h & Hh & Hlt). specialize (Hupj h Hh). lia.
  - right. assert (honest s = false) as Hfalse.
    { destruct (honest s) eqn:E; [exfalso|done]. destruct (honest_up _ _ E He) as (_ & _ & Hl).
      destruct Hbad as [(_ & t1 & x & Hx)|(served & url & d & _ & [t1 Hx] & Hnd)]; destruct (Hl to t1 Hto) as (l & Hl' & Hn); congruence. }
    split; [by apply Hact|left]. rewrite Hs. destruct (one_liar ((s + 1) mod length eps) s) as [|]; [|done|congruence].
    pose proof (lookup_lt_Some _ _ _ He) as Hlt. clear -Hlt three. intros E.
    destruct (decide (s + 1 < length eps)%nat); [rewrite Nat.mod_small in E; lia|].
    replace (s + 1)%nat with (length eps) in E by lia. rewrite Nat.Div0.mod_same in E. lia.
  - destruct (counted_settles _ _ _ _ _ _ _ Hct Ht Hv) as [[url ->]|[H1 H2]]; [left; eauto|right; auto].
Qed.
End OneLiar.

(** * The head to work towards *)

Lemma ask_heads_wp fo i l : drop i (fo_endpoints fo) = l -> wp (ask_heads i l) (fun r fo' => fo' = fo /\
  exists heads report, r = Ok (heads, report) /\ NoDup (map fst heads) /\
    Forall (fun p => (i <= p.1)%nat /\ heard (fo_endpoints fo) p) heads) fo.
Proof.
  revert i. induction l as [|e l IH]; intros i Hl; cbn [ask_heads].
  { apply wp_ret. split; [done|]. exists [], []. split_and!; [done|constructor|constructor]. }
  assert (fo_endpoints fo !! i = Some e) as He.
  { rewrite <- (Nat.add_0_r i), <- lookup_drop, Hl. done. }
  assert (drop (S i) (fo_endpoints fo) = l) as Hl' by (apply (drop_S _ e i) in He; rewrite Hl in He; by injection He).
  apply wp_bind, wp_ask_head.
  - intros h Hh. apply wp_bind. eapply wp_mono; [by apply IH|]. intros r fo' (-> & heads & report & -> & Hn & Hf).
    apply wp_ret. split; [done|]. eexists _, _. split; [reflexivity|]. split.
    + cbn [map fst]. apply NoDup_cons. split; [|done]. intros ([j x] & E & Hin)%list_elem_of_fmap. cbn in E. subst j.
      rewrite Forall_forall in Hf. destruct (Hf _ Hin) as [Hle _]. cbn in Hle. lia.
    + constructor; [split; [cbn; lia|by exists e]|]. eapply Forall_impl; [exact Hf|]. intros p [? ?]. split; [lia|done].
  - intros x _. apply wp_bind. eapply wp_mono; [by apply IH|]. intros r fo' (-> & heads & report & -> & Hn & Hf).
    apply wp_ret. split; [done|]. eexists _, _. split; [reflexivity|]. split; [done|].
    eapply Forall_impl; [exact Hf|]. intros p [? ?]. split; [lia|done].
Qed.

Lemma rotate_to_Some a n heads head to : rotate_to a n heads head = Some to ->
  exists h, (to, h) ∈ heads /\ head <= h.
Proof.
  intros [_ (p & Hin%list_elem_of_In & Hp)%existsb_exists]%find_some. destruct p as [j h].
  apply andb_true_iff in Hp as [->%Nat.eqb_eq Hh%Z.leb_le]. eauto.
Qed.
Lemma rotate_to_exists a n heads head j h : (a < n)%nat -> (j < n)%nat -> j <> a -> (j, h) ∈ heads -> head <= h ->
  is_Some (rotate_to a n heads head).
Proof.
  intros Ha Hj Hne Hin Hh. unfold rotate_to. destruct (find _ _) eqn:E; [done|exfalso].
  destruct (peer_index n a j Ha Hj Hne) as (k & Hk & Ek).
  assert (In j (map (fun k => (a + k) mod n)%nat (seq 1 (n - 1)))) as Hj'.
  { rewrite Ek. apply in_map_iff. exists k. split; [done|by apply list_elem_of_In]. }
  pose proof (find_none _ _ E _ Hj') as Hf. cbn beta in Hf. apply not_true_iff_false in Hf. apply Hf, existsb_exists.
  exists (j, h). split; [by apply list_elem_of_In|]. by rewrite Nat.eqb_refl, (proj2 (Z.leb_le _ _) Hh).
Qed.
(** The scanner follows a head that is neither stuck nor inflated. Whatever the
    endpoints answer, the head it works towards is one that a strict majority of the
    answering endpoints has reached, and when it is returned the endpoint that will be
    asked first has itself reported a head no further than [HEAD_LAG_ROTATE] behind: an
    endpoint that is stuck, or does not answer, loses its place. *)
Theorem scan_head_follows_majority fo h fo' t t' : fo_wf fo -> scan_head fo t = (Ok h, fo', t') ->
  fo_endpoints fo' = fo_endpoints fo /\ fo_wf fo' /\
  (exists heads, NoDup (map fst heads) /\ Forall (heard (fo_endpoints fo)) heads /\
     reached (map snd heads) h /\ forall x, reached (map snd heads) x -> x <= h) /\
  exists e h', fo_endpoints fo' !! fo_active fo' = Some e /\ head_said e h' /\ h <= h' + HEAD_LAG_ROTATE.
Proof.
  intros Hwf. revert h fo' t'. assert (wp scan_head (fun r fo' => forall h, r = Ok h ->
    fo_endpoints fo' = fo_endpoints fo /\ fo_wf fo' /\
    (exists heads, NoDup (map fst heads) /\ Forall (heard (fo_endpoints fo)) heads /\
       reached (map snd heads) h /\ forall x, reached (map snd heads) x -> x <= h) /\
    exists e h', fo_endpoints fo' !! fo_active fo' = Some e /\ head_said e h' /\ h <= h' + HEAD_LAG_ROTATE) fo) as H.
  2:{ intros h fo' t' Hrun. exact (wp_run _ _ _ _ _ _ _ H Hrun h eq_refl). }
  unfold scan_head. apply wp_bind, wp_get_fo, wp_bind. eapply wp_mono; [by apply (ask_heads_wp fo 0)|].
  intros r fo1 (-> & heads & report & -> & Hn & Hf0).
  assert (Forall (heard (fo_endpoints fo)) heads) as Hf by (eapply Forall_impl; [exact Hf0|]; by intros p []). clear Hf0.
  apply wp_bind, wp_set_last_heads. destruct (majority_floor (map snd heads)) as [head|] eqn:Hm.
  2:{ apply wp_fail. done. }
  destruct (proj1 (proj1 (floor_exact (map snd heads) head)) Hm) as [Hr Hmax'].
  assert (forall x, reached (map snd heads) x -> x <= head) as Hmax by (intros x Hx; by apply Z.leb_le, Hmax').
  assert (forall i h, (i, h) ∈ heads -> exists e, fo_endpoints fo !! i = Some e /\ head_said e h) as Hheard.
  { intros i h Hin. rewrite Forall_forall in Hf. by apply (Hf (i, h)). }
  destruct (reached_elem _ _ Hr) as (hj & ([j x] & E & Hj)%list_elem_of_fmap & Hge%Z.leb_le). cbn in E. subst x.
  assert (fo_active fo <> j -> is_Some (rotate_to (fo_active fo) (endpoint_count fo) heads head)) as Hrot.
  { intros Hne. eapply rotate_to_exists; [done| |by apply not_eq_sym|exact Hj|done].
    destruct (Hheard _ _ Hj) as (e & He & _). by eapply lookup_lt_Some. }
  set (Q := fun r fo' => _). assert (is_Some (rotate_to (fo_active fo) (endpoint_count fo) heads head) ->
    wp (_ ← match rotate_to (fo_active fo) (endpoint_count fo) heads head with Some to => set_active to | None => mret tt end;
        mret head) Q (MkFailover (fo_endpoints fo) (fo_active fo) report)) as Hturn.
  { intros [to Hto]. rewrite Hto. apply rotate_to_Some in Hto as (h & Hin & Hle). destruct (Hheard _ _ Hin) as (e & He & Hh).
    apply wp_bind, wp_set_active, wp_ret. intros ? [= <-]. split_and!; [done|by eapply lookup_lt_Some|by exists heads|].
    exists e, h. split_and!; [done|done|unfold HEAD_LAG_ROTATE; lia]. }
  destruct (find _ heads) as [[i ha]|] eqn:Hfind; cbn [fmap option_fmap option_map snd].
  - apply find_some in Hfind as [Hin%list_elem_of_In Hi%Nat.eqb_eq]. subst i.
    destruct (Z.ltb_spec (saturating_add 64 ha HEAD_LAG_ROTATE) head) as [Hlt|Hle].
    + apply Hturn, Hrot. intros <-. assert (ha = hj) as ->.
      2:{ destruct (Hheard _ _ Hj) as (e & _ & t1 & Ht%head_u64).
          unfold saturating_add, HEAD_LAG_ROTATE, u_max, is_u in *. lia. }
      apply (elem_of_list_to_map_1 (M:=gmap nat) _ _ _ Hn) in Hin, Hj. congruence.
    + apply wp_bind, wp_ret, wp_ret. intros ? [= <-]. destruct (Hheard _ _ Hin) as (e & He & Hh).
      split_and!; [done|done|by exists heads|]. exists e, ha. split_and!; [done|done|]. unfold saturating_add in Hle. lia.
  - apply Hturn, Hrot. intros <-. pose proof (find_none _ _ Hfind (fo_active fo, hj) ltac:(by apply list_elem_of_In)) as Hx.
    cbn in Hx. by rewrite Nat.eqb_refl in Hx.
Qed.
End Failover.
