(* ===== verification/Endpoints.v ===== *)
(** Several nodes of one chain, asked the same question (validator/src/provider.rs:
    [probe], [connect_all_checked], [ask_all], [read_agreed]), and what a log line may
    say of a keyed endpoint (bridge-core/src/config.rs, [redact_url]). *)

From S2P Require Import Prelude.
From S2P Require Import SolanaRuntime.
From S2P Require Import Text.
From S2P Require Import Quorum.
From S2P Require Import Effects.
From S2P Require Import Failover.

(** * Urls in log lines *)

Fixpoint split_once_str (sep l : text) : option (text * text) :=
  match strip_prefix sep l with
  | Some r => Some ([], r)
  | None =>
      match l with
      | [] => None
      | c :: l => '(a, b) ← split_once_str sep l; Some (c :: a, b)
      end
  end.
(** What comes before the first character that [stop] accepts. *)
Fixpoint before (stop : Z -> bool) (l : text) : text :=
  match l with [] => [] | c :: l => if stop c then [] else c :: before stop l end.
(** [rsplit(c).next()] *)
Definition after_last (c : Z) (l : text) : text := reverse (before (Z.eqb c) (reverse l)).

Definition ends_authority (c : Z) : bool := (c =? 47) || (c =? 63) || (c =? 35).
Definition redact_url (url : text) : text :=
  match split_once_str (txt "://") url with
  | None => txt "<redacted>"
  | Some (scheme, rest) =>
      let host := after_last 64 (before ends_authority rest) in
      if bool_decide (scheme = []) || bool_decide (host = []) then txt "<redacted>"
      else scheme ++ txt "://" ++ host
  end.

Lemma before_app stop a b : Forall (fun c => stop c = false) a -> before stop (a ++ b) = a ++ before stop b.
Proof. induction 1 as [|c a Hc _ IH]; [done|]. simpl. by rewrite Hc, IH. Qed.
Lemma before_all stop a : Forall (fun c => stop c = false) a -> before stop a = a.
Proof. intros H. rewrite <- (app_nil_r a) at 1. rewrite before_app by done. simpl. by rewrite app_nil_r. Qed.
Lemma before_stop stop c l : stop c = true -> before stop (c :: l) = [].
Proof. simpl. by intros ->. Qed.
Lemma split_scheme scheme rest : 58 ∉ scheme -> split_once_str (txt "://") (scheme ++ txt "://" ++ rest) = Some (scheme, rest).
Proof.
  induction scheme as [|c scheme IH]; intros Hn; [done|]. apply not_elem_of_cons in Hn as [Hc Hn].
  cbn [app split_once_str]. change (txt "://") with [58; 47; 47] in *. cbn [strip_prefix].
  destruct (Z.eqb_spec 58 c); [congruence|]. rewrite IH by done. done.
Qed.

(** Nothing secret of an endpoint reaches the log. Whatever credentials stand before
    the host and whatever key stands in the path, the query or the fragment, the line
    shows scheme and host only: urls that differ in nothing else are shown alike. *)
Theorem redact_url_hides scheme user host tail : scheme <> [] -> 58 ∉ scheme -> host <> [] ->
  Forall (fun c => ends_authority c = false /\ c <> 64) host ->
  (user = [] \/ exists u, user = u ++ [64] /\ Forall (fun c => ends_authority c = false) u) ->
  (tail = [] \/ exists c t, tail = c :: t /\ ends_authority c = true) ->
  redact_url (scheme ++ txt "://" ++ user ++ host ++ tail) = scheme ++ txt "://" ++ host.
Proof.
  intros Hs Hcolon Hh Hhost Huser Htail. unfold redact_url. rewrite split_scheme by done.
  assert (before ends_authority (user ++ host ++ tail) = user ++ host) as ->.
  { rewrite app_assoc, before_app.
    - destruct Htail as [->|(c & t & -> & Hc)]; [|rewrite before_stop by done]; by rewrite app_nil_r.
    - apply Forall_app. split; [|eapply Forall_impl; [exact Hhost|]; by intros c []].
      destruct Huser as [->|(u & -> & Hu)]; [done|]. apply Forall_app. split; [done|]. by apply Forall_singleton. }
  assert (after_last 64 (user ++ host) = host) as ->.
  { unfold after_last. rewrite (reverse_app user), before_app.
    - destruct Huser as [->|(u & -> & Hu)]; [by rewrite app_nil_r, reverse_involutive|].
      rewrite (reverse_app u). change (reverse [64]) with [64]. cbn [app]. rewrite before_stop by done. by rewrite app_nil_r, reverse_involutive.
    - apply Forall_reverse. eapply Forall_impl; [exact Hhost|]. intros c [_ Hc]. by apply Z.eqb_neq, not_eq_sym. }
  rewrite !bool_decide_eq_false_2 by done. done.
Qed.

(** * Connecting *)

Class Nodes `{NW : Network} := {
  parse_url : text -> option Provider;
  chain_id_at : nat -> Provider -> result unit Z;
  call_at : nat -> Provider -> evm_address -> list byte -> result unit (list byte);
}.

Section Endpoints.
Context {NW : Network} {ND : Nodes}.

Section Connect.
Context {S E : Type}.

Definition BRIDGE_DOMAIN_SELECTOR : list byte := map byte_of_Z [118; 174; 91; 200].
Definition probe_gate_call (p : Provider) (gate : evm_address) : eff S E bool :=
  out ← ask (fun t => call_at t p gate BRIDGE_DOMAIN_SELECTOR);
  mret (match out with Ok out => len out =? 32 | Err _ => false end).
Fixpoint probe (urls : list text) (expected_chain_id : Z) (stop_at_first : bool) (call_check : option evm_address)
    : eff S E (list Endpoint) :=
  match urls with
  | [] => mret []
  | full_url :: urls =>
      let skip := probe urls expected_chain_id stop_at_first call_check in
      match parse_url full_url with
      | None => skip
      | Some p =>
          id ← ask (fun t => chain_id_at t p);
          if bool_decide (id = Ok expected_chain_id) then
            serves ← match call_check with None => mret true | Some gate => probe_gate_call p gate end;
            if serves : bool then
              let e := MkEndpoint (redact_url full_url) p in
              if stop_at_first then mret [e] else (rest ← skip; mret (e :: rest))
            else skip
          else skip
      end
  end.
End Connect.

(** The endpoints of a peer chain, or an error when none is healthy. *)
Definition connect_all_checked {S} (urls : list text) (expected_chain_id : Z) : eff S unit (list Endpoint) :=
  healthy ← probe urls expected_chain_id false None;
  if bool_decide (length healthy = 0%nat) then fail tt else mret healthy.
(** [Failover::connect_for_gate] *)
Definition connect_for_gate {S} (urls : list text) (expected_chain_id : Z) (gate : option evm_address) : eff S unit Failover :=
  endpoints ← probe urls expected_chain_id false gate;
  if bool_decide (length endpoints = 0%nat) then fail tt else mret (MkFailover endpoints 0 []).

(** * Asking everyone *)

Section Ask.
Context {S T : Type} `{EqDecision T}.
Variable read : Provider -> eff S unit T.

Fixpoint ask_all {E} (endpoints : list Endpoint) : eff S E (list (text * T)) :=
  match endpoints with
  | [] => mret []
  | e :: endpoints =>
      r ← attempt (read (ep_provider e));
      rest ← ask_all endpoints;
      mret (match r with Ok v => (ep_url e, v) :: rest | Err _ => rest end)
  end.
Definition read_agreed (endpoints : list Endpoint) (min_agree : nat) : eff S unit T :=
  answers ← ask_all endpoints;
  match majority answers min_agree with Ok v => mret v | Err _ => fail tt end.
End Ask.

(** The endpoints a list of urls stands for. *)
Fixpoint url_endpoints (urls : list text) : list Endpoint :=
  match urls with
  | [] => []
  | u :: urls => match parse_url u with Some p => MkEndpoint (redact_url u) p :: url_endpoints urls | None => url_endpoints urls end
  end.
(** Every endpoint that is connected is one of the urls', and reported the expected chain. *)
Lemma probe_wp {S E} urls id gate (s : S) : wp (E:=E) (probe urls id false gate) (fun r s' => s' = s /\
  exists eps, r = Ok eps /\ eps `sublist_of` url_endpoints urls /\
    Forall (fun e => exists t, chain_id_at t (ep_provider e) = Ok id) eps) s.
Proof.
  induction urls as [|u urls IH]; cbn [probe url_endpoints].
  { apply wp_ret. split; [done|]. exists []. by split_and!. }
  destruct (parse_url u) as [p|]; [|exact IH]. set (e := MkEndpoint (redact_url u) p).
  assert (wp (E:=E) (probe urls id false gate) (fun r s' => s' = s /\ exists eps, r = Ok eps /\
    eps `sublist_of` e :: url_endpoints urls /\ Forall (fun e => exists t, chain_id_at t (ep_provider e) = Ok id) eps) s) as Hskip.
  { eapply wp_mono; [exact IH|]. intros r s' (-> & eps & -> & Hs & Hf). split; [done|]. exists eps. split_and!; [done|by constructor|done]. }
  apply wp_bind, wp_ask. intros t. case_bool_decide as Hid; [|exact Hskip].
  assert (wp (E:=E) (rest ← probe urls id false gate; mret (e :: rest)) (fun r s' => s' = s /\ exists eps, r = Ok eps /\
    eps `sublist_of` e :: url_endpoints urls /\ Forall (fun e => exists t, chain_id_at t (ep_provider e) = Ok id) eps) s) as Hkeep.
  { apply wp_bind. eapply wp_mono; [exact IH|]. intros r s' (-> & eps & -> & Hs & Hf). apply wp_ret. split; [done|].
    eexists. split; [reflexivity|]. split; [by constructor|]. constructor; [by exists t|done]. }
  apply wp_bind. destruct gate as [g|]; [|by apply wp_ret].
  apply wp_bind, wp_ask. intros t'. apply wp_ret. by destruct (match _ with Ok out => _ | Err _ => _ end).
Qed.
Lemma connect_all_checked_wp {S} urls id (s : S) : wp (connect_all_checked urls id) (fun r s' => s' = s /\
  forall eps, r = Ok eps -> eps <> [] /\ eps `sublist_of` url_endpoints urls) s.
Proof.
  apply wp_bind. eapply wp_mono; [apply probe_wp|]. intros r s' (-> & eps & -> & Hs & _).
  case_bool_decide as Hl; [by apply wp_fail|]. apply wp_ret. split; [done|]. intros ? [= <-]. split; [|done].
  intros ->. by apply Hl.
Qed.

(** ** One lying endpoint, for reads *)

Section Agreed.
Context {S T : Type} `{EqDecision T}.
Variables (read : Provider -> eff S unit T) (P : Endpoint -> T -> Prop).
(** The read leaves the state alone, and [P] is what is known of an answer. *)
Hypothesis read_ok : forall e s, wp (read (ep_provider e)) (fun r s' => s' = s /\ forall v, r = Ok v -> P e v) s.

Lemma ask_all_wp {E} eps s : wp (E:=E) (ask_all read eps) (fun r s' => s' = s /\
  exists answers who, r = Ok answers /\ who `sublist_of` eps /\ Forall2 (fun e a => P e a.2) who answers) s.
Proof using read_ok.
  induction eps as [|e eps IH]; cbn [ask_all].
  { apply wp_ret. split; [done|]. exists [], []. by split_and!. }
  apply wp_bind, wp_attempt. eapply wp_mono; [apply read_ok|]. intros r s' [-> Hr].
  apply wp_bind. eapply wp_mono; [exact IH|]. intros r' s' (-> & answers & who & -> & Hsub & Hf). apply wp_ret. split; [done|].
  destruct r as [v|x].
  - exists ((ep_url e, v) :: answers), (e :: who). split_and!; [done|by constructor|]. constructor; [by apply Hr|done].
  - exists answers, who. split_and!; [done|by constructor|done].
Qed.

(** At most one of the endpoints does not tell the truth. *)
Definition at_most_one_liar (honest : Endpoint -> Prop) (eps : list Endpoint) : Prop :=
  forall e1 e2, [e1; e2] `sublist_of` eps -> honest e1 \/ honest e2.

Lemma at_most_one_liar_sub honest eps eps' : eps `sublist_of` eps' -> at_most_one_liar honest eps' -> at_most_one_liar honest eps.
Proof using Type. intros Hs H e1 e2 H12. apply H. by etrans. Qed.

(** A cross-checked read returns what an honest endpoint answered. *)
Lemma read_agreed_wp honest eps k s : (2 <= k)%nat -> at_most_one_liar honest eps ->
  wp (read_agreed read eps k) (fun r s' => s' = s /\ forall v, r = Ok v -> exists e, e ∈ eps /\ honest e /\ P e v) s.
Proof using read_ok.
  intros Hk Hone. unfold read_agreed. apply wp_bind. eapply wp_mono; [apply ask_all_wp|].
  intros r s' (-> & answers & who & -> & Hsub & Hf). destruct (majority answers k) as [v|] eqn:E; [|by apply wp_fail].
  apply majority_exact in E as [Hb _]. apply wp_ret. split; [done|]. intros ? [= <-].
  destruct (backed_by_two P v who answers Hf) as (e1 & e2 & H12 & Hp1 & Hp2); [lia|].
  assert ([e1; e2] `sublist_of` eps) as Hs by (by etrans).
  assert (e1 ∈ eps /\ e2 ∈ eps) as [Hi1 Hi2] by (split; eapply elem_of_sublist; try exact Hs; set_solver).
  destruct (Hone _ _ Hs); eauto.
Qed.
End Agreed.

(** What a strict majority of two or more answers has reached, an honest endpoint has. *)
Lemma floor_honest {T} `{OrdLaws T} honest eps who (P : Endpoint -> T -> Prop) answers m : who `sublist_of` eps ->
  Forall2 P who answers -> at_most_one_liar honest eps -> (2 <= length answers)%nat -> majority_floor answers = Some m ->
  exists e a, e ∈ eps /\ honest e /\ P e a /\ ord_leb m a = true.
Proof.
  intros Hsub Hf Hone Hl Hm. apply floor_exact in Hm as [Hr _]. unfold reached in Hr.
  destruct (two_of P (fun a => ord_leb m a = true) who answers Hf) as (e1 & e2 & H12 & (a1 & H1 & L1) & (a2 & H2 & L2)); [lia|].
  assert ([e1; e2] `sublist_of` eps) as Hs by (by etrans).
  assert (e1 ∈ eps /\ e2 ∈ eps) as [Hi1 Hi2] by (split; eapply elem_of_sublist; try exact Hs; set_solver).
  destruct (Hone _ _ Hs); eauto 6.
Qed.
End Endpoints.
