(* ===== verification/Allowlist.v ===== *)
(** Which tokens and corridors may be signed for (bridge-core/src/allow.rs, and
    [fetch_allowlist] of backend.rs): the lists the store serves, and the local policy
    that decides whether to act on them. The store is not trusted, so what matters is
    what it can and cannot switch off. *)

From S2P Require Import Prelude.
From S2P Require Import Text.

Record AllowedToken := MkAllowedToken {
  at_chain_id : Z;
  at_token : text;
  at_debridge_id : text;
  at_symbol : option text;
}.
Record AllowedChain := MkAllowedChain { ac_chain_id_from : Z; ac_chain_id_to : Z }.

Record Allowlist := MkAllowlist { al_debridge_ids : gset text; al_chains : gset (Z * Z) }.

Definition from_parts (tokens : list AllowedToken) (chains : list AllowedChain) : Allowlist :=
  MkAllowlist (list_to_set (map (fun t => to_ascii_lowercase (at_debridge_id t)) tokens))
    (list_to_set (map (fun c => (ac_chain_id_from c, ac_chain_id_to c)) chains)).

Section Membership.
Variable l : Allowlist.

Definition has_token (debridge_id : text) : bool := bool_decide (to_ascii_lowercase debridge_id ∈ al_debridge_ids l).
Definition has_chain (from to : Z) : bool := bool_decide ((from, to) ∈ al_chains l).
Definition token_allowed (debridge_id : text) : bool :=
  bool_decide (al_debridge_ids l = ∅) || bool_decide (to_ascii_lowercase debridge_id ∈ al_debridge_ids l).
Definition chain_allowed (from to : Z) : bool :=
  bool_decide (al_chains l = ∅) || bool_decide ((from, to) ∈ al_chains l).
Definition allowlist_is_empty : bool := bool_decide (al_debridge_ids l = ∅) && bool_decide (al_chains l = ∅).
End Membership.

Inductive AllowlistView := NotConfigured | Enforcing (l : Allowlist) | Empty.
Inductive Dimension := DimToken | DimChainPair.
Inductive Pin := PinToken (t : text) | PinChain (from to : Z).
Inductive AllowlistRefusal :=
  | RefusedEmpty
  | RefusedNotConfigured
  | MissingPin (p : Pin)
  | EmptyDimension (d : Dimension).

(** What a sig-store answered, as [fetch_allowlist] passes it on. *)
Definition fetched (list : Allowlist) : AllowlistView :=
  if allowlist_is_empty list then Empty else Enforcing list.

Record AllowlistPolicy := MkAllowlistPolicy {
  ap_require : bool;
  ap_pinned_tokens : list text;
  ap_pinned_chains : list (Z * Z);
}.

Definition required (p : AllowlistPolicy) : bool :=
  ap_require p || negb (bool_decide (ap_pinned_tokens p = [])) || negb (bool_decide (ap_pinned_chains p = [])).

Definition check_pins (p : AllowlistPolicy) (l : Allowlist) : result AllowlistRefusal unit :=
  match find (fun t => negb (has_token l t)) (ap_pinned_tokens p) with
  | Some t => Err (MissingPin (PinToken (to_ascii_lowercase t)))
  | None =>
      match find (fun '(from, to) => negb (has_chain l from to)) (ap_pinned_chains p) with
      | Some (from, to) => Err (MissingPin (PinChain from to))
      | None => Ok tt
      end
  end.
Definition check (p : AllowlistPolicy) (view : AllowlistView) : result AllowlistRefusal (option Allowlist) :=
  match view with
  | NotConfigured => if required p then Err RefusedNotConfigured else Ok None
  | Empty => if required p then Err RefusedEmpty else Ok None
  | Enforcing l =>
      if required p && bool_decide (al_debridge_ids l = ∅) then Err (EmptyDimension DimToken)
      else if required p && bool_decide (al_chains l = ∅) then Err (EmptyDimension DimChainPair)
      else _ ← check_pins p l; Ok (Some l)
  end.

(** * What the policy guarantees *)

Lemma has_token_iff l t : has_token l t = true <-> to_ascii_lowercase t ∈ al_debridge_ids l.
Proof. apply bool_decide_eq_true. Qed.
Lemma has_chain_iff l from to : has_chain l from to = true <-> (from, to) ∈ al_chains l.
Proof. apply bool_decide_eq_true. Qed.

Lemma check_pins_Ok p l u : check_pins p l = Ok u <->
  Forall (fun t => has_token l t = true) (ap_pinned_tokens p) /\
  Forall (fun c => has_chain l c.1 c.2 = true) (ap_pinned_chains p).
Proof.
  destruct u. unfold check_pins. rewrite !Forall_forall.
  destruct (find _ (ap_pinned_tokens p)) as [t|] eqn:E1.
  - apply find_some in E1 as [Hin%list_elem_of_In Hn]. apply negb_true_iff in Hn. split; [done|].
    intros [H _]. specialize (H t Hin). congruence.
  - destruct (find _ (ap_pinned_chains p)) as [[from to]|] eqn:E2.
    + apply find_some in E2 as [Hin%list_elem_of_In Hn]. apply negb_true_iff in Hn. split; [done|].
      intros [_ H]. specialize (H _ Hin). cbn in H. congruence.
    + split; [intros _|done]. split.
      * intros t Ht%list_elem_of_In. pose proof (find_none _ _ E1 _ Ht) as H. by apply negb_false_iff in H.
      * intros [from to] Ht%list_elem_of_In. pose proof (find_none _ _ E2 _ Ht) as H. by apply negb_false_iff in H.
Qed.

(** The exact condition under which a served list is enforced. *)
Lemma check_enforces p view l : check p view = Ok (Some l) <->
  view = Enforcing l /\ (required p = true -> al_debridge_ids l <> ∅ /\ al_chains l <> ∅) /\
  Forall (fun t => has_token l t = true) (ap_pinned_tokens p) /\
  Forall (fun c => has_chain l c.1 c.2 = true) (ap_pinned_chains p).
Proof.
  destruct view as [|l'|]; simpl; [destruct (required p); (split; [done|by intros [[=] _]])| |destruct (required p); (split; [done|by intros [[=] _]])].
  destruct (required p) eqn:Hr; cbn [andb].
  - destruct (decide (al_debridge_ids l' = ∅)) as [E|E]; [rewrite (bool_decide_eq_true_2 _ E)|rewrite (bool_decide_eq_false_2 _ E)].
    { split; [done|]. intros ([= ->] & H & _). by destruct (H eq_refl). }
    destruct (decide (al_chains l' = ∅)) as [E'|E']; [rewrite (bool_decide_eq_true_2 _ E')|rewrite (bool_decide_eq_false_2 _ E')].
    { split; [done|]. intros ([= ->] & H & _). by destruct (H eq_refl). }
    rewrite result_bind_Ok. split.
    + intros (u & Hu & [= ->]). apply check_pins_Ok in Hu as [? ?]. by split_and!.
    + intros ([= ->] & _ & Hp). exists tt. split; [by apply check_pins_Ok|done].
  - rewrite result_bind_Ok. split.
    + intros (u & Hu & [= ->]). apply check_pins_Ok in Hu as [? ?]. by split_and!.
    + intros ([= ->] & _ & Hp). exists tt. split; [by apply check_pins_Ok|done].
Qed.

(** A store cannot switch the allowlist off. A node that requires an allowlist (by
    its own setting or by any pinned entry) acts on what a store serves only as
    deny-by-default in both dimensions: what it may sign for is exactly what the served
    lists name, letter case apart, everything pinned locally is among it, and an absent,
    empty or truncated answer makes it refuse. *)
Theorem required_denies_by_default p tokens chains o : required p = true ->
  check p (fetched (from_parts tokens chains)) = Ok o ->
  check p NotConfigured = Err RefusedNotConfigured /\
  exists l, o = Some l /\
    (forall d, token_allowed l d = true <->
       exists t, t ∈ tokens /\ to_ascii_lowercase (at_debridge_id t) = to_ascii_lowercase d) /\
    (forall from to, chain_allowed l from to = true <-> MkAllowedChain from to ∈ chains) /\
    Forall (fun t => token_allowed l t = true) (ap_pinned_tokens p) /\
    Forall (fun c => chain_allowed l c.1 c.2 = true) (ap_pinned_chains p).
Proof.
  intros Hr Hc. split; [by simpl; rewrite Hr|]. destruct o as [l|].
  2:{ unfold fetched in Hc. destruct (allowlist_is_empty _); simpl in Hc; rewrite Hr in Hc; [done|].
      cbn [andb] in Hc. repeat (case_bool_decide; [done|]). by apply result_bind_Ok in Hc as (? & _ & [=]). }
  apply check_enforces in Hc as (Hv & Hne & Hpt & Hpc). destruct (Hne Hr) as [Ht Hch]. exists l.
  unfold fetched in Hv. destruct (allowlist_is_empty _); [done|]. injection Hv as <-.
  unfold token_allowed, chain_allowed. rewrite (bool_decide_eq_false_2 _ Ht), (bool_decide_eq_false_2 _ Hch). cbn [orb].
  split_and!; [done| | |done|done].
  - intros d. rewrite bool_decide_eq_true. cbn [from_parts al_debridge_ids]. rewrite elem_of_list_to_set, list_elem_of_fmap.
    split; [intros (t & -> & Ht'); eauto|intros (t & Ht' & E); exists t; by rewrite E].
  - intros from to. rewrite bool_decide_eq_true. cbn [from_parts al_chains]. rewrite elem_of_list_to_set, list_elem_of_fmap.
    split; [intros ([f' t'] & [= -> ->] & H); done|intros H; by exists (MkAllowedChain from to)].
Qed.
