(* ===== verification/ScannerState.v ===== *)
(** What a validator's scanner remembers (validator/src/state.rs): the block cursor, the
    last nonce of every corridor and the safety stop, the file they survive in, and what
    the operator may do to them (api.rs). *)

From S2P Require Import Prelude.
From S2P Require Import SolanaRuntime.
From S2P Require Import Text.

Inductive PauseReason :=
  | ByOperator
  | MissedNonce (chain_from chain_to expected got : Z)
  | DuplicatedNonce (chain_from chain_to last got : Z)
  | IdMismatch (submission_id : hash32).

Abbreviation nonces := (gmap Z (gmap Z Z)).
Record Persist := MkPersist {
  p_last_block : Z;                    (* u64 *)
  p_nonces : nonces;                   (* source chain, target chain: last accepted *)
  p_paused : bool;
  p_pause_reason : option PauseReason;
}.

Inductive NonceDecision := Accept | Duplicated | Missed.

(** * Reading and deciding *)

Definition next_block (p : Persist) : Z := as_u 64 (p_last_block p + 1).
Definition last_nonce (p : Persist) (chain_from chain_to : Z) : option Z :=
  m ← p_nonces p !! chain_from; m !! chain_to.
Definition check_nonce (p : Persist) (chain_from chain_to nonce : Z) : NonceDecision :=
  match last_nonce p chain_from chain_to with
  | None => Accept
  | Some last =>
      if nonce =? as_u 64 (last + 1) then Accept
      else if nonce <=? last then Duplicated else Missed
  end.

(** * Changing *)

Definition set_nonces (n : nonces) (p : Persist) : Persist :=
  MkPersist (p_last_block p) n (p_paused p) (p_pause_reason p).
Definition set_last_block (b : Z) (p : Persist) : Persist :=
  MkPersist b (p_nonces p) (p_paused p) (p_pause_reason p).
Definition accept_nonce (chain_from chain_to nonce : Z) (p : Persist) : Persist :=
  set_nonces (<[chain_from := <[chain_to := nonce]> (default ∅ (p_nonces p !! chain_from))]> (p_nonces p)) p.
Definition nonce_snapshot (p : Persist) : nonces := p_nonces p.
Definition restore_nonces (snapshot : nonces) (p : Persist) : Persist := set_nonces snapshot p.
Definition pause (reason : PauseReason) (p : Persist) : Persist :=
  MkPersist (p_last_block p) (p_nonces p) true (Some reason).
Definition resume (p : Persist) : Persist := MkPersist (p_last_block p) (p_nonces p) false None.
Definition rescan_from (from_block : Z) (p : Persist) : Persist :=
  resume (MkPersist (saturating_sub from_block 1) ∅ (p_paused p) (p_pause_reason p)).

(** * The state file *)

Inductive StateFile := FileMissing | FileUnreadable | FileInvalid | FileHolds (p : Persist).
Definition load_or_init (f : StateFile) (start_block : Z) : result unit Persist :=
  match f with
  | FileMissing => Ok (MkPersist (saturating_sub start_block 1) ∅ false None)
  | FileUnreadable | FileInvalid => Err tt
  | FileHolds p => Ok p
  end.

(** * The operator (api.rs) *)

Inductive OperatorAction := OpPause | OpResume | OpRescan (from_block : Z).
Definition operate (a : OperatorAction) : Persist -> Persist :=
  match a with OpPause => pause ByOperator | OpResume => resume | OpRescan from_block => rescan_from from_block end.

(** * Corridors keep their sequence *)

Lemma last_nonce_accept p f t n f' t' : last_nonce (accept_nonce f t n p) f' t' =
  if decide (f = f' /\ t = t') then Some n else last_nonce p f' t'.
Proof.
  unfold last_nonce, accept_nonce, set_nonces. cbn [p_nonces]. destruct (decide (f = f')) as [<-|Hf].
  - rewrite lookup_insert_eq. cbn [mbind option_bind]. destruct (decide (t = t')) as [<-|Ht].
    + by rewrite lookup_insert_eq, decide_True.
    + rewrite lookup_insert_ne, decide_False by naive_solver. by destruct (p_nonces p !! f).
  - by rewrite lookup_insert_ne, decide_False by naive_solver.
Qed.

(** Accepting nonces one after another, as [check_nonce] allows it. *)
Inductive accepts : Persist -> list (Z * Z * Z) -> Persist -> Prop :=
  | AcceptsNone p : accepts p [] p
  | AcceptsOne p f t n l p' : check_nonce p f t n = Accept -> accepts (accept_nonce f t n p) l p' ->
      accepts p ((f, t, n) :: l) p'.

(** The nonces of one corridor in a list of events. *)
Definition corridor (f t : Z) (l : list (Z * Z * Z)) : list Z :=
  map snd (filter (fun e => e.1 = (f, t)) l).

Lemma corridor_cons f t f0 t0 n l : corridor f t ((f0, t0, n) :: l) =
  if decide (f0 = f /\ t0 = t) then n :: corridor f t l else corridor f t l.
Proof.
  unfold corridor. rewrite filter_cons. cbn [fst]. destruct (decide ((f0, t0) = (f, t))) as [E|E].
  - injection E as -> ->. by rewrite decide_True.
  - rewrite decide_False; [done|]. by intros [-> ->].
Qed.

(** A corridor's nonces are processed without gap or repetition. Of the events a
    scanner accepts, those of one corridor carry consecutive nonces, starting right after
    the last one it had accepted if there was one; independent corridors do not
    interfere; and what it remembers is the last of them. *)
Theorem accepted_consecutive p l p' f t : accepts p l p' ->
  Forall (fun e => e.2 + 1 < 2 ^ 64 /\ 0 <= e.2) l -> (forall n, last_nonce p f t = Some n -> 0 <= n /\ n + 1 < 2 ^ 64) ->
  match corridor f t l with
  | [] => last_nonce p' f t = last_nonce p f t
  | (first :: _) as ns =>
      ns = map (fun k => first + Z.of_nat k) (seq 0 (length ns)) /\
      last_nonce p' f t = last ns /\
      forall n, last_nonce p f t = Some n -> first = n + 1
  end.
Proof.
  induction 1 as [p|p f0 t0 n0 l p' Hc Ha IH]; intros Hr Hp; [done|].
  apply Forall_cons in Hr as [[Hn0 Hn0'] Hr]. cbn [snd] in Hn0, Hn0'.
  rewrite corridor_cons. pose proof (last_nonce_accept p f0 t0 n0 f t) as Hl.
  destruct (decide (f0 = f /\ t0 = t)) as [[-> ->]|Hne].
  - assert (forall n, last_nonce (accept_nonce f t n0 p) f t = Some n -> 0 <= n /\ n + 1 < 2 ^ 64) as Hp'.
    { rewrite Hl. by intros n [= <-]. }
    assert (forall n, last_nonce p f t = Some n -> n0 = n + 1) as Hfirst.
    { intros n En. unfold check_nonce in Hc. rewrite En in Hc. destruct (Hp n En).
      destruct (Z.eqb_spec n0 (as_u 64 (n + 1))) as [E|]; [|by destruct (n0 <=? n)].
      unfold as_u in E. by rewrite Z.mod_small in E by lia. }
    specialize (IH Hr Hp'). destruct (corridor f t l) as [|m ns] eqn:E.
    + split_and!; [cbn [length seq map]; f_equal; lia|by rewrite IH, Hl|done].
    + destruct IH as (Hns & Hlast & Hm). specialize (Hm n0 Hl). split_and!; [|by rewrite Hlast|done].
      cbn [length seq map]. f_equal; [lia|]. rewrite Hns at 1. cbn [length seq map]. f_equal; [lia|].
      rewrite <- (seq_shift _ 1), <- (seq_shift _ 0), !map_map. apply map_ext. intros k. lia.
  - rewrite <- Hl. apply IH; [done|]. intros n. rewrite Hl. apply Hp.
Qed.
