(* ===== verification/GateState.v ===== *)
(** Stored state of the Solana gate (crates/solana-gate/src/lib.rs): the
    configuration account, the asset registry with its decimals conversion, the
    sent records, the vault bindings, and the creation of program-derived
    accounts. Definitions first, then the lemmas about each. *)

From S2P Require Import Prelude.
From S2P Require Import SolanaRuntime.
From S2P Require Import GateTypes.
From S2P Require Import GateHash.

Section GateState.
Context {RT : Runtime} {GB : GateBorsh}.

(** * Config *)

Definition config_space (validators corridors : Z) : Z :=
  32                       (* owner *)
  + 32                     (* bridge_domain *)
  + 32                     (* guardian *)
  + 4 + 20 * validators    (* validators *)
  + 4                      (* threshold *)
  + 8                      (* chain_id *)
  + 1                      (* paused *)
  + 4 + 4                  (* max_validators, max_corridors *)
  + 4 + 16 * corridors     (* nonce_to *)
  + 1                      (* sealed *)
  + 8.                     (* setup_deadline *)

Definition is_validator (c : Config) (a : evm_address) : bool :=
  existsb (fun v => bool_decide (v = a)) (cfg_validators c).
Definition corridor_registered (c : Config) (chain_id_to : Z) : bool :=
  existsb (fun e => fst e =? chain_id_to) (cfg_nonce_to c).
Definition nonce (c : Config) (chain_id_to : Z) : Z :=
  match List.find (fun e => fst e =? chain_id_to) (cfg_nonce_to c) with
  | Some e => snd e
  | None => 0
  end.

(** The first matching entry is advanced in place. *)
Fixpoint bump_first (chain_id_to : Z) (l : list (Z * Z)) : result program_error (list (Z * Z)) :=
  match l with
  | [] => Err (gate_err CorridorNotRegistered)
  | e :: l =>
      if fst e =? chain_id_to then
        n ← ok_or (checked_add 64 (snd e) 1) ArithmeticOverflow;
        Ok ((fst e, n) :: l)
      else
        l' ← bump_first chain_id_to l;
        Ok (e :: l')
  end.
Definition bump_nonce (c : Config) (chain_id_to : Z) : result program_error Config :=
  l ← bump_first chain_id_to (cfg_nonce_to c);
  Ok (with_nonce_to c l).

Definition write_zero_padded {A} `{Borsh A} (value : A) (ai : account_info) : prog unit :=
  data ← ai_data ai;
  let body := borsh_ser value in
  _ ← ensure (bool_decide (length body <= length data)%nat) BorshIoError;
  set_data ai (body ++ zeros (length data - length body)).

Definition store (c : Config) (config_ai : account_info) : prog unit :=
  let needed := config_space (as_u 32 (len (cfg_validators c))) (as_u 32 (len (cfg_nonce_to c))) in
  data ← ai_data config_ai;
  _ ← ensure (negb (len data <? needed)) AccountDataTooSmall;
  write_zero_padded c config_ai.

Definition config_seeds : list (list byte) := [bytes_of_string "config"].
Definition verify_config_account (config_key config_owner program_id : pubkey)
    : result program_error unit :=
  let '(expected, _) := find_program_address config_seeds program_id in
  _ ← require (bool_decide (config_key = expected)) InvalidSeeds;
  require (bool_decide (config_owner = program_id)) IllegalOwner.

Definition load_config (program_id : pubkey) (config_ai : account_info) : prog Config :=
  owner ← ai_owner config_ai;
  _ ← lift (verify_config_account (ai_key config_ai) owner program_id);
  data ← ai_data config_ai;
  lift (ok_or (borsh_de data) InvalidAccountData).

(** * Assets *)

(** [<[u8; 32]>::deserialize] of a slice: the next 32 bytes. *)
Definition take32 (l : list byte) : result program_error (hash32 * list byte) :=
  a ← ok_or (arr_of_list 32 (take 32 l)) InvalidAccountData;
  Ok (a, drop 32 l).

Definition decode_asset_config (data : list byte) : result program_error AssetConfig :=
  if (len data =? LEGACY_ASSET_CONFIG_LEN) || (len data =? LEGACY_ASSET_CONFIG_LEN + 1) then
    let cur := take (Z.to_nat LEGACY_ASSET_CONFIG_LEN) data in
    '(debridge_id, cur) ← take32 cur;
    '(mint, cur) ← take32 cur;
    '(vault, cur) ← take32 cur;
    Ok (MkAssetConfig debridge_id mint vault 0 0)
  else ok_or (borsh_de data) InvalidAccountData.

Definition bridge_unit (local_decimals bridge_decimals : Z) : option Z :=
  exp ← checked_sub 8 local_decimals bridge_decimals;
  checked_pow 64 10 exp.

Definition unit_of (a : AssetConfig) : result program_error Z :=
  ok_or (bridge_unit (as_local_decimals a) (as_bridge_decimals a)) (gate_err InvalidBridgeDecimals).
Definition to_wire (a : AssetConfig) (local : Z) : result program_error Z :=
  unit ← unit_of a;
  _ ← require (local mod unit =? 0) (gate_err InexactAmount);
  Ok (local / unit).
Definition to_local (a : AssetConfig) (wire : Z) : result program_error Z :=
  unit ← unit_of a;
  ok_or (checked_mul 64 wire unit) (gate_err AmountOverflow).

Definition asset_seeds (debridge_id : hash32) : list (list byte) :=
  [bytes_of_string "asset"; arr_bytes debridge_id].
Definition verify_asset_account (asset_key asset_owner : pubkey) (debridge_id : hash32)
    (program_id : pubkey) : result program_error unit :=
  let '(expected, _) := find_program_address (asset_seeds debridge_id) program_id in
  _ ← require (bool_decide (asset_key = expected)) InvalidSeeds;
  require (bool_decide (asset_owner = program_id)) IllegalOwner.

Definition load_asset (program_id : pubkey) (debridge_id : hash32) (asset_ai : account_info)
    : prog AssetConfig :=
  owner ← ai_owner asset_ai;
  _ ← lift (verify_asset_account (ai_key asset_ai) owner debridge_id program_id);
  data ← ai_data asset_ai;
  asset ← lift (decode_asset_config data);
  _ ← ensure (bool_decide (as_debridge_id asset = debridge_id)) InvalidSeeds;
  mret asset.

Definition asset_write_allowed (existing incoming : AssetConfig) : result program_error bool :=
  let unwritten := bool_decide (as_mint existing = pubkey_default)
                   && bool_decide (as_vault existing = pubkey_default) in
  if unwritten then Ok true
  else if bool_decide (as_mint existing = as_mint incoming)
       && bool_decide (as_vault existing = as_vault incoming)
       && bool_decide (as_debridge_id existing = as_debridge_id incoming)
       && (as_bridge_decimals existing =? as_bridge_decimals incoming)
       && (as_local_decimals existing =? as_local_decimals incoming)
  then Ok false
  else Err (gate_err AssetAlreadyRegistered).

Definition is_legacy_asset_len (existing_len : Z) : bool :=
  (existing_len =? LEGACY_ASSET_CONFIG_LEN) || (existing_len =? LEGACY_ASSET_CONFIG_LEN + 1).

Definition legacy_asset_upgrade_allowed (existing_len : Z) (existing incoming : AssetConfig) : bool :=
  is_legacy_asset_len existing_len
  && negb (bool_decide (as_mint existing = pubkey_default))
  && bool_decide (as_debridge_id existing = as_debridge_id incoming)
  && bool_decide (as_mint existing = as_mint incoming)
  && bool_decide (as_vault existing = as_vault incoming)
  && (as_bridge_decimals existing =? 0)
  && (as_local_decimals existing =? 0)
  && (as_bridge_decimals incoming =? as_local_decimals incoming).

Definition verify_asset_binding (asset : AssetConfig) (token_program_key vault_key vault_mint
    counterpart_mint : pubkey) : result program_error unit :=
  _ ← require (bool_decide (token_program_key = spl_token_id)) IncorrectProgramId;
  _ ← require (bool_decide (vault_key = as_vault asset)) InvalidAccountData;
  require (bool_decide (vault_mint = as_mint asset) && bool_decide (counterpart_mint = as_mint asset))
    InvalidAccountData.

(** * Sent records *)

Definition sent_seeds (submission_id : hash32) : list (list byte) :=
  [bytes_of_string "sent"; arr_bytes submission_id].

Definition decode_sent_record (data : list byte) : result program_error SentRecord :=
  if len data =? SENT_RECORD_LEN - 8 then
    ok_or (borsh_de (data ++ zeros 8)) InvalidAccountData
  else ok_or (borsh_de data) InvalidAccountData.

Definition load_sent_record (program_id : pubkey) (submission_id : hash32) (sent_ai : account_info)
    : prog SentRecord :=
  let '(expected, _) := find_program_address (sent_seeds submission_id) program_id in
  _ ← ensure (bool_decide (ai_key sent_ai = expected)) InvalidSeeds;
  owner ← ai_owner sent_ai;
  _ ← ensure (bool_decide (owner = program_id)) IllegalOwner;
  data ← ai_data sent_ai;
  _ ← ensure (negb (bool_decide (data = []))) (gate_err NotSent);
  lift (decode_sent_record data).

(** * Program-derived accounts *)

Definition is_already_executed (owner : pubkey) (data_len : Z) (program_id : pubkey) : bool :=
  bool_decide (owner = program_id) && (0 <? data_len).

(** Top up to rent exemption, as every account creation and growth starts. *)
Definition fund_rent (payer target system_program : account_info) (space : Z) : prog unit :=
  let rent := rent_minimum_balance space in
  have ← ai_lamports target;
  if have <? rent then
    invoke (SysTransfer (ai_key payer) (ai_key target) (rent - have)) [payer; target; system_program]
  else mret tt.

Definition grow_program_account (payer target system_program : account_info) (space : Z) : prog unit :=
  _ ← fund_rent payer target system_program space;
  realloc_zero target space.

Definition create_pda_account (program_id : pubkey) (payer target system_program : account_info)
    (seeds : list (list byte)) (bump : byte) (space : Z) : prog unit :=
  _ ← fund_rent payer target system_program space;
  let signer_seeds := seeds ++ [[bump]] in
  _ ← invoke_signed (SysAllocate (ai_key target) space) [target; system_program] [signer_seeds];
  invoke_signed (SysAssign (ai_key target) program_id) [target; system_program] [signer_seeds].

(** [marker.data.borrow_mut()[0] = state] *)
Definition write_first (ai : account_info) (b : byte) : prog unit :=
  data ← ai_data ai;
  match data with
  | [] => fail ProgramPanic
  | _ :: rest => set_data ai (b :: rest)
  end.

Definition create_marker (program_id : pubkey) (payer marker system_program : account_info)
    (seeds : list (list byte)) (bump : byte) (state : byte) : prog unit :=
  _ ← create_pda_account program_id payer marker system_program seeds bump MARKER_LEN;
  write_first marker state.

Definition create_sent_record (program_id : pubkey) (payer sent system_program : account_info)
    (id : hash32) (bump : byte) (record : SentRecord) : prog unit :=
  owner ← ai_owner sent;
  data ← ai_data sent;
  _ ← ensure (negb (is_already_executed owner (len data) program_id)) (gate_err AlreadyExecuted);
  _ ← create_pda_account program_id payer sent system_program (sent_seeds id) bump SENT_RECORD_LEN;
  write_prefix sent (borsh_ser record).

(** * Vault bindings *)

Definition vault_seeds (vault : pubkey) : list (list byte) :=
  [bytes_of_string "vault"; arr_bytes vault].

Definition vault_binding_allowed (existing : option VaultBinding) (want : VaultBinding)
    : result GateError unit :=
  match existing with
  | None => Ok tt
  | Some b => if bool_decide (b = want) then Ok tt else Err VaultAssetMismatch
  end.

Definition bind_vault (program_id : pubkey) (payer binding_ai system_program : account_info)
    (vault : pubkey) (want : VaultBinding) : prog unit :=
  let '(expected, bump) := find_program_address (vault_seeds vault) program_id in
  _ ← ensure (bool_decide (ai_key binding_ai = expected)) InvalidSeeds;
  owner ← ai_owner binding_ai;
  data ← ai_data binding_ai;
  let written := bool_decide (owner = program_id) && (VAULT_BINDING_LEN <=? len data) in
  existing ←
    (if written then
       b ← lift (ok_or (borsh_de data) InvalidAccountData);
       mret (if bool_decide (vb_mint b = pubkey_default) then None else Some b)
     else
       _ ← ensure (negb (negb (bool_decide (data = [])) && negb (bool_decide (owner = program_id))))
             IllegalOwner;
       mret None);
  _ ← lift (map_err gate_err (vault_binding_allowed existing want));
  _ ← (if written then mret tt
       else create_pda_account program_id payer binding_ai system_program (vault_seeds vault) bump
              VAULT_BINDING_LEN);
  write_prefix binding_ai (borsh_ser want).

(** * Token accounts and authorities *)

Definition spl_mint_and_owner (token_ai : account_info) (token_program : pubkey)
    : prog (pubkey * pubkey) :=
  owner ← ai_owner token_ai;
  _ ← ensure (bool_decide (owner = token_program)) IllegalOwner;
  data ← ai_data token_ai;
  acct ← lift (ok_or (spl_account_unpack data) InvalidAccountData);
  mret (ta_mint acct, ta_owner acct).

Definition receiver_token_account (token_ai : account_info) (token_program : pubkey)
    : prog (pubkey * pubkey) :=
  owner ← ai_owner token_ai;
  _ ← ensure (bool_decide (owner = token_program)) (gate_err ReceiverNotTokenAccount);
  data ← ai_data token_ai;
  acct ← lift (ok_or (spl_account_unpack data) (gate_err ReceiverNotTokenAccount));
  mret (ta_mint acct, ta_owner acct).

Definition vault_is_exclusively_controlled (delegate close_authority : option pubkey) : bool :=
  bool_decide (delegate = None) && bool_decide (close_authority = None).

Definition verify_upgrade_authority (upgrade_authority : option pubkey) (who : pubkey)
    : result program_error unit :=
  match upgrade_authority with
  | Some auth => if bool_decide (auth = who) then Ok tt else Err MissingRequiredSignature
  | None => Err InvalidArgument
  end.

Definition bincode_deserialize_loader_state (data : list byte) : result program_error loader_state :=
  ok_or (bincode_loader_state data) InvalidAccountData.

Definition require_upgrade_authority (program_id : pubkey) (program_ai program_data_ai : account_info)
    (who : pubkey) : prog unit :=
  _ ← ensure (bool_decide (ai_key program_ai = program_id)) IncorrectProgramId;
  owner ← ai_owner program_ai;
  _ ← ensure (bool_decide (owner = bpf_loader_upgradeable_id)) IncorrectProgramId;
  let '(expected_pd, _) := find_program_address [arr_bytes program_id] bpf_loader_upgradeable_id in
  _ ← ensure (bool_decide (ai_key program_data_ai = expected_pd)) InvalidArgument;
  data ← ai_data program_data_ai;
  state ← lift (bincode_deserialize_loader_state data);
  match state with
  | ProgramData upgrade_authority_address => lift (verify_upgrade_authority upgrade_authority_address who)
  | OtherLoaderState => fail InvalidAccountData
  end.

(** [bs58_id] *)
Definition bs58_id (id : hash32) : string := pubkey_to_string id.
End GateState.

(** * Lemmas *)

(** What the gate relies on from the derived codecs: round trips and sizes. The
    sent record's lock time is its last eight bytes. *)
Class GateBorshLaws `{Runtime, GateBorsh} : Prop := {
  #[global] Config_laws :: BorshLaws Config Config_wf
    (fun c => config_space (len (cfg_validators c)) (len (cfg_nonce_to c)));
  #[global] AssetConfig_laws :: BorshLaws AssetConfig AssetConfig_wf (fun _ => ASSET_CONFIG_LEN);
  #[global] SentRecord_laws :: BorshLaws SentRecord SentRecord_wf (fun _ => SENT_RECORD_LEN);
  #[global] VaultBinding_laws :: BorshLaws VaultBinding VaultBinding_wf (fun _ => VAULT_BINDING_LEN);
  #[global] GovernanceSchedule_laws ::
    BorshLaws GovernanceSchedule GovernanceSchedule_wf (fun _ => GOVERNANCE_LEN);
  ix_try_wf : forall l ix, ix_try_from_slice l = Some ix -> GateInstruction_wf ix;
  SentRecord_tail : forall r, SentRecord_wf r ->
    take (Z.to_nat (SENT_RECORD_LEN - 8)) (borsh_ser r) ++ zeros 8 =
    borsh_ser (MkSentRecord (sr_debridge_id r) (sr_sender r) (sr_source_token r) (sr_mint r)
                 (sr_amount r) 0);
}.

Section GateStateFacts.
Context {RT : Runtime} {RL : RuntimeLaws} {GB : GateBorsh} {GL : GateBorshLaws}.

(** ** Decimals *)

Lemma pow10_u64 e : 0 <= e -> (10 ^ e < 2 ^ 64 <-> e <= 19).
Proof.
  intros He. split; intros Hlt.
  - destruct (Z.le_gt_cases e 19); [done|].
    assert (10 ^ 20 <= 10 ^ e) by (apply Z.pow_le_mono_r; lia).
    assert (2 ^ 64 < 10 ^ 20) by (by vm_compute). lia.
  - assert (10 ^ e <= 10 ^ 19) by (apply Z.pow_le_mono_r; lia).
    assert (10 ^ 19 < 2 ^ 64) by (by vm_compute). lia.
Qed.

Lemma bridge_unit_spec local bridge : is_u 8 local -> is_u 8 bridge ->
  bridge_unit local bridge =
    if bool_decide (bridge <= local <= bridge + 19) then Some (10 ^ (local - bridge)) else None.
Proof.
  intros Hl Hb. unfold bridge_unit, checked_sub, checked_pow, u_checked, is_u in *.
  destruct (Z.leb_spec 0 (local - bridge)); simpl; [|by rewrite bool_decide_eq_false_2 by lia].
  destruct (Z.ltb_spec (local - bridge) (2 ^ 8)); simpl; [|lia].
  destruct (Z.leb_spec 0 (10 ^ (local - bridge))); simpl; [|pose proof (Z.pow_nonneg 10 (local - bridge)); lia].
  pose proof (pow10_u64 (local - bridge) ltac:(lia)).
  destruct (Z.ltb_spec (10 ^ (local - bridge)) (2 ^ 64)); simpl.
  - rewrite bool_decide_eq_true_2 by lia. done.
  - rewrite bool_decide_eq_false_2 by lia. done.
Qed.

Lemma bridge_unit_pos local bridge u : is_u 8 local -> is_u 8 bridge ->
  bridge_unit local bridge = Some u -> 1 <= u < 2 ^ 64.
Proof.
  intros Hl Hb. rewrite bridge_unit_spec by done. case_bool_decide; [|done]. intros [= <-].
  pose proof (pow10_u64 (local - bridge)). pose proof (Z.pow_pos_nonneg 10 (local - bridge)). lia.
Qed.

(** Local and wire amounts convert without loss. The unit is ten to the decimals
    gap, and exists exactly for a gap between 0 and 19; [to_wire] succeeds exactly
    on whole multiples of it and [to_local] undoes it; [to_local] succeeds exactly
    when the product fits 64 bits, and then [to_wire] undoes it. The failures are
    the documented errors. *)
Theorem wire_local_exact a : AssetConfig_wf a ->
  match unit_of a with
  | Err e => e = gate_err InvalidBridgeDecimals /\
      ~ (as_bridge_decimals a <= as_local_decimals a <= as_bridge_decimals a + 19)
  | Ok u => u = 10 ^ (as_local_decimals a - as_bridge_decimals a) /\ 1 <= u < 2 ^ 64 /\
      (forall x, is_u 64 x ->
        match to_wire a x with
        | Ok w => x = w * u /\ 0 <= w <= x /\ to_local a w = Ok x
        | Err e => e = gate_err InexactAmount /\ ~ (u | x)
        end) /\
      (forall w, is_u 64 w ->
        match to_local a w with
        | Ok x => x = w * u /\ is_u 64 x /\ to_wire a x = Ok w
        | Err e => e = gate_err AmountOverflow /\ 2 ^ 64 <= w * u
        end)
  end.
Proof.
  intros [Hb Hl]. unfold to_wire, to_local, unit_of.
  pose proof (bridge_unit_spec _ _ Hl Hb) as Hspec. case_bool_decide as Hgap;
    rewrite Hspec; simpl; [|done].
  destruct (bridge_unit_pos _ _ _ Hl Hb Hspec) as [Hu1 Hu2]. set (u := 10 ^ _) in *.
  split_and!; [done..| |].
  - intros x Hx. destruct (Z.eqb_spec (x mod u) 0) as [E|E]; simpl.
    + assert (x = x / u * u) as Ex by (pose proof (Z.div_mod x u); lia).
      unfold is_u in Hx. split_and!; [done|apply Z.div_pos; lia|apply Z.div_le_upper_bound; nia|].
      unfold checked_mul. rewrite <- Ex. unfold u_checked.
      destruct (Z.leb_spec 0 x), (Z.ltb_spec x (2 ^ 64)); simpl; done || lia.
    + split; [done|]. intros Hd%Z.mod_divide; lia.
  - intros w Hw. unfold checked_mul. destruct (u_checked 64 (w * u)) eqn:E; simpl.
    + apply u_checked_Some in E as [-> E]. split_and!; [done..|].
      rewrite Z.mod_mul, Z.div_mul by lia. done.
    + apply u_checked_None in E. unfold is_u in *. split; [done|nia].
Qed.

(** [to_local], on success. *)
Lemma to_local_Ok a w x : AssetConfig_wf a -> to_local a w = Ok x ->
  x = w * 10 ^ (as_local_decimals a - as_bridge_decimals a) /\ is_u 64 x /\
  as_bridge_decimals a <= as_local_decimals a.
Proof.
  intros [Hb Hl]. unfold to_local, unit_of. rewrite bridge_unit_spec by done.
  case_bool_decide; simpl; [|done]. intros H1. prog_inv H1. apply u_checked_Some in H1 as [-> H1].
  split_and!; [done..|lia].
Qed.
Lemma to_wire_Ok a x w : AssetConfig_wf a -> is_u 64 x -> to_wire a x = Ok w ->
  x = w * 10 ^ (as_local_decimals a - as_bridge_decimals a) /\ is_u 64 w.
Proof.
  intros [Hb Hl] Hx. unfold to_wire, unit_of. destruct (bridge_unit _ _) as [u|] eqn:Hu; simpl; [|done].
  pose proof (bridge_unit_pos _ _ _ Hl Hb Hu) as [Hu1 Hu2].
  rewrite bridge_unit_spec in Hu by done. case_bool_decide; [|done]. injection Hu as <-.
  intros H1. prog_inv H1. bool_inv. set (u := 10 ^ _) in *. unfold is_u in *.
  pose proof (Z.div_mod x u). split; [lia|]. split; [apply Z.div_pos; lia|].
  apply Z.div_lt_upper_bound; nia.
Qed.
Lemma to_local_of_wire a x w : AssetConfig_wf a -> is_u 64 x -> to_wire a x = Ok w -> to_local a w = Ok x.
Proof.
  intros Hwf Hx Hw. destruct (to_wire_Ok _ _ _ Hwf Hx Hw) as [Ex _]. destruct Hwf as [Hb Hl].
  unfold to_wire, to_local, unit_of in *. rewrite bridge_unit_spec in * by done.
  case_bool_decide; simpl in *; [|done]. unfold checked_mul. rewrite <- Ex.
  by rewrite (proj2 (u_checked_Some 64 x x)).
Qed.
Lemma decode_asset_config_wf d a : decode_asset_config d = Ok a -> AssetConfig_wf a.
Proof.
  unfold decode_asset_config. case_match; intros Hd.
  - prog_inv Hd. by vm_compute.
  - apply ok_or_Ok in Hd. by eapply borsh_de_wf.
Qed.
Lemma decode_sent_record_wf d r : decode_sent_record d = Ok r -> SentRecord_wf r.
Proof. unfold decode_sent_record. case_match; intros Hd%ok_or_Ok; by eapply borsh_de_wf. Qed.

Lemma decode_sent_record_ser r : SentRecord_wf r -> decode_sent_record (borsh_ser r) = Ok r.
Proof.
  intros Hwf. unfold decode_sent_record. rewrite (borsh_size r Hwf).
  change (SENT_RECORD_LEN =? SENT_RECORD_LEN - 8) with false. cbn iota.
  rewrite <- (app_nil_r (borsh_ser r)), borsh_roundtrip by done. done.
Qed.

(** ** The configuration account *)

Lemma as_u_small w z : is_u w z -> as_u w z = z.
Proof. apply Z.mod_small. Qed.

Lemma store_Ok c ai s u s' : Config_wf c ->
  store c ai s = Ok (u, s') <->
  config_space (len (cfg_validators c)) (len (cfg_nonce_to c)) <= len (acc_data (acct (accts s) (ai_key ai))) /\
  s' = Ledger (set_acct_data (accts s) (ai_key ai)
         (borsh_ser c ++ zeros (length (acc_data (acct (accts s) (ai_key ai))) - length (borsh_ser c))))
         (clock s) (logs s).
Proof.
  intros Hwf. pose proof (borsh_size c Hwf) as Hsize. destruct Hwf as (Hv & _ & _ & _ & _ & Hn & _).
  unfold store. rewrite !as_u_small by done. unfold len in *.
  split.
  - intros Hs. unfold write_zero_padded in Hs. prog_inv Hs.
    bool_inv. done.
  - intros [Hle ->]. apply prog_bind_Ok. eexists _, s. split; [by apply ai_data_Ok|].
    apply prog_bind_Ok. exists tt, s. split.
    { apply ensure_Ok. split; [|done]. apply negb_true_iff, Z.ltb_ge. lia. }
    unfold write_zero_padded. apply prog_bind_Ok. eexists _, s. split; [by apply ai_data_Ok|].
    apply prog_bind_Ok. exists tt, s. split; [|by apply set_data_Ok].
    apply ensure_Ok. split; [|done]. apply bool_decide_eq_true. lia.
Qed.

(** The account [config_ai] is the canonical configuration of the program. *)
Definition is_config_account (pid : pubkey) (s : ledger) (k : pubkey) : Prop :=
  k = fst (find_program_address config_seeds pid) /\ acc_owner (acct (accts s) k) = pid.

Lemma load_config_Ok pid ai s c s' :
  load_config pid ai s = Ok (c, s') <->
  s' = s /\ is_config_account pid s (ai_key ai) /\
  borsh_de (acc_data (acct (accts s) (ai_key ai))) = Some c.
Proof.
  unfold load_config, is_config_account, verify_config_account.
  destruct (find_program_address config_seeds pid) as [e b] eqn:E. simpl. split.
  - intros Hs. prog_inv Hs. prog_inv_all. by bool_inv.
  - intros (-> & (Hk & Ho) & Hd). prog_run.
    rewrite !bool_decide_eq_true_2 by done. simpl. by rewrite Hd.
Qed.

(** Storing a configuration whose body fits its account always succeeds, and from
    then on [load_config] returns exactly that configuration: the length is
    unchanged, every byte past the body is zero, and no other account moved. A
    body that does not fit is refused before anything is written. *)
Theorem config_store_load pid c ai s :
  Config_wf c -> is_config_account pid s (ai_key ai) ->
  let data := acc_data (acct (accts s) (ai_key ai)) in
  let body := config_space (len (cfg_validators c)) (len (cfg_nonce_to c)) in
  if bool_decide (body <= len data) then
    exists s', store c ai s = Ok (tt, s') /\ load_config pid ai s' = Ok (c, s') /\
      let data' := acc_data (acct (accts s') (ai_key ai)) in
      length data' = length data /\
      drop (Z.to_nat body) data' = zeros (length data - Z.to_nat body) /\
      (forall k, k <> ai_key ai -> acct (accts s') k = acct (accts s) k)
  else store c ai s = Err AccountDataTooSmall.
Proof.
  intros Hwf [Hk Ho] data body. pose proof (borsh_size c Hwf) as Hsize.
  change (len (borsh_ser c) = body) in Hsize. case_bool_decide as Hfit.
  - eexists. split; [by apply store_Ok|]. simpl. rewrite acct_set_data. simpl. split_and!.
    + apply load_config_Ok. unfold is_config_account. simpl. split_and!; [done|done| |].
      * simpl. by rewrite acct_set_data.
      * rewrite acct_set_data. simpl. by apply borsh_roundtrip.
    + rewrite length_app, length_zeros. unfold len in *. fold data. lia.
    + fold data. assert (Z.to_nat body = length (borsh_ser c)) as -> by (unfold len in *; lia).
      by rewrite drop_app_length.
    + intros k Hne. by rewrite acct_set_data_ne.
  - unfold store. destruct Hwf as (Hv & _ & _ & _ & _ & Hn & _). rewrite !as_u_small by done.
    fold body. unfold mbind, prog_bind. simpl. fold data.
    destruct (Z.ltb_spec (len data) body); [done|lia].
Qed.

(** ** Corridor nonces *)

Lemma bump_first_spec c l :
  match bump_first c l with
  | Ok l' => exists pre n post, l = pre ++ (c, n) :: post /\ l' = pre ++ (c, n + 1) :: post /\
      Forall (fun e => fst e <> c) pre /\ is_u 64 (n + 1)
  | Err e => (e = gate_err CorridorNotRegistered /\ Forall (fun e => fst e <> c) l) \/
      e = ArithmeticOverflow
  end.
Proof.
  induction l as [|[x n] l IH]; simpl; [by left|].
  destruct (Z.eqb_spec x c) as [->|Hne]; simpl.
  - unfold checked_add. destruct (u_checked 64 (n + 1)) eqn:E; simpl; [|by right].
    apply u_checked_Some in E as [-> E]. by exists [], n, l.
  - destruct (bump_first c l) as [l'|e]; simpl.
    + destruct IH as (pre & m & post & -> & -> & Hf & Hm). exists ((x, n) :: pre), m, post.
      split_and!; [done..| |done]. by constructor.
    + destruct IH as [[-> Hf]| -> ]; [left; split; [done|by constructor]|by right].
Qed.

(** Bumping keeps the configuration well formed. *)
Lemma bump_nonce_wf c chain c' : Config_wf c -> bump_nonce c chain = Ok c' ->
  Config_wf c' /\ len (cfg_nonce_to c') = len (cfg_nonce_to c).
Proof.
  intros Hwf Hb. unfold bump_nonce in Hb. prog_inv Hb.
  pose proof (bump_first_spec chain (cfg_nonce_to c)) as Hs. rewrite Hrun in Hs.
  destruct Hs as (pre & n & post & El & -> & _ & Hn). unfold Config_wf in *. simpl in *.
  rewrite El in *. unfold len in *. rewrite !length_app in *. simpl in *.
  destruct Hwf as (? & ? & ? & ? & ? & ? & Hf & ?). split_and!; try done.
  rewrite Forall_app, Forall_cons in *. simpl in *. naive_solver.
Qed.

Lemma find_first_app c pre n post : Forall (fun e : Z * Z => fst e <> c) pre ->
  List.find (fun e => fst e =? c) (pre ++ (c, n) :: post) = Some (c, n).
Proof.
  induction 1 as [|e pre He Hpre IH]; simpl; [by rewrite Z.eqb_refl|].
  destruct (Z.eqb_spec (fst e) c); done.
Qed.
Lemma find_other_app c d pre n m post : c <> d ->
  List.find (fun e : Z * Z => fst e =? d) (pre ++ (c, n) :: post) =
  List.find (fun e => fst e =? d) (pre ++ (c, m) :: post).
Proof.
  intros Hne. induction pre as [|e pre IH]; simpl.
  - destruct (Z.eqb_spec c d); done.
  - destruct (fst e =? d); done.
Qed.

Lemma corridor_registered_iff c x :
  corridor_registered c x = true <-> x ∈ (cfg_nonce_to c).*1.
Proof.
  unfold corridor_registered. rewrite existsb_exists, list_elem_of_fmap. setoid_rewrite Z.eqb_eq.
  setoid_rewrite <- list_elem_of_In. naive_solver.
Qed.

(** Advancing a registered corridor adds one to its nonce and changes nothing
    else of the configuration, other corridors included; an unregistered
    corridor is refused, never created. *)
Lemma bump_nonce_spec c chain :
  match bump_nonce c chain with
  | Ok c' => corridor_registered c chain = true /\ nonce c' chain = nonce c chain + 1 /\
      (forall x, x <> chain -> nonce c' x = nonce c x) /\
      (cfg_nonce_to c').*1 = (cfg_nonce_to c).*1 /\ c' = with_nonce_to c (cfg_nonce_to c') /\
      is_u 64 (nonce c chain + 1)
  | Err e => (e = gate_err CorridorNotRegistered /\ corridor_registered c chain = false) \/
      e = ArithmeticOverflow
  end.
Proof.
  unfold bump_nonce. pose proof (bump_first_spec chain (cfg_nonce_to c)) as Hs.
  destruct (bump_first chain (cfg_nonce_to c)) as [l'|e] eqn:E; simpl.
  - destruct Hs as (pre & n & post & El & -> & Hpre & Hn). unfold nonce. simpl. rewrite El.
    split_and!.
    + apply corridor_registered_iff. rewrite El, fmap_app. set_solver.
    + rewrite !find_first_app by done. done.
    + intros x Hx. by rewrite (find_other_app chain x pre (n + 1) n post).
    + rewrite !fmap_app. done.
    + done.
    + rewrite find_first_app by done. done.
  - destruct Hs as [[-> Hf]| -> ]; [left|by right]. split; [done|].
    apply not_true_iff_false. rewrite corridor_registered_iff, list_elem_of_fmap.
    intros ([x n] & -> & Hin). rewrite Forall_forall in Hf. by apply (Hf _ Hin).
Qed.
End GateStateFacts.

(** ** Which accounts the state operations may change *)

Section GateStateKeeps.
Context {RT : Runtime} {RL : RuntimeLaws} {GB : GateBorsh}.

Lemma keeps_write_zero_padded {A} `{!Borsh A} pid (K : pubkey -> Prop) (v : A) ai :
  K (ai_key ai) -> keeps pid K (write_zero_padded v ai).
Proof.
  intros HK s a s' Hs. unfold write_zero_padded in Hs. prog_inv Hs. bool_inv. simpl.
  apply evolves_set_data; [done|]. rewrite length_app, length_zeros. lia.
Qed.
Lemma keeps_store pid (K : pubkey -> Prop) c ai : K (ai_key ai) -> keeps pid K (store c ai).
Proof. intros HK. unfold store. keeps_tac. by apply keeps_write_zero_padded. Qed.
Lemma keeps_write_first pid (K : pubkey -> Prop) ai b : K (ai_key ai) -> keeps pid K (write_first ai b).
Proof.
  intros HK s a s' Hs. unfold write_first in Hs. prog_inv Hs.
  destruct (acc_data _) as [|x l] eqn:E; prog_inv Hs. simpl.
  apply evolves_set_data; [done|]. by rewrite E.
Qed.
Lemma keeps_load_config pid K pid' ai : keeps pid K (load_config pid' ai).
Proof. unfold load_config. keeps_tac. Qed.
Lemma keeps_load_asset pid K pid' id ai : keeps pid K (load_asset pid' id ai).
Proof. unfold load_asset. keeps_tac. Qed.
Lemma keeps_load_sent_record pid K pid' id ai : keeps pid K (load_sent_record pid' id ai).
Proof. unfold load_sent_record. keeps_tac. Qed.
Lemma keeps_spl_mint_and_owner pid K ai tp : keeps pid K (spl_mint_and_owner ai tp).
Proof. unfold spl_mint_and_owner. keeps_tac. Qed.
Lemma keeps_receiver_token_account pid K ai tp : keeps pid K (receiver_token_account ai tp).
Proof. unfold receiver_token_account. keeps_tac. Qed.
Lemma keeps_require_upgrade_authority pid K pid' p pd who :
  keeps pid K (require_upgrade_authority pid' p pd who).
Proof. unfold require_upgrade_authority. keeps_tac. Qed.
Lemma keeps_fund_rent pid K payer t sys n : keeps pid K (fund_rent payer t sys n).
Proof. unfold fund_rent, invoke. keeps_tac. Qed.
#[local] Hint Resolve keeps_fund_rent keeps_write_first : keeps.
Lemma keeps_grow pid (K : pubkey -> Prop) payer t sys n :
  K (ai_key t) -> keeps pid K (grow_program_account payer t sys n).
Proof. intros HK. unfold grow_program_account. keeps_tac. Qed.
Lemma keeps_create_pda pid (K : pubkey -> Prop) payer t sys seeds bump n : K (ai_key t) ->
  keeps pid K (create_pda_account pid payer t sys seeds bump n).
Proof. intros HK. unfold create_pda_account. keeps_tac. Qed.
#[local] Hint Resolve keeps_create_pda : keeps.
Lemma keeps_create_marker pid (K : pubkey -> Prop) payer t sys seeds bump b :
  K (ai_key t) -> keeps pid K (create_marker pid payer t sys seeds bump b).
Proof. intros HK. unfold create_marker. keeps_tac. Qed.
Lemma keeps_create_sent_record pid (K : pubkey -> Prop) payer t sys id bump r :
  K (ai_key t) -> keeps pid K (create_sent_record pid payer t sys id bump r).
Proof. intros HK. unfold create_sent_record. keeps_tac. Qed.
Lemma keeps_bind_vault pid (K : pubkey -> Prop) payer b sys vault want :
  K (fst (find_program_address (vault_seeds vault) pid)) -> keeps pid K (bind_vault pid payer b sys vault want).
Proof.
  intros HK. unfold bind_vault. destruct (find_program_address (vault_seeds vault) pid) eqn:E.
  simpl in HK. keeps_step; [auto with keeps|].
  apply ensure_Ok in Hrun as [Hk%bool_decide_eq_true ->]. subst. keeps_tac.
Qed.
End GateStateKeeps.

#[export] Hint Resolve keeps_write_zero_padded keeps_store keeps_write_first keeps_load_config
  keeps_load_asset keeps_load_sent_record keeps_spl_mint_and_owner keeps_receiver_token_account
  keeps_require_upgrade_authority keeps_fund_rent keeps_grow keeps_create_pda keeps_create_marker
  keeps_create_sent_record keeps_bind_vault : keeps.
