(* ===== verification/GateVerify.v ===== *)
(** Threshold signature verification and validator-set rules of the Solana gate
    (crates/solana-gate/src/lib.rs), with the abstract quorum they implement. *)

From Stdlib Require Import Sorting.Sorted.
From S2P Require Import Prelude.
From S2P Require Import SolanaRuntime.
From S2P Require Import GateTypes.
From S2P Require Import GateHash.
From S2P Require Import GateState.

Section GateVerify.
Context {RT : Runtime} {GB : GateBorsh}.

(** * Validator sets *)

Definition check_threshold_cap (threshold : Z) : result program_error unit :=
  if MAX_THRESHOLD <? threshold then Err (gate_err ThresholdTooHigh) else Ok tt.

(** The loop body over [validators.iter().enumerate()]; [seen] is [validators[..i]]. *)
Fixpoint check_validators (seen l : list evm_address) : result program_error unit :=
  match l with
  | [] => Ok tt
  | v :: l =>
      _ ← require (negb (bool_decide (v = arr_zero 20))) (gate_err ZeroValidator);
      _ ← require (negb (existsb (fun x => bool_decide (x = v)) seen)) (gate_err DuplicateValidator);
      check_validators (seen ++ [v]) l
  end.
Definition validate_validator_set (validators : list evm_address) (threshold : Z)
    : result program_error unit :=
  _ ← require (negb ((threshold =? 0) || (as_u 32 (len validators) <? threshold))) InvalidArgument;
  _ ← check_threshold_cap threshold;
  check_validators [] validators.

Definition validate_init_chain_id (chain_id : Z) : result program_error unit :=
  require (negb (chain_id =? 0)) InvalidArgument.

(** * Signatures *)

Lemma length_drop12 (h : hash32) : length (drop 12 h) = 20%nat.
Proof. by rewrite length_drop, length_arr. Qed.
(** [h[12..]] *)
Definition address_of_hash (h : hash32) : evm_address :=
  Arr (drop 12 h) (bool_decide_pack _ (length_drop12 h)).

Definition recover_evm_address (digest : hash32) (sig65 : list byte) : result GateError evm_address :=
  _ ← require (bool_decide (length sig65 = 65%nat)) BadSignature;
  let v := Z_of_byte (nth 64 sig65 Byte.x00) in
  _ ← require ((v =? 27) || (v =? 28)) BadSignature;
  pubkey ← ok_or (secp256k1_recover digest (v - 27) (take 64 sig65)) BadSignature;
  Ok (address_of_hash (hashv [pubkey])).

(** The loop over the signatures: [last] is the previous signer, [count] the
    validators seen so far. *)
Fixpoint verify_loop (c : Config) (digest : hash32) (sigs : list (list byte)) (last : evm_address)
    (count : Z) : result GateError Z :=
  match sigs with
  | [] => Ok count
  | sig :: sigs =>
      signer ← recover_evm_address digest sig;
      _ ← require (negb (bytes_leb signer last)) InvalidSignerOrder;
      verify_loop c digest sigs signer (if is_validator c signer then count + 1 else count)
  end.

Definition verify_threshold (c : Config) (id : hash32) (signatures : list (list byte))
    : result GateError unit :=
  _ ← require (negb (len (cfg_validators c) <? len signatures)) TooManySignatures;
  let digest := eth_signed_digest id in
  count ← verify_loop c digest signatures (arr_zero 20) 0;
  require (negb (count <? cfg_threshold c)) NotEnoughSignatures.

(** * The quorum a successful verification witnesses *)

Definition addr_lt (a b : evm_address) : Prop := bytes_lt a b.
Lemma addr_lt_trans a b c : addr_lt a b -> addr_lt b c -> addr_lt a c.
Proof. apply (transitivity (R := bytes_lt)). Qed.

(** [signers] are the keys behind [signatures] over [id], pairwise distinct, in
    ascending order, none of them the zero address. *)
Definition signed_by (id : hash32) (signatures : list (list byte)) (signers : list evm_address) : Prop :=
  Forall2 (fun sig a => recover_evm_address (eth_signed_digest id) sig = Ok a) signatures signers /\
  StronglySorted addr_lt (arr_zero 20 :: signers).

Definition validators_among (c : Config) (signers : list evm_address) : list evm_address :=
  List.filter (is_validator c) signers.

Definition quorum (c : Config) (id : hash32) (signatures : list (list byte)) : Prop :=
  exists signers, signed_by id signatures signers /\
    len signatures <= len (cfg_validators c) /\
    cfg_threshold c <= len (validators_among c signers).

Lemma is_validator_iff c a : is_validator c a = true <-> a ∈ cfg_validators c.
Proof.
  unfold is_validator. rewrite existsb_exists. setoid_rewrite <- list_elem_of_In.
  setoid_rewrite bool_decide_eq_true. naive_solver.
Qed.

Lemma verify_loop_spec c digest sigs last count n :
  verify_loop c digest sigs last count = Ok n <->
  exists signers,
    Forall2 (fun sig a => recover_evm_address digest sig = Ok a) sigs signers /\
    Sorted addr_lt (last :: signers) /\
    n = count + len (validators_among c signers).
Proof.
  revert last count. induction sigs as [|sig sigs IH]; intros last count; simpl.
  - split.
    + intros [= <-]. exists []. split_and!; [constructor|repeat constructor|unfold len; simpl; lia].
    + intros (signers & HF & _ & ->). inversion HF; subst. unfold len. simpl. f_equal. lia.
  - rewrite result_bind_Ok. split.
    + intros (a & Ha & (u & Hu%require_Ok & Hl)%result_bind_Ok). bool_inv.
      apply IH in Hl as (signers & HF & HS & ->). exists (a :: signers). split_and!.
      * by constructor.
      * constructor; [done|]. by constructor.
      * unfold validators_among, len. simpl. destruct (is_validator c a); simpl; lia.
    + intros (signers & HF & HS & ->). inversion HF as [|x a l signers' Ha HF']; subst.
      inversion HS as [|? ? HS' Hhd]; subst. inversion Hhd as [|? ? Hlt]; subst.
      exists a. split; [done|]. apply result_bind_Ok. exists tt. split.
      * apply require_Ok, negb_true_iff. exact Hlt.
      * apply IH. exists signers'. split_and!; [done..|].
        unfold validators_among, len. simpl. destruct (is_validator c a); simpl; lia.
Qed.

Lemma verify_threshold_Ok c id sigs u : verify_threshold c id sigs = Ok u <-> quorum c id sigs.
Proof.
  unfold verify_threshold, quorum, signed_by. split.
  - intros Hv. prog_inv_all. bool_inv.
    match goal with Hl : verify_loop _ _ _ _ _ = Ok _ |- _ =>
      apply verify_loop_spec in Hl as (signers & HF & HS & ->) end.
    exists signers. split_and!; [done|by apply Sorted_StronglySorted; [exact addr_lt_trans|]|lia|lia].
  - intros (signers & [HF HS] & Hlen & Hth). apply result_bind_Ok. exists tt. split.
    { apply require_Ok, negb_true_iff, Z.ltb_ge. done. }
    apply result_bind_Ok. eexists. split.
    { apply verify_loop_spec. exists signers. split_and!; [done|by apply StronglySorted_Sorted|done]. }
    destruct u. apply require_Ok, negb_true_iff, Z.ltb_ge. lia.
Qed.

Lemma sorted_NoDup (l : list evm_address) :
  StronglySorted addr_lt l -> NoDup l.
Proof.
  induction 1 as [|a l HS IH HF]; constructor; [|done].
  intros Hin. rewrite Forall_forall in HF. exact (irreflexivity bytes_lt _ (HF _ Hin)).
Qed.

(** [n] distinct validators of [c], none the zero address, each signed [id]. *)
Definition voted (c : Config) (id : hash32) (sigs : list (list byte)) (n : Z) : Prop :=
  exists voters, NoDup voters /\ n <= len voters /\ voters ⊆ cfg_validators c /\
    arr_zero 20 ∉ voters /\
    forall a, a ∈ voters -> exists sig, sig ∈ sigs /\
      recover_evm_address (eth_signed_digest id) sig = Ok a.

Lemma quorum_voted c id sigs : quorum c id sigs -> voted c id sigs (cfg_threshold c).
Proof.
  intros (signers & [HF HS] & _ & Hth).
  apply sorted_NoDup in HS as [Hz Hnd]%NoDup_cons.
  assert (forall a, a ∈ validators_among c signers <-> a ∈ signers /\ is_validator c a = true) as Hin.
  { intros a. unfold validators_among. rewrite !list_elem_of_In. apply filter_In. }
  exists (validators_among c signers). split_and!.
  - apply NoDup_ListNoDup, List.NoDup_filter, NoDup_ListNoDup. done.
  - done.
  - intros a [_ Hv]%Hin. by apply is_validator_iff.
  - intros [Hbad _]%Hin. done.
  - intros a [[i Hi]%list_elem_of_lookup _]%Hin.
    destruct (Forall2_lookup_r _ _ _ _ _ HF Hi) as (sig & Hsig & Hrec).
    exists sig. split; [by eapply list_elem_of_lookup_2|done].
Qed.

(** C2. Signature verification implements the quorum: [verify_threshold] accepts
    exactly when the signatures are by strictly ascending non-zero signers, no
    more of them than validators, with at least [threshold] validators among
    them; it does not itself ask for a threshold above zero (a configuration
    with one is an invariant of the gate, [config_inv]). Those validators are pairwise distinct, so no key is ever counted
    twice, and each one produced one of the submitted signatures over the EIP-191
    digest of this very id. *)
Theorem verify_threshold_quorum c id sigs :
  (verify_threshold c id sigs = Ok tt <-> quorum c id sigs) /\
  (verify_threshold c id sigs = Ok tt -> voted c id sigs (cfg_threshold c)).
Proof.
  split; [apply verify_threshold_Ok|]. intros Hv. by apply quorum_voted, (verify_threshold_Ok _ _ _ tt).
Qed.

(** * Validator sets accepted at initialization *)

Lemma existsb_seen v (seen : list evm_address) :
  existsb (fun x => bool_decide (x = v)) seen = false <-> v ∉ seen.
Proof.
  rewrite <- not_true_iff_false, existsb_exists. setoid_rewrite <- list_elem_of_In.
  setoid_rewrite bool_decide_eq_true. naive_solver.
Qed.

Lemma check_validators_Ok seen l u :
  check_validators seen l = Ok u <-> (NoDup l /\ arr_zero 20 ∉ l /\ (forall a, a ∈ l -> a ∉ seen)).
Proof.
  revert seen. induction l as [|v l IH]; intros seen; simpl.
  - destruct u. split; [intros _; split_and!; [constructor|set_solver..]|done].
  - rewrite NoDup_cons, not_elem_of_cons. split.
    + intros Hc. prog_inv Hc. bool_inv. apply IH in Hc as (Hnd & Hz & Hnew).
      match goal with Hs : existsb _ _ = false |- _ => apply existsb_seen in Hs end.
      set_solver.
    + intros ([Hv Hnd] & [Hz1 Hz2] & Hnew). apply result_bind_Ok. exists tt. split.
      { apply require_Ok. by rewrite bool_decide_eq_false_2. }
      apply result_bind_Ok. exists tt. split.
      { apply require_Ok, negb_true_iff, existsb_seen. set_solver. }
      apply IH. set_solver.
Qed.

Lemma validate_validator_set_Ok vs t u : is_u 32 (len vs) ->
  validate_validator_set vs t = Ok u <->
  t <> 0 /\ t <= len vs /\ t <= MAX_THRESHOLD /\ NoDup vs /\ arr_zero 20 ∉ vs.
Proof.
  intros Hlen. unfold validate_validator_set, check_threshold_cap. rewrite as_u_small by done. split.
  - intros Hv. prog_inv Hv. prog_inv_all. bool_inv.
    apply check_validators_Ok in Hv as (? & ? & _).
    destruct (Z.ltb_spec MAX_THRESHOLD t); [discriminate|]. auto.
  - intros (H1 & H2 & H3 & H4 & H5). apply result_bind_Ok. exists tt. split.
    { apply require_Ok. destruct (Z.eqb_spec t 0), (Z.ltb_spec (len vs) t); lia || done. }
    apply result_bind_Ok. exists tt. split; [destruct (Z.ltb_spec MAX_THRESHOLD t); lia || done|].
    apply check_validators_Ok. set_solver.
Qed.
End GateVerify.
