(* ===== verification/HostVerify.v ===== *)
(** Validator signatures on the host side: crates/bridge-solana/src/verify.rs
    (recovery, the quorum check and the re-encoding to low-[s]) and the relayer's
    choice of the signatures it submits (solana-relayer/src/gate.rs
    [recovered_address], src/target.rs [ordered_signatures]), with the proof that
    what it submits is exactly what the gate accepts. *)

From S2P Require Import Prelude.
From S2P Require Import SolanaRuntime.
From S2P Require Import GateTypes.
From S2P Require Import GateState.
From S2P Require Import GateVerify.
From S2P Require Import ListSort.
From S2P Require GateHash.
From Stdlib Require Import Sorting.Sorted.

(** * Big-endian byte strings as numbers *)

Lemma Z_of_le_app l k : Z_of_le (l ++ k) = Z_of_le l + 256 ^ len l * Z_of_le k.
Proof.
  induction l as [|b l IH]; simpl.
  { change (len (@nil byte)) with 0. rewrite Z.pow_0_r. lia. }
  rewrite IH. unfold len. simpl. rewrite Nat2Z.inj_succ, Z.pow_succ_r by lia. lia.
Qed.
Lemma Z_of_be_cons b l : Z_of_be (b :: l) = Z_of_byte b * 256 ^ len l + Z_of_be l.
Proof.
  unfold Z_of_be. rewrite reverse_cons, Z_of_le_app. unfold len. rewrite length_reverse. simpl. lia.
Qed.
Lemma Z_of_be_range l : 0 <= Z_of_be l < 256 ^ len l.
Proof. unfold Z_of_be, len. pose proof (Z_of_le_range (reverse l)) as H. by rewrite length_reverse in H. Qed.
(** The lexicographic order of equally long strings is the numeric one. *)
Lemma bytes_leb_be x y : length x = length y -> bytes_leb x y = (Z_of_be x <=? Z_of_be y).
Proof.
  revert y. induction x as [|a x IH]; intros [|b y]; try done. intros [= Hl].
  cbn [bytes_leb]. rewrite !Z_of_be_cons. assert (len x = len y) as El by (unfold len; by rewrite Hl).
  rewrite El. pose proof (Z_of_be_range x) as Hx. rewrite El in Hx. pose proof (Z_of_be_range y).
  destruct (Z.ltb_spec (Z_of_byte a) (Z_of_byte b)); [symmetry; apply Z.leb_le; nia|].
  destruct (Z.ltb_spec (Z_of_byte b) (Z_of_byte a)); [symmetry; apply Z.leb_gt; nia|].
  rewrite IH by done. replace (Z_of_byte a) with (Z_of_byte b) by lia.
  destruct (Z.leb_spec (Z_of_be x) (Z_of_be y)); symmetry; [apply Z.leb_le|apply Z.leb_gt]; lia.
Qed.

(** * The canonical form of a signature *)

Definition SECP256K1_N : list byte :=
  [Byte.xff; Byte.xff; Byte.xff; Byte.xff; Byte.xff; Byte.xff; Byte.xff; Byte.xff;
   Byte.xff; Byte.xff; Byte.xff; Byte.xff; Byte.xff; Byte.xff; Byte.xff; Byte.xfe;
   Byte.xba; Byte.xae; Byte.xdc; Byte.xe6; Byte.xaf; Byte.x48; Byte.xa0; Byte.x3b;
   Byte.xbf; Byte.xd2; Byte.x5e; Byte.x8c; Byte.xd0; Byte.x36; Byte.x41; Byte.x41].
Definition secp_n : Z := Z_of_be SECP256K1_N.

(** The loop that halves the order, most significant byte first. *)
Fixpoint half_loop (carry : Z) (l : list byte) : list byte :=
  match l with
  | [] => []
  | b :: l =>
      byte_of_Z (Z.lor (Z.shiftr (Z_of_byte b) 1) (as_u 8 (Z.shiftl carry 7))) ::
      half_loop (Z.land (Z_of_byte b) 1) l
  end.
Definition is_high_s (s : list byte) : bool := negb (bytes_leb s (half_loop 0 SECP256K1_N)).

(** The borrowing subtraction [n - s], least significant byte first. *)
Fixpoint sub_loop (n s : list byte) (borrow : Z) : list byte :=
  match n, s with
  | a :: n, b :: s =>
      let diff := Z_of_byte a - Z_of_byte b - borrow in
      if diff <? 0 then byte_of_Z (diff + 256) :: sub_loop n s 1
      else byte_of_Z diff :: sub_loop n s 0
  | _, _ => []
  end.

Definition sig_r (sig : list byte) : list byte := take 32 sig.
Definition sig_s (sig : list byte) : list byte := take 32 (drop 32 sig).
Definition sig_v (sig : list byte) : Z := Z_of_byte (nth 64 sig Byte.x00).

Definition canonical_signature (sig65 : list byte) : option (list byte) :=
  if negb (bool_decide (length sig65 = 65%nat)) then None
  else
    v ← (if (sig_v sig65 =? 0) || (sig_v sig65 =? 27) then Some 27
         else if (sig_v sig65 =? 1) || (sig_v sig65 =? 28) then Some 28 else None);
    let s := sig_s sig65 in
    if is_high_s s then
      let low := reverse (sub_loop (reverse SECP256K1_N) (reverse s) 0) in
      Some (sig_r sig65 ++ low ++ [byte_of_Z (if v =? 27 then 28 else 27)])
    else Some (take 64 sig65 ++ [byte_of_Z v]).

Lemma half_order : half_loop 0 SECP256K1_N = be_bytes 32 (secp_n / 2).
Proof. vm_compute. reflexivity. Qed.
Lemma secp_n_value : secp_n = 2 ^ 256 - 432420386565659656852420866394968145599.
Proof. vm_compute. reflexivity. Qed.

Lemma is_high_s_spec s : length s = 32%nat -> is_high_s s = (secp_n / 2 <? Z_of_be s).
Proof.
  intros Hs. unfold is_high_s. rewrite half_order, bytes_leb_be by (by rewrite length_be_bytes).
  rewrite Z_of_be_bytes, Z.mod_small by (vm_compute; split; [discriminate|done]).
  rewrite Z.ltb_antisym. done.
Qed.

Lemma length_sub_loop n s b : length n = length s -> length (sub_loop n s b) = length n.
Proof.
  revert s b. induction n as [|a n IH]; intros [|c s] b; try done. intros [= Hl].
  cbn [sub_loop]. destruct (_ <? 0); simpl; by rewrite IH.
Qed.
(** One digit of a base-256 subtraction. *)
Lemma digit_sub x y m : 0 <= x < 256 -> 0 < m -> (x + 256 * y) mod (256 * m) = x + 256 * (y mod m).
Proof.
  intros Hx Hm. rewrite Z.rem_mul_r by lia. rewrite (Z.mul_comm 256 y), Z.mod_add, Z.div_add by lia.
  rewrite (Z.mod_small x), (Z.div_small x) by lia. done.
Qed.
Lemma sub_loop_spec n s b : length n = length s -> 0 <= b <= 1 ->
  Z_of_le (sub_loop n s b) = (Z_of_le n - Z_of_le s - b) mod 256 ^ len n.
Proof.
  revert s b. induction n as [|a n IH]; intros [|c s] b; try done.
  { intros _ _. change (len []) with 0. rewrite Z.pow_0_r, Z.mod_1_r. done. }
  intros [= Hl] Hb. cbn [sub_loop Z_of_le]. unfold len. cbn [length].
  rewrite Nat2Z.inj_succ, Z.pow_succ_r by lia. fold (len n).
  pose proof (Z_of_byte_range a). pose proof (Z_of_byte_range c).
  assert (0 < 256 ^ len n) by (apply Z.pow_pos_nonneg; unfold len; lia).
  destruct (Z.ltb_spec (Z_of_byte a - Z_of_byte c - b) 0); cbn [Z_of_le];
    rewrite IH, Z_of_byte_of_Z, Z.mod_small by (done || lia); rewrite <- digit_sub by lia; f_equal; lia.
Qed.

(** The parity bit a recovery byte stands for, in either encoding. *)
Definition parity (v : Z) : option bool :=
  if (v =? 0) || (v =? 27) then Some false
  else if (v =? 1) || (v =? 28) then Some true else None.
Definition v_of (odd : bool) : Z := if odd then 28 else 27.

Lemma sig_parts sig : length sig = 65%nat ->
  sig = sig_r sig ++ sig_s sig ++ [byte_of_Z (sig_v sig)] /\ length (sig_r sig) = 32%nat /\
  length (sig_s sig) = 32%nat.
Proof.
  intros Hl. unfold sig_r, sig_s, sig_v. rewrite byte_of_Z_of_byte.
  rewrite !length_take, length_drop, Hl. split_and!; [|done|done].
  rewrite <- (take_drop 32 sig) at 1. f_equal. rewrite <- (take_drop 32 (drop 32 sig)) at 1. f_equal.
  rewrite drop_drop. simpl.
  destruct (drop 64 sig) as [|b [|]] eqn:E; apply (f_equal length) in E as El; rewrite length_drop, Hl in El; try done.
  f_equal. rewrite <- (take_drop 64 sig) at 1. rewrite E, app_nth2 by (rewrite length_take, Hl; simpl; lia).
  by rewrite length_take, Hl.
Qed.
Lemma sig_build r s v : length r = 32%nat -> length s = 32%nat -> 0 <= v < 256 ->
  let sig := r ++ s ++ [byte_of_Z v] in
  length sig = 65%nat /\ sig_r sig = r /\ sig_s sig = s /\ sig_v sig = v /\ take 64 sig = r ++ s.
Proof.
  intros Hr Hs Hv sig. unfold sig, sig_r, sig_s, sig_v. split_and!.
  - rewrite !length_app, Hr, Hs. done.
  - by rewrite take_app_length'.
  - rewrite drop_app_length' by done. by rewrite take_app_length'.
  - rewrite app_assoc, app_nth2 by (rewrite length_app, Hr, Hs; simpl; lia).
    rewrite length_app, Hr, Hs. simpl. rewrite Z_of_byte_of_Z. by rewrite Z.mod_small.
  - rewrite app_assoc, take_app_length' by (by rewrite length_app, Hr, Hs). done.
Qed.

(** The canonical form: same [r], and either the same [s] and parity or, when [s]
    is above half the order, its negation with the parity flipped. *)
Definition canonical_of (sig out : list byte) (odd : bool) : Prop :=
  length out = 65%nat /\ sig_r out = sig_r sig /\ length (sig_s out) = 32%nat /\
  if secp_n / 2 <? Z_of_be (sig_s sig)
  then Z_of_be (sig_s out) = (secp_n - Z_of_be (sig_s sig)) mod 2 ^ 256 /\ sig_v out = v_of (negb odd)
  else sig_s out = sig_s sig /\ sig_v out = v_of odd.

Lemma canonical_signature_spec sig : length sig = 65%nat ->
  match parity (sig_v sig) with
  | None => canonical_signature sig = None
  | Some odd => exists out, canonical_signature sig = Some out /\ canonical_of sig out odd
  end.
Proof.
  intros Hl. destruct (sig_parts sig Hl) as (E & Hr & Hs).
  unfold canonical_signature, parity. rewrite (bool_decide_eq_true_2 _ Hl). cbn [negb].
  rewrite (is_high_s_spec _ Hs).
  assert (forall b : bool, 0 <= (if b then 28 else 27) < 256) as Hv by (intros []; lia).
  assert (take 64 sig = sig_r sig ++ sig_s sig) as H64.
  { rewrite E at 1. by apply sig_build; [..|apply Z_of_byte_range]. }
  assert (forall odd, exists out,
    (if secp_n / 2 <? Z_of_be (sig_s sig)
     then Some (sig_r sig ++ reverse (sub_loop (reverse SECP256K1_N) (reverse (sig_s sig)) 0) ++
                [byte_of_Z (if v_of odd =? 27 then 28 else 27)])
     else Some (take 64 sig ++ [byte_of_Z (v_of odd)])) = Some out /\ canonical_of sig out odd) as Hout.
  { intros odd. unfold canonical_of. destruct (secp_n / 2 <? Z_of_be (sig_s sig)).
    - eexists; split; [done|]. set (low := reverse _).
      assert (length low = 32%nat) as Hlow.
      { unfold low. by rewrite length_reverse, length_sub_loop by (by rewrite !length_reverse, Hs). }
      replace (if v_of odd =? 27 then 28 else 27) with (v_of (negb odd)) by (by destruct odd).
      destruct (sig_build (sig_r sig) low (v_of (negb odd))) as (H1 & H2 & H3 & H4 & _); [done..|by destruct odd|].
      rewrite H2, H3, H4. split_and!; try done.
      unfold low, Z_of_be. rewrite reverse_involutive, sub_loop_spec by (rewrite ?length_reverse; done || lia).
      rewrite Z.sub_0_r. done.
    - rewrite H64, <- app_assoc. eexists; split; [done|].
      destruct (sig_build (sig_r sig) (sig_s sig) (v_of odd)) as (H1 & H2 & H3 & H4 & _); [done..|by destruct odd|].
      rewrite H2, H3, H4. split_and!; done. }
  destruct ((_ =? 0) || _); [exact (Hout false)|]. destruct ((_ =? 1) || _); [exact (Hout true)|done].
Qed.

(** * Recovery and the quorum check (verify.rs) *)

(** Public key recovery of the two host libraries, from a digest, a recovery id and
    the 64 bytes [r || s]: the 64 bytes [X || Y] of the key. *)
Class HostCrypto := {
  k256_recover : hash32 -> Z -> list byte -> option (list byte);
  libsecp_recover : hash32 -> Z -> list byte -> option (list byte);
}.

(** Both libraries refuse a scalar that is not below the group order, and on a
    low-[s] signature all three implementations of ECDSA recovery agree. *)
Class HostCryptoLaws `{Runtime, HostCrypto} : Prop := {
  k256_overflow : forall d r sig pk, k256_recover d r sig = Some pk -> Z_of_be (drop 32 sig) < secp_n;
  libsecp_overflow : forall d r sig pk, libsecp_recover d r sig = Some pk -> Z_of_be (drop 32 sig) < secp_n;
  k256_agrees : forall d r sig, length sig = 64%nat -> r = 0 \/ r = 1 ->
    Z_of_be (drop 32 sig) <= secp_n / 2 -> k256_recover d r sig = secp256k1_recover d r sig;
  libsecp_agrees : forall d r sig, length sig = 64%nat -> r = 0 \/ r = 1 ->
    Z_of_be (drop 32 sig) <= secp_n / 2 -> libsecp_recover d r sig = secp256k1_recover d r sig;
}.

Inductive VerifyError :=
  | BadLength
  | BadRecoveryId (v : Z)
  | Unrecoverable
  | HostInvalidSignerOrder
  | HostNotEnoughSignatures (got want : Z).

Section HostVerify.
Context {RT : Runtime} {HC : HostCrypto}.

Definition eth_signed_digest (submission_id : hash32) : hash32 :=
  keccak (GateHash.eth_message_prefix ++ arr_bytes submission_id).

(** [keccak(pubkey)[12..]] *)
Definition address_of (pubkey : list byte) : evm_address := address_of_hash (keccak pubkey).

Definition host_recover_evm_address (digest : hash32) (sig65 : list byte) : result VerifyError evm_address :=
  _ ← require (bool_decide (length sig65 = 65%nat)) BadLength;
  let v := sig_v sig65 in
  _ ← require ((v =? 27) || (v =? 28)) (BadRecoveryId v);
  pubkey ← ok_or (k256_recover digest (v - 27) (take 64 sig65)) Unrecoverable;
  Ok (address_of pubkey).

Fixpoint host_verify_loop (is_validator : evm_address -> bool) (digest : hash32)
    (signatures : list (list byte)) (last : evm_address) (count : Z) : result VerifyError Z :=
  match signatures with
  | [] => Ok count
  | sig :: signatures =>
      signer ← host_recover_evm_address digest sig;
      _ ← require (negb (bytes_leb signer last)) HostInvalidSignerOrder;
      host_verify_loop is_validator digest signatures signer
        (if is_validator signer then count + 1 else count)
  end.
Definition host_verify_threshold (submission_id : hash32) (signatures : list (list byte))
    (is_validator : evm_address -> bool) (threshold : Z) : result VerifyError Z :=
  let digest := eth_signed_digest submission_id in
  count ← host_verify_loop is_validator digest signatures (arr_zero 20) 0;
  _ ← require (negb (count <? threshold)) (HostNotEnoughSignatures count threshold);
  Ok count.

(** * What the relayer submits (gate.rs, target.rs) *)

Record GateConfig := MkGateConfig {
  gc_validators : list evm_address;
  gc_threshold : Z;  (* u32 *)
  gc_bridge_domain : hash32;
}.

(** [decode_gate_config], past the Borsh decoding: an empty validator set is refused. *)
Definition gate_config_of (c : Config) : option GateConfig :=
  if bool_decide (cfg_validators c = []) then None
  else Some (MkGateConfig (cfg_validators c) (cfg_threshold c) (cfg_bridge_domain c)).

(** [RecoveryId::parse] accepts 0..3. *)
Definition recovered_address (digest : hash32) (sig65 : list byte) : option evm_address :=
  if negb (bool_decide (length sig65 = 65%nat)) then None
  else
    recid ← checked_sub 8 (sig_v sig65) 27;
    if recid <? 4 then address_of <$> libsecp_recover digest recid (take 64 sig65) else None.

Definition filter_map {A B} (f : A -> option B) (l : list A) : list B :=
  concat (map (fun x => match f x with Some y => [y] | None => [] end) l).

Definition ordered_signatures (digest_input : hash32) (raw : list (list byte)) (cfg : GateConfig)
    : list (list byte) :=
  let digest := eth_signed_digest digest_input in
  let with_addr := filter_map canonical_signature raw in
  let with_addr := filter_map (fun s => (fun a => (a, s)) <$> recovered_address digest s) with_addr in
  let with_addr := List.filter (fun '(a, _) => bool_decide (a ∈ gc_validators cfg)) with_addr in
  let with_addr := sort_by_key fst (fun a b : evm_address => bytes_leb a b) with_addr in
  let with_addr := dedup_by_key fst with_addr in
  let with_addr := take (Z.to_nat (Z.min (gc_threshold cfg) (len (gc_validators cfg)))) with_addr in
  map snd with_addr.

(** [compute_budget_for] *)
Definition compute_budget_for (validators : Z) : Z :=
  Z.min (saturating_add 32 120000 (Z.min (u_max 32) (30000 * as_u 32 validators))) 1400000.

(** The validators of [c] behind the stored signatures, in whatever encoding and
    order they were stored. *)
Definition backs (digest_input : hash32) (raw : list (list byte)) (a : evm_address) : bool :=
  existsb (fun s => bool_decide ((c ← canonical_signature s; recovered_address (eth_signed_digest digest_input) c)
                                 = Some a)) raw.
Definition backers (digest_input : hash32) (raw : list (list byte)) (c : Config) : list evm_address :=
  List.filter (backs digest_input raw) (cfg_validators c).
End HostVerify.

Section Agreement.
Context {RT : Runtime} {HC : HostCrypto} {HL : HostCryptoLaws}.

Lemma eth_digest_same id : eth_signed_digest id = GateHash.eth_signed_digest id.
Proof. unfold eth_signed_digest, GateHash.eth_signed_digest, hashv. simpl. by rewrite app_nil_r. Qed.

Lemma canonical_length sig out : canonical_signature sig = Some out -> length sig = 65%nat.
Proof. unfold canonical_signature. case_bool_decide; [done|]. done. Qed.
Lemma canonical_of_signature sig out : canonical_signature sig = Some out ->
  exists odd, canonical_of sig out odd.
Proof.
  intros Hc. pose proof (canonical_length _ _ Hc) as Hl. pose proof (canonical_signature_spec sig Hl) as Hs.
  destruct (parity _) as [odd|]; [|congruence]. destruct Hs as (out' & E & Ho). exists odd. congruence.
Qed.
(** A canonical signature below the group order has a low [s] and a legal [v]. *)
Lemma canonical_low sig out odd : canonical_of sig out odd -> length (sig_s sig) = 32%nat ->
  Z_of_be (sig_s out) < secp_n ->
  Z_of_be (sig_s out) <= secp_n / 2 /\ exists b, sig_v out = v_of b.
Proof.
  intros (_ & _ & _ & Ho) Hl Hn. pose proof (Z_of_be_range (sig_s sig)) as Hr.
  unfold len in Hr. rewrite Hl in Hr. change (256 ^ Z.of_nat 32) with (2 ^ 256) in Hr.
  assert (secp_n = 2 * (secp_n / 2) + 1) as Eodd by (vm_compute; done).
  assert (0 < secp_n < 2 ^ 256) as Hrange by (rewrite secp_n_value; lia).
  destruct (Z.ltb_spec (secp_n / 2) (Z_of_be (sig_s sig))) as [Hh|Hh].
  - destruct Ho as [Es Ev]. split; [|by eexists]. destruct (Z.le_gt_cases (Z_of_be (sig_s sig)) secp_n) as [Hle|Hgt].
    + rewrite Z.mod_small in Es by lia. lia.
    + rewrite <- (Z.mod_add _ 1) in Es by lia. rewrite Z.mod_small in Es by lia. lia.
  - destruct Ho as [-> Ev]. split; [done|by eexists].
Qed.

(** On a canonical signature the host and the program recover the same address. *)
Lemma recovered_on_chain digest sig out a : canonical_signature sig = Some out ->
  recovered_address digest out = Some a -> recover_evm_address digest out = Ok a.
Proof.
  intros Hc Hr. pose proof (canonical_length _ _ Hc) as Hl.
  destruct (canonical_of_signature _ _ Hc) as [odd Ho].
  unfold recovered_address in Hr. destruct (decide (length out = 65%nat)) as [Ho65|];
    [rewrite (bool_decide_eq_true_2 _ Ho65) in Hr|by rewrite bool_decide_eq_false_2 in Hr].
  cbn [negb] in Hr. apply bind_Some in Hr as (r & Hr & Hk). destruct (r <? 4); [|done].
  apply fmap_Some in Hk as (pk & Hk & ->). apply u_checked_Some in Hr as [-> _].
  assert (drop 32 (take 64 out) = sig_s out) as Es by (unfold sig_s; by rewrite take_drop_commute).
  pose proof (libsecp_overflow _ _ _ _ Hk) as Hn. rewrite Es in Hn.
  destruct (canonical_low sig out odd Ho) as [Hlow [b Hv]]; [by apply sig_parts|done|].
  unfold recover_evm_address. rewrite (bool_decide_eq_true_2 _ Ho65). unfold mbind, result_bind. cbn [require].
  fold (sig_v out). rewrite Hv in *.
  rewrite libsecp_agrees in Hk; [|by rewrite length_take, Ho65|destruct b; auto|by rewrite Es].
  assert ((v_of b =? 27) || (v_of b =? 28) = true) as -> by (by destruct b). cbn [require].
  rewrite Hk. cbn [ok_or]. unfold address_of, hashv. simpl. by rewrite app_nil_r.
Qed.

Lemma elem_of_filter_map {A B} (f : A -> option B) l y : y ∈ filter_map f l <-> exists x, x ∈ l /\ f x = Some y.
Proof.
  unfold filter_map. rewrite list_elem_of_In, in_concat. setoid_rewrite in_map_iff. split.
  - intros (? & (x & <- & Hx) & Hy). exists x. apply list_elem_of_In in Hx.
    destruct (f x); [|done]. destruct Hy as [->|[]]. done.
  - intros (x & Hx & E). exists [y]. split; [|by left]. exists x. rewrite E. split; [done|by apply list_elem_of_In].
Qed.

(** The list the relayer picks from, before ordering. *)
Definition candidates (digest_input : hash32) (raw : list (list byte)) (vs : list evm_address)
    : list (evm_address * list byte) :=
  List.filter (fun '(a, _) => bool_decide (a ∈ vs))
    (filter_map (fun s => (fun a => (a, s)) <$> recovered_address (eth_signed_digest digest_input) s)
       (filter_map canonical_signature raw)).
Lemma elem_of_candidates id raw vs a s : (a, s) ∈ candidates id raw vs <->
  a ∈ vs /\ exists r, r ∈ raw /\ canonical_signature r = Some s /\
    recovered_address (eth_signed_digest id) s = Some a.
Proof.
  unfold candidates. rewrite list_elem_of_In, filter_In, <- list_elem_of_In, bool_decide_eq_true.
  rewrite elem_of_filter_map. setoid_rewrite elem_of_filter_map. setoid_rewrite fmap_Some. naive_solver.
Qed.
Lemma backs_spec id raw a : backs id raw a = true <-> exists r s, r ∈ raw /\ canonical_signature r = Some s /\
  recovered_address (eth_signed_digest id) s = Some a.
Proof.
  unfold backs. rewrite existsb_exists. setoid_rewrite bool_decide_eq_true. setoid_rewrite bind_Some.
  setoid_rewrite <- list_elem_of_In. naive_solver.
Qed.
End Agreement.

Section Quorum.
Context {RT : Runtime} {HC : HostCrypto} {HL : HostCryptoLaws}.
Variables (id : hash32) (raw : list (list byte)) (c : Config).
Hypothesis distinct : NoDup (cfg_validators c).
Hypothesis nonzero : arr_zero 20 ∉ cfg_validators c.

Abbreviation addr_leb := (fun a b : evm_address => bytes_leb a b).
Definition chosen : list (evm_address * list byte) :=
  dedup_by_key fst (sort_by_key fst addr_leb (candidates id raw (cfg_validators c))).

Lemma chosen_spec :
  StronglySorted (key_lt fst addr_leb) chosen /\
  (forall x, x ∈ chosen -> x ∈ candidates id raw (cfg_validators c)) /\
  (forall x, x ∈ candidates id raw (cfg_validators c) -> exists y, y ∈ chosen /\ fst y = fst x).
Proof.
  apply dedup_sort_spec.
  - intros x y. apply bytes_leb_total.
  - intros x y z. apply bytes_leb_trans.
  - intros x y H1 H2. by apply arr_eq, bytes_leb_antisym.
Qed.

Lemma chosen_sorted n : StronglySorted addr_lt (arr_zero 20 :: map fst (take n chosen)).
Proof.
  destruct chosen_spec as (Hs & Hin & _).
  assert (forall x, x ∈ chosen -> fst x ∈ cfg_validators c) as Hv.
  { intros [a s] Hx%Hin%elem_of_candidates. apply Hx. }
  constructor.
  - revert Hs. clear. generalize chosen. revert n. induction n as [|n IH]; intros [|x l] Hs; simpl; try constructor.
    + inversion Hs; subst. by apply IH.
    + inversion Hs as [|? ? _ Hf]; subst. apply Forall_forall. intros y Hy.
      apply list_elem_of_In, in_map_iff in Hy as (z & <- & Hz). apply list_elem_of_In, elem_of_take in Hz as (i & Hz & _).
      eapply Forall_lookup_1 in Hf; [|exact Hz]. exact Hf.
  - apply Forall_forall. intros y Hy. apply list_elem_of_In, in_map_iff in Hy as (z & <- & Hz).
    apply list_elem_of_In, elem_of_take in Hz as (i & Hz & _). apply list_elem_of_lookup_2, Hv in Hz.
    unfold addr_lt, bytes_lt. destruct (bytes_leb (fst z) (arr_zero 20)) eqn:E; [|done]. exfalso. apply nonzero.
    assert (fst z = arr_zero 20) as <-; [|done]. apply arr_eq, bytes_leb_antisym; [done|].
    rewrite bytes_leb_be by (by rewrite !length_arr). apply Z.leb_le.
    transitivity 0; [by vm_compute|]. apply Z_of_be_range.
Qed.

(** One entry per validator that backs the id. *)
Lemma chosen_length : len chosen = len (backers id raw c).
Proof.
  unfold len. f_equal. rewrite <- (length_map fst). apply Permutation_length, NoDup_Permutation.
  - pose proof (chosen_sorted (length chosen)) as Hs. rewrite firstn_all in Hs.
    by apply sorted_NoDup, NoDup_cons in Hs as [_ Hs].
  - by apply NoDup_ListNoDup, List.NoDup_filter, NoDup_ListNoDup.
  - destruct chosen_spec as (_ & Hin & Hcov). intros a. unfold backers.
    rewrite !list_elem_of_In, in_map_iff, filter_In, backs_spec, <- list_elem_of_In. split.
    + intros ([a' s] & <- & Hx). apply list_elem_of_In, Hin, elem_of_candidates in Hx. naive_solver.
    + intros (Hv & r & s & Hr & Hc & Ha).
      destruct (Hcov (a, s)) as (y & Hy & E); [apply elem_of_candidates; naive_solver|].
      exists y. split; [done|by apply list_elem_of_In].
Qed.

Lemma chosen_verifies n : verify_loop c (GateHash.eth_signed_digest id) (map snd (take n chosen)) (arr_zero 20) 0
  = Ok (len (take n chosen)).
Proof.
  apply verify_loop_spec. exists (map fst (take n chosen)).
  destruct chosen_spec as (_ & Hin & _). split_and!.
  - apply Forall2_fmap_2, Forall_Forall2_diag. apply Forall_forall.
    intros [a s] Hx. apply elem_of_take in Hx as (i & Hx & _).
    apply list_elem_of_lookup_2 in Hx. apply Hin, elem_of_candidates in Hx as (_ & r & _ & Hc & Ha).
    rewrite <- eth_digest_same. by eapply recovered_on_chain.
  - apply StronglySorted_Sorted, chosen_sorted.
  - unfold validators_among. rewrite Z.add_0_l.
    assert (List.filter (is_validator c) (map fst (take n chosen)) = map fst (take n chosen)) as ->.
    { apply forallb_filter_id, forallb_forall. intros a Ha. apply is_validator_iff.
      apply in_map_iff in Ha as ([a' s] & <- & Hx). apply list_elem_of_In, elem_of_take in Hx as (i & Hx & _).
      apply list_elem_of_lookup_2, Hin, elem_of_candidates in Hx. apply Hx. }
    unfold len. by rewrite length_map.
Qed.

Lemma chosen_count gc : gate_config_of c = Some gc -> 0 <= cfg_threshold c <= len (cfg_validators c) ->
  exists n, ordered_signatures id raw gc = map snd (take n chosen) /\
    len (take n chosen) = Z.min (cfg_threshold c) (len (backers id raw c)).
Proof using distinct nonzero.
  intros Hg Hth. unfold gate_config_of in Hg. destruct (bool_decide (cfg_validators c = [])); [done|].
  injection Hg as <-. exists (Z.to_nat (Z.min (cfg_threshold c) (len (cfg_validators c)))). split; [done|].
  rewrite <- chosen_length. unfold len at 1. rewrite length_take, Nat2Z.inj_min. fold (len chosen).
  rewrite Z2Nat.id by lia. lia.
Qed.
(** The gate's verdict on the relayer's choice is whether there are enough of them. *)
Lemma chosen_verdict n : let sigs := map snd (take n chosen) in
  len sigs <= len (cfg_validators c) ->
  verify_threshold c id sigs = if len sigs <? cfg_threshold c then Err NotEnoughSignatures else Ok tt.
Proof using distinct nonzero HL.
  intros sigs Hle. assert (len sigs = len (take n chosen)) as El by (unfold sigs, len; by rewrite length_map).
  unfold verify_threshold. rewrite (proj2 (Z.ltb_ge _ _)) by done. cbn [negb require mbind result_bind].
  unfold sigs at 1. rewrite chosen_verifies. rewrite <- El. cbn [mbind result_bind]. by destruct (len sigs <? _).
Qed.
Lemma ordered_accepted gc : gate_config_of c = Some gc -> 0 <= cfg_threshold c <= len (cfg_validators c) ->
  cfg_threshold c <= len (ordered_signatures id raw gc) -> verify_threshold c id (ordered_signatures id raw gc) = Ok tt.
Proof using distinct nonzero HL.
  intros Hg Hth Hle. destruct (chosen_count gc Hg Hth) as (n & E & Hn). rewrite E in *. unfold len in Hle at 1.
  rewrite chosen_verdict; unfold len at 1; rewrite length_map in *; fold (len (take n chosen)) in *; [|lia].
  by rewrite (proj2 (Z.ltb_ge _ _)).
Qed.
Lemma ordered_bounds gc : gate_config_of c = Some gc -> 0 <= cfg_threshold c <= len (cfg_validators c) ->
  len (ordered_signatures id raw gc) <= cfg_threshold c /\
  Forall (fun s => length s = 65%nat) (ordered_signatures id raw gc).
Proof using distinct nonzero HL.
  intros Hg Hth. destruct (chosen_count gc Hg Hth) as (n & -> & Hn). split; [unfold len in *; rewrite length_map; lia|].
  apply Forall_forall. intros s Hs. apply list_elem_of_fmap in Hs as ([a s'] & -> & Hx).
  apply elem_of_take in Hx as (i & Hx & _). apply list_elem_of_lookup_2 in Hx.
  destruct chosen_spec as (_ & Hin & _). apply Hin, elem_of_candidates in Hx as (_ & r & _ & Hc & _).
  apply canonical_of_signature in Hc as (odd & Hl & _). exact Hl.
Qed.

(** C33. The relayer's choice of signatures is exactly right. Whatever signatures
    the store holds (any order, duplicates, strangers, high-[s] or [v] in 0/1
    encodings), the array it submits has one canonical signature for each of the
    first [threshold] validators that really signed, and the gate accepts it if and
    only if at least [threshold] distinct validators signed; otherwise it answers
    [NotEnoughSignatures] and nothing else. *)
Theorem relayer_quorum_exact gc : gate_config_of c = Some gc ->
  0 < cfg_threshold c <= len (cfg_validators c) ->
  let sigs := ordered_signatures id raw gc in
  len sigs = Z.min (cfg_threshold c) (len (backers id raw c)) /\
  verify_threshold c id sigs =
    if bool_decide (cfg_threshold c <= len (backers id raw c)) then Ok tt else Err NotEnoughSignatures.
Proof.
  intros Hg Hth sigs. destruct (chosen_count gc Hg ltac:(lia)) as (n & E & Hn). subst sigs. rewrite E in *.
  assert (El : len (map snd (take n chosen)) = len (take n chosen)) by (unfold len; by rewrite length_map).
  split; [congruence|]. rewrite chosen_verdict by lia. rewrite El, Hn.
  destruct (Z.ltb_spec (Z.min (cfg_threshold c) (len (backers id raw c))) (cfg_threshold c));
    case_bool_decide; (reflexivity || lia).
Qed.
End Quorum.

(** * The library's quorum check and the program's *)

Section HostAgreement.
Context {RT : Runtime} {HC : HostCrypto} {HL : HostCryptoLaws}.

Definition low_s (sig : list byte) : Prop := Z_of_be (sig_s sig) <= secp_n / 2.

Lemma host_recover_agrees digest sig a : low_s sig ->
  host_recover_evm_address digest sig = Ok a <-> recover_evm_address digest sig = Ok a.
Proof.
  intros Hlow. unfold host_recover_evm_address, recover_evm_address. fold (sig_v sig).
  destruct (decide (length sig = 65%nat)) as [Hl|]; [|rewrite !bool_decide_eq_false_2 by done; split; intros [=]].
  rewrite !bool_decide_eq_true_2 by done. unfold mbind, result_bind. cbn [require].
  destruct ((sig_v sig =? 27) || (sig_v sig =? 28)) eqn:Ev; cbn [require]; [|split; intros [=]].
  rewrite k256_agrees; [|by rewrite length_take, Hl|destruct (Z.eqb_spec (sig_v sig) 27), (Z.eqb_spec (sig_v sig) 28); simpl in Ev; try done; lia|].
  - destruct (secp256k1_recover _ _ _); cbn [ok_or]; [|split; intros [=]].
    unfold address_of, hashv. simpl. rewrite app_nil_r. split; intros [= <-]; done.
  - unfold low_s, sig_s in Hlow. by rewrite take_drop_commute in Hlow.
Qed.

Lemma host_loop_agrees c digest sigs last count n : Forall low_s sigs ->
  host_verify_loop (is_validator c) digest sigs last count = Ok n <->
  verify_loop c digest sigs last count = Ok n.
Proof.
  revert last count. induction sigs as [|sig sigs IH]; intros last count Hs; cbn [host_verify_loop verify_loop].
  { split; intros [= <-]; done. }
  apply Forall_cons in Hs as [Hl Hs]. rewrite !result_bind_Ok. split.
  - intros (a & Ha%(host_recover_agrees _ _ _ Hl) & (u & Hu%require_Ok & Hr)%result_bind_Ok).
    exists a. split; [done|]. apply result_bind_Ok. exists tt. split; [by apply require_Ok|]. by apply IH.
  - intros (a & Ha%(host_recover_agrees _ _ _ Hl) & (u & Hu%require_Ok & Hr)%result_bind_Ok).
    exists a. split; [done|]. apply result_bind_Ok. exists tt. split; [by apply require_Ok|]. by apply IH.
Qed.

(** The library's quorum check agrees with the program's. On low-[s]
    signatures the gate accepts exactly the arrays the host check accepts and that
    are no longer than the validator set; the host check does not bound the length,
    although both count the same signers in the same order. *)
Theorem host_verify_agrees c id sigs : Forall low_s sigs ->
  verify_threshold c id sigs = Ok tt <->
  len sigs <= len (cfg_validators c) /\
  exists n, host_verify_threshold id sigs (is_validator c) (cfg_threshold c) = Ok n.
Proof.
  intros Hs. unfold verify_threshold, host_verify_threshold. rewrite eth_digest_same.
  setoid_rewrite result_bind_Ok. setoid_rewrite result_bind_Ok. split.
  - intros (u & Hu%require_Ok & n & Hn & Ht%require_Ok). bool_inv. split; [lia|].
    exists n, n. split; [by apply host_loop_agrees|].
    exists tt. split; [apply require_Ok, negb_true_iff, Z.ltb_ge; lia|done].
  - intros [Hle (n & m & Hm%(host_loop_agrees _ _ _ _ _ _ Hs) & (u & Hu%require_Ok & [= <-]))]. bool_inv.
    exists tt. split; [apply require_Ok, negb_true_iff, Z.ltb_ge; lia|].
    exists m. split; [done|]. apply require_Ok, negb_true_iff, Z.ltb_ge; lia.
Qed.
End HostAgreement.
