(* ===== verification/GateGov.v ===== *)
(** The governance timelock of the Solana gate (crates/solana-gate/src/lib.rs):
    the setup phase, the schedule PDA's life cycle, and the instructions that
    queue and cancel delayed actions. *)

From S2P Require Import Prelude.
From S2P Require Import SolanaRuntime.
From S2P Require Import GateTypes.
From S2P Require Import GateHash.
From S2P Require Import GateState.
From S2P Require Import GateVerify.

Section GateGov.
Context {RT : Runtime} {GB : GateBorsh}.

(** * Pure rules *)

Definition in_setup_phase (sealed : bool) (setup_deadline now : Z) : bool :=
  negb sealed && negb (setup_deadline =? 0) && (now <=? setup_deadline).

Definition guardian_change_needs_schedule (sealed : bool) (setup_deadline now : Z) (current : pubkey)
    : bool :=
  negb (in_setup_phase sealed setup_deadline now) && negb (bool_decide (current = pubkey_default)).

Definition governance_consumable (ready_at now : Z) : result GateError unit :=
  _ ← require (negb (ready_at =? 0)) GovernanceNotScheduled;
  _ ← require (negb (now <? ready_at)) GovernanceNotReady;
  require (negb (i_saturating_add 64 ready_at GOVERNANCE_GRACE <? now)) GovernanceExpired.

(** * The schedule account *)

Definition gov_seeds (action_id : hash32) : list (list byte) :=
  [bytes_of_string "gov"; arr_bytes action_id].

Definition consume_governance (program_id : pubkey) (gov_ai : account_info) (action_id : hash32)
    : prog unit :=
  let '(expected, _) := find_program_address (gov_seeds action_id) program_id in
  _ ← ensure (bool_decide (ai_key gov_ai = expected)) InvalidSeeds;
  owner ← ai_owner gov_ai;
  data ← ai_data gov_ai;
  _ ← ensure (negb (negb (bool_decide (owner = program_id)) || (len data <? GOVERNANCE_LEN)))
        (gate_err GovernanceNotScheduled);
  sched ← lift (ok_or (borsh_de data) InvalidAccountData);
  now ← clock_now;
  _ ← lift (map_err gate_err (governance_consumable (ready_at sched) now));
  _ ← write_prefix gov_ai (borsh_ser GovernanceSchedule_default);
  msg "governance schedule consumed".

Definition write_schedule (program_id : pubkey) (owner gov_ai system_program : account_info)
    (action_id : hash32) : prog Z :=
  let '(expected, bump) := find_program_address (gov_seeds action_id) program_id in
  _ ← ensure (bool_decide (ai_key gov_ai = expected)) InvalidSeeds;
  gov_owner ← ai_owner gov_ai;
  data ← ai_data gov_ai;
  _ ← (if negb (bool_decide (gov_owner = program_id) && (GOVERNANCE_LEN <=? len data)) then
         _ ← ensure (negb (negb (bool_decide (data = [])) && negb (bool_decide (gov_owner = program_id))))
               IllegalOwner;
         create_pda_account program_id owner gov_ai system_program (gov_seeds action_id) bump
           GOVERNANCE_LEN
       else mret tt);
  now ← clock_now;
  ready_at ← lift (ok_or (i_checked 64 (now + GOVERNANCE_DELAY)) ArithmeticOverflow);
  _ ← write_prefix gov_ai (borsh_ser (MkGovernanceSchedule ready_at));
  mret ready_at.

(** * Asset accounts named by a registration or its schedule *)

Definition vault_authority_seeds : list (list byte) := [bytes_of_string "vault_authority"].

Definition check_asset_accounts (program_id : pubkey) (mint vault token_program : account_info)
    (bridge_decimals : Z) : prog Z :=
  _ ← ensure (bool_decide (ai_key token_program = spl_token_id)) IncorrectProgramId;
  mint_owner ← ai_owner mint;
  _ ← ensure (bool_decide (mint_owner = ai_key token_program)) IllegalOwner;
  mint_data ← ai_data mint;
  decimals ← lift (ok_or (spl_mint_unpack mint_data) InvalidAccountData);
  _ ← ensure (bool_decide (bridge_unit decimals bridge_decimals <> None))
        (gate_err InvalidBridgeDecimals);
  '(vault_mint, vault_owner) ← spl_mint_and_owner vault (ai_key token_program);
  _ ← ensure (bool_decide (vault_mint = ai_key mint)) InvalidAccountData;
  let '(auth, _) := find_program_address vault_authority_seeds program_id in
  _ ← ensure (bool_decide (vault_owner = auth)) InvalidAccountData;
  vault_data ← ai_data vault;
  vault_state ← lift (ok_or (spl_account_unpack vault_data) InvalidAccountData);
  _ ← ensure (vault_is_exclusively_controlled (ta_delegate vault_state) (ta_close_authority vault_state))
        InvalidAccountData;
  mret decimals.

(** * Instructions *)

Definition hex_digit (n : Z) : Ascii.ascii :=
  match String.get (Z.to_nat n) "0123456789abcdef" with Some c => c | None => Ascii.zero end.
Fixpoint hex_str (b : list byte) : string :=
  match b with
  | [] => EmptyString
  | x :: b =>
      String.String (hex_digit (Z.shiftr (Z_of_byte x) 4))
        (String.String (hex_digit (Z.land (Z_of_byte x) 15)) (hex_str b))
  end.

(** The log line naming what was queued. *)
Definition scheduled_msg (action : GovernanceAction) (asset_keys : option (pubkey * pubkey))
    (ready_at : Z) : string :=
  match action with
  | GA_AddValidator validator =>
      "governance scheduled: addValidator 0x" +:+ hex_str validator +:+ " ready_at " +:+ pretty ready_at
  | GA_LowerThreshold threshold =>
      "governance scheduled: lowerThreshold " +:+ pretty threshold +:+ " ready_at " +:+ pretty ready_at
  | GA_RegisterAsset debridge_id bridge_decimals =>
      let '(mint, vault) := default (pubkey_default, pubkey_default) asset_keys in
      "governance scheduled: registerAsset debridge_id 0x" +:+ hex_str debridge_id
        +:+ " mint " +:+ pubkey_to_string mint +:+ " vault " +:+ pubkey_to_string vault
        +:+ " bridge_decimals " +:+ pretty bridge_decimals +:+ " ready_at " +:+ pretty ready_at
  | GA_SetGuardian guardian =>
      "governance scheduled: setGuardian " +:+ pubkey_to_string guardian +:+ " ready_at " +:+ pretty ready_at
  end.

Definition process_schedule_action (program_id : pubkey) (accounts : list account_info)
    (action : GovernanceAction) : prog unit :=
  '(config_ai, it) ← next_account_info accounts;
  '(owner, it) ← next_account_info it;
  '(gov_ai, it) ← next_account_info it;
  '(system_program, it) ← next_account_info it;
  cfg ← load_config program_id config_ai;
  _ ← ensure (bool_decide (ai_key owner = cfg_owner cfg) && is_signer owner) MissingRequiredSignature;
  '(action_id, asset_keys) ←
    match action with
    | GA_AddValidator validator =>
        _ ← ensure (negb (bool_decide (validator = arr_zero 20))) (gate_err ZeroValidator);
        _ ← ensure (negb (is_validator cfg validator)) (gate_err NotSchedulable);
        _ ← ensure (negb (cfg_max_validators cfg <=? as_u 32 (len (cfg_validators cfg))))
              (gate_err AtCapacity);
        mret (add_validator_action_id validator, None)
    | GA_LowerThreshold threshold =>
        _ ← ensure (negb ((threshold =? 0) || (cfg_threshold cfg <=? threshold)))
              (gate_err NotSchedulable);
        mret (lower_threshold_action_id threshold, None)
    | GA_RegisterAsset debridge_id bridge_decimals =>
        '(mint, it) ← next_account_info it;
        '(vault, it) ← next_account_info it;
        '(token_program, it) ← next_account_info it;
        _ ← check_asset_accounts program_id mint vault token_program bridge_decimals;
        mret (register_asset_action_id debridge_id (ai_key mint) (ai_key vault) bridge_decimals,
              Some (ai_key mint, ai_key vault))
    | GA_SetGuardian guardian => mret (set_guardian_action_id guardian, None)
    end;
  ready_at ← write_schedule program_id owner gov_ai system_program action_id;
  _ ← msg (scheduled_msg action asset_keys ready_at);
  msg ("governance action id 0x" +:+ hex_str (arr_bytes action_id)).

Definition process_cancel_scheduled_governance (program_id : pubkey) (accounts : list account_info)
    (action_id : hash32) : prog unit :=
  '(config_ai, it) ← next_account_info accounts;
  '(who, it) ← next_account_info it;
  '(gov_ai, it) ← next_account_info it;
  cfg ← load_config program_id config_ai;
  _ ← ensure (is_signer who) MissingRequiredSignature;
  let is_owner := bool_decide (ai_key who = cfg_owner cfg) in
  let is_guardian := negb (bool_decide (cfg_guardian cfg = pubkey_default))
                     && bool_decide (ai_key who = cfg_guardian cfg) in
  _ ← ensure (is_owner || is_guardian) MissingRequiredSignature;
  let '(expected, _) := find_program_address (gov_seeds action_id) program_id in
  _ ← ensure (bool_decide (ai_key gov_ai = expected)) InvalidSeeds;
  owner ← ai_owner gov_ai;
  data ← ai_data gov_ai;
  if negb (bool_decide (owner = program_id)) || (len data <? GOVERNANCE_LEN) then mret tt
  else
    _ ← write_prefix gov_ai (borsh_ser GovernanceSchedule_default);
    msg "governance schedule cancelled".
End GateGov.

(** * Lemmas *)

Section GateGovFacts.
Context {RT : Runtime} {RL : RuntimeLaws} {GB : GateBorsh} {GL : GateBorshLaws}.

(** The window in which an approval may be spent. *)
Definition in_window (ready_at now : Z) : Prop :=
  ready_at <> 0 /\ ready_at <= now <= i_saturating_add 64 ready_at GOVERNANCE_GRACE.

Lemma governance_consumable_Ok r now u : governance_consumable r now = Ok u <-> in_window r now.
Proof.
  unfold governance_consumable, in_window. split.
  - intros Hc. prog_inv_all. bool_inv. lia.
  - intros (H1 & H2 & H3). destruct u. unfold mbind, result_bind, require.
    destruct (Z.eqb_spec r 0), (Z.ltb_spec now r), (Z.ltb_spec (i_saturating_add 64 r GOVERNANCE_GRACE) now);
      simpl; done || lia.
Qed.

Definition vault_binding_account (pid : pubkey) (vault : pubkey) : pubkey :=
  fst (find_program_address (vault_seeds vault) pid).

(** The schedule account of an action in a ledger, if it holds a live approval. *)
Definition gov_account (pid : pubkey) (action_id : hash32) : pubkey :=
  fst (find_program_address (gov_seeds action_id) pid).
Definition schedule_at (pid : pubkey) (s : ledger) (action_id : hash32) : option GovernanceSchedule :=
  let a := acct (accts s) (gov_account pid action_id) in
  if bool_decide (acc_owner a = pid) && (GOVERNANCE_LEN <=? len (acc_data a)) then borsh_de (acc_data a)
  else None.
(** A matured, unexpired approval for [action_id]. *)
Definition matured (pid : pubkey) (s : ledger) (action_id : hash32) : Prop :=
  exists g, schedule_at pid s action_id = Some g /\ in_window (ready_at g) (clock s).

Lemma schedule_default_wf : GovernanceSchedule_wf GovernanceSchedule_default.
Proof. by vm_compute. Qed.

(** Writing a schedule at the start of its account. *)
Definition put_schedule (s : ledger) (k : pubkey) (g : GovernanceSchedule) : gmap pubkey account :=
  set_acct_data (accts s) k
    (borsh_ser g ++ drop (length (borsh_ser g)) (acc_data (acct (accts s) k))).

Lemma consume_governance_Ok pid ai aid s u s' :
  consume_governance pid ai aid s = Ok (u, s') ->
  ai_key ai = gov_account pid aid /\ matured pid s aid /\
  accts s' = put_schedule s (ai_key ai) GovernanceSchedule_default /\ clock s' = clock s.
Proof.
  unfold consume_governance, matured, schedule_at, gov_account.
  destruct (find_program_address (gov_seeds aid) pid) as [e b] eqn:E. intros Hc. prog_inv Hc.
  prog_inv_all. bool_inv. simpl. subst e.
  match goal with Hg : governance_consumable _ _ = Ok _ |- _ => apply governance_consumable_Ok in Hg end.
  split_and!; [done| |done|done]. eexists. split; [|done].
  rewrite bool_decide_eq_true_2 by done. by rewrite (proj2 (Z.leb_le _ _)).
Qed.

(** What consuming an approval answers, by the state of its account. *)
Lemma consume_governance_spec pid ai aid s g :
  ai_key ai = gov_account pid aid -> schedule_at pid s aid = Some g -> 
  consume_governance pid ai aid s =
    match governance_consumable (ready_at g) (clock s) with
    | Ok _ => Ok (tt, Ledger (put_schedule s (ai_key ai) GovernanceSchedule_default) (clock s)
                        (logs s ++ [LogMsg "governance schedule consumed"]))
    | Err e => Err (gate_err e)
    end.
Proof.
  unfold schedule_at, gov_account, consume_governance.
  destruct (find_program_address (gov_seeds aid) pid) as [e b] eqn:E. simpl. intros <- Hs.
  destruct (bool_decide _ && _) eqn:Hb; [|done]. bool_inv. unfold write_prefix. prog_run.
  rewrite bool_decide_eq_true_2 by done. simpl. rewrite (bool_decide_eq_true_2 (_ = pid)) by done.
  assert (len (acc_data (acct (accts s) (ai_key ai))) <? GOVERNANCE_LEN = false) as ->
    by (apply Z.ltb_ge; lia). simpl. rewrite Hs. simpl.
  destruct (governance_consumable (ready_at g) (clock s)) as [[]|]; simpl; [|done].
  pose proof (borsh_size _ schedule_default_wf) as Hsz.
  rewrite bool_decide_eq_true_2 by (unfold len in *; lia). done.
Qed.

Lemma put_schedule_at pid s aid g :
  GovernanceSchedule_wf g ->
  acc_owner (acct (accts s) (gov_account pid aid)) = pid ->
  GOVERNANCE_LEN <= len (acc_data (acct (accts s) (gov_account pid aid))) ->
  forall c l, schedule_at pid (Ledger (put_schedule s (gov_account pid aid) g) c l) aid = Some g.
Proof.
  intros Hwf Ho Hl c l. unfold schedule_at, put_schedule. simpl. rewrite acct_set_data. simpl.
  pose proof (borsh_size _ Hwf) as Hsz.
  rewrite bool_decide_eq_true_2 by done. rewrite (proj2 (Z.leb_le _ _)).
  - simpl. by apply borsh_roundtrip.
  - unfold len in *. rewrite length_app, length_drop. lia.
Qed.

(** [create_pda_account] on success: the account is program-owned, zeroed, of the
    requested size, and it held nothing before. *)
Lemma create_pda_account_Ok pid payer t sys seeds bump n s u s' :
  0 <= n -> create_pda_account pid payer t sys seeds bump n s = Ok (u, s') ->
  acc_data (acct (accts s) (ai_key t)) = [] /\
  acc_owner (acct (accts s) (ai_key t)) = system_program_id /\
  acc_owner (acct (accts s') (ai_key t)) = pid /\
  acc_data (acct (accts s') (ai_key t)) = zeros (Z.to_nat n) /\
  clock s' = clock s /\
  (forall k, k <> ai_key t -> acc_owner (acct (accts s') k) = acc_owner (acct (accts s) k) /\
                              acc_data (acct (accts s') k) = acc_data (acct (accts s) k)) /\
  logs s' = logs s.
Proof.
  intros Hn Hc. unfold create_pda_account in Hc. prog_inv Hc.
  apply cpi_system_assign in Hc as (Ho & Hd & _ & Hoth).
  match goal with Ha : cpi (SysAllocate _ _) _ _ _ = Ok _ |- _ =>
    apply cpi_system_allocate in Ha as (He & Hs1 & Hd1 & _ & Hoth1) end.
  match goal with Hf : fund_rent _ _ _ _ _ = Ok (_, ?s1) |- _ =>
    assert (clock s1 = clock s /\ logs s1 = logs s /\
      forall k, acc_owner (acct (accts s1) k) = acc_owner (acct (accts s) k) /\
                acc_data (acct (accts s1) k) = acc_data (acct (accts s) k)) as (Hclk & Hlog & Hsame) end.
  { unfold fund_rent in *. prog_inv_all; simpl; split_and!; try done.
    intros k. by eapply cpi_system_transfer. }
  simpl in *. destruct (Hsame (ai_key t)) as [Eo Ed]. split_and!; try congruence.
  intros k Hk. rewrite Hoth, Hoth1 by done. apply Hsame.
Qed.

Lemma write_schedule_Ok pid owner ai sys aid s r s' :
  write_schedule pid owner ai sys aid s = Ok (r, s') ->
  ai_key ai = gov_account pid aid /\ r = clock s + GOVERNANCE_DELAY /\ is_i 64 r /\
  schedule_at pid s' aid = Some (MkGovernanceSchedule r) /\ clock s' = clock s.
Proof.
  unfold write_schedule. destruct (find_program_address (gov_seeds aid) pid) as [e b] eqn:E.
  intros Hw. prog_inv Hw.
  match goal with Hi : i_checked _ _ = Some _ |- _ => apply i_checked_Some in Hi as [-> Hi] end.
  assert (e = gov_account pid aid) as -> by (unfold gov_account; by rewrite E).
  match goal with Hg : (if _ then _ else _) _ = Ok (_, ?s1) |- _ =>
    assert (acc_owner (acct (accts s1) (ai_key ai)) = pid /\ clock s1 = clock s /\
            GOVERNANCE_LEN <= len (acc_data (acct (accts s1) (ai_key ai)))) as (Ho & Hclk & Hl) end.
  { match goal with Hg : (if ?b then _ else _) _ = Ok _ |- _ => destruct b eqn:Hb end.
    - prog_inv_all.
      match goal with Hc : create_pda_account _ _ _ _ _ _ _ _ = Ok _ |- _ =>
        apply create_pda_account_Ok in Hc as (_ & _ & Ho & Hd & Hclk & _); [|done] end.
      rewrite Hd. split_and!; [done..|]. unfold len. rewrite length_zeros. by vm_compute.
    - prog_inv_all. bool_inv. done. }
  bool_inv. rewrite Hclk in *.
  split_and!; [done..| |done].
  match goal with Hk : ai_key ai = _ |- _ => rewrite Hk in * end.
  apply put_schedule_at; done.
Qed.

(** The life of an approval. Scheduling sets it to mature a full
    [GOVERNANCE_DELAY] after the cluster clock. While its account is untouched,
    consuming it answers [GovernanceNotReady] before that time, succeeds inside
    the grace window, and answers [GovernanceExpired] after; and once consumed,
    every further attempt answers [GovernanceNotScheduled]: one approval, one
    change. *)
Theorem schedule_lifecycle pid owner ai sys aid s r s1 s2 :
  0 <= clock s -> write_schedule pid owner ai sys aid s = Ok (r, s1) ->
  acct (accts s2) (ai_key ai) = acct (accts s1) (ai_key ai) ->
  r = clock s + GOVERNANCE_DELAY /\
  (clock s2 < r -> consume_governance pid ai aid s2 = Err (gate_err GovernanceNotReady)) /\
  (i_saturating_add 64 r GOVERNANCE_GRACE < clock s2 ->
     consume_governance pid ai aid s2 = Err (gate_err GovernanceExpired)) /\
  (r <= clock s2 <= i_saturating_add 64 r GOVERNANCE_GRACE ->
     exists s3, consume_governance pid ai aid s2 = Ok (tt, s3) /\
       forall s4, acct (accts s4) (ai_key ai) = acct (accts s3) (ai_key ai) ->
         consume_governance pid ai aid s4 = Err (gate_err GovernanceNotScheduled)).
Proof.
  intros Hc0 (Hk & -> & Hr & Hs & _)%write_schedule_Ok Hsame. split; [done|].
  assert (schedule_at pid s2 aid = Some (MkGovernanceSchedule (clock s + GOVERNANCE_DELAY))) as Hs2.
  { unfold schedule_at in *. by rewrite <- Hk, Hsame, Hk. }
  rewrite (consume_governance_spec _ _ _ _ _ Hk Hs2). simpl.
  assert (clock s + GOVERNANCE_DELAY <> 0) as Hnz by (unfold GOVERNANCE_DELAY; lia).
  assert (clock s + GOVERNANCE_DELAY <= i_saturating_add 64 (clock s + GOVERNANCE_DELAY) GOVERNANCE_GRACE).
  { unfold i_saturating_add, i_clamp, i_max, i_min, is_i, GOVERNANCE_GRACE in *. lia. }
  unfold governance_consumable, mbind, result_bind, require.
  destruct (Z.eqb_spec (clock s + GOVERNANCE_DELAY) 0); [lia|]. simpl.
  split_and!; intros Hlt.
  - destruct (Z.ltb_spec (clock s2) (clock s + GOVERNANCE_DELAY)); simpl; done || lia.
  - destruct (Z.ltb_spec (clock s2) (clock s + GOVERNANCE_DELAY)); simpl; [lia|].
    destruct (Z.ltb_spec (i_saturating_add 64 (clock s + GOVERNANCE_DELAY) GOVERNANCE_GRACE) (clock s2));
      simpl; done || lia.
  - destruct (Z.ltb_spec (clock s2) (clock s + GOVERNANCE_DELAY)); simpl; [lia|].
    destruct (Z.ltb_spec (i_saturating_add 64 (clock s + GOVERNANCE_DELAY) GOVERNANCE_GRACE) (clock s2));
      simpl; [lia|]. eexists. split; [done|]. simpl. intros s4 Hs4.
    rewrite (consume_governance_spec pid ai aid s4 GovernanceSchedule_default Hk); [done|].
    unfold schedule_at in *. rewrite <- Hk, Hs4. rewrite <- Hk in Hs2.
    destruct (bool_decide _ && _) eqn:Hb in Hs2; [|done]. bool_inv.
    pose proof (put_schedule_at pid s2 aid _ schedule_default_wf) as Hput. rewrite <- Hk in Hput.
    specialize (Hput ltac:(done) ltac:(done) 0 []). unfold schedule_at in Hput.
    rewrite <- Hk in Hput. exact Hput.
Qed.

Lemma keeps_consume_governance pid (K : pubkey -> Prop) ai aid :
  K (gov_account pid aid) -> keeps pid K (consume_governance pid ai aid).
Proof.
  intros HK. unfold consume_governance, gov_account in *.
  destruct (find_program_address (gov_seeds aid) pid) eqn:E. simpl in HK.
  keeps_step; [auto with keeps|]. apply ensure_Ok in Hrun as [Hk%bool_decide_eq_true ->]. subst. keeps_tac.
Qed.
Lemma keeps_write_schedule pid (K : pubkey -> Prop) owner ai sys aid :
  K (gov_account pid aid) -> keeps pid K (write_schedule pid owner ai sys aid).
Proof.
  intros HK. unfold write_schedule, gov_account in *.
  destruct (find_program_address (gov_seeds aid) pid) eqn:E. simpl in HK.
  keeps_step; [auto with keeps|]. apply ensure_Ok in Hrun as [Hk%bool_decide_eq_true ->]. subst. keeps_tac.
Qed.
Lemma keeps_check_asset_accounts pid K pid' mint vault tp d :
  keeps pid K (check_asset_accounts pid' mint vault tp d).
Proof. unfold check_asset_accounts. keeps_tac. Qed.
End GateGovFacts.

#[export] Hint Resolve keeps_consume_governance keeps_write_schedule keeps_check_asset_accounts : keeps.
