(* ===== verification/GateTransfers.v ===== *)
(** The fund-moving instructions of the Solana gate
    (crates/solana-gate/src/lib.rs): send, claim, cancel and refund. *)

From S2P Require Import Prelude.
From S2P Require Import SolanaRuntime.
From S2P Require Import GateTypes.
From S2P Require Import GateHash.
From S2P Require Import GateState.
From S2P Require Import GateVerify.
From S2P Require Import GateGov.

Section GateTransfers.
Context {RT : Runtime} {GB : GateBorsh}.

Definition executed_seeds (id : hash32) : list (list byte) := [bytes_of_string "executed"; arr_bytes id].
Definition refunded_seeds (id : hash32) : list (list byte) := [bytes_of_string "refunded"; arr_bytes id].

(** * Events *)

Definition emit_lifecycle (tag : list byte) (id debridge_id : hash32) (chain_id nonce : Z) : prog unit :=
  let event := MkLifecycleEvent SENT_EVENT_VERSION id debridge_id chain_id nonce in
  sol_log_data [tag; LifecycleEvent_to_vec event].

Definition emit_sent (id : hash32) (args : SendArgs) (wire_amount bridge_decimals chain_id_from nonce : Z)
    (native_sender : list byte) (mint : hash32) : prog unit :=
  let event := MkSentEvent SENT_EVENT_VERSION id (sa_debridge_id args) mint wire_amount bridge_decimals
    chain_id_from (sa_chain_id_to args) nonce (sa_receiver args) native_sender (sa_auto args) in
  sol_log_data [SENT_EVENT_TAG; SentEvent_to_vec event].

(** * Handlers *)

Definition process_send (program_id : pubkey) (accounts : list account_info) (args : SendArgs)
    : prog unit :=
  _ ← ensure (negb (sa_amount args =? 0)) (gate_err ZeroAmount);
  _ ← ensure (negb (negb (len (sa_receiver args) =? 20) && negb (len (sa_receiver args) =? 32)))
        (gate_err BadReceiver);
  '(config_ai, it) ← next_account_info accounts;
  '(asset_ai, it) ← next_account_info it;
  '(payer, it) ← next_account_info it;
  '(user_token, it) ← next_account_info it;
  '(vault, it) ← next_account_info it;
  '(token_program, it) ← next_account_info it;
  '(sent_ai, it) ← next_account_info it;
  '(system_program, it) ← next_account_info it;
  cfg ← load_config program_id config_ai;
  _ ← ensure (negb (cfg_paused cfg)) (gate_err Paused);
  _ ← ensure (cfg_sealed cfg) (gate_err NotSealed);
  _ ← ensure (corridor_registered cfg (sa_chain_id_to args)) (gate_err CorridorNotRegistered);
  asset ← load_asset program_id (sa_debridge_id args) asset_ai;
  '(vault_mint, _) ← spl_mint_and_owner vault (ai_key token_program);
  '(user_mint, _) ← spl_mint_and_owner user_token (ai_key token_program);
  _ ← lift (verify_asset_binding asset (ai_key token_program) (ai_key vault) vault_mint user_mint);
  wire_amount ← lift (to_wire asset (sa_amount args));
  let nonce_v := nonce cfg (sa_chain_id_to args) in
  let native_sender := arr_bytes (ai_key payer) in
  let id := submission_id (cfg_bridge_domain cfg) (sa_debridge_id args) (as_bridge_decimals asset)
    wire_amount (cfg_chain_id cfg) (sa_chain_id_to args) nonce_v (sa_receiver args) (sa_auto args)
    native_sender in
  cfg' ← lift (bump_nonce cfg (sa_chain_id_to args));
  _ ← store cfg' config_ai;
  let '(expected_sent, sent_bump) := find_program_address (sent_seeds id) program_id in
  _ ← ensure (bool_decide (ai_key sent_ai = expected_sent)) InvalidSeeds;
  now ← clock_now;
  _ ← create_sent_record program_id payer sent_ai system_program id sent_bump
        (MkSentRecord (sa_debridge_id args) (ai_key payer) (ai_key user_token) (as_mint asset)
           (sa_amount args) now);
  _ ← emit_sent id args wire_amount (as_bridge_decimals asset) (cfg_chain_id cfg') nonce_v native_sender
        (as_mint asset);
  invoke (SplTransfer (ai_key token_program) (ai_key user_token) (ai_key vault) (ai_key payer)
            (sa_amount args))
    [user_token; vault; payer; token_program].

Definition process_claim (program_id : pubkey) (accounts : list account_info) (args : ClaimArgs)
    : prog unit :=
  '(config_ai, it) ← next_account_info accounts;
  '(asset_ai, it) ← next_account_info it;
  '(executed_ai, it) ← next_account_info it;
  '(payer, it) ← next_account_info it;
  '(vault, it) ← next_account_info it;
  '(receiver_token, it) ← next_account_info it;
  '(vault_authority, it) ← next_account_info it;
  '(token_program, it) ← next_account_info it;
  '(system_program, it) ← next_account_info it;
  cfg ← load_config program_id config_ai;
  _ ← ensure (negb (cfg_paused cfg)) (gate_err Paused);
  _ ← ensure (cfg_sealed cfg) (gate_err NotSealed);
  asset ← load_asset program_id (cl_debridge_id args) asset_ai;
  receiver ← lift (ok_or (arr_of_list 32 (cl_receiver args)) (gate_err BadReceiver));
  _ ← ensure (bool_decide (ai_key receiver_token = receiver)) (gate_err BadReceiver);
  '(vault_mint, _) ← spl_mint_and_owner vault (ai_key token_program);
  '(recv_mint, _) ← receiver_token_account receiver_token (ai_key token_program);
  _ ← lift (verify_asset_binding asset (ai_key token_program) (ai_key vault) vault_mint recv_mint);
  _ ← ensure (cl_bridge_decimals args =? as_bridge_decimals asset) (gate_err BridgeScaleMismatch);
  let id := submission_id (cfg_bridge_domain cfg) (cl_debridge_id args) (cl_bridge_decimals args)
    (cl_amount args) (cl_chain_id_from args) (cfg_chain_id cfg) (cl_nonce args) (cl_receiver args)
    (cl_auto args) (cl_native_sender args) in
  let '(expected_executed, bump) := find_program_address (executed_seeds id) program_id in
  _ ← ensure (bool_decide (ai_key executed_ai = expected_executed)) InvalidSeeds;
  owner ← ai_owner executed_ai;
  data ← ai_data executed_ai;
  _ ← ensure (negb (is_already_executed owner (len data) program_id)) (gate_err AlreadyExecuted);
  _ ← lift (map_err gate_err (verify_threshold cfg id (cl_signatures args)));
  local_amount ← lift (to_local asset (cl_amount args));
  _ ← create_marker program_id payer executed_ai system_program (executed_seeds id) bump MARKER_CLAIMED;
  let '(auth, auth_bump) := find_program_address vault_authority_seeds program_id in
  _ ← ensure (bool_decide (ai_key vault_authority = auth)) InvalidSeeds;
  _ ← invoke_signed (SplTransfer (ai_key token_program) (ai_key vault) (ai_key receiver_token)
                       (ai_key vault_authority) local_amount)
        [vault; receiver_token; vault_authority; token_program]
        [vault_authority_seeds ++ [[auth_bump]]];
  msg ("CLAIMED " +:+ bs58_id id).

Definition process_cancel (program_id : pubkey) (accounts : list account_info) (args : CancelArgs)
    : prog unit :=
  '(config_ai, it) ← next_account_info accounts;
  '(executed_ai, it) ← next_account_info it;
  '(payer, it) ← next_account_info it;
  '(system_program, it) ← next_account_info it;
  cfg ← load_config program_id config_ai;
  _ ← ensure (negb (cfg_paused cfg)) (gate_err Paused);
  let id := submission_id (cfg_bridge_domain cfg) (ca_debridge_id args) (ca_bridge_decimals args)
    (ca_amount args) (ca_chain_id_from args) (cfg_chain_id cfg) (ca_nonce args) (ca_receiver args)
    (ca_auto args) (ca_native_sender args) in
  let '(expected_executed, bump) := find_program_address (executed_seeds id) program_id in
  _ ← ensure (bool_decide (ai_key executed_ai = expected_executed)) InvalidSeeds;
  owner ← ai_owner executed_ai;
  data ← ai_data executed_ai;
  _ ← ensure (negb (is_already_executed owner (len data) program_id)) (gate_err AlreadyExecuted);
  _ ← lift (map_err gate_err (verify_threshold cfg (cancel_id id) (ca_signatures args)));
  _ ← create_marker program_id payer executed_ai system_program (executed_seeds id) bump MARKER_CANCELLED;
  _ ← emit_lifecycle CANCELLED_EVENT_TAG id (ca_debridge_id args) (ca_chain_id_from args) (ca_nonce args);
  msg ("CANCELLED " +:+ bs58_id id).

Definition process_refund (program_id : pubkey) (accounts : list account_info) (args : RefundArgs)
    : prog unit :=
  '(config_ai, it) ← next_account_info accounts;
  '(asset_ai, it) ← next_account_info it;
  '(sent_ai, it) ← next_account_info it;
  '(refunded_ai, it) ← next_account_info it;
  '(payer, it) ← next_account_info it;
  '(vault, it) ← next_account_info it;
  '(source_token, it) ← next_account_info it;
  '(vault_authority, it) ← next_account_info it;
  '(token_program, it) ← next_account_info it;
  '(system_program, it) ← next_account_info it;
  cfg ← load_config program_id config_ai;
  let id := submission_id (cfg_bridge_domain cfg) (ra_debridge_id args) (ra_bridge_decimals args)
    (ra_amount args) (cfg_chain_id cfg) (ra_chain_id_to args) (ra_nonce args) (ra_receiver args)
    (ra_auto args) (ra_native_sender args) in
  let '(expected_refunded, refunded_bump) := find_program_address (refunded_seeds id) program_id in
  _ ← ensure (bool_decide (ai_key refunded_ai = expected_refunded)) InvalidSeeds;
  owner ← ai_owner refunded_ai;
  data ← ai_data refunded_ai;
  _ ← ensure (negb (is_already_executed owner (len data) program_id)) (gate_err AlreadyExecuted);
  sent ← load_sent_record program_id id sent_ai;
  _ ← ensure (bool_decide (sr_debridge_id sent = ra_debridge_id args)) InvalidAccountData;
  _ ← lift (map_err gate_err (verify_threshold cfg (refund_id id) (ra_signatures args)));
  asset ← load_asset program_id (ra_debridge_id args) asset_ai;
  _ ← ensure (bool_decide (ai_key source_token = sr_source_token sent)) InvalidAccountData;
  '(vault_mint, _) ← spl_mint_and_owner vault (ai_key token_program);
  '(dest_mint, _) ← receiver_token_account source_token (ai_key token_program);
  _ ← lift (verify_asset_binding asset (ai_key token_program) (ai_key vault) vault_mint dest_mint);
  _ ← create_marker program_id payer refunded_ai system_program (refunded_seeds id) refunded_bump
        MARKER_CLAIMED;
  sent_data ← ai_data sent_ai;
  _ ← set_data sent_ai (zeros (length sent_data));
  let '(auth, auth_bump) := find_program_address vault_authority_seeds program_id in
  _ ← ensure (bool_decide (ai_key vault_authority = auth)) InvalidSeeds;
  _ ← invoke_signed (SplTransfer (ai_key token_program) (ai_key vault) (ai_key source_token)
                       (ai_key vault_authority) (sr_amount sent))
        [vault; source_token; vault_authority; token_program]
        [vault_authority_seeds ++ [[auth_bump]]];
  _ ← emit_lifecycle REFUNDED_EVENT_TAG id (ra_debridge_id args) (cfg_chain_id cfg) (ra_nonce args);
  msg ("REFUNDED " +:+ bs58_id id).
End GateTransfers.

(** * Markers *)

Section Markers.
Context {RT : Runtime} {GB : GateBorsh}.

Definition executed_account (pid : pubkey) (id : hash32) : pubkey :=
  fst (find_program_address (executed_seeds id) pid).
Definition refunded_account (pid : pubkey) (id : hash32) : pubkey :=
  fst (find_program_address (refunded_seeds id) pid).
Definition sent_account (pid : pubkey) (id : hash32) : pubkey :=
  fst (find_program_address (sent_seeds id) pid).

(** The terminal state recorded at a marker address, if any. *)
Definition marker_at (pid : pubkey) (m : gmap pubkey account) (k : pubkey) : option byte :=
  if bool_decide (acc_owner (acct m k) = pid) then head (acc_data (acct m k)) else None.
(** A submission is spent here once its marker exists, claimed or cancelled. *)
Definition spent (pid : pubkey) (m : gmap pubkey account) (id : hash32) : Prop :=
  is_Some (marker_at pid m (executed_account pid id)).
Definition refunded (pid : pubkey) (m : gmap pubkey account) (id : hash32) : Prop :=
  is_Some (marker_at pid m (refunded_account pid id)).

Lemma marker_executed pid m k :
  is_already_executed (acc_owner (acct m k)) (len (acc_data (acct m k))) pid = true <->
  is_Some (marker_at pid m k).
Proof.
  unfold is_already_executed, marker_at. rewrite andb_true_iff, bool_decide_eq_true, Z.ltb_lt.
  unfold len. case_bool_decide as Ho; [|split; [by intros [? _]|by intros [? ?]]].
  destruct (acc_data (acct m k)) as [|b l]; simpl; split.
  - intros [_ ?]. lia.
  - by intros [? ?].
  - by eexists.
  - intros _. split; [done|lia].
Qed.
Lemma marker_not_executed pid m k :
  is_already_executed (acc_owner (acct m k)) (len (acc_data (acct m k))) pid = false <->
  marker_at pid m k = None.
Proof. rewrite <- not_true_iff_false, marker_executed, <- eq_None_not_Some. done. Qed.

Lemma marker_live pid m k : is_Some (marker_at pid m k) <-> live pid m k.
Proof.
  unfold marker_at, live. case_bool_decide as Ho; [|split; [by intros [? ?]|by intros [? _]]].
  destruct (acc_data (acct m k)); simpl; split; try done; by intros [? ?].
Qed.
Lemma evolves_marker pid K m m' k :
  evolves pid K m m' -> is_Some (marker_at pid m k) -> is_Some (marker_at pid m' k).
Proof. rewrite !marker_live. intros He. apply (ev_live _ _ _ _ He). Qed.
End Markers.

(** * What each step leaves behind *)

Section StepFacts.
Context {RT : Runtime} {RL : RuntimeLaws} {GB : GateBorsh} {GL : GateBorshLaws}.

Definition asset_account (pid : pubkey) (id : hash32) : pubkey :=
  fst (find_program_address (asset_seeds id) pid).

(** The asset registered for [id] in a ledger. *)
Definition asset_at (pid : pubkey) (m : gmap pubkey account) (id : hash32) (a : AssetConfig) : Prop :=
  acc_owner (acct m (asset_account pid id)) = pid /\
  decode_asset_config (acc_data (acct m (asset_account pid id))) = Ok a /\ as_debridge_id a = id.

Lemma load_asset_Ok pid id ai s a s' :
  load_asset pid id ai s = Ok (a, s') ->
  s' = s /\ ai_key ai = asset_account pid id /\ asset_at pid (accts s) id a.
Proof.
  unfold load_asset, asset_at, asset_account, verify_asset_account.
  destruct (find_program_address (asset_seeds id) pid) as [e b]. simpl. intros Hl.
  prog_inv Hl. prog_inv_all. bool_inv. by subst e.
Qed.

Lemma asset_at_wf pid m id a : asset_at pid m id a -> AssetConfig_wf a.
Proof. intros (_ & Hd & _). by eapply decode_asset_config_wf. Qed.

Lemma spl_mint_and_owner_Ok ai tp s p s' :
  spl_mint_and_owner ai tp s = Ok (p, s') ->
  s' = s /\ acc_owner (acct (accts s) (ai_key ai)) = tp /\
  exists t, token_at (accts s) (ai_key ai) = Some t /\ p = (ta_mint t, ta_owner t).
Proof. unfold spl_mint_and_owner, token_at. intros Hl. prog_inv Hl. bool_inv. eauto. Qed.

Lemma receiver_token_account_Ok ai tp s p s' :
  receiver_token_account ai tp s = Ok (p, s') ->
  s' = s /\ acc_owner (acct (accts s) (ai_key ai)) = tp /\
  exists t, token_at (accts s) (ai_key ai) = Some t /\ p = (ta_mint t, ta_owner t).
Proof. unfold receiver_token_account, token_at. intros Hl. prog_inv Hl. bool_inv. eauto. Qed.

Lemma verify_asset_binding_Ok a tp vault vm cm u :
  verify_asset_binding a tp vault vm cm = Ok u ->
  tp = spl_token_id /\ vault = as_vault a /\ vm = as_mint a /\ cm = as_mint a.
Proof. unfold verify_asset_binding. intros Hv. prog_inv Hv. by bool_inv. Qed.

(** Owner and data of every account but [k] are as before. *)
Definition others_same (k : pubkey) (m m' : gmap pubkey account) : Prop :=
  forall k', k' <> k -> acc_owner (acct m' k') = acc_owner (acct m k') /\
                        acc_data (acct m' k') = acc_data (acct m k').

Lemma create_marker_Ok pid payer ai sys seeds bump b s u s' :
  create_marker pid payer ai sys seeds bump b s = Ok (u, s') ->
  acc_data (acct (accts s) (ai_key ai)) = [] /\
  acc_owner (acct (accts s) (ai_key ai)) = system_program_id /\
  acc_owner (acct (accts s') (ai_key ai)) = pid /\ acc_data (acct (accts s') (ai_key ai)) = [b] /\
  others_same (ai_key ai) (accts s) (accts s') /\ clock s' = clock s /\ logs s' = logs s.
Proof.
  unfold create_marker, write_first. intros Hc. prog_inv Hc.
  apply create_pda_account_Ok in Hrun as (He & Hs & Ho & Hd & Hclk & Hoth & Hlog); [|done].
  rewrite Hd in Hc. change (zeros (Z.to_nat MARKER_LEN)) with [Byte.x00] in Hc. prog_inv Hc. simpl.
  rewrite acct_set_data. simpl. split_and!; try done.
  intros k Hk. rewrite acct_set_data_ne by done. by apply Hoth.
Qed.

Lemma create_sent_record_Ok pid payer ai sys id bump r s u s' :
  SentRecord_wf r ->
  create_sent_record pid payer ai sys id bump r s = Ok (u, s') ->
  acc_data (acct (accts s) (ai_key ai)) = [] /\
  acc_owner (acct (accts s) (ai_key ai)) = system_program_id /\
  acc_owner (acct (accts s') (ai_key ai)) = pid /\ acc_data (acct (accts s') (ai_key ai)) = borsh_ser r /\
  others_same (ai_key ai) (accts s) (accts s') /\ clock s' = clock s /\ logs s' = logs s.
Proof.
  unfold create_sent_record. intros Hwf Hc. prog_inv Hc.
  match goal with Hr : create_pda_account _ _ _ _ _ _ _ _ = Ok _ |- _ =>
    apply create_pda_account_Ok in Hr as (He & Hs & Ho & Hd & Hclk & Hoth & Hlog); [|done] end.
  simpl. rewrite acct_set_data. simpl. pose proof (borsh_size _ Hwf) as Hsz.
  split_and!; try done.
  - rewrite Hd, drop_ge; [by rewrite app_nil_r|]. rewrite length_zeros. unfold len in Hsz. lia.
  - intros k Hk. rewrite acct_set_data_ne by done. by apply Hoth.
Qed.

(** The configuration stored in a ledger. *)
Definition config_account (pid : pubkey) : pubkey := fst (find_program_address config_seeds pid).
Definition config_at (pid : pubkey) (m : gmap pubkey account) (c : Config) : Prop :=
  acc_owner (acct m (config_account pid)) = pid /\
  borsh_de (acc_data (acct m (config_account pid))) = Some c.

Lemma load_config_at pid ai s c s' :
  load_config pid ai s = Ok (c, s') <->
  s' = s /\ ai_key ai = config_account pid /\ config_at pid (accts s) c.
Proof.
  rewrite load_config_Ok. unfold is_config_account, config_at, config_account.
  split; [intros (-> & (Hk & Ho) & Hd)|intros (-> & Hk & Ho & Hd)]; rewrite <- Hk in *; auto.
Qed.

Lemma config_at_wf pid m c : config_at pid m c -> Config_wf c.
Proof. intros [_ Hd]. by eapply borsh_de_wf. Qed.
Lemma config_at_fits pid m c : config_at pid m c ->
  config_space (len (cfg_validators c)) (len (cfg_nonce_to c)) <= len (acc_data (acct m (config_account pid))).
Proof. intros [_ Hd]. by apply borsh_de_len in Hd. Qed.
Lemma config_at_nonempty pid m c : config_at pid m c -> acc_data (acct m (config_account pid)) <> [].
Proof. intros Hc%config_at_fits E. rewrite E in Hc. unfold config_space, len in Hc. simpl in Hc. lia. Qed.
(** A program that leaves the configuration account alone. *)
Lemma config_at_keeps {A} pid (p : prog A) s a s' c :
  keeps pid (fun k => k <> config_account pid) p -> p s = Ok (a, s') -> config_at pid (accts s) c ->
  config_at pid (accts s') c.
Proof.
  intros Hp Hs Hc. pose proof (config_at_nonempty _ _ _ Hc) as Hne. destruct Hc as [Ho Hd].
  specialize (Hp _ _ _ Hs). destruct (ev_live _ _ _ _ Hp _ (conj Ho Hne)) as [Ho' _].
  destruct (ev_same _ _ _ _ Hp _ (conj Ho Hne)) as [[]|E]; [done|]. split; congruence.
Qed.
Lemma config_at_unique pid m c c' : config_at pid m c -> config_at pid m c' -> c = c'.
Proof. intros [_ H1] [_ H2]. congruence. Qed.

Lemma store_config pid c ai s u s' :
  Config_wf c -> ai_key ai = config_account pid -> acc_owner (acct (accts s) (ai_key ai)) = pid ->
  store c ai s = Ok (u, s') ->
  config_at pid (accts s') c /\ others_same (ai_key ai) (accts s) (accts s') /\
  acc_data (acct (accts s') (ai_key ai)) <> [] /\ clock s' = clock s /\ logs s' = logs s.
Proof.
  intros Hwf Hk Ho Hs. apply store_Ok in Hs as [Hle ->]; [|done].
  unfold config_at, others_same. rewrite <- Hk. simpl. rewrite acct_set_data. simpl.
  split_and!; try done.
  - by apply borsh_roundtrip.
  - intros k Hne. by rewrite acct_set_data_ne.
  - pose proof (borsh_size c Hwf) as Hsz. intros E%(f_equal len). unfold config_space, len in *.
    rewrite length_app in E. simpl in E. lia.
Qed.

(** What an SPL transfer made by the program leaves, read per account. *)
Lemma spl_transfer_Ok tp src dst auth n infos seeds s u s' :
  invoke_signed (SplTransfer tp src dst auth n) infos seeds s = Ok (u, s') ->
  tp = spl_token_id /\ spl_moved src dst auth n (accts s) (accts s') /\
  clock s' = clock s /\ logs s' = logs s.
Proof. intros (m & Hm & ->)%invoke_signed_Ok. apply cpi_spl_transfer in Hm as [-> Hm]. done. Qed.

Lemma spl_moved_owned src dst auth n m m' k :
  spl_moved src dst auth n m m' -> acc_owner (acct m k) <> spl_token_id ->
  acc_owner (acct m' k) = acc_owner (acct m k) /\ acc_data (acct m' k) = acc_data (acct m k).
Proof.
  intros Hm Hk. split; [by eapply spl_owners|]. eapply spl_others; [done|..]; intros ->; apply Hk.
  - by eapply spl_src_owned.
  - by eapply spl_dst_owned.
Qed.

Lemma token_at_ext m m' k : acc_data (acct m' k) = acc_data (acct m k) -> token_at m' k = token_at m k.
Proof. unfold token_at. by intros ->. Qed.
Lemma token_balance_ext m m' k :
  acc_data (acct m' k) = acc_data (acct m k) -> token_balance m' k = token_balance m k.
Proof. intros E. unfold token_balance. by rewrite (token_at_ext m m'). Qed.
End StepFacts.

(** Replaces each successful step by what it means. *)
Ltac gate_facts :=
  repeat match goal with
  | H : load_config _ _ _ = Ok _ |- _ => apply load_config_at in H; destruct H as (? & ? & ?); subst
  | H : load_asset _ _ _ _ = Ok _ |- _ => apply load_asset_Ok in H; destruct H as (? & ? & ?); subst
  | H : spl_mint_and_owner _ _ _ = Ok _ |- _ =>
      apply spl_mint_and_owner_Ok in H; destruct H as (? & ? & ? & ? & ?); simplify_eq
  | H : receiver_token_account _ _ _ = Ok _ |- _ =>
      apply receiver_token_account_Ok in H; destruct H as (? & ? & ? & ? & ?); simplify_eq
  | H : verify_asset_binding _ _ _ _ _ = Ok _ |- _ =>
      apply verify_asset_binding_Ok in H; destruct H as (? & ? & ? & ?)
  | H : verify_threshold _ _ _ = Ok _ |- _ => apply verify_threshold_Ok in H
  | H : is_already_executed _ _ _ = false |- _ => apply marker_not_executed in H
  | H : arr_of_list _ _ = Some _ |- _ => apply arr_of_list_Some in H
  end.

(** Addresses derived in a run, by the account they name. *)
Ltac pda_facts :=
  repeat match goal with
  | E : find_program_address ?sd ?p = (?a, _) |- _ =>
      let F := fresh "Hpda" in
      assert (a = fst (find_program_address sd p)) as F by (by rewrite E); clear E; try subst a
  end;
  repeat match goal with
  | H : ai_key ?a = _ |- _ => is_var a; destruct a; cbn [ai_key] in *; subst
  end.

(** * Claim, cancel and refund *)

Section Terminal.
Context {RT : Runtime} {RL : RuntimeLaws} {GB : GateBorsh} {GL : GateBorshLaws}.
Variable pid : pubkey.
Hypothesis pid_not_spl : pid <> spl_token_id.

(** The ids the handlers derive from their arguments. *)
Definition claim_id (c : Config) (a : ClaimArgs) : hash32 :=
  submission_id (cfg_bridge_domain c) (cl_debridge_id a) (cl_bridge_decimals a) (cl_amount a)
    (cl_chain_id_from a) (cfg_chain_id c) (cl_nonce a) (cl_receiver a) (cl_auto a) (cl_native_sender a).
Definition cancel_sub_id (c : Config) (a : CancelArgs) : hash32 :=
  submission_id (cfg_bridge_domain c) (ca_debridge_id a) (ca_bridge_decimals a) (ca_amount a)
    (ca_chain_id_from a) (cfg_chain_id c) (ca_nonce a) (ca_receiver a) (ca_auto a) (ca_native_sender a).
Definition refund_sub_id (c : Config) (a : RefundArgs) : hash32 :=
  submission_id (cfg_bridge_domain c) (ra_debridge_id a) (ra_bridge_decimals a) (ra_amount a)
    (cfg_chain_id c) (ra_chain_id_to a) (ra_nonce a) (ra_receiver a) (ra_auto a) (ra_native_sender a).

(** [amount] moved from [src] to [dst], both of [mint]; no other SPL account changed. *)
Definition tokens_moved (mint src dst : pubkey) (amount : Z) (m m' : gmap pubkey account) : Prop :=
  ta_mint <$> token_at m src = Some mint /\ ta_mint <$> token_at m dst = Some mint /\
  0 <= amount <= token_balance m src /\
  (src <> dst ->
     token_balance m' src = token_balance m src - amount /\
     token_balance m' dst = token_balance m dst + amount) /\
  (forall k, k <> src -> k <> dst -> acc_owner (acct m k) = spl_token_id ->
     token_at m' k = token_at m k).
(** No SPL account changed. *)
Definition spl_same (m m' : gmap pubkey account) : Prop :=
  forall k, acc_owner (acct m k) = spl_token_id ->
    acc_owner (acct m' k) = spl_token_id /\ acc_data (acct m' k) = acc_data (acct m k).

Lemma spl_same_refl m : spl_same m m.
Proof. done. Qed.
Lemma spl_same_trans m1 m2 m3 : spl_same m1 m2 -> spl_same m2 m3 -> spl_same m1 m3.
Proof. intros H1 H2 k Hk. destruct (H1 k Hk) as [Ho <-]. by apply H2. Qed.
Lemma others_same_spl k m m' : others_same k m m' -> acc_owner (acct m k) <> spl_token_id -> spl_same m m'.
Proof. intros Ho Hk k' Hk'. destruct (Ho k') as [-> ->]; [by intros ->|done]. Qed.
Lemma set_data_spl_same m k d : acc_owner (acct m k) <> spl_token_id -> spl_same m (set_acct_data m k d).
Proof.
  intros Hk. apply (others_same_spl k); [|done]. intros k' Hne. by rewrite acct_set_data_ne.
Qed.

Lemma tokens_moved_intro mint src dst auth amount m m1 m' :
  spl_same m m1 -> spl_moved src dst auth amount m1 m' ->
  acc_owner (acct m src) = spl_token_id -> acc_owner (acct m dst) = spl_token_id ->
  ta_mint <$> token_at m src = Some mint -> ta_mint <$> token_at m dst = Some mint ->
  tokens_moved mint src dst amount m m'.
Proof.
  intros Hs Hm Hos Hod Ht Ht'. unfold tokens_moved.
  destruct (Hs _ Hos) as [_ Es], (Hs _ Hod) as [_ Ed].
  rewrite <- (token_balance_ext m m1 src Es), <- (token_balance_ext m m1 dst Ed).
  split_and!; [done|done|by eapply spl_enough..| |].
  - intros Hne. split; [by eapply spl_debit|by eapply spl_credit].
  - intros k Hk1 Hk2 Hk. apply token_at_ext. rewrite (spl_others _ _ _ _ _ _ Hm k) by done. by apply Hs.
Qed.
Lemma mint_at m k t mint : token_at m k = Some t -> ta_mint t = mint -> ta_mint <$> token_at m k = Some mint.
Proof. by intros -> <-. Qed.

(** A marker just created survives the payout that follows. *)
Lemma marker_after_transfer k b src dst auth amount m m' :
  acc_owner (acct m k) = pid -> acc_data (acct m k) = [b] -> spl_moved src dst auth amount m m' ->
  marker_at pid m' k = Some b.
Proof.
  intros Ho Hd Hm. destruct (spl_moved_owned _ _ _ _ _ _ k Hm) as [Eo Ed]; [congruence|].
  unfold marker_at. by rewrite bool_decide_eq_true_2, Ed, Hd by congruence.
Qed.
(** So does the stored configuration. *)
Lemma owned_survives_config src dst auth amount m m' c :
  config_at pid m c -> spl_moved src dst auth amount m m' -> config_at pid m' c.
Proof.
  intros [Ho Hd] Hm. destruct (spl_moved_owned _ _ _ _ _ _ (config_account pid) Hm) as [Eo Ed];
    [congruence|]. split; congruence.
Qed.
Lemma others_same_marker k k' m m' : others_same k m m' -> k' <> k -> marker_at pid m' k' = marker_at pid m k'.
Proof. intros Ho Hk. unfold marker_at. by destruct (Ho k' Hk) as [-> ->]. Qed.
Lemma system_not_spl' : spl_token_id <> system_program_id.
Proof. intros E. by apply system_not_spl. Qed.

(** What a successful claim did, under configuration [c] and asset [a]. *)
Record claim_effect (args : ClaimArgs) (s s' : ledger) (c : Config) (a : AssetConfig) (receiver : pubkey)
    : Prop := {
  ce_config : config_at pid (accts s) c;
  ce_unpaused : cfg_paused c = false;
  ce_sealed : cfg_sealed c = true;
  ce_asset : asset_at pid (accts s) (cl_debridge_id args) a;
  ce_scale : as_bridge_decimals a = cl_bridge_decimals args;
  ce_receiver : arr_bytes receiver = cl_receiver args;
  ce_quorum : quorum c (claim_id c args) (cl_signatures args);
  ce_fresh : marker_at pid (accts s) (executed_account pid (claim_id c args)) = None;
  ce_marked : marker_at pid (accts s') (executed_account pid (claim_id c args)) = Some MARKER_CLAIMED;
  ce_amount : is_u 64 (cl_amount args * 10 ^ (as_local_decimals a - as_bridge_decimals a));
  ce_paid : tokens_moved (as_mint a) (as_vault a) receiver
    (cl_amount args * 10 ^ (as_local_decimals a - as_bridge_decimals a)) (accts s) (accts s');
  ce_frame : evolves pid (fun k => k = executed_account pid (claim_id c args)) (accts s) (accts s');
}.

Lemma process_claim_Ok accounts args s u s' :
  process_claim pid accounts args s = Ok (u, s') -> exists c a receiver, claim_effect args s s' c a receiver.
Proof.
  intros Hc. unfold process_claim in Hc. prog_inv Hc. gate_facts. bool_inv. gate_facts. pda_facts.
  match goal with Hm : create_marker _ _ ?t _ _ _ _ _ = Ok _ |- _ =>
    eassert (evolves pid (fun k => k = ai_key t) _ _) as Hframe
      by (eapply keeps_create_marker; [|exact Hm]; done);
    apply create_marker_Ok in Hm as (_ & Hsys & Ho & Hd & Hoth & _ & _) end.
  match goal with Hm : cpi (SplTransfer _ _ _ _ _) _ _ _ = Ok _ |- _ =>
    apply cpi_spl_transfer in Hm as [_ Hm]; pose proof Hm as Hpay end.
  match goal with Hl : to_local _ _ = Ok _ |- _ =>
    apply to_local_Ok in Hl as (-> & Hfit & _); [|by eapply asset_at_wf] end.
  cbn [ai_key] in *. do 3 eexists. constructor; eauto.
  - by eapply marker_after_transfer.
  - eapply tokens_moved_intro; [|exact Hpay|first [congruence|eauto using mint_at]..].
    eapply others_same_spl; [done|]. rewrite Hsys. apply system_not_spl.
  - eapply evolves_trans; [exact Hframe|by eapply spl_moved_keeps].
Qed.

(** What a successful cancellation did. *)
Record cancel_effect (args : CancelArgs) (s s' : ledger) (c : Config) : Prop := {
  xe_config : config_at pid (accts s) c;
  xe_unpaused : cfg_paused c = false;
  xe_quorum : quorum c (cancel_id (cancel_sub_id c args)) (ca_signatures args);
  xe_fresh : marker_at pid (accts s) (executed_account pid (cancel_sub_id c args)) = None;
  xe_marked : marker_at pid (accts s') (executed_account pid (cancel_sub_id c args)) = Some MARKER_CANCELLED;
  xe_tokens : spl_same (accts s) (accts s');
  xe_logs : logs s' = logs s ++
    [LogData [CANCELLED_EVENT_TAG; LifecycleEvent_to_vec
       (MkLifecycleEvent SENT_EVENT_VERSION (cancel_sub_id c args) (ca_debridge_id args)
          (ca_chain_id_from args) (ca_nonce args))];
     LogMsg ("CANCELLED " +:+ bs58_id (cancel_sub_id c args))];
  xe_frame : evolves pid (fun k => k = executed_account pid (cancel_sub_id c args)) (accts s) (accts s');
}.

Lemma process_cancel_Ok accounts args s u s' :
  process_cancel pid accounts args s = Ok (u, s') -> exists c, cancel_effect args s s' c.
Proof.
  intros Hc. unfold process_cancel, emit_lifecycle in Hc. prog_inv Hc. gate_facts. bool_inv.
  gate_facts. pda_facts.
  match goal with Hm : create_marker _ _ ?t _ _ _ _ _ = Ok _ |- _ =>
    eassert (evolves pid (fun k => k = ai_key t) _ _) as Hframe
      by (eapply keeps_create_marker; [|exact Hm]; done);
    apply create_marker_Ok in Hm as (_ & Hsys & Ho & Hd & Hoth & _ & Hlog) end.
  cbn [ai_key] in *. eexists. constructor; eauto.
  - simpl. unfold marker_at, executed_account, cancel_sub_id.
    by rewrite Ho, Hd, bool_decide_eq_true_2.
  - eapply others_same_spl; [done|]. rewrite Hsys. apply system_not_spl.
  - simpl. by rewrite Hlog, <- app_assoc.
Qed.

(** The record a send left for an id, as the gate reads it back. *)
Definition sent_at (m : gmap pubkey account) (id : hash32) (r : SentRecord) : Prop :=
  acc_owner (acct m (sent_account pid id)) = pid /\ acc_data (acct m (sent_account pid id)) <> [] /\
  decode_sent_record (acc_data (acct m (sent_account pid id))) = Ok r.

Lemma load_sent_record_Ok id ai s r s' :
  load_sent_record pid id ai s = Ok (r, s') ->
  s' = s /\ ai_key ai = sent_account pid id /\ sent_at (accts s) id r.
Proof.
  unfold load_sent_record, sent_at, sent_account.
  destruct (find_program_address (sent_seeds id) pid) as [e b]. simpl. intros Hl.
  prog_inv Hl. bool_inv. by subst e.
Qed.

(** What a successful refund did: [r] is the record of the send it undid. *)
Record refund_effect (args : RefundArgs) (s s' : ledger) (c : Config) (a : AssetConfig) (r : SentRecord)
    : Prop := {
  re_config : config_at pid (accts s) c;
  re_asset : asset_at pid (accts s) (ra_debridge_id args) a;
  re_sent : sent_at (accts s) (refund_sub_id c args) r;
  re_id : sr_debridge_id r = ra_debridge_id args;
  re_quorum : quorum c (refund_id (refund_sub_id c args)) (ra_signatures args);
  re_fresh : marker_at pid (accts s) (refunded_account pid (refund_sub_id c args)) = None;
  re_marked : marker_at pid (accts s') (refunded_account pid (refund_sub_id c args)) = Some MARKER_CLAIMED;
  re_wiped : acc_data (acct (accts s') (sent_account pid (refund_sub_id c args))) =
    zeros (length (acc_data (acct (accts s) (sent_account pid (refund_sub_id c args)))));
  re_paid : tokens_moved (as_mint a) (as_vault a) (sr_source_token r) (sr_amount r) (accts s) (accts s');
  re_frame : evolves pid (fun k => k = refunded_account pid (refund_sub_id c args) \/
    k = sent_account pid (refund_sub_id c args)) (accts s) (accts s');
}.

Lemma process_refund_Ok accounts args s u s' :
  process_refund pid accounts args s = Ok (u, s') -> exists c a r, refund_effect args s s' c a r.
Proof.
  intros Hc. unfold process_refund, emit_lifecycle in Hc. prog_inv Hc. gate_facts. bool_inv.
  gate_facts.
  match goal with Hl : load_sent_record _ _ _ _ = Ok _ |- _ =>
    apply load_sent_record_Ok in Hl as (-> & Hk & Hsent) end.
  pda_facts. fold (refund_sub_id v args) in *.
  fold (refunded_account pid (refund_sub_id v args)) in *.
  set (rk := refunded_account pid (refund_sub_id v args)) in *.
  set (sk := sent_account pid (refund_sub_id v args)) in *.
  match goal with Hm : create_marker _ _ _ _ _ _ _ _ = Ok _ |- _ =>
    eassert (evolves pid (fun k => k = rk \/ k = sk) _ _) as Hframe
      by (eapply keeps_create_marker; [|exact Hm]; by left);
    apply create_marker_Ok in Hm as (He & Hsys & Ho & Hd & Hoth & _ & _) end.
  match goal with Hm : cpi (SplTransfer _ _ _ _ _) _ _ _ = Ok _ |- _ =>
    apply cpi_spl_transfer in Hm as [_ Hm]; pose proof Hm as Hpay end.
  cbn [ai_key accts] in *. destruct Hsent as (Hso & Hsd & Hdec). fold sk in Hso, Hsd, Hdec.
  assert (sk <> rk) as Hne by congruence. destruct (Hoth sk Hne) as [Hso' Hsd'].
  do 3 eexists. constructor; eauto; try done.
  - eapply marker_after_transfer; [..|exact Hpay]; fold rk; rewrite acct_set_data_ne by done; done.
  - cbn [accts]. fold (refund_sub_id v args). fold sk. destruct (spl_moved_owned _ _ _ _ _ _ sk Hpay) as [_ ->].
    + rewrite acct_set_data. simpl. congruence.
    + rewrite acct_set_data. simpl. by rewrite Hsd'.
  - eapply tokens_moved_intro; [|exact Hpay|first [congruence|eauto using mint_at]..].
    eapply spl_same_trans; [eapply others_same_spl; [done|]|apply set_data_spl_same; congruence].
    rewrite Hsys. apply system_not_spl.
  - eapply evolves_trans; [exact Hframe|]. eapply evolves_trans; [|by eapply spl_moved_keeps].
    apply evolves_set_data; [by right|]. by rewrite length_zeros, Hsd'.
Qed.

(** The id of a send on configuration [c]: it binds the corridor's next nonce. *)
Definition send_id (c : Config) (a : AssetConfig) (args : SendArgs) (wire : Z) (payer : pubkey) : hash32 :=
  submission_id (cfg_bridge_domain c) (sa_debridge_id args) (as_bridge_decimals a) wire
    (cfg_chain_id c) (sa_chain_id_to args) (nonce c (sa_chain_id_to args)) (sa_receiver args)
    (sa_auto args) (arr_bytes payer).

(** What a successful send did: [user] paid, [c'] is the configuration after. *)
Record send_effect (args : SendArgs) (s s' : ledger) (c c' : Config) (a : AssetConfig) (wire : Z)
    (payer user : pubkey) : Prop := {
  sd_config : config_at pid (accts s) c;
  sd_unpaused : cfg_paused c = false;
  sd_sealed : cfg_sealed c = true;
  sd_corridor : corridor_registered c (sa_chain_id_to args) = true;
  sd_asset : asset_at pid (accts s) (sa_debridge_id args) a;
  sd_nonzero : sa_amount args <> 0;
  sd_wire : sa_amount args = wire * 10 ^ (as_local_decimals a - as_bridge_decimals a);
  sd_towire : to_wire a (sa_amount args) = Ok wire;
  sd_bumped : bump_nonce c (sa_chain_id_to args) = Ok c';
  sd_config' : config_at pid (accts s') c';
  sd_fresh : acc_data (acct (accts s) (sent_account pid (send_id c a args wire payer))) = [];
  sd_record : sent_at (accts s') (send_id c a args wire payer)
    (MkSentRecord (sa_debridge_id args) payer user (as_mint a) (sa_amount args) (clock s));
  sd_paid : tokens_moved (as_mint a) user (as_vault a) (sa_amount args) (accts s) (accts s');
  sd_event : logs s' = logs s ++ [LogData [SENT_EVENT_TAG; SentEvent_to_vec
    (MkSentEvent SENT_EVENT_VERSION (send_id c a args wire payer) (sa_debridge_id args) (as_mint a) wire
       (as_bridge_decimals a) (cfg_chain_id c) (sa_chain_id_to args) (nonce c (sa_chain_id_to args))
       (sa_receiver args) (arr_bytes payer) (sa_auto args))]];
  sd_receiver : len (sa_receiver args) = 20 \/ len (sa_receiver args) = 32;
  sd_stored : acc_data (acct (accts s') (sent_account pid (send_id c a args wire payer))) =
    borsh_ser (MkSentRecord (sa_debridge_id args) payer user (as_mint a) (sa_amount args) (clock s));
  sd_frame : evolves pid (fun k => k = config_account pid \/ k = sent_account pid (send_id c a args wire payer))
    (accts s) (accts s');
}.

Lemma receiver_width n : negb (n =? 20) && negb (n =? 32) = false -> n = 20 \/ n = 32.
Proof. intros [H|H]%andb_false_iff; bool_inv; auto. Qed.

Lemma process_send_Ok accounts args s u s' :
  is_u 64 (sa_amount args) -> is_i 64 (clock s) ->
  process_send pid accounts args s = Ok (u, s') ->
  exists c c' a wire payer user, send_effect args s s' c c' a wire payer user.
Proof.
  intros Hamt Hclk Hc. unfold process_send, emit_sent in Hc. prog_inv Hc. gate_facts. bool_inv.
  gate_facts. pda_facts. cbn [ai_key accts clock logs] in *.
  match goal with Hw : to_wire _ _ = Ok _ |- _ =>
    pose proof Hw as Hwire; apply to_wire_Ok in Hwire as [Hwire _]; [|by eapply asset_at_wf|done] end.
  match goal with Hc1 : config_at _ _ _, Hb : bump_nonce _ _ = Ok _ |- _ =>
    destruct (bump_nonce_wf _ _ _ (config_at_wf _ _ _ Hc1) Hb) as [Hwf' _];
    pose proof (bump_nonce_spec v1 (sa_chain_id_to args)) as Hbs; rewrite Hb in Hbs end.
  destruct Hbs as (_ & _ & _ & _ & Ec & _).
  assert (cfg_chain_id v7 = cfg_chain_id v1) as -> by (by rewrite Ec).
  match goal with Hs : store _ _ _ = Ok _ |- _ =>
    eassert (evolves pid (fun k => k = config_account pid) _ _) as Hframe4
      by (eapply keeps_store; [|exact Hs]; done);
    apply (store_config pid) in Hs as (Hc4 & Hoth4 & Hne4 & Hclk4 & Hlog4); [|done..|by apply H1] end.
  cbn [ai_key] in *. rewrite Hclk4 in *.
  match goal with Hs : create_sent_record _ _ _ _ ?i _ _ _ = Ok _ |- _ =>
    fold (sent_account pid i) in *; set (id := i) in *;
    eassert (evolves pid (fun k => k = sent_account pid id) _ _) as Hframe5
      by (eapply keeps_create_sent_record; [|exact Hs]; done);
    apply create_sent_record_Ok in Hs as (He & Hsys & Ho & Hd & Hoth & Hclk5 & Hlog5); [|done] end.
  cbn [ai_key] in *. set (sk := sent_account pid id) in *.
  assert (sk <> config_account pid) as Hne by (intros E; rewrite E in He; congruence).
  destruct (Hoth4 sk Hne) as [Eso Esd].
  apply cpi_spl_transfer in Hc as [_ Hpay].
  exists v1, v7, v5, v6, (ai_key a1), (ai_key a2).
  assert (config_at pid (accts s5) v7) as Hc5.
  { destruct Hc4 as [Hco Hcd]. destruct (Hoth (config_account pid)) as [Eo Ed]; [congruence|].
    split; congruence. }
  constructor; unfold send_id; cbn [accts clock logs]; fold id sk; try done.
  - eapply owned_survives_config; done.
  - congruence.
  - destruct (spl_moved_owned _ _ _ _ _ _ sk Hpay) as [Eo Ed]; [congruence|].
    unfold sent_at, send_id. fold id sk. rewrite Eo, Ed, Ho, Hd. split_and!; [done| |by apply decode_sent_record_ser].
    intros E. pose proof (borsh_size _ (conj Hamt Hclk : SentRecord_wf (MkSentRecord (sa_debridge_id args) (ai_key a1)
      (ai_key a2) (as_mint v5) (sa_amount args) (clock s)))) as Hsz. by rewrite E in Hsz.
  - eapply tokens_moved_intro; [|exact Hpay|first [congruence|eauto using mint_at]..].
    eapply spl_same_trans; [eapply others_same_spl; [exact Hoth4|]|eapply others_same_spl; [exact Hoth|]].
    + rewrite (proj1 H1). done.
    + rewrite Hsys. apply system_not_spl.
  - by rewrite Hlog5, Hlog4.
  - by apply receiver_width.
  - destruct (spl_moved_owned _ _ _ _ _ _ sk Hpay) as [_ Ed]; [congruence|]. unfold send_id. fold id sk. by rewrite Ed, Hd.
  - eapply evolves_trans; [eapply evolves_weaken; [exact Hframe4|by left]|].
    eapply evolves_trans; [eapply evolves_weaken; [exact Hframe5|by right]|by eapply spl_moved_keeps].
Qed.

(** ** Refusals *)

Lemma load_config_run ai s c : ai_key ai = config_account pid -> config_at pid (accts s) c ->
  load_config pid ai s = Ok (c, s).
Proof. intros. by apply load_config_at. Qed.

(** Takes the accounts a call needs off the list. *)
Ltac take_accounts :=
  repeat match goal with
  | H : (_ <= length ?l)%nat |- _ => destruct l as [|? l]; [simpl in H; lia|]; simpl in H;
      apply le_S_n in H
  end.

Ltac run_step := erewrite prog_bind_run by done; cbn beta iota.


(** ** What each instruction does *)

(** C3. A successful claim. The gate was unpaused and sealed; the payout account is
    the 32-byte receiver the id commits to; at least [threshold] distinct
    validators signed that id; the scale is the registered one; exactly
    [amount * 10^(local - bridge)] left the registered vault for the receiver, in
    the registered mint, with no other token account touched; and the id, not
    spent before, is marked claimed and stays spent however the ledger evolves. *)
Theorem claim_pays_exactly accounts args s s' :
  process_claim pid accounts args s = Ok (tt, s') ->
  exists c a receiver, claim_effect args s s' c a receiver /\
    voted c (claim_id c args) (cl_signatures args) (cfg_threshold c) /\
    ~ spent pid (accts s) (claim_id c args) /\
    forall K m, evolves pid K (accts s') m -> spent pid m (claim_id c args).
Proof.
  intros (c & a & r & He)%process_claim_Ok. exists c, a, r. split_and!; [done|..].
  - apply quorum_voted, (ce_quorum _ _ _ _ _ _ He).
  - unfold spent. rewrite (ce_fresh _ _ _ _ _ _ He). by intros [? ?].
  - intros K m Hm. eapply evolves_marker; [done|]. by rewrite (ce_marked _ _ _ _ _ _ He).
Qed.

(** A successful cancellation: on an unpaused gate, [threshold] distinct
    validators signed the cancel digest of the id (never the claim digest); the
    id was not spent and is marked cancelled for good, so it can no longer be
    claimed here; no token moves and the event carries the id. *)
Theorem cancel_marks_spent accounts args s s' :
  process_cancel pid accounts args s = Ok (tt, s') ->
  exists c, cancel_effect args s s' c /\
    voted c (cancel_id (cancel_sub_id c args)) (ca_signatures args) (cfg_threshold c) /\
    ~ spent pid (accts s) (cancel_sub_id c args) /\
    forall K m, evolves pid K (accts s') m -> spent pid m (cancel_sub_id c args).
Proof.
  intros (c & He)%process_cancel_Ok. exists c. split_and!; [done|..].
  - apply quorum_voted, (xe_quorum _ _ _ _ He).
  - unfold spent. rewrite (xe_fresh _ _ _ _ He). by intros [? ?].
  - intros K m Hm. eapply evolves_marker; [done|]. by rewrite (xe_marked _ _ _ _ He).
Qed.

(** C5. A successful refund, paused or not: [threshold] distinct validators signed the
    refund digest of the id; a record of the send exists and was not refunded;
    exactly the recorded amount returns from the registered vault to the token
    account that paid it in; the record is wiped and the id is marked refunded for
    good. *)
Theorem refund_returns_recorded accounts args s s' :
  process_refund pid accounts args s = Ok (tt, s') ->
  exists c a r, refund_effect args s s' c a r /\
    voted c (refund_id (refund_sub_id c args)) (ra_signatures args) (cfg_threshold c) /\
    ~ refunded pid (accts s) (refund_sub_id c args) /\
    forall K m, evolves pid K (accts s') m -> refunded pid m (refund_sub_id c args).
Proof.
  intros (c & a & r & He)%process_refund_Ok. exists c, a, r. split_and!; [done|..].
  - apply quorum_voted, (re_quorum _ _ _ _ _ _ He).
  - unfold refunded. rewrite (re_fresh _ _ _ _ _ _ He). by intros [? ?].
  - intros K m Hm. eapply evolves_marker; [done|]. by rewrite (re_marked _ _ _ _ _ _ He).
Qed.

(** C4. A successful send. The gate was unpaused and sealed, the corridor registered
    and the amount a whole number of bridge units; the corridor's nonce advances
    by exactly one and no other configuration field or nonce changes; the id
    binds that nonce, the payer and the wire amount; a fresh record of the send is
    kept under it for a refund; exactly [amount] moved from the user to the
    registered vault; the only log is the event the validators sign; and claiming
    the wire amount at the same asset pays back exactly what was locked. *)
Theorem send_locks_and_records accounts args s s' :
  SendArgs_wf args -> is_i 64 (clock s) ->
  process_send pid accounts args s = Ok (tt, s') ->
  exists c c' a wire payer user, send_effect args s s' c c' a wire payer user /\
    nonce c' (sa_chain_id_to args) = nonce c (sa_chain_id_to args) + 1 /\
    (forall x, x <> sa_chain_id_to args -> nonce c' x = nonce c x) /\
    c' = with_nonce_to c (cfg_nonce_to c') /\ to_local a wire = Ok (sa_amount args).
Proof.
  intros (Hamt & Hch & _) Hclk (c & c' & a & w & p & u & He)%process_send_Ok; [|done..].
  exists c, c', a, w, p, u. pose proof (bump_nonce_spec c (sa_chain_id_to args)) as Hb.
  rewrite (sd_bumped _ _ _ _ _ _ _ _ _ He) in Hb. destruct Hb as (_ & Hn & Hoth & _ & Hc & _).
  split_and!; try done. eapply to_local_of_wire; [by eapply asset_at_wf, (sd_asset _ _ _ _ _ _ _ _ _ He)|done|].
  apply (sd_towire _ _ _ _ _ _ _ _ _ He).
Qed.
End Terminal.
