(* ===== verification/HostRecord.v ===== *)
(** What travels between the off-chain processes: the decoded [Sent] of a source
    event (bridge-solana gate.rs, relayer.rs), the record a validator posts for it
    (solana-relayer source.rs [signed_record], store.rs), and the reading of such a
    record back into an instruction for the gate (target.rs [encodable], refund.rs
    [bound_submission_id], [attested_by]). *)

From S2P Require Import Prelude.
From S2P Require Import Text.
From S2P Require Import SolanaRuntime.
From S2P Require Import GateTypes.
From S2P Require Import AbiParams.
From S2P Require Import LogScan.
From S2P Require Import GateState.
From S2P Require Import GateVerify.
From S2P Require Import GateTransfers.
From S2P Require Import ListSort.
From S2P Require Import HostVerify.
From S2P Require GateHash.
From S2P Require HostHash.

(** * The decoded event *)

Record Sent := MkSent {
  st_submission_id : hash32;
  st_debridge_id : hash32;
  st_amount : Z;           (* u64 *)
  st_bridge_decimals : Z;  (* u8 *)
  st_chain_id_from : Z;
  st_chain_id_to : Z;
  st_receiver : list byte;
  st_nonce : Z;
  st_native_sender : list byte;
  st_auto : option HostHash.AutoParams;
}.

(** * The stored record (solana-relayer store.rs) *)

Record SignerSig := MkSignerSig { sig_signer : text; sig_signature : text }.
Record SubmissionRecord := MkSubmissionRecord {
  rec_submission_id : text;
  rec_bridge_domain : text;
  rec_debridge_id : text;
  rec_amount : text;
  rec_bridge_decimals : option Z;
  rec_chain_id_from : Z;
  rec_chain_id_to : Z;
  rec_nonce : Z;
  rec_receiver : text;
  rec_auto_params : text;
  rec_native_sender : text;
  rec_token : text;
  rec_signatures : list SignerSig;
  rec_cancel_signatures : list SignerSig;
  rec_refund_signatures : list SignerSig;
}.

(** A signing key: [r || s] and the recovery id of a digest. *)
Class HostSigner := { ecdsa_sign : hash32 -> list byte * Z }.

Section HostRecord.
Context {RT : Runtime} {HX : HexCodec}.

(** [SentEvent::from_sent], [SentEvent::to_sent] *)
Definition from_sent (s : Sent) (mint : hash32) : SentEvent :=
  MkSentEvent SENT_EVENT_VERSION (st_submission_id s) (st_debridge_id s) mint (st_amount s)
    (st_bridge_decimals s) (st_chain_id_from s) (st_chain_id_to s) (st_nonce s) (st_receiver s)
    (st_native_sender s) (HostHash.auto_to_wire <$> st_auto s).
Definition to_sent (e : SentEvent) : option Sent :=
  if negb (se_version e =? SENT_EVENT_VERSION) then None
  else
    let auto := (fun w => HostHash.wire_to_auto w (se_native_sender e)) <$> se_auto e in
    Some (MkSent (se_submission_id e) (se_debridge_id e) (se_amount e) (se_bridge_decimals e)
            (se_chain_id_from e) (se_chain_id_to e) (se_receiver e) (se_nonce e) (se_native_sender e) auto).

(** The submissionId of decoded fields: both paths of [recompute], [encodable] and
    [bound_submission_id]. *)
Definition id_of_fields (domain debridge_id : hash32) (decimals amount chain_id_from chain_id_to nonce : Z)
    (receiver : list byte) (auto : option HostHash.AutoParams) : hash32 :=
  match auto with
  | None => HostHash.submission_id domain debridge_id decimals (HostHash.amount_word amount) chain_id_from
              chain_id_to nonce receiver
  | Some auto => HostHash.submission_id_with_auto domain debridge_id decimals (HostHash.amount_word amount)
              chain_id_from chain_id_to nonce receiver auto
  end.

Definition recompute (sent : Sent) (bridge_domain : hash32) : hash32 :=
  id_of_fields bridge_domain (st_debridge_id sent) (st_bridge_decimals sent) (st_amount sent)
    (st_chain_id_from sent) (st_chain_id_to sent) (st_nonce sent) (st_receiver sent) (st_auto sent).

Inductive Refusal :=
  | RefusedId (emitted computed : hash32)
  | RefusedChain (got want : Z).

Definition signable (sent : Sent) (bridge_domain : hash32) (chain_id : Z) : result Refusal unit :=
  let computed := recompute sent bridge_domain in
  _ ← require (bool_decide (computed = st_submission_id sent)) (RefusedId (st_submission_id sent) computed);
  require (st_chain_id_from sent =? chain_id) (RefusedChain (st_chain_id_from sent) chain_id).

(** [sign]: EIP-191 over the 32-byte id, with [v] in 27/28. *)
Definition sign {SK : HostSigner} (digest32 : hash32) : text :=
  let '(sig, recid) := ecdsa_sign (eth_signed_digest digest32) in
  hex0x (sig ++ [byte_of_Z (recid + 27)]).

Definition signed_record {SK : HostSigner} (signer_address : text) (bridge_domain : hash32) (sent : Sent)
    : SubmissionRecord :=
  MkSubmissionRecord (hex0x (arr_bytes (st_submission_id sent))) (hex0x (arr_bytes bridge_domain))
    (hex0x (arr_bytes (st_debridge_id sent))) (to_dec (st_amount sent)) (Some (st_bridge_decimals sent))
    (st_chain_id_from sent) (st_chain_id_to sent) (st_nonce sent) (hex0x (st_receiver sent))
    (match st_auto sent with
     | None => txt "0x"
     | Some auto => hex0x (encode_evm_auto_params (HostHash.auto_to_wire auto))
     end)
    (hex0x (st_native_sender sent)) []
    [MkSignerSig signer_address (sign (st_submission_id sent))] [] [].

(** * Reading a record for this gate (target.rs) *)

Inductive Unencodable :=
  | UnencodableAutoParams (e : AutoParamsError)
  | UnencodableAmount
  | UnencodableField (name : string)
  | UnencodableIdMismatch
  | UnencodableDomain (record gate : hash32).

Record EncodableRecord := MkEncodableRecord {
  enc_id : hash32;
  enc_debridge_id : hash32;
  enc_amount : Z;
  enc_bridge_decimals : Z;
  enc_receiver : list byte;
  enc_native_sender : list byte;
  enc_auto : option AutoParamsWire;
}.

Definition encodable (rec : SubmissionRecord) (gate_domain : hash32) : result Unencodable EncodableRecord :=
  id ← ok_or (hex32 (rec_submission_id rec)) (UnencodableField "submission_id");
  bridge_domain ← ok_or (hex32 (rec_bridge_domain rec)) (UnencodableField "bridge_domain");
  _ ← require (bool_decide (bridge_domain = gate_domain)) (UnencodableDomain bridge_domain gate_domain);
  debridge_id ← ok_or (hex32 (rec_debridge_id rec)) (UnencodableField "debridge_id");
  receiver ← ok_or (hex_bytes (rec_receiver rec)) (UnencodableField "receiver");
  native_sender ← ok_or (hex_bytes (rec_native_sender rec)) (UnencodableField "native_sender");
  amount ← ok_or (parse_uint 64 (rec_amount rec)) UnencodableAmount;
  bridge_decimals ← ok_or (rec_bridge_decimals rec) (UnencodableField "bridge_decimals");
  blob ← ok_or (hex_bytes (rec_auto_params rec)) (UnencodableField "auto_params");
  auto ← map_err UnencodableAutoParams (decode_evm_auto_params blob);
  let recomputed := id_of_fields bridge_domain debridge_id bridge_decimals amount (rec_chain_id_from rec)
    (rec_chain_id_to rec) (rec_nonce rec) receiver
    ((fun w => HostHash.wire_to_auto w native_sender) <$> auto) in
  _ ← require (bool_decide (recomputed = id)) UnencodableIdMismatch;
  Ok (MkEncodableRecord id debridge_id amount bridge_decimals receiver native_sender auto).

(** The instruction arguments built from it ([try_claim], [try_cancel], [try_refund]). *)
Definition claim_args (rec : SubmissionRecord) (enc : EncodableRecord) (signatures : list (list byte)) : ClaimArgs :=
  MkClaimArgs (enc_debridge_id enc) (enc_amount enc) (enc_bridge_decimals enc) (rec_chain_id_from rec)
    (rec_nonce rec) (enc_receiver enc) (enc_auto enc) (enc_native_sender enc) signatures.
Definition cancel_args (rec : SubmissionRecord) (enc : EncodableRecord) (signatures : list (list byte)) : CancelArgs :=
  MkCancelArgs (enc_debridge_id enc) (enc_amount enc) (enc_bridge_decimals enc) (rec_chain_id_from rec)
    (rec_nonce rec) (enc_receiver enc) (enc_auto enc) (enc_native_sender enc) signatures.
Definition refund_args (rec : SubmissionRecord) (enc : EncodableRecord) (signatures : list (list byte)) : RefundArgs :=
  MkRefundArgs (enc_debridge_id enc) (enc_amount enc) (enc_bridge_decimals enc) (rec_chain_id_to rec)
    (rec_nonce rec) (enc_receiver enc) (enc_auto enc) (enc_native_sender enc) signatures.

(** The bytes of the stored signatures that decode. *)
Definition raw_signatures (sigs : list SignerSig) : list (list byte) :=
  filter_map (fun s => hex_bytes (sig_signature s)) sigs.

(** * The attester's reading (refund.rs) *)

Definition bound_submission_id (rec : SubmissionRecord) : option hash32 :=
  claimed ← hex32 (rec_submission_id rec);
  domain ← hex32 (rec_bridge_domain rec);
  debridge_id ← hex32 (rec_debridge_id rec);
  amount ← parse_uint 128 (rec_amount rec);
  decimals ← rec_bridge_decimals rec;
  receiver ← hex_bytes (rec_receiver rec);
  native_sender ← hex_bytes (rec_native_sender rec);
  blob ← hex_bytes (rec_auto_params rec);
  auto ← (match decode_evm_auto_params blob with Ok auto => Some auto | Err _ => None end);
  let computed := id_of_fields domain debridge_id decimals amount (rec_chain_id_from rec)
    (rec_chain_id_to rec) (rec_nonce rec) receiver
    ((fun w => HostHash.wire_to_auto w native_sender) <$> auto) in
  if bool_decide (computed = claimed) then Some claimed else None.

Definition attested_by {HC : HostCrypto} (sigs : list SignerSig) (digest_input : hash32) (me : evm_address)
    : bool :=
  let digest := eth_signed_digest digest_input in
  existsb (fun s => bool_decide ((b ← hex_bytes (sig_signature s); recovered_address digest b) = Some me)) sigs.

(** * Laws *)

Lemma id_of_fields_gate domain debridge_id decimals amount from to nonce receiver auto ns :
  is_u 64 amount ->
  id_of_fields domain debridge_id decimals amount from to nonce receiver
    ((fun w => HostHash.wire_to_auto w ns) <$> auto) =
  GateHash.submission_id domain debridge_id decimals amount from to nonce receiver auto ns.
Proof.
  intros Ha.
  set (t := GateHash.Transfer domain debridge_id decimals amount from to nonce receiver auto ns).
  change (GateHash.submission_id _ _ _ _ _ _ _ _ _ _) with (GateHash.transfer_id t).
  rewrite <- HostHash.host_transfer_id_gate by done. by destruct auto.
Qed.
Lemma wire_auto_wire w ns : is_u 128 (execution_fee w) -> is_u 64 (flags w) ->
  HostHash.auto_to_wire (HostHash.wire_to_auto w ns) = w.
Proof.
  intros Hf Hg. unfold HostHash.auto_to_wire, HostHash.wire_to_auto. simpl.
  rewrite !drop_app_length' by (by rewrite length_zeros).
  rewrite !Z_of_be_bytes, !Z.mod_small by done. by destruct w.
Qed.
Lemma u64_of_u128 z : is_u 64 z -> is_u 128 z.
Proof. unfold is_u. lia. Qed.

(** The fields a record is read into. *)
Lemma encodable_Ok rec domain enc : encodable rec domain = Ok enc ->
  hex32 (rec_submission_id rec) = Some (enc_id enc) /\ hex32 (rec_bridge_domain rec) = Some domain /\
  hex32 (rec_debridge_id rec) = Some (enc_debridge_id enc) /\ hex_bytes (rec_receiver rec) = Some (enc_receiver enc) /\
  hex_bytes (rec_native_sender rec) = Some (enc_native_sender enc) /\
  parse_uint 64 (rec_amount rec) = Some (enc_amount enc) /\ is_u 64 (enc_amount enc) /\
  rec_bridge_decimals rec = Some (enc_bridge_decimals enc) /\
  (exists blob, hex_bytes (rec_auto_params rec) = Some blob /\ decode_evm_auto_params blob = Ok (enc_auto enc)) /\
  GateHash.submission_id domain (enc_debridge_id enc) (enc_bridge_decimals enc) (enc_amount enc) (rec_chain_id_from rec)
    (rec_chain_id_to rec) (rec_nonce rec) (enc_receiver enc) (enc_auto enc) (enc_native_sender enc) = enc_id enc.
Proof.
  unfold encodable. intros H.
  apply result_bind_Ok in H as (id & Hid%ok_or_Ok & H).
  apply result_bind_Ok in H as (dom & Hdom%ok_or_Ok & H).
  apply result_bind_Ok in H as (u & Hd%require_Ok & H).
  apply result_bind_Ok in H as (did & Hdid%ok_or_Ok & H).
  apply result_bind_Ok in H as (recv & Hrecv%ok_or_Ok & H).
  apply result_bind_Ok in H as (ns & Hns%ok_or_Ok & H).
  apply result_bind_Ok in H as (amt & Hamt%ok_or_Ok & H).
  apply result_bind_Ok in H as (dec & Hdec%ok_or_Ok & H).
  apply result_bind_Ok in H as (blob & Hblob%ok_or_Ok & H).
  apply result_bind_Ok in H as (auto & Hauto%map_err_Ok & H).
  apply result_bind_Ok in H as (u' & Hrec%require_Ok & [= <-]). bool_inv. subst dom. cbn.
  assert (is_u 64 amt) as Ha by (by apply parse_uint_range in Hamt).
  rewrite id_of_fields_gate in Hrec by done. split_and!; try done. by exists blob.
Qed.
(** The arguments built from it hash to its id. *)
Lemma encodable_ids rec enc c sigs : encodable rec (cfg_bridge_domain c) = Ok enc ->
  (rec_chain_id_to rec = cfg_chain_id c ->
     claim_id c (claim_args rec enc sigs) = enc_id enc /\ cancel_sub_id c (cancel_args rec enc sigs) = enc_id enc) /\
  (rec_chain_id_from rec = cfg_chain_id c -> refund_sub_id c (refund_args rec enc sigs) = enc_id enc).
Proof.
  intros H. destruct (encodable_Ok _ _ _ H) as (_ & _ & _ & _ & _ & _ & _ & _ & _ & <-).
  split; [intros E; split|intros E]; unfold claim_id, cancel_sub_id, refund_sub_id; simpl; by rewrite <- E.
Qed.

(** What the submitter builds is what was signed. If a stored record, whatever an
    untrusted store put in it, can be encoded for a gate, then the claim and the
    cancellation built from it hash on that gate to exactly the record's own id
    when its destination is this gate's chain, and so does the refund when its
    source is; and the attester's own binding check accepts the same record under
    the same id. *)
Theorem encodable_binds rec gate_domain enc :
  encodable rec gate_domain = Ok enc ->
  bound_submission_id rec = Some (enc_id enc) /\ hex32 (rec_submission_id rec) = Some (enc_id enc) /\
  forall c sigs, cfg_bridge_domain c = gate_domain ->
    (rec_chain_id_to rec = cfg_chain_id c ->
       claim_id c (claim_args rec enc sigs) = enc_id enc /\
       cancel_sub_id c (cancel_args rec enc sigs) = enc_id enc) /\
    (rec_chain_id_from rec = cfg_chain_id c -> refund_sub_id c (refund_args rec enc sigs) = enc_id enc).
Proof.
  intros H. split_and!; [|by destruct (encodable_Ok _ _ _ H)|intros c sigs <-; by apply encodable_ids].
  apply encodable_Ok in H as (Hid & Hdom & Hdid & Hrecv & Hns & Hamt & Ha & Hdec & (blob & Hblob & Hauto) & Hrec).
  unfold bound_submission_id. rewrite Hid, Hdom, Hdid. cbn [mbind option_bind].
  rewrite (parse_uint_widen 64 128 _ _ ltac:(lia) Hamt). cbn [mbind option_bind].
  rewrite Hdec, Hrecv, Hns, Hblob. cbn [mbind option_bind]. rewrite Hauto. cbn [mbind option_bind].
  rewrite id_of_fields_gate by done. by rewrite bool_decide_eq_true_2.
Qed.

(** A signed event can be delivered. The record a validator posts for an event it
    may sign reads back, on the destination's submitter, as exactly the event's
    fields (amount, scale, corridor, receiver, sender and execution payload),
    under the id that was signed; on a gate of another deployment the same record
    is refused for its domain and for nothing else. *)
Theorem signed_record_encodable {SK : HostSigner} {HL : HexLaws} addr e sent domain chain_id :
  SentEvent_wf e -> to_sent e = Some sent -> signable sent domain chain_id = Ok tt ->
  let rec := signed_record addr domain sent in
  encodable rec domain = Ok (MkEncodableRecord (se_submission_id e) (se_debridge_id e) (se_amount e)
    (se_bridge_decimals e) (se_receiver e) (se_native_sender e) (se_auto e)) /\
  rec_chain_id_from rec = chain_id /\ rec_chain_id_to rec = se_chain_id_to e /\ rec_nonce rec = se_nonce e /\
  (forall other, other <> domain -> encodable rec other = Err (UnencodableDomain domain other)) /\
  raw_signatures (rec_signatures rec) =
    [let '(sig, recid) := ecdsa_sign (eth_signed_digest (se_submission_id e)) in sig ++ [byte_of_Z (recid + 27)]].
Proof.
  intros (Hv & Ha & Hb & Hf & Ht & Hn & Hr & Hs & Hau) Hsent Hsign rec.
  unfold to_sent in Hsent. destruct (negb _); [done|]. injection Hsent as <-.
  unfold signable in Hsign. apply result_bind_Ok in Hsign as (u & Hid%require_Ok & Hch%require_Ok). bool_inv.
  cbn in Hch. split_and!; [|done..| |].
  - unfold encodable, rec, signed_record. cbn -[parse_uint to_dec hex32 hex0x hex_bytes].
    rewrite !hex32_0x. cbn [ok_or mbind result_bind]. rewrite bool_decide_eq_true_2 by done. cbn [require].
    rewrite !hex_bytes_0x, parse_to_dec by (done || lia). cbn [ok_or mbind result_bind].
    match goal with |- context [ok_or (hex_bytes ?l) _] =>
      assert (exists blob, hex_bytes l = Some blob /\ decode_evm_auto_params blob = Ok (se_auto e)) as (blob & -> & Hdec) end.
    { destruct (se_auto e) as [w|]; simpl.
      - destruct (Hau w eq_refl) as (Hw1 & Hw2 & Hw3 & Hw4). rewrite wire_auto_wire by done.
        rewrite hex_bytes_0x. eexists; split; [done|]. apply decode_encode.
        split_and!; [done..|]. unfold is_u in *. lia.
      - by exists []. }
    cbn [ok_or mbind result_bind]. rewrite Hdec. cbn [map_err mbind result_bind].
    unfold recompute in Hid. cbn in Hid. rewrite bool_decide_eq_true_2 by done. done.
  - intros other Ho. unfold encodable, rec, signed_record. cbn -[hex32 hex0x hex_bytes].
    rewrite !hex32_0x. cbn [ok_or mbind result_bind]. by rewrite bool_decide_eq_false_2 by congruence.
  - unfold raw_signatures, rec, signed_record, filter_map, sign. cbn -[hex_bytes hex0x ecdsa_sign].
    destruct (ecdsa_sign _). by rewrite hex_bytes_0x.
Qed.
End HostRecord.
