(* ===== verification/SigStore.v ===== *)
(** The signature store (crates/bridge-core/src/store.rs): the file-backed store of
    submission records that validators write, keepers read and nobody trusts. What
    can ever be in it, what it never loses, and what its spelling-sensitive
    comparison of parameters lets a single writer do. The parsers of the alloy
    crates are a class; files are a map from file name to record. *)

From S2P Require Import Prelude.
From S2P Require Import Text.
From S2P Require Import SolanaRuntime.
From S2P Require Import GateTypes.
From S2P Require Import AbiParams.
From S2P Require Import LogScan.
From S2P Require Import HostVerify.
From S2P Require Import HostRecord.
From S2P Require CoreHash.
From S2P Require GateHash.
From S2P Require HostHash.

(** * What alloy provides *)

Class Alloy := {
  b256_from_str : text -> option hash32;
  address_from_str : text -> option evm_address;
  u256_from_str : text -> option Z;
  (** [AutoParamsTo::abi_decode]: fee, flags, fallback address, data *)
  auto_params_decode : list byte -> option (Z * Z * list byte * list byte);
  (** [Signature::try_from] and [normalized_s().as_bytes()] *)
  signature_normalized : list byte -> option (list byte);
  (** [Signature::try_from] and [recover_address_from_msg], over the EIP-191 digest *)
  recover_address_from_msg : hash32 -> list byte -> option evm_address;
}.

Definition eq_ignore_ascii_case (a b : text) : bool := bool_decide (to_ascii_lowercase a = to_ascii_lowercase b).

(** Strings that differ in the case of letters parse alike, when they parse; normalising a
    signature that recovers keeps its signer and is done once. *)
Class AlloyLaws `{Alloy} : Prop := {
  b256_case : forall a b x y, eq_ignore_ascii_case a b = true -> b256_from_str a = Some x -> b256_from_str b = Some y -> x = y;
  normalized_keeps : forall raw raw' m a, recover_address_from_msg m raw = Some a ->
    signature_normalized raw = Some raw' ->
    recover_address_from_msg m raw' = Some a /\ signature_normalized raw' = Some raw';
  recovered_parses : forall raw m a, recover_address_from_msg m raw = Some a -> is_Some (signature_normalized raw);
}.

(** [U256::to_string] *)
Definition u256_dec (z : Z) : text := dec_digits 77 z.
(** What alloy prints, it parses. *)
Class AlloyPrints `{Runtime, HexCodec, Alloy} : Prop := {
  u256_word_printed : forall z, is_u 256 z -> u256_from_str (u256_dec z) = Some z;
  address_printed : forall a : evm_address, address_from_str (hex0x (arr_bytes a)) = Some a;
}.

Inductive SigKind := Transfer | Cancel | Refund.
#[export] Instance SigKind_eq_dec : EqDecision SigKind.
Proof. solve_decision. Defined.

Section Store.
Context {RT : Runtime} {HX : HexCodec} {AL : Alloy}.

(** * Domains and errors *)

Definition kind_as_str (k : SigKind) : string :=
  match k with Transfer => "transfer" | Cancel => "cancel" | Refund => "refund" end.
Definition kind_parse (s : string) : option SigKind :=
  if bool_decide (s = "transfer") then Some Transfer
  else if bool_decide (s = "cancel") then Some Cancel
  else if bool_decide (s = "refund") then Some Refund else None.
Definition digest (k : SigKind) (submission_id : hash32) : hash32 :=
  match k with
  | Transfer => submission_id
  | Cancel => CoreHash.cancel_id submission_id
  | Refund => CoreHash.refund_id submission_id
  end.

(** Input and output and JSON errors are not modelled. *)
Inductive StoreError :=
  | BadField (field : string)
  | IdMismatch (claimed computed : hash32)
  | ParamsConflict (id : text)
  | BadSignature
  | SignerMismatch (claimed recovered : evm_address)
  | TokenMismatch (token : evm_address) (debridge_id : hash32) (chain_id : Z)
  | TooManySignatures (kind : string).

(** * Fields *)

Definition MAX_SIGNATURES_PER_SUBMISSION : nat := 64.
Definition MAX_ACCOUNT_BYTES : Z := 32.
Definition MAX_AUTO_PARAMS_BYTES : Z := 32 * 1024.
Definition MAX_UINT256_DECIMAL_LEN : Z := 78.

(** [str::len]: bytes of the UTF-8 form. *)
Definition utf8_len (c : Z) : Z := if c <? 128 then 1 else if c <? 2048 then 2 else if c <? 65536 then 3 else 4.
Definition str_len (s : text) : Z := fold_right (fun c n => utf8_len c + n) 0 s.
Definition is_ascii_hexdigit (c : Z) : bool :=
  is_digit c || ((65 <=? c) && (c <=? 70)) || ((97 <=? c) && (c <=? 102)).
Definition strip_0x (s : text) : text := default s (strip_prefix (txt "0x") s).

Definition is_valid_submission_id (s : text) : bool :=
  let s := strip_0x s in (str_len s =? 64) && forallb is_ascii_hexdigit s.
Definition file_path (submission_id : text) : text := strip_0x submission_id.

Definition hex_field (field : string) (s : text) : result StoreError (list byte) :=
  let s := strip_0x s in
  if bool_decide (s = []) then Ok [] else ok_or (hex_decode s) (BadField field).
Definition bounded_hex (field : string) (s : text) (max_bytes : Z) : result StoreError unit :=
  require (negb (2 * max_bytes <? str_len (strip_0x s))) (BadField field).
Definition check_storable (r : SubmissionRecord) : result StoreError unit :=
  _ ← bounded_hex "receiver" (rec_receiver r) MAX_ACCOUNT_BYTES;
  _ ← bounded_hex "native_sender" (rec_native_sender r) MAX_ACCOUNT_BYTES;
  _ ← bounded_hex "auto_params" (rec_auto_params r) MAX_AUTO_PARAMS_BYTES;
  _ ← bounded_hex "bridge_domain" (rec_bridge_domain r) 32;
  _ ← bounded_hex "debridge_id" (rec_debridge_id r) 32;
  _ ← bounded_hex "token" (rec_token r) 20;
  require (negb (MAX_UINT256_DECIMAL_LEN <? str_len (rec_amount r))) (BadField "amount").

Definition same_params (a b : SubmissionRecord) : bool :=
  eq_ignore_ascii_case (rec_submission_id a) (rec_submission_id b)
  && eq_ignore_ascii_case (rec_debridge_id a) (rec_debridge_id b)
  && bool_decide (rec_amount a = rec_amount b)
  && (rec_chain_id_from a =? rec_chain_id_from b)
  && (rec_chain_id_to a =? rec_chain_id_to b)
  && (rec_nonce a =? rec_nonce b)
  && eq_ignore_ascii_case (rec_receiver a) (rec_receiver b)
  && eq_ignore_ascii_case (rec_auto_params a) (rec_auto_params b)
  && eq_ignore_ascii_case (rec_native_sender a) (rec_native_sender b).

(** * Checks *)

(** [bridge_core::decode_auto_params] *)
Definition decode_auto_params (auto_params native_sender : list byte) : option (option CoreHash.AutoParams) :=
  if bool_decide (auto_params = []) then Some None
  else '(fee, flags, fallback, data) ← auto_params_decode auto_params;
       Some (Some (CoreHash.MkAutoParams fee flags fallback data native_sender)).

Definition canonical_submission_id (r : SubmissionRecord) : result StoreError hash32 :=
  bridge_domain ← ok_or (b256_from_str (rec_bridge_domain r)) (BadField "bridge_domain");
  debridge_id ← ok_or (b256_from_str (rec_debridge_id r)) (BadField "debridge_id");
  amount ← ok_or (u256_from_str (rec_amount r)) (BadField "amount");
  bridge_decimals ← ok_or (rec_bridge_decimals r) (BadField "bridge_decimals");
  receiver ← hex_field "receiver" (rec_receiver r);
  auto_params ← hex_field "auto_params" (rec_auto_params r);
  native_sender ← hex_field "native_sender" (rec_native_sender r);
  auto ← ok_or (decode_auto_params auto_params native_sender) (BadField "auto_params");
  Ok (match auto with
      | None => CoreHash.submission_id bridge_domain debridge_id bridge_decimals amount
                  (rec_chain_id_from r) (rec_chain_id_to r) (rec_nonce r) receiver
      | Some auto => CoreHash.submission_id_with_auto bridge_domain debridge_id bridge_decimals amount
                  (rec_chain_id_from r) (rec_chain_id_to r) (rec_nonce r) receiver auto
      end).

Definition verify_signature (submission_id : hash32) (sig : SignerSig) : result StoreError evm_address :=
  claimed ← ok_or (address_from_str (sig_signer sig)) (BadField "signer");
  raw ← hex_field "signature" (sig_signature sig);
  recovered ← ok_or (recover_address_from_msg submission_id raw) BadSignature;
  _ ← require (bool_decide (recovered = claimed)) (SignerMismatch claimed recovered);
  Ok recovered.
Definition canonical_signature (sig : SignerSig) : result StoreError SignerSig :=
  raw ← hex_field "signature" (sig_signature sig);
  bytes ← ok_or (signature_normalized raw) BadSignature;
  Ok (MkSignerSig (sig_signer sig) (hex0x bytes)).
Definition verify_attestation (submission_id : hash32) (kind : SigKind) (sig : SignerSig)
    : result StoreError evm_address :=
  verify_signature (digest kind submission_id) sig.
Definition verify_token_binding (r : SubmissionRecord) : result StoreError unit :=
  if bool_decide (rec_token r = []) then Ok tt
  else
    token ← ok_or (address_from_str (rec_token r)) (BadField "token");
    debridge_id ← ok_or (b256_from_str (rec_debridge_id r)) (BadField "debridge_id");
    require (bool_decide (CoreHash.debridge_id (rec_chain_id_from r) token = debridge_id))
      (TokenMismatch token debridge_id (rec_chain_id_from r)).

Definition push_capped (bucket : list SignerSig) (sig : SignerSig) (kind : string)
    : result StoreError (list SignerSig) :=
  if existsb (fun s => eq_ignore_ascii_case (sig_signer s) (sig_signer sig)) bucket then Ok bucket
  else
    _ ← require (negb (MAX_SIGNATURES_PER_SUBMISSION <=? length bucket)%nat) (TooManySignatures kind);
    Ok (bucket ++ [sig]).

(** * The operations *)

(** File name to record. *)
Abbreviation store := (gmap text SubmissionRecord).

Definition with_signatures (r : SubmissionRecord) (token : text) (t c f : list SignerSig) : SubmissionRecord :=
  MkSubmissionRecord (rec_submission_id r) (rec_bridge_domain r) (rec_debridge_id r) (rec_amount r)
    (rec_bridge_decimals r) (rec_chain_id_from r) (rec_chain_id_to r) (rec_nonce r) (rec_receiver r)
    (rec_auto_params r) (rec_native_sender r) token t c f.

(** The checks of a record against its own id, and of its signature. *)
Definition admit_record (record : SubmissionRecord) (sig : SignerSig) : result StoreError SignerSig :=
  _ ← require (is_valid_submission_id (rec_submission_id record)) (BadField "submission_id");
  _ ← check_storable record;
  computed ← canonical_submission_id record;
  claimed ← ok_or (b256_from_str (rec_submission_id record)) (BadField "submission_id");
  _ ← require (bool_decide (computed = claimed)) (IdMismatch claimed computed);
  _ ← verify_signature computed sig;
  sig ← canonical_signature sig;
  _ ← verify_token_binding record;
  Ok sig.
(** A stored record under the same file name keeps what it has. *)
Definition merge_existing (fs : store) (record : SubmissionRecord) : result StoreError SubmissionRecord :=
  match fs !! file_path (rec_submission_id record) with
  | None => Ok record
  | Some existing =>
      _ ← require (same_params existing record) (ParamsConflict (rec_submission_id record));
      Ok (with_signatures record (if bool_decide (rec_token existing = []) then rec_token record else rec_token existing)
            (rec_signatures existing) (rec_cancel_signatures existing) (rec_refund_signatures existing))
  end.
Definition upsert_signature (fs : store) (record : SubmissionRecord) (sig : SignerSig)
    : result StoreError (SubmissionRecord * store) :=
  sig ← admit_record record sig;
  record ← merge_existing fs record;
  signatures ← push_capped (rec_signatures record) sig "transfer";
  let record := with_signatures record (rec_token record) signatures (rec_cancel_signatures record)
    (rec_refund_signatures record) in
  Ok (record, <[file_path (rec_submission_id record) := record]> fs).

Definition bucket (r : SubmissionRecord) (kind : SigKind) : list SignerSig :=
  match kind with
  | Transfer => rec_signatures r | Cancel => rec_cancel_signatures r | Refund => rec_refund_signatures r
  end.
Definition with_bucket (r : SubmissionRecord) (kind : SigKind) (l : list SignerSig) : SubmissionRecord :=
  with_signatures r (rec_token r)
    (match kind with Transfer => l | _ => rec_signatures r end)
    (match kind with Cancel => l | _ => rec_cancel_signatures r end)
    (match kind with Refund => l | _ => rec_refund_signatures r end).
Definition upsert_attestation (fs : store) (submission_id : text) (kind : SigKind) (sig : SignerSig)
    : result StoreError (SubmissionRecord * store) :=
  _ ← require (is_valid_submission_id submission_id) (BadField "submission_id");
  record ← ok_or (fs !! file_path submission_id) (BadField "submission_id");
  id ← ok_or (b256_from_str (rec_submission_id record)) (BadField "submission_id");
  _ ← verify_attestation id kind sig;
  sig ← canonical_signature sig;
  l ← push_capped (bucket record kind) sig (kind_as_str kind);
  let record := with_bucket record kind l in
  Ok (record, <[file_path submission_id := record]> fs).

Definition load (fs : store) (submission_id : text) : option SubmissionRecord :=
  if negb (is_valid_submission_id submission_id) then None else fs !! file_path submission_id.

(** * What can be in the store *)

Definition same_signer (a b : SignerSig) : Prop := to_ascii_lowercase (sig_signer a) = to_ascii_lowercase (sig_signer b).
(** A signature that the signer made over [m], in the form the gates accept. *)
Definition authentic (m : hash32) (s : SignerSig) : Prop :=
  exists a raw, address_from_str (sig_signer s) = Some a /\ hex_field "signature" (sig_signature s) = Ok raw /\
    recover_address_from_msg m raw = Some a /\ signature_normalized raw = Some raw.
Record bucket_ok (m : hash32) (l : list SignerSig) : Prop := {
  bk_authentic : Forall (authentic m) l;
  bk_distinct : NoDup (map (fun s => to_ascii_lowercase (sig_signer s)) l);
  bk_bounded : (length l <= MAX_SIGNATURES_PER_SUBMISSION)%nat;
}.
Definition token_ok (r : SubmissionRecord) : Prop := verify_token_binding r = Ok tt.
Record record_ok (file : text) (r : SubmissionRecord) (id : hash32) : Prop := {
  ro_file : file = file_path (rec_submission_id r);
  ro_named : b256_from_str (rec_submission_id r) = Some id;
  ro_bound : canonical_submission_id r = Ok id;
  ro_storable : check_storable r = Ok tt;
  ro_token : token_ok r;
  ro_buckets : forall k, bucket_ok (digest k id) (bucket r k);
}.

(** What every caller posts: the parameters, and no signature but its own. *)
Definition unsigned (r : SubmissionRecord) : Prop := forall k, bucket r k = [].
Inductive store_step (fs : store) : store -> Prop :=
  | StepUpsert record sig r fs' : unsigned record -> upsert_signature fs record sig = Ok (r, fs') -> store_step fs fs'
  | StepAttest id kind sig r fs' : upsert_attestation fs id kind sig = Ok (r, fs') -> store_step fs fs'.
Inductive reachable : store -> Prop :=
  | ReachEmpty : reachable ∅
  | ReachStep fs fs' : reachable fs -> store_step fs fs' -> reachable fs'.

(** ** The operations, when they succeed *)

Lemma push_capped_Ok l s k l' : push_capped l s k = Ok l' ->
  (l' = l /\ exists t, t ∈ l /\ same_signer t s) \/
  (l' = l ++ [s] /\ (length l < MAX_SIGNATURES_PER_SUBMISSION)%nat /\ Forall (fun t => ~ same_signer t s) l).
Proof.
  unfold push_capped, eq_ignore_ascii_case. destruct (existsb _ l) eqn:E.
  - intros [= <-]. left. split; [done|]. apply existsb_exists in E as (t & Ht & E%bool_decide_eq_true).
    exists t. split; [by apply list_elem_of_In|done].
  - intros H. apply result_bind_Ok in H as (u & Hl%require_Ok & [= <-]). right. split; [done|].
    apply negb_true_iff, Nat.leb_gt in Hl. split; [done|]. apply Forall_forall. intros t Ht Hs.
    apply not_true_iff_false in E. apply E, existsb_exists. exists t. rewrite bool_decide_eq_true.
    by rewrite <- list_elem_of_In.
Qed.
Lemma push_capped_ok m l s k l' : bucket_ok m l -> authentic m s -> push_capped l s k = Ok l' ->
  bucket_ok m l' /\ l `prefix_of` l' /\ exists t, t ∈ l' /\ same_signer t s.
Proof.
  intros [Ha Hd Hb] Hs [(-> & t & Ht & E)|(-> & Hl & Hn)]%push_capped_Ok.
  - split; [by constructor|]. eauto.
  - split; [constructor|].
    + apply Forall_app. by rewrite Forall_singleton.
    + rewrite map_app. apply NoDup_app. split; [done|]. split; [|apply NoDup_singleton].
      intros x Hx ->%list_elem_of_singleton. apply list_elem_of_In, in_map_iff in Hx as (t & E & Ht).
      rewrite Forall_forall in Hn. apply (Hn t); [by apply list_elem_of_In|done].
    + rewrite length_app. simpl. lia.
    + split; [by exists [s]|]. exists s. split; [set_solver|done].
Qed.

Context {HL : HexLaws} {ALL : AlloyLaws}.

Lemma hex_field_0x f b : hex_field f (hex0x b) = Ok b.
Proof.
  unfold hex_field, strip_0x, hex0x. rewrite strip_prefix_app. simpl.
  case_bool_decide as E; [|by rewrite hex_roundtrip].
  pose proof (hex_length b) as H. rewrite E in H. by destruct b.
Qed.
Lemma verified_authentic m s a s' : verify_signature m s = Ok a -> canonical_signature s = Ok s' ->
  authentic m s' /\ sig_signer s' = sig_signer s.
Proof.
  unfold verify_signature, canonical_signature. intros H H'.
  apply result_bind_Ok in H as (c & Hc%ok_or_Ok & H). apply result_bind_Ok in H as (raw & Hraw & H).
  apply result_bind_Ok in H as (r & Hr%ok_or_Ok & H). apply result_bind_Ok in H as (u & Hb%require_Ok & [= <-]).
  bool_inv. subst r. rewrite Hraw in H'. cbn [mbind result_bind] in H'.
  apply result_bind_Ok in H' as (b & Hb%ok_or_Ok & [= <-]). split; [|done]. exists c, b. cbn [sig_signer sig_signature].
  rewrite hex_field_0x. destruct (normalized_keeps _ _ _ _ Hr Hb). by split_and!.
Qed.
Lemma admit_record_Ok record sig s : admit_record record sig = Ok s ->
  exists id, b256_from_str (rec_submission_id record) = Some id /\ canonical_submission_id record = Ok id /\
    check_storable record = Ok tt /\ token_ok record /\ authentic id s /\ sig_signer s = sig_signer sig.
Proof.
  unfold admit_record. intros H. apply result_bind_Ok in H as (u & _ & H).
  apply result_bind_Ok in H as ([] & Hst & H). apply result_bind_Ok in H as (id & Hid & H).
  apply result_bind_Ok in H as (cl & Hcl%ok_or_Ok & H). apply result_bind_Ok in H as (u2 & Heq%require_Ok & H).
  apply result_bind_Ok in H as (a & Ha & H). apply result_bind_Ok in H as (s1 & Hs & H).
  apply result_bind_Ok in H as ([] & Htok & [= <-]). bool_inv. subst cl. exists id.
  destruct (verified_authentic _ _ _ _ Ha Hs). by split_and!.
Qed.

Lemma same_params_refl r : same_params r r = true.
Proof. unfold same_params, eq_ignore_ascii_case. by rewrite !Z.eqb_refl, !bool_decide_eq_true_2. Qed.
Lemma same_params_iff a b : same_params a b = true <->
  to_ascii_lowercase (rec_submission_id a) = to_ascii_lowercase (rec_submission_id b) /\
  to_ascii_lowercase (rec_debridge_id a) = to_ascii_lowercase (rec_debridge_id b) /\
  rec_amount a = rec_amount b /\ rec_chain_id_from a = rec_chain_id_from b /\
  rec_chain_id_to a = rec_chain_id_to b /\ rec_nonce a = rec_nonce b /\
  to_ascii_lowercase (rec_receiver a) = to_ascii_lowercase (rec_receiver b) /\
  to_ascii_lowercase (rec_auto_params a) = to_ascii_lowercase (rec_auto_params b) /\
  to_ascii_lowercase (rec_native_sender a) = to_ascii_lowercase (rec_native_sender b).
Proof.
  unfold same_params, eq_ignore_ascii_case. rewrite !andb_true_iff, !bool_decide_eq_true, !Z.eqb_eq. tauto.
Qed.
Lemma same_params_trans a b c : same_params a b = true -> same_params b c = true -> same_params a c = true.
Proof.
  rewrite !same_params_iff. intros (? & ? & ? & ? & ? & ? & ? & ? & ?) (? & ? & ? & ? & ? & ? & ? & ? & ?).
  split_and!; congruence.
Qed.
Lemma same_params_sym a b : same_params a b = true -> same_params b a = true.
Proof. rewrite !same_params_iff. naive_solver. Qed.

(** What a successful merge makes of the record. *)
Lemma merge_existing_Ok fs r r' : merge_existing fs r = Ok r' ->
  match fs !! file_path (rec_submission_id r) with
  | None => r' = r
  | Some old => same_params old r = true /\
      r' = with_signatures r (if bool_decide (rec_token old = []) then rec_token r else rec_token old)
             (rec_signatures old) (rec_cancel_signatures old) (rec_refund_signatures old)
  end.
Proof.
  unfold merge_existing. destruct (fs !! _) as [old|]; [|by intros [= <-]].
  intros H. apply result_bind_Ok in H as (u & Hp%require_Ok & [= <-]). done.
Qed.
Lemma merged_token fs r r' id : merge_existing fs r = Ok r' -> token_ok r -> canonical_submission_id r = Ok id ->
  (forall old, fs !! file_path (rec_submission_id r) = Some old ->
    record_ok (file_path (rec_submission_id r)) old id) -> token_ok r'.
Proof.
  intros Hm%merge_existing_Ok Hr Hid Hold. destruct (fs !! _) as [old|]; [|by subst]. destruct Hm as [Hs ->].
  destruct (Hold old eq_refl) as [_ _ _ _ Ht _]. apply same_params_iff in Hs as (_ & Hd & _ & Hc & _).
  unfold token_ok, verify_token_binding in *. cbn [with_signatures rec_token rec_debridge_id rec_chain_id_from].
  destruct (decide (rec_token old = [])) as [E|E]; [by rewrite (bool_decide_eq_true_2 _ E)|].
  rewrite (bool_decide_eq_false_2 _ E) in *. rewrite (bool_decide_eq_false_2 _ E).
  unfold canonical_submission_id in Hid. apply result_bind_Ok in Hid as (dom & _ & Hid).
  apply result_bind_Ok in Hid as (d & Hd2%ok_or_Ok & _). rewrite Hd2. cbn [ok_or mbind result_bind].
  apply result_bind_Ok in Ht as (tok & -> & Ht). cbn [mbind result_bind].
  apply result_bind_Ok in Ht as (d' & Hd1%ok_or_Ok & Ht). rewrite <- Hc.
  by rewrite <- (b256_case (rec_debridge_id old) (rec_debridge_id r) d' d) by (done || by apply bool_decide_eq_true_2).
Qed.

Lemma bucket_with r kind l k : bucket (with_bucket r kind l) k = if decide (k = kind) then l else bucket r k.
Proof. by destruct kind, k. Qed.

(** ** Every reachable record *)

Definition store_ok (fs : store) : Prop := forall file r, fs !! file = Some r -> exists id, record_ok file r id.

Lemma empty_bucket m : bucket_ok m [].
Proof. constructor; [done|constructor|simpl; unfold MAX_SIGNATURES_PER_SUBMISSION; lia]. Qed.

Lemma bounded_hex_iff f t n : bounded_hex f t n = Ok tt <-> str_len (strip_0x t) <= 2 * n.
Proof. unfold bounded_hex. rewrite require_Ok, negb_true_iff, Z.ltb_ge. done. Qed.
Lemma bind_unit_iff {E} (m : result E unit) (k : result E unit) :
  m ≫= (fun _ => k) = Ok tt <-> m = Ok tt /\ k = Ok tt.
Proof. destruct m as [[]|]; simpl; naive_solver. Qed.
Lemma check_storable_iff r : check_storable r = Ok tt <->
  str_len (strip_0x (rec_receiver r)) <= 2 * MAX_ACCOUNT_BYTES /\
  str_len (strip_0x (rec_native_sender r)) <= 2 * MAX_ACCOUNT_BYTES /\
  str_len (strip_0x (rec_auto_params r)) <= 2 * MAX_AUTO_PARAMS_BYTES /\
  str_len (strip_0x (rec_bridge_domain r)) <= 2 * 32 /\ str_len (strip_0x (rec_debridge_id r)) <= 2 * 32 /\
  str_len (strip_0x (rec_token r)) <= 2 * 20 /\ str_len (rec_amount r) <= MAX_UINT256_DECIMAL_LEN.
Proof.
  unfold check_storable. rewrite !bind_unit_iff, !bounded_hex_iff, require_Ok, negb_true_iff, Z.ltb_ge. done.
Qed.

(** What a successful merge leaves is a record in order, before and after its bucket
    gets the signature. *)
Lemma merged_ok fs r r' id : merge_existing fs r = Ok r' -> unsigned r ->
  b256_from_str (rec_submission_id r) = Some id -> canonical_submission_id r = Ok id ->
  check_storable r = Ok tt -> token_ok r -> store_ok fs ->
  rec_submission_id r' = rec_submission_id r /\ record_ok (file_path (rec_submission_id r)) r' id.
Proof.
  intros Hm Hun Hn Hid Hsz Ht Hst.
  assert (forall old, fs !! file_path (rec_submission_id r) = Some old ->
    record_ok (file_path (rec_submission_id r)) old id) as Hold.
  { intros old Ho. destruct (Hst _ _ Ho) as [id' Hr]. enough (id' = id) as -> by done.
    pose proof (merge_existing_Ok _ _ _ Hm) as Hm'. rewrite Ho in Hm'. destruct Hm' as [Hs _].
    apply same_params_iff in Hs as (E & _). pose proof (ro_named _ _ _ Hr) as E'.
    eapply (b256_case _ (rec_submission_id r)); [by apply bool_decide_eq_true_2|done|done]. }
  pose proof (merged_token _ _ _ _ Hm Ht Hid Hold) as Htok. apply merge_existing_Ok in Hm.
  destruct (fs !! _) as [old|].
  - destruct Hm as [_ ->]. specialize (Hold old eq_refl). split; [done|]. constructor; try done.
    + apply check_storable_iff in Hsz as (? & ? & ? & ? & ? & ? & ?).
      pose proof (ro_storable _ _ _ Hold) as Ho. apply check_storable_iff in Ho as (_ & _ & _ & _ & _ & ? & _).
      apply check_storable_iff. simpl. split_and!; try done. by case_bool_decide.
    + intros k. pose proof (ro_buckets _ _ _ Hold k). by destruct k.
  - subst r'. split; [done|]. constructor; try done. intros k. rewrite Hun. apply empty_bucket.
Qed.
Lemma with_bucket_ok file r id k s l : record_ok file r id -> authentic (digest k id) s ->
  push_capped (bucket r k) s (kind_as_str k) = Ok l -> record_ok file (with_bucket r k l) id.
Proof.
  intros [? ? ? ? ? Hb] Hs Hp. constructor; try done. intros k'. rewrite bucket_with. case_decide; [subst|done].
  by destruct (push_capped_ok _ _ _ _ _ (Hb k) Hs Hp).
Qed.
Lemma store_ok_insert fs file r id : store_ok fs -> record_ok file r id -> store_ok (<[file := r]> fs).
Proof.
  intros Hst Hr f q. destruct (decide (f = file)) as [->|]; [rewrite lookup_insert_eq|by rewrite lookup_insert_ne; eauto].
  intros [= <-]. eauto.
Qed.

(** A step on one file: what was there, what is there now. *)
Lemma step_spec fs fs' : store_ok fs -> store_step fs fs' ->
  exists file r r' id k s, fs' = <[file := r']> fs /\ record_ok file r' id /\ record_ok file r id /\
    (fs !! file = None /\ unsigned r \/ exists old, fs !! file = Some old /\ same_params old r = true /\ forall k, bucket r k = bucket old k) /\
    push_capped (bucket r k) s (kind_as_str k) = Ok (bucket r' k) /\ r' = with_bucket r k (bucket r' k).
Proof.
  intros Hst [record sig r fs1 Hun H|sid kind sig r fs1 H].
  - unfold upsert_signature in H. apply result_bind_Ok in H as (s & Ha & H).
    apply admit_record_Ok in Ha as (id & Hn & Hid & Hsz & Ht & Hau & _).
    apply result_bind_Ok in H as (rec & Hm & H). apply result_bind_Ok in H as (l & Hl & [= <- <-]).
    destruct (merged_ok _ _ _ _ Hm Hun Hn Hid Hsz Ht Hst) as [Eid Hrec].
    exists (file_path (rec_submission_id record)), rec, (with_bucket rec Transfer l), id, Transfer, s.
    split_and!; [by cbn; rewrite Eid|by eapply with_bucket_ok|done| |done|done].
    apply merge_existing_Ok in Hm. destruct (fs !! _) as [old|]; [right|left; by subst].
    exists old. destruct Hm as [Hs ->]. split_and!; [done|done|]. by intros [].
  - unfold upsert_attestation in H. apply result_bind_Ok in H as (u & _ & H).
    apply result_bind_Ok in H as (old & Ho%ok_or_Ok & H). apply result_bind_Ok in H as (id & Hid%ok_or_Ok & H).
    apply result_bind_Ok in H as (a & Ha & H). apply result_bind_Ok in H as (s & Hs & H).
    apply result_bind_Ok in H as (l & Hl & [= <- <-]). destruct (Hst _ _ Ho) as [id' Hr].
    assert (id' = id) as -> by (pose proof (ro_named _ _ _ Hr); congruence).
    destruct (verified_authentic _ _ _ _ Ha Hs) as [Hau _].
    exists (file_path sid), old, (with_bucket old kind l), id, kind, s.
    assert (bucket (with_bucket old kind l) kind = l) as El by (by rewrite bucket_with, decide_True).
    rewrite El. split_and!; [done|by eapply with_bucket_ok|done| |done|done].
    right. exists old. by rewrite same_params_refl.
Qed.

Lemma step_ok fs fs' : store_ok fs -> store_step fs fs' -> store_ok fs'.
Proof. intros Hst Hs. destruct (step_spec _ _ Hst Hs) as (? & ? & ? & ? & ? & ? & -> & ? & _). by eapply store_ok_insert. Qed.
Lemma reachable_ok fs : reachable fs -> store_ok fs.
Proof. induction 1 as [|fs fs' _ IH Hs]; [by intros ? ?; rewrite lookup_empty|by eapply step_ok]. Qed.

(** Whatever is posted, the store holds only what the validators signed. In every
    store reachable by its two operations, from callers that post no signature but
    their own, each file holds a record named by the file, whose id is the hash of
    its own parameters and whose token hashes to its asset id; every signature in
    its three buckets was made by its claimed signer over the digest of that bucket's
    own domain and is in the one encoding the gates accept; no signer is in a bucket
    twice, in whatever spelling, and no bucket exceeds its cap. *)
Theorem store_always_authentic fs file r : reachable fs -> fs !! file = Some r -> exists id, record_ok file r id.
Proof. intros H. by apply reachable_ok. Qed.

(** What a record may become: the same parameters up to the case of hex digits, with
    more signatures behind those it has. *)
Definition extends (r r' : SubmissionRecord) : Prop :=
  same_params r r' = true /\ forall k, bucket r k `prefix_of` bucket r' k.
Lemma step_extends fs fs' file r : store_ok fs -> store_step fs fs' -> fs !! file = Some r ->
  exists r', fs' !! file = Some r' /\ extends r r'.
Proof.
  intros Hst Hs Hr. destruct (step_spec _ _ Hst Hs) as (f & r0 & r' & id & k & s & -> & _ & _ & Hold & Hp & Er).
  destruct (decide (file = f)) as [->|Hne].
  2: { exists r. rewrite lookup_insert_ne by done. split; [done|]. split; [apply same_params_refl|done]. }
  exists r'. rewrite lookup_insert_eq. split; [done|]. destruct Hold as [[Hn _]|(old & Ho & Hsame & Hb)]; [congruence|].
  rewrite Ho in Hr. injection Hr as ->. rewrite Er. split; [exact Hsame|].
  intros k'. rewrite bucket_with. case_decide; [subst|by rewrite Hb]. rewrite <- Hb.
  apply push_capped_Ok in Hp as [(-> & _)|(-> & _)]; [done|by exists [s]].
Qed.
Lemma steps_extend fs fs' file r : store_ok fs -> rtc store_step fs fs' -> fs !! file = Some r ->
  store_ok fs' /\ exists r', fs' !! file = Some r' /\ extends r r'.
Proof.
  intros Hst H. revert r. induction H as [fs|fs fs1 fs2 Hs _ IH]; intros r Hr.
  - split; [done|]. exists r. split; [done|]. split; [apply same_params_refl|done].
  - destruct (step_extends _ _ _ _ Hst Hs Hr) as (r1 & Hr1 & He1 & He1').
    destruct (IH (step_ok _ _ Hst Hs) r1 Hr1) as (Hst2 & r2 & Hr2 & He2 & He2'). split; [done|].
    exists r2. split; [done|]. split; [by eapply same_params_trans|]. intros k. etransitivity; [apply He1'|apply He2'].
Qed.

(** Nothing stored is lost or rewritten. From any reachable store, whatever is posted
    next by whomever, a stored record stays in its file with the same parameters (up
    to the case of hex digits), and each of its three lists of signatures only
    grows at its end; a post that fails changes nothing. *)
Theorem store_append_only fs fs' file r : reachable fs -> rtc store_step fs fs' -> fs !! file = Some r ->
  exists r', fs' !! file = Some r' /\ extends r r'.
Proof. intros Hr%reachable_ok Hs Hf. by destruct (steps_extend _ _ _ _ Hr Hs Hf). Qed.

(** ** Who can be kept out *)

(** The same transfer with its receiver spelled without the prefix. *)
Definition respelled (r : SubmissionRecord) (receiver : list byte) : SubmissionRecord :=
  MkSubmissionRecord (rec_submission_id r) (rec_bridge_domain r) (rec_debridge_id r) (rec_amount r)
    (rec_bridge_decimals r) (rec_chain_id_from r) (rec_chain_id_to r) (rec_nonce r) (hex_encode receiver)
    (rec_auto_params r) (rec_native_sender r) (rec_token r) (rec_signatures r) (rec_cancel_signatures r)
    (rec_refund_signatures r).
Lemma strip_hex b : strip_0x (hex_encode b) = hex_encode b.
Proof.
  unfold strip_0x. destruct (strip_prefix (txt "0x") (hex_encode b)) as [r|] eqn:E; [|done].
  apply strip_prefix_Some in E. pose proof (hex_chars b) as H. rewrite E in H. exfalso.
  change (txt "0x") with [48; 120] in H. cbn [app] in H.
  apply Forall_cons in H as [_ H]. apply Forall_cons in H as [H _]. discriminate H.
Qed.
Lemma strip_0x_hex b : strip_0x (hex0x b) = hex_encode b.
Proof. unfold strip_0x, hex0x. by rewrite strip_prefix_app. Qed.
Lemma respelled_admitted r b sig : rec_receiver r = hex0x b -> admit_record (respelled r b) sig = admit_record r sig.
Proof.
  intros Hb. unfold admit_record.
  assert (check_storable (respelled r b) = check_storable r) as ->.
  { unfold check_storable, bounded_hex. cbn [respelled rec_receiver rec_native_sender rec_auto_params rec_bridge_domain
      rec_debridge_id rec_token rec_amount]. by rewrite Hb, strip_hex, strip_0x_hex. }
  assert (canonical_submission_id (respelled r b) = canonical_submission_id r) as ->; [|done].
  unfold canonical_submission_id. cbn [respelled rec_receiver rec_native_sender rec_auto_params rec_bridge_domain
    rec_debridge_id rec_amount rec_bridge_decimals rec_chain_id_from rec_chain_id_to rec_nonce].
  assert (hex_field "receiver" (hex_encode b) = hex_field "receiver" (rec_receiver r)) as ->; [|done].
  unfold hex_field. by rewrite Hb, strip_hex, strip_0x_hex.
Qed.

(** One writer can keep every other signature out. Take any record the store admits
    with its receiver spelled the usual way, with the prefix, and a store that does not hold
    it yet. A single writer with any key of its own can store the same transfer with
    the receiver spelled without the prefix: that record passes every check. From then on, whatever
    happens, every further signature for the record as the validators spell it is
    refused as a conflict of parameters. *)
Theorem respelled_record_blocks fs r b own s :
  reachable fs -> unsigned r -> rec_receiver r = hex0x b -> fs !! file_path (rec_submission_id r) = None ->
  admit_record r own = Ok s ->
  exists r' fs', upsert_signature fs (respelled r b) own = Ok (r', fs') /\
    forall fs2 sig s2, rtc store_step fs' fs2 -> admit_record r sig = Ok s2 ->
      upsert_signature fs2 r sig = Err (ParamsConflict (rec_submission_id r)).
Proof.
  intros Hreach Hun Hb Hnew Ha. pose proof (reachable_ok _ Hreach) as Hst.
  assert (exists r' fs', upsert_signature fs (respelled r b) own = Ok (r', fs')) as (r' & fs' & Hup).
  { unfold upsert_signature. rewrite respelled_admitted, Ha by done. cbn [mbind result_bind].
    unfold merge_existing. change (rec_submission_id (respelled r b)) with (rec_submission_id r). rewrite Hnew.
    cbn [mbind result_bind]. change (rec_signatures (respelled r b)) with (bucket r Transfer). rewrite Hun.
    eexists _, _. reflexivity. }
  exists r', fs'. split; [done|]. intros fs2 sig s2 Hsteps Ha2.
  assert (fs' !! file_path (rec_submission_id r) = Some r' /\ rec_receiver r' = hex_encode b) as [Hin Hrecv].
  { unfold upsert_signature in Hup. rewrite respelled_admitted, Ha in Hup by done. cbn [mbind result_bind] in Hup.
    unfold merge_existing in Hup. change (rec_submission_id (respelled r b)) with (rec_submission_id r) in Hup.
    rewrite Hnew in Hup. cbn [mbind result_bind] in Hup. apply result_bind_Ok in Hup as (l & _ & [= <- <-]).
    cbn [respelled with_signatures rec_submission_id rec_receiver]. by rewrite lookup_insert_eq. }
  assert (unsigned (respelled r b)) as Hun' by (intros k; rewrite <- (Hun k); by destruct k).
  assert (store_step fs fs') as Hs by (by apply (StepUpsert fs (respelled r b) own r' fs')).
  destruct (steps_extend _ _ _ _ (step_ok _ _ Hst Hs) Hsteps Hin) as (_ & r2 & Hr2 & [Hsame _]).
  unfold upsert_signature. rewrite Ha2. cbn [mbind result_bind]. unfold merge_existing. rewrite Hr2.
  destruct (same_params r2 r) eqn:Hbad; [exfalso|done].
  apply (same_params_trans _ _ _ Hsame), same_params_iff in Hbad as (_ & _ & _ & _ & _ & _ & E & _).
  rewrite Hrecv, Hb in E. apply (f_equal length) in E. unfold to_ascii_lowercase, hex0x in E.
  rewrite !length_map, length_app in E. change (length (txt "0x")) with 2%nat in E. lia.
Qed.

(** ** Who gets in *)

Definition has_room (l : list SignerSig) (s : SignerSig) : Prop :=
  (length l < MAX_SIGNATURES_PER_SUBMISSION)%nat \/ exists t, t ∈ l /\ same_signer t s.
Lemma push_capped_run l s k : has_room l s -> exists l', push_capped l s k = Ok l'.
Proof.
  intros H. unfold push_capped, eq_ignore_ascii_case. destruct (existsb _ l) eqn:E; [eauto|].
  destruct H as [H|(t & Ht & Hs)].
  - rewrite (proj2 (Nat.leb_gt _ _)) by done. simpl. eauto.
  - apply not_true_iff_false in E. exfalso. apply E, existsb_exists. exists t. rewrite bool_decide_eq_true.
    by rewrite <- list_elem_of_In.
Qed.
(** An admitted signature for a record spelled as the stored one, with room for it. *)
Lemma upsert_accepts fs r sig s : unsigned r -> admit_record r sig = Ok s ->
  (forall old, fs !! file_path (rec_submission_id r) = Some old ->
     same_params old r = true /\ has_room (rec_signatures old) s) ->
  exists r' fs', upsert_signature fs r sig = Ok (r', fs') /\ fs' !! file_path (rec_submission_id r) = Some r' /\
    exists t, t ∈ rec_signatures r' /\ to_ascii_lowercase (sig_signer t) = to_ascii_lowercase (sig_signer sig).
Proof.
  intros Hun Ha Hold. unfold upsert_signature. rewrite Ha. cbn [mbind result_bind].
  destruct (admit_record_Ok _ _ _ Ha) as (_ & _ & _ & _ & _ & _ & Es).
  assert (exists rec, merge_existing fs r = Ok rec /\ has_room (rec_signatures rec) s /\
    rec_submission_id rec = rec_submission_id r) as (rec & -> & Hroom & Eid).
  { unfold merge_existing. destruct (fs !! _) as [old|].
    - destruct (Hold old eq_refl) as [-> Hr]. cbn. eexists. split; [reflexivity|]. by split.
    - exists r. split; [done|]. split; [|done]. change (rec_signatures r) with (bucket r Transfer). rewrite Hun.
      left. simpl. unfold MAX_SIGNATURES_PER_SUBMISSION. lia. }
  cbn [mbind result_bind]. destruct (push_capped_run _ _ "transfer" Hroom) as [l Hl]. rewrite Hl. cbn [mbind result_bind].
  eexists _, _. split; [reflexivity|]. cbn [with_signatures rec_submission_id rec_signatures]. rewrite Eid, lookup_insert_eq.
  split; [done|]. rewrite <- Es. apply push_capped_Ok in Hl as [(-> & t & Ht & E)|(-> & _)]; [eauto|].
  exists s. split; [set_solver|done].
Qed.
End Store.

(** * The scanner's records *)

(** What alloy reads back of the printed fields. *)
Class AlloyParses `{Runtime, HexCodec, Alloy} : Prop := {
  b256_printed : forall a, b256_from_str (hex0x (arr_bytes a)) = Some a;
  u256_printed : forall z, is_u 128 z -> u256_from_str (to_dec z) = Some z;
  auto_params_printed : forall w, payload_wf w -> auto_params_decode (encode_evm_auto_params w) =
    Some (execution_fee w, flags w, fallback_address w, auto_data w);
}.

Section Posting.
Context {RT : Runtime} {HX : HexCodec} {AL : Alloy} {HL : HexLaws} {ALL : AlloyLaws} {AP : AlloyParses}.
Context {SK : HostSigner}.

(** The parameters alone, as the server takes them. *)
Definition base (r : SubmissionRecord) : SubmissionRecord := with_signatures r (rec_token r) [] [] [].

Lemma str_len_ascii s : Forall (fun c => c < 128) s -> str_len s = len s.
Proof.
  unfold len. induction 1 as [|c s Hc _ IH]; [done|]. cbn [str_len fold_right length]. unfold str_len in IH.
  rewrite IH. unfold utf8_len. rewrite (proj2 (Z.ltb_lt _ _)) by done. lia.
Qed.
Lemma str_len_hex b : str_len (strip_0x (hex0x b)) = 2 * len b.
Proof.
  rewrite strip_0x_hex, str_len_ascii; [unfold len; rewrite hex_length; lia|].
  eapply Forall_impl; [apply hex_chars|]. intros c. unfold is_digit. intros H. bool_inv.
  apply orb_true_iff in H as [H|H]; bool_inv; lia.
Qed.
Lemma valid_id_hex (a : hash32) : is_valid_submission_id (hex0x (arr_bytes a)) = true.
Proof.
  unfold is_valid_submission_id. rewrite str_len_hex. unfold len. rewrite length_arr. simpl.
  rewrite strip_0x_hex. apply forallb_forall. intros c Hc%list_elem_of_In.
  pose proof (hex_chars (arr_bytes a)) as H. rewrite Forall_forall in H. specialize (H c Hc).
  unfold is_ascii_hexdigit. apply orb_true_iff in H as [-> | ->]; [done|by rewrite orb_true_r].
Qed.
Lemma dec_digits_short fuel z : 0 <= z -> Forall (fun c => c < 128) (dec_digits fuel z) /\ len (dec_digits fuel z) <= Z.of_nat fuel + 1 \/ 10 ^ (Z.of_nat fuel + 1) <= z.
Proof.
  revert z. induction fuel as [|fuel IH]; intros z Hz.
  - destruct (Z.lt_ge_cases z 10); [left|right; lia]. cbn [dec_digits]. split; [by apply Forall_singleton; lia|done].
  - cbn [dec_digits]. destruct (Z.ltb_spec z 10).
    + left. split; [apply Forall_singleton; lia|]. change (len [48 + z]) with 1. lia.
    + pose proof (Z.mod_pos_bound z 10 ltac:(lia)). destruct (IH (z / 10)) as [[Hd Hl]|Hge]; [by apply Z.div_pos; lia| |].
      * left. split; [by apply Forall_app; split; [|apply Forall_singleton; lia]|].
        rewrite len_app. change (len [48 + z mod 10]) with 1. lia.
      * right. replace (Z.of_nat (S fuel) + 1) with (Z.succ (Z.of_nat fuel + 1)) by lia.
        rewrite Z.pow_succ_r by lia. pose proof (Z.mul_div_le z 10). lia.
Qed.
Lemma str_len_dec z : is_u 64 z -> str_len (to_dec z) <= MAX_UINT256_DECIMAL_LEN.
Proof.
  intros [H0 H]. unfold to_dec. destruct (dec_digits_short 39 z H0) as [[Hd Hl]|Hge].
  - rewrite str_len_ascii by done. unfold MAX_UINT256_DECIMAL_LEN. lia.
  - assert (2 ^ 64 < 10 ^ (Z.of_nat 39 + 1)) by (vm_compute; done). lia.
Qed.

(** The transfer an event is about. *)
Definition transfer_of (domain : hash32) (e : SentEvent) : GateHash.transfer :=
  GateHash.Transfer domain (se_debridge_id e) (se_bridge_decimals e) (se_amount e) (se_chain_id_from e)
    (se_chain_id_to e) (se_nonce e) (se_receiver e) (se_auto e) (se_native_sender e).
Definition receiver_width (e : SentEvent) : Prop := len (se_receiver e) = 20 \/ len (se_receiver e) = 32.
Lemma transfer_of_wf domain e : SentEvent_wf e -> receiver_width e -> GateHash.transfer_wf (transfer_of domain e).
Proof.
  intros (_ & Ha & Hb & Hf & Ht & Hn & _ & _ & Hau) Hr. unfold receiver_width, len in Hr. unfold GateHash.transfer_wf. cbn.
  refine (conj Hb (conj Ha (conj Hf (conj Ht (conj Hn (conj _ _)))))); [lia|].
  intros w Hw. destruct (Hau w Hw) as (? & ? & _). done.
Qed.

(** The store recomputes the id that was signed. *)
Lemma signed_record_canonical addr e sent domain chain_id : SentEvent_wf e -> receiver_width e ->
  to_sent e = Some sent -> signable sent domain chain_id = Ok tt ->
  canonical_submission_id (base (signed_record addr domain sent)) = Ok (se_submission_id e).
Proof.
  intros Hwf Hr Hsent Hsign. pose proof (transfer_of_wf domain e Hwf Hr) as Htw.
  destruct Hwf as (_ & Ha & _ & _ & _ & _ & _ & _ & Hau).
  unfold to_sent in Hsent. destruct (negb _); [done|]. injection Hsent as <-.
  unfold signable in Hsign. apply result_bind_Ok in Hsign as (u & Hid%require_Ok & _). bool_inv.
  unfold recompute in Hid. cbn in Hid. rewrite id_of_fields_gate in Hid by done.
  change (GateHash.submission_id _ _ _ _ _ _ _ _ _ _) with (GateHash.transfer_id (transfer_of domain e)) in Hid.
  rewrite <- CoreHash.compute_id_transfer in Hid by done. rewrite <- Hid.
  unfold canonical_submission_id, base, signed_record.
  cbn -[hex_field hex0x to_dec CoreHash.submission_id CoreHash.submission_id_with_auto CoreHash.compute_id].
  rewrite !b256_printed. cbn [ok_or mbind result_bind]. rewrite u256_printed by (unfold is_u in *; lia).
  cbn [ok_or mbind result_bind]. rewrite !hex_field_0x. cbn [mbind result_bind].
  unfold CoreHash.compute_id. destruct (se_auto e) as [w|] eqn:Ew.
  - destruct (Hau w eq_refl) as (H1 & H2 & H3 & H4). cbn [fmap option_fmap option_map].
    rewrite wire_auto_wire, hex_field_0x by done. cbn [mbind result_bind].
    assert (payload_wf w) as Hw by (split_and!; [done..|]; unfold is_u in *; lia).
    unfold decode_auto_params. rewrite bool_decide_eq_false_2 by (by destruct (encode_evm_auto_params w) eqn:E; [by apply encode_nonempty in E|]).
    rewrite auto_params_printed by done. cbn. by rewrite Ew.
  - cbn. by rewrite Ew.
Qed.

(** The signature bytes the scanner puts in its record. *)
Definition raw_signature (id : hash32) : list byte :=
  let '(sig, recid) := ecdsa_sign (eth_signed_digest id) in sig ++ [byte_of_Z (recid + 27)].
Lemma signed_record_admitted addr a e sent domain chain_id : SentEvent_wf e -> receiver_width e ->
  to_sent e = Some sent -> signable sent domain chain_id = Ok tt -> len (se_native_sender e) <= MAX_ACCOUNT_BYTES ->
  (forall w, se_auto e = Some w -> len (encode_evm_auto_params w) <= MAX_AUTO_PARAMS_BYTES) ->
  address_from_str addr = Some a -> recover_address_from_msg (se_submission_id e) (raw_signature (se_submission_id e)) = Some a ->
  let rec := signed_record addr domain sent in
  exists s, admit_record (base rec) (MkSignerSig addr (sign (se_submission_id e))) = Ok s.
Proof.
  intros Hwf Hr Hsent Hsign Hns Hauto Haddr Hrec rec. unfold admit_record.
  pose proof (signed_record_canonical addr e sent domain chain_id Hwf Hr Hsent Hsign) as Hid.
  fold rec in Hid. unfold to_sent in Hsent. destruct (negb _) eqn:Hv; [done|]. injection Hsent as <-.
  change (rec_submission_id (base rec)) with (hex0x (arr_bytes (se_submission_id e))). rewrite valid_id_hex.
  cbn [require mbind result_bind].
  assert (check_storable (base rec) = Ok tt) as ->.
  { apply check_storable_iff. unfold base, rec, signed_record.
    cbn -[hex0x strip_0x to_dec str_len Z.mul MAX_ACCOUNT_BYTES MAX_AUTO_PARAMS_BYTES].
    destruct Hwf as (_ & Ha & _ & _ & _ & _ & _ & _ & Hau). unfold receiver_width in Hr.
    rewrite !str_len_hex. unfold len at 3 4. rewrite !length_arr.
    split_and!; try (unfold MAX_ACCOUNT_BYTES in *; lia); [|by vm_compute|by apply str_len_dec].
    destruct (se_auto e) as [w|]; [|by vm_compute]. cbn [fmap option_fmap option_map].
    destruct (Hau w eq_refl) as (H1 & H2 & _). rewrite wire_auto_wire, str_len_hex by done. pose proof (Hauto w eq_refl). lia. }
  cbn [mbind result_bind]. rewrite Hid. cbn [mbind result_bind]. rewrite b256_printed. cbn [ok_or mbind result_bind].
  rewrite bool_decide_eq_true_2 by done. cbn [require mbind result_bind].
  assert (sign (se_submission_id e) = hex0x (raw_signature (se_submission_id e))) as ->.
  { unfold sign, raw_signature. by destruct (ecdsa_sign _). }
  unfold verify_signature, canonical_signature. cbn [sig_signer sig_signature].
  rewrite Haddr, !hex_field_0x. cbn [ok_or mbind result_bind]. rewrite Hrec. cbn [ok_or mbind result_bind].
  rewrite bool_decide_eq_true_2 by done. cbn [require mbind result_bind].
  destruct (recovered_parses _ _ _ Hrec) as [raw' ->]. cbn [ok_or mbind result_bind].
  unfold verify_token_binding. change (rec_token (base rec)) with (@nil Z). rewrite bool_decide_eq_true_2 by done. eauto.
Qed.

(** What the Solana scanner signs, the store takes. For every event the scanner may
    sign (with a receiver of a width the gate allows and a payload within the store's
    bound), from a signer whose signatures recover to its address: the record it posts
    recomputes, over the EVM-side hash, to the very id that was signed, and the store
    accepts it with the signature in its transfer list, whether it is the first for
    this transfer or joins a record spelled the same with room left. *)
Theorem scanner_record_stored fs addr a e sent domain chain_id : SentEvent_wf e -> receiver_width e ->
  to_sent e = Some sent -> signable sent domain chain_id = Ok tt -> len (se_native_sender e) <= MAX_ACCOUNT_BYTES ->
  (forall w, se_auto e = Some w -> len (encode_evm_auto_params w) <= MAX_AUTO_PARAMS_BYTES) ->
  address_from_str addr = Some a -> recover_address_from_msg (se_submission_id e) (raw_signature (se_submission_id e)) = Some a ->
  let rec := signed_record addr domain sent in
  let file := file_path (rec_submission_id rec) in
  let sig := MkSignerSig addr (sign (se_submission_id e)) in
  (forall old, fs !! file = Some old -> same_params old (base rec) = true /\ has_room (rec_signatures old) sig) ->
  canonical_submission_id (base rec) = Ok (se_submission_id e) /\
  exists r fs', upsert_signature fs (base rec) sig = Ok (r, fs') /\ fs' !! file = Some r /\
    exists t, t ∈ rec_signatures r /\ same_signer t sig.
Proof.
  intros Hwf Hr Hsent Hsign Hns Hauto Haddr Hrec rec file sig Hold.
  destruct (signed_record_admitted addr a e sent domain chain_id) as [s Hs]; [done..|].
  split; [by eapply signed_record_canonical|].
  apply (upsert_accepts fs (base rec) sig s); [by intros []|exact Hs|].
  intros old Ho. destruct (Hold old Ho) as [Hp Hroom]. split; [done|].
  apply admit_record_Ok in Hs as (_ & _ & _ & _ & _ & _ & Es).
  destruct Hroom as [?|(t & Ht & E)]; [by left|right; exists t; split; [done|]]. unfold same_signer in *. by rewrite Es.
Qed.
End Posting.
