(* ===== verification/Db.v ===== *)
(** The database behind the signature store (crates/bridge-db/src/lib.rs, with the tables
    of schema.sql): every SQL statement is one atomic step on the tables, a transaction is
    the read it starts with and the rest at its commit, and the methods are the sequences
    of these that the code makes. Times are the database's [now()]. *)

From S2P Require Import Prelude.
From S2P Require Import Text.
From S2P Require Import SolanaRuntime.
From S2P Require Import HostRecord.
From S2P Require Import ListSort.
From S2P Require Import Allowlist.
From S2P Require Import SigStore.
From S2P Require Import Interleave.
From S2P Require CoreHash.

(** * Keys and field checks *)

(** Input and output errors are one [Sqlx]. *)
Inductive DbError :=
  | DbStore (e : StoreError)
  | Sqlx
  | DbBadField (field : string)
  | LastAllowlistEntry (table : string)
  | UnknownSubmission (id : text).

#[export] Instance db_broken : Broken DbError := Sqlx.

Definition is_client_error (e : DbError) : bool := match e with Sqlx => false | _ => true end.

Definition norm_id (s : text) : text := txt "0x" ++ to_ascii_lowercase (strip_0x s).
Definition checked_id (submission_id : text) : result DbError text :=
  _ ← require (is_valid_submission_id submission_id) (DbBadField "submission_id");
  Ok (norm_id submission_id).

Definition MAX_TX_REF_LEN : Z := 128.
Definition MAX_ACCOUNT_TEXT_LEN : Z := 128.
Definition MAX_SYMBOL_LEN : Z := 32.
Definition is_ascii_alphanumeric (c : Z) : bool :=
  is_digit c || ((65 <=? c) && (c <=? 90)) || ((97 <=? c) && (c <=? 122)).
(** [char::is_control]: the category Cc. *)
Definition is_control (c : Z) : bool := ((0 <=? c) && (c <=? 31)) || ((127 <=? c) && (c <=? 159)).

Definition bounded_text (field : string) (max : Z) (s : text) : result DbError unit :=
  require (negb (max <? str_len s) && forallb is_ascii_alphanumeric (strip_0x s)) (DbBadField field).
Definition checked_tx_ref (field : string) (s : text) : result DbError unit := bounded_text field MAX_TX_REF_LEN s.
Definition checked_account_text (field : string) (s : text) : result DbError unit :=
  bounded_text field MAX_ACCOUNT_TEXT_LEN s.
Definition checked_amount (field : string) (s : text) : result DbError unit :=
  require (negb (bool_decide (s = [])) && negb (MAX_UINT256_DECIMAL_LEN <? str_len s) && forallb is_digit s)
    (DbBadField field).
Definition checked_symbol (s : text) : result DbError unit :=
  require (negb (MAX_SYMBOL_LEN <? len s) && negb (existsb is_control s)) (DbBadField "symbol").

(** * Tables *)

Inductive Status := Signed | Claimed.
Inductive RefundStatus := NoRefund | Eligible | Cancelled | Refunded.
#[export] Instance Status_eq_dec : EqDecision Status. Proof. solve_decision. Defined.
#[export] Instance RefundStatus_eq_dec : EqDecision RefundStatus. Proof. solve_decision. Defined.
#[export] Instance SigKind_countable : Countable SigKind.
Proof.
  refine (inj_countable' (fun k => match k with Transfer => 0%nat | Cancel => 1%nat | Refund => 2%nat end)
    (fun n => match n with O => Transfer | 1%nat => Cancel | _ => Refund end) _). by intros [].
Defined.

(** The lifecycle columns. *)
Record Lifecycle := MkLifecycle {
  lf_status : Status;
  lf_claim_tx : option text;
  lf_refund_status : RefundStatus;
  lf_refund_tx : option text;
  lf_cancel_tx : option text;
}.
Definition new_lifecycle : Lifecycle := MkLifecycle Signed None NoRefund None None.
(** A row of [submissions]: the parameters (without signatures; u64 columns are kept as the
    i64 of the same bits and read back), [token] apart. *)
Record SubmissionRow := MkSubmissionRow {
  row_params : SubmissionRecord;
  row_token : option text;
  row_lifecycle : Lifecycle;
  row_keeper_claim_tx : option text;
  row_sent_observed_at : option Z;
  row_created_at : Z;
  row_updated_at : Z;
}.
(** A row of [pending_lifecycle]. *)
Record Marker := MkMarker {
  mk_status : option Status;
  mk_claim_tx : option text;
  mk_cancel_tx : option text;
  mk_refund_tx : option text;
  mk_refund_status : option RefundStatus;
  mk_created_at : Z;
}.
Record SwapBridgeRow := MkSwapBridgeRow {
  sb_token_in : text;
  sb_amount_in : text;
  sb_stable_out : text;
  sb_final_token : text;
  sb_final_receiver : text;
  sb_finalized : option (text * text * bool * Z);   (* tx, amount out, fallback, at *)
}.
(** A row of [pending_finalize]. *)
Record FinalizeRow := MkFinalizeRow { fz_tx : text; fz_amount_out : text; fz_fallback : bool; fz_created_at : Z }.
Record SwapRow := MkSwapRow {
  sw_sender : text; sw_receiver : text; sw_token_in : text; sw_token_out : text;
  sw_amount_in : text; sw_amount_out : text; sw_block_number : Z; sw_created_at : Z;
}.

Record Tables := MkTables {
  db_submissions : gmap text SubmissionRow;
  db_signatures : gmap (text * text) text;               (* (id, signer) *)
  db_attestations : gmap (text * SigKind * text) text;   (* (id, kind, signer) *)
  db_lifecycle : gmap text Marker;
  db_swap_bridges : gmap text SwapBridgeRow;
  db_finalize : gmap text FinalizeRow;
  db_swaps : gmap (Z * text * Z) SwapRow;                (* (chain, tx, log index) *)
  db_cursors : gmap Z Z;
  db_tokens : gmap (Z * text) (text * option text);      (* debridge id, symbol *)
  db_chains : gset (Z * Z);
}.
Definition empty_tables : Tables := MkTables ∅ ∅ ∅ ∅ ∅ ∅ ∅ ∅ ∅ ∅.

Definition on_submissions (f : gmap text SubmissionRow -> gmap text SubmissionRow) (d : Tables) : Tables :=
  MkTables (f (db_submissions d)) (db_signatures d) (db_attestations d) (db_lifecycle d) (db_swap_bridges d)
    (db_finalize d) (db_swaps d) (db_cursors d) (db_tokens d) (db_chains d).
Definition on_signatures f (d : Tables) : Tables :=
  MkTables (db_submissions d) (f (db_signatures d)) (db_attestations d) (db_lifecycle d) (db_swap_bridges d)
    (db_finalize d) (db_swaps d) (db_cursors d) (db_tokens d) (db_chains d).
Definition on_attestations f (d : Tables) : Tables :=
  MkTables (db_submissions d) (db_signatures d) (f (db_attestations d)) (db_lifecycle d) (db_swap_bridges d)
    (db_finalize d) (db_swaps d) (db_cursors d) (db_tokens d) (db_chains d).
Definition on_markers (f : gmap text Marker -> gmap text Marker) (d : Tables) : Tables :=
  MkTables (db_submissions d) (db_signatures d) (db_attestations d) (f (db_lifecycle d)) (db_swap_bridges d)
    (db_finalize d) (db_swaps d) (db_cursors d) (db_tokens d) (db_chains d).
Definition on_swap_bridges (f : gmap text SwapBridgeRow -> gmap text SwapBridgeRow) (d : Tables) : Tables :=
  MkTables (db_submissions d) (db_signatures d) (db_attestations d) (db_lifecycle d) (f (db_swap_bridges d))
    (db_finalize d) (db_swaps d) (db_cursors d) (db_tokens d) (db_chains d).
Definition on_finalize (f : gmap text FinalizeRow -> gmap text FinalizeRow) (d : Tables) : Tables :=
  MkTables (db_submissions d) (db_signatures d) (db_attestations d) (db_lifecycle d) (db_swap_bridges d)
    (f (db_finalize d)) (db_swaps d) (db_cursors d) (db_tokens d) (db_chains d).
Definition on_swaps f (d : Tables) : Tables :=
  MkTables (db_submissions d) (db_signatures d) (db_attestations d) (db_lifecycle d) (db_swap_bridges d)
    (db_finalize d) (f (db_swaps d)) (db_cursors d) (db_tokens d) (db_chains d).
Definition on_cursors (f : gmap Z Z -> gmap Z Z) (d : Tables) : Tables :=
  MkTables (db_submissions d) (db_signatures d) (db_attestations d) (db_lifecycle d) (db_swap_bridges d)
    (db_finalize d) (db_swaps d) (f (db_cursors d)) (db_tokens d) (db_chains d).
Definition on_allowlists f g (d : Tables) : Tables :=
  MkTables (db_submissions d) (db_signatures d) (db_attestations d) (db_lifecycle d) (db_swap_bridges d)
    (db_finalize d) (db_swaps d) (db_cursors d) (f (db_tokens d)) (g (db_chains d)).

Definition on_lifecycle (f : Lifecycle -> Lifecycle) (r : SubmissionRow) : SubmissionRow :=
  MkSubmissionRow (row_params r) (row_token r) (f (row_lifecycle r)) (row_keeper_claim_tx r)
    (row_sent_observed_at r) (row_created_at r) (row_updated_at r).
Definition touch (now : Z) (r : SubmissionRow) : SubmissionRow :=
  MkSubmissionRow (row_params r) (row_token r) (row_lifecycle r) (row_keeper_claim_tx r)
    (row_sent_observed_at r) (row_created_at r) now.
Definition set_token (t : option text) (r : SubmissionRow) : SubmissionRow :=
  MkSubmissionRow (row_params r) t (row_lifecycle r) (row_keeper_claim_tx r)
    (row_sent_observed_at r) (row_created_at r) (row_updated_at r).
Definition set_keeper_claim_tx (t : option text) (r : SubmissionRow) : SubmissionRow :=
  MkSubmissionRow (row_params r) (row_token r) (row_lifecycle r) t
    (row_sent_observed_at r) (row_created_at r) (row_updated_at r).
Definition set_sent_observed_at (t : option Z) (r : SubmissionRow) : SubmissionRow :=
  MkSubmissionRow (row_params r) (row_token r) (row_lifecycle r) (row_keeper_claim_tx r)
    t (row_created_at r) (row_updated_at r).

(** [COALESCE(a, b)] *)
Definition coalesce {A} (a b : option A) : option A := match a with Some _ => a | None => b end.
(** [UPDATE submissions SET .. WHERE submission_id = id AND guard]: the rows affected. *)
Definition update_submission (id : text) (guard : SubmissionRow -> bool) (f : SubmissionRow -> SubmissionRow)
    (d : Tables) : Tables * bool :=
  match db_submissions d !! id with
  | Some r => if guard r then (on_submissions (<[id := f r]>) d, true) else (d, false)
  | None => (d, false)
  end.
Definition always (r : SubmissionRow) : bool := true.

(** * Reading rows *)

(** The order of a text column: by code point. *)
Fixpoint text_leb (a b : text) : bool :=
  match a, b with
  | [], _ => true
  | _, [] => false
  | x :: a, y :: b => if x =? y then text_leb a b else x <? y
  end.
Definition by_signer (l : list (text * text)) : list SignerSig :=
  map (fun x => MkSignerSig x.1 x.2) (sort_by_key fst text_leb l).
(** The rows that [pick] selects, by signer. *)
Definition rows_of `{Countable K} (pick : K -> option text) (m : gmap K text) : list (text * text) :=
  omap (fun '(k, s) => signer ← pick k; Some (signer, s)) (map_to_list m).
Definition signatures_of (d : Tables) (id : text) : list (text * text) :=
  rows_of (fun '(i, signer) => if bool_decide (i = id) then Some signer else None) (db_signatures d).
Definition attestations_of (d : Tables) (id : text) (kind : SigKind) : list (text * text) :=
  rows_of (fun '(i, k, signer) => if bool_decide (i = id /\ k = kind) then Some signer else None) (db_attestations d).

Definition into_record (r : SubmissionRow) (transfer cancel refund : list SignerSig) : SubmissionRecord :=
  with_signatures (row_params r) (default [] (row_token r)) transfer cancel refund.
(** The rows' signature sets, by [sig_query]. *)
Definition attach (d : Tables) (id : text) (r : SubmissionRow) : SubmissionRecord :=
  into_record r (by_signer (signatures_of d id)) (by_signer (attestations_of d id Cancel))
    (by_signer (attestations_of d id Refund)).

Section Methods.
Context {RT : Runtime} {HX : HexCodec} {AL : Alloy}.
(** [Db::validator_set] *)
Variable validator_set : gset text.

Abbreviation T := (sprog Tables DbError).

(** * Binding *)

Definition bounded_record (r : SubmissionRecord) : result DbError unit :=
  map_err (fun e => match e with BadField f => DbBadField f | other => DbStore other end) (check_storable r).
Definition verify_binding (record : SubmissionRecord) : result DbError hash32 :=
  _ ← require (is_valid_submission_id (rec_submission_id record)) (DbStore (BadField "submission_id"));
  _ ← bounded_record record;
  computed ← map_err DbStore (canonical_submission_id record);
  claimed ← ok_or (b256_from_str (rec_submission_id record)) (DbStore (BadField "submission_id"));
  _ ← require (bool_decide (computed = claimed)) (DbStore (IdMismatch claimed computed));
  _ ← map_err DbStore (verify_token_binding record);
  Ok computed.

(** * Rows and signatures *)

Definition some_token (t : text) : option text :=
  let t := to_ascii_lowercase t in if bool_decide (t = []) then None else Some t.
Definition stored_params (id : text) (r : SubmissionRecord) : SubmissionRecord :=
  MkSubmissionRecord id (to_ascii_lowercase (rec_bridge_domain r)) (to_ascii_lowercase (rec_debridge_id r))
    (rec_amount r) (rec_bridge_decimals r) (rec_chain_id_from r) (rec_chain_id_to r) (rec_nonce r)
    (to_ascii_lowercase (rec_receiver r)) (to_ascii_lowercase (rec_auto_params r))
    (to_ascii_lowercase (rec_native_sender r)) [] [] [] [].
(** The record under its key, for the comparison of parameters. *)
Definition with_id (id : text) (r : SubmissionRecord) : SubmissionRecord :=
  MkSubmissionRecord id (rec_bridge_domain r) (rec_debridge_id r) (rec_amount r) (rec_bridge_decimals r)
    (rec_chain_id_from r) (rec_chain_id_to r) (rec_nonce r) (rec_receiver r) (rec_auto_params r)
    (rec_native_sender r) (rec_token r) (rec_signatures r) (rec_cancel_signatures r) (rec_refund_signatures r).
Definition insert_submission_row (id : text) (record : SubmissionRecord) (now : Z) (d : Tables) : Tables :=
  match db_submissions d !! id with
  | Some r => on_submissions (<[id := set_token (coalesce (row_token r) (some_token (rec_token record))) r]>) d
  | None =>
      on_submissions (<[id := MkSubmissionRow (stored_params id record) (some_token (rec_token record))
                                new_lifecycle None None now now]>) d
  end.

(** [count]: rows of the domain so far; [present]: one of them is this signer's. *)
Definition enforce_signature_cap (count : nat) (present member : bool) (kind : string) : result DbError unit :=
  if member then Ok tt
  else if (count <? MAX_SIGNATURES_PER_SUBMISSION)%nat then Ok tt
  else require present (DbStore (TooManySignatures kind)).

Definition backfill_token (id : text) (token : text) (d : Tables) : Tables :=
  if bool_decide (token = []) then d
  else (update_submission id (fun r => bool_decide (row_token r = None))
          (set_token (Some (to_ascii_lowercase token))) d).1.
(** The transaction of [upsert_signature] after its first read, which found [existing]. *)
Definition merge_signature (id : text) (record : SubmissionRecord) (sig : SignerSig) (existing : bool)
    (now : Z) (d : Tables) : result DbError (Tables * unit) :=
  let d1 := if existing then backfill_token id (rec_token record) d else insert_submission_row id record now d in
  let signer_lc := to_ascii_lowercase (sig_signer sig) in
  _ ← enforce_signature_cap (length (signatures_of d1 id)) (bool_decide (is_Some (db_signatures d1 !! (id, signer_lc))))
        (bool_decide (signer_lc ∈ validator_set)) "transfer";
  if bool_decide (db_submissions d1 !! id = None) then Err Sqlx   (* the foreign key *)
  else
    match db_signatures d1 !! (id, signer_lc) with
    | Some _ => Ok (d1, tt)
    | None =>
        Ok ((update_submission id always (touch now)
               (on_signatures (<[(id, signer_lc) := sig_signature sig]>) d1)).1, tt)
    end.

Definition submission_exists (id : text) : T bool :=
  sql (fun _ d => (d, bool_decide (is_Some (db_submissions d !! id)))).

Definition apply_marker (m : Marker) (l : Lifecycle) : Lifecycle :=
  MkLifecycle (default (lf_status l) (mk_status m)) (coalesce (mk_claim_tx m) (lf_claim_tx l))
    (default (lf_refund_status l) (mk_refund_status m)) (coalesce (mk_refund_tx m) (lf_refund_tx l))
    (coalesce (mk_cancel_tx m) (lf_cancel_tx l)).
(** The two statements: fold the marker in, drop it. *)
Definition fold_marker (id : text) (now : Z) (d : Tables) : Tables * unit :=
  match db_lifecycle d !! id with
  | Some m => ((update_submission id always (fun r => touch now (on_lifecycle (apply_marker m) r)) d).1, tt)
  | None => (d, tt)
  end.
Definition drop_marker (id : text) (now : Z) (d : Tables) : Tables * unit := (on_markers (delete id) d, tt).
Definition apply_pending_lifecycle (id : text) : T unit :=
  _ ← sql (fold_marker id); sql (drop_marker id).

Definition load (submission_id : text) : T (option SubmissionRecord) :=
  if negb (is_valid_submission_id submission_id) then mret None
  else
    let id := norm_id submission_id in
    row ← sql (fun _ d => (d, db_submissions d !! id));
    match row with
    | None => mret None
    | Some row => record ← sql (fun _ d => (d, attach d id row)); mret (Some record)
    end.
(** [load(..)?.ok_or(BadField)] *)
Definition load_existing (id : text) : T SubmissionRecord :=
  record ← load id; lift (ok_or record (DbBadField "submission_id")).

Definition upsert_signature (record : SubmissionRecord) (sig : SignerSig) : T SubmissionRecord :=
  computed ← lift (verify_binding record);
  _ ← lift (map_err DbStore (verify_signature computed sig));
  sig ← lift (map_err DbStore (canonical_signature sig));
  let id := norm_id (rec_submission_id record) in
  existing ← sql (fun _ d => (d, db_submissions d !! id));
  _ ← lift (match existing with
            | Some row =>
                require (same_params (into_record row [] [] []) (with_id id record))
                  (DbStore (ParamsConflict (rec_submission_id record)))
            | None => Ok tt
            end);
  _ ← transaction (merge_signature id record sig (bool_decide (is_Some existing)));
  _ ← apply_pending_lifecycle id;
  load_existing id.

(** The transaction of [upsert_attestation]. *)
Definition merge_attestation (id : text) (kind : SigKind) (sig : SignerSig) (now : Z) (d : Tables)
    : result DbError (Tables * unit) :=
  let signer_lc := to_ascii_lowercase (sig_signer sig) in
  _ ← enforce_signature_cap (length (attestations_of d id kind))
        (bool_decide (is_Some (db_attestations d !! (id, kind, signer_lc))))
        (bool_decide (signer_lc ∈ validator_set)) (kind_as_str kind);
  if bool_decide (db_submissions d !! id = None) then Err Sqlx
  else
    match db_attestations d !! (id, kind, signer_lc) with
    | Some _ => Ok (d, tt)
    | None => Ok (on_attestations (<[(id, kind, signer_lc) := sig_signature sig]>) d, tt)
    end.
Definition upsert_attestation (submission_id : text) (kind : SigKind) (sig : SignerSig) : T SubmissionRecord :=
  _ ← lift (require (is_valid_submission_id submission_id) (DbStore (BadField "submission_id")));
  _ ← lift (require (negb (bool_decide (kind = Transfer))) (DbBadField "kind"));
  let id := norm_id submission_id in
  existing ← load_existing id;
  parsed ← lift (ok_or (b256_from_str (rec_submission_id existing)) (DbStore (BadField "submission_id")));
  _ ← lift (map_err DbStore (verify_attestation parsed kind sig));
  sig ← lift (map_err DbStore (canonical_signature sig));
  _ ← transaction (merge_attestation id kind sig);
  load_existing id.

(** * Lifecycle *)

Inductive Missing := Park | Reject.
Definition no_marker : Marker := MkMarker None None None None None 0.

(** The marker's own columns win over those parked before. *)
Definition park (id : text) (m : Marker) (now : Z) (d : Tables) : Tables * unit :=
  (on_markers (partial_alter (fun old => Some match old with
     | None => MkMarker (mk_status m) (mk_claim_tx m) (mk_cancel_tx m) (mk_refund_tx m) (mk_refund_status m) now
     | Some p => MkMarker (coalesce (mk_status m) (mk_status p)) (coalesce (mk_claim_tx m) (mk_claim_tx p))
         (coalesce (mk_cancel_tx m) (mk_cancel_tx p)) (coalesce (mk_refund_tx m) (mk_refund_tx p))
         (coalesce (mk_refund_status m) (mk_refund_status p)) (mk_created_at p)
     end) id) d, tt).

Definition park_if_missing (id : text) (rows_affected : bool) (retry : Z -> Tables -> Tables * bool)
    (marker : Marker) (missing : Missing) : T unit :=
  if rows_affected then mret tt
  else
    exists_ ← submission_exists id;
    if (exists_ : bool) then _ ← sql retry; mret tt
    else
      match missing with
      | Reject => throw (UnknownSubmission id)
      | Park =>
          _ ← sql (park id marker);
          exists_ ← submission_exists id;
          if (exists_ : bool) then apply_pending_lifecycle id else mret tt
      end.

Definition claim_lifecycle (tx : text) (l : Lifecycle) : Lifecycle :=
  MkLifecycle Claimed (Some tx)
    (match lf_refund_status l with Eligible => NoRefund | other => other end) (lf_refund_tx l) (lf_cancel_tx l).
Definition cancel_lifecycle (tx : text) (l : Lifecycle) : Lifecycle :=
  MkLifecycle (lf_status l) (lf_claim_tx l) Cancelled (lf_refund_tx l) (Some tx).
Definition refund_lifecycle (tx : text) (l : Lifecycle) : Lifecycle :=
  MkLifecycle (lf_status l) (lf_claim_tx l) Refunded (Some tx) (lf_cancel_tx l).
Definition not_refunded (r : SubmissionRow) : bool :=
  negb (bool_decide (lf_refund_status (row_lifecycle r) = Refunded)).

Definition lifecycle_sql (guard : SubmissionRow -> bool) (f : Lifecycle -> Lifecycle) (id : text) (now : Z)
    (d : Tables) : Tables * bool := update_submission id guard (fun r => touch now (on_lifecycle f r)) d.
Definition mark_with (field : string) (guard : SubmissionRow -> bool) (f : text -> Lifecycle -> Lifecycle)
    (marker : text -> Marker) (submission_id tx : text) (missing : Missing) : T unit :=
  id ← lift (checked_id submission_id);
  _ ← lift (checked_tx_ref field tx);
  affected ← sql (lifecycle_sql guard (f tx) id);
  park_if_missing id affected (lifecycle_sql guard (f tx) id) (marker tx) missing.

Definition claimed_marker (tx : text) : Marker := MkMarker (Some Claimed) (Some tx) None None None 0.
Definition cancelled_marker (tx : text) : Marker := MkMarker None None (Some tx) None (Some Cancelled) 0.
Definition refunded_marker (tx : text) : Marker := MkMarker None None None (Some tx) (Some Refunded) 0.
Definition mark_claimed_with : text -> text -> Missing -> T unit := mark_with "claim_tx" always claim_lifecycle claimed_marker.
Definition mark_cancelled_with : text -> text -> Missing -> T unit :=
  mark_with "cancel_tx" not_refunded cancel_lifecycle cancelled_marker.
Definition mark_refunded_with : text -> text -> Missing -> T unit :=
  mark_with "refund_tx" always refund_lifecycle refunded_marker.
Definition mark_claimed (id tx : text) : T unit := mark_claimed_with id tx Park.
Definition mark_claimed_observed (id tx : text) : T unit := mark_claimed_with id tx Reject.
Definition mark_cancelled (id tx : text) : T unit := mark_cancelled_with id tx Park.
Definition mark_cancelled_observed (id tx : text) : T unit := mark_cancelled_with id tx Reject.
Definition mark_refunded (id tx : text) : T unit := mark_refunded_with id tx Park.
Definition mark_refunded_observed (id tx : text) : T unit := mark_refunded_with id tx Reject.

(** The keeper's advisory report. *)
Definition note_keeper_claim (submission_id claim_tx : text) : T unit :=
  id ← lift (checked_id submission_id);
  _ ← lift (checked_tx_ref "claim_tx" claim_tx);
  _ ← sql (fun _ d => update_submission id always
             (fun r => set_keeper_claim_tx (coalesce (row_keeper_claim_tx r) (Some claim_tx)) r) d);
  mret tt.

(** The indexer saw the [Sent]. *)
Definition observe_submission (record : SubmissionRecord) : T unit :=
  _ ← lift (verify_binding record);
  let id := norm_id (rec_submission_id record) in
  _ ← sql (fun now d => (insert_submission_row id record now d, tt));
  _ ← sql (fun now d => update_submission id (fun r => bool_decide (row_sent_observed_at r = None))
             (set_sent_observed_at (Some now)) d);
  apply_pending_lifecycle id.

(** * Swaps *)

Definition record_swap (chain_id : Z) (tx_hash : text) (log_index : Z)
    (sender receiver token_in token_out amount_in amount_out : text) (block_number : Z) : T unit :=
  _ ← lift (checked_tx_ref "tx_hash" tx_hash);
  _ ← lift (checked_account_text "sender" sender);
  _ ← lift (checked_account_text "receiver" receiver);
  _ ← lift (checked_account_text "token_in" token_in);
  _ ← lift (checked_account_text "token_out" token_out);
  _ ← lift (checked_amount "amount_in" amount_in);
  _ ← lift (checked_amount "amount_out" amount_out);
  let key := (chain_id, to_ascii_lowercase tx_hash, as_u 32 log_index) in   (* the bits of the i32 *)
  sql (fun now d => (on_swaps (fun m => match m !! key with
    | Some _ => m
    | None => <[key := MkSwapRow (to_ascii_lowercase sender) (to_ascii_lowercase receiver) (to_ascii_lowercase token_in)
                 (to_ascii_lowercase token_out) amount_in amount_out block_number now]> m
    end) d, tt)).

Definition finalize_bridge (id : text) (guard : SwapBridgeRow -> bool) (f : text * text * bool * Z) (d : Tables)
    : Tables * bool :=
  match db_swap_bridges d !! id with
  | Some b =>
      if guard b then
        (on_swap_bridges (<[id := MkSwapBridgeRow (sb_token_in b) (sb_amount_in b) (sb_stable_out b) (sb_final_token b)
                                    (sb_final_receiver b) (Some f)]>) d, true)
      else (d, false)
  | None => (d, false)
  end.
Definition apply_pending_finalize (id : text) : T unit :=
  _ ← sql (fun now d => (match db_finalize d !! id with
             | Some p => (finalize_bridge id (fun b => bool_decide (sb_finalized b = None))
                            (fz_tx p, fz_amount_out p, fz_fallback p, now) d).1
             | None => d
             end, tt));
  sql (fun _ d => (on_finalize (delete id) d, tt)).
Definition record_swap_bridge_intent (submission_id token_in amount_in stable_out final_token final_receiver : text)
    : T unit :=
  id ← lift (checked_id submission_id);
  _ ← lift (checked_account_text "token_in" token_in);
  _ ← lift (checked_account_text "final_token" final_token);
  _ ← lift (checked_account_text "final_receiver" final_receiver);
  _ ← lift (checked_amount "amount_in" amount_in);
  _ ← lift (checked_amount "stable_out" stable_out);
  _ ← transaction (fun _ d =>
        match db_swap_bridges d !! id with
        | Some _ => Ok (d, tt)
        | None =>
            if bool_decide (db_submissions d !! id = None) then Err Sqlx   (* the foreign key *)
            else Ok (on_swap_bridges (<[id := MkSwapBridgeRow (to_ascii_lowercase token_in) amount_in stable_out
                       (to_ascii_lowercase final_token) (to_ascii_lowercase final_receiver) None]>) d, tt)
        end);
  apply_pending_finalize id.
Definition swap_bridge_exists (id : text) : T bool :=
  sql (fun _ d => (d, bool_decide (is_Some (db_swap_bridges d !! id)))).
Definition record_finalized (submission_id finalize_tx amount_out : text) (fallback : bool) : T unit :=
  id ← lift (checked_id submission_id);
  _ ← lift (checked_tx_ref "finalize_tx" finalize_tx);
  _ ← lift (checked_amount "finalize_amount_out" amount_out);
  let update := fun now d => finalize_bridge id (fun _ => true) (finalize_tx, amount_out, fallback, now) d in
  affected ← sql update;
  if (affected : bool) then mret tt
  else
    exists_ ← swap_bridge_exists id;
    if (exists_ : bool) then _ ← sql update; mret tt
    else
      _ ← sql (fun now d => (on_finalize (fun m => match m !! id with
            | Some _ => m | None => <[id := MkFinalizeRow finalize_tx amount_out fallback now]> m end) d, tt));
      exists_ ← swap_bridge_exists id;
      if (exists_ : bool) then apply_pending_finalize id else mret tt.

(** * Sweeps *)

Definition gc_parked_markers (max_age : Z) : T nat :=
  now ← sql (fun now d => (d, now));
  let cutoff := now - max_age in
  lifecycle ← sql (fun _ d =>
    let kept := filter (fun '(id, m) => ~ (mk_created_at m < cutoff /\ db_submissions d !! id = None)) (db_lifecycle d) in
    (on_markers (fun _ => kept) d, (size (db_lifecycle d) - size kept)%nat));
  finalize ← sql (fun _ d =>
    let kept := filter (fun '(id, m) => ~ (fz_created_at m < cutoff /\ db_swap_bridges d !! id = None)) (db_finalize d) in
    (on_finalize (fun _ => kept) d, (size (db_finalize d) - size kept)%nat));
  mret (lifecycle + finalize)%nat.

(** The indexer saw its [Sent], or nobody indexes its source. *)
Definition vouched (d : Tables) (r : SubmissionRow) : bool :=
  bool_decide (is_Some (row_sent_observed_at r)) ||
  bool_decide (db_cursors d !! rec_chain_id_from (row_params r) = None).
Definition sweepable (cutoff : Z) (d : Tables) (r : SubmissionRow) : bool :=
  negb (bool_decide (lf_status (row_lifecycle r) = Claimed)) &&
  bool_decide (lf_refund_status (row_lifecycle r) = NoRefund) && (row_created_at r <? cutoff) && vouched d r.
Definition make_eligible (l : Lifecycle) : Lifecycle :=
  MkLifecycle (lf_status l) (lf_claim_tx l) Eligible (lf_refund_tx l) (lf_cancel_tx l).
Definition sweep_refund_eligible (timeout : Z) : T nat :=
  cutoff ← sql (fun now d => (d, now - timeout));
  sql (fun now d =>
    (on_submissions (fmap (fun r => if sweepable cutoff d r then touch now (on_lifecycle make_eligible r) else r)) d,
     length (List.filter (fun x => sweepable cutoff d x.2) (map_to_list (db_submissions d))))).

(** * Queues *)

(** [ORDER BY created_at, submission_id]. The queries that order by [created_at] alone leave
    ties to the server; here the id breaks them too. *)
Definition row_leb (a b : Z * text) : bool := if a.1 =? b.1 then text_leb a.2 b.2 else a.1 <? b.1.
Definition row_key (x : text * SubmissionRow) : Z * text := (row_created_at x.2, x.1).
Definition select (d : Tables) (where_ : text * SubmissionRow -> bool) : list (text * SubmissionRow) :=
  sort_by_key row_key row_leb (List.filter where_ (map_to_list (db_submissions d))).
Definition page_of {A} (limit offset : Z) (l : list A) : list A := take (Z.to_nat limit) (drop (Z.to_nat offset) l).

(** The rows first, their signatures with the next statement. *)
Definition attach_signatures (rows : list (text * SubmissionRow)) : T (list SubmissionRecord) :=
  if bool_decide (length rows = 0%nat) then mret []
  else sql (fun _ d => (d, map (fun x => attach d x.1 x.2) rows)).

Definition load_page (limit offset : Z) : T (list SubmissionRecord) :=
  rows ← sql (fun _ d => (d, page_of (Z.max limit 0) (Z.max offset 0) (select d (fun _ => true))));
  attach_signatures rows.

(** Served to refund relayers. *)
Definition refundable (d : Tables) (r : SubmissionRow) : bool :=
  negb (bool_decide (lf_status (row_lifecycle r) = Claimed)) &&
  (bool_decide (lf_refund_status (row_lifecycle r) = Cancelled) ||
   (bool_decide (lf_refund_status (row_lifecycle r) = Eligible) && vouched d r)).
(** After the row [id]; no row is after one that does not exist. *)
Definition follows (d : Tables) (after : option text) (x : text * SubmissionRow) : bool :=
  match after with
  | None => true
  | Some id =>
      match db_submissions d !! id with
      | Some a => negb (row_leb (row_key x) (row_key (id, a)))
      | None => false
      end
  end.
Definition refund_candidates (limit offset : Z) (after : option text) : T (list SubmissionRecord) :=
  rows ← sql (fun _ d => (d, page_of limit offset (select d (fun x => refundable d x.2 && follows d (norm_id <$> after) x))));
  attach_signatures rows.

Definition claimable_row (chain_id_to : Z) (r : SubmissionRow) : bool :=
  (rec_chain_id_to (row_params r) =? chain_id_to) &&
  negb (bool_decide (lf_status (row_lifecycle r) = Claimed)) &&
  negb (bool_decide (lf_refund_status (row_lifecycle r) ∈ [Cancelled; Refunded])).
Definition pending_claims (chain_id_to : Z) : T (list SubmissionRecord) :=
  rows ← sql (fun _ d => (d, select d (fun x => claimable_row chain_id_to x.2)));
  attach_signatures rows.
Definition refund_attested (d : Tables) (chain_id_from : Z) (x : text * SubmissionRow) : bool :=
  (rec_chain_id_from (row_params x.2) =? chain_id_from) &&
  negb (bool_decide (lf_refund_status (row_lifecycle x.2) = Refunded)) &&
  negb (bool_decide (attestations_of d x.1 Refund = [])).
Definition pending_refunds (chain_id_from : Z) : T (list SubmissionRecord) :=
  rows ← sql (fun _ d => (d, select d (refund_attested d chain_id_from)));
  attach_signatures rows.

(** * Cursors and allowlists *)

Definition get_cursor (chain_id : Z) : T (option Z) := sql (fun _ d => (d, db_cursors d !! chain_id)).
Definition set_cursor (chain_id last_block : Z) : T unit :=
  sql (fun _ d => (on_cursors (<[chain_id := last_block]>) d, tt)).

Definition add_allowed_token (chain_id : Z) (token : text) (symbol : option text) : T AllowedToken :=
  _ ← lift (match symbol with Some s => checked_symbol s | None => Ok tt end);
  addr ← lift (ok_or (address_from_str (trim token)) (DbBadField "token"));
  let token_lc := hex0x (arr_bytes addr) in
  let debridge_id := hex0x (arr_bytes (CoreHash.debridge_id chain_id addr)) in
  _ ← sql (fun _ d => (on_allowlists (<[(chain_id, token_lc) := (debridge_id, symbol)]>) id d, tt));
  mret (MkAllowedToken chain_id token_lc debridge_id symbol).
Definition remove_allowed_token (chain_id : Z) (token : text) : T bool :=
  addr ← lift (ok_or (address_from_str (trim token)) (DbBadField "token"));
  transaction (fun _ d =>
    let key := (chain_id, hex0x (arr_bytes addr)) in
    match db_tokens d !! key with
    | None => Ok (d, false)
    | Some _ =>
        let left := delete key (db_tokens d) in
        if bool_decide (left = ∅) then Err (LastAllowlistEntry "allowed_tokens")
        else Ok (on_allowlists (fun _ => left) id d, true)
    end).
Definition list_allowed_tokens : T (list AllowedToken) :=
  sql (fun _ d => (d, map (fun '((c, t), (i, s)) => MkAllowedToken c t i s)
    (sort_by_key fst row_leb (map_to_list (db_tokens d))))).
Definition add_allowed_chain (from to : Z) : T AllowedChain :=
  _ ← sql (fun _ d => (on_allowlists id (fun m => {[(from, to)]} ∪ m) d, tt));
  mret (MkAllowedChain from to).
Definition remove_allowed_chain (from to : Z) : T bool :=
  transaction (fun _ d =>
    if bool_decide ((from, to) ∈ db_chains d) then
      let left := db_chains d ∖ {[(from, to)]} in
      if bool_decide (left = ∅) then Err (LastAllowlistEntry "allowed_chains")
      else Ok (on_allowlists id (fun _ => left) d, true)
    else Ok (d, false)).
Definition list_allowed_chains : T (list AllowedChain) :=
  sql (fun _ d => (d, map (fun '(a, b) => MkAllowedChain a b)
    (sort_by_key id (fun x y => if x.1 =? y.1 then x.2 <=? y.2 else x.1 <? y.1) (elements (db_chains d))))).
End Methods.
