(* ===== verification/DbSafety.v ===== *)
(** What can ever be in the database, whoever calls its methods at the same time and
    wherever their statements break off: rows bound to their ids, authentic signatures, a
    bounded number of strangers. A delivered transfer stays delivered. *)

From S2P Require Import Prelude.
From S2P Require Import Text.
From S2P Require Import SolanaRuntime.
From S2P Require Import HostRecord.
From S2P Require Import SigStore.
From S2P Require Import Interleave.
From S2P Require Import Db.
From S2P Require CoreHash.

(** Ids and addresses parse in either case, ids with or without their prefix. *)
Class AlloyText `{Alloy} : Prop := {
  b256_norm : forall s, is_valid_submission_id s = true -> b256_from_str (norm_id s) = b256_from_str s;
  address_lower : forall s a, address_from_str s = Some a -> address_from_str (to_ascii_lowercase s) = Some a;
}.

Section DbSafety.
Context {RT : Runtime} {HX : HexCodec} {AL : Alloy} {HL : HexLaws} {ALL : AlloyLaws} {AT : AlloyText}.
Variable validator_set : gset text.

Abbreviation T := (sprog Tables DbError).
Definition discard {A} (p : T A) : T unit := _ ← p; mret tt.

(** * The invariant *)

(** The row holds the parameters, in lower case, of a record that hashes to its id; a token
    comes from such a record too. *)
Definition bound_to (id : text) (h : hash32) (record : SubmissionRecord) : Prop :=
  verify_binding record = Ok h /\ norm_id (rec_submission_id record) = id.
Record row_ok (id : text) (r : SubmissionRow) (h : hash32) : Prop := {
  ro_id : b256_from_str id = Some h;
  ro_params : exists record, bound_to id h record /\ row_params r = stored_params id record;
  ro_token : forall t, row_token r = Some t -> exists record, bound_to id h record /\ t = to_ascii_lowercase (rec_token record);
}.
Definition signers_of (d : Tables) (id : text) (kind : SigKind) : list (text * text) :=
  match kind with Transfer => signatures_of d id | _ => attestations_of d id kind end.
Definition strangers (l : list (text * text)) : list (text * text) :=
  List.filter (fun x => negb (bool_decide (x.1 ∈ validator_set))) l.
Record tables_ok (d : Tables) : Prop := {
  to_rows : forall id r, db_submissions d !! id = Some r -> exists h, row_ok id r h;
  to_signatures : forall id kind signer s, (signer, s) ∈ signers_of d id kind ->
    is_Some (db_submissions d !! id) /\
    exists h, b256_from_str id = Some h /\ authentic (digest kind h) (MkSignerSig signer s);
  to_distinct : forall id kind, NoDup (map fst (signers_of d id kind));
  to_bounded : forall id kind, (length (strangers (signers_of d id kind)) <= MAX_SIGNATURES_PER_SUBMISSION)%nat;
}.

(** ** Signature tables as lists *)

Section RowsOf.
Context `{Countable K} (pick : K -> option text).
Lemma elem_rows_of m x : x ∈ rows_of pick m <-> exists k, m !! k = Some x.2 /\ pick k = Some x.1.
Proof.
  unfold rows_of. rewrite list_elem_of_omap. split.
  - intros ([k s] & Hin%elem_of_map_to_list & Hp). exists k. destruct (pick k) as [a|]; [|done].
    cbn in Hp. by injection Hp as <-.
  - intros (k & Hm & Hp). exists (k, x.2). rewrite elem_of_map_to_list. split; [done|]. rewrite Hp. by destruct x.
Qed.
Lemma rows_of_insert m k s : m !! k = None ->
  rows_of pick (<[k := s]> m) ≡ₚ match pick k with Some a => [(a, s)] | None => [] end ++ rows_of pick m.
Proof.
  intros Hn. unfold rows_of. rewrite map_to_list_insert by done. cbn. by destruct (pick k).
Qed.
Lemma rows_of_distinct m : (forall k k' a, pick k = Some a -> pick k' = Some a -> k = k') ->
  NoDup (map fst (rows_of pick m)).
Proof.
  intros Hinj. unfold rows_of. pose proof (NoDup_fst_map_to_list m) as Hd.
  induction (map_to_list m) as [|[k s] l IH]; [constructor|]. cbn in *. apply NoDup_cons in Hd as [Hn Hl].
  destruct (pick k) as [a|] eqn:Ea; cbn; [|by apply IH]. apply NoDup_cons. split; [|by apply IH].
  intros ([a' s'] & -> & Hin)%list_elem_of_fmap. apply list_elem_of_omap in Hin as ([k' s2] & Hin & Hp).
  apply Hn, list_elem_of_fmap. exists (k', s2). split; [|done]. cbn in *.
  destruct (pick k') as [b|] eqn:Eb; [|done]. injection Hp as -> ->. by eapply Hinj.
Qed.
End RowsOf.

Lemma elem_signatures d id x : x ∈ signatures_of d id <-> db_signatures d !! (id, x.1) = Some x.2.
Proof.
  unfold signatures_of. rewrite elem_rows_of. split.
  - intros ([i sg] & Hm & Hp). case_bool_decide; by simplify_eq.
  - intros Hm. exists (id, x.1). by rewrite bool_decide_eq_true_2.
Qed.
Lemma elem_attestations d id k x : x ∈ attestations_of d id k <-> db_attestations d !! (id, k, x.1) = Some x.2.
Proof.
  unfold attestations_of. rewrite elem_rows_of. split.
  - intros ([[i k'] sg] & Hm & Hp). case_bool_decide as E; [|done]. destruct E as [-> ->]. by simplify_eq.
  - intros Hm. exists (id, k, x.1). by rewrite bool_decide_eq_true_2.
Qed.
Lemma distinct_signers d id k : NoDup (map fst (signers_of d id k)).
Proof.
  destruct k; apply rows_of_distinct; [intros [i a] [i' a'] b|intros [[i k] a] [[i' k'] a'] b..]; intros H1 H2;
    repeat case_bool_decide; simplify_eq; destruct_and?; by simplify_eq.
Qed.
(** One more row, of one domain of one id. *)
Lemma signers_insert_signature d i a s id k : db_signatures d !! (i, a) = None ->
  signers_of (on_signatures (<[(i, a) := s]>) d) id k ≡ₚ
    (if bool_decide (i = id /\ Transfer = k) then [(a, s)] else []) ++ signers_of d id k.
Proof.
  intros Hn. destruct k; cbn [signers_of].
  - unfold signatures_of. cbn [db_signatures on_signatures]. rewrite rows_of_insert by done.
    destruct (bool_decide_reflect (i = id)); [rewrite bool_decide_eq_true_2 by done|rewrite bool_decide_eq_false_2 by naive_solver]; done.
  - by rewrite bool_decide_eq_false_2 by naive_solver.
  - by rewrite bool_decide_eq_false_2 by naive_solver.
Qed.
Lemma signers_insert_attestation d i k' a s id k : k' <> Transfer -> db_attestations d !! (i, k', a) = None ->
  signers_of (on_attestations (<[(i, k', a) := s]>) d) id k ≡ₚ
    (if bool_decide (i = id /\ k' = k) then [(a, s)] else []) ++ signers_of d id k.
Proof.
  intros Hk Hn. destruct k; cbn [signers_of]; [by rewrite bool_decide_eq_false_2 by naive_solver|..].
  all: unfold attestations_of; cbn [db_attestations on_attestations]; rewrite rows_of_insert by done;
    by case_bool_decide.
Qed.

(** ** Rows *)

Lemma verify_binding_Ok record h : verify_binding record = Ok h ->
  is_valid_submission_id (rec_submission_id record) = true /\ b256_from_str (rec_submission_id record) = Some h /\
  canonical_submission_id record = Ok h /\ token_ok record.
Proof using Type.
  unfold verify_binding. intros H. apply result_bind_Ok in H as (u & Hv%require_Ok & H).
  apply result_bind_Ok in H as (u1 & _ & H). apply result_bind_Ok in H as (c & Hc%map_err_Ok & H).
  apply result_bind_Ok in H as (cl & Hcl%ok_or_Ok & H). apply result_bind_Ok in H as (u2 & He%require_Ok & H).
  apply result_bind_Ok in H as ([] & Ht%map_err_Ok & [= <-]). bool_inv. subst cl. by split_and!.
Qed.
Lemma bound_id id h record : bound_to id h record -> b256_from_str id = Some h.
Proof using AT.
  intros [(Hv & Hb & _)%verify_binding_Ok <-]. by rewrite b256_norm.
Qed.
Lemma row_ok_same id h r r' : row_params r' = row_params r -> row_token r' = row_token r -> row_ok id r h -> row_ok id r' h.
Proof using Type. intros E1 E2 [H1 H2 H3]. constructor; [done|by rewrite E1|by rewrite E2]. Qed.
Lemma some_token_Some t u : some_token t = Some u -> u = to_ascii_lowercase t.
Proof using Type. unfold some_token. case_bool_decide; congruence. Qed.
Lemma row_ok_token id h r record t : bound_to id h record -> row_ok id r h ->
  (forall u, t = Some u -> u = to_ascii_lowercase (rec_token record)) -> row_ok id (set_token (coalesce (row_token r) t) r) h.
Proof using Type.
  intros Hb [H1 H2 H3] Ht. constructor; [done|done|]. cbn. intros u. destruct (row_token r) as [v|]; cbn; [by apply H3|].
  intros E. exists record. split; [done|by apply Ht].
Qed.

(** ** Statements *)

Definition rows_ok (m : gmap text SubmissionRow) : Prop := forall id r, m !! id = Some r -> exists h, row_ok id r h.
Lemma ok_rows d m : tables_ok d -> rows_ok m -> (forall id, is_Some (db_submissions d !! id) -> is_Some (m !! id)) ->
  tables_ok (on_submissions (fun _ => m) d).
Proof using Type.
  intros [H1 H2 H3 H4] Hr Hm. constructor; [done| |exact H3|exact H4].
  intros id k a s Hin. destruct (H2 id k a s Hin) as [Hx Ha]. split; [by apply Hm|done].
Qed.
Lemma ok_insert_row d id r h : tables_ok d -> row_ok id r h -> tables_ok (on_submissions (<[id := r]>) d).
Proof using Type.
  intros Hd Hr. apply (ok_rows d); [done| |].
  - intros i r' [[<- <-]|[_ Hi]]%lookup_insert_Some; [by exists h|]. by apply Hd.
  - intros i Hi. destruct (decide (id = i)) as [->|Hn]; [by rewrite lookup_insert_eq|by rewrite lookup_insert_ne].
Qed.
Lemma ok_update d id g f : tables_ok d -> (forall r h, g r = true -> row_ok id r h -> row_ok id (f r) h) ->
  tables_ok (update_submission id g f d).1.
Proof using Type.
  intros Hd Hf. unfold update_submission. destruct (db_submissions d !! id) as [r|] eqn:E; [|done].
  destruct (g r) eqn:Eg; [|done]. destruct (to_rows d Hd id r E) as [h Hr]. eapply ok_insert_row; eauto.
Qed.
Lemma ok_update_same d id g f : tables_ok d -> (forall r, row_params (f r) = row_params r /\ row_token (f r) = row_token r) ->
  tables_ok (update_submission id g f d).1.
Proof using Type. intros Hd Hf. apply ok_update; [done|]. intros r h _. destruct (Hf r). by apply row_ok_same. Qed.
(** Changes of the other tables. *)
Lemma ok_frame d d' : db_submissions d' = db_submissions d -> db_signatures d' = db_signatures d ->
  db_attestations d' = db_attestations d -> tables_ok d -> tables_ok d'.
Proof using Type.
  intros E1 E2 E3 [H1 H2 H3 H4].
  assert (Es : forall id k, signers_of d' id k = signers_of d id k).
  { intros id []; cbn; unfold signatures_of, attestations_of; by rewrite ?E2, ?E3. }
  constructor; intros *; rewrite ?Es, ?E1; eauto.
Qed.
Lemma ok_insert_submission d id h record now : tables_ok d -> bound_to id h record ->
  tables_ok (insert_submission_row id record now d).
Proof using AT.
  intros Hd Hb. unfold insert_submission_row. pose proof (bound_id _ _ _ Hb) as Hid.
  destruct (db_submissions d !! id) as [r|] eqn:E.
  - destruct (to_rows d Hd id r E) as [h' Hr]. assert (h' = h) as -> by (destruct Hr; congruence).
    apply (ok_insert_row _ _ _ h); [done|]. apply (row_ok_token _ _ _ record); [done|done|]. apply some_token_Some.
  - apply (ok_insert_row _ _ _ h); [done|]. constructor; [done|by exists record|].
    cbn. intros t Ht%some_token_Some. by exists record.
Qed.
Lemma ok_backfill d id h record : tables_ok d -> bound_to id h record -> tables_ok (backfill_token id (rec_token record) d).
Proof using AT.
  intros Hd Hb. unfold backfill_token. case_bool_decide; [done|]. apply ok_update; [done|]. intros r h' Hg%bool_decide_eq_true Hr.
  pose proof (bound_id _ _ _ Hb). assert (h' = h) as -> by (destruct Hr; congruence).
  assert (set_token (Some (to_ascii_lowercase (rec_token record))) r =
    set_token (coalesce (row_token r) (Some (to_ascii_lowercase (rec_token record)))) r) as -> by by rewrite Hg.
  apply (row_ok_token _ _ _ record); [done|done|]. by intros u [= <-].
Qed.

Lemma authentic_lower h s : authentic h s -> authentic h (MkSignerSig (to_ascii_lowercase (sig_signer s)) (sig_signature s)).
Proof using AT. intros (a & raw & Ha & H). exists a, raw. split; [by apply address_lower|done]. Qed.
Lemma strangers_app l l' : strangers (l ++ l') = strangers l ++ strangers l'.
Proof using Type. apply List.filter_app. Qed.
Lemma strangers_le l : (length (strangers l) <= length l)%nat.
Proof using Type. apply List.filter_length_le. Qed.
Lemma strangers_perm l l' : l ≡ₚ l' -> length (strangers l) = length (strangers l').
Proof using Type.
  unfold strangers. induction 1 as [|x l l' H IH|x y l|l l2 l3 H1 IH1 H2 IH2]; cbn; [done| | |congruence].
  - destruct (negb _); cbn; [by f_equal|done].
  - by destruct (negb (bool_decide (y.1 ∈ _))), (negb (bool_decide (x.1 ∈ _))).
Qed.
(** A new row of one domain: authentic, and within the cap unless a member's. *)
Lemma ok_new_signature d d' i kind a s :
  (forall id k, signers_of d' id k ≡ₚ (if bool_decide (i = id /\ kind = k) then [(a, s)] else []) ++ signers_of d id k) ->
  db_submissions d' = db_submissions d -> is_Some (db_submissions d !! i) ->
  (exists h, b256_from_str i = Some h /\ authentic (digest kind h) (MkSignerSig a s)) ->
  (a ∈ validator_set \/ (length (signers_of d i kind) < MAX_SIGNATURES_PER_SUBMISSION)%nat) ->
  tables_ok d -> tables_ok d'.
Proof using Type.
  intros Es Esub Hi Ha Hcap [H1 H2 H3 H4]. constructor; [by rewrite Esub| |apply distinct_signers|].
  - intros id k b t. rewrite Es, Esub. intros [Hin|Hin]%elem_of_app; [|by apply H2].
    case_bool_decide as E; [destruct E as [-> ->]|by apply elem_of_nil in Hin].
    apply list_elem_of_singleton in Hin. by simplify_eq.
  - intros id k. rewrite (strangers_perm _ _ (Es id k)), strangers_app, length_app.
    case_bool_decide as E; [destruct E as [-> ->]|cbn; apply H4].
    unfold strangers at 1. cbn. destruct Hcap as [Hm|Hlt]; [rewrite bool_decide_eq_true_2 by done; cbn; apply H4|].
    pose proof (strangers_le (signers_of d id k)). destruct (negb _); cbn; lia.
Qed.
Lemma cap_Ok count present member kind u : enforce_signature_cap count present member kind = Ok u ->
  member = true \/ (count < MAX_SIGNATURES_PER_SUBMISSION)%nat \/ present = true.
Proof using Type.
  unfold enforce_signature_cap. destruct member; [by left|]. destruct (Nat.ltb_spec count MAX_SIGNATURES_PER_SUBMISSION); [auto|].
  intros H2%require_Ok. auto.
Qed.

Lemma signers_of_frame d d' : db_signatures d' = db_signatures d -> db_attestations d' = db_attestations d ->
  forall id k, signers_of d' id k = signers_of d id k.
Proof using Type. intros E1 E2 id []; cbn; unfold signatures_of, attestations_of; by rewrite ?E1, ?E2. Qed.
Lemma update_frame id g f d : let d' := (update_submission id g f d).1 in
  db_signatures d' = db_signatures d /\ db_attestations d' = db_attestations d /\ db_lifecycle d' = db_lifecycle d /\
  (forall i, is_Some (db_submissions d !! i) <-> is_Some (db_submissions d' !! i)).
Proof using Type.
  unfold update_submission. destruct (db_submissions d !! id) as [r|] eqn:E; [|done]. destruct (g r); [|done].
  cbn. split_and!; try done. intros i. rewrite lookup_insert. case_decide as Hi; [subst i; by rewrite E|done].
Qed.
Lemma ok_merge_signature d id h record sig existing now d' u : tables_ok d -> bound_to id h record ->
  authentic h sig -> merge_signature validator_set id record sig existing now d = Ok (d', u) -> tables_ok d'.
Proof using AT.
  intros Hd Hb Ha. unfold merge_signature.
  set (d1 := if existing then _ else _). assert (H1 : tables_ok d1).
  { unfold d1. destruct existing; [by eapply ok_backfill|by eapply ok_insert_submission]. }
  clearbody d1. intros H. apply result_bind_Ok in H as (u1 & Hcap%cap_Ok & H).
  case_bool_decide as Ei; [done|]. destruct (db_signatures d1 !! _) as [s0|] eqn:Es; injection H as <- _; [done|].
  apply ok_update_same; [|done]. apply (ok_new_signature d1 _ id Transfer (to_ascii_lowercase (sig_signer sig)) (sig_signature sig)); [|done| | | |done].
  - intros i k. by apply signers_insert_signature.
  - destruct (db_submissions d1 !! id); [by eexists|done].
  - exists h. split; [by eapply bound_id|]. by apply authentic_lower.
  - destruct Hcap as [Hm%bool_decide_eq_true|[Hl|Hp%bool_decide_eq_true]]; [by left|by right|]. destruct Hp. congruence.
Qed.
Lemma ok_merge_attestation d id h kind sig now d' u : kind <> Transfer -> tables_ok d -> b256_from_str id = Some h ->
  authentic (digest kind h) sig -> merge_attestation validator_set id kind sig now d = Ok (d', u) -> tables_ok d'.
Proof using AT.
  intros Hk Hd Hid Ha H. unfold merge_attestation in H. apply result_bind_Ok in H as (u1 & Hcap%cap_Ok & H).
  case_bool_decide as Ei; [done|]. destruct (db_attestations d !! _) as [s0|] eqn:Es; injection H as <- _; [done|].
  apply (ok_new_signature d _ id kind (to_ascii_lowercase (sig_signer sig)) (sig_signature sig)); [|done| | | |done].
  - intros i k. by apply signers_insert_attestation.
  - destruct (db_submissions d !! id); [by eexists|done].
  - exists h. split; [done|]. by apply authentic_lower.
  - destruct Hcap as [Hm%bool_decide_eq_true|[Hl|Hp%bool_decide_eq_true]]; [by left| |destruct Hp; congruence].
    right. by destruct kind.
Qed.
Lemma ok_fold_marker d id now : tables_ok d -> tables_ok (fold_marker id now d).1.
Proof using Type. intros Hd. unfold fold_marker. destruct (db_lifecycle d !! id); [|done]. by apply ok_update_same. Qed.
Lemma ok_sweep d cutoff now : tables_ok d ->
  tables_ok (on_submissions (fmap (fun r => if sweepable cutoff d r then touch now (on_lifecycle make_eligible r) else r)) d).
Proof using Type.
  intros Hd. apply (ok_rows d); [done| |].
  - intros i r'. rewrite lookup_fmap. intros (r & Hr & ->)%fmap_Some. destruct (to_rows d Hd i r Hr) as [h H].
    exists h. destruct (sweepable cutoff d r); [by apply (row_ok_same i h r)|done].
  - intros i [r Hr]. rewrite lookup_fmap, Hr. by eexists.
Qed.

(** ** Methods *)

Lemma lowercase_idem l : to_ascii_lowercase (to_ascii_lowercase l) = to_ascii_lowercase l.
Proof using Type.
  unfold to_ascii_lowercase. rewrite map_map. apply map_ext. intros c.
  destruct ((65 <=? c) && (c <=? 90)) eqn:E; [|by rewrite E]. bool_inv.
  by replace (c + 32 <=? 90) with false by lia; rewrite andb_false_r.
Qed.
Lemma norm_norm s : norm_id (norm_id s) = norm_id s.
Proof using Type.
  unfold norm_id, strip_0x at 1. rewrite strip_prefix_app. cbn [default from_option]. f_equal. apply lowercase_idem.
Qed.

(** * What a statement does *)

(** Which rows and columns a statement may change. *)
Inductive Effect :=
  | ERead
  | EOther                                              (* swaps, allowlists *)
  | ECursor (chain_id last_block : Z)
  | EInsert (id : text)
  | ESign (id : text) (kind : SigKind) (signer : text)
  | ENote (id : text)
  | EVouch (id : text)
  | EMark (id : text) (f : Lifecycle -> Lifecycle)
  | EPark (id : text) (m : Marker)
  | EFold (id : text)
  | EDrop (id : text)
  | ECollect
  | ESweep.

(** Swaps and swap intents are only ever added. *)
Definition more_swaps (d d' : Tables) : Prop :=
  db_swaps d ⊆ db_swaps d' /\ dom (db_swap_bridges d) ⊆ dom (db_swap_bridges d').
Inductive effect (d : Tables) : Effect -> Tables -> Prop :=
  | DoRead : effect d ERead d
  | DoOther d' : db_submissions d' = db_submissions d -> db_signatures d' = db_signatures d ->
      db_attestations d' = db_attestations d -> db_lifecycle d' = db_lifecycle d -> db_cursors d' = db_cursors d ->
      more_swaps d d' -> effect d EOther d'
  | DoCursor chain_id last_block : effect d (ECursor chain_id last_block) (on_cursors (<[chain_id := last_block]>) d)
  | DoInsert id h record now : bound_to id h record -> effect d (EInsert id) (insert_submission_row id record now d)
  | DoSign id h record sig existing now d' u : bound_to id h record -> authentic h sig ->
      merge_signature validator_set id record sig existing now d = Ok (d', u) ->
      effect d (ESign id Transfer (to_ascii_lowercase (sig_signer sig))) d'
  | DoAttest id h kind sig now d' u : kind <> Transfer -> b256_from_str id = Some h -> authentic (digest kind h) sig ->
      merge_attestation validator_set id kind sig now d = Ok (d', u) ->
      effect d (ESign id kind (to_ascii_lowercase (sig_signer sig))) d'
  | DoNote id tx : effect d (ENote id)
      (update_submission id always (fun r => set_keeper_claim_tx (coalesce (row_keeper_claim_tx r) (Some tx)) r) d).1
  | DoVouch id now : effect d (EVouch id)
      (update_submission id (fun r => bool_decide (row_sent_observed_at r = None)) (set_sent_observed_at (Some now)) d).1
  | DoMark id g f now : effect d (EMark id f) (lifecycle_sql g f id now d).1
  | DoPark id m now : effect d (EPark id m) (park id m now d).1
  | DoFold id now : effect d (EFold id) (fold_marker id now d).1
  | DoDrop id now : effect d (EDrop id) (drop_marker id now d).1
  | DoCollect kept : kept ⊆ db_lifecycle d -> effect d ECollect (on_markers (fun _ => kept) d)
  | DoSweep cutoff now : effect d ESweep
      (on_submissions (fmap (fun r => if sweepable cutoff d r then touch now (on_lifecycle make_eligible r) else r)) d).

Lemma effect_ok d e d' : effect d e d' -> tables_ok d -> tables_ok d'.
Proof using HL ALL AT.
  destruct 1; intros Hd.
  - done.
  - by apply (ok_frame d).
  - by apply (ok_frame d).
  - by eapply ok_insert_submission.
  - by eapply ok_merge_signature.
  - by eapply ok_merge_attestation.
  - by apply ok_update_same.
  - by apply ok_update_same.
  - by apply ok_update_same.
  - by apply (ok_frame d).
  - by apply ok_fold_marker.
  - by apply (ok_frame d).
  - by apply (ok_frame d).
  - by apply ok_sweep.
Qed.

(** * What a method does *)

(** Every statement of the program has one of the effects [L], and what it returns
    satisfies [Q]. *)
Definition within (L : Effect -> Prop) (d d' : Tables) : Prop := exists e, L e /\ effect d e d'.
Abbreviation does L := (guarded (E := DbError) tables_ok (within L)).
Abbreviation anything := (fun _ => True).

Section Does.
Variable L : Effect -> Prop.
Hypothesis reads : L ERead.

Lemma does_seq {A B} (p : T A) (f : A -> T B) : does L anything p -> (forall a, does L anything (f a)) ->
  does L anything (p ≫= f).
Proof using Type. intros Hp Hf. eapply guarded_bind; [done|]. intros a _. apply Hf. Qed.
Lemma does_any {A} (Q : A -> Prop) p : does L Q p -> does L anything p.
Proof using Type. intros H. by eapply guarded_mono. Qed.
Lemma does_lift {A B} (r : result DbError A) (f : A -> T B) : (forall a, does L anything (f a)) ->
  does L anything (lift r ≫= f).
Proof using Type. intros H. apply does_seq; [eapply does_any, guarded_lift|done]. Qed.
Lemma does_ret {A} (a : A) : does L anything (mret a).
Proof using Type. by apply guarded_ret. Qed.
Lemma does_sql {A} (f : Z -> Tables -> Tables * A) e : L e -> (forall t d, effect d e (f t d).1) -> does L anything (sql f).
Proof using Type. intros He H. apply guarded_sql. intros. split; [|done]. exists e. split; [done|apply H]. Qed.
Lemma does_read {A} (f : Z -> Tables -> A) : does L anything (sql (fun t d => (d, f t d))).
Proof using reads. apply (does_sql _ ERead); [done|]. constructor. Qed.
Lemma does_transaction {A} (f : Z -> Tables -> result DbError (Tables * A)) :
  (forall t d d' a, tables_ok d -> f t d = Ok (d', a) -> within L d d') -> does L anything (transaction f).
Proof using reads.
  intros H. apply guarded_transaction; [intros; exists ERead; split; [done|constructor]|]. intros. split; [by eapply H|done].
Qed.
Lemma does_discard {A} (p : T A) : does L anything p -> does L anything (discard p).
Proof using Type. intros H. apply does_seq; [done|]. intros _. apply does_ret. Qed.

Lemma does_apply id : L (EFold id) -> L (EDrop id) -> does L anything (apply_pending_lifecycle id).
Proof using Type.
  intros H1 H2. apply does_seq; [|intros _]; [apply (does_sql _ (EFold id))|apply (does_sql _ (EDrop id))]; by try constructor.
Qed.
(** A record loaded under an id is stored under it. *)
Definition stored_as (submission_id : text) (r : SubmissionRecord) : Prop :=
  rec_submission_id r = norm_id submission_id /\ exists h, b256_from_str (norm_id submission_id) = Some h.
Lemma attach_id d id row h : row_ok id row h -> rec_submission_id (attach d id row) = id.
Proof using Type. intros [_ (rec & _ & Hp) _]. unfold attach, into_record, with_signatures. cbn. by rewrite Hp. Qed.
Lemma within_read d : within L d d.
Proof using reads. exists ERead. split; [done|constructor]. Qed.
Lemma does_load id : does L (fun o => forall r, o = Some r -> stored_as id r) (load id).
Proof using reads.
  unfold load. destruct (negb _); [by apply guarded_ret|].
  eapply (guarded_bind _ _ (fun o => forall row, o = Some row -> exists h, row_ok (norm_id id) row h)).
  - apply guarded_sql. intros t d Hd. split; [apply within_read|]. cbn. intros row. by apply to_rows.
  - intros [row|] Hrow; [|by apply guarded_ret]. destruct (Hrow row eq_refl) as [h Hr].
    eapply (guarded_bind _ _ (fun r => stored_as id r)); [|intros r Hs; apply guarded_ret; congruence].
    apply guarded_sql. intros t d Hd. split; [apply within_read|]. split; [by eapply attach_id|]. exists h. apply Hr.
Qed.
Lemma does_load_existing id : does L (stored_as id) (load_existing id).
Proof using reads.
  eapply guarded_bind; [apply does_load|]. intros r Hr. eapply guarded_mono; [apply guarded_lift|].
  cbn. intros a Ha%ok_or_Ok. by apply Hr.
Qed.

Lemma does_upsert record sig : let id := norm_id (rec_submission_id record) in
  L (ESign id Transfer (to_ascii_lowercase (sig_signer sig))) -> L (EFold id) -> L (EDrop id) ->
  does L anything (upsert_signature validator_set record sig).
Proof using HL ALL reads.
  intros id H1 H2 H3. eapply guarded_bind; [apply guarded_lift|]. intros h Hb. eapply guarded_bind; [apply guarded_lift|].
  intros a Ha%map_err_Ok. eapply guarded_bind; [apply guarded_lift|]. intros s Hs%map_err_Ok.
  destruct (verified_authentic _ _ _ _ Ha Hs) as [Hs' Es]. fold id.
  apply does_seq; [apply does_read|]. intros o. apply does_lift. intros _.
  apply does_seq; [|intros _; apply does_seq; [by apply does_apply|intros _; eapply does_any, does_load_existing]].
  apply does_transaction. intros t d d' u Hd Hm. eexists. split; [exact H1|]. rewrite <- Es.
  by eapply (DoSign _ _ h record).
Qed.
Lemma does_attest submission_id kind sig : let id := norm_id submission_id in
  (kind <> Transfer -> L (ESign id kind (to_ascii_lowercase (sig_signer sig)))) ->
  does L anything (upsert_attestation validator_set submission_id kind sig).
Proof using HL ALL reads.
  intros id H1. apply does_lift. intros _.
  eapply guarded_bind; [apply guarded_lift|]. intros u Hk%require_Ok. apply negb_true_iff, bool_decide_eq_false in Hk.
  eapply guarded_bind; [apply does_load_existing|]. intros r [Hr [h0 Hid]].
  eapply guarded_bind; [apply guarded_lift|]. intros h Hh%ok_or_Ok. rewrite Hr in Hh. fold id in Hh.
  unfold id in Hh. rewrite norm_norm in Hh. fold id in Hh.
  eapply guarded_bind; [apply guarded_lift|]. intros a Ha%map_err_Ok.
  eapply guarded_bind; [apply guarded_lift|]. intros s Hs%map_err_Ok. destruct (verified_authentic _ _ _ _ Ha Hs) as [Hs' Es].
  apply does_seq; [|intros _; eapply does_any, does_load_existing].
  apply does_transaction. intros t d d' v Hd Hm. eexists. split; [by apply H1|]. rewrite <- Es.
  by eapply (DoAttest _ _ h).
Qed.
Lemma does_exists id : does L anything (submission_exists id).
Proof using reads. apply does_read. Qed.
Lemma does_park_if_missing id affected retry marker missing : does L anything (sql retry) ->
  (missing = Park -> L (EPark id marker) /\ L (EFold id) /\ L (EDrop id)) ->
  does L anything (park_if_missing id affected retry marker missing).
Proof using reads.
  intros Hsql H2. unfold park_if_missing. destruct affected; [apply does_ret|].
  apply does_seq; [apply does_exists|]. intros [].
  - apply does_seq; [done|]. intros _. apply does_ret.
  - destruct missing; [|apply guarded_throw]. destruct (H2 eq_refl) as (Hp & Hf & Hd).
    apply does_seq; [apply (does_sql _ (EPark id marker)); [done|constructor]|].
    intros _. apply does_seq; [apply does_exists|]. intros []; [by apply does_apply|apply does_ret].
Qed.
(** A mark touches its own id; it is parked only where that is allowed. *)
Lemma does_mark field g f m submission_id tx missing : let id := norm_id submission_id in
  L (EMark id (f tx)) -> (missing = Park -> L (EPark id (m tx)) /\ L (EFold id) /\ L (EDrop id)) ->
  does L anything (mark_with field g f m submission_id tx missing).
Proof using reads.
  intros id H1 H2. assert (Hsql : does L anything (sql (lifecycle_sql g (f tx) id))).
  { apply (does_sql _ (EMark id (f tx))); [done|]. constructor. }
  eapply guarded_bind; [apply guarded_lift|]. intros i Hi. apply result_bind_Ok in Hi as (u & _ & [= <-]). fold id.
  apply does_lift. intros _. apply does_seq; [done|]. intros b. by apply does_park_if_missing.
Qed.
Lemma does_note submission_id tx : L (ENote (norm_id submission_id)) -> does L anything (note_keeper_claim submission_id tx).
Proof using Type.
  intros H. eapply guarded_bind; [apply guarded_lift|]. intros i Hi. apply result_bind_Ok in Hi as (u & _ & [= <-]).
  apply does_lift. intros _. apply does_seq; [|intros _; apply does_ret]. apply (does_sql _ _ H). constructor.
Qed.
Lemma does_observe record : let id := norm_id (rec_submission_id record) in
  L (EInsert id) -> L (EVouch id) -> L (EFold id) -> L (EDrop id) -> does L anything (observe_submission record).
Proof using Type.
  intros id H1 H2 H3 H4. eapply guarded_bind; [apply guarded_lift|]. intros h Hb. fold id.
  apply does_seq; [apply (does_sql _ _ H1); intros; by apply (DoInsert _ _ h)|]. intros _.
  apply does_seq; [apply (does_sql _ _ H2); constructor|]. intros _. by apply does_apply.
Qed.
End Does.

(** ** The other tables *)

Section Others.
Variable L : Effect -> Prop.
Hypothesis reads : L ERead.
Hypothesis others : L EOther.

Definition only_others (d d' : Tables) : Prop := effect d EOther d'.
Lemma does_other {A} (f : Z -> Tables -> Tables * A) : (forall t d, only_others d (f t d).1) -> does L anything (sql f).
Proof using others. by apply does_sql. Qed.
Lemma does_other_transaction {A} (f : Z -> Tables -> result DbError (Tables * A)) :
  (forall t d d' a, f t d = Ok (d', a) -> only_others d d') -> does L anything (transaction f).
Proof using reads others. intros H. apply does_transaction; [done|]. intros. exists EOther. split; [done|by eapply H]. Qed.
Lemma others_same d d' : db_submissions d' = db_submissions d -> db_signatures d' = db_signatures d ->
  db_attestations d' = db_attestations d -> db_lifecycle d' = db_lifecycle d -> db_cursors d' = db_cursors d ->
  db_swaps d' = db_swaps d -> db_swap_bridges d' = db_swap_bridges d -> only_others d d'.
Proof using Type. intros E1 E2 E3 E4 E5 E6 E7. constructor; try done. unfold more_swaps. by rewrite E6, E7. Qed.
Lemma others_intent id b d : only_others d (on_swap_bridges (<[id := b]>) d).
Proof using Type. constructor; [done..|]. split; [done|]. cbn. rewrite dom_insert. apply union_subseteq_r. Qed.
Lemma others_finalize id g f d : only_others d (finalize_bridge id g f d).1.
Proof using Type.
  unfold finalize_bridge. destruct (db_swap_bridges d !! id) as [b|]; [destruct (g b)|]; [apply others_intent|by apply others_same..].
Qed.
Lemma does_apply_finalize id : does L anything (apply_pending_finalize id).
Proof using others.
  apply does_seq; [|intros _]; apply does_other; intros t d; cbn; [|by apply others_same].
  destruct (db_finalize d !! id); [apply others_finalize|by apply others_same].
Qed.
Lemma does_swap chain_id tx_hash log_index sender receiver token_in token_out amount_in amount_out block_number :
  does L anything (record_swap chain_id tx_hash log_index sender receiver token_in token_out amount_in amount_out block_number).
Proof using others.
  do 7 (apply does_lift; intros ?). apply does_other. intros t d. constructor; [done..|]. split; [|done]. cbn.
  destruct (db_swaps d !! _) eqn:E; [done|by apply insert_subseteq].
Qed.
Lemma does_intent id token_in amount_in stable_out final_token final_receiver :
  does L anything (record_swap_bridge_intent id token_in amount_in stable_out final_token final_receiver).
Proof using reads others.
  do 6 (apply does_lift; intros ?). apply does_seq; [|intros _; apply does_apply_finalize].
  apply does_other_transaction. intros t d d' u H. destruct (db_swap_bridges d !! _); [injection H as <- _; by apply others_same|].
  case_bool_decide; [done|]. injection H as <- _. apply others_intent.
Qed.
Lemma does_finalized id tx amount_out fallback : does L anything (record_finalized id tx amount_out fallback).
Proof using reads others.
  do 3 (apply does_lift; intros ?). apply does_seq; [apply does_other; intros; apply others_finalize|].
  intros []; [apply does_ret|]. apply does_seq; [by apply does_read|].
  intros []; [apply does_seq; [apply does_other; intros; apply others_finalize|intros _; apply does_ret]|].
  apply does_seq; [apply does_other; by intros; apply others_same|]. intros _.
  apply does_seq; [by apply does_read|]. intros []; [apply does_apply_finalize|apply does_ret].
Qed.
Lemma does_cursor chain_id last_block : L (ECursor chain_id last_block) -> does L anything (set_cursor chain_id last_block).
Proof using Type. intros H. eapply does_sql; [exact H|]. constructor. Qed.
Lemma does_add_token chain_id token symbol : does L anything (add_allowed_token chain_id token symbol).
Proof using others.
  do 2 (apply does_lift; intros ?). apply does_seq; [apply does_other; by intros; apply others_same|]. intros _. apply does_ret.
Qed.
Lemma does_remove_token chain_id token : does L anything (remove_allowed_token chain_id token).
Proof using reads others.
  apply does_lift. intros a. apply does_other_transaction. intros t d d' u H. cbv zeta in H.
  destruct (db_tokens d !! _); [|injection H as <- _; by apply others_same]. case_bool_decide; [done|]. injection H as <- _. by apply others_same.
Qed.
Lemma does_add_chain from to : does L anything (add_allowed_chain from to).
Proof using others. apply does_seq; [apply does_other; by intros; apply others_same|]. intros _. apply does_ret. Qed.
Lemma does_remove_chain from to : does L anything (remove_allowed_chain from to).
Proof using reads others.
  apply does_other_transaction. intros t d d' u H. cbv zeta in H.
  case_bool_decide; [|injection H as <- _; by apply others_same]. case_bool_decide; [done|]. injection H as <- _. by apply others_same.
Qed.
Lemma does_gc max_age : L ECollect -> does L anything (gc_parked_markers max_age).
Proof using reads others.
  intros Hc. apply does_seq; [by apply does_read|]. intros now.
  apply does_seq; [apply (does_sql _ _ _ Hc); constructor; apply map_filter_subseteq|]. intros a.
  apply does_seq; [apply does_other; by intros; apply others_same|]. intros b. apply does_ret.
Qed.
Lemma does_sweep timeout : L ESweep -> does L anything (sweep_refund_eligible timeout).
Proof using reads.
  intros Hs. apply does_seq; [by apply does_read|]. intros cutoff. apply (does_sql _ _ _ Hs). constructor.
Qed.
End Others.

(** * Everybody at once *)

(** Every method that writes. *)
Inductive db_call : T unit -> Prop :=
  | CallUpsert record sig : db_call (discard (upsert_signature validator_set record sig))
  | CallAttest id kind sig : db_call (discard (upsert_attestation validator_set id kind sig))
  | CallClaimed id tx missing : db_call (mark_claimed_with id tx missing)
  | CallCancelled id tx missing : db_call (mark_cancelled_with id tx missing)
  | CallRefunded id tx missing : db_call (mark_refunded_with id tx missing)
  | CallNote id tx : db_call (note_keeper_claim id tx)
  | CallObserve record : db_call (observe_submission record)
  | CallSwap chain_id tx_hash log_index sender receiver token_in token_out amount_in amount_out block_number :
      db_call (record_swap chain_id tx_hash log_index sender receiver token_in token_out amount_in amount_out block_number)
  | CallIntent id token_in amount_in stable_out final_token final_receiver :
      db_call (record_swap_bridge_intent id token_in amount_in stable_out final_token final_receiver)
  | CallFinalized id tx amount_out fallback : db_call (record_finalized id tx amount_out fallback)
  | CallGc max_age : db_call (discard (gc_parked_markers max_age))
  | CallSweep timeout : db_call (discard (sweep_refund_eligible timeout))
  | CallCursor chain_id last_block : db_call (set_cursor chain_id last_block)
  | CallAddToken chain_id token symbol : db_call (discard (add_allowed_token chain_id token symbol))
  | CallRemoveToken chain_id token : db_call (discard (remove_allowed_token chain_id token))
  | CallAddChain from to : db_call (discard (add_allowed_chain from to))
  | CallRemoveChain from to : db_call (discard (remove_allowed_chain from to)).

(** The lifecycle only ever moves by the three marks. *)
Definition legal (e : Effect) : Prop :=
  match e with
  | EMark _ f => exists tx, f = claim_lifecycle tx \/ f = cancel_lifecycle tx \/ f = refund_lifecycle tx
  | EPark _ m => exists tx, m = claimed_marker tx \/ m = cancelled_marker tx \/ m = refunded_marker tx
  | _ => True
  end.
Lemma db_call_does p : db_call p -> does legal anything p.
Proof using HL ALL.
  destruct 1; repeat apply does_discard.
  - by apply does_upsert.
  - by apply does_attest.
  - apply does_mark; [done|exists tx; by left|]. intros _. split; [exists tx; by left|done].
  - apply does_mark; [done|exists tx; by right; left|]. intros _. split; [exists tx; by right; left|done].
  - apply does_mark; [done|exists tx; by right; right|]. intros _. split; [exists tx; by right; right|done].
  - by apply does_note.
  - by apply does_observe.
  - by apply does_swap.
  - by apply does_intent.
  - by apply does_finalized.
  - by apply does_gc.
  - by apply does_sweep.
  - by apply does_cursor.
  - by apply does_add_token.
  - by apply does_remove_token.
  - by apply does_add_chain.
  - by apply does_remove_chain.
Qed.

Lemma empty_ok : tables_ok empty_tables.
Proof using Type.
  assert (E : forall id k, signers_of empty_tables id k = []).
  { intros id []; cbn; unfold signatures_of, attestations_of, rows_of; cbn; by rewrite map_to_list_empty. }
  constructor; intros *; rewrite ?E; cbn; [by intros ?%lookup_empty_Some|by intros ?%elem_of_nil|constructor|lia].
Qed.

(** Any run of any calls whose statements have the effects [L]. *)
Lemma run_within (L : Effect -> Prop) (calls : T unit -> Prop) y y' : L ERead ->
  (forall p, calls p -> does L anything p) -> tables_ok (sys_state y) -> Forall (does L anything) (sys_threads y) ->
  rtc (sys_step calls) y y' ->
  (tables_ok (sys_state y') /\ Forall (does L anything) (sys_threads y')) /\
  rtc (fun d d' => tables_ok d /\ within L d d') (sys_state y) (sys_state y').
Proof using HL ALL AT.
  intros HL0 Hc Hd Ht H.
  apply (sys_steps_ok calls tables_ok (fun d d' => tables_ok d /\ within L d d')) in H as [[Hok Hts] HR].
  - split; [|done]. split; [done|]. eapply Forall_impl; [exact Hts|]. intros p Hp. eapply guarded_relation; [exact Hp|].
    by intros s s' _ [_ ?].
  - intros s Hs. split; [done|by apply within_read].
  - intros s s' Hs [_ (e & _ & He)]. by eapply effect_ok.
  - intros p Hp. eapply guarded_relation; [by apply Hc|]. auto.
  - split; [done|]. eapply Forall_impl; [exact Ht|]. intros p Hp. eapply guarded_relation; [exact Hp|]. auto.
Qed.

Abbreviation db_system := (sys_step db_call).
Definition db_start : System Tables DbError := MkSystem empty_tables [].

(** C25. Whatever callers do at the same time, in any interleaving of their statements and
    wherever a statement fails or its answer is lost, the database holds only rows whose
    parameters are those of a record that hashes to the row's id (its token too bound by such
    a record), and under them only signatures that the named signer made over the id's
    transfer, cancel or refund digest, one per signer and domain, of which at most 64 per
    domain are by signers outside the validator set. *)
Theorem db_always_authentic y : rtc db_system db_start y -> tables_ok (sys_state y).
Proof using HL ALL AT.
  intros H. exact (proj1 (proj1 (run_within legal _ db_start y I db_call_does empty_ok (Forall_nil_2 _) H))).
Qed.
End DbSafety.
