(* ===== verification/DbLifecycle.v ===== *)
(** How the rows of the database change: what is never rewritten, however the callers'
    statements interleave, and, for calls that run one after another, the abstract lifecycle
    that the order of arrival does not matter to. *)

From S2P Require Import Prelude.
From S2P Require Import Text.
From S2P Require Import SolanaRuntime.
From S2P Require Import HostRecord.
From S2P Require Import SigStore.
From S2P Require Import Interleave.
From S2P Require Import Db.
From S2P Require Import DbSafety.

Section DbLifecycle.
Context {RT : Runtime} {HX : HexCodec} {AL : Alloy} {HL : HexLaws} {ALL : AlloyLaws} {AT : AlloyText}.
Variable validator_set : gset text.

Abbreviation T := (sprog Tables DbError).
Abbreviation effect := (effect validator_set).

(** * What is never rewritten *)

Abbreviation once a b := (forall x, a = Some x -> b = Some x).
(** Burned on the destination, or repaid at the source. *)
Definition unwound (s : RefundStatus) : Prop := s = Cancelled \/ s = Refunded.
Record row_kept (r r' : SubmissionRow) : Prop := {
  rk_params : row_params r' = row_params r;
  rk_created : row_created_at r' = row_created_at r;
  rk_token : once (row_token r) (row_token r');
  rk_note : once (row_keeper_claim_tx r) (row_keeper_claim_tx r');
  rk_sent : once (row_sent_observed_at r) (row_sent_observed_at r');
  rk_claimed : lf_status (row_lifecycle r) = Claimed -> lf_status (row_lifecycle r') = Claimed;
  rk_unwound : unwound (lf_refund_status (row_lifecycle r)) -> unwound (lf_refund_status (row_lifecycle r'));
}.
Record kept (d d' : Tables) : Prop := {
  kp_rows : forall id r, db_submissions d !! id = Some r ->
    exists r', db_submissions d' !! id = Some r' /\ row_kept r r';
  kp_signatures : forall id k x, x ∈ signers_of d id k -> x ∈ signers_of d' id k;
  kp_swaps : more_swaps d d';
}.
(** No marker takes a claim, a burn or a refund back. *)
Definition marker_ok (m : Marker) : Prop :=
  mk_status m <> Some Signed /\ forall s, mk_refund_status m = Some s -> unwound s.
Definition markers_ok (d : Tables) : Prop := forall id m, db_lifecycle d !! id = Some m -> marker_ok m.

#[export] Instance row_kept_refl : Reflexive row_kept.
Proof. intros r. by constructor. Qed.
#[export] Instance row_kept_trans : Transitive row_kept.
Proof.
  intros a b c [] []. constructor; try congruence; auto.
Qed.
#[export] Instance kept_refl : Reflexive kept.
Proof. intros d. split; [|done|done]. intros id r H. by exists r. Qed.
#[export] Instance kept_trans : Transitive kept.
Proof.
  intros a b c [H1 H2 [H3 H4]] [K1 K2 [K3 K4]]. split; [|by eauto|by split; etransitivity]. intros id r Hr. destruct (H1 _ _ Hr) as (r1 & Hr1 & Hk1).
  destruct (K1 _ _ Hr1) as (r2 & Hr2 & Hk2). exists r2. split; [done|by etransitivity].
Qed.

Lemma kept_rows d m : (forall id r, db_submissions d !! id = Some r -> exists r', m !! id = Some r' /\ row_kept r r') ->
  kept d (on_submissions (fun _ => m) d).
Proof. intros H. by split. Qed.
Lemma kept_insert d id r r' : db_submissions d !! id = Some r -> row_kept r r' -> kept d (on_submissions (<[id := r']>) d).
Proof.
  intros Hr Hk. apply (kept_rows d (<[id := r']> (db_submissions d))). intros i x Hx.
  destruct (decide (id = i)) as [->|Hn]; [rewrite lookup_insert_eq; simplify_eq; eauto|].
  rewrite lookup_insert_ne by done. by exists x.
Qed.
Lemma kept_update d id g f : (forall r, g r = true -> row_kept r (f r)) -> kept d (update_submission id g f d).1.
Proof.
  intros H. unfold update_submission. destruct (db_submissions d !! id) as [r|] eqn:E; [|done].
  destruct (g r) eqn:Eg; [|done]. cbn. eapply kept_insert; eauto.
Qed.
Lemma kept_frame d d' : db_submissions d' = db_submissions d -> db_signatures d' = db_signatures d ->
  db_attestations d' = db_attestations d -> more_swaps d d' -> kept d d'.
Proof.
  intros E1 E2 E3 Hs. split; [rewrite E1; intros id r H; by exists r| |done]. intros id k x. by rewrite (signers_of_frame _ _ E2 E3).
Qed.
Lemma row_kept_lifecycle r f now : (lf_status (row_lifecycle r) = Claimed -> lf_status (f (row_lifecycle r)) = Claimed) ->
  (unwound (lf_refund_status (row_lifecycle r)) -> unwound (lf_refund_status (f (row_lifecycle r)))) ->
  row_kept r (touch now (on_lifecycle f r)).
Proof. intros H H'. by constructor. Qed.
Lemma row_kept_token r t : row_kept r (set_token (coalesce (row_token r) t) r).
Proof. constructor; try done. intros x Hx. cbn. by rewrite Hx. Qed.
Lemma kept_insert_submission d id record now : kept d (insert_submission_row id record now d).
Proof.
  unfold insert_submission_row. destruct (db_submissions d !! id) as [r|] eqn:E.
  - eapply kept_insert; [done|]. apply row_kept_token.
  - apply (kept_rows d). intros i x Hx. rewrite lookup_insert_ne by congruence. by exists x.
Qed.
Lemma kept_merge_signature d id record sig existing now d' u :
  merge_signature validator_set id record sig existing now d = Ok (d', u) -> kept d d'.
Proof.
  unfold merge_signature. set (d1 := if existing then _ else _).
  assert (H1 : kept d d1).
  { unfold d1. destruct existing; [|apply kept_insert_submission]. unfold backfill_token. case_bool_decide; [reflexivity|].
    apply kept_update. intros r Hr%bool_decide_eq_true. constructor; try done. rewrite Hr. intros x [=]. }
  clearbody d1. intros H. apply result_bind_Ok in H as (u1 & _ & H). case_bool_decide; [done|].
  destruct (db_signatures d1 !! _) eqn:Es; injection H as <- _; [done|]. etransitivity; [exact H1|].
  set (d2 := on_signatures _ d1). assert (H2 : kept d1 d2).
  { split; [intros i r Hr; by exists r| |done]. intros i k x Hx. unfold d2. rewrite signers_insert_signature by done. set_solver. }
  etransitivity; [exact H2|]. apply kept_update. by intros r _.
Qed.
Lemma kept_merge_attestation d id kind sig now d' u : kind <> Transfer ->
  merge_attestation validator_set id kind sig now d = Ok (d', u) -> kept d d'.
Proof.
  unfold merge_attestation. intros Hk H. apply result_bind_Ok in H as (u1 & _ & H). case_bool_decide; [done|].
  destruct (db_attestations d !! _) eqn:Es; injection H as <- _; [done|].
  split; [intros i r Hr; by exists r| |done]. intros i k x Hx. rewrite signers_insert_attestation by done. set_solver.
Qed.
Lemma apply_marker_unwound m l : marker_ok m -> unwound (lf_refund_status l) -> unwound (lf_refund_status (apply_marker m l)).
Proof. intros [_ Hm] Hl. unfold apply_marker. cbn. destruct (mk_refund_status m) as [s|]; [by apply Hm|done]. Qed.
Lemma apply_marker_claimed m l : mk_status m <> Some Signed -> lf_status l = Claimed -> lf_status (apply_marker m l) = Claimed.
Proof. intros Hm Hl. unfold apply_marker. cbn. by destruct (mk_status m) as [[]|]. Qed.

Lemma effect_kept d e d' : legal e -> markers_ok d -> effect d e d' -> kept d d'.
Proof.
  intros Hl Hm. destruct 1.
  - done.
  - by apply kept_frame.
  - by apply kept_frame.
  - apply kept_insert_submission.
  - by eapply kept_merge_signature.
  - by eapply kept_merge_attestation.
  - apply kept_update. intros r _. constructor; try done. intros x Hx. cbn. by rewrite Hx.
  - apply kept_update. intros r Hr%bool_decide_eq_true. constructor; try done. rewrite Hr. intros x [=].
  - apply kept_update. intros r _. cbn in Hl.
    destruct Hl as [tx [->|[->| ->]]]; apply row_kept_lifecycle; cbn; try done; [|by left|by right]. by intros [-> | ->]; [left|right].
  - by apply kept_frame.
  - unfold fold_marker. destruct (db_lifecycle d !! id) as [m|] eqn:E; [|done]. apply kept_update. intros r _.
    apply Hm in E. apply row_kept_lifecycle; [by apply apply_marker_claimed, E|by apply apply_marker_unwound].
  - by apply kept_frame.
  - by apply kept_frame.
  - apply (kept_rows d). intros id r Hr. rewrite lookup_fmap, Hr. cbn. eexists. split; [done|].
    destruct (sweepable _ _ _) eqn:Es; [|done]. apply row_kept_lifecycle; [done|].
    unfold sweepable in Es. bool_inv. intros [?|?]; congruence.
Qed.
Lemma update_markers id g f d : db_lifecycle (update_submission id g f d).1 = db_lifecycle d.
Proof. unfold update_submission. destruct (db_submissions d !! id) as [r|]; [destruct (g r)|]; done. Qed.
Lemma insert_submission_markers id record now d : db_lifecycle (insert_submission_row id record now d) = db_lifecycle d.
Proof. unfold insert_submission_row. by destruct (db_submissions d !! id). Qed.
Lemma merge_signature_markers d id record sig existing now d' u :
  merge_signature validator_set id record sig existing now d = Ok (d', u) -> db_lifecycle d' = db_lifecycle d.
Proof.
  unfold merge_signature. set (d1 := if existing then _ else _).
  assert (H1 : db_lifecycle d1 = db_lifecycle d).
  { unfold d1, backfill_token. destruct existing; [case_bool_decide; [done|apply update_markers]|apply insert_submission_markers]. }
  clearbody d1. intros H. apply result_bind_Ok in H as (u1 & _ & H). case_bool_decide; [done|].
  destruct (db_signatures d1 !! _) eqn:Es; injection H as <- _; [done|]. by rewrite update_markers.
Qed.
Lemma merge_attestation_markers d id kind sig now d' u :
  merge_attestation validator_set id kind sig now d = Ok (d', u) -> db_lifecycle d' = db_lifecycle d.
Proof.
  unfold merge_attestation. intros H. apply result_bind_Ok in H as (u1 & _ & H). case_bool_decide; [done|].
  by destruct (db_attestations d !! _) eqn:Es; injection H as <- _.
Qed.
(** Only parking, dropping and collecting change the markers. *)
Lemma effect_markers d e d' : effect d e d' ->
  match e with
  | EPark id m => exists now, db_lifecycle d' = db_lifecycle (park id m now d).1
  | EDrop id => db_lifecycle d' = delete id (db_lifecycle d)
  | ECollect => db_lifecycle d' ⊆ db_lifecycle d
  | _ => db_lifecycle d' = db_lifecycle d
  end.
Proof.
  destruct 1; try done.
  - apply insert_submission_markers.
  - by eapply merge_signature_markers.
  - by eapply merge_attestation_markers.
  - apply update_markers.
  - apply update_markers.
  - apply update_markers.
  - by exists now.
  - unfold fold_marker. destruct (db_lifecycle d !! id); [apply update_markers|done].
Qed.

Lemma effect_markers_ok d e d' : legal e -> effect d e d' -> markers_ok d -> markers_ok d'.
Proof.
  intros Hl He Hm. apply effect_markers in He. destruct e as [| | | | | | | |id m|id|id| |]; cbn in He; try by unfold markers_ok; rewrite He.
  - destruct He as [now He]. unfold markers_ok. rewrite He. intros i p. cbn.
    rewrite lookup_partial_alter. case_decide as Hi; [|apply Hm]. subst i. intros [= <-].
    assert (Hs : marker_ok m).
    { destruct Hl as [tx [->|[->| ->]]]; (split; [done|]); cbn; intros s [= <-]; [by left|by right]. }
    destruct (db_lifecycle d !! id) as [p|] eqn:Ep; [|exact Hs]. destruct (Hm _ _ Ep) as [Hp1 Hp2], Hs as [Hs1 Hs2].
    split; cbn; [by destruct (mk_status m)|]. intros s. destruct (mk_refund_status m) as [x|]; cbn; [by intros [= <-]; apply Hs2|apply Hp2].
  - unfold markers_ok. rewrite He. intros i p [_ Hp]%lookup_delete_Some. by eapply Hm.
  - intros i p Hp. eapply Hm, lookup_weaken; done.
Qed.
Lemma within_kept d d' : markers_ok d -> rtc (fun d d' => tables_ok validator_set d /\ within validator_set legal d d') d d' ->
  kept d d' /\ markers_ok d'.
Proof.
  intros Hm H. induction H as [d|d d1 d' [_ (e & Hl & He)] H IH]; [by split|].
  pose proof (effect_kept _ _ _ Hl Hm He). destruct (IH (effect_markers_ok _ _ _ Hl He Hm)) as [Hk Hm']. split; [|done].
  by etransitivity.
Qed.

Abbreviation db_system := (sys_step (db_call validator_set)).

(** C29. The database forgets nothing, whatever runs at the same time and wherever it breaks
    off: a row stays, with the same parameters and the same age; its token, the keeper's
    note and the moment its event was seen are written once; a transfer that was marked
    claimed stays so, and is therefore never again in the queue of claims or of refund
    candidates; one that was cancelled or refunded stays one of the two; every signature
    stays, for every domain, and so do swaps and the intents of swaps across the bridge. *)
Theorem history_never_rewritten y y' : rtc db_system db_start y -> rtc db_system y y' -> kept (sys_state y) (sys_state y').
Proof.
  intros H0 H. destruct (run_within validator_set legal _ db_start y I (db_call_does validator_set) (empty_ok _) (Forall_nil_2 _) H0)
    as [[Hok Hts] HR]. apply within_kept in HR as [_ Hm]; [|intros id m; cbn; by rewrite lookup_empty].
  apply (run_within validator_set legal _ y y' I (db_call_does validator_set) Hok Hts) in H as [_ HR].
  by apply within_kept in HR as [Hk _].
Qed.

(** * Who moves a lifecycle *)

Definition lifecycle_at (d : Tables) (id : text) : option Lifecycle := row_lifecycle <$> db_submissions d !! id.
(** The same lifecycle, or the first one of a new row. *)
Definition same_or_new (o o' : option Lifecycle) : Prop := o' = o \/ o = None /\ o' = Some new_lifecycle.
Definition quiet_for (id : text) (e : Effect) : Prop :=
  match e with EMark i _ | EPark i _ => i <> id | ESweep => False | _ => True end.

Lemma at_update d id g f i : (forall r, row_lifecycle (f r) = row_lifecycle r) ->
  lifecycle_at (update_submission id g f d).1 i = lifecycle_at d i.
Proof.
  intros Hf. unfold update_submission, lifecycle_at. destruct (db_submissions d !! id) as [r|] eqn:E; [|done].
  destruct (g r); [|done]. cbn. destruct (decide (id = i)) as [->|Hn]; [|by rewrite lookup_insert_ne].
  rewrite lookup_insert_eq, E. cbn. by rewrite Hf.
Qed.
Lemma at_update_ne d id g f i : id <> i -> lifecycle_at (update_submission id g f d).1 i = lifecycle_at d i.
Proof.
  intros Hn. unfold update_submission, lifecycle_at. destruct (db_submissions d !! id) as [r|]; [|done].
  destruct (g r); [|done]. cbn. by rewrite lookup_insert_ne.
Qed.
Lemma at_insert d id record now i : same_or_new (lifecycle_at d i) (lifecycle_at (insert_submission_row id record now d) i).
Proof.
  unfold insert_submission_row, lifecycle_at. destruct (db_submissions d !! id) as [r|] eqn:E; cbn;
    (destruct (decide (id = i)) as [->|Hn]; [rewrite lookup_insert_eq, E|rewrite lookup_insert_ne by done]); [by left|by left|by right|by left].
Qed.
Lemma at_merge_signature d id record sig existing now d' u i :
  merge_signature validator_set id record sig existing now d = Ok (d', u) ->
  same_or_new (lifecycle_at d i) (lifecycle_at d' i).
Proof.
  unfold merge_signature. set (d1 := if existing then _ else _).
  assert (H1 : same_or_new (lifecycle_at d i) (lifecycle_at d1 i)).
  { unfold d1. destruct existing; [|apply at_insert]. left. unfold backfill_token. case_bool_decide; [done|]. by apply at_update. }
  clearbody d1. intros H. apply result_bind_Ok in H as (u1 & _ & H). case_bool_decide; [done|].
  destruct (db_signatures d1 !! _) eqn:Es; injection H as <- _; [done|]. by rewrite at_update.
Qed.
Lemma at_merge_attestation d id kind sig now d' u i :
  merge_attestation validator_set id kind sig now d = Ok (d', u) -> lifecycle_at d' i = lifecycle_at d i.
Proof.
  unfold merge_attestation. intros H. apply result_bind_Ok in H as (u1 & _ & H). case_bool_decide; [done|].
  by destruct (db_attestations d !! _) eqn:Es; injection H as <- _.
Qed.
(** Without a mark, a parked marker or a sweep, no statement moves it. *)
Lemma effect_quiet d e d' id : quiet_for id e -> effect d e d' -> db_lifecycle d !! id = None ->
  db_lifecycle d' !! id = None /\ same_or_new (lifecycle_at d id) (lifecycle_at d' id).
Proof.
  intros Hq He Hn. pose proof (effect_markers _ _ _ He) as Hm. split.
  - destruct e as [| | | | | | | |i m|i|i| |]; cbn in Hm; try by rewrite Hm.
    + destruct Hm as [now ->]. cbn. by rewrite lookup_partial_alter_ne.
    + rewrite Hm. rewrite lookup_delete. by case_decide.
    + destruct (db_lifecycle d' !! id) as [m|] eqn:E; [|done]. by rewrite (lookup_weaken _ _ _ _ E Hm) in Hn.
  - destruct He; try by left.
    + left. unfold lifecycle_at. congruence.
    + apply at_insert.
    + by eapply at_merge_signature.
    + left. by eapply at_merge_attestation.
    + left. by apply at_update.
    + left. by apply at_update.
    + left. by apply at_update_ne.
    + unfold fold_marker. destruct (db_lifecycle d !! id0) as [m|] eqn:E; [|by left]. left. apply at_update_ne. congruence.
Qed.
Lemma quiet_run (L : Effect -> Prop) d d' id : (forall e, L e -> quiet_for id e) ->
  rtc (fun d d' => tables_ok validator_set d /\ within validator_set L d d') d d' -> db_lifecycle d !! id = None ->
  db_lifecycle d' !! id = None /\ same_or_new (lifecycle_at d id) (lifecycle_at d' id).
Proof.
  intros HL0 H. induction H as [d|d d1 d' [_ (e & Hl & He)] H IH]; intros Hn; [split; [done|by left]|].
  destruct (effect_quiet _ _ _ _ (HL0 e Hl) He Hn) as [Hn1 Hs]. destruct (IH Hn1) as [Hn' Hs']. split; [done|].
  unfold same_or_new in *. destruct Hs as [E|[E1 E2]]; [by rewrite E in Hs'|]. rewrite E2 in Hs'. right.
  destruct Hs' as [E|[E _]]; [by split|done].
Qed.

(** * Calls that run one after another *)

(** What is observed of a transfer, and by whom: the indexer's three events and [Sent], a
    validator's signature. *)
Inductive Observation :=
  | SeenSent (record : SubmissionRecord)
  | SeenSignature (record : SubmissionRecord) (sig : SignerSig)
  | SeenClaimed (id tx : text)
  | SeenCancelled (id tx : text)
  | SeenRefunded (id tx : text).
Definition report (o : Observation) : T unit :=
  match o with
  | SeenSent record => observe_submission record
  | SeenSignature record sig => discard (upsert_signature validator_set record sig)
  | SeenClaimed id tx => mark_claimed id tx
  | SeenCancelled id tx => mark_cancelled id tx
  | SeenRefunded id tx => mark_refunded id tx
  end.
(** Each at its own time, each to its end. *)
Fixpoint report_all (l : list (Z * Observation)) (d : Tables) : Tables :=
  match l with [] => d | (t, o) :: l => report_all l (alone t (report o) d).2 end.

(** The abstract lifecycle: the events of the transfer in the order reported; a refund is
    not undone by a cancellation. *)
Definition storable_event (id tx : text) (i : text) : bool :=
  is_valid_submission_id id && (match checked_tx_ref "" tx with Ok _ => true | Err _ => false end) &&
  bool_decide (norm_id id = i).
Definition abstract_event (i : text) (l : Lifecycle) (o : Observation) : Lifecycle :=
  match o with
  | SeenClaimed id tx => if storable_event id tx i then claim_lifecycle tx l else l
  | SeenCancelled id tx =>
      if storable_event id tx i && negb (bool_decide (lf_refund_status l = Refunded)) then cancel_lifecycle tx l else l
  | SeenRefunded id tx => if storable_event id tx i then refund_lifecycle tx l else l
  | _ => l
  end.
Definition abstract_lifecycle (i : text) (l : list (Z * Observation)) : Lifecycle :=
  fold_left (fun lf x => abstract_event i lf x.2) l new_lifecycle.

(** In the order of the chains: no cancellation of a transfer after its refund. *)
Fixpoint chain_order (refunded : list text) (l : list (Z * Observation)) : bool :=
  match l with
  | [] => true
  | (_, SeenRefunded id _) :: l => chain_order (norm_id id :: refunded) l
  | (_, SeenCancelled id _) :: l => negb (bool_decide (norm_id id ∈ refunded)) && chain_order refunded l
  | _ :: l => chain_order refunded l
  end.

(** The lifecycle of an id, whether it has its row yet or a marker. *)
Definition effective (d : Tables) (id : text) : Lifecycle :=
  match lifecycle_at d id with
  | Some l => l
  | None => match db_lifecycle d !! id with Some m => apply_marker m new_lifecycle | None => new_lifecycle end
  end.
(** Between calls, a row has no marker left, and no marker makes a row eligible. *)
Record settled (d : Tables) : Prop := {
  st_rows : forall id, is_Some (db_submissions d !! id) -> db_lifecycle d !! id = None;
  st_markers : forall id m, db_lifecycle d !! id = Some m -> mk_refund_status m <> Some Eligible;
}.

Lemma alone_lift {A} t (r : result DbError A) d : alone t (lift r : T A) d = (r, d).
Proof. done. Qed.
Lemma alone_apply t id d : (alone t (apply_pending_lifecycle id) d).2 = (drop_marker id t (fold_marker id t d).1).1.
Proof. done. Qed.

Lemma at_Some d i : is_Some (lifecycle_at d i) <-> is_Some (db_submissions d !! i).
Proof. unfold lifecycle_at. apply fmap_is_Some. Qed.
(** The arrival of a row, with the marker folded in, changes no effective lifecycle. *)
Lemma arrive t id d d1 : settled d -> db_lifecycle d1 = db_lifecycle d ->
  (forall i, i <> id -> lifecycle_at d1 i = lifecycle_at d i) -> is_Some (db_submissions d1 !! id) ->
  same_or_new (lifecycle_at d id) (lifecycle_at d1 id) ->
  let d' := (alone t (apply_pending_lifecycle id) d1).2 in settled d' /\ forall i, effective d' i = effective d i.
Proof.
  intros [Hs Hm] El Hat Hid Hsn. cbv zeta. rewrite alone_apply. set (d' := (drop_marker id t (fold_marker id t d1).1).1).
  pose proof Hid as [r Hr].
  assert (Hl : db_lifecycle d' = delete id (db_lifecycle d)).
  { unfold d', fold_marker. rewrite El. destruct (db_lifecycle d !! id) eqn:E; cbn; by rewrite ?update_markers, ?El. }
  assert (Hat' : forall i, i <> id -> lifecycle_at d' i = lifecycle_at d i).
  { intros i Hi. rewrite <- Hat by done. unfold d', fold_marker. destruct (db_lifecycle d1 !! id) as [m|]; [|done].
    by apply (at_update_ne d1 id always (fun r => touch t (on_lifecycle (apply_marker m) r))). }
  assert (Hid' : lifecycle_at d' id = Some (match db_lifecycle d !! id with
      | Some m => apply_marker m (row_lifecycle r) | None => row_lifecycle r end)).
  { unfold d', fold_marker, lifecycle_at. rewrite El. destruct (db_lifecycle d !! id) as [m|] eqn:E; cbn; [|by rewrite Hr].
    unfold update_submission, always. rewrite Hr. cbn. by rewrite lookup_insert_eq. }
  assert (Hr1 : lifecycle_at d1 id = Some (row_lifecycle r)) by (unfold lifecycle_at; by rewrite Hr). split.
  - split; intros i; rewrite Hl; [|intros m [_ ?]%lookup_delete_Some; by eapply Hm].
    intros Hi. rewrite lookup_delete. case_decide as Hn; [done|].
    apply Hs, at_Some. rewrite <- Hat' by done. by apply at_Some.
  - intros i. unfold effective. rewrite Hl. destruct (decide (i = id)) as [->|Hn]; [|by rewrite Hat', lookup_delete_ne by done].
    rewrite Hid'. rewrite Hr1 in Hsn. destruct Hsn as [E|[E E2]].
    + rewrite <- E. assert (is_Some (db_submissions d !! id)) as Hx by (apply at_Some; by rewrite <- E). by rewrite (Hs _ Hx).
    + rewrite E. injection E2 as ->. done.
Qed.
Lemma load_keeps t id d : (alone t (load_existing id) d).2 = d.
Proof.
  unfold load_existing. rewrite alone_bind. unfold load. destruct (negb _); [done|]. rewrite alone_bind, alone_sql. cbn.
  by destruct (db_submissions d !! _).
Qed.
Lemma insert_row_Some d id record now : is_Some (db_submissions (insert_submission_row id record now d) !! id).
Proof. unfold insert_submission_row. destruct (db_submissions d !! id); cbn; rewrite lookup_insert_eq; by eexists. Qed.
Lemma at_insert_ne d id record now i : i <> id -> lifecycle_at (insert_submission_row id record now d) i = lifecycle_at d i.
Proof. intros Hn. unfold insert_submission_row, lifecycle_at. by destruct (db_submissions d !! id); cbn; rewrite lookup_insert_ne. Qed.
Lemma update_row_Some d id g f i : is_Some (db_submissions d !! i) -> is_Some (db_submissions (update_submission id g f d).1 !! i).
Proof. apply update_frame. Qed.
Lemma merge_signature_row d id record sig existing now d' u :
  merge_signature validator_set id record sig existing now d = Ok (d', u) ->
  is_Some (db_submissions d' !! id) /\ forall i, i <> id -> lifecycle_at d' i = lifecycle_at d i.
Proof.
  unfold merge_signature. set (d1 := if existing then _ else _).
  assert (H1 : forall i, i <> id -> lifecycle_at d1 i = lifecycle_at d i).
  { intros i Hi. unfold d1. destruct existing; [|by apply at_insert_ne]. unfold backfill_token.
    case_bool_decide; [done|by apply at_update]. }
  clearbody d1. intros H. apply result_bind_Ok in H as (u1 & _ & H).
  destruct (bool_decide_reflect (db_submissions d1 !! id = None)) as [|Hn]; [done|].
  assert (Hx : is_Some (db_submissions d1 !! id)) by (destruct (db_submissions d1 !! id); [by eexists|done]).
  destruct (db_signatures d1 !! _) eqn:Es; injection H as <- _; [done|].
  split; [by apply update_row_Some|]. intros i Hi. rewrite at_update by done. by apply H1.
Qed.
Lemma sent_simulates t record d : settled d -> let d' := (alone t (observe_submission record) d).2 in
  settled d' /\ forall i, effective d' i = effective d i.
Proof.
  intros Hs. unfold observe_submission. rewrite alone_bind, alone_lift. destruct (verify_binding record) as [h|e]; [|done].
  set (id := norm_id (rec_submission_id record)). rewrite alone_bind, alone_sql. cbn [fst snd].
  rewrite alone_bind, alone_sql. cbn [fst snd]. apply arrive; [done|..].
  - by rewrite update_markers, insert_submission_markers.
  - intros i Hi. rewrite at_update by done. by apply at_insert_ne.
  - apply update_row_Some, insert_row_Some.
  - rewrite at_update by done. apply at_insert.
Qed.
Lemma signature_simulates t record sig d : settled d -> let d' := (alone t (discard (upsert_signature validator_set record sig)) d).2 in
  settled d' /\ forall i, effective d' i = effective d i.
Proof.
  intros Hs. unfold discard. rewrite alone_bind.
  assert (H : settled (alone t (upsert_signature validator_set record sig) d).2 /\
    forall i, effective (alone t (upsert_signature validator_set record sig) d).2 i = effective d i).
  { unfold upsert_signature. rewrite alone_bind, alone_lift. destruct (verify_binding record) as [h|]; [|done].
    rewrite alone_bind, alone_lift. destruct (map_err _ _); [|done].
    rewrite alone_bind, alone_lift. destruct (map_err _ _) as [s|]; [|done].
    rewrite alone_bind, alone_sql. cbn [fst snd]. rewrite alone_bind, alone_lift.
    destruct (match db_submissions d !! _ with Some _ => _ | None => _ end); [|done].
    rewrite alone_bind, alone_transaction.
    destruct (merge_signature _ _ _ _ _ _ _) as [[d1 u1]|] eqn:Em; [|done].
    rewrite alone_bind. pose proof (arrive t (norm_id (rec_submission_id record)) d d1 Hs) as Ha.
    destruct (merge_signature_row _ _ _ _ _ _ _ _ Em) as [Hx Hat].
    specialize (Ha (merge_signature_markers _ _ _ _ _ _ _ _ Em) Hat Hx (at_merge_signature _ _ _ _ _ _ _ _ _ Em)).
    destruct (alone t (apply_pending_lifecycle _) d1) as [[?|?] d2]; cbn in Ha; [by rewrite load_keeps|done]. }
  destruct (alone t (upsert_signature _ _ _) d) as [[?|?] d2]; exact H.
Qed.

(** ** Marks *)

Lemma checked_event field tx u : checked_tx_ref field tx = Ok u -> checked_tx_ref "" tx = Ok tt.
Proof. unfold checked_tx_ref, bounded_text. intros H%require_Ok. by rewrite H. Qed.
Lemma unchecked_event field tx e : checked_tx_ref field tx = Err e -> exists e', checked_tx_ref "" tx = Err e'.
Proof. unfold checked_tx_ref, bounded_text. destruct (_ && _); [done|]. by eexists. Qed.
(** A mark on its own: on the row if there is one and its guard lets it, else parked. *)
Lemma alone_mark t field g f m id tx d : (alone t (mark_with field g f m id tx Park) d).2 =
  if storable_event id tx (norm_id id) then
    match db_submissions d !! norm_id id with
    | Some r => (lifecycle_sql g (f tx) (norm_id id) t d).1
    | None => (park (norm_id id) (m tx) t d).1
    end
  else d.
Proof.
  unfold mark_with. rewrite alone_bind, alone_lift. unfold checked_id, storable_event.
  destruct (is_valid_submission_id id); [|done]. cbn [require mbind result_bind].
  rewrite alone_bind, alone_lift. destruct (checked_tx_ref field tx) as [u|e] eqn:Ec.
  2:{ destruct (unchecked_event _ _ _ Ec) as [e' ->]. done. }
  rewrite (checked_event _ _ _ Ec), bool_decide_eq_true_2 by done. cbn [andb].
  generalize (norm_id id). intros i.
  rewrite alone_bind, alone_sql. cbn [fst snd]. unfold park_if_missing, lifecycle_sql, update_submission.
  destruct (db_submissions d !! i) as [r|] eqn:Er.
  - destruct (g r) eqn:Eg; cbn [fst snd]; [done|]. rewrite alone_bind. unfold submission_exists. rewrite alone_sql, Er. cbn.
    by rewrite Er, Eg.
  - cbn [fst snd]. rewrite alone_bind. unfold submission_exists. rewrite alone_sql, Er. cbn. by rewrite Er.
Qed.
Lemma storable_other id tx i : norm_id id <> i -> storable_event id tx i = false.
Proof. intros H. unfold storable_event. by rewrite (bool_decide_eq_false_2 _ H), andb_false_r. Qed.
(** The simulation of a mark by its step on the effective lifecycle. *)
Lemma mark_simulates t field g f m id tx d : settled d -> mk_refund_status (m tx) <> Some Eligible ->
  (forall p, mk_refund_status p <> Some Eligible ->
     apply_marker (MkMarker (coalesce (mk_status (m tx)) (mk_status p)) (coalesce (mk_claim_tx (m tx)) (mk_claim_tx p))
         (coalesce (mk_cancel_tx (m tx)) (mk_cancel_tx p)) (coalesce (mk_refund_tx (m tx)) (mk_refund_tx p))
         (coalesce (mk_refund_status (m tx)) (mk_refund_status p)) (mk_created_at p)) new_lifecycle =
     f tx (apply_marker p new_lifecycle)) ->
  let d' := (alone t (mark_with field g f m id tx Park) d).2 in
  settled d' /\ forall i, effective d' i =
    if storable_event id tx i && (match db_submissions d !! i with Some r => g r | None => true end)
    then f tx (effective d i) else effective d i.
Proof.
  intros [Hs Hm] Hme Hf. cbv zeta. rewrite alone_mark. destruct (storable_event id tx (norm_id id)) eqn:Est.
  2:{ split; [done|]. intros i. destruct (decide (norm_id id = i)) as [<-|Hn]; [by rewrite Est|by rewrite storable_other]. }
  assert (Hoth : forall i, norm_id id <> i -> storable_event id tx i = false) by (intros; by apply storable_other).
  revert Est Hoth. generalize (norm_id id). intros n Est Hoth.
  destruct (db_submissions d !! n) as [r|] eqn:Er.
  - unfold lifecycle_sql. split; [split; intros i|intros i].
    + rewrite update_markers. intros Hi. apply Hs. by eapply update_frame.
    + rewrite update_markers. apply Hm.
    + destruct (decide (n = i)) as [<-|Hn]; unfold effective; rewrite update_markers;
        [|by rewrite at_update_ne, Hoth].
      rewrite Est, Er. unfold update_submission, lifecycle_at. rewrite Er. destruct (g r); cbn; [|by rewrite Er].
      by rewrite lookup_insert_eq.
  - assert (Hp : forall i, i <> n -> db_lifecycle (park (n) (m tx) t d).1 !! i = db_lifecycle d !! i).
    { intros i Hi. cbn. by rewrite lookup_partial_alter_ne. }
    split; [split; intros i|intros i].
    + cbn [park fst on_markers db_submissions]. intros Hi. rewrite Hp; [by apply Hs|]. intros ->. by rewrite Er in Hi; destruct Hi.
    + destruct (decide (i = n)) as [->|Hn]; [|rewrite Hp by done; apply Hm].
      cbn. rewrite lookup_partial_alter_eq. intros p [= <-].
      destruct (db_lifecycle d !! n) as [p|] eqn:Ep; cbn; [|done].
      destruct (mk_refund_status (m tx)) as [s|]; cbn; [done|by eapply Hm].
    + destruct (decide (i = n)) as [->|Hn].
      * rewrite Est, Er. unfold effective, lifecycle_at. cbn [park fst on_markers db_submissions db_lifecycle andb].
        rewrite Er. cbn [fmap option_fmap option_map]. rewrite lookup_partial_alter_eq.
        destruct (db_lifecycle d !! n) as [p|] eqn:Ep; [by apply Hf; eapply Hm|].
        assert (Hn : mk_refund_status no_marker <> Some Eligible) by done.
        etransitivity; [|exact (Hf no_marker Hn)]. by destruct (m tx) as [[] [] [] [] [] ?].
      * rewrite Hoth by done. unfold effective. rewrite Hp by done. done.
Qed.

(** ** The refinement *)

Definition follows_chain (d : Tables) (o : Observation) : Prop :=
  match o with SeenCancelled id _ => lf_refund_status (effective d (norm_id id)) <> Refunded | _ => True end.
Lemma report_simulates t o d : settled d -> follows_chain d o ->
  let d' := (alone t (report o) d).2 in settled d' /\ forall i, effective d' i = abstract_event i (effective d i) o.
Proof.
  intros Hs Hc. destruct o as [record|record sig|id tx|id tx|id tx]; cbn [report abstract_event].
  - by apply sent_simulates.
  - by apply signature_simulates.
  - destruct (mark_simulates t "claim_tx" always claim_lifecycle claimed_marker id tx d Hs) as [H1 H2]; [done| |].
    { intros [s c x y [[]|] w] Hp; try done; by cbn in Hp. }
    split; [exact H1|]. intros i. etransitivity; [apply H2|].
    replace (match db_submissions d !! i with Some r => always r | None => true end) with true by (by destruct (_ !! i)).
    by rewrite andb_true_r.
  - destruct (mark_simulates t "cancel_tx" not_refunded cancel_lifecycle cancelled_marker id tx d Hs) as [H1 H2]; [done|done|].
    split; [exact H1|]. intros i. etransitivity; [apply H2|]. destruct (storable_event id tx i) eqn:Est; [|done]. cbn [andb].
    assert (norm_id id = i) as Ei by (destruct (decide (norm_id id = i)); [done|by rewrite storable_other in Est]).
    cbn [follows_chain] in Hc. rewrite Ei in Hc. rewrite (bool_decide_eq_false_2 _ Hc). cbn [negb].
    destruct (db_submissions d !! i) as [r|] eqn:Er; [|done]. unfold effective, lifecycle_at in Hc. rewrite Er in Hc. cbn in Hc.
    unfold not_refunded. by rewrite (bool_decide_eq_false_2 _ Hc).
  - destruct (mark_simulates t "refund_tx" always refund_lifecycle refunded_marker id tx d Hs) as [H1 H2]; [done|done|].
    split; [exact H1|]. intros i. etransitivity; [apply H2|].
    replace (match db_submissions d !! i with Some r => always r | None => true end) with true by (by destruct (_ !! i)).
    by rewrite andb_true_r.
Qed.
Lemma reports_simulate l refunded d : settled d ->
  (forall i, lf_refund_status (effective d i) = Refunded -> i ∈ refunded) -> chain_order refunded l = true ->
  settled (report_all l d) /\
  forall i, effective (report_all l d) i = fold_left (fun lf x => abstract_event i lf x.2) l (effective d i).
Proof.
  revert refunded d. induction l as [|[t o] l IH]; intros refunded d Hs Hr Ho; [done|]. cbn [report_all fold_left snd].
  assert (Hc : follows_chain d o).
  { destruct o; cbn in *; try done. bool_inv. intros E%Hr. done. }
  destruct (report_simulates t o d Hs Hc) as [Hs' He].
  set (refunded' := match o with SeenRefunded id _ => norm_id id :: refunded | _ => refunded end).
  assert (Ho' : chain_order refunded' l = true) by (unfold refunded'; destruct o; cbn in *; try done; by bool_inv).
  assert (Hr' : forall i, lf_refund_status (effective (alone t (report o) d).2 i) = Refunded -> i ∈ refunded').
  { intros i. rewrite He. unfold refunded'. destruct o as [| |id tx|id tx|id tx]; cbn [abstract_event]; try apply Hr.
    - destruct (storable_event id tx i); [|apply Hr]. cbn. intros E. apply Hr. by destruct (lf_refund_status (effective d i)).
    - destruct (storable_event id tx i && _); [done|apply Hr].
    - destruct (storable_event id tx i) eqn:Est; [|intros E; right; by apply Hr].
      intros _. unfold storable_event in Est. bool_inv. subst i. by left. }
  destruct (IH refunded' _ Hs' Hr' Ho') as [H1 H2]. split; [done|]. intros i. rewrite H2. by rewrite He.
Qed.

(** C37. Each chain is read by its own loop and signatures come in from elsewhere, so the
    events of a transfer reach the database in any order, many before its row exists. For
    calls that run one after another, this makes no difference: once the row is there, its
    lifecycle is that of an abstract machine which sees only the events, in the order
    reported, and knows nothing of rows and parked markers, provided no cancellation of a
    transfer is reported after its refund. *)
Theorem arrival_order_irrelevant l id r : chain_order [] l = true ->
  db_submissions (report_all l empty_tables) !! id = Some r -> row_lifecycle r = abstract_lifecycle id l.
Proof.
  intros Ho Hr. destruct (reports_simulate l [] empty_tables) as [_ He]; [|done|done|].
  { split; intros i; cbn; rewrite lookup_empty; [done|]. done. }
  specialize (He id). unfold effective at 1, lifecycle_at in He. rewrite Hr in He. exact He.
Qed.
End DbLifecycle.
