(* ===== verification/SigServer.v ===== *)
(** The HTTP face of the signature store (crates/sig-store/src/main.rs, with the scoped
    tokens of bridge-core/src/auth.rs): which credential may call what, which signer it may
    post for, and what each handler makes of the database. The verdict of the rate limiter
    comes with the request. *)

From S2P Require Import Prelude.
From S2P Require Import Text.
From S2P Require Import SolanaRuntime.
From S2P Require Import HostRecord.
From S2P Require Import SigStore.
From S2P Require Import Allowlist.
From S2P Require Import Interleave.
From S2P Require Import Db.

(** * Scoped tokens (auth.rs) *)

Inductive Scope := Read | Sign | Relay | Indexer | Admin.
#[export] Instance Scope_eq_dec : EqDecision Scope. Proof. solve_decision. Defined.
#[export] Instance Scope_countable : Countable Scope.
Proof.
  refine (inj_countable' (fun s => match s with Read => 0%nat | Sign => 1%nat | Relay => 2%nat | Indexer => 3%nat | Admin => 4%nat end)
    (fun n => match n with O => Read | 1%nat => Sign | 2%nat => Relay | 3%nat => Indexer | _ => Admin end) _). by intros [].
Defined.
Definition Scope_all : gset Scope := {[Read; Sign; Relay; Indexer; Admin]}.

(** The UTF-8 form of a string. *)
Definition utf8_char (c : Z) : list byte :=
  if c <? 128 then [byte_of_Z c]
  else if c <? 2048 then [byte_of_Z (192 + c / 64); byte_of_Z (128 + c mod 64)]
  else if c <? 65536 then [byte_of_Z (224 + c / 4096); byte_of_Z (128 + c / 64 mod 64); byte_of_Z (128 + c mod 64)]
  else [byte_of_Z (240 + c / 262144); byte_of_Z (128 + c / 4096 mod 64); byte_of_Z (128 + c / 64 mod 64); byte_of_Z (128 + c mod 64)].
Definition as_bytes (s : text) : list byte := concat (map utf8_char s).

(** Equal length, and no bit that differs. *)
Fixpoint ct_diff (a b : list byte) (diff : Z) : Z :=
  match a, b with
  | x :: a, y :: b => ct_diff a b (Z.lor diff (Z.lxor (Z_of_byte x) (Z_of_byte y)))
  | _, _ => diff
  end.
Definition ct_eq (a b : list byte) : bool :=
  if negb (length a =? length b)%nat then false else ct_diff a b 0 =? 0.

Record Auth := MkAuth {
  au_tokens : gmap text (gset Scope);
  au_identities : gmap text text;
  au_enforced : bool;
}.
Definition Auth_disabled : Auth := MkAuth ∅ ∅ false.
Definition Auth_new (entries : list (text * gset Scope)) : Auth :=
  let tokens := fold_left (fun m '(token, scopes) =>
    if bool_decide (token = []) then m
    else partial_alter (fun o => Some (default ∅ o ∪ scopes)) token m) entries ∅ in
  MkAuth tokens ∅ (negb (bool_decide (tokens = ∅))).
Definition with_identities (a : Auth) (ids : list (text * text)) : Auth :=
  MkAuth (au_tokens a)
    (fold_left (fun m '(token, id) =>
       if negb (bool_decide (token = [])) && bool_decide (is_Some (au_tokens a !! token)) then <[token := id]> m else m)
       ids (au_identities a))
    (au_enforced a).
(** No early exit: every token is compared. *)
Definition identity (a : Auth) (presented : text) : option text :=
  fold_left (fun found '(token, id) => if ct_eq (as_bytes presented) (as_bytes token) then Some id else found)
    (map_to_list (au_identities a)) None.
Definition grants (a : Auth) (presented : text) (scope : Scope) : bool :=
  if negb (au_enforced a) then true
  else
    fold_left (fun granted '(token, scopes) =>
      granted || (ct_eq (as_bytes presented) (as_bytes token) && bool_decide (scope ∈ (scopes : gset Scope))))
      (map_to_list (au_tokens a)) false.

(** * The validator set (main.rs) *)

(** [raw.split(|c| c == ',' || c.is_whitespace()).map(trim).filter(non-empty)] *)
Fixpoint split_entries (word : text) (l : text) : list text :=
  match l with
  | [] => if bool_decide (word = []) then [] else [word]
  | c :: l =>
      if (c =? 44) || is_whitespace c
      then (if bool_decide (word = []) then [] else [word]) ++ split_entries [] l
      else split_entries (word ++ [c]) l
  end.
Definition entries (raw : text) : list text := split_entries [] raw.

Inductive StartupError :=
  | EmptyLabel | EmptyToken (label : text) | RepeatedToken (label : text) | RepeatedLabel (label : text)
  | NotABinding (entry : text) | NotAnAddress (label addr : text) | UnknownLabel (label : text)
  | Unbound (labels : list text) | TooManyMembers (n : nat) | NoCredentials.

(** A bare token is labelled with its place. *)
Fixpoint parse_tokens (i : nat) (l : list text) (out : list (text * text)) : result StartupError (list (text * text)) :=
  match l with
  | [] => Ok out
  | entry :: l =>
      let '(label, token) := match split_once 58 entry with
        | Some (a, b) => (trim a, trim b)
        | None => (txt "validator#" ++ to_dec (Z.of_nat i), entry)
        end in
      _ ← require (negb (bool_decide (label = []))) EmptyLabel;
      _ ← require (negb (bool_decide (token = []))) (EmptyToken label);
      _ ← require (negb (existsb (fun x => bool_decide (x.2 = token)) out)) (RepeatedToken label);
      _ ← require (negb (existsb (fun x => bool_decide (x.1 = label)) out)) (RepeatedLabel label);
      parse_tokens (S i) l (out ++ [(label, token)])
  end.
Definition parse_validator_tokens (raw : text) : result StartupError (list (text * text)) := parse_tokens 0 (entries raw) [].

Record SignerPolicy := MkSignerPolicy { sp_by_label : gmap text (gset text); sp_members : gset text }.
Definition policy_enforced (p : SignerPolicy) : bool := negb (bool_decide (sp_members p = ∅)).
Definition is_address_text (addr : text) : bool :=
  (str_len addr =? 42) && starts_with (txt "0x") addr && forallb is_ascii_hexdigit (drop 2 addr).
Fixpoint parse_bindings (labels : list text) (l : list text) (p : SignerPolicy) : result StartupError SignerPolicy :=
  match l with
  | [] => Ok p
  | entry :: l =>
      '(label, addr) ← ok_or (split_once 58 entry) (NotABinding entry);
      let label := trim label in
      let addr := to_ascii_lowercase (trim addr) in
      _ ← require (is_address_text addr) (NotAnAddress label addr);
      _ ← require (bool_decide (label ∈ labels)) (UnknownLabel label);
      parse_bindings labels l
        (MkSignerPolicy (partial_alter (fun o => Some ({[addr]} ∪ default ∅ o)) label (sp_by_label p)) ({[addr]} ∪ sp_members p))
  end.
Definition SignerPolicy_parse (raw : text) (labels : list text) : result StartupError SignerPolicy :=
  policy ← parse_bindings labels (entries raw) (MkSignerPolicy ∅ ∅);
  if policy_enforced policy then
    let unbound := List.filter (fun l => bool_decide (sp_by_label policy !! l = None)) labels in
    _ ← require (bool_decide (unbound = [])) (Unbound unbound);
    _ ← require (size (sp_members policy) <=? MAX_SIGNATURES_PER_SUBMISSION)%nat (TooManyMembers (size (sp_members policy)));
    Ok policy
  else Ok policy.
Definition permits (p : SignerPolicy) (identity : option text) (signer : text) : bool :=
  if negb (policy_enforced p) then true
  else
    let signer := to_ascii_lowercase signer in
    match identity with
    | Some label => match sp_by_label p !! label with Some set => bool_decide (signer ∈ set) | None => false end
    | None => bool_decide (signer ∈ sp_members p)
    end.

(** ** Start-up *)

Record Args := MkArgs {
  ar_auth_token : option text;
  ar_validator_token : option text;
  ar_validator_tokens : text;
  ar_validator_signers : text;
  ar_keeper_token : option text;
  ar_reader_token : option text;
  ar_admin_token : option text;
  ar_indexer_token : option text;
  ar_allow_unauthenticated : bool;
}.
Definition granted_to (o : option text) (scopes : gset Scope) : list (text * gset Scope) :=
  match o with Some t => [(t, scopes)] | None => [] end.
Definition args_auth (a : Args) : result StartupError Auth :=
  per_validator ← parse_validator_tokens (ar_validator_tokens a);
  Ok (with_identities
    (Auth_new (map (fun x => (x.2, {[Read; Sign]})) per_validator ++ granted_to (ar_auth_token a) Scope_all ++
       granted_to (ar_validator_token a) {[Read; Sign]} ++ granted_to (ar_keeper_token a) {[Read; Relay]} ++
       granted_to (ar_reader_token a) {[Read]} ++ granted_to (ar_admin_token a) {[Read; Admin]} ++
       granted_to (ar_indexer_token a) {[Read; Indexer]}))
    (map (fun x => (x.2, x.1)) per_validator)).
Definition args_policy (a : Args) : result StartupError SignerPolicy :=
  tokens ← parse_validator_tokens (ar_validator_tokens a);
  SignerPolicy_parse (ar_validator_signers a) (map fst tokens).
Definition require_credentials (auth : Auth) (allow_unauthenticated : bool) : result StartupError unit :=
  require (au_enforced auth || allow_unauthenticated) NoCredentials.

Record Server := MkServer { sv_auth : Auth; sv_signers : SignerPolicy }.
Definition start (a : Args) : result StartupError Server :=
  auth ← args_auth a;
  signers ← args_policy a;
  _ ← require_credentials auth (ar_allow_unauthenticated a);
  Ok (MkServer auth signers).
(** [Db::with_validator_set], from the policy. *)
Definition sv_validator_set (s : Server) : gset text := set_map to_ascii_lowercase (sp_members (sv_signers s)).

(** * Requests *)

Definition MAX_SIGS_PER_POST : nat := 4.
Definition DEFAULT_PAGE : Z := 5000.

Inductive Observed := ObservedClaimed | ObservedCancelled | ObservedRefunded.
(** The routes, with their path, query and body. The history and swap views are not here. *)
Inductive Request :=
  | Health
  | ListSubmissions (pending : option text) (chain_id_to chain_id_from limit offset : option Z)
  | GetSubmission (id : text)
  | GetRefundCandidates (limit offset : option Z) (after : option text)
  | ListTokens
  | ListChains
  | PostSubmission (record : SubmissionRecord)
  | PostAttestation (id kind signer signature : text)
  | PostClaimed (id claim_tx : text)
  | PostObserved (what : Observed) (id tx : text)
  | AddToken (chain_id : Z) (token : text) (symbol : option text)
  | RemoveToken (chain_id : Z) (token : text)
  | AddChain (from to : Z)
  | RemoveChain (from to : Z).

Definition scope_of (r : Request) : option Scope :=
  match r with
  | Health => None
  | ListSubmissions _ _ _ _ _ | GetSubmission _ | GetRefundCandidates _ _ _ | ListTokens | ListChains => Some Read
  | PostSubmission _ | PostAttestation _ _ _ _ => Some Sign
  | PostClaimed _ _ => Some Relay
  | PostObserved _ _ _ => Some Indexer
  | AddToken _ _ _ | RemoveToken _ _ | AddChain _ _ | RemoveChain _ _ => Some Admin
  end.
Definition is_write (r : Request) : bool :=
  match scope_of r with None | Some Read => false | Some _ => true end.

Inductive Body :=
  | NoBody
  | OneRecord (r : SubmissionRecord)
  | Records (l : list SubmissionRecord)
  | Tokens (l : list AllowedToken)
  | Chains (l : list AllowedChain).
Record Response := MkResponse { rs_status : Z; rs_body : Body }.
Definition refuse (code : Z) : Response := MkResponse code NoBody.
Definition ok (b : Body) : Response := MkResponse 200 b.
Definition no_content : Response := MkResponse 204 NoBody.

(** [db_err] *)
Definition db_err (e : DbError) : Z :=
  match e with UnknownSubmission _ => 404 | e => if is_client_error e then 400 else 500 end.
Definition respond (r : result DbError Response) : Response :=
  match r with Ok r => r | Err e => refuse (db_err e) end.

Definition page (limit offset : option Z) : Z * Z :=
  (Z.min (default DEFAULT_PAGE limit) DEFAULT_PAGE, Z.min (default 0 offset) (2 ^ 63 - 1)).

Section Handlers.
Context {RT : Runtime} {HX : HexCodec} {AL : Alloy}.
Variable s : Server.

Abbreviation T := (sprog Tables DbError).
Abbreviation vs := (sv_validator_set s).

Definition permit_signer (token signer : text) : bool := permits (sv_signers s) (identity (sv_auth s) token) signer.

Fixpoint upsert_all (merged : SubmissionRecord) (sigs : list SignerSig) : T SubmissionRecord :=
  match sigs with
  | [] => mret merged
  | sig :: sigs => merged ← upsert_signature vs merged sig; upsert_all merged sigs
  end.
Definition base_of (r : SubmissionRecord) : SubmissionRecord :=
  with_signatures r (rec_token r) [] (rec_cancel_signatures r) (rec_refund_signatures r).
Definition post_submission (token : text) (record : SubmissionRecord) : T Response :=
  if (MAX_SIGS_PER_POST <? length (rec_signatures record))%nat then mret (refuse 413)
  else if negb (forallb (fun sig => permit_signer token (sig_signer sig)) (rec_signatures record)) then mret (refuse 403)
  else
    let base := base_of record in
    match rec_signatures record with
    | [] => existing ← load (rec_submission_id base); mret (ok (OneRecord (default base existing)))
    | sigs => merged ← upsert_all base sigs; mret (ok (OneRecord merged))
    end.
Definition list_submissions (pending : option text) (chain_id_to chain_id_from limit offset : option Z) : T Response :=
  match pending with
  | None => let '(limit, offset) := page limit offset in l ← load_page limit offset; mret (ok (Records l))
  | Some kind =>
      if bool_decide (kind = txt "claims") then
        match chain_id_to with Some to => l ← pending_claims to; mret (ok (Records l)) | None => mret (refuse 400) end
      else if bool_decide (kind = txt "refunds") then
        match chain_id_from with Some from => l ← pending_refunds from; mret (ok (Records l)) | None => mret (refuse 400) end
      else mret (refuse 400)
  end.
Definition get_submission (id : text) : T Response :=
  r ← load id; mret (match r with Some r => ok (OneRecord r) | None => refuse 404 end).
Definition kind_of_text (k : text) : option SigKind :=
  if bool_decide (k = txt "transfer") then Some Transfer
  else if bool_decide (k = txt "cancel") then Some Cancel
  else if bool_decide (k = txt "refund") then Some Refund else None.
Definition post_attestation (token id kind signer signature : text) : T Response :=
  match kind_of_text kind with
  | None | Some Transfer => mret (refuse 400)
  | Some k =>
      if negb (permit_signer token signer) then mret (refuse 403)
      else r ← upsert_attestation vs id k (MkSignerSig signer signature); mret (ok (OneRecord r))
  end.
Definition get_refund_candidates (limit offset : option Z) (after : option text) : T Response :=
  let '(limit, offset) := page limit offset in
  match after with
  | Some a => if negb (is_valid_submission_id a) then mret (refuse 400)
              else l ← refund_candidates limit offset after; mret (ok (Records l))
  | None => l ← refund_candidates limit offset after; mret (ok (Records l))
  end.
Definition post_claimed (id claim_tx : text) : T Response := _ ← note_keeper_claim id claim_tx; mret no_content.
Definition post_observed (what : Observed) (id tx : text) : T Response :=
  _ ← (match what with
       | ObservedClaimed => mark_claimed_observed id tx
       | ObservedCancelled => mark_cancelled_observed id tx
       | ObservedRefunded => mark_refunded_observed id tx
       end);
  mret no_content.

Definition handler (token : text) (r : Request) : T Response :=
  match r with
  | Health => mret (ok NoBody)
  | ListSubmissions pending to from limit offset => list_submissions pending to from limit offset
  | GetSubmission id => get_submission id
  | GetRefundCandidates limit offset after => get_refund_candidates limit offset after
  | ListTokens => l ← list_allowed_tokens; mret (ok (Tokens l))
  | ListChains => l ← list_allowed_chains; mret (ok (Chains l))
  | PostSubmission record => post_submission token record
  | PostAttestation id kind signer signature => post_attestation token id kind signer signature
  | PostClaimed id claim_tx => post_claimed id claim_tx
  | PostObserved what id tx => post_observed what id tx
  | AddToken chain_id t symbol => a ← add_allowed_token chain_id t symbol; mret (ok (Tokens [a]))
  | RemoveToken chain_id t => removed ← remove_allowed_token chain_id t; mret (if (removed : bool) then no_content else refuse 404)
  | AddChain from to => c ← add_allowed_chain from to; mret (ok (Chains [c]))
  | RemoveChain from to => removed ← remove_allowed_chain from to; mret (if (removed : bool) then no_content else refuse 404)
  end.
(** The scope check is outside the rate limit, which is outside the handler. *)
Definition serve (token : text) (within_rate : bool) (r : Request) : T Response :=
  if negb (match scope_of r with Some scope => grants (sv_auth s) token scope | None => true end) then mret (refuse 401)
  else if is_write r && negb within_rate then mret (refuse 429)
  else handler token r.
(** What a client gets when nothing else runs meanwhile. *)
Definition reply (t : Z) (token : text) (within_rate : bool) (r : Request) (d : Tables) : Response * Tables :=
  let '(answer, d) := alone t (serve token within_rate r) d in (respond answer, d).
End Handlers.
