(* ===== verification/ServerSafety.v ===== *)
(** What a credential of the signature store's server can do: the scopes and the binding of
    signers to tokens, through every handler, while any number of requests run at the same
    time. *)

From S2P Require Import Prelude.
From S2P Require Import Text.
From S2P Require Import SolanaRuntime.
From S2P Require Import ListSort.
From S2P Require Import HostRecord.
From S2P Require Import SigStore.
From S2P Require Import Allowlist.
From S2P Require Import Interleave.
From S2P Require Import Db.
From S2P Require Import DbSafety.
From S2P Require Import DbLifecycle.
From S2P Require Import SigServer.

(** * Tokens *)

Lemma ct_diff_spec a b diff : length a = length b -> 0 <= diff -> ct_diff a b diff = 0 <-> diff = 0 /\ a = b.
Proof.
  revert b diff. induction a as [|x a IH]; intros [|y b] diff El Hd; cbn; try done; [by split; [|intros []]|].
  assert (H0 : 0 <= Z.lxor (Z_of_byte x) (Z_of_byte y)).
  { apply Z.lxor_nonneg. pose proof (Z_of_byte_range x). pose proof (Z_of_byte_range y). lia. }
  rewrite IH; [|by injection El|by apply Z.lor_nonneg]. rewrite Z.lor_eq_0_iff, Z.lxor_eq_0_iff. split.
  - intros [[-> E%Z_of_byte_inj] ->]. by subst.
  - intros [-> [= -> ->]]. done.
Qed.
(** The comparison in constant time is equality. *)
Lemma ct_eq_iff a b : ct_eq a b = true <-> a = b.
Proof.
  unfold ct_eq. destruct (Nat.eqb_spec (length a) (length b)) as [E|E]; cbn.
  - rewrite Z.eqb_eq, ct_diff_spec by (done || lia). naive_solver.
  - split; [done|]. by intros ->.
Qed.


Lemma grants_iff a presented scope : au_enforced a = true ->
  grants a presented scope = true <->
  exists token scopes, au_tokens a !! token = Some scopes /\ as_bytes presented = as_bytes token /\ scope ∈ scopes.
Proof.
  intros He. unfold grants. rewrite He. cbn [negb].
  assert (H : forall (l : list (text * gset Scope)) b, fold_left (fun granted '(token, scopes) =>
      granted || (ct_eq (as_bytes presented) (as_bytes token) && bool_decide (scope ∈ (scopes : gset Scope)))) l b = true <->
    b = true \/ exists token scopes, (token, scopes) ∈ l /\ as_bytes presented = as_bytes token /\ (scope ∈ (scopes : gset Scope))).
  { induction l as [|[t sc] l IH]; intros b; cbn [fold_left].
    - split; [by left|]. intros [?|(t & sc & []%elem_of_nil & _)]. done.
    - rewrite IH, orb_true_iff, andb_true_iff, ct_eq_iff, bool_decide_eq_true. split.
      + intros [[?|[? ?]]|(t' & sc' & ? & ?)]; [by left|right; exists t, sc; split; [by left|done]|].
        right. exists t', sc'. split; [by right|done].
      + intros [?|(t' & sc' & [E|?]%elem_of_cons & ?)]; [by left; left| |].
        * simplify_eq. left. right. done.
        * right. by exists t', sc'. }
  rewrite H. split.
  - intros [?|(t & sc & Hin%elem_of_map_to_list & ?)]; [done|eauto].
  - intros (t & sc & Hin & ?). right. exists t, sc. by rewrite elem_of_map_to_list.
Qed.

(** * The policy *)

(** Whoever is bound to a label is a member; members are in lower case. *)
Record policy_ok (p : SignerPolicy) : Prop := {
  po_members : forall label set a, sp_by_label p !! label = Some set -> a ∈ set -> a ∈ sp_members p;
  po_lower : forall a, a ∈ sp_members p -> to_ascii_lowercase a = a;
}.
Lemma parse_bindings_ok labels l p p' : policy_ok p -> parse_bindings labels l p = Ok p' -> policy_ok p'.
Proof.
  revert p. induction l as [|e l IH]; intros p Hp; cbn; [by intros [= <-]|]. intros H.
  apply result_bind_Ok in H as ([label addr] & _ & H). apply result_bind_Ok in H as (u1 & _ & H).
  apply result_bind_Ok in H as (u2 & _ & H). eapply IH; [|exact H]. destruct Hp as [H1 H2]. split; cbn.
  - intros lb set a. rewrite lookup_partial_alter. case_decide as E.
    + subst lb. intros [= <-]. rewrite !elem_of_union. intros [?|Ha]; [by left|].
      destruct (sp_by_label p !! trim label) as [set|] eqn:El; cbn in Ha; [|set_solver]. right. by eapply H1.
    + intros Hl Ha. apply elem_of_union. right. by eapply H1.
  - intros a [->%elem_of_singleton|?]%elem_of_union; [apply lowercase_idem|by apply H2].
Qed.
Lemma SignerPolicy_parse_ok raw labels p : SignerPolicy_parse raw labels = Ok p -> policy_ok p.
Proof.
  unfold SignerPolicy_parse. intros H. apply result_bind_Ok in H as (q & Hq & H).
  assert (Hok : policy_ok q).
  { eapply parse_bindings_ok; [|exact Hq]. split; cbn; [by intros lb set a ?%lookup_empty_Some|set_solver]. }
  destruct (policy_enforced q); [|by injection H as <-]. apply result_bind_Ok in H as (u1 & _ & H).
  apply result_bind_Ok in H as (u2 & _ & H). by injection H as <-.
Qed.
Lemma start_ok a s : start a = Ok s -> policy_ok (sv_signers s) /\ (au_enforced (sv_auth s) || ar_allow_unauthenticated a) = true.
Proof.
  unfold start. intros H. apply result_bind_Ok in H as (auth & Ha & H). apply result_bind_Ok in H as (p & Hp & H).
  apply result_bind_Ok in H as (u & Hu%require_Ok & [= <-]). split; [|done].
  unfold args_policy in Hp. apply result_bind_Ok in Hp as (tokens & _ & Hp). by eapply SignerPolicy_parse_ok.
Qed.
Lemma permits_lower p i signer : permits p i (to_ascii_lowercase signer) = permits p i signer.
Proof. unfold permits. by rewrite lowercase_idem. Qed.
Lemma permits_member s i signer : policy_ok (sv_signers s) -> policy_enforced (sv_signers s) = true ->
  permits (sv_signers s) i signer = true -> to_ascii_lowercase signer ∈ sv_validator_set s.
Proof.
  intros [H1 H2] He. unfold permits. rewrite He. cbn [negb]. intros Hp.
  assert (Hm : to_ascii_lowercase signer ∈ sp_members (sv_signers s)).
  { destruct i as [label|]; [|by apply bool_decide_eq_true in Hp].
    destruct (sp_by_label _ !! label) as [set|] eqn:El; [|done]. apply bool_decide_eq_true in Hp. by eapply H1. }
  unfold sv_validator_set. apply elem_of_map. exists (to_ascii_lowercase signer). by rewrite lowercase_idem.
Qed.

Section Server.
Context {RT : Runtime} {HX : HexCodec} {AL : Alloy} {HL : HexLaws} {ALL : AlloyLaws} {AT : AlloyText}.
Variable s : Server.
Abbreviation vs := (sv_validator_set s).
Abbreviation T := (sprog Tables DbError).

(** * What a request does to the database *)

(** The statements a request may lead to, by the credential that makes it. *)
Definition request_effects (token : text) (e : Effect) : Prop :=
  match e with
  | ERead | EFold _ | EDrop _ | EOther => True
  | ESign _ _ signer => grants (sv_auth s) token Sign = true /\ permit_signer s token signer = true
  | ENote _ => grants (sv_auth s) token Relay = true
  | EMark _ f => grants (sv_auth s) token Indexer = true /\
      exists tx, f = claim_lifecycle tx \/ f = cancel_lifecycle tx \/ f = refund_lifecycle tx
  | _ => False
  end.
Abbreviation anything := (fun _ => True).
Abbreviation does L := (guarded (E := DbError) (tables_ok vs) (within vs L)).
Abbreviation discard := (DbSafety.discard).

Lemma does_answer L {A} (p : T A) (f : A -> Response) : does L anything p -> does L anything (a ← p; mret (f a)).
Proof using Type. intros H. apply does_seq; [done|]. intros a. apply does_ret. Qed.
Lemma does_if L {A} (b : bool) (p q : T A) : (b = true -> does L anything p) -> (b = false -> does L anything q) ->
  does L anything (if b then p else q).
Proof using Type. destruct b; auto. Qed.
Lemma does_rows L (f : Tables -> list (text * SubmissionRow)) : L ERead ->
  does L anything (rows ← sql (fun _ d => (d, f d)); attach_signatures rows).
Proof using Type.
  intros Hr. apply does_seq; [by apply does_read|]. intros rows. unfold attach_signatures.
  apply does_if; intros _; [apply does_ret|by apply does_read].
Qed.
Lemma does_upsert_all L sigs record : L ERead ->
  (forall id, L (EFold id) /\ L (EDrop id)) ->
  Forall (fun sig => forall id, L (ESign id Transfer (to_ascii_lowercase (sig_signer sig)))) sigs ->
  does L anything (upsert_all s record sigs).
Proof using HL ALL.
  intros Hr Ha Hs. revert record. induction Hs as [|sig sigs Hsig Hs IH]; intros record; cbn; [apply does_ret|].
  apply does_seq; [|done]. apply does_upsert; [done|apply Hsig|apply Ha..].
Qed.
Lemma serve_does token within_rate r : does (request_effects token) anything (serve s token within_rate r).
Proof using HL ALL.
  unfold serve. apply does_if; [intros _; apply does_ret|]. intros Hg%negb_false_iff.
  apply does_if; [intros _; apply does_ret|]. intros _.
  destruct r as [|pending to from limit offset|id|limit offset after| | |record|id kind signer signature|id tx|what id tx
    |c t sy|c t|f t|f t]; cbn [scope_of] in Hg; cbn [handler].
  - apply does_ret.
  - unfold list_submissions. destruct pending as [k|].
    2:{ destruct (page limit offset) as [a b]. apply (does_answer _ (load_page a b) (fun l => ok (Records l))). unfold load_page. by apply does_rows. }
    case_bool_decide; [destruct to; [by apply does_answer, does_rows|apply does_ret]|].
    case_bool_decide; [destruct from; [by apply does_answer, does_rows|apply does_ret]|apply does_ret].
  - apply does_answer. eapply does_any, does_load. done.
  - unfold get_refund_candidates. destruct (page limit offset), after as [a|]; [apply does_if; intros _; [apply does_ret|]|];
      by apply does_answer, does_rows.
  - by apply does_answer, does_read.
  - by apply does_answer, does_read.
  - unfold post_submission. apply does_if; [intros _; apply does_ret|]. intros _.
    apply does_if; [intros _; apply does_ret|]. intros Hp%negb_false_iff.
    assert (Hs : Forall (fun sig => forall id, request_effects token (ESign id Transfer (to_ascii_lowercase (sig_signer sig))))
      (rec_signatures record)).
    { apply Forall_forall. intros sig Hin id. split; [done|]. unfold permit_signer. rewrite permits_lower.
      rewrite forallb_forall in Hp. by apply Hp, list_elem_of_In. }
    destruct (rec_signatures record) as [|x l].
    + apply (does_answer _ _ (fun e => ok (OneRecord (default (base_of record) e)))). eapply does_any, does_load. done.
    + apply (does_answer _ _ (fun m => ok (OneRecord m))). by apply does_upsert_all.
  - unfold post_attestation. destruct (kind_of_text kind) as [[]|]; try apply does_ret;
      (apply does_if; [intros _; apply does_ret|]; intros Hp%negb_false_iff);
      (apply (does_answer _ _ (fun r => ok (OneRecord r))), does_attest; [done|]; intros _; split; [done|]);
      unfold permit_signer; rewrite permits_lower; exact Hp.
  - apply (does_answer _ _ (fun _ => no_content)), does_note. exact Hg.
  - apply (does_answer _ _ (fun _ => no_content)). destruct what; unfold mark_claimed_observed, mark_cancelled_observed, mark_refunded_observed,
      mark_claimed_with, mark_cancelled_with, mark_refunded_with.
    + apply does_mark; [exact I| |discriminate]. split; [exact Hg|]. exists tx. by left.
    + apply does_mark; [exact I| |discriminate]. split; [exact Hg|]. exists tx. by right; left.
    + apply does_mark; [exact I| |discriminate]. split; [exact Hg|]. exists tx. by right; right.
  - apply (does_answer _ _ (fun a => ok (Tokens [a]))). by apply does_add_token.
  - apply (does_answer _ _ (fun b : bool => if b then no_content else refuse 404)). by apply does_remove_token.
  - apply (does_answer _ _ (fun a => ok (Chains [a]))). by apply does_add_chain.
  - apply (does_answer _ _ (fun b : bool => if b then no_content else refuse 404)). by apply does_remove_chain.
Qed.

(** Requests by the holders of some tokens, and the hourly collection of markers. *)
Inductive served (holds : text -> Prop) : T unit -> Prop :=
  | Serves token within_rate r : holds token -> served holds (discard (serve s token within_rate r))
  | Collects max_age : served holds (discard (gc_parked_markers max_age)).
Definition served_effects (holds : text -> Prop) (e : Effect) : Prop :=
  match e with ECollect | ERead | EOther => True | _ => exists token, holds token /\ request_effects token e end.
Lemma served_does holds p : served holds p -> does (served_effects holds) anything p.
Proof using HL ALL.
  intros [token w r Ht|max_age]; apply does_discard; [|by apply does_gc].
  eapply guarded_relation; [apply serve_does|]. intros d d' _ (e & He & Hd). exists e. split; [|exact Hd].
  destruct e; cbn in *; try done; by exists token.
Qed.

(** A run of the server on the tables it finds. *)
Abbreviation server_runs holds d y := (rtc (sys_step (served holds)) (MkSystem d []) y).
Lemma server_within holds d y : tables_ok vs d -> server_runs holds d y ->
  rtc (fun d d' => tables_ok vs d /\ within vs (served_effects holds) d d') d (sys_state y).
Proof using HL ALL AT.
  intros Hd H. by apply (run_within vs (served_effects holds) (served holds) (MkSystem d []) y I (served_does holds) Hd
    (Forall_nil_2 _)) in H as [_ H].
Qed.

(** C27. Only an observer moves a lifecycle. While any number of requests run at the same
    time, no request parks a lifecycle marker, whatever its token, so no transfer can be
    marked before it is known; and if none of the tokens carries the indexer's scope, the
    lifecycle of every transfer without a parked marker is the one it had, or that of a new
    row: nobody else can hide such a transfer from a queue or put it into one. (A marker
    that is parked, which only the observers of the chains do, is folded into the row by
    the next write to the transfer, whosever it is.) *)
Theorem lifecycle_needs_indexer holds d y id : tables_ok vs d -> server_runs holds d y -> db_lifecycle d !! id = None ->
  db_lifecycle (sys_state y) !! id = None /\
  ((forall token, holds token -> grants (sv_auth s) token Indexer = false) ->
   same_or_new (lifecycle_at d id) (lifecycle_at (sys_state y) id)).
Proof using HL ALL AT.
  intros Hd H%server_within Hn; [|done]. split.
  - revert Hn. induction H as [d|d d1 d' [Hok (e & He & Hd1)] H IH]; intros Hn; [done|].
    apply IH; [by eapply effect_ok|]. apply effect_markers in Hd1.
    destruct e as [| | | | | | | |i m|i|i| |]; cbn in He, Hd1; try by rewrite Hd1.
    + by destruct He as (t & _ & []).
    + rewrite Hd1, lookup_delete. by case_decide.
    + destruct (db_lifecycle d1 !! id) as [m|] eqn:E; [|done]. by rewrite (lookup_weaken _ _ _ _ E Hd1) in Hn.
  - intros Hi. eapply (quiet_run vs (served_effects holds)); [|exact H|done]. intros e He.
    destruct e; cbn in *; try done; destruct He as (t & Ht & He); try done. destruct He as [He _]. by rewrite (Hi t Ht) in He.
Qed.

(** * Signers *)

Lemma signers_update d id g f i k : signers_of (update_submission id g f d).1 i k = signers_of d i k.
Proof using Type. apply signers_of_frame; apply update_frame. Qed.
Lemma signers_insert_row d id record now i k : signers_of (insert_submission_row id record now d) i k = signers_of d i k.
Proof using Type. unfold insert_submission_row. by destruct (db_submissions d !! id). Qed.
Lemma new_signature d id record sig existing now d' u i k x :
  merge_signature vs id record sig existing now d = Ok (d', u) -> x ∈ signers_of d' i k ->
  x ∈ signers_of d i k \/ ESign id Transfer (to_ascii_lowercase (sig_signer sig)) = ESign i k x.1.
Proof using Type.
  unfold merge_signature. set (d1 := if existing then _ else _).
  assert (H1 : signers_of d1 i k = signers_of d i k).
  { unfold d1, backfill_token. destruct existing; [case_bool_decide; [done|apply signers_update]|apply signers_insert_row]. }
  clearbody d1. intros H. apply result_bind_Ok in H as (u1 & _ & H). case_bool_decide; [done|].
  destruct (db_signatures d1 !! _) eqn:Es; injection H as <- _; [rewrite H1; by left|].
  rewrite signers_update, signers_insert_signature, H1 by done. case_bool_decide as E; [|by left].
  destruct E as [-> <-]. intros [->%list_elem_of_singleton|?]%elem_of_app; [by right|by left].
Qed.
Lemma new_attestation d id kind sig now d' u i k x : kind <> Transfer ->
  merge_attestation vs id kind sig now d = Ok (d', u) -> x ∈ signers_of d' i k ->
  x ∈ signers_of d i k \/ ESign id kind (to_ascii_lowercase (sig_signer sig)) = ESign i k x.1.
Proof using Type.
  unfold merge_attestation. intros Hk H. apply result_bind_Ok in H as (u1 & _ & H). case_bool_decide; [done|].
  destruct (db_attestations d !! _) eqn:Es; injection H as <- _; [by left|].
  rewrite signers_insert_attestation by done. case_bool_decide as E; [|by left].
  destruct E as [-> <-]. intros [->%list_elem_of_singleton|?]%elem_of_app; [by right|by left].
Qed.
(** A statement adds at most the signature it names. *)
Lemma effect_signers d e d' id k x : effect vs d e d' -> x ∈ signers_of d' id k -> x ∈ signers_of d id k \/ e = ESign id k x.1.
Proof using Type.
  intros He. destruct He.
  - by left.
  - rewrite (signers_of_frame d); [by left|done..].
  - by left.
  - rewrite signers_insert_row. by left.
  - by eapply new_signature.
  - by eapply new_attestation.
  - rewrite signers_update. by left.
  - rewrite signers_update. by left.
  - unfold lifecycle_sql. rewrite signers_update. by left.
  - by left.
  - unfold fold_marker. destruct (db_lifecycle d !! id0); cbn [fst]; [rewrite signers_update|]; by left.
  - by left.
  - by left.
  - by left.
Qed.


(** * A validator's signature *)

Lemma lower_char c : is_ascii_hexdigit c = true ->
  utf8_len (if (65 <=? c) && (c <=? 90) then c + 32 else c) = utf8_len c /\
  is_ascii_hexdigit (if (65 <=? c) && (c <=? 90) then c + 32 else c) = true.
Proof using Type.
  intros Hc. destruct ((65 <=? c) && (c <=? 90)) eqn:E1; [|by split].
  apply andb_true_iff in E1 as [E1%Z.leb_le E2%Z.leb_le].
  assert (H : c <= 70).
  { revert Hc. unfold is_ascii_hexdigit, is_digit. rewrite !orb_true_iff, !andb_true_iff, !Z.leb_le. lia. }
  clear Hc. assert (Hc : c = 65 \/ c = 66 \/ c = 67 \/ c = 68 \/ c = 69 \/ c = 70) by lia.
  repeat destruct Hc as [-> | Hc]; [by split..|]. subst. by split.
Qed.
Lemma valid_norm i : is_valid_submission_id i = true -> is_valid_submission_id (norm_id i) = true.
Proof using Type.
  unfold is_valid_submission_id, norm_id. assert (E : strip_0x (txt "0x" ++ to_ascii_lowercase (strip_0x i)) = to_ascii_lowercase (strip_0x i)).
  { unfold strip_0x at 1. by rewrite strip_prefix_app. }
  rewrite E. generalize (strip_0x i). intros l. rewrite !andb_true_iff, !Z.eqb_eq. intros [Hl Hx].
  assert (H : str_len (to_ascii_lowercase l) = str_len l /\ forallb is_ascii_hexdigit (to_ascii_lowercase l) = true).
  { clear Hl. unfold str_len, to_ascii_lowercase. induction l as [|c l IH]; cbn in *; [done|].
    apply andb_true_iff in Hx as [Hc Hx]. destruct (IH Hx) as [-> ->].
    destruct (lower_char c Hc) as [-> ->]. done. }
  destruct H as [-> ->]. done.
Qed.
Lemma alone_load t i d row : is_valid_submission_id i = true -> db_submissions d !! norm_id i = Some row ->
  alone (E := DbError) t (load_existing i) d = (Ok (attach d (norm_id i) row), d).
Proof using Type.
  intros Hv Hr. unfold load_existing. rewrite alone_bind. unfold load. rewrite Hv. cbn [negb].
  rewrite alone_bind, alone_sql. cbn [fst snd]. rewrite Hr. reflexivity.
Qed.
Lemma signed_after_apply t i d x k n : x ∈ signers_of d n k ->
  x ∈ signers_of (alone (E := DbError) t (apply_pending_lifecycle i) d).2 n k.
Proof using Type.
  rewrite alone_apply. unfold fold_marker. destruct (db_lifecycle d !! i) as [m|]; [|done].
  change (x ∈ signers_of d n k -> x ∈ signers_of (update_submission i always (fun r => touch t (on_lifecycle (apply_marker m) r)) d).1 n k).
  by rewrite signers_update.
Qed.
Lemma row_after_apply t i d : is_Some (db_submissions d !! i) ->
  exists row d', alone (E := DbError) t (apply_pending_lifecycle i) d = (Ok tt, d') /\ db_submissions d' !! i = Some row.
Proof using Type.
  intros H. set (d' := (drop_marker i t (fold_marker i t d).1).1).
  assert (Hs : is_Some (db_submissions d' !! i)).
  { unfold d', fold_marker. destruct (db_lifecycle d !! i); cbn; [by apply update_row_Some|done]. }
  destruct Hs as [row Hr]. exists row, d'. by split.
Qed.
Lemma by_signer_elem l x : x ∈ l -> MkSignerSig x.1 x.2 ∈ by_signer l.
Proof using Type.
  intros H. unfold by_signer. apply list_elem_of_fmap. exists x. split; [done|].
  by rewrite (sort_by_key_Permutation _ _).
Qed.
(** What the database would say of the record now. *)
Definition acceptable (d : Tables) (record : SubmissionRecord) : Prop :=
  (exists h, verify_binding record = Ok h) /\
  match db_submissions d !! norm_id (rec_submission_id record) with
  | Some row => same_params (into_record row [] [] []) (with_id (norm_id (rec_submission_id record)) record) = true
  | None => True
  end.
(** The transaction of a member's signature cannot be refused. *)
Lemma member_merged id record sig existing t d : to_ascii_lowercase (sig_signer sig) ∈ vs ->
  (existing = true -> is_Some (db_submissions d !! id)) ->
  exists d', merge_signature vs id record sig existing t d = Ok (d', tt) /\ is_Some (db_submissions d' !! id) /\
    exists s', (to_ascii_lowercase (sig_signer sig), s') ∈ signers_of d' id Transfer.
Proof using Type.
  intros Hm He. unfold merge_signature. set (d1 := if existing then _ else _).
  assert (H1 : is_Some (db_submissions d1 !! id)).
  { unfold d1. destruct existing; [|apply insert_row_Some]. unfold backfill_token. case_bool_decide; [by apply He|].
    by apply update_row_Some, He. }
  clearbody d1. rewrite (bool_decide_eq_true_2 _ Hm). cbn [enforce_signature_cap mbind result_bind].
  destruct (bool_decide_reflect (db_submissions d1 !! id = None)) as [E|_]; [rewrite E in H1; by destruct H1|].
  destruct (db_signatures d1 !! _) as [s0|] eqn:Es.
  - exists d1. split_and!; [done|done|]. exists s0. by apply elem_signatures.
  - eexists. split; [reflexivity|]. split; [by apply update_row_Some|]. exists (sig_signature sig).
    rewrite signers_update. cbn [signers_of]. apply elem_signatures. cbn. by rewrite lookup_insert_eq.
Qed.

(** C28. A validator is never locked out. On a server that started with a validator set, a
    validator whose token carries the signing scope and is bound to its address can post its
    signature for every acceptable record, within its rate: the answer is the stored record
    with a signature of its own, however many strangers or junk rows the database already
    holds for the transfer. *)
Theorem validator_never_locked_out args token record sig d t a canonical : start args = Ok s ->
  policy_enforced (sv_signers s) = true -> grants (sv_auth s) token Sign = true ->
  permit_signer s token (sig_signer sig) = true ->
  rec_signatures record = [sig] -> acceptable d (base_of record) ->
  (forall h, verify_binding (base_of record) = Ok h -> verify_signature h sig = Ok a) ->
  canonical_signature sig = Ok canonical ->
  exists r d', reply s t token true (PostSubmission record) d = (ok (OneRecord r), d') /\
    exists s', MkSignerSig (to_ascii_lowercase (sig_signer sig)) s' ∈ rec_signatures r.
Proof using Type.
  intros Hst Hpol Hg Hp Hsig [[h Hb] Hsame] Hver Hcan.
  pose proof (permits_member s _ _ (proj1 (start_ok _ _ Hst)) Hpol Hp) as Hm.
  assert (Es : sig_signer canonical = sig_signer sig).
  { unfold canonical_signature in Hcan. apply result_bind_Ok in Hcan as (raw & _ & Hcan).
    apply result_bind_Ok in Hcan as (b & _ & [= <-]). done. }
  pose proof (verify_binding_Ok _ _ Hb) as (Hvalid & _).
  unfold reply, serve. cbn [scope_of is_write negb andb]. rewrite Hg. cbn [negb handler]. unfold post_submission. rewrite Hsig.
  cbn [length Nat.ltb Nat.leb MAX_SIGS_PER_POST forallb]. rewrite Hp. cbn [andb negb].
  rewrite alone_bind. cbn [upsert_all]. rewrite alone_bind. unfold upsert_signature.
  rewrite alone_bind, alone_lift, Hb, alone_bind, alone_lift, (Hver _ Hb). cbn [map_err].
  rewrite alone_bind, alone_lift, Hcan. cbn [map_err]. rewrite alone_bind, alone_sql. cbn [fst snd].
  set (id := norm_id (rec_submission_id (base_of record))) in *.
  rewrite alone_bind, alone_lift.
  assert (E : match db_submissions d !! id with
     | Some row => require (same_params (into_record row [] [] []) (with_id id (base_of record)))
         (DbStore (ParamsConflict (rec_submission_id (base_of record)))) | None => Ok tt end = Ok tt).
  { destruct (db_submissions d !! id); [|done]. by rewrite Hsame. }
  rewrite E. rewrite alone_bind, alone_transaction.
  destruct (member_merged id (base_of record) canonical (bool_decide (is_Some (db_submissions d !! id))) t d) as (d1 & Em & Hr1 & s' & Hs').
  { by rewrite Es. }
  { apply bool_decide_eq_true. }
  rewrite Em. rewrite alone_bind. destruct (row_after_apply t id d1 Hr1) as (row & d2 & Ea & Hr2). rewrite Ea.
  pose proof (signed_after_apply t id d1 _ _ _ Hs') as Hs2. rewrite Ea in Hs2. cbn [snd] in Hs2.
  assert (Hid : is_valid_submission_id id = true) by (by apply valid_norm).
  assert (Hn : norm_id id = id) by apply norm_norm.
  rewrite (alone_load t id d2 row Hid) by (by rewrite Hn). rewrite Hn. cbn [upsert_all]. rewrite alone_ret. cbn [fst snd].
  eexists _, _. split; [reflexivity|]. exists s'. rewrite <- Es. cbn. by apply by_signer_elem in Hs2.
Qed.
End Server.
