(* ===== verification/RefundQueue.v ===== *)
(** The walk over the refund queue: one page after another, resuming where the last
    tick stopped. Two copies of it exist, the validator's
    (crates/bridge-core/src/backend.rs, [RefundCursor::walk]) and the Solana relayer's
    (crates/solana-relayer/src/refund.rs, [tick]); they differ in what a failed page
    does to the cursor, and that decides whether every row is examined. *)

From S2P Require Import Prelude.
From S2P Require Import Text.
From S2P Require Import HostRecord.
From S2P Require Import ListSort.
From Stdlib Require Import Sorting.Sorted.

(** * String order *)

(** Rust's [Ord] on [str], which is that of the scalar values. *)
Fixpoint text_leb (x y : text) : bool :=
  match x, y with
  | [], _ => true
  | _ :: _, [] => false
  | a :: x, b :: y => if a <? b then true else if b <? a then false else text_leb x y
  end.
Lemma text_leb_refl x : text_leb x x = true.
Proof. induction x as [|a x IH]; simpl; [done|]. by rewrite Z.ltb_irrefl. Qed.
Lemma text_leb_total x y : text_leb x y = false -> text_leb y x = true.
Proof.
  revert y. induction x as [|a x IH]; intros [|b y]; simpl; try done.
  destruct (Z.ltb_spec a b), (Z.ltb_spec b a); try done; auto.
Qed.
Lemma text_leb_antisym x y : text_leb x y = true -> text_leb y x = true -> x = y.
Proof.
  revert y. induction x as [|a x IH]; intros [|b y]; simpl; try done.
  destruct (Z.ltb_spec a b), (Z.ltb_spec b a); try done; try lia. intros. f_equal; [lia|auto].
Qed.
Lemma text_leb_trans x y z : text_leb x y = true -> text_leb y z = true -> text_leb x z = true.
Proof.
  revert y z. induction x as [|a x IH]; intros [|b y] [|c z]; simpl; try done.
  destruct (Z.ltb_spec a b), (Z.ltb_spec b a), (Z.ltb_spec b c), (Z.ltb_spec c b), (Z.ltb_spec a c), (Z.ltb_spec c a);
    try done; try lia; eauto.
Qed.

(** * The two walks *)

Definition REFUND_PAGE : nat := 500.
Definition MAX_REFUND_PAGES : nat := 20.

Section Walk.
Context {E R : Type} (id_of : R -> text).
(** One page of the queue: at most [limit] rows after an id. *)
Variable fetch : nat -> option text -> result E (list R).

(** The loop both share: what it collected and whether it reached the end, and how
    far its own variable [after] has come. *)
Fixpoint walk_loop (pages : nat) (after : option text) (candidates : list R)
    : result E (list R * bool) * option text :=
  match pages with
  | O => (Ok (candidates, false), after)
  | S pages =>
      match fetch REFUND_PAGE after with
      | Err e => (Err e, after)
      | Ok page =>
          let after := match last page with Some r => Some (id_of r) | None => after end in
          if (length page <? REFUND_PAGE)%nat then (Ok (candidates ++ page, true), after)
          else walk_loop pages after (candidates ++ page)
      end
  end.

(** [RefundCursor::walk]: [after] is the cursor itself. *)
Definition cursor_walk (cursor : option text) : result E (list R) * option text :=
  match walk_loop MAX_REFUND_PAGES cursor [] with
  | (Err e, after) => (Err e, after)
  | (Ok (candidates, true), _) => (Ok candidates, None)
  | (Ok (candidates, false), after) => (Ok candidates, after)
  end.
(** The relayer's [tick]: [after] is a copy, stored only at the end. *)
Definition relayer_walk (cursor : option text) : result E (list R) * option text :=
  match walk_loop MAX_REFUND_PAGES cursor [] with
  | (Err e, _) => (Err e, cursor)
  | (Ok (candidates, true), _) => (Ok candidates, None)
  | (Ok (candidates, false), after) => (Ok candidates, after)
  end.
End Walk.

(** * The queue *)

Definition with_id (r : SubmissionRecord) (id : text) : SubmissionRecord :=
  MkSubmissionRecord id (rec_bridge_domain r) (rec_debridge_id r) (rec_amount r) (rec_bridge_decimals r)
    (rec_chain_id_from r) (rec_chain_id_to r) (rec_nonce r) (rec_receiver r) (rec_auto_params r)
    (rec_native_sender r) (rec_token r) (rec_signatures r) (rec_cancel_signatures r) (rec_refund_signatures r).
Definition lowered (r : SubmissionRecord) : SubmissionRecord := with_id r (to_ascii_lowercase (rec_submission_id r)).
(** [StoreBackend::refund_candidates] of a directory, from the records [load_all] lists. *)
Definition refund_candidates (all : list SubmissionRecord) (limit : nat) (after : option text) : list SubmissionRecord :=
  let all := sort_by_key rec_submission_id text_leb (map lowered all) in
  let after := to_ascii_lowercase <$> after in
  take limit (List.filter (fun r => match after with None => true | Some a => negb (text_leb (rec_submission_id r) a) end) all).

Section Queue.
Context {E : Type}.
Abbreviation id_of := rec_submission_id.
Variable q : list SubmissionRecord.
(** A queue in order of its ids, each once, in lower case. *)
Definition in_order : Prop :=
  StronglySorted (fun x y => text_leb (id_of y) (id_of x) = false) q /\
  Forall (fun r => to_ascii_lowercase (id_of r) = id_of r) q.
(** The rows after an id. *)
Definition page_of (limit : nat) (after : option text) : list SubmissionRecord :=
  take limit (List.filter (fun r => match after with None => true | Some a => negb (text_leb (id_of r) a) end) q).
(** A store that answers from this queue, when it answers. *)
Definition faithful (fetch : nat -> option text -> result E (list SubmissionRecord)) : Prop :=
  forall limit after, fetch limit after = Ok (page_of limit after) \/ exists e, fetch limit after = Err e.
(** The cursor stands behind the first [n] rows. *)
Definition stands (cursor : option text) (n : nat) : Prop :=
  (n <= length q)%nat /\ match cursor with None => n = 0%nat | Some a => exists m r, n = S m /\ q !! m = Some r /\ a = id_of r end.

Lemma filter_all {A} (f : A -> bool) l : Forall (fun x => f x = true) l -> List.filter f l = l.
Proof. induction 1 as [|x l Hx _ IH]; simpl; [done|]. by rewrite Hx, IH. Qed.
Lemma filter_none {A} (f : A -> bool) l : Forall (fun x => f x = false) l -> List.filter f l = [].
Proof. induction 1 as [|x l Hx _ IH]; simpl; [done|]. by rewrite Hx. Qed.
Lemma sorted_split l m r : StronglySorted (fun x y => text_leb (id_of y) (id_of x) = false) l -> l !! m = Some r ->
  Forall (fun x => text_leb (id_of x) (id_of r) = true) (take (S m) l) /\
  Forall (fun x => text_leb (id_of x) (id_of r) = false) (drop (S m) l).
Proof.
  revert m. induction l as [|x l IH]; intros m Hs Hm; [done|]. inversion Hs as [|? ? Hs' Hf]; subst.
  destruct m as [|m]; simpl in Hm.
  - injection Hm as ->. cbn [take drop]. rewrite take_0. split; [|done]. apply Forall_singleton, text_leb_refl.
  - destruct (IH m Hs' Hm) as [Ht Hd]. cbn [take drop]. split; [|done]. constructor; [|done].
    rewrite Forall_forall in Hf. apply text_leb_total, Hf. by eapply list_elem_of_lookup_2.
Qed.
Lemma page_stands cursor n limit : in_order -> stands cursor n -> page_of limit cursor = take limit (drop n q).
Proof.
  intros [Hs _] [Hn Hc]. unfold page_of. f_equal. destruct cursor as [a|].
  - destruct Hc as (m & r & -> & Hm & ->). destruct (sorted_split q m r Hs Hm) as [Ht Hd].
    rewrite <- (take_drop (S m) q) at 1. rewrite List.filter_app, filter_none, filter_all; [done|..];
      (eapply Forall_impl; [eassumption|]); intros x Hx; simpl in *; by rewrite Hx.
  - subst n. apply filter_all. by apply Forall_forall.
Qed.

Abbreviation window := (MAX_REFUND_PAGES * REFUND_PAGE)%nat.
Lemma walk_loop_spec fetch pages cursor n acc : in_order -> faithful fetch -> stands cursor n ->
  (exists e after, walk_loop id_of fetch pages cursor acc = (Err e, after)) \/
  (length (drop n q) < pages * REFUND_PAGE)%nat /\
    (exists after, walk_loop id_of fetch pages cursor acc = (Ok (acc ++ drop n q, true), after)) \/
  (pages * REFUND_PAGE <= length (drop n q))%nat /\
    exists after, stands after (n + pages * REFUND_PAGE) /\
      walk_loop id_of fetch pages cursor acc = (Ok (acc ++ take (pages * REFUND_PAGE) (drop n q), false), after).
Proof.
  intros Ho Hf. revert cursor n acc. induction pages as [|pages IH]; intros cursor n acc Hst.
  { right. right. split; [lia|]. exists cursor. rewrite Nat.mul_0_l, Nat.add_0_r. split; [done|]. by rewrite app_nil_r. }
  cbn [walk_loop]. destruct (Hf REFUND_PAGE cursor) as [-> |[e ->]]; [|left; eauto].
  rewrite (page_stands _ n) by done. rewrite length_take.
  destruct (Nat.ltb_spec (Nat.min REFUND_PAGE (length (drop n q))) REFUND_PAGE) as [Hlt|Hge].
  - right. left. split; [lia|]. eexists. by rewrite take_ge by lia.
  - rewrite length_drop in Hge. assert (0 < REFUND_PAGE)%nat as Hp by (unfold REFUND_PAGE; lia).
    set (p := take REFUND_PAGE (drop n q)).
    assert (length p = REFUND_PAGE) as Hl by (unfold p; rewrite length_take, length_drop; lia).
    destruct (lookup_lt_is_Some_2 q (n + (REFUND_PAGE - 1))) as [r Hr]; [lia|].
    assert (last p = Some r) as ->.
    { rewrite last_lookup, Hl. unfold p. rewrite lookup_take_lt by lia. rewrite lookup_drop.
      by replace (n + Nat.pred REFUND_PAGE)%nat with (n + (REFUND_PAGE - 1))%nat by lia. }
    assert (stands (Some (id_of r)) (n + REFUND_PAGE)) as Hst'.
    { split; [lia|]. exists (n + (REFUND_PAGE - 1))%nat, r. split_and!; [lia|done|done]. }
    assert (take (S pages * REFUND_PAGE) (drop n q) =
      p ++ take (pages * REFUND_PAGE) (drop (n + REFUND_PAGE) q)) as Hw.
    { unfold p. rewrite Nat.mul_succ_l, Nat.add_comm, <- take_take_drop, drop_drop. done. }
    assert (drop n q = p ++ drop (n + REFUND_PAGE) q) as Hd.
    { unfold p. by rewrite <- drop_drop, take_drop. }
    rewrite length_drop. destruct (IH _ _ (acc ++ p) Hst') as [He|[(Hlt & after & Ha)|(Hle & after & Ha & Ha')]]; [by left|..];
      rewrite length_drop in *; right; [left|right]; (split; [lia|]); exists after.
    + by rewrite Ha, Hd, app_assoc.
    + split; [by replace (n + S pages * REFUND_PAGE)%nat with (n + REFUND_PAGE + pages * REFUND_PAGE)%nat by lia|].
      by rewrite Ha', Hw, app_assoc.
Qed.
(** A tick of the relayer: its window of the queue, or nothing at all. *)
Lemma relayer_walk_spec fetch cursor n : in_order -> faithful fetch -> stands cursor n ->
  (exists e, relayer_walk id_of fetch cursor = (Err e, cursor)) \/
  exists cursor', relayer_walk id_of fetch cursor = (Ok (take window (drop n q)), cursor') /\
    if decide (n + window <= length q)%nat then stands cursor' (n + window) else cursor' = None.
Proof.
  intros Ho Hf Hst. unfold relayer_walk.
  destruct (walk_loop_spec fetch MAX_REFUND_PAGES cursor n [] Ho Hf Hst)
    as [(e & after & ->)|[(Hlt & after & ->)|(Hle & after & Ha & ->)]]; [left; eauto|right..].
  - exists None. rewrite length_drop in Hlt. rewrite decide_False by lia. by rewrite take_ge by (rewrite length_drop; lia).
  - exists after. rewrite length_drop in Hle. destruct Hst as [Hn _]. rewrite decide_True by lia. done.
Qed.

(** Ticks one after the other, each with the store as it answers then: the rows
    examined and the cursor at the end, and how many ticks succeeded. *)
Variable walk : (nat -> option text -> result E (list SubmissionRecord)) -> option text ->
  result E (list SubmissionRecord) * option text.
Fixpoint ticks (fetches : list (nat -> option text -> result E (list SubmissionRecord))) (cursor : option text)
    : list SubmissionRecord * nat * option text :=
  match fetches with
  | [] => ([], 0%nat, cursor)
  | fetch :: fetches =>
      match walk fetch cursor with
      | (Ok candidates, cursor) => let '(l, n, c) := ticks fetches cursor in (candidates ++ l, S n, c)
      | (Err _, cursor) => ticks fetches cursor
      end
  end.
End Queue.

Section Examined.
Context {E : Type}.
Abbreviation id_of := rec_submission_id.
Abbreviation window := (MAX_REFUND_PAGES * REFUND_PAGE)%nat.
Variable q : list SubmissionRecord.
Abbreviation relayer_ticks := (ticks (relayer_walk (E := E) id_of)).

(** Rows the cursor has not passed yet. *)
Lemma ahead_examined fetches cursor n i r : in_order q -> Forall (faithful q) fetches -> stands q cursor n ->
  (n <= i)%nat -> q !! i = Some r -> let '(l, ok, _) := relayer_ticks fetches cursor in
  ((i - n) / window < ok)%nat -> r ∈ l.
Proof.
  intros Ho Hall. revert cursor n. induction Hall as [|fetch fetches Hf _ IH]; intros cursor n Hst Hi Hr; [simpl; lia|].
  assert (0 < window)%nat as Hw by (unfold MAX_REFUND_PAGES, REFUND_PAGE; lia). set (w := window) in *.
  cbn [ticks]. destruct (relayer_walk_spec q fetch cursor n Ho Hf Hst) as [[e ->]|(c' & -> & Hc')].
  { specialize (IH cursor n Hst Hi Hr). done. }
  fold w in Hc' |- *. assert (i < length q)%nat as Hlen by (by eapply lookup_lt_Some).
  destruct (decide (i < n + w)%nat) as [Hin|Hout].
  - destruct (ticks _ _ c') as [[l ok] c]. intros _. apply elem_of_app. left.
    apply list_elem_of_lookup. exists (i - n)%nat. rewrite lookup_take_lt by lia. rewrite lookup_drop.
    by replace (n + (i - n))%nat with i by lia.
  - rewrite decide_True in Hc' by lia. specialize (IH c' (n + w)%nat Hc' ltac:(lia) Hr).
    destruct (ticks _ _ c') as [[l ok] c]. intros Hok. apply elem_of_app. right. apply IH.
    replace (i - n)%nat with ((i - (n + w)) + 1 * w)%nat in Hok by lia. rewrite Nat.div_add in Hok by lia. lia.
Qed.
(** Rows it has passed come after the wrap. *)
Lemma behind_examined fetches cursor n i r : in_order q -> Forall (faithful q) fetches -> stands q cursor n ->
  (i < n)%nat -> q !! i = Some r -> let '(l, ok, _) := relayer_ticks fetches cursor in
  ((length q - n) / window + i / window + 1 < ok)%nat -> r ∈ l.
Proof.
  intros Ho Hall. revert cursor n. induction Hall as [|fetch fetches Hf Hall IH]; intros cursor n Hst Hi Hr; [simpl; lia|].
  assert (0 < window)%nat as Hw by (unfold MAX_REFUND_PAGES, REFUND_PAGE; lia). set (w := window) in *.
  cbn [ticks]. destruct (relayer_walk_spec q fetch cursor n Ho Hf Hst) as [[e ->]|(c' & -> & Hc')].
  { specialize (IH cursor n Hst Hi Hr). done. }
  fold w in Hc' |- *. destruct (decide (n + w <= length q)%nat) as [Hle|Hgt].
  - specialize (IH c' (n + w)%nat Hc' ltac:(lia) Hr).
    destruct (ticks _ _ c') as [[l ok] c]. intros Hok. apply elem_of_app. right. apply IH.
    replace (length q - n)%nat with ((length q - (n + w)) + 1 * w)%nat in Hok by lia. rewrite Nat.div_add in Hok by lia. lia.
  - subst c'. pose proof (ahead_examined fetches None 0 i r Ho Hall ltac:(split; [lia|done]) ltac:(lia) Hr) as H.
    fold w in H. destruct (ticks _ _ None) as [[l ok] c]. intros Hok. apply elem_of_app. right. apply H.
    rewrite Nat.sub_0_r. lia.
Qed.

(** No refund candidate is starved. While the queue stands still, however its store
    fails in between, and wherever the relayer's cursor stands: once twice as many
    ticks succeeded as the queue has windows (of twenty pages of 500 rows, and one
    more), every row was examined; from the head of the queue once is enough. *)
Theorem every_candidate_examined fetches cursor n r : in_order q -> Forall (faithful q) fetches -> stands q cursor n ->
  r ∈ q -> let '(l, ok, _) := relayer_ticks fetches cursor in
  (2 * (length q / window + 1) <= ok \/ cursor = None /\ length q / window + 1 <= ok)%nat -> r ∈ l.
Proof.
  intros Ho Hall Hst [i Hi]%list_elem_of_lookup. assert (i < length q)%nat as Hlen by (by eapply lookup_lt_Some).
  assert (0 < window)%nat as Hw by (unfold MAX_REFUND_PAGES, REFUND_PAGE; lia).
  pose proof (ahead_examined fetches cursor n i r Ho Hall Hst) as Ha.
  pose proof (behind_examined fetches cursor n i r Ho Hall Hst) as Hb. set (w := window) in *.
  assert (forall a, a <= length q -> a / w <= length q / w)%nat as Hmono by (intros; by apply Nat.Div0.div_le_mono).
  destruct (ticks _ _ _) as [[l ok] c]. pose proof (Hmono (i - n)%nat ltac:(lia)). pose proof (Hmono (length q - n)%nat ltac:(lia)).
  pose proof (Hmono i ltac:(lia)). intros Hok. destruct (decide (n <= i)%nat) as [Hle|Hgt].
  - apply Ha; [done|done|]. lia.
  - destruct Hok as [Hok|[-> _]]; [|destruct Hst as [_ ->]; lia]. apply Hb; [lia|done|lia].
Qed.
End Examined.

(** * The validator's cursor *)

(** A queue one row longer than a page, a store that answers, and one whose second
    page fails. *)
Definition sample_row (i : Z) : SubmissionRecord :=
  MkSubmissionRecord [1000 + i] [] [] [] None 0 0 0 [] [] [] [] [] [] [].
Definition sample_queue : list SubmissionRecord := map sample_row (seqZ 0 501).
Definition answering (limit : nat) (after : option text) : result unit (list SubmissionRecord) :=
  Ok (page_of sample_queue limit after).
Definition failing_later (limit : nat) (after : option text) : result unit (list SubmissionRecord) :=
  match after with None => Ok (page_of sample_queue limit None) | Some _ => Err tt end.

Lemma sample_in_order : in_order sample_queue.
Proof.
  split.
  - assert (Forall2 (fun r i => rec_submission_id r = [1000 + i]) sample_queue (seqZ 0 501)) as H.
    { unfold sample_queue. generalize (seqZ 0 501). intros l. induction l; constructor; [done|done]. }
    assert (StronglySorted Z.lt (seqZ 0 501)) as Hs.
    { unfold seqZ. assert (forall a n, StronglySorted Z.lt (map (fun i => Z.of_nat i + 0) (seq a n))) as Hn; [|apply Hn].
      intros a n. revert a. induction n as [|n IH]; intros a; [constructor|]. cbn [seq map]. constructor; [apply IH|].
      apply Forall_forall. intros x Hx. apply list_elem_of_In, in_map_iff in Hx as (y & <- & Hy). apply in_seq in Hy. lia. }
    revert Hs. induction H as [|r i l k Hr Hl IH]; [constructor|]. intros Hs. inversion Hs as [|? ? Hs' Hf]; subst.
    constructor; [auto|]. clear - Hr Hl Hf. induction Hl as [|r' i' l k Hr' _ IH]; [done|].
    apply Forall_cons in Hf as [Hlt Hf]. constructor; [|auto]. rewrite Hr, Hr'. simpl.
    destruct (Z.ltb_spec (1000 + i') (1000 + i)); [lia|]. by destruct (Z.ltb_spec (1000 + i) (1000 + i')); [|lia].
  - unfold sample_queue. apply Forall_map, Forall_forall. intros i Hi%elem_of_seqZ. simpl.
    rewrite (proj2 (Z.leb_gt (1000 + i) 90)) by lia. by rewrite andb_false_r.
Qed.

(** The validator's copy of the walk can starve rows for ever. It moves its cursor
    page by page and leaves it there when a later page fails, dropping what it read:
    on a queue of 501 rows, with a store whose second page fails at every other tick,
    every second tick succeeds and yet the first row, and with it the whole first page, is never examined. *)
Theorem validator_walk_starves k :
  let fetches := concat (replicate k [failing_later; answering]) in
  Forall (faithful sample_queue) fetches /\ in_order sample_queue /\
  exists l, ticks (cursor_walk rec_submission_id) fetches None = (l, k, None) /\
    forall i, 0 <= i < 500 -> sample_row i ∈ sample_queue /\ sample_row i ∉ l.
Proof.
  assert (faithful sample_queue failing_later) as Hbad.
  { intros limit [a|]; [right; by exists tt|by left]. }
  assert (faithful sample_queue answering) as Hok by (intros limit after; by left).
  intros fetches. split; [unfold fetches; clear fetches; induction k; [constructor|by do 2 (constructor; [done|])]|].
  split; [apply sample_in_order|]. unfold fetches; clear fetches.
  exists (replicate k (sample_row 500)). split.
  - induction k as [|k IH]; [done|]. cbn [replicate concat app ticks].
    assert (cursor_walk rec_submission_id failing_later None = (Err tt, Some [1499])) as -> by (vm_compute; reflexivity).
    assert (cursor_walk rec_submission_id answering (Some [1499]) = (Ok [sample_row 500], None)) as ->
      by (vm_compute; reflexivity).
    by rewrite IH.
  - intros i Hi. split.
    + unfold sample_queue. apply list_elem_of_In, in_map, list_elem_of_In, elem_of_seqZ. lia.
    + intros H%elem_of_replicate_inv. apply (f_equal rec_submission_id) in H. simpl in H. injection H. lia.
Qed.

(** The same store does the relayer no harm: a failed tick leaves its cursor alone. *)
Example relayer_walk_recovers :
  let '(l, ok, c) := ticks (relayer_walk rec_submission_id) [failing_later; answering] None in
  (length l, ok, c) = (501%nat, 1%nat, None).
Proof. vm_compute. reflexivity. Qed.
