(* ===== verification/HostGate.v ===== *)
(** The in-memory gate of the host library (crates/bridge-solana/src/gate.rs): a
    reference the program's design was tested against. Its methods change the value
    in place, so a state comes back with every answer, errors included; that is
    where it differs from the program, whose failed transactions leave nothing. *)

From S2P Require Import Prelude.
From S2P Require Import SolanaRuntime.
From S2P Require Import HostVerify.
From S2P Require Import HostRecord.
From S2P Require HostHash.

Section HostGate.
Context {RT : Runtime} {HC : HostCrypto} {HL : HostCryptoLaws}.

Inductive GateError :=
  | ZeroAmount
  | BadReceiver (n : Z)
  | AlreadyExecuted
  | UnknownAsset
  | InsufficientLiquidity (have need : Z)
  | Verify (e : VerifyError).

Record SolanaGate := MkSolanaGate {
  sg_chain_id : Z;
  sg_bridge_domain : hash32;
  sg_validators : gset evm_address;
  sg_threshold : Z;
  sg_nonce_to : gmap Z Z;
  sg_executed : gset hash32;
  sg_token_of : gmap hash32 hash32;
  sg_vault : gmap hash32 Z;
  sg_token_accounts : gmap hash32 Z;
}.

(** [None] where [new] panics. *)
Definition new (chain_id : Z) (bridge_domain : hash32) (validators : list evm_address) (threshold : Z)
    : option SolanaGate :=
  if (0 <? threshold) && (threshold <=? len validators)
  then Some (MkSolanaGate chain_id bridge_domain (list_to_set validators) threshold ∅ ∅ ∅ ∅ ∅)
  else None.

Definition balance (m : gmap hash32 Z) (k : hash32) : Z := default 0 (m !! k).
Definition nonce_to (g : SolanaGate) (chain_id_to : Z) : Z := default 0 (sg_nonce_to g !! chain_id_to).
Definition vault_balance (g : SolanaGate) (debridge_id : hash32) : Z := balance (sg_vault g) debridge_id.
Definition is_validator (g : SolanaGate) (a : evm_address) : bool := bool_decide (a ∈ sg_validators g).
(** [*entry.or_insert(0) += n], which wraps outside debug builds. *)
Definition credit (m : gmap hash32 Z) (k : hash32) (n : Z) : gmap hash32 Z := <[k := as_u 64 (balance m k + n)]> m.

Definition with_vault (g : SolanaGate) (nonces : gmap Z Z) (v : gmap hash32 Z) : SolanaGate :=
  MkSolanaGate (sg_chain_id g) (sg_bridge_domain g) (sg_validators g) (sg_threshold g) nonces (sg_executed g)
    (sg_token_of g) v (sg_token_accounts g).
Definition register_asset (g : SolanaGate) (debridge_id local_mint : hash32) (prefund : Z) : SolanaGate :=
  MkSolanaGate (sg_chain_id g) (sg_bridge_domain g) (sg_validators g) (sg_threshold g) (sg_nonce_to g) (sg_executed g)
    (<[debridge_id := local_mint]> (sg_token_of g)) (credit (sg_vault g) debridge_id prefund) (sg_token_accounts g).

Definition id_for (g : SolanaGate) (debridge_id : hash32) (amount bridge_decimals chain_id_from chain_id_to nonce : Z)
    (receiver : list byte) (auto : option HostHash.AutoParams) : hash32 :=
  id_of_fields (sg_bridge_domain g) debridge_id bridge_decimals amount chain_id_from chain_id_to nonce receiver auto.

Definition send (g : SolanaGate) (debridge_id : hash32) (amount bridge_decimals chain_id_to : Z)
    (receiver native_sender : list byte) (auto : option HostHash.AutoParams) : result GateError Sent * SolanaGate :=
  if amount =? 0 then (Err ZeroAmount, g)
  else if negb (len receiver =? 20) && negb (len receiver =? 32) then (Err (BadReceiver (len receiver)), g)
  else
    let nonce := nonce_to g chain_id_to in
    let submission_id := id_for g debridge_id amount bridge_decimals (sg_chain_id g) chain_id_to nonce receiver auto in
    (Ok (MkSent submission_id debridge_id amount bridge_decimals (sg_chain_id g) chain_id_to receiver nonce
           native_sender auto),
     with_vault g (<[chain_id_to := as_u 64 (nonce + 1)]> (sg_nonce_to g)) (credit (sg_vault g) debridge_id amount)).

Record Claimed := MkClaimed { cl_submission_id : hash32; cl_debridge_id : hash32; cl_receiver : hash32; cl_amount : Z }.

Definition to_pubkey (receiver : list byte) : result GateError hash32 :=
  ok_or (arr_of_list 32 receiver) (BadReceiver (len receiver)).

Definition mark_executed (g : SolanaGate) (id : hash32) : SolanaGate :=
  MkSolanaGate (sg_chain_id g) (sg_bridge_domain g) (sg_validators g) (sg_threshold g) (sg_nonce_to g)
    ({[id]} ∪ sg_executed g) (sg_token_of g) (sg_vault g) (sg_token_accounts g).
Definition pay (g : SolanaGate) (debridge_id to : hash32) (amount : Z) : SolanaGate :=
  MkSolanaGate (sg_chain_id g) (sg_bridge_domain g) (sg_validators g) (sg_threshold g) (sg_nonce_to g)
    (sg_executed g) (sg_token_of g) (<[debridge_id := balance (sg_vault g) debridge_id - amount]> (sg_vault g))
    (credit (sg_token_accounts g) to amount).

Definition claim (g : SolanaGate) (debridge_id : hash32) (amount bridge_decimals chain_id_from nonce : Z)
    (receiver : list byte) (auto : option HostHash.AutoParams) (signatures : list (list byte))
    : result GateError Claimed * SolanaGate :=
  let submission_id := id_for g debridge_id amount bridge_decimals chain_id_from (sg_chain_id g) nonce receiver auto in
  if bool_decide (submission_id ∈ sg_executed g) then (Err AlreadyExecuted, g)
  else match host_verify_threshold submission_id signatures (is_validator g) (sg_threshold g) with
  | Err e => (Err (Verify e), g)
  | Ok _ =>
      let g := mark_executed g submission_id in
      if bool_decide (sg_token_of g !! debridge_id = None) then (Err UnknownAsset, g)
      else
        let have := vault_balance g debridge_id in
        if have <? amount then (Err (InsufficientLiquidity have amount), g)
        else match to_pubkey receiver with
        | Err e => (Err e, g)
        | Ok to => (Ok (MkClaimed submission_id debridge_id to amount), pay g debridge_id to amount)
        end
  end.

(** ** An id is spent by the first claim that has a quorum *)

Inductive host_step (g : SolanaGate) : SolanaGate -> Prop :=
  | HostRegister d m n : host_step g (register_asset g d m n)
  | HostSend d a b c r s o : host_step g (snd (send g d a b c r s o))
  | HostClaim d a b c n r o l : host_step g (snd (claim g d a b c n r o l)).

Lemma claim_executed g d a b c n r o l : sg_executed g ⊆ sg_executed (snd (claim g d a b c n r o l)).
Proof.
  unfold claim. repeat (case_match; simpl; try done); set_solver.
Qed.
Lemma host_step_executed g g' : host_step g g' -> sg_executed g ⊆ sg_executed g'.
Proof.
  intros [d m n|d a b c r s o|d a b c n r o l]; [done| |apply claim_executed].
  unfold send. by repeat case_match.
Qed.
Lemma host_steps_executed g g' : rtc host_step g g' -> sg_executed g ⊆ sg_executed g'.
Proof. induction 1 as [|g g1 g2 Hs _ IH]; [done|]. apply host_step_executed in Hs. set_solver. Qed.

(** An answer that is not about replay or signatures. *)
Definition had_quorum (r : result GateError Claimed) : Prop :=
  match r with Err AlreadyExecuted | Err (Verify _) => False | _ => True end.

(** The in-memory gate pays an id at most once, and never after a failure. Whenever a
    claim gets past the quorum check, be it paid or refused for an unknown asset,
    missing liquidity or a bad receiver, its id is spent: every later claim of that
    id, after any other calls, is refused as a replay. The program differs where the
    claim fails: a failed transaction leaves the id free, to be claimed once the vault
    is funded. *)
Theorem host_claim_spends g d a b c n r o l :
  let '(res, g') := claim g d a b c n r o l in had_quorum res ->
  forall g2 d2 a2 b2 c2 n2 r2 o2 l2, rtc host_step g' g2 ->
    id_for g2 d2 a2 b2 c2 (sg_chain_id g2) n2 r2 o2 = id_for g d a b c (sg_chain_id g) n r o ->
    claim g2 d2 a2 b2 c2 n2 r2 o2 l2 = (Err AlreadyExecuted, g2).
Proof.
  destruct (claim g d a b c n r o l) as [res g'] eqn:E. intros Hq g2 d2 a2 b2 c2 n2 r2 o2 l2 Hs Hid.
  assert (id_for g d a b c (sg_chain_id g) n r o ∈ sg_executed g') as Hin.
  { unfold claim in E. case_bool_decide as Hex; [by injection E as <- <-|].
    destruct (host_verify_threshold _ _ _ _) as [u|e]; [|by injection E as <- <-].
    repeat (case_match; simplify_eq/=); set_solver. }
  unfold claim. rewrite bool_decide_eq_true_2; [done|]. rewrite Hid. by apply (host_steps_executed _ _ Hs).
Qed.
End HostGate.
