(* ===== verification/GateAdmin.v ===== *)
(** The owner's and the guardian's instructions of the Solana gate
    (crates/solana-gate/src/lib.rs): initialization, corridors, the pause breaker,
    the guardian, the validator set, the threshold, the asset registry and the
    seal. *)

From S2P Require Import Prelude.
From S2P Require Import SolanaRuntime.
From S2P Require Import GateTypes.
From S2P Require Import GateHash.
From S2P Require Import GateState.
From S2P Require Import GateVerify.
From S2P Require Import GateGov.
From S2P Require Import GateTransfers.

Section GateAdmin.
Context {RT : Runtime} {GB : GateBorsh}.

Definition init_msg (cfg : Config) : string :=
  "gate initialized: " +:+ pretty (len (cfg_validators cfg)) +:+ " validators (cap "
    +:+ pretty (cfg_max_validators cfg) +:+ "), threshold " +:+ pretty (cfg_threshold cfg)
    +:+ ", corridor cap " +:+ pretty (cfg_max_corridors cfg).
Definition setup_msg (cfg : Config) : string :=
  "setup phase open until " +:+ pretty (cfg_setup_deadline cfg)
    +:+ " — register assets, then Seal (claim is refused until then)".

Definition process_init (program_id : pubkey) (accounts : list account_info) (args : InitArgs) : prog unit :=
  '(config_ai, it) ← next_account_info accounts;
  '(payer, it) ← next_account_info it;
  '(system_program, it) ← next_account_info it;
  '(program_ai, it) ← next_account_info it;
  '(program_data_ai, it) ← next_account_info it;
  let '(expected, bump) := find_program_address config_seeds program_id in
  _ ← ensure (bool_decide (ai_key config_ai = expected)) InvalidSeeds;
  data ← ai_data config_ai;
  _ ← ensure (bool_decide (data = [])) AccountAlreadyInitialized;
  _ ← lift (validate_validator_set (ia_validators args) (ia_threshold args));
  _ ← lift (validate_init_chain_id (ia_chain_id args));
  _ ← ensure (negb ((ia_max_validators args <? as_u 32 (len (ia_validators args)))
                    || (ia_max_corridors args =? 0))) InvalidArgument;
  _ ← ensure (is_signer payer) MissingRequiredSignature;
  _ ← require_upgrade_authority program_id program_ai program_data_ai (ai_key payer);
  let space := config_space (ia_max_validators args) (ia_max_corridors args) + CONFIG_SLACK in
  _ ← create_pda_account program_id payer config_ai system_program config_seeds bump space;
  _ ← ensure (negb (bool_decide (ia_bridge_domain args = arr_zero 32))) (gate_err ZeroBridgeDomain);
  now ← clock_now;
  let cfg := MkConfig (ai_key payer) (ia_bridge_domain args) (ia_guardian args) (ia_validators args)
    (ia_threshold args) (ia_chain_id args) false (ia_max_validators args) (ia_max_corridors args) []
    false (i_saturating_add 64 now SETUP_WINDOW) in
  _ ← store cfg config_ai;
  _ ← msg (init_msg cfg);
  msg (setup_msg cfg).

Definition process_register_corridor (program_id : pubkey) (accounts : list account_info)
    (chain_id_to : Z) : prog unit :=
  '(config_ai, it) ← next_account_info accounts;
  '(owner, it) ← next_account_info it;
  cfg ← load_config program_id config_ai;
  _ ← ensure (bool_decide (ai_key owner = cfg_owner cfg) && is_signer owner) MissingRequiredSignature;
  _ ← ensure (negb (chain_id_to =? cfg_chain_id cfg)) InvalidArgument;
  if corridor_registered cfg chain_id_to then mret tt
  else
    _ ← ensure (negb (cfg_max_corridors cfg <=? as_u 32 (len (cfg_nonce_to cfg)))) (gate_err AtCapacity);
    _ ← store (with_nonce_to cfg (cfg_nonce_to cfg ++ [(chain_id_to, 0)])) config_ai;
    msg ("corridor registered: " +:+ pretty chain_id_to).

Definition authorized_to_set_paused (is_owner is_guardian paused : bool) : bool :=
  if paused then is_owner || is_guardian else is_owner.

Definition process_set_paused (program_id : pubkey) (accounts : list account_info) (paused : bool)
    : prog unit :=
  '(config_ai, it) ← next_account_info accounts;
  '(who, it) ← next_account_info it;
  cfg ← load_config program_id config_ai;
  _ ← ensure (is_signer who) MissingRequiredSignature;
  let is_owner := bool_decide (ai_key who = cfg_owner cfg) in
  let is_guardian := negb (bool_decide (cfg_guardian cfg = pubkey_default))
                     && bool_decide (ai_key who = cfg_guardian cfg) in
  _ ← ensure (authorized_to_set_paused is_owner is_guardian paused) MissingRequiredSignature;
  if Bool.eqb (cfg_paused cfg) paused then mret tt
  else
    _ ← store (with_paused cfg paused) config_ai;
    msg ("gate " +:+ (if paused then "PAUSED" else "resumed")).

Definition process_set_guardian (program_id : pubkey) (accounts : list account_info) (guardian : pubkey)
    : prog unit :=
  '(config_ai, it) ← next_account_info accounts;
  '(owner, it) ← next_account_info it;
  cfg ← load_config program_id config_ai;
  _ ← ensure (bool_decide (ai_key owner = cfg_owner cfg) && is_signer owner) MissingRequiredSignature;
  if bool_decide (guardian = cfg_guardian cfg) then mret tt
  else
    now ← clock_now;
    _ ← (if guardian_change_needs_schedule (cfg_sealed cfg) (cfg_setup_deadline cfg) now (cfg_guardian cfg)
         then
           '(gov_ai, it) ← next_account_info_or it (gate_err GovernanceNotScheduled);
           consume_governance program_id gov_ai (set_guardian_action_id guardian)
         else mret tt);
    store (with_guardian cfg guardian) config_ai.

(** [validators.retain(|v| v != &validator)] *)
Definition retain_other (validator : evm_address) (l : list evm_address) : list evm_address :=
  List.filter (fun v => negb (bool_decide (v = validator))) l.

Definition process_set_validator (program_id : pubkey) (accounts : list account_info)
    (validator : evm_address) (active : bool) : prog unit :=
  '(config_ai, it) ← next_account_info accounts;
  '(owner, it) ← next_account_info it;
  cfg ← load_config program_id config_ai;
  _ ← ensure (bool_decide (ai_key owner = cfg_owner cfg) && is_signer owner) MissingRequiredSignature;
  _ ← ensure (negb (bool_decide (validator = arr_zero 20))) (gate_err ZeroValidator);
  let present := is_validator cfg validator in
  if active && negb present then
    _ ← ensure (negb (cfg_max_validators cfg <=? as_u 32 (len (cfg_validators cfg)))) (gate_err AtCapacity);
    '(gov_ai, it) ← next_account_info_or it (gate_err GovernanceNotScheduled);
    _ ← consume_governance program_id gov_ai (add_validator_action_id validator);
    store (with_validators cfg (cfg_validators cfg ++ [validator])) config_ai
  else if negb active && present then
    let rest := retain_other validator (cfg_validators cfg) in
    _ ← ensure (negb (as_u 32 (len rest) <? cfg_threshold cfg)) InvalidArgument;
    store (with_validators cfg rest) config_ai
  else mret tt.

Definition process_set_threshold (program_id : pubkey) (accounts : list account_info) (threshold : Z)
    : prog unit :=
  '(config_ai, it) ← next_account_info accounts;
  '(owner, it) ← next_account_info it;
  cfg ← load_config program_id config_ai;
  _ ← ensure (bool_decide (ai_key owner = cfg_owner cfg) && is_signer owner) MissingRequiredSignature;
  _ ← ensure (negb ((threshold =? 0) || (as_u 32 (len (cfg_validators cfg)) <? threshold))) InvalidArgument;
  _ ← lift (check_threshold_cap threshold);
  _ ← (if threshold <? cfg_threshold cfg then
         '(gov_ai, it) ← next_account_info_or it (gate_err GovernanceNotScheduled);
         consume_governance program_id gov_ai (lower_threshold_action_id threshold)
       else mret tt);
  store (with_threshold cfg threshold) config_ai.

(** What a registration does with the record it finds: a fresh write, an
    identical re-run, or a legacy record upgraded in place. *)
Inductive asset_case := FreshWrite | Rerun | LegacyUpgrade.
Definition is_fresh (c : asset_case) : bool := match c with FreshWrite => true | _ => false end.
Definition is_rerun (c : asset_case) : bool := match c with Rerun => true | _ => false end.
Definition is_legacy_upgrade (c : asset_case) : bool := match c with LegacyUpgrade => true | _ => false end.

Definition classify_asset (program_id : pubkey) (asset_ai : account_info) (record : AssetConfig)
    : prog asset_case :=
  data ← ai_data asset_ai;
  if bool_decide (data = []) then mret FreshWrite
  else
    owner ← ai_owner asset_ai;
    _ ← ensure (bool_decide (owner = program_id)) IllegalOwner;
    existing ← lift (decode_asset_config data);
    if legacy_asset_upgrade_allowed (len data) existing record then mret LegacyUpgrade
    else
      w ← lift (asset_write_allowed existing record);
      mret (if (w : bool) then FreshWrite else Rerun).

Definition process_register_asset (program_id : pubkey) (accounts : list account_info)
    (debridge_id : hash32) (bridge_decimals : Z) : prog unit :=
  '(config_ai, it) ← next_account_info accounts;
  '(owner, it) ← next_account_info it;
  '(asset_ai, it) ← next_account_info it;
  '(mint, it) ← next_account_info it;
  '(vault, it) ← next_account_info it;
  '(token_program, it) ← next_account_info it;
  '(system_program, it) ← next_account_info it;
  '(vault_binding_ai, it) ← next_account_info it;
  cfg ← load_config program_id config_ai;
  _ ← ensure (bool_decide (ai_key owner = cfg_owner cfg) && is_signer owner) MissingRequiredSignature;
  local_decimals ← check_asset_accounts program_id mint vault token_program bridge_decimals;
  let '(expected_asset, bump) := find_program_address (asset_seeds debridge_id) program_id in
  _ ← ensure (bool_decide (ai_key asset_ai = expected_asset)) InvalidSeeds;
  let record := MkAssetConfig debridge_id (ai_key mint) (ai_key vault) bridge_decimals local_decimals in
  let space := ASSET_CONFIG_LEN + ASSET_CONFIG_SLACK in
  found ← classify_asset program_id asset_ai record;
  _ ← (if is_fresh found then
         now ← clock_now;
         if in_setup_phase (cfg_sealed cfg) (cfg_setup_deadline cfg) now then mret tt
         else
           '(gov_ai, it) ← next_account_info_or it (gate_err GovernanceNotScheduled);
           consume_governance program_id gov_ai
             (register_asset_action_id debridge_id (ai_key mint) (ai_key vault) bridge_decimals)
       else mret tt);
  _ ← bind_vault program_id owner vault_binding_ai system_program (ai_key vault)
        (MkVaultBinding (ai_key mint) bridge_decimals);
  if is_rerun found then
    msg "asset already registered with these exact values; no-op"
  else
    data ← ai_data asset_ai;
    _ ← (if bool_decide (data = []) then
           create_pda_account program_id owner asset_ai system_program (asset_seeds debridge_id) bump space
         else if len data <? space then grow_program_account owner asset_ai system_program space
         else mret tt);
    _ ← write_zero_padded record asset_ai;
    if is_legacy_upgrade found then
      msg "legacy asset record upgraded at identity scale; vault binding backfilled"
    else msg "asset registered for debridge_id".

Definition process_seal (program_id : pubkey) (accounts : list account_info) : prog unit :=
  '(config_ai, it) ← next_account_info accounts;
  '(owner, it) ← next_account_info it;
  cfg ← load_config program_id config_ai;
  _ ← ensure (bool_decide (ai_key owner = cfg_owner cfg) && is_signer owner) MissingRequiredSignature;
  _ ← ensure (negb (cfg_sealed cfg)) (gate_err AlreadySealed);
  _ ← store (with_sealed cfg true) config_ai;
  msg "gate sealed: a new asset binding now waits out GOVERNANCE_DELAY".
End GateAdmin.

(** * Lemmas *)

(** The abstract governance machine: what one instruction may do to the stored
    configuration, and on whose authority. *)
Section Governance.
Context {RT : Runtime} {RL : RuntimeLaws} {GB : GateBorsh} {GL : GateBorshLaws}.
Variable pid : pubkey.

Definition signed (accounts : list account_info) (k : pubkey) : Prop :=
  exists ai, ai ∈ accounts /\ ai_key ai = k /\ is_signer ai = true.

(** Indexed by the corridor a send advanced, if it is a send. *)
Inductive gov_step (accounts : list account_info) (s : ledger) (c : Config) : option Z -> Config -> Prop :=
  | StepSend chain c' :
      cfg_paused c = false -> cfg_sealed c = true -> bump_nonce c chain = Ok c' ->
      gov_step accounts s c (Some chain) c'
  | StepCorridor chain :
      signed accounts (cfg_owner c) -> chain <> cfg_chain_id c -> is_u 64 chain ->
      corridor_registered c chain = false -> len (cfg_nonce_to c) < cfg_max_corridors c ->
      gov_step accounts s c None (with_nonce_to c (cfg_nonce_to c ++ [(chain, 0)]))
  | StepPause :
      signed accounts (cfg_owner c) \/
        (cfg_guardian c <> pubkey_default /\ signed accounts (cfg_guardian c)) ->
      gov_step accounts s c None (with_paused c true)
  | StepUnpause :
      signed accounts (cfg_owner c) -> gov_step accounts s c None (with_paused c false)
  | StepGuardian g :
      signed accounts (cfg_owner c) ->
      cfg_guardian c = pubkey_default \/
        in_setup_phase (cfg_sealed c) (cfg_setup_deadline c) (clock s) = true \/
        matured pid s (set_guardian_action_id g) ->
      gov_step accounts s c None (with_guardian c g)
  | StepAddValidator v :
      signed accounts (cfg_owner c) -> v <> arr_zero 20 -> v ∉ cfg_validators c ->
      len (cfg_validators c) < cfg_max_validators c -> matured pid s (add_validator_action_id v) ->
      gov_step accounts s c None (with_validators c (cfg_validators c ++ [v]))
  | StepRemoveValidator v :
      signed accounts (cfg_owner c) -> v ∈ cfg_validators c ->
      cfg_threshold c <= len (retain_other v (cfg_validators c)) ->
      gov_step accounts s c None (with_validators c (retain_other v (cfg_validators c)))
  | StepThreshold t :
      signed accounts (cfg_owner c) -> 0 < t <= len (cfg_validators c) -> t <= MAX_THRESHOLD ->
      cfg_threshold c <= t \/ matured pid s (lower_threshold_action_id t) ->
      gov_step accounts s c None (with_threshold c t)
  | StepSeal :
      signed accounts (cfg_owner c) -> cfg_sealed c = false ->
      gov_step accounts s c None (with_sealed c true).

(** What governance keeps true of a configuration. *)
Record config_inv (c : Config) : Prop := {
  inv_threshold : 0 < cfg_threshold c;
  inv_enough : cfg_threshold c <= len (cfg_validators c);
  inv_cap : cfg_threshold c <= MAX_THRESHOLD;
  inv_distinct : NoDup (cfg_validators c);
  inv_nonzero : arr_zero 20 ∉ cfg_validators c;
  inv_validators : len (cfg_validators c) <= cfg_max_validators c;
  inv_corridors_distinct : NoDup (cfg_nonce_to c).*1;
  inv_no_self : cfg_chain_id c ∉ (cfg_nonce_to c).*1;
  inv_corridors : len (cfg_nonce_to c) <= cfg_max_corridors c;
  inv_chain : cfg_chain_id c <> 0;
  inv_domain : cfg_bridge_domain c <> arr_zero 32;
}.

Lemma signed_intro accounts ai k : ai ∈ accounts -> ai_key ai = k -> is_signer ai = true -> signed accounts k.
Proof. intros. by exists ai. Qed.
Lemma len_filter {A} f (l : list A) : len (List.filter f l) <= len l.
Proof. unfold len. pose proof (List.filter_length_le f l). lia. Qed.
Lemma retain_other_in v l x : x ∈ retain_other v l <-> x ∈ l /\ x <> v.
Proof.
  unfold retain_other. rewrite !list_elem_of_In, filter_In. split; intros [H1 H2]; bool_inv; split; try done.
  by rewrite bool_decide_eq_false_2.
Qed.
Lemma retain_other_NoDup v l : NoDup l -> NoDup (retain_other v l).
Proof. intros H. apply NoDup_ListNoDup, List.NoDup_filter, NoDup_ListNoDup, H. Qed.

Lemma gov_step_inv accounts s c o c' : gov_step accounts s c o c' -> config_inv c -> config_inv c'.
Proof.
  intros Hs [I1 I2 I3 I4 I5 I6 I7 I8 I9 I10 I11].
  destruct Hs as [chain c' _ _ Hb|chain _ Hch _ Hreg Hlt| | | |v _ Hz Hnew Hlt _|v _ Hin Hth| |];
    try (constructor; simpl; (done || lia)).
  - pose proof (bump_nonce_spec c chain) as Hs. rewrite Hb in Hs.
    destruct Hs as (_ & _ & _ & Hk & Ec & _). rewrite Ec. constructor; simpl; try done; rewrite ?Hk; try done.
    apply (f_equal length) in Hk. rewrite !length_fmap in Hk. unfold len in *. lia.
  - constructor; simpl; try done.
    + rewrite fmap_app, NoDup_app. split_and!; [done| |apply NoDup_singleton].
      intros x Hx ->%list_elem_of_singleton. apply not_true_iff_false in Hreg. by apply Hreg, corridor_registered_iff.
    + rewrite fmap_app. set_solver.
    + rewrite len_app. change (len [(chain, 0)]) with 1. lia.
  - constructor; simpl; try done; rewrite ?len_app; change (len [v]) with 1; try lia.
    + rewrite NoDup_app. split_and!; [done|set_solver|apply NoDup_singleton].
    + set_solver.
  - pose proof (len_filter (fun x => negb (bool_decide (x = v))) (cfg_validators c)) as Hl.
    fold (retain_other v (cfg_validators c)) in Hl.
    constructor; simpl; try done; try lia; [by apply retain_other_NoDup|].
    intros [Hbad _]%retain_other_in. done.
Qed.

(** What governance can never change. *)
Definition nonces_grow (c c' : Config) : Prop :=
  forall chain, corridor_registered c chain = true ->
    corridor_registered c' chain = true /\ nonce c chain <= nonce c' chain.
Record config_le (c c' : Config) : Prop := {
  le_owner : cfg_owner c' = cfg_owner c;
  le_domain : cfg_bridge_domain c' = cfg_bridge_domain c;
  le_chain : cfg_chain_id c' = cfg_chain_id c;
  le_max_validators : cfg_max_validators c' = cfg_max_validators c;
  le_max_corridors : cfg_max_corridors c' = cfg_max_corridors c;
  le_deadline : cfg_setup_deadline c' = cfg_setup_deadline c;
  le_sealed : cfg_sealed c = true -> cfg_sealed c' = true;
  le_nonces : nonces_grow c c';
}.
#[export] Instance config_le_preorder : PreOrder config_le.
Proof.
  split.
  - intros c. by constructor.
  - intros c1 c2 c3 [] []. constructor; try congruence; [auto|]. intros x Hx.
    destruct (le_nonces0 x Hx) as [H1 ?], (le_nonces1 x H1) as [H2 ?]. split; [done|lia].
Qed.

Lemma nonce_app_new l chain x :
  nonce (with_nonce_to l (cfg_nonce_to l ++ [(chain, 0)])) x = nonce l x.
Proof.
  unfold nonce. simpl. induction (cfg_nonce_to l) as [|[a n] r IH]; simpl; [by destruct (chain =? x)|].
  by destruct (a =? x).
Qed.
(** Only a send moves a nonce: its own corridor's, by one. *)
Lemma gov_step_nonce accounts s c o c' x : gov_step accounts s c o c' ->
  nonce c' x = nonce c x + if bool_decide (o = Some x) then 1 else 0.
Proof.
  intros [chain c1 _ _ Hb|chain _ Hch _ Hreg Hlt| | | | | | |];
    [|rewrite nonce_app_new|unfold nonce..]; simpl; try lia.
  pose proof (bump_nonce_spec c chain) as Hs. rewrite Hb in Hs. destruct Hs as (_ & Hn & Hoth & _).
  case_bool_decide; simplify_eq; [lia|]. rewrite Hoth by congruence. lia.
Qed.

Lemma gov_step_le accounts s c o c' : gov_step accounts s c o c' -> config_le c c'.
Proof.
  intros [chain c1 _ _ Hb|chain _ Hch _ Hreg Hlt| | | | | | |];
    try (constructor; simpl; (done || (intros x Hx; split; [done|unfold nonce; simpl; lia]))).
  - pose proof (bump_nonce_spec c chain) as Hs. rewrite Hb in Hs.
    destruct Hs as (_ & Hn & Hoth & Hk & Ec & _). rewrite Ec.
    constructor; simpl; try done. rewrite <- Ec. intros x Hx. split.
    + apply corridor_registered_iff. rewrite Hk. by apply corridor_registered_iff.
    + destruct (decide (x = chain)) as [->|Hne]; [lia|]. rewrite Hoth by done. lia.
  - constructor; simpl; try done. intros x Hx. split.
    + apply corridor_registered_iff. simpl. rewrite fmap_app.
      apply corridor_registered_iff in Hx. set_solver.
    + rewrite nonce_app_new. lia.
Qed.
End Governance.

(** * Initialization *)

Section Initialization.
Context {RT : Runtime} {RL : RuntimeLaws} {GB : GateBorsh} {GL : GateBorshLaws}.
Variable pid : pubkey.

(** The program's upgrade authority, as its ProgramData account records it. *)
Definition upgrade_authority (m : gmap pubkey account) (who : pubkey) : Prop :=
  bincode_loader_state (acc_data (acct m (fst (find_program_address [arr_bytes pid] bpf_loader_upgradeable_id))))
    = Some (ProgramData (Some who)).

Lemma require_upgrade_authority_Ok p pd who s u s' :
  require_upgrade_authority pid p pd who s = Ok (u, s') -> s' = s /\ upgrade_authority (accts s) who.
Proof.
  unfold require_upgrade_authority, upgrade_authority, bincode_deserialize_loader_state. intros Hr.
  prog_inv Hr. bool_inv. pda_facts. destruct v2 as [auth|]; [|by apply fail_Ok in Hr].
  apply lift_Ok in Hr as [Hr ->]. unfold verify_upgrade_authority in Hr.
  destruct auth as [auth|]; [|done]. case_bool_decide; [|done]. subst. prog_inv_all. done.
Qed.

Lemma i_saturating_add_range w a b : 1 <= w -> is_i w (i_saturating_add w a b).
Proof.
  intros Hw. unfold is_i, i_saturating_add, i_clamp, i_min, i_max.
  pose proof (Z.pow_pos_nonneg 2 (w - 1)). lia.
Qed.

(** The configuration [process_init] writes. *)
Definition initial_config (args : InitArgs) (payer : pubkey) (now : Z) : Config :=
  MkConfig payer (ia_bridge_domain args) (ia_guardian args) (ia_validators args) (ia_threshold args)
    (ia_chain_id args) false (ia_max_validators args) (ia_max_corridors args) [] false
    (i_saturating_add 64 now SETUP_WINDOW).

Lemma initial_config_wf args payer now : InitArgs_wf args -> Config_wf (initial_config args payer now).
Proof.
  intros (? & ? & ? & ? & ?). unfold Config_wf. simpl. split_and!; try done.
  apply (i_saturating_add_range 64). lia.
Qed.

(** Initialization happens once, by the deployer. A successful [Init] found the
    configuration account empty and was signed by the program's upgrade authority,
    who becomes the owner. The gate starts unsealed, unpaused, without corridors,
    with the setup window open from the cluster clock, and in the governance
    invariant. Its account has room for every configuration within the declared
    capacities, then and after any later evolution, so storing one never fails
    for space. *)
Theorem init_creates_gate accounts args s s' :
  InitArgs_wf args -> process_init pid accounts args s = Ok (tt, s') ->
  exists payer, signed accounts payer /\ upgrade_authority (accts s) payer /\
    acc_data (acct (accts s) (config_account pid)) = [] /\
    config_at pid (accts s') (initial_config args payer (clock s)) /\
    config_inv (initial_config args payer (clock s)) /\
    forall K m c, evolves pid K (accts s') m -> config_inv c ->
      cfg_max_validators c = ia_max_validators args -> cfg_max_corridors c = ia_max_corridors args ->
      config_space (len (cfg_validators c)) (len (cfg_nonce_to c)) <= len (acc_data (acct m (config_account pid))).
Proof.
  intros Hwf Hi. unfold process_init in Hi. prog_inv Hi. bool_inv. pda_facts.
  fold (config_account pid) in *. cbn [ai_key accts] in *.
  match goal with H : require_upgrade_authority _ _ _ _ _ = Ok _ |- _ =>
    apply require_upgrade_authority_Ok in H as [-> Hup] end.
  match goal with H : validate_validator_set _ _ = Ok _ |- _ =>
    apply validate_validator_set_Ok in H as (Ht1 & Ht2 & Ht3 & Hnd & Hz); [|apply Hwf] end.
  assert (0 <= config_space (ia_max_validators args) (ia_max_corridors args)) as Hsp.
  { destruct Hwf as (_ & _ & _ & ? & ?). unfold config_space, is_u in *. lia. }
  match goal with H : create_pda_account _ _ _ _ _ _ _ _ = Ok _ |- _ =>
    apply create_pda_account_Ok in H as (_ & _ & Ho & Hd & Hclk & _); [|unfold CONFIG_SLACK; lia] end.
  cbn [ai_key] in *.
  match goal with H : store ?c _ _ = Ok _ |- _ =>
    change c with (initial_config args (ai_key a0) (clock s1)) in H; rewrite Hclk in H;
    pose proof H as Hst; apply store_Ok in Hst as [Hfit Hst]; [|by apply initial_config_wf];
    apply (store_config pid) in H as (Hc & _ & Hne & _); [|by apply initial_config_wf|done..] end.
  cbn [ai_key] in *. exists (ai_key a0). split_and!; try done.
  - eapply signed_intro; eauto. set_solver.
  - destruct Hwf as (Hu & Hth & _ & _ & Hm). rewrite as_u_small in * by done.
    unfold validate_init_chain_id in *. prog_inv_all. bool_inv. unfold is_u in *.
    constructor; simpl; try done; try (unfold len; simpl; lia); [apply NoDup_nil_2|set_solver].
  - intros K m c Hev Hinv Hmv Hmc. pose proof (ev_grows _ _ _ _ Hev (config_account pid)) as Hg.
    specialize (Hg (conj (proj1 Hc) Hne)). rewrite Hst in Hg at 1. cbn [accts] in Hg.
    rewrite acct_set_data in Hg. cbn [acc_data] in Hg.
    rewrite length_app, length_zeros in Hg. apply (f_equal length) in Hd. rewrite length_zeros in Hd.
    pose proof (inv_validators _ Hinv). pose proof (inv_corridors _ Hinv).
    unfold config_space, CONFIG_SLACK, len in *. lia.
Qed.
End Initialization.
