(* ===== verification/GateAssets.v ===== *)
(** The asset registry of the Solana gate (crates/solana-gate/src/lib.rs): what a
    registration leaves behind, and what an existing binding forbids. *)

From S2P Require Import Prelude.
From S2P Require Import SolanaRuntime.
From S2P Require Import GateTypes.
From S2P Require Import GateHash.
From S2P Require Import GateState.
From S2P Require Import GateVerify.
From S2P Require Import GateGov.
From S2P Require Import GateTransfers.
From S2P Require Import GateAdmin.

Section GateAssets.
Context {RT : Runtime} {RL : RuntimeLaws} {GB : GateBorsh} {GL : GateBorshLaws}.
Variable pid : pubkey.

Definition binding_at (m : gmap pubkey account) (vault : pubkey) (b : VaultBinding) : Prop :=
  let a := acct m (vault_binding_account pid vault) in
  acc_owner a = pid /\ VAULT_BINDING_LEN <= len (acc_data a) /\ borsh_de (acc_data a) = Some b.

Lemma others_same_trans k m1 m2 m3 : others_same k m1 m2 -> others_same k m2 m3 -> others_same k m1 m3.
Proof. intros H1 H2 k' Hk. destruct (H1 k' Hk) as [<- <-]. by apply H2. Qed.
Lemma others_same_set_data m k d : others_same k m (set_acct_data m k d).
Proof. intros k' Hk. by rewrite acct_set_data_ne. Qed.

Lemma vault_binding_wf m vault b : binding_at m vault b -> VaultBinding_wf b.
Proof. intros (_ & _ & Hd). by eapply borsh_de_wf. Qed.

Lemma vault_binding_allowed_Ok e w u : vault_binding_allowed e w = Ok u <-> forall b, e = Some b -> b = w.
Proof.
  unfold vault_binding_allowed. destruct e as [b|], u; [case_bool_decide|]; split; try done; try naive_solver.
Qed.

Lemma write_binding m vault want :
  VaultBinding_wf want -> acc_owner (acct m (vault_binding_account pid vault)) = pid ->
  VAULT_BINDING_LEN <= len (acc_data (acct m (vault_binding_account pid vault))) ->
  binding_at (set_acct_data m (vault_binding_account pid vault)
    (borsh_ser want ++ drop (length (borsh_ser want)) (acc_data (acct m (vault_binding_account pid vault)))))
    vault want.
Proof.
  intros Hwf Ho Hl. pose proof (borsh_size want Hwf) as Hsz. unfold binding_at. rewrite acct_set_data. simpl.
  split_and!; [done| |by apply borsh_roundtrip]. unfold len in *. rewrite length_app, length_drop. lia.
Qed.

(** Binding a vault: it records the wanted mint and scale, and a vault already
    bound to another mint or scale is refused. *)
Lemma bind_vault_Ok payer ai sys vault want s u s' : VaultBinding_wf want ->
  bind_vault pid payer ai sys vault want s = Ok (u, s') ->
  binding_at (accts s') vault want /\
  (forall b, binding_at (accts s) vault b -> vb_mint b <> pubkey_default -> b = want) /\
  others_same (vault_binding_account pid vault) (accts s) (accts s') /\ clock s' = clock s.
Proof.
  intros Hwf Hb. pose proof (borsh_size want Hwf) as Hsz. unfold bind_vault in Hb.
  prog_inv Hb. bool_inv. pda_facts. cbn [ai_key accts clock] in *.
  fold (vault_binding_account pid vault) in *. set (k := vault_binding_account pid vault) in *.
  rewrite vault_binding_allowed_Ok in *.
  destruct (bool_decide _ && (VAULT_BINDING_LEN <=? _)) eqn:Hw.
  - prog_inv_all. bool_inv. split_and!; [by apply write_binding| |apply others_same_set_data|done].
    intros x (_ & _ & Hx) Hne. fold k in Hx. simplify_eq.
    match goal with H : forall b, _ = Some b -> b = want |- _ => apply H end. by rewrite bool_decide_eq_false_2.
  - prog_inv_all.
    match goal with Hc : create_pda_account _ _ _ _ _ _ _ _ = Ok _ |- _ =>
      apply create_pda_account_Ok in Hc as (He & Hsys & Ho & Hd & Hclk & Hoth & _); [|done] end.
    cbn [ai_key] in *. split_and!; [|intros x (Hx1 & Hx2 & _)| |done].
    + apply write_binding; [done..|]. fold k. rewrite Hd. unfold len. by rewrite length_zeros.
    + rewrite bool_decide_eq_true_2, (proj2 (Z.leb_le _ _)) in Hw by done. done.
    + eapply others_same_trans; [exact Hoth|apply others_same_set_data].
Qed.

(** ** The accounts a registration names *)

Definition vault_authority (m : pubkey) : pubkey := fst (find_program_address vault_authority_seeds m).

(** A vault of [mint] that only the gate's authority can move. *)
Record vault_ok (m : gmap pubkey account) (mint vault : pubkey) : Prop := {
  vk_spl : acc_owner (acct m vault) = spl_token_id;
  vk_state : exists t, token_at m vault = Some t /\ ta_mint t = mint /\ ta_owner t = vault_authority pid /\
    ta_delegate t = None /\ ta_close_authority t = None;
}.

Lemma check_asset_accounts_Ok mint vault tp b s d s' :
  check_asset_accounts pid mint vault tp b s = Ok (d, s') ->
  s' = s /\ acc_owner (acct (accts s) (ai_key mint)) = spl_token_id /\
  spl_mint_unpack (acc_data (acct (accts s) (ai_key mint))) = Some d /\ is_u 8 d /\
  bridge_unit d b <> None /\ vault_ok (accts s) (ai_key mint) (ai_key vault).
Proof.
  unfold check_asset_accounts, vault_is_exclusively_controlled. intros Hc. prog_inv Hc. gate_facts.
  bool_inv. pda_facts. cbn [ai_key] in *. subst. unfold token_at in *. simplify_eq.
  match goal with H : spl_mint_unpack _ = Some _ |- _ => pose proof (spl_mint_decimals_u8 _ _ H) end.
  split_and!; try done; try congruence. constructor; [congruence|]. eexists. split_and!; done.
Qed.

(** How a registration finds the record. *)
Definition asset_unwritten (a : AssetConfig) : Prop :=
  as_mint a = pubkey_default /\ as_vault a = pubkey_default.
Definition legacy_identity (old new : AssetConfig) : Prop :=
  as_mint old <> pubkey_default /\ as_mint old = as_mint new /\ as_vault old = as_vault new /\
  as_debridge_id old = as_debridge_id new /\ as_bridge_decimals old = 0 /\ as_local_decimals old = 0 /\
  as_bridge_decimals new = as_local_decimals new.

Lemma classify_asset_Ok ai r s c s' :
  classify_asset pid ai r s = Ok (c, s') -> s' = s /\
  let data := acc_data (acct (accts s) (ai_key ai)) in
  (data = [] /\ c = FreshWrite) \/
  (live pid (accts s) (ai_key ai) /\ exists old, decode_asset_config data = Ok old /\
    match c with
    | FreshWrite => asset_unwritten old
    | Rerun => old = r
    | LegacyUpgrade => legacy_identity old r
    end).
Proof.
  unfold classify_asset, legacy_asset_upgrade_allowed, asset_write_allowed. intros Hc. prog_inv Hc; bool_inv.
  - auto.
  - split; [done|]. right. split; [done|]. eexists. split; [done|]. unfold legacy_identity. by split_and!.
  - split; [done|]. right. split; [done|]. eexists. split; [done|].
    match goal with H : (if ?b then Ok true else if ?b' then _ else _) = Ok _ |- _ =>
      destruct b eqn:Hu; [|destruct b' eqn:Hs]; simplify_eq; bool_inv; [done|] end.
    match goal with |- ?a = r => destruct a, r; simpl in *; by subst end.
Qed.

Lemma consume_others ai aid s u s' : consume_governance pid ai aid s = Ok (u, s') ->
  others_same (gov_account pid aid) (accts s) (accts s') /\ matured pid s aid /\ clock s' = clock s.
Proof. intros (-> & Hm & -> & Hc)%consume_governance_Ok. split_and!; [apply others_same_set_data|done..]. Qed.

(** A freshly written record, as the gate reads it back. *)
Lemma write_asset_at d ai r s u s' :
  AssetConfig_wf r -> as_debridge_id r = d -> ai_key ai = asset_account pid d ->
  acc_owner (acct (accts s) (ai_key ai)) = pid ->
  ASSET_CONFIG_LEN + ASSET_CONFIG_SLACK <= len (acc_data (acct (accts s) (ai_key ai))) ->
  write_zero_padded r ai s = Ok (u, s') ->
  asset_at pid (accts s') d r /\ others_same (asset_account pid d) (accts s) (accts s').
Proof.
  intros Hwf Hd Hk Ho Hl Hw. revert Hd Hk Ho Hl. unfold write_zero_padded in Hw. prog_inv Hw. bool_inv.
  intros Hd Hk Ho Hl. destruct ai as [k sg wr]. cbn [ai_key] in *. subst k.
  pose proof (borsh_size r Hwf) as Hsz. split; [|apply others_same_set_data].
  unfold asset_at, decode_asset_config. cbn [accts]. rewrite acct_set_data. simpl.
  match goal with |- context [len ?x] => assert (len x = len (acc_data (acct (accts s) (asset_account pid d)))) as El end.
  { unfold len in *. rewrite length_app, length_zeros. lia. }
  rewrite El. unfold ASSET_CONFIG_LEN, ASSET_CONFIG_SLACK, LEGACY_ASSET_CONFIG_LEN in *.
  destruct (Z.eqb_spec (len (acc_data (acct (accts s) (asset_account pid d)))) (32 * 3)); [lia|].
  destruct (Z.eqb_spec (len (acc_data (acct (accts s) (asset_account pid d)))) (32 * 3 + 1)); [lia|].
  simpl. rewrite borsh_roundtrip by done. done.
Qed.

(** ** What a registration does *)

(** The three kinds of account a registration touches do not share an address. *)
Record assets_isolated (d : hash32) : Prop := {
  iso_binding : forall k, vault_binding_account pid k <> asset_account pid d;
  iso_gov_asset : forall x, gov_account pid x <> asset_account pid d;
  iso_gov_binding : forall x k, gov_account pid x <> vault_binding_account pid k;
}.

(** What was recorded for [d] before: [None] if nothing usable. *)
Definition recorded (m : gmap pubkey account) (d : hash32) : option AssetConfig :=
  let a := acct m (asset_account pid d) in
  if bool_decide (acc_owner a = pid) && negb (bool_decide (acc_data a = [])) then
    match decode_asset_config (acc_data a) with
    | Ok r => if bool_decide (as_mint r = pubkey_default) && bool_decide (as_vault r = pubkey_default)
              then None else Some r
    | Err _ => None
    end
  else None.

Record register_effect (accounts : list account_info) (s s' : ledger) (c : Config) (a : AssetConfig)
    : Prop := {
  rg_config : config_at pid (accts s) c;
  rg_owner : signed accounts (cfg_owner c);
  rg_asset : asset_at pid (accts s') (as_debridge_id a) a;
  rg_unit : bridge_unit (as_local_decimals a) (as_bridge_decimals a) <> None;
  rg_vault : vault_ok (accts s) (as_mint a) (as_vault a);
  rg_binding : binding_at (accts s') (as_vault a) (MkVaultBinding (as_mint a) (as_bridge_decimals a));
  rg_shared : forall vb, binding_at (accts s) (as_vault a) vb -> vb_mint vb <> pubkey_default ->
    vb = MkVaultBinding (as_mint a) (as_bridge_decimals a);
  rg_once : forall old, recorded (accts s) (as_debridge_id a) = Some old -> old = a \/ legacy_identity old a;
  rg_governed : recorded (accts s) (as_debridge_id a) = None ->
    in_setup_phase (cfg_sealed c) (cfg_setup_deadline c) (clock s) = true \/
    matured pid s (register_asset_action_id (as_debridge_id a) (as_mint a) (as_vault a) (as_bridge_decimals a));
}.

(** The record the handler finds, against what was recorded. *)
Lemma classified_recorded ai r s c s' :
  ai_key ai = asset_account pid (as_debridge_id r) ->
  (bool_decide (as_mint r = pubkey_default) && bool_decide (as_vault r = pubkey_default)) = false ->
  classify_asset pid ai r s = Ok (c, s') -> s' = s /\
  match c with
  | FreshWrite => recorded (accts s) (as_debridge_id r) = None
  | Rerun => recorded (accts s) (as_debridge_id r) = Some r
  | LegacyUpgrade => exists old, recorded (accts s) (as_debridge_id r) = Some old /\ legacy_identity old r
  end.
Proof.
  intros Hk Hne [-> Hc]%classify_asset_Ok. split; [done|]. rewrite Hk in Hc. unfold recorded.
  destruct Hc as [[-> ->]|[[Ho Hd] (old & Hold & Hc)]]; [by rewrite andb_false_r|].
  rewrite bool_decide_eq_true_2, bool_decide_eq_false_2, Hold by done. simpl. destruct c.
  - destruct Hc as [H1 H2]. by rewrite !bool_decide_eq_true_2.
  - subst old. by rewrite Hne.
  - exists old. split; [|done]. destruct Hc as (Hm & _). by rewrite bool_decide_eq_false_2.
Qed.

Lemma asset_at_same d m m' r :
  acc_owner (acct m' (asset_account pid d)) = acc_owner (acct m (asset_account pid d)) ->
  acc_data (acct m' (asset_account pid d)) = acc_data (acct m (asset_account pid d)) ->
  asset_at pid m d r -> asset_at pid m' d r.
Proof. unfold asset_at. by intros -> ->. Qed.
Lemma binding_at_same v m m' b :
  acc_owner (acct m' (vault_binding_account pid v)) = acc_owner (acct m (vault_binding_account pid v)) ->
  acc_data (acct m' (vault_binding_account pid v)) = acc_data (acct m (vault_binding_account pid v)) ->
  binding_at m v b -> binding_at m' v b.
Proof. unfold binding_at. by intros -> ->. Qed.
Lemma recorded_asset m d r : recorded m d = Some r -> as_debridge_id r = d -> asset_at pid m d r.
Proof.
  unfold recorded, asset_at. destruct (bool_decide _ && _) eqn:Hb; [|done]. bool_inv.
  destruct (decode_asset_config _); [|done]. destruct (_ && _); [done|]. by intros [= <-].
Qed.

Lemma grow_Ok owner ai sys n k s u s' : ai_key ai = k -> acc_owner (acct (accts s) (ai_key ai)) = pid ->
  grow_program_account owner ai sys n s = Ok (u, s') ->
  acc_owner (acct (accts s') (ai_key ai)) = pid /\ n <= len (acc_data (acct (accts s') (ai_key ai))) /\
  others_same k (accts s) (accts s').
Proof.
  intros Hk Ho Hg. subst k. unfold grow_program_account in Hg.
  apply prog_bind_Ok in Hg as (u1 & s1 & Hf & Hr).
  assert (forall k, acc_owner (acct (accts s1) k) = acc_owner (acct (accts s) k) /\
                    acc_data (acct (accts s1) k) = acc_data (acct (accts s) k)) as Hsame.
  { clear Hr. unfold fund_rent in Hf. prog_inv Hf; simpl; [|done]. by eapply cpi_system_transfer. }
  unfold realloc_zero in Hr. revert Ho. prog_inv Hr. intros Ho. cbn [accts]. rewrite acct_set_data. simpl.
  split_and!; [by rewrite (proj1 (Hsame _))| |].
  - rewrite len_app. unfold len. rewrite length_zeros. lia.
  - intros k Hk. rewrite acct_set_data_ne by done. apply Hsame.
Qed.
(** The write at the end of a registration: create or grow the account, then fill it. *)
Lemma store_asset_at owner ai sys d bump r s u1 s1 u2 s2 :
  AssetConfig_wf r -> as_debridge_id r = d -> ai_key ai = asset_account pid d ->
  acc_data (acct (accts s) (ai_key ai)) = [] \/ acc_owner (acct (accts s) (ai_key ai)) = pid ->
  (if bool_decide (acc_data (acct (accts s) (ai_key ai)) = [])
   then create_pda_account pid owner ai sys (asset_seeds d) bump (ASSET_CONFIG_LEN + ASSET_CONFIG_SLACK)
   else if len (acc_data (acct (accts s) (ai_key ai))) <? ASSET_CONFIG_LEN + ASSET_CONFIG_SLACK
   then grow_program_account owner ai sys (ASSET_CONFIG_LEN + ASSET_CONFIG_SLACK) else mret tt) s = Ok (u1, s1) ->
  write_zero_padded r ai s1 = Ok (u2, s2) ->
  asset_at pid (accts s2) d r /\ others_same (asset_account pid d) (accts s) (accts s2).
Proof.
  intros Hwf Hd Hk Hlive Hc Hw.
  assert (acc_owner (acct (accts s1) (ai_key ai)) = pid /\
    ASSET_CONFIG_LEN + ASSET_CONFIG_SLACK <= len (acc_data (acct (accts s1) (ai_key ai))) /\
    others_same (asset_account pid d) (accts s) (accts s1)) as (Ho & Hl & Hoth).
  { case_bool_decide as He; [|destruct Hlive as [|Hlive]; [done|]; destruct (Z.ltb_spec (len (acc_data (acct (accts s) (ai_key ai))))
      (ASSET_CONFIG_LEN + ASSET_CONFIG_SLACK))].
    - apply create_pda_account_Ok in Hc as (_ & _ & Ho & Hda & _ & Hoth & _); [|done].
      rewrite Hda. rewrite Hk in Hoth. split_and!; [done| |done]. unfold len. by rewrite length_zeros.
    - eapply grow_Ok; done.
    - apply prog_ret_Ok in Hc as [_ ->]. done. }
  apply write_asset_at with (d := d) in Hw as [Ha Hw]; [|done..].
  split; [done|]. by eapply others_same_trans.
Qed.

Lemma registration_governed c found it aid s u s' :
  (if is_fresh found then
     now ← clock_now;
     if in_setup_phase (cfg_sealed c) (cfg_setup_deadline c) now then mret tt
     else '(gov_ai, _) ← next_account_info_or it (gate_err GovernanceNotScheduled);
          consume_governance pid gov_ai aid
   else mret tt) s = Ok (u, s') ->
  others_same (gov_account pid aid) (accts s) (accts s') /\
  (found = FreshWrite ->
     in_setup_phase (cfg_sealed c) (cfg_setup_deadline c) (clock s) = true \/ matured pid s aid).
Proof.
  intros Hc. prog_inv Hc.
  - split; [done|by left].
  - apply consume_others in Hc as (? & ? & _). split; [done|by right].
  - split; [done|by intros ->].
Qed.

(** The write-out, in the three cases. *)
Lemma registration_stored owner ai sys d bump r found s u s' :
  AssetConfig_wf r -> as_debridge_id r = d -> ai_key ai = asset_account pid d ->
  acc_data (acct (accts s) (ai_key ai)) = [] \/ acc_owner (acct (accts s) (ai_key ai)) = pid ->
  (found = Rerun -> asset_at pid (accts s) d r) ->
  (if is_rerun found then msg "asset already registered with these exact values; no-op"
   else
    data ← ai_data ai;
    _ ← (if bool_decide (data = []) then
           create_pda_account pid owner ai sys (asset_seeds d) bump (ASSET_CONFIG_LEN + ASSET_CONFIG_SLACK)
         else if len data <? ASSET_CONFIG_LEN + ASSET_CONFIG_SLACK then
           grow_program_account owner ai sys (ASSET_CONFIG_LEN + ASSET_CONFIG_SLACK)
         else mret tt);
    _ ← write_zero_padded r ai;
    if is_legacy_upgrade found then
      msg "legacy asset record upgraded at identity scale; vault binding backfilled"
    else msg "asset registered for debridge_id") s = Ok (u, s') ->
  asset_at pid (accts s') d r /\ others_same (asset_account pid d) (accts s) (accts s').
Proof.
  intros Hwf Hd Hk Hl Hre Hp. destruct (is_rerun found) eqn:Hf.
  - apply emit_log_Ok in Hp as ->. split; [|done]. apply Hre. by destruct found.
  - apply prog_bind_Ok in Hp as (data & s1 & [-> ->]%ai_data_Ok & Hp).
    apply prog_bind_Ok in Hp as (u1 & s1 & Hc & Hp).
    apply prog_bind_Ok in Hp as (u2 & s2 & Hw & Hp).
    assert (accts s' = accts s2) as -> by (destruct (is_legacy_upgrade found); by apply emit_log_Ok in Hp as ->).
    by eapply store_asset_at.
Qed.

Lemma register_asset_Ok accounts d b s u s' :
  is_u 8 b -> assets_isolated d -> acc_owner (acct (accts s) pubkey_default) <> spl_token_id ->
  process_register_asset pid accounts d b s = Ok (u, s') ->
  exists c a, as_debridge_id a = d /\ as_bridge_decimals a = b /\ register_effect accounts s s' c a.
Proof.
  intros Hb [Hi1 Hi2 Hi3] Hdef Hp. unfold process_register_asset in Hp.
  do 10 prog_step Hp. gate_facts. bool_inv.
  apply prog_bind_Ok in Hp as (ld & s1 & Hca & Hp).
  apply check_asset_accounts_Ok in Hca as (-> & _ & _ & Hld & Hunit & Hvault).
  destruct (find_program_address (asset_seeds d) pid) as [e bump] eqn:E.
  apply prog_bind_Ok in Hp as (u1 & s1 & [Hk%bool_decide_eq_true ->]%ensure_Ok & Hp).
  assert (ai_key a1 = asset_account pid d) as Hkey by (unfold asset_account; by rewrite E).
  set (r := MkAssetConfig d (ai_key a2) (ai_key a3) b ld) in *.
  assert (as_vault r <> pubkey_default) as Hvd.
  { intros Ev. apply Hdef. rewrite <- Ev. apply Hvault. }
  apply prog_bind_Ok in Hp as (found & s1 & Hcl & Hp).
  pose proof (classify_asset_Ok _ _ _ _ _ Hcl) as [_ Hdata].
  apply classified_recorded in Hcl as [-> Hrec]; [|done|by rewrite (bool_decide_eq_false_2 _ Hvd), andb_false_r].
  apply prog_bind_Ok in Hp as (u2 & s1 & [Hg1 Hg2]%registration_governed & Hp).
  apply prog_bind_Ok in Hp as (u3 & s2 & Hbv & Hp).
  apply bind_vault_Ok in Hbv as (Hbind & Hshared & Hb2 & _); [|done].
  assert (forall m', others_same (vault_binding_account pid (ai_key a3)) (accts s1) m' ->
    acc_owner (acct m' (asset_account pid d)) = acc_owner (acct (accts s) (asset_account pid d)) /\
    acc_data (acct m' (asset_account pid d)) = acc_data (acct (accts s) (asset_account pid d))) as Hkeep.
  { intros m' Hm. destruct (Hm (asset_account pid d)) as [-> ->]; [by apply not_eq_sym|].
    apply Hg1. by apply not_eq_sym. }
  destruct (Hkeep _ Hb2) as [Eo Ed].
  apply registration_stored with (r := r) in Hp as [Has Hoth]; [|done..| |].
  - exists v, r. split_and!; [done..|]. constructor; try done.
    + eapply signed_intro; eauto. set_solver.
    + eapply binding_at_same; [apply Hoth, Hi1..|done].
    + intros vb Hvb. apply Hshared. eapply binding_at_same; [apply Hg1, not_eq_sym, Hi3..|done].
    + cbn [as_debridge_id]. intros old Ho. change (as_debridge_id r) with d in *.
      destruct found; [congruence|left; congruence|]. destruct Hrec as (o & Ho' & Hl). right. congruence.
    + intros Hn. apply Hg2. change (as_debridge_id r) with d in *.
      destruct found; [done|congruence|]. destruct Hrec as (o & Ho' & _). congruence.
  - rewrite Hkey, Eo, Ed. rewrite Hkey in Hdata. destruct Hdata as [[? _]|[[? _] _]]; auto.
  - intros ->. eapply asset_at_same; [done..|]. by apply recorded_asset.
Qed.

(** A successful registration. The owner signed it, the mint's decimals admit the
    scale, and the vault holds that mint under the gate's sole authority. The
    record is written and the vault is bound to that mint and scale, which every
    earlier asset of the vault had to share. An asset already recorded is never
    repointed: it is byte for byte the same, or a pre-decimals record re-registered
    at the identity scale; in both cases the mint, the vault and what any wire
    amount pays out are unchanged. A new record is instant only in the setup
    phase, and otherwise spends a matured approval for exactly this binding. *)
Theorem register_asset_binds accounts d b s s' :
  is_u 8 b -> assets_isolated d -> acc_owner (acct (accts s) pubkey_default) <> spl_token_id ->
  process_register_asset pid accounts d b s = Ok (tt, s') ->
  exists c a, as_debridge_id a = d /\ as_bridge_decimals a = b /\ register_effect accounts s s' c a /\
    forall old, recorded (accts s) d = Some old ->
      as_mint a = as_mint old /\ as_vault a = as_vault old /\ forall w, to_local a w = to_local old w.
Proof.
  intros Hb Hi Hd Hp. destruct (register_asset_Ok _ _ _ _ _ _ Hb Hi Hd Hp) as (c & a & Ha & Hab & He).
  exists c, a. split_and!; [done..|]. intros old Ho. subst d.
  destruct (rg_once _ _ _ _ _ He _ Ho) as [->|(_ & Hm & Hv & _ & H1 & H2 & H3)]; [done|].
  split_and!; [done..|]. intros w. unfold to_local, unit_of, bridge_unit, checked_sub.
  by rewrite H1, H2, H3, !Z.sub_diag.
Qed.
End GateAssets.
