(* ===== verification/GateProgram.v ===== *)
(** The Solana gate as one program (crates/solana-gate/src/lib.rs): the
    dispatcher, which accounts each instruction may touch, and the simulation of
    the abstract governance machine. *)

From S2P Require Import Prelude.
From S2P Require Import SolanaRuntime.
From S2P Require Import GateTypes.
From S2P Require Import GateHash.
From S2P Require Import GateState.
From S2P Require Import GateVerify.
From S2P Require Import GateGov.
From S2P Require Import GateTransfers.
From S2P Require Import GateAdmin.

Section GateProgram.
Context {RT : Runtime} {GB : GateBorsh}.

(** The [match] of [process_instruction]. *)
Definition dispatch (program_id : pubkey) (accounts : list account_info) (ix : GateInstruction)
    : prog unit :=
  match ix with
  | Init args => process_init program_id accounts args
  | Send args => process_send program_id accounts args
  | Claim args => process_claim program_id accounts args
  | SetValidator validator active => process_set_validator program_id accounts validator active
  | SetThreshold threshold => process_set_threshold program_id accounts threshold
  | RegisterAsset debridge_id bridge_decimals =>
      process_register_asset program_id accounts debridge_id bridge_decimals
  | RegisterCorridor chain_id_to => process_register_corridor program_id accounts chain_id_to
  | Pause => process_set_paused program_id accounts true
  | Unpause => process_set_paused program_id accounts false
  | SetGuardian guardian => process_set_guardian program_id accounts guardian
  | Cancel args => process_cancel program_id accounts args
  | Refund args => process_refund program_id accounts args
  | ScheduleGovernance _ => fail (gate_err UseTypedSchedule)
  | ScheduleAction action => process_schedule_action program_id accounts action
  | CancelScheduledGovernance action_id =>
      process_cancel_scheduled_governance program_id accounts action_id
  | Seal => process_seal program_id accounts
  end.

Definition process_instruction (program_id : pubkey) (accounts : list account_info) (data : list byte)
    : prog unit :=
  ix ← lift (ok_or (ix_try_from_slice data) InvalidInstructionData);
  dispatch program_id accounts ix.

Lemma process_instruction_decoded pid accounts data ix s :
  ix_try_from_slice data = Some ix -> process_instruction pid accounts data s = dispatch pid accounts ix s.
Proof. intros Hix. unfold process_instruction. by rewrite Hix. Qed.
End GateProgram.

(** * Lemmas *)

(** Address checks made before a write tell which account is written. *)
Ltac key_checks :=
  repeat match goal with
  | H : ensure (bool_decide (ai_key _ = _)) _ _ = Ok _ |- _ =>
      apply ensure_Ok in H; destruct H as [H _]; apply bool_decide_eq_true in H
  | H : load_config _ _ _ = Ok _ |- _ => apply load_config_at in H; destruct H as (_ & H & _)
  | H : load_sent_record _ _ _ _ = Ok _ |- _ => apply load_sent_record_Ok in H; destruct H as (_ & H & _)
  end.
Ltac keeps_handler :=
  repeat (first [solve [eauto with keeps nocore] | simple apply keeps_wipe; [|intros] | keeps_step
                | progress cbv zeta]);
  key_checks; pda_facts; cbn [ai_key]; eauto with keeps.

Section Touched.
Context {RT : Runtime} {RL : RuntimeLaws} {GB : GateBorsh} {GL : GateBorshLaws}.
Variable pid : pubkey.
Hypothesis pid_not_spl : pid <> spl_token_id.
Variable K : pubkey -> Prop.

Lemma keeps_claim accounts args : (forall id, K (executed_account pid id)) ->
  keeps pid K (process_claim pid accounts args).
Proof. intros HK. unfold process_claim. keeps_handler. Qed.
Lemma keeps_cancel accounts args : (forall id, K (executed_account pid id)) ->
  keeps pid K (process_cancel pid accounts args).
Proof. intros HK. unfold process_cancel, emit_lifecycle. keeps_handler. Qed.
Lemma keeps_refund accounts args :
  (forall id, K (refunded_account pid id)) -> (forall id, K (sent_account pid id)) ->
  keeps pid K (process_refund pid accounts args).
Proof.
  intros HK HK'. unfold process_refund, emit_lifecycle. keeps_handler.
Qed.
Lemma keeps_send accounts args : K (config_account pid) -> (forall id, K (sent_account pid id)) ->
  keeps pid K (process_send pid accounts args).
Proof. intros HK HK'. unfold process_send, emit_sent. keeps_handler. Qed.
Lemma keeps_schedule accounts act : (forall id, K (gov_account pid id)) ->
  keeps pid K (process_schedule_action pid accounts act).
Proof. intros HK. unfold process_schedule_action. keeps_handler. Qed.
Lemma keeps_cancel_scheduled accounts aid : K (gov_account pid aid) ->
  keeps pid K (process_cancel_scheduled_governance pid accounts aid).
Proof. intros HK. unfold process_cancel_scheduled_governance. keeps_handler. Qed.
Lemma keeps_init accounts args : K (config_account pid) -> keeps pid K (process_init pid accounts args).
Proof. intros HK. unfold process_init. keeps_handler. Qed.
Lemma keeps_register_corridor accounts x : K (config_account pid) ->
  keeps pid K (process_register_corridor pid accounts x).
Proof. intros HK. unfold process_register_corridor. keeps_handler. Qed.
Lemma keeps_set_paused accounts b : K (config_account pid) -> keeps pid K (process_set_paused pid accounts b).
Proof. intros HK. unfold process_set_paused. keeps_handler. Qed.
Lemma keeps_seal accounts : K (config_account pid) -> keeps pid K (process_seal pid accounts).
Proof. intros HK. unfold process_seal. keeps_handler. Qed.
Lemma keeps_set_guardian accounts g :
  K (config_account pid) -> K (gov_account pid (set_guardian_action_id g)) ->
  keeps pid K (process_set_guardian pid accounts g).
Proof. intros HK HK'. unfold process_set_guardian. keeps_handler. Qed.
Lemma keeps_set_validator accounts v b :
  K (config_account pid) -> K (gov_account pid (add_validator_action_id v)) ->
  keeps pid K (process_set_validator pid accounts v b).
Proof. intros HK HK'. unfold process_set_validator. keeps_handler. Qed.
Lemma keeps_set_threshold accounts t :
  K (config_account pid) -> K (gov_account pid (lower_threshold_action_id t)) ->
  keeps pid K (process_set_threshold pid accounts t).
Proof. intros HK HK'. unfold process_set_threshold. keeps_handler. Qed.
Lemma keeps_classify_asset ai r : keeps pid K (classify_asset pid ai r).
Proof. unfold classify_asset. keeps_tac. Qed.
#[local] Hint Resolve keeps_classify_asset : keeps.
Lemma keeps_register_asset accounts d b :
  K (asset_account pid d) -> (forall v, K (vault_binding_account pid v)) ->
  (forall m v, K (gov_account pid (register_asset_action_id d m v b))) ->
  keeps pid K (process_register_asset pid accounts d b).
Proof.
  intros HK HK' HK''. unfold process_register_asset. keeps_handler.
Qed.
End Touched.

#[export] Hint Resolve keeps_classify_asset : keeps.

(** * Simulation of the governance machine *)

Section Simulation.
Context {RT : Runtime} {RL : RuntimeLaws} {GB : GateBorsh} {GL : GateBorshLaws}.
Variable pid : pubkey.

(** One run leaves the configuration as it was, or moves it by one step; [o] is
    the corridor of a send. *)
Definition simulated (accounts : list account_info) (s : ledger) (o : option Z) (m' : gmap pubkey account)
    : Prop :=
  forall c, config_at pid (accts s) c ->
    exists c', config_at pid m' c' /\ ((o = None /\ c' = c) \/ gov_step pid accounts s c o c').

Lemma simulated_same accounts s : simulated accounts s None (accts s).
Proof. intros c Hc. exists c. auto. Qed.
Lemma simulated_keeps {A} accounts (p : prog A) s a s' :
  keeps pid (fun k => k <> config_account pid) p -> p s = Ok (a, s') -> simulated accounts s None (accts s').
Proof. intros Hp Hs c Hc. exists c. split; [|auto]. by eapply config_at_keeps. Qed.

(** Storing the next configuration, whatever else happened to other accounts. *)
Lemma simulated_store accounts s s1 ai c o c' u s' :
  ai_key ai = config_account pid -> config_at pid (accts s) c ->
  acc_owner (acct (accts s1) (config_account pid)) = pid ->
  Config_wf c' -> gov_step pid accounts s c o c' -> store c' ai s1 = Ok (u, s') ->
  simulated accounts s o (accts s').
Proof.
  intros Hk Hc Ho Hwf Hstep Hs c0 Hc0. rewrite (config_at_unique _ _ _ _ Hc0 Hc) in *.
  apply (store_config pid) in Hs as (Hc' & _); [|done..|by rewrite Hk]. eauto.
Qed.

Lemma consume_owner ai aid s u s' k : consume_governance pid ai aid s = Ok (u, s') ->
  acc_owner (acct (accts s') k) = acc_owner (acct (accts s) k).
Proof. intros (_ & _ & -> & _)%consume_governance_Ok. apply set_data_owner. Qed.

(** Vector lengths of a stored configuration fit the [u32] they are cast to. *)
Ltac sim_lens := repeat match goal with
  | H : Config_wf ?c, H' : context [as_u 32 (len (_ ?c))] |- _ =>
      rewrite as_u_small in H' by (apply H) end.
Ltac sim_facts :=
  gate_facts; bool_inv;
  repeat match goal with
  | H : config_at _ _ ?c |- _ => lazymatch goal with W : Config_wf c |- _ => fail | _ => 
      pose proof (config_at_wf _ _ _ H) as Hwf; rename H into Hcfg end
  end.
Ltac sim_wf := match goal with H : Config_wf _ |- Config_wf _ =>
  destruct H as (? & ? & ? & ? & ? & ? & ? & ?); unfold Config_wf, is_u, is_i in *; simpl;
  split_and!; try done; try lia end.

Ltac sim_sign := eapply signed_intro; eauto; set_solver.

Lemma set_paused_sim accounts b s u s' :
  process_set_paused pid accounts b s = Ok (u, s') -> simulated accounts s None (accts s').
Proof.
  unfold process_set_paused. intros Hp. prog_inv Hp; sim_facts; [apply simulated_same|]. cbn [accts].
  eapply simulated_store; [done..| | | |done]; [by apply Hcfg|sim_wf|].
  unfold authorized_to_set_paused in *. destruct b.
  - apply StepPause.
    match goal with H : _ || _ = true |- _ => apply orb_true_iff in H as [H|H]; bool_inv end;
      [left|right; split; [done|]]; sim_sign.
  - apply StepUnpause. bool_inv. sim_sign.
Qed.

Lemma register_corridor_sim accounts x s u s' : is_u 64 x ->
  process_register_corridor pid accounts x s = Ok (u, s') -> simulated accounts s None (accts s').
Proof.
  unfold process_register_corridor. intros Hx Hp. prog_inv Hp; sim_facts; [apply simulated_same|].
  cbn [accts]. sim_lens.
  eapply simulated_store; [done..| | | |done]; [by apply Hcfg| |].
  - pose proof Hwf as (? & ? & ? & ? & ? & ? & ? & ?). unfold Config_wf, is_u in *. simpl.
    rewrite len_app, Forall_app. change (len [(x, 0)]) with 1.
    split_and!; try done; try lia; apply Forall_singleton; simpl; lia.
  - apply StepCorridor; try done. sim_sign.
Qed.

Lemma seal_sim accounts s u s' :
  process_seal pid accounts s = Ok (u, s') -> simulated accounts s None (accts s').
Proof.
  unfold process_seal. intros Hp. prog_inv Hp; sim_facts. cbn [accts].
  eapply simulated_store; [done..| | | |done]; [by apply Hcfg|sim_wf|]. apply StepSeal; [|done]. sim_sign.
Qed.

Lemma set_guardian_sim accounts g s u s' :
  process_set_guardian pid accounts g s = Ok (u, s') -> simulated accounts s None (accts s').
Proof.
  unfold process_set_guardian. intros Hp. prog_inv Hp; sim_facts; [apply simulated_same|].
  match goal with Hg : (if ?b then _ else _) _ = Ok (_, ?s1) |- _ =>
    assert (acc_owner (acct (accts s1) (config_account pid)) = pid /\
      (b = true -> matured pid s (set_guardian_action_id g))) as [Ho Hm]; [destruct b eqn:Hb|] end.
  { prog_inv_all. split; [|intros _]; [erewrite consume_owner by done; by apply Hcfg|].
    by match goal with Hc : consume_governance _ _ _ _ = Ok _ |- _ => apply consume_governance_Ok in Hc as (_ & ? & _) end. }
  { prog_inv_all. split; [by apply Hcfg|done]. }
  eapply simulated_store; [done..| | |done]; [sim_wf|].
  apply StepGuardian; [sim_sign|]. unfold guardian_change_needs_schedule in Hm.
  destruct (in_setup_phase _ _ _); [auto|]. simpl in Hm.
  case_bool_decide; simpl in Hm; auto.
Qed.

Lemma set_validator_sim accounts v b s u s' :
  process_set_validator pid accounts v b s = Ok (u, s') -> simulated accounts s None (accts s').
Proof.
  unfold process_set_validator. intros Hp. prog_inv Hp; sim_facts; [..|apply simulated_same].
  - sim_lens.
    match goal with Hc : consume_governance _ _ _ _ = Ok _ |- _ =>
      pose proof (consume_owner _ _ _ _ _ (config_account pid) Hc) as Ho;
      apply consume_governance_Ok in Hc as (_ & Hm & _) end.
    eapply simulated_store; [done..| | | |done]; [rewrite Ho; by apply Hcfg| |].
    + pose proof Hwf as (? & ? & ? & ? & ? & ? & ? & ?). unfold Config_wf, is_u in *. simpl.
      rewrite len_app. change (len [v]) with 1. split_and!; try done; lia.
    + apply StepAddValidator; try done; [sim_sign|].
      rewrite <- is_validator_iff. congruence.
  - pose proof (len_filter (fun x => negb (bool_decide (x = v))) (cfg_validators v0)) as Hl.
    fold (retain_other v (cfg_validators v0)) in Hl.
    assert (is_u 32 (len (retain_other v (cfg_validators v0)))) as Hu.
    { destruct Hwf as [? _]. unfold is_u, len in *. lia. }
    match goal with Hl : context [as_u 32 _] |- _ => rewrite as_u_small in Hl by done end.
    eapply simulated_store; [done..| | | |done]; [by apply Hcfg|sim_wf|].
    apply StepRemoveValidator; [sim_sign|by apply is_validator_iff|lia].
Qed.

Lemma set_threshold_sim accounts t s u s' : is_u 32 t ->
  process_set_threshold pid accounts t s = Ok (u, s') -> simulated accounts s None (accts s').
Proof.
  unfold process_set_threshold, check_threshold_cap. intros Ht Hp. prog_inv Hp; sim_facts.
  sim_lens.
  match goal with Hg : (if t <? ?b then _ else _) _ = Ok (_, ?s1) |- _ =>
    assert (acc_owner (acct (accts s1) (config_account pid)) = pid /\
      (b <= t \/ matured pid s (lower_threshold_action_id t))) as [Ho Hm]; [destruct (Z.ltb_spec t b)|] end.
  { prog_inv_all. split; [erewrite consume_owner by done; by apply Hcfg|right].
    by match goal with Hc : consume_governance _ _ _ _ = Ok _ |- _ => apply consume_governance_Ok in Hc as (_ & ? & _) end. }
  { prog_inv_all. split; [by apply Hcfg|by left]. }
  destruct (Z.ltb_spec MAX_THRESHOLD t); [discriminate|].
  eapply simulated_store; [done..| | |done]; [sim_wf|].
  apply StepThreshold; try done; [sim_sign|unfold is_u in *; lia].
Qed.

(** Distinct addresses: none of the gate's other program-derived accounts is at
    the address of the configuration. This is collision freedom of the address
    derivation, for that one address. *)
Inductive gate_seeds : list (list byte) -> Prop :=
  | GsAsset id : gate_seeds (asset_seeds id)
  | GsSent id : gate_seeds (sent_seeds id)
  | GsExecuted id : gate_seeds (executed_seeds id)
  | GsRefunded id : gate_seeds (refunded_seeds id)
  | GsVault k : gate_seeds (vault_seeds k)
  | GsGov id : gate_seeds (gov_seeds id).
Definition config_isolated : Prop :=
  forall sd, gate_seeds sd -> fst (find_program_address sd pid) <> config_account pid.

Hypothesis pid_not_spl : pid <> spl_token_id.
Hypothesis isolated : config_isolated.

Lemma send_sim accounts args s u s' : is_u 64 (sa_amount args) -> is_i 64 (clock s) ->
  process_send pid accounts args s = Ok (u, s') ->
  simulated accounts s (Some (sa_chain_id_to args)) (accts s').
Proof.
  intros Ha Hc Hs c0 Hc0.
  apply process_send_Ok in Hs as (c & c' & a & w & p & user & He); [|done..].
  rewrite (config_at_unique _ _ _ _ Hc0 (sd_config _ _ _ _ _ _ _ _ _ _ He)).
  exists c'. split; [apply He|]. right. eapply StepSend; apply He.
Qed.

Lemma init_sim accounts args s u s' :
  process_init pid accounts args s = Ok (u, s') -> simulated accounts s None (accts s').
Proof.
  intros Hi c Hc. exfalso. apply (config_at_nonempty _ _ _ Hc). unfold process_init in Hi.
  prog_inv Hi. bool_inv. pda_facts. cbn [ai_key] in *. done.
Qed.

Definition ix_corridor (ix : GateInstruction) : option Z :=
  match ix with Send a => Some (sa_chain_id_to a) | _ => None end.
Lemma program_sim accounts data ix s u s' : is_i 64 (clock s) -> ix_try_from_slice data = Some ix ->
  process_instruction pid accounts data s = Ok (u, s') -> simulated accounts s (ix_corridor ix) (accts s').
Proof.
  intros Hclk Hix. rewrite (process_instruction_decoded _ _ _ _ _ Hix). intros Hp.
  pose proof (ix_try_wf _ _ Hix) as Hwf.
  destruct ix; simpl in Hwf;
    eauto using init_sim, set_validator_sim, set_threshold_sim, register_corridor_sim, set_paused_sim,
      set_guardian_sim, seal_sim.
  - destruct Hwf. by eapply send_sim.
  - eapply simulated_keeps; [|done]. apply keeps_claim; [done|]. intros id. apply isolated. constructor.
  - eapply simulated_keeps; [|done]. apply keeps_register_asset; intros; apply isolated; constructor.
  - eapply simulated_keeps; [|done]. apply keeps_cancel; intros; apply isolated; constructor.
  - eapply simulated_keeps; [|done]. apply keeps_refund; [done|..]; intros; apply isolated; constructor.
  - by apply fail_Ok in Hp.
  - eapply simulated_keeps; [|done]. apply keeps_cancel_scheduled, isolated. constructor.
  - eapply simulated_keeps; [|done]. apply keeps_schedule; intros; apply isolated; constructor.
Qed.
End Simulation.
