(* ===== verification/GateSafety.v ===== *)
(** Histories of the Solana gate: sequences of its transactions interleaved with
    whatever other programs do, and what no history can contain. *)

From S2P Require Import Prelude.
From S2P Require Import SolanaRuntime.
From S2P Require Import GateTypes.
From S2P Require Import GateHash.
From S2P Require Import GateState.
From S2P Require Import GateVerify.
From S2P Require Import GateGov.
From S2P Require Import GateTransfers.
From S2P Require Import GateAdmin.
From S2P Require Import GateAssets.
From S2P Require Import GateProgram.

(** What a transaction did, as an observer of the chain names it. *)
Inductive gate_event :=
  | EvClaim (id : hash32)
  | EvCancel (id : hash32)
  | EvRefund (id : hash32)
  | EvSend (chain nonce : Z)
  | EvSchedule (action_id : hash32) (at_time : Z)
  | EvUnschedule (action_id : hash32)
  | EvOther.

Section Histories.
Context {RT : Runtime} {GB : GateBorsh}.
Variable pid : pubkey.

Definition current_config (m : gmap pubkey account) : option Config :=
  let a := acct m (config_account pid) in
  if bool_decide (acc_owner a = pid) then borsh_de (acc_data a) else None.

(** The action id a [ScheduleAction] queues: mint and vault are its fifth and
    sixth accounts. *)
Definition scheduled_id (accounts : list account_info) (action : GovernanceAction) : hash32 :=
  let key n := from_option ai_key pubkey_default (accounts !! n) in
  match action with
  | GA_AddValidator v => add_validator_action_id v
  | GA_LowerThreshold t => lower_threshold_action_id t
  | GA_RegisterAsset d b => register_asset_action_id d (key 4%nat) (key 5%nat) b
  | GA_SetGuardian g => set_guardian_action_id g
  end.

Definition event_of (s : ledger) (accounts : list account_info) (ix : GateInstruction) : gate_event :=
  match current_config (accts s), ix with
  | Some c, Claim a => EvClaim (claim_id c a)
  | Some c, Cancel a => EvCancel (cancel_sub_id c a)
  | Some c, Refund a => EvRefund (refund_sub_id c a)
  | Some c, Send a => EvSend (sa_chain_id_to a) (nonce c (sa_chain_id_to a))
  | _, ScheduleAction a => EvSchedule (scheduled_id accounts a) (clock s)
  | _, CancelScheduledGovernance aid => EvUnschedule aid
  | _, _ => EvOther
  end.

(** The rest of the chain: it may do anything to accounts that are not the gate's
    program-derived ones, and time may pass. *)
Record environment (s s' : ledger) : Prop := {
  env_pda : evolves pid (fun k => forall sd, k <> fst (find_program_address sd pid)) (accts s) (accts s');
  env_clock : clock s <= clock s';
}.

Inductive gate_step : ledger -> gate_event -> ledger -> Prop :=
  | GateTx s accounts data ix s' :
      is_i 64 (clock s) -> ix_try_from_slice data = Some ix -> process_instruction pid accounts data s = Ok (tt, s') ->
      gate_step s (event_of s accounts ix) s'
  | GateEnv s s' : environment s s' -> gate_step s EvOther s'.

(** A history, oldest event first. *)
Inductive history : ledger -> list gate_event -> ledger -> Prop :=
  | HistoryNil s : history s [] s
  | HistorySnoc s evs s1 ev s2 :
      history s evs s1 -> gate_step s1 ev s2 -> history s (evs ++ [ev]) s2.
End Histories.

Section Safety.
Context {RT : Runtime} {RL : RuntimeLaws} {GB : GateBorsh} {GL : GateBorshLaws}.
Variable pid : pubkey.
Hypothesis pid_not_spl : pid <> spl_token_id.

Lemma current_config_Some m c : current_config pid m = Some c <-> config_at pid m c.
Proof.
  unfold current_config, config_at. case_bool_decide; [naive_solver|]. split; [done|by intros [? _]].
Qed.

(** Any instruction: live accounts stay live. *)
Lemma keeps_program (K : pubkey -> Prop) accounts data :
  K (config_account pid) -> (forall sd, gate_seeds sd -> K (fst (find_program_address sd pid))) ->
  keeps pid K (process_instruction pid accounts data).
Proof.
  intros HC HK.
  assert (forall id, K (executed_account pid id)) by (intros; apply HK; constructor).
  assert (forall id, K (refunded_account pid id)) by (intros; apply HK; constructor).
  assert (forall id, K (sent_account pid id)) by (intros; apply HK; constructor).
  assert (forall id, K (asset_account pid id)) by (intros; apply HK; constructor).
  assert (forall id, K (vault_binding_account pid id)) by (intros; apply HK; constructor).
  assert (forall id, K (gov_account pid id)) by (intros; apply HK; constructor).
  unfold process_instruction. apply keeps_bind; [auto with keeps|]. intros s ix s' _.
  destruct ix; simpl; auto using keeps_init, keeps_send, keeps_claim, keeps_set_validator, keeps_set_threshold,
    keeps_register_asset, keeps_register_corridor, keeps_set_paused, keeps_set_guardian, keeps_cancel,
    keeps_refund, keeps_fail, keeps_cancel_scheduled, keeps_seal, keeps_schedule.
Qed.

Lemma step_evolves s ev s' : gate_step pid s ev s' -> evolves pid (fun _ => True) (accts s) (accts s').
Proof.
  intros [s0 accounts data ix s0' _ _ Hp|s0 s0' He].
  - by eapply keeps_program.
  - eapply evolves_weaken; [apply (env_pda _ _ _ He)|done].
Qed.
Lemma history_evolves s evs s' : history pid s evs s' -> evolves pid (fun _ => True) (accts s) (accts s').
Proof.
  induction 1 as [s|s evs s1 ev s2 _ IH Hs]; [apply evolves_refl|].
  eapply evolves_trans; [done|]. by eapply step_evolves.
Qed.

(** ** Once only *)

Definition is_spend (id : hash32) (e : gate_event) : bool :=
  match e with
  | EvClaim i | EvCancel i => bool_decide (i = id)
  | _ => false
  end.
Definition is_refund (id : hash32) (e : gate_event) : bool :=
  match e with
  | EvRefund i => bool_decide (i = id)
  | _ => false
  end.
Definition count (f : gate_event -> bool) (evs : list gate_event) : nat := length (List.filter f evs).

Lemma count_snoc f evs e : count f (evs ++ [e]) = (count f evs + if f e then 1 else 0)%nat.
Proof. unfold count. rewrite List.filter_app, length_app. simpl. destruct (f e); done. Qed.

(** A one-shot flag: an event that needs it clear and sets it happens once. *)
Lemma once_only (f : gate_event -> bool) (flag : ledger -> Prop) s evs s' :
  (forall s1 e s2, gate_step pid s1 e s2 -> flag s1 -> flag s2) ->
  (forall s1 e s2, gate_step pid s1 e s2 -> f e = true -> ~ flag s1 /\ flag s2) ->
  history pid s evs s' ->
  (count f evs <= 1)%nat /\ (flag s -> count f evs = 0%nat) /\ (count f evs = 1%nat -> flag s') /\
  (flag s -> flag s').
Proof.
  intros Hmono Honce. induction 1 as [s|s evs s1 e s2 _ IH Hs]; [by split_and!; auto|].
  destruct IH as (Hle & H0 & H1 & Hm). rewrite count_snoc. destruct (f e) eqn:He.
  - destruct (Honce _ _ _ Hs He) as [Hn Hy]. split_and!; [|naive_solver..].
    destruct (count f evs) as [|[|]]; [lia|naive_solver|lia].
  - rewrite Nat.add_0_r. split_and!; try done; eauto.
Qed.

Lemma spend_step s e s' id : gate_step pid s e s' -> is_spend id e = true ->
  ~ spent pid (accts s) id /\ spent pid (accts s') id.
Proof.
  intros [s0 accounts data ix s0' Hclk Hix Hp|s0 s0' He]; [|done].
  rewrite (process_instruction_decoded _ _ _ _ _ Hix) in Hp. unfold event_of.
  destruct (current_config pid (accts s0)) as [c|] eqn:Hc; [apply current_config_Some in Hc|by destruct ix].
  destruct ix; try done; simpl; intros Hid; bool_inv; subst id; unfold spent.
  - apply process_claim_Ok in Hp as (c' & a & r & He); [|done].
    rewrite (config_at_unique _ _ _ _ Hc (ce_config _ _ _ _ _ _ _ He)).
    rewrite (ce_fresh _ _ _ _ _ _ _ He), (ce_marked _ _ _ _ _ _ _ He). split; [by intros [? ?]|done].
  - apply process_cancel_Ok in Hp as (c' & He).
    rewrite (config_at_unique _ _ _ _ Hc (xe_config _ _ _ _ _ He)).
    rewrite (xe_fresh _ _ _ _ _ He), (xe_marked _ _ _ _ _ He). split; [by intros [? ?]|done].
Qed.
Lemma refund_step s e s' id : gate_step pid s e s' -> is_refund id e = true ->
  ~ refunded pid (accts s) id /\ refunded pid (accts s') id.
Proof.
  intros [s0 accounts data ix s0' Hclk Hix Hp|s0 s0' He]; [|done].
  rewrite (process_instruction_decoded _ _ _ _ _ Hix) in Hp. unfold event_of.
  destruct (current_config pid (accts s0)) as [c|] eqn:Hc; [apply current_config_Some in Hc|by destruct ix].
  destruct ix; try done; simpl; intros Hid; bool_inv; subst id; unfold refunded.
  apply process_refund_Ok in Hp as (c' & a & r & He); [|done].
  rewrite (config_at_unique _ _ _ _ Hc (re_config _ _ _ _ _ _ _ He)).
  rewrite (re_fresh _ _ _ _ _ _ _ He), (re_marked _ _ _ _ _ _ _ He). split; [by intros [? ?]|done].
Qed.

(** C1. Across any history, whatever other programs do in between, a submission id is
    claimed or cancelled at most once in total, never both, and not at all if it
    was spent before; it then stays spent forever. *)
Theorem submission_spent_once s evs s' id :
  history pid s evs s' ->
  (count (is_spend id) evs <= 1)%nat /\
  (spent pid (accts s) id -> count (is_spend id) evs = 0%nat) /\
  (count (is_spend id) evs = 1%nat -> spent pid (accts s') id) /\
  (spent pid (accts s) id -> spent pid (accts s') id).
Proof.
  apply (once_only _ (fun s => spent pid (accts s) id)).
  - intros s1 e s2 Hs. eapply evolves_marker, step_evolves, Hs.
  - intros s1 e s2. apply spend_step.
Qed.

(** C6. Likewise a send is refunded at most once. *)
Theorem submission_refunded_once s evs s' id :
  history pid s evs s' ->
  (count (is_refund id) evs <= 1)%nat /\
  (refunded pid (accts s) id -> count (is_refund id) evs = 0%nat) /\
  (count (is_refund id) evs = 1%nat -> refunded pid (accts s') id) /\
  (refunded pid (accts s) id -> refunded pid (accts s') id).
Proof.
  apply (once_only _ (fun s => refunded pid (accts s) id)).
  - intros s1 e s2 Hs. eapply evolves_marker, step_evolves, Hs.
  - intros s1 e s2. apply refund_step.
Qed.

(** ** Governance *)

Hypothesis isolated : config_isolated pid.

Lemma program_config accounts data s s' c : is_i 64 (clock s) ->
  process_instruction pid accounts data s = Ok (tt, s') -> config_at pid (accts s) c ->
  exists o c', config_at pid (accts s') c' /\ ((o = None /\ c' = c) \/ gov_step pid accounts s c o c').
Proof.
  intros Hclk Hp Hc. destruct (ix_try_from_slice data) as [ix|] eqn:Hix.
  - exists (ix_corridor ix). by eapply program_sim.
  - unfold process_instruction in Hp. by rewrite Hix in Hp.
Qed.

(** C19. The gate implements the abstract governance machine: every instruction that
    succeeds on an initialized gate either leaves the stored configuration alone
    or moves it by one step of [gov_step]. So the invariant (a threshold between 1
    and 8 that distinct non-zero validators can reach, capacities respected, no
    corridor to itself) survives, and owner, domain, chain id, capacities and
    setup deadline never change, a seal is never undone and no nonce goes back. *)
Theorem gate_refines_governance accounts data s s' c :
  is_i 64 (clock s) -> process_instruction pid accounts data s = Ok (tt, s') ->
  config_at pid (accts s) c -> config_inv c ->
  exists c', config_at pid (accts s') c' /\ config_inv c' /\ config_le c c' /\
    (c' = c \/ exists o, gov_step pid accounts s c o c').
Proof.
  intros Hclk Hp Hc Hi. destruct (program_config _ _ _ _ _ Hclk Hp Hc) as (o & c' & Hc' & [[_ ->]|Hs]).
  - exists c. split_and!; [done..|by left].
  - exists c'. split_and!; [done|by eapply gov_step_inv|by eapply gov_step_le|by eauto].
Qed.

(** Power is granted only on a matured approval. If an instruction adds a
    validator, lowers the threshold, or replaces a set guardian outside the setup
    phase, the owner signed it and the approval for exactly that change (that
    validator, that threshold, that guardian) had matured and not expired when
    the instruction ran. *)
Theorem power_needs_timelock accounts data s s' c c' :
  is_i 64 (clock s) -> process_instruction pid accounts data s = Ok (tt, s') ->
  config_at pid (accts s) c -> config_at pid (accts s') c' ->
  (forall v, v ∈ cfg_validators c' -> v ∉ cfg_validators c ->
     signed accounts (cfg_owner c) /\ matured pid s (add_validator_action_id v)) /\
  (cfg_threshold c' < cfg_threshold c ->
     signed accounts (cfg_owner c) /\ matured pid s (lower_threshold_action_id (cfg_threshold c'))) /\
  (cfg_guardian c' <> cfg_guardian c -> cfg_guardian c <> pubkey_default ->
   in_setup_phase (cfg_sealed c) (cfg_setup_deadline c) (clock s) = false ->
     signed accounts (cfg_owner c) /\ matured pid s (set_guardian_action_id (cfg_guardian c'))).
Proof.
  intros Hclk Hp Hc Hc'. destruct (program_config _ _ _ _ _ Hclk Hp Hc) as (o & c1 & Hc1 & Hs).
  rewrite (config_at_unique _ _ _ _ Hc' Hc1). clear Hc' Hc1 c'.
  destruct Hs as [[_ ->]|[chain c2 _ _ Hb| | | |g Hsg Hg|v Hsv _ _ _ Hm|v _ _ _|t Hst _ _ Ht|]]; simpl;
    try (split_and!; [by intros x ? []; done|lia|done]).
  - pose proof (bump_nonce_spec c chain) as Hs. rewrite Hb in Hs.
    destruct Hs as (_ & _ & _ & _ & -> & _). simpl. split_and!; [by intros x ? []; done|lia|done].
  - split_and!; [by intros x ? []; done|lia|]. intros Hne Hd Hph. destruct Hg as [?|[?|?]]; [done|congruence|by split].
  - split_and!; [|lia|done]. intros x Hx1 Hx2. apply elem_of_app in Hx1 as [?| ->%list_elem_of_singleton]; done.
  - split_and!; [|lia|done]. intros x [Hx1 _]%retain_other_in Hx2. done.
  - split_and!; [by intros x ? []; done| |done]. intros Hlt. split; [done|]. destruct Ht; [lia|done].
Qed.

(** Without the owner's signature, all an instruction can do to the configuration
    is advance the nonce of a send, or pause when the appointed guardian signed:
    a guardian can stop the gate but not resume it, and cannot touch validators,
    threshold, corridors, the guardian slot or the seal. *)
Theorem guardian_only_stops accounts data s s' c c' :
  is_i 64 (clock s) -> process_instruction pid accounts data s = Ok (tt, s') ->
  config_at pid (accts s) c -> config_at pid (accts s') c' -> ~ signed accounts (cfg_owner c) ->
  c' = c \/
  (exists chain, bump_nonce c chain = Ok c' /\ cfg_paused c = false /\ cfg_sealed c = true) \/
  (c' = with_paused c true /\ cfg_guardian c <> pubkey_default /\ signed accounts (cfg_guardian c)).
Proof.
  intros Hclk Hp Hc Hc' Hns. destruct (program_config _ _ _ _ _ Hclk Hp Hc) as (o & c1 & Hc1 & Hs).
  rewrite (config_at_unique _ _ _ _ Hc' Hc1). clear Hc' Hc1 c'.
  destruct Hs as [[_ ->]|[| |[?|[? ?]]| | | | | |]]; try done; eauto 10.
Qed.

(** ** Histories of the configuration *)

Lemma env_config s s' c : environment pid s s' -> config_at pid (accts s) c -> config_at pid (accts s') c.
Proof.
  intros [He _] Hc. pose proof (config_at_nonempty _ _ _ Hc) as Hne. destruct Hc as [Ho Hd].
  destruct (ev_live _ _ _ _ He _ (conj Ho Hne)) as [Ho' _].
  destruct (ev_same _ _ _ _ He _ (conj Ho Hne)) as [Hbad|E].
  - exfalso. by apply (Hbad config_seeds).
  - split; congruence.
Qed.

Definition ev_corridor (e : gate_event) : option Z :=
  match e with EvSend x _ => Some x | _ => None end.
Lemma step_config s e s' c : gate_step pid s e s' -> config_at pid (accts s) c ->
  exists c', config_at pid (accts s') c' /\ config_le c c' /\ (config_inv c -> config_inv c') /\
    (forall x, nonce c' x = nonce c x + if bool_decide (ev_corridor e = Some x) then 1 else 0) /\
    (forall x n, e = EvSend x n -> n = nonce c x).
Proof.
  intros [s0 accounts data ix s0' Hclk Hix Hp|s0 s0' He] Hc.
  - destruct (program_sim _ pid_not_spl isolated _ _ _ _ _ _ Hclk Hix Hp _ Hc) as (c' & Hc' & Hs).
    assert (current_config pid (accts s0) = Some c) as Hcc by (by apply current_config_Some).
    exists c'. split; [done|].
    assert (ev_corridor (event_of pid s0 accounts ix) = ix_corridor ix) as Hev.
    { unfold event_of. rewrite Hcc. by destruct ix. }
    rewrite Hev. split_and!.
    + destruct Hs as [[_ ->]|Hs]; [done|by eapply gov_step_le].
    + destruct Hs as [[_ ->]|Hs]; [done|by eapply gov_step_inv].
    + intros x. destruct Hs as [[-> ->]|Hs]; [simpl; lia|by eapply gov_step_nonce].
    + intros x n. unfold event_of. rewrite Hcc. destruct ix; try done. by intros [= -> <-].
  - exists c. split_and!; try done; [by eapply env_config|simpl; lia].
Qed.

(** Sends of a corridor, in order: the nonces they carry. *)
Definition send_nonces (chain : Z) (evs : list gate_event) : list Z :=
  omap (fun e => match e with EvSend x n => if x =? chain then Some n else None | _ => None end) evs.

Lemma send_nonces_snoc chain evs e : send_nonces chain (evs ++ [e]) =
  send_nonces chain evs ++
  match e with EvSend x n => if x =? chain then [n] else [] | _ => [] end.
Proof.
  unfold send_nonces. rewrite omap_app. f_equal. destruct e as [| | |x n| | |]; try done. simpl.
  by destruct (x =? chain).
Qed.

(** Whatever happens in between, the sends of a corridor carry consecutive nonces
    from the stored one on: none is skipped, none is used twice, and the stored
    nonce ends just past the last. The configuration invariant and the immutable
    fields hold throughout. *)
Theorem send_nonces_consecutive s evs s' c chain :
  history pid s evs s' -> config_at pid (accts s) c ->
  exists c', config_at pid (accts s') c' /\ config_le c c' /\ (config_inv c -> config_inv c') /\
    send_nonces chain evs = seqZ (nonce c chain) (len (send_nonces chain evs)) /\
    nonce c' chain = nonce c chain + len (send_nonces chain evs).
Proof.
  intros Hh Hc. induction Hh as [s|s evs s1 e s2 _ IH Hs].
  - exists c. unfold len. simpl. split_and!; try done. lia.
  - destruct (IH Hc) as (c1 & Hc1 & Hle1 & Hi1 & Hseq & Hn).
    destruct (step_config _ _ _ _ Hs Hc1) as (c2 & Hc2 & Hle2 & Hi2 & Hn2 & Hev).
    exists c2. split_and!; [done|by transitivity c1|auto|..].
    + rewrite send_nonces_snoc. destruct e as [| | |x n| | |]; rewrite ?app_nil_r; try done.
      destruct (Z.eqb_spec x chain) as [->|]; rewrite ?app_nil_r; [|done].
      rewrite (Hev chain n), Hn by done. rewrite Hseq at 1. rewrite len_app.
      rewrite seqZ_app by (unfold len; lia). done.
    + rewrite Hn2, Hn, send_nonces_snoc, len_app. destruct e as [| | |x n| | |]; simpl; try (unfold len; simpl; lia).
      destruct (Z.eqb_spec x chain); case_bool_decide; simplify_eq; unfold len; simpl; lia.
Qed.
End Safety.

(** * The timelock over histories *)

Section Timelock.
Context {RT : Runtime} {RL : RuntimeLaws} {GB : GateBorsh} {GL : GateBorshLaws}.
Variable pid : pubkey.
Hypothesis pid_not_spl : pid <> spl_token_id.
Variable aid : hash32.

(** No other program-derived account of the gate shares the address of this
    action's schedule. *)
Definition gov_isolated : Prop :=
  config_account pid <> gov_account pid aid /\
  forall sd, gate_seeds sd -> sd <> gov_seeds aid ->
    fst (find_program_address sd pid) <> gov_account pid aid.
Hypothesis isolated : gov_isolated.

(** An approval not yet consumed or cancelled. *)
Definition approved (s : ledger) (g : GovernanceSchedule) : Prop :=
  schedule_at pid s aid = Some g /\ ready_at g <> 0.
(** No approval of the action appears between two ledgers. *)
Definition no_approval (s s' : ledger) : Prop := forall g, approved s' g -> approved s g.

Lemma schedule_live s g : schedule_at pid s aid = Some g -> live pid (accts s) (gov_account pid aid).
Proof.
  unfold schedule_at, live. destruct (bool_decide _ && _) eqn:Hb; [|done]. intros _. bool_inv.
  split; [done|]. intros E. rewrite E in *. unfold GOVERNANCE_LEN, len in *. simpl in *. lia.
Qed.
Lemma schedule_same s s' :
  acc_owner (acct (accts s') (gov_account pid aid)) = acc_owner (acct (accts s) (gov_account pid aid)) ->
  acc_data (acct (accts s') (gov_account pid aid)) = acc_data (acct (accts s) (gov_account pid aid)) ->
  schedule_at pid s' aid = schedule_at pid s aid.
Proof. unfold schedule_at. by intros -> ->. Qed.

Lemma no_approval_evolves s s' :
  evolves pid (fun k => k <> gov_account pid aid) (accts s) (accts s') -> no_approval s s'.
Proof.
  intros [L G S D] g [Hg Hr]. split; [|done]. pose proof (schedule_live _ _ Hg) as Hl'.
  destruct (decide (acc_owner (acct (accts s) (gov_account pid aid)) = pid /\
                    acc_data (acct (accts s) (gov_account pid aid)) <> [])) as [Hl|Hl].
  - destruct (S _ Hl) as [[]|E]; [done|]. rewrite <- Hg. symmetry. apply schedule_same; [|done].
    transitivity pid; [apply Hl'|symmetry; apply Hl].
  - destruct (D _ Hl) as [[]|Hd]; done.
Qed.

Definition spends {A} (p : prog A) : Prop := forall s a s', p s = Ok (a, s') -> no_approval s s'.
Lemma spends_keeps {A} (p : prog A) : keeps pid (fun k => k <> gov_account pid aid) p -> spends p.
Proof. intros Hp s a s' Hs. by eapply no_approval_evolves, Hp. Qed.
Lemma spends_bind {A B} (m : prog A) (f : A -> prog B) :
  spends m -> (forall s a s', m s = Ok (a, s') -> spends (f a)) -> spends (m ≫= f).
Proof.
  intros Hm Hf s b s' (a & s1 & H1 & H2)%prog_bind_Ok g Hg.
  eapply Hm; [done|]. by eapply Hf.
Qed.

Lemma other_gov id : id <> aid -> gov_account pid id <> gov_account pid aid.
Proof. intros Hne. apply isolated; [constructor|]. intros [= E]. by apply Hne, arr_eq. Qed.
Lemma spends_consume ai id : spends (consume_governance pid ai id).
Proof.
  destruct (decide (id = aid)) as [->|Hne]; [|by apply spends_keeps, keeps_consume_governance, other_gov].
  intros s u s' Hc g [Hg Hr]. exfalso. apply Hr.
  apply consume_governance_Ok in Hc as (Hk & (g0 & Hg0 & _) & Ha & _).
  pose proof (schedule_live _ _ Hg0) as [Ho _].
  assert (schedule_at pid s' aid = Some GovernanceSchedule_default) as E; [|by rewrite E in Hg; simplify_eq].
  unfold schedule_at in Hg0. destruct (bool_decide _ && _) eqn:Hb in Hg0; [|done]. bool_inv.
  rewrite Hk in Ha. pose proof (put_schedule_at pid s aid _ schedule_default_wf Ho ltac:(done) 0 []) as Hput.
  rewrite <- Hput. unfold schedule_at. by rewrite Ha.
Qed.

Create HintDb spends.
(** Everything but scheduling the action itself leaves no new approval. *)
Lemma isolated_config : config_account pid <> gov_account pid aid.
Proof. exact (proj1 isolated). Qed.
Lemma isolated_asset id : asset_account pid id <> gov_account pid aid.
Proof. by apply isolated; [constructor|]. Qed.
Lemma isolated_sent id : sent_account pid id <> gov_account pid aid.
Proof. by apply isolated; [constructor|]. Qed.
Lemma isolated_executed id : executed_account pid id <> gov_account pid aid.
Proof. by apply isolated; [constructor|]. Qed.
Lemma isolated_refunded id : refunded_account pid id <> gov_account pid aid.
Proof. by apply isolated; [constructor|]. Qed.
Lemma isolated_vault k : vault_binding_account pid k <> gov_account pid aid.
Proof. by apply isolated; [constructor|]. Qed.
Hint Resolve isolated_config isolated_asset isolated_sent isolated_executed isolated_refunded
  isolated_vault spends_consume : spends.

Ltac spends_step :=
  lazymatch goal with
  | |- spends (mbind _ _) =>
      apply spends_bind; [| let s := fresh "s" in let a := fresh "v" in let s' := fresh "s'" in
                            let H := fresh "Hrun" in intros s a s' H; cbn beta iota]
  | |- spends (let '(_, _) := ?p in _) => let E := fresh "E" in destruct p eqn:E
  | |- spends (if ?b then _ else _) => let E := fresh "E" in destruct b eqn:E
  | |- spends (match ?x with _ => _ end) => let E := fresh "E" in destruct x eqn:E
  end.
Ltac spends_handler :=
  repeat (first [solve [auto with spends nocore] | solve [apply spends_keeps; eauto with keeps nocore]
                | spends_step | progress cbv zeta]);
  key_checks; pda_facts; cbn [ai_key]; apply spends_keeps; eauto with keeps spends.

Lemma spends_set_guardian accounts g : spends (process_set_guardian pid accounts g).
Proof. unfold process_set_guardian. spends_handler. Qed.
Lemma spends_set_validator accounts v b : spends (process_set_validator pid accounts v b).
Proof. unfold process_set_validator. spends_handler. Qed.
Lemma spends_set_threshold accounts t : spends (process_set_threshold pid accounts t).
Proof. unfold process_set_threshold. spends_handler. Qed.
Lemma spends_register_asset accounts d b : spends (process_register_asset pid accounts d b).
Proof. unfold process_register_asset. spends_handler. Qed.

(** A successful [ScheduleAction] is a write of the schedule it names, signed by
    the owner. *)
Lemma schedule_action_writes accounts act s u s' :
  process_schedule_action pid accounts act s = Ok (u, s') ->
  exists c owner ai sys r s1, config_at pid (accts s) c /\ signed accounts (cfg_owner c) /\
    write_schedule pid owner ai sys (scheduled_id accounts act) s = Ok (r, s1) /\
    accts s' = accts s1 /\ clock s' = clock s1.
Proof.
  unfold process_schedule_action. intros Hp. prog_inv Hp. gate_facts. bool_inv.
  match goal with H : (match act with _ => _ end) _ = Ok (?p, _, ?s1) |- context [signed ?l _] =>
    assert (s1 = s /\ p = scheduled_id l act) as [-> ->]; [|clear H] end.
  { destruct act; prog_inv_all; simplify_eq; try done.
    match goal with H : check_asset_accounts _ _ _ _ _ _ = Ok _ |- _ => apply check_asset_accounts_Ok in H as [-> _] end.
    done. }
  do 6 eexists. split_and!; [done| |done..]. eapply signed_intro; eauto. set_solver.
Qed.

Lemma cancel_scheduled_clears accounts s u s' g :
  process_cancel_scheduled_governance pid accounts aid s = Ok (u, s') -> ~ approved s' g.
Proof.
  unfold process_cancel_scheduled_governance, approved. intros Hp [Hg Hr]. prog_inv Hp; gate_facts.
  - unfold schedule_at in Hg. bool_inv. pda_facts. cbn [ai_key] in *. fold (gov_account pid aid) in *.
    match goal with H : _ || (_ <? _) = true |- _ => apply orb_true_iff in H as [H|H]; bool_inv end.
    + rewrite bool_decide_eq_false_2 in Hg by done. done.
    + rewrite (proj2 (Z.leb_gt _ _)), andb_false_r in Hg by done. done.
  - bool_inv. pda_facts. cbn [ai_key] in *. fold (gov_account pid aid) in *.
    pose proof (put_schedule_at pid s aid _ schedule_default_wf ltac:(done) ltac:(done)) as Hput.
    unfold put_schedule in Hput. rewrite Hput in Hg. by injection Hg as <-.
Qed.

Lemma spends_other_schedule accounts act : scheduled_id accounts act <> aid ->
  spends (process_schedule_action pid accounts act).
Proof.
  intros Hne s u s' Hp.
  apply schedule_action_writes in Hp as (c & ow & ai & sys & r & s1 & _ & _ & Hw & Ha & _).
  apply no_approval_evolves. rewrite Ha.
  by eapply keeps_write_schedule; [|exact Hw]; apply other_gov.
Qed.

(** Any instruction but the one that schedules this action. *)
Lemma spends_program accounts data ix s s' :
  ix_try_from_slice data = Some ix ->
  (forall a, ix = ScheduleAction a -> scheduled_id accounts a <> aid) ->
  process_instruction pid accounts data s = Ok (tt, s') -> no_approval s s'.
Proof.
  intros Hix Hsched Hp. unfold process_instruction in Hp. rewrite Hix in Hp.
  apply prog_bind_Ok in Hp as (ix' & s1 & [Hl ->]%lift_Ok & Hp). injection Hl as <-.
  destruct ix; simpl in Hp; try (revert Hp; apply spends_keeps; auto using keeps_init, keeps_send, keeps_claim,
    keeps_register_corridor, keeps_set_paused, keeps_cancel, keeps_refund, keeps_fail, keeps_seal
    with spends; fail).
  - by eapply spends_set_validator.
  - by eapply spends_set_threshold.
  - by eapply spends_register_asset.
  - by eapply spends_set_guardian.
  - destruct (decide (action_id = aid)) as [->|Hne].
    + intros g Hg. by apply (cancel_scheduled_clears _ _ _ _ g) in Hp.
    + revert Hp. apply spends_keeps, keeps_cancel_scheduled, other_gov, Hne.
  - revert Hp. apply spends_other_schedule. by apply Hsched.
Qed.

(** A [ScheduleAction] of this action ran, with the signature of the owner that the
    configuration names. *)
Definition owner_scheduled (s s' : ledger) : Prop :=
  exists accounts act c, process_schedule_action pid accounts act s = Ok (tt, s') /\ scheduled_id accounts act = aid /\
    config_at pid (accts s) c /\ signed accounts (cfg_owner c).

(** One step: an approval it leaves for the action was there before and was not
    cancelled, or the owner scheduled the action just now. *)
Lemma step_approval s e s' g : gate_step pid s e s' -> approved s' g ->
  (approved s g /\ e <> EvUnschedule aid) \/
  (e = EvSchedule aid (clock s) /\ ready_at g = clock s + GOVERNANCE_DELAY /\ owner_scheduled s s').
Proof.
  intros [s0 accounts data ix s0' Hclk Hix Hp|s0 s0' [He _]] Hg.
  - destruct ix as [| | | | | | | | | | | | |aid'| |act]; [left..|].
    all: try (split; [by eapply spends_program; [..|exact Hg]|unfold event_of; by destruct (current_config _ _)]).
    + split; [by eapply spends_program; [..|exact Hg]|].
      unfold event_of. intros E. assert (aid' = aid) as -> by (destruct (current_config _ _); congruence).
      rewrite (process_instruction_decoded _ _ _ _ _ Hix) in Hp. simpl in Hp.
      by eapply cancel_scheduled_clears.
    + destruct (decide (scheduled_id accounts act = aid)) as [Hid|Hne].
      * right. unfold event_of. rewrite Hid. split; [by destruct (current_config _ _)|].
        rewrite (process_instruction_decoded _ _ _ _ _ Hix) in Hp. simpl in Hp.
        pose proof Hp as Hrun. apply schedule_action_writes in Hp as (c & ow & ai & sys & r & s1 & Hc & Hsg & Hw & Ha & _).
        apply write_schedule_Ok in Hw as (_ & -> & _ & Hs & _). rewrite Hid in Hs.
        destruct Hg as [Hg _]. unfold schedule_at in *. rewrite Ha, Hs in Hg. injection Hg as <-.
        split; [done|]. by exists accounts, act, c.
      * left. split; [|unfold event_of; by destruct (current_config _ _)].
        eapply spends_program; [done| |done|done]. by intros a [= ->].
  - left. split; [|done]. eapply no_approval_evolves; [|done].
    eapply evolves_weaken; [done|]. intros k Hk. apply Hk.
Qed.

(** C20. The 48-hour rule. Start from a ledger with no approval of an action, and let
    any history follow. If the approval is ever spendable, then the history contains a
    successful [ScheduleAction] for exactly that action, carrying the signature of the
    owner in the configuration of that moment, at a cluster time at least
    [GOVERNANCE_DELAY] earlier and at most the grace window after that, and no
    cancellation of the action came after it: scheduling cannot be skipped, shortened,
    revived or done by anyone else. *)
Theorem timelock_48h s evs s' :
  (forall g, ~ approved s g) -> history pid s evs s' -> matured pid s' aid ->
  exists pre post s1 s2, evs = pre ++ EvSchedule aid (clock s1) :: post /\ EvUnschedule aid ∉ post /\
    history pid s pre s1 /\ owner_scheduled s1 s2 /\ history pid s2 post s' /\
    clock s1 + GOVERNANCE_DELAY <= clock s' <= i_saturating_add 64 (clock s1 + GOVERNANCE_DELAY) GOVERNANCE_GRACE.
Proof.
  intros H0 Hh (g & Hg & Hr & Hw).
  assert (exists pre post s1 s2, evs = pre ++ EvSchedule aid (clock s1) :: post /\ EvUnschedule aid ∉ post /\
    history pid s pre s1 /\ owner_scheduled s1 s2 /\ history pid s2 post s' /\
    ready_at g = clock s1 + GOVERNANCE_DELAY) as (pre & post & s1 & s2 & -> & Hp & Hpre & Ho & Hpost & Et).
  { assert (approved s' g) as Ha by done. clear Hg Hr Hw. revert Ha.
    induction Hh as [s|s evs s1 e s2 Hh IH Hs]; intros Ha; [by apply H0 in Ha|].
    destruct (step_approval _ _ _ _ Hs Ha) as [[Ha1 Hne]|(-> & Hr & Ho)].
    - destruct (IH H0 Ha1) as (pre & post & t1 & t2 & -> & Hp & Hpre & Ho & Hpost & Et).
      exists pre, (post ++ [e]), t1, t2. rewrite <- app_assoc. split_and!; try done; [set_solver|by econstructor].
    - exists evs, [], s1, s2. split_and!; try done; [set_solver|constructor]. }
  exists pre, post, s1, s2. rewrite <- Et. done.
Qed.
End Timelock.
