(* ===== verification/Origin.v ===== *)
(** Does the gate really stand behind an event? The source scanner's decision to sign
    (solana-relayer source.rs [handle], [process_line]; bridge-solana relayer.rs
    [verify_sent_record]) against the histories of the gate program: whatever it
    signs was locked by a [send] of that history and not refunded since, and every
    send it sees can be signed. *)

From S2P Require Import Prelude.
From S2P Require Import Text.
From S2P Require Import SolanaRuntime.
From S2P Require Import GateTypes.
From S2P Require Import GateState.
From S2P Require Import GateVerify.
From S2P Require Import GateTransfers.
From S2P Require Import LogScan.
From S2P Require Import HostRecord.
From S2P Require Import GateGov.
From S2P Require Import GateAdmin.
From S2P Require Import GateAssets.
From S2P Require Import GateProgram.
From S2P Require Import GateSafety.
From S2P Require GateHash.
From S2P Require HostHash.

(** * The origin proof (bridge-solana relayer.rs) *)

Definition LEGACY_SENT_RECORD_LEN : Z := SENT_RECORD_LEN - 8.

Inductive SentRecordError :=
  | RecordMissing
  | RecordNotProgramOwned
  | RecordBadLength (n : Z)
  | RecordMalformed
  | RecordRetired
  | RecordMismatch (field : string)
  | BadBridgeUnit.

Section OriginProof.
Context {GB : GateBorsh}.

(** [try_from_slice] of the fixed-size record: both lengths leave nothing over. *)
Definition host_decode_sent_record (data : list byte) : option SentRecord :=
  if len data =? SENT_RECORD_LEN then borsh_de data
  else if len data =? LEGACY_SENT_RECORD_LEN then borsh_de (data ++ zeros 8)
  else None.

Definition record_retired (r : SentRecord) : bool :=
  (sr_amount r =? 0) && bool_decide (sr_debridge_id r = arr_zero 32).

Definition verify_sent_record (account : option (bool * list byte)) (event : SentEvent) (bridge_unit : Z)
    : result SentRecordError SentRecord :=
  _ ← require (negb (bridge_unit =? 0)) BadBridgeUnit;
  '(owner_is_program, data) ← ok_or account RecordMissing;
  _ ← require owner_is_program RecordNotProgramOwned;
  _ ← require (negb (bool_decide (data = []))) RecordMissing;
  _ ← require ((len data =? SENT_RECORD_LEN) || (len data =? LEGACY_SENT_RECORD_LEN)) (RecordBadLength (len data));
  record ← ok_or (host_decode_sent_record data) RecordMalformed;
  _ ← require (negb (record_retired record)) RecordRetired;
  _ ← require (bool_decide (sr_debridge_id record = se_debridge_id event)) (RecordMismatch "debridge_id");
  expected_local ← ok_or (checked_mul 64 (se_amount event) bridge_unit) (RecordMismatch "amount");
  _ ← require (sr_amount record =? expected_local) (RecordMismatch "amount");
  _ ← require (bool_decide (sr_mint record = se_mint event)) (RecordMismatch "mint");
  Ok record.
End OriginProof.

(** * The allowlist (solana-relayer store.rs) *)

Record Allowlist := MkAllowlist { al_debridge_ids : gset text; al_chains : gset (Z * Z) }.
Definition allowlist_from_parts (tokens : list text) (chains : list (Z * Z)) : Allowlist :=
  MkAllowlist (list_to_set (map to_ascii_lowercase tokens)) (list_to_set chains).
Definition token_allowed (a : Allowlist) (debridge_id : text) : bool :=
  bool_decide (al_debridge_ids a = ∅) || bool_decide (to_ascii_lowercase debridge_id ∈ al_debridge_ids a).
Definition chain_allowed (a : Allowlist) (from to : Z) : bool :=
  bool_decide (al_chains a = ∅) || bool_decide ((from, to) ∈ al_chains a).
Definition allowlist_permits (allowlist : option Allowlist) (debridge_id : text) (chain_from chain_to : Z) : bool :=
  match allowlist with
  | None => true
  | Some a => token_allowed a debridge_id && chain_allowed a chain_from chain_to
  end.

(** * The scanner's decision (source.rs) *)

(** What the scanner reads while it handles one event. [Err] is an answer that did
    not arrive. *)
Inductive store_answer := StoreOk | StoreRejected (status : Z) | StoreUnreachable.
Record reads := MkReads {
  rd_account : pubkey -> result unit (option account);
  rd_evm_gate : Z -> option (hash32 -> result unit (option Z));
  rd_allowlist : option Allowlist;
  rd_upsert : SubmissionRecord -> store_answer;
}.

(** [StoreRejected::is_permanent] *)
Definition is_permanent (status : Z) : bool :=
  (status =? 400) || (status =? 409) || (status =? 413) || (status =? 422).

(** [tick]'s outcome for one event: [Ok true] signed, [Ok false] withheld. *)
Inductive HandleError :=
  | HandleRefused (why : Refusal)
  | HandleTransient
  | PermanentRejection.

Record ScannerConfig := MkScannerConfig {
  sc_program_id : pubkey;
  sc_bridge_domain : hash32;
  sc_chain_id : Z;
  sc_signer_address : text;
}.

(** [(chain_id_to, debridge_id) -> destination scale] *)
Abbreviation scale_cache := (gmap (Z * hash32) Z).

Section Scanner.
Context {RT : Runtime} {GB : GateBorsh} {HX : HexCodec} {SK : HostSigner}.
Variable cfg : ScannerConfig.

Definition retry {A} (r : result unit A) : result HandleError A := map_err (fun _ => HandleTransient) r.

Definition asset_for (rd : reads) (debridge_id : hash32) : result HandleError (option AssetConfig) :=
  account ← retry (rd_account rd (asset_account (sc_program_id cfg) debridge_id));
  Ok (a ← account; if negb (bool_decide (acc_owner a = sc_program_id cfg)) then None else borsh_de (acc_data a)).

Definition origin_proof_holds (rd : reads) (event : SentEvent) (sent : Sent) (asset : AssetConfig)
    : result HandleError bool :=
  account ← retry (rd_account rd (sent_account (sc_program_id cfg) (st_submission_id sent)));
  let view := (fun a => (bool_decide (acc_owner a = sc_program_id cfg), acc_data a)) <$> account in
  match HostHash.asset_account_unit asset with
  | None => Ok false
  | Some bridge_unit =>
      Ok (match verify_sent_record view event bridge_unit with Ok _ => true | Err _ => false end)
  end.

Definition scale_agrees (rd : reads) (cache : scale_cache) (sent : Sent) (asset : AssetConfig)
    : result HandleError bool * scale_cache :=
  match rd_evm_gate rd (st_chain_id_to sent) with
  | None => (Ok false, cache)
  | Some reader =>
      let key := (st_chain_id_to sent, st_debridge_id sent) in
      match cache !! key with
      | Some d => (Ok (d =? as_bridge_decimals asset), cache)
      | None =>
          match reader (st_debridge_id sent) with
          | Ok (Some d) => (Ok (d =? as_bridge_decimals asset), <[key := d]> cache)
          | Ok None => (Ok false, cache)
          | Err _ => (Err HandleTransient, cache)
          end
      end
  end.

Definition handle (rd : reads) (cache : scale_cache) (event : SentEvent) (sent : Sent)
    : result HandleError (option SubmissionRecord) * scale_cache :=
  match signable sent (sc_bridge_domain cfg) (sc_chain_id cfg) with
  | Err why => (Err (HandleRefused why), cache)
  | Ok _ =>
      match asset_for rd (se_debridge_id event) with
      | Err e => (Err e, cache)
      | Ok None => (Ok None, cache)
      | Ok (Some asset) =>
          match origin_proof_holds rd event sent asset with
          | Err e => (Err e, cache)
          | Ok false => (Ok None, cache)
          | Ok true =>
              match scale_agrees rd cache sent asset with
              | (Err e, cache) => (Err e, cache)
              | (Ok false, cache) => (Ok None, cache)
              | (Ok true, cache) =>
                  if negb (allowlist_permits (rd_allowlist rd) (hex0x (arr_bytes (st_debridge_id sent)))
                             (st_chain_id_from sent) (st_chain_id_to sent))
                  then (Ok None, cache)
                  else
                    let record := signed_record (sc_signer_address cfg) (sc_bridge_domain cfg) sent in
                    match rd_upsert rd record with
                    | StoreOk => (Ok (Some record), cache)
                    | StoreRejected status =>
                        (Err (if is_permanent status then PermanentRejection else HandleTransient), cache)
                    | StoreUnreachable => (Err HandleTransient, cache)
                    end
              end
          end
      end
  end.
End Scanner.

(** * Sends in the history of the gate *)

Section SentHistory.
Context {RT : Runtime} {RL : RuntimeLaws} {GB : GateBorsh} {GL : GateBorshLaws}.
Variable pid : pubkey.
Hypothesis pid_not_spl : pid <> spl_token_id.
Variable id : hash32.

(** No other program-derived account of the gate shares the address of this
    transfer's record. *)
Definition sent_isolated : Prop :=
  config_account pid <> sent_account pid id /\
  forall sd, gate_seeds sd -> sd <> sent_seeds id -> fst (find_program_address sd pid) <> sent_account pid id.
Hypothesis isolated : sent_isolated.

Abbreviation sent_key := (sent_account pid id).
Definition other (k : pubkey) : Prop := k <> sent_key.

Lemma other_config : other (config_account pid).
Proof. exact (proj1 isolated). Qed.
Lemma other_asset i : other (asset_account pid i).
Proof. by apply isolated; [constructor|]. Qed.
Lemma other_executed i : other (executed_account pid i).
Proof. by apply isolated; [constructor|]. Qed.
Lemma other_refunded i : other (refunded_account pid i).
Proof. by apply isolated; [constructor|]. Qed.
Lemma other_vault k : other (vault_binding_account pid k).
Proof. by apply isolated; [constructor|]. Qed.
Lemma other_gov_account i : other (gov_account pid i).
Proof. by apply isolated; [constructor|]. Qed.
Lemma other_sent i : i <> id -> other (sent_account pid i).
Proof. intros Hne. apply isolated; [constructor|]. intros [= E]. by apply Hne, arr_eq. Qed.
#[local] Hint Resolve other_config other_asset other_executed other_refunded other_vault other_gov_account : core.

(** A transaction that recorded a send under this id, and what it recorded. *)
Definition recorded_send (s s' : ledger) (e : gate_event) (r : SentRecord) : Prop :=
  exists args c c' a wire payer user,
    send_effect pid args s s' c c' a wire payer user /\ send_id c a args wire payer = id /\
    e = EvSend (sa_chain_id_to args) (nonce c (sa_chain_id_to args)) /\ SendArgs_wf args /\ is_i 64 (clock s) /\
    r = MkSentRecord (sa_debridge_id args) payer user (as_mint a) (sa_amount args) (clock s).
(** A transaction that paid it back and wiped the record. *)
Definition wiped_record (s s' : ledger) : Prop :=
  acc_owner (acct (accts s) sent_key) = pid /\ acc_data (acct (accts s) sent_key) <> [] /\
  acc_owner (acct (accts s') sent_key) = pid /\
  acc_data (acct (accts s') sent_key) = zeros (length (acc_data (acct (accts s) sent_key))).

Lemma sent_step s e s' : gate_step pid s e s' ->
  (evolves pid other (accts s) (accts s') /\ is_refund id e = false) \/
  (exists r, recorded_send s s' e r) \/ (wiped_record s s' /\ is_refund id e = true).
Proof.
  intros [s0 accounts data ix s0' Hclk Hix Hp|s0 s0' He].
  - pose proof (ix_try_wf _ _ Hix) as Hwf. rewrite (process_instruction_decoded _ _ _ _ _ Hix) in Hp.
    destruct ix; simpl in Hp, Hwf.
    2: { pose proof Hp as Hk. apply process_send_Ok in Hp as (c & c' & a & w & p & u & He);
           [|done|apply Hwf|done].
         destruct (decide (send_id c a args w p = id)) as [Hid|Hne].
         - right. left. eexists. do 7 eexists. split_and!; [exact He|done| |done..].
           unfold event_of. by rewrite (proj2 (current_config_Some _ _ _) (sd_config _ _ _ _ _ _ _ _ _ _ He)).
         - left. split; [|unfold event_of; by destruct (current_config _ _)].
           eapply evolves_weaken; [apply (sd_frame _ _ _ _ _ _ _ _ _ _ He)|].
           intros k [->| ->]; [done|by apply other_sent]. }
    11: { apply process_refund_Ok in Hp as (c & a & r & He); [|done].
          assert (event_of pid s0 accounts (Refund args) = EvRefund (refund_sub_id c args)) as ->.
          { unfold event_of. by rewrite (proj2 (current_config_Some _ _ _) (re_config _ _ _ _ _ _ _ He)). }
          destruct (decide (refund_sub_id c args = id)) as [Hid|Hne].
          - right. right. simpl. rewrite bool_decide_eq_true_2 by done. split; [|done].
            pose proof (re_sent _ _ _ _ _ _ _ He) as (Ho & Hd & _). pose proof (re_wiped _ _ _ _ _ _ _ He) as Hw.
            rewrite Hid in *. split_and!; [done..| |done].
            apply (ev_live _ _ _ _ (re_frame _ _ _ _ _ _ _ He)). by split.
          - left. simpl. rewrite bool_decide_eq_false_2 by done. split; [|done].
            eapply evolves_weaken; [apply (re_frame _ _ _ _ _ _ _ He)|].
            intros k [->| ->]; [done|by apply other_sent]. }
    all: left; split; [|unfold event_of; by destruct (current_config _ _)].
    all: revert Hp; lazymatch goal with
      | |- context [process_init] => apply keeps_init
      | |- context [process_claim] => apply keeps_claim
      | |- context [process_set_validator] => apply keeps_set_validator
      | |- context [process_set_threshold] => apply keeps_set_threshold
      | |- context [process_register_asset] => apply keeps_register_asset
      | |- context [process_register_corridor] => apply keeps_register_corridor
      | |- context [process_set_paused] => apply keeps_set_paused
      | |- context [process_set_guardian] => apply keeps_set_guardian
      | |- context [process_cancel] => apply keeps_cancel
      | |- context [process_cancel_scheduled_governance] => apply keeps_cancel_scheduled
      | |- context [process_seal] => apply keeps_seal
      | |- context [process_schedule_action] => apply keeps_schedule
      | |- _ => apply keeps_fail
      end; auto.
  - left. split; [|done]. eapply evolves_weaken; [apply (env_pda _ _ _ He)|]. intros k Hk. apply Hk.
Qed.

Definition zero_record : SentRecord :=
  MkSentRecord (arr_zero 32) (arr_zero 32) (arr_zero 32) (arr_zero 32) 0 0.

(** The life of a record: absent, held as the send wrote it, wiped by a refund. *)
Definition holds (m : gmap pubkey account) (r : SentRecord) : Prop :=
  acc_owner (acct m sent_key) = pid /\ acc_data (acct m sent_key) = borsh_ser r.
Definition wiped (m : gmap pubkey account) : Prop :=
  acc_owner (acct m sent_key) = pid /\ acc_data (acct m sent_key) = zeros (Z.to_nat SENT_RECORD_LEN).

Lemma evolves_holds m m' d : evolves pid other m m' -> d <> [] ->
  acc_owner (acct m sent_key) = pid -> acc_data (acct m sent_key) = d ->
  acc_owner (acct m' sent_key) = pid /\ acc_data (acct m' sent_key) = d.
Proof.
  intros [L G S D] Hd Ho Hdd. assert (live pid m sent_key) as Hl by (split; congruence).
  split; [apply L, Hl|]. destruct (S _ Hl) as [[]|E]; congruence.
Qed.
Lemma record_length r : SentRecord_wf r -> length (borsh_ser r) = Z.to_nat SENT_RECORD_LEN.
Proof. intros Hwf. pose proof (borsh_size r Hwf) as H. unfold len in H. lia. Qed.
Lemma record_not_empty r : SentRecord_wf r -> borsh_ser r <> [].
Proof. intros Hwf E. pose proof (record_length r Hwf) as H. by rewrite E in H. Qed.
Lemma recorded_send_wf s s' e r : recorded_send s s' e r -> SentRecord_wf r.
Proof. intros (args & c & c' & a & w & p & u & _ & _ & _ & [Ha _] & Hc & ->). by split. Qed.
Lemma recorded_send_holds s s' e r : recorded_send s s' e r ->
  acc_data (acct (accts s) sent_key) = [] /\ holds (accts s') r.
Proof.
  intros (args & c & c' & a & w & p & u & He & Hid & _ & _ & _ & ->).
  pose proof (sd_fresh _ _ _ _ _ _ _ _ _ _ He) as Hf. pose proof (sd_record _ _ _ _ _ _ _ _ _ _ He) as [Ho _].
  pose proof (sd_stored _ _ _ _ _ _ _ _ _ _ He) as Hst. rewrite Hid in Hf, Ho, Hst. by split_and!.
Qed.

(** The record's whole life, read off the history. *)
Lemma sent_life s0 evs s' : ~ live pid (accts s0) sent_key -> history pid s0 evs s' ->
  ~ live pid (accts s') sent_key \/
  exists pre e post s1 s2 r, evs = pre ++ e :: post /\ history pid s0 pre s1 /\ history pid s2 post s' /\
    gate_step pid s1 e s2 /\ recorded_send s1 s2 e r /\
    ((holds (accts s') r /\ count (is_refund id) post = 0%nat) \/ wiped (accts s')).
Proof.
  intros H0 Hh. induction Hh as [s|s evs s1 e s2 Hh IH Hs]; [by left|]. specialize (IH H0).
  destruct IH as [Hd|(pre & e1 & post & t1 & t2 & r & -> & Hpre & Hpost & Hst & Hr & Hcase)].
  - destruct (sent_step _ _ _ Hs) as [[He _]|[(r & Hr)|[(Ho & Hne & _) _]]].
    + left. destruct He as [L G S D]. by destruct (D _ Hd) as [[]|].
    + right. exists evs, e, [], s1, s2, r. split_and!; [done|done|constructor|done|done|].
      left. split; [apply (recorded_send_holds _ _ _ _ Hr)|done].
    + exfalso. by apply Hd.
  - right. exists pre, e1, (post ++ [e]), t1, t2, r. rewrite <- app_assoc.
    split_and!; [done|done|by econstructor|done|done|].
    assert (borsh_ser r <> []) as Hnn by (by eapply record_not_empty, recorded_send_wf).
    assert (zeros (Z.to_nat SENT_RECORD_LEN) <> []) as Hnz by (by intros E%(f_equal length)).
    destruct Hcase as [[[Ho Hd] Hc]|[Ho Hd]]; destruct (sent_step _ _ _ Hs) as [[He Hf]|[(r' & Hr')|[(_ & _ & Ho' & Hw) Hf]]].
    + left. split; [by eapply evolves_holds|]. by rewrite count_snoc, Hc, Hf.
    + exfalso. apply recorded_send_holds in Hr' as [E _]. congruence.
    + right. split; [done|]. rewrite Hw, Hd. f_equal. by eapply record_length, recorded_send_wf.
    + right. by eapply evolves_holds.
    + exfalso. apply recorded_send_holds in Hr' as [E _]. congruence.
    + right. split; [done|]. by rewrite Hw, Hd, length_zeros.
Qed.
End SentHistory.

(** * What is signed was sent, and what is sent can be signed *)

Section Genuine.
Context {RT : Runtime} {RL : RuntimeLaws} {GB : GateBorsh} {GL : GateBorshLaws}.

Lemma host_decode_ser r : SentRecord_wf r -> host_decode_sent_record (borsh_ser r) = Some r.
Proof.
  intros Hwf. unfold host_decode_sent_record. rewrite (borsh_size r Hwf), Z.eqb_refl.
  rewrite <- (app_nil_r (borsh_ser r)). by apply borsh_roundtrip.
Qed.

Lemma verify_sent_record_Ok account e u r : verify_sent_record account e u = Ok r ->
  u <> 0 /\ exists d, account = Some (true, d) /\ d <> [] /\ host_decode_sent_record d = Some r /\
    record_retired r = false /\ sr_debridge_id r = se_debridge_id e /\ sr_mint r = se_mint e /\
    sr_amount r = se_amount e * u.
Proof.
  unfold verify_sent_record. intros H.
  apply result_bind_Ok in H as (? & Hu%require_Ok & H).
  apply result_bind_Ok in H as ([o d] & Ha%ok_or_Ok & H).
  apply result_bind_Ok in H as (? & Ho%require_Ok & H).
  apply result_bind_Ok in H as (? & Hd%require_Ok & H).
  apply result_bind_Ok in H as (? & _ & H).
  apply result_bind_Ok in H as (r' & Hr%ok_or_Ok & H).
  apply result_bind_Ok in H as (? & Hret%require_Ok & H).
  apply result_bind_Ok in H as (? & Hid%require_Ok & H).
  apply result_bind_Ok in H as (expected & Hx%ok_or_Ok & H).
  apply result_bind_Ok in H as (? & Hamt%require_Ok & H).
  apply result_bind_Ok in H as (? & Hm%require_Ok & [= <-]). bool_inv.
  apply u_checked_Some in Hx as [-> _]. subst o. split; [done|]. by exists d.
Qed.

(** The send behind a record, as the validators see it. *)
Definition send_transfer (c : Config) (a : AssetConfig) (args : SendArgs) (wire : Z) (payer : pubkey)
    : GateHash.transfer :=
  GateHash.Transfer (cfg_bridge_domain c) (sa_debridge_id args) (as_bridge_decimals a) wire (cfg_chain_id c)
    (sa_chain_id_to args) (nonce c (sa_chain_id_to args)) (sa_receiver args) (sa_auto args) (arr_bytes payer).
Definition event_transfer (domain : hash32) (e : SentEvent) : GateHash.transfer :=
  GateHash.Transfer domain (se_debridge_id e) (se_bridge_decimals e) (se_amount e) (se_chain_id_from e)
    (se_chain_id_to e) (se_nonce e) (se_receiver e) (se_auto e) (se_native_sender e).

Lemma recompute_event e sent domain : is_u 64 (se_amount e) -> to_sent e = Some sent ->
  recompute sent domain = GateHash.transfer_id (event_transfer domain e) /\
  st_submission_id sent = se_submission_id e /\ st_chain_id_from sent = se_chain_id_from e.
Proof.
  intros Ha Hs. unfold to_sent in Hs. destruct (negb _); [done|]. injection Hs as <-.
  split; [|done]. unfold recompute. cbn [st_auto st_amount]. by rewrite id_of_fields_gate.
Qed.

Lemma nonce_range c x : Config_wf c -> is_u 64 (nonce c x).
Proof.
  intros (_ & _ & _ & _ & _ & _ & Hf & _). unfold nonce.
  destruct (List.find _ _) as [en|] eqn:E; [|by vm_compute].
  apply find_some in E as [Hin _]. rewrite Forall_forall in Hf. apply list_elem_of_In in Hin. by apply (Hf _ Hin).
Qed.
Lemma wire_range a x w : AssetConfig_wf a -> is_u 64 x -> x = w * 10 ^ (as_local_decimals a - as_bridge_decimals a) ->
  to_wire a x = Ok w -> is_u 64 w.
Proof.
  intros Hwf Hx _ Hw. unfold to_wire in Hw. apply result_bind_Ok in Hw as (u & Hu & Hw).
  unfold unit_of in Hu. apply ok_or_Ok in Hu. destruct Hwf as [Hb Hl].
  apply bridge_unit_pos in Hu; [|done..]. apply result_bind_Ok in Hw as (? & _ & [= <-]).
  unfold is_u in *. split; [apply Z.div_pos; lia|]. pose proof (Z.div_le_upper_bound x u x ltac:(lia)). nia.
Qed.
End Genuine.

Section Decision.
Context {RT : Runtime} {RL : RuntimeLaws} {GB : GateBorsh} {GL : GateBorshLaws}.
Context {HX : HexCodec} {SK : HostSigner}.
Variable cfg : ScannerConfig.
Abbreviation pid := (sc_program_id cfg).
Hypothesis pid_not_spl : pid <> spl_token_id.
(** An all-zero record is what zeroing leaves. *)
Hypothesis zero_record_ser : borsh_ser zero_record = zeros (Z.to_nat SENT_RECORD_LEN).

Lemma zero_record_wf : SentRecord_wf zero_record.
Proof. split; apply (bool_decide_unpack _); vm_compute; exact I. Qed.
Lemma zero_record_retired : record_retired zero_record = true.
Proof. unfold record_retired, zero_record. cbn [sr_amount sr_debridge_id]. by rewrite bool_decide_eq_true_2. Qed.

Lemma handle_signed rd cache e sent rec cache' : handle cfg rd cache e sent = (Ok (Some rec), cache') ->
  signable sent (sc_bridge_domain cfg) (sc_chain_id cfg) = Ok tt /\
  rec = signed_record (sc_signer_address cfg) (sc_bridge_domain cfg) sent /\ rd_upsert rd rec = StoreOk /\
  allowlist_permits (rd_allowlist rd) (hex0x (arr_bytes (st_debridge_id sent))) (st_chain_id_from sent)
    (st_chain_id_to sent) = true /\
  exists asset account bridge_unit r, asset_for cfg rd (se_debridge_id e) = Ok (Some asset) /\
    HostHash.asset_account_unit asset = Some bridge_unit /\
    rd_account rd (sent_account pid (st_submission_id sent)) = Ok account /\
    verify_sent_record ((fun a => (bool_decide (acc_owner a = pid), acc_data a)) <$> account) e bridge_unit = Ok r.
Proof.
  unfold handle, origin_proof_holds, retry. intros H.
  destruct (signable _ _ _) as [[]|]; [|done]. split; [done|].
  destruct (asset_for _ _ _) as [[asset|]|]; [|done..].
  destruct (rd_account _ _) as [account|]; [|done]. cbn [map_err mbind result_bind] in H.
  destruct (HostHash.asset_account_unit asset) as [u|] eqn:Hu; [|done].
  destruct (verify_sent_record _ _ _) as [r|] eqn:Hr; [|done].
  destruct (scale_agrees _ _ _ _) as [[[]|] c1]; [|done..].
  destruct (allowlist_permits _ _ _ _); [|done]. cbn [negb] in H.
  destruct (rd_upsert _ _) eqn:Hup; [|done..]. injection H as <- _. split_and!; [reflexivity|exact Hup|reflexivity|].
  exists asset, account, u, r. by split_and!.
Qed.

Lemma send_transfer_wf c a args wire payer m : config_at pid m c -> asset_at pid m (sa_debridge_id args) a ->
  SendArgs_wf args -> sa_amount args = wire * 10 ^ (as_local_decimals a - as_bridge_decimals a) ->
  to_wire a (sa_amount args) = Ok wire -> len (sa_receiver args) = 20 \/ len (sa_receiver args) = 32 ->
  GateHash.transfer_wf (send_transfer c a args wire payer).
Proof.
  intros Hc Ha (Hamt & Hch & Hau) Hw Htw Hr. pose proof (config_at_wf _ _ _ Hc) as Hcw.
  pose proof (asset_at_wf _ _ _ _ Ha) as Haw.
  refine (conj _ (conj _ (conj _ (conj _ (conj _ (conj _ _)))))); simpl.
  - apply Haw.
  - eapply wire_range; [exact Haw|exact Hamt|exact Hw|exact Htw].
  - apply Hcw.
  - done.
  - by apply nonce_range.
  - unfold len in Hr. lia.
  - intros w E. unfold auto_wf in Hau. by rewrite E in Hau.
Qed.

(** C7. The validator signs only real, unrefunded sends. Start from a ledger in which
    no record of the id exists, let any history of the gate and of the rest of the
    chain follow, and suppose that at its end the scanner, reading the accounts of
    that ledger, signs an event, whoever printed it. Then the history contains a
    successful [send] under exactly that id, of that asset and mint, and no refund of
    the id came after it. The fields of the event, laid out as the preimage of an id
    under the scanner's domain, hash to the very id that the fields of that send hash
    to; and if the two preimages are the same bytes, as they are unless these two
    strings are a collision of the hash, the event agrees with the send on domain,
    asset, scale, amount, corridor, nonce, receiver and payload. *)
Theorem signed_event_genuine rd cache e sent rec cache' s0 evs s' :
  let id := st_submission_id sent in
  sent_isolated pid id -> SentEvent_wf e -> to_sent e = Some sent ->
  len (se_receiver e) = 20 \/ len (se_receiver e) = 32 ->
  ~ live pid (accts s0) (sent_account pid id) -> history pid s0 evs s' ->
  rd_account rd (sent_account pid id) = Ok (accts s' !! sent_account pid id) ->
  handle cfg rd cache e sent = (Ok (Some rec), cache') ->
  exists pre post s1 s2 args c c' a wire payer user,
    evs = pre ++ EvSend (sa_chain_id_to args) (nonce c (sa_chain_id_to args)) :: post /\
    history pid s0 pre s1 /\ send_effect pid args s1 s2 c c' a wire payer user /\ history pid s2 post s' /\
    send_id c a args wire payer = id /\ count (is_refund id) post = 0%nat /\
    se_debridge_id e = sa_debridge_id args /\ se_mint e = as_mint a /\
    let claimed := event_transfer (sc_bridge_domain cfg) e in let locked := send_transfer c a args wire payer in
    keccak (GateHash.transfer_preimage claimed) = id /\ keccak (GateHash.transfer_preimage locked) = id /\
    (GateHash.transfer_preimage claimed = GateHash.transfer_preimage locked -> GateHash.same_transfer claimed locked).
Proof.
  intros id Hiso Hwf Hsent Hrecv Hdead Hh Hrd Hhandle.
  apply handle_signed in Hhandle as (Hsig & _ & _ & _ & asset & account & bu & r & _ & _ & Hacc & Hver).
  fold id in Hacc. rewrite Hrd in Hacc. injection Hacc as <-.
  apply verify_sent_record_Ok in Hver as (_ & d & Hview & Hne & Hdec & Hret & Hdid & Hmint & _).
  apply fmap_Some in Hview as (acc & Hlook & [= Ho Hd]). symmetry in Ho. bool_inv.
  assert (acct (accts s') (sent_account pid id) = acc) as Eacc by (unfold acct; by rewrite Hlook).
  destruct (sent_life pid pid_not_spl id Hiso s0 evs s' Hdead Hh)
    as [Hnl|(pre & ev & post & s1 & s2 & r' & -> & Hpre & Hpost & _ & Hrs & Hcase)].
  { exfalso. apply Hnl. unfold live. rewrite Eacc. split; [done|congruence]. }
  assert (SentRecord_wf r') as Hwr by (by eapply recorded_send_wf).
  destruct Hcase as [[[_ Hst] Hcnt]|[_ Hst]].
  2: { exfalso. rewrite Eacc, <- Hd, <- zero_record_ser in Hst. rewrite Hst in Hdec.
       rewrite host_decode_ser in Hdec by apply zero_record_wf. injection Hdec as <-.
       by rewrite zero_record_retired in Hret. }
  rewrite Eacc, <- Hd in Hst. rewrite Hst, host_decode_ser in Hdec by done. injection Hdec as <-.
  destruct Hrs as (args & c & c' & a & w & p & u & He & Hid & -> & Hargs & _ & ->).
  exists pre, post, s1, s2, args, c, c', a, w, p, u. cbn in Hdid, Hmint.
  do 8 (split; [done|]). cbv zeta.
  pose proof Hsig as Hsig'. unfold signable in Hsig'.
  apply result_bind_Ok in Hsig' as (? & Hrec%require_Ok & _). bool_inv.
  destruct (recompute_event e sent (sc_bridge_domain cfg) (proj1 (proj2 Hwf)) Hsent) as (Ercp & Esid & _).
  rewrite Ercp in Hrec. fold id in Hrec.
  assert (GateHash.transfer_id (send_transfer c a args w p) = id) as Hu by exact Hid.
  rewrite GateHash.transfer_id_preimage in Hrec, Hu.
  split; [exact Hrec|]. split; [exact Hu|]. apply GateHash.preimage_same.
  - destruct Hwf as (_ & H1 & H2 & H3 & H4 & H5 & _ & _ & H6). unfold len in Hrecv.
      refine (conj H2 (conj H1 (conj H3 (conj H4 (conj H5 (conj _ _)))))); simpl; [lia|]. intros payload Hpl. by destruct (H6 payload Hpl) as (? & ? & _).
  - eapply send_transfer_wf; [apply (sd_config _ _ _ _ _ _ _ _ _ _ He)|apply (sd_asset _ _ _ _ _ _ _ _ _ _ He)
        |done|apply (sd_wire _ _ _ _ _ _ _ _ _ _ He)|apply (sd_towire _ _ _ _ _ _ _ _ _ _ He)
        |apply (sd_receiver _ _ _ _ _ _ _ _ _ _ He)].
Qed.
Lemma live_lookup m k : live pid m k -> m !! k = Some (acct m k).
Proof. unfold live, acct. destruct (m !! k); [done|]. by intros [_ Hd]. Qed.

(** A held record stays as it is until a refund of its id. *)
Lemma record_stays id s evs s' r : sent_isolated pid id -> SentRecord_wf r -> history pid s evs s' ->
  holds pid id (accts s) r -> count (is_refund id) evs = 0%nat -> holds pid id (accts s') r.
Proof.
  intros Hiso Hwf Hh. induction Hh as [s|s evs s1 e s2 _ IH Hs]; [done|]. intros H0 Hc.
  rewrite count_snoc in Hc. specialize (IH H0 ltac:(lia)). destruct IH as [Ho Hd].
  pose proof (record_not_empty r Hwf) as Hne.
  destruct (sent_step _ pid_not_spl _ Hiso _ _ _ Hs) as [[He _]|[(r' & Hr')|[_ Hf]]].
  - by eapply evolves_holds.
  - apply recorded_send_holds in Hr' as [E _]. congruence.
  - rewrite Hf in Hc. lia.
Qed.

(** The event of a send. *)
Definition event_of_send (c : Config) (a : AssetConfig) (args : SendArgs) (wire : Z) (payer : pubkey) : SentEvent :=
  MkSentEvent SENT_EVENT_VERSION (send_id c a args wire payer) (sa_debridge_id args) (as_mint a) wire
    (as_bridge_decimals a) (cfg_chain_id c) (sa_chain_id_to args) (nonce c (sa_chain_id_to args))
    (sa_receiver args) (arr_bytes payer) (sa_auto args).

Lemma verify_genuine r e u : SentRecord_wf r -> u <> 0 -> sr_amount r <> 0 ->
  sr_debridge_id r = se_debridge_id e -> sr_mint r = se_mint e -> sr_amount r = se_amount e * u ->
  verify_sent_record (Some (true, borsh_ser r)) e u = Ok r.
Proof.
  intros Hwf Hu Ha Hd Hm Hamt. unfold verify_sent_record. rewrite (proj2 (Z.eqb_neq u 0)) by done.
  cbn [negb andb orb require ok_or mbind result_bind]. rewrite bool_decide_eq_false_2 by by apply record_not_empty.
  cbn [negb andb orb require ok_or mbind result_bind]. rewrite (borsh_size r Hwf), Z.eqb_refl. cbn [negb andb orb require ok_or mbind result_bind].
  rewrite host_decode_ser by done. cbn [negb andb orb require ok_or mbind result_bind]. unfold record_retired.
  rewrite (proj2 (Z.eqb_neq (sr_amount r) 0)) by done. cbn [negb andb orb require ok_or mbind result_bind].
  rewrite bool_decide_eq_true_2 by done. cbn [negb andb orb require ok_or mbind result_bind]. unfold checked_mul.
  rewrite (proj2 (u_checked_Some 64 (se_amount e * u) (sr_amount r))) by (split; [done|rewrite <- Hamt; apply Hwf]).
  cbn [negb andb orb require ok_or mbind result_bind]. rewrite Z.eqb_refl. cbn [negb andb orb require ok_or mbind result_bind]. by rewrite bool_decide_eq_true_2.
Qed.

(** C16. Every send can be signed. After a successful [send], and as long as no refund of
    its id happened, whatever else the chain did: the event it printed reproduces
    its id under the gate's domain and chain id, its record corroborates it, and a
    scanner of this gate that reads the asset in its current layout, whose
    destination gate registers the same scale, whose allowlist permits the corridor
    and whose store accepts the record, posts exactly its signature on that id. *)
Theorem genuine_send_signed accounts args s s' :
  SendArgs_wf args -> is_i 64 (clock s) -> process_send pid accounts args s = Ok (tt, s') ->
  exists c c' a wire payer user, send_effect pid args s s' c c' a wire payer user /\
  let id := send_id c a args wire payer in let e := event_of_send c a args wire payer in
  exists sent, to_sent e = Some sent /\ st_submission_id sent = id /\
  forall evs s'' rd cache, sent_isolated pid id -> sc_bridge_domain cfg = cfg_bridge_domain c ->
    sc_chain_id cfg = cfg_chain_id c ->
    history pid s' evs s'' -> count (is_refund id) evs = 0%nat ->
    (forall k, rd_account rd k = Ok (accts s'' !! k)) ->
    asset_at pid (accts s'') (sa_debridge_id args) a ->
    len (acc_data (acct (accts s'') (asset_account pid (sa_debridge_id args)))) > LEGACY_ASSET_CONFIG_LEN + 1 ->
    cache !! (sa_chain_id_to args, sa_debridge_id args) = None ->
    (exists reader, rd_evm_gate rd (sa_chain_id_to args) = Some reader /\
       reader (sa_debridge_id args) = Ok (Some (as_bridge_decimals a))) ->
    allowlist_permits (rd_allowlist rd) (hex0x (arr_bytes (sa_debridge_id args))) (cfg_chain_id c)
      (sa_chain_id_to args) = true ->
    let rec := signed_record (sc_signer_address cfg) (sc_bridge_domain cfg) sent in
    rd_upsert rd rec = StoreOk -> fst (handle cfg rd cache e sent) = Ok (Some rec).
Proof.
  intros Hargs Hclk Hp. pose proof Hp as Hp'. apply process_send_Ok in Hp as (c & c' & a & w & p & u & He);
    [|done|apply Hargs|done].
  exists c, c', a, w, p, u. split; [done|]. intros id e.
  assert (exists sent, to_sent e = Some sent /\ st_submission_id sent = id /\ st_debridge_id sent = sa_debridge_id args /\
    st_chain_id_to sent = sa_chain_id_to args /\ st_chain_id_from sent = cfg_chain_id c)
    as (sent & Hsent & Eid & Edid & Eto & Efrom) by (eexists; split; [reflexivity|done]).
  exists sent. split; [done|]. split; [done|].
  intros evs s'' rd cache Hiso Hdom Hch Hh Hcnt Hrd Hasset Hlen Hcache (reader & Hreader & Hdec) Hallow rec Hup.
  pose proof (asset_at_wf _ _ _ _ Hasset) as Haw.
  set (r := MkSentRecord (sa_debridge_id args) p u (as_mint a) (sa_amount args) (clock s)).
  assert (SentRecord_wf r) as Hwr by (split; [apply Hargs|done]).
  assert (holds pid id (accts s'') r) as [Ho Hd].
  { eapply record_stays; [done..| |done].
    split; [apply (proj1 (sd_record _ _ _ _ _ _ _ _ _ _ He))|apply (sd_stored _ _ _ _ _ _ _ _ _ _ He)]. }
  pose proof (sd_wire _ _ _ _ _ _ _ _ _ _ He) as Hwire. pose proof (sd_towire _ _ _ _ _ _ _ _ _ _ He) as Htw.
  assert (is_u 64 w) as Hw64 by (eapply (wire_range a); [exact Haw|exact (proj1 Hargs)|exact Hwire|exact Htw]).
  unfold handle.
  assert (signable sent (sc_bridge_domain cfg) (sc_chain_id cfg) = Ok tt) as ->.
  { unfold signable. destruct (recompute_event e sent (sc_bridge_domain cfg) Hw64 Hsent) as (-> & -> & _).
    rewrite bool_decide_eq_true_2 by (by rewrite Hdom). cbn [require mbind result_bind].
    by rewrite Efrom, Hch, Z.eqb_refl. }
  destruct Hasset as (Hao & Had & Haid).
  assert (asset_for cfg rd (se_debridge_id e) = Ok (Some a)) as ->.
  { unfold asset_for, retry. change (se_debridge_id e) with (sa_debridge_id args).
    rewrite Hrd, live_lookup; [|split; [done|]].
    - cbn [map_err mbind result_bind option_bind]. rewrite bool_decide_eq_true_2 by done. cbn [negb].
      unfold decode_asset_config in Had. rewrite !(proj2 (Z.eqb_neq _ _)) in Had by lia.
      by apply ok_or_Ok in Had as ->.
    - intros E. rewrite E in Hlen. by vm_compute in Hlen. }
  assert (bridge_unit (as_local_decimals a) (as_bridge_decimals a) =
    Some (10 ^ (as_local_decimals a - as_bridge_decimals a))) as Hunit.
  { unfold to_wire, unit_of in Htw. rewrite bridge_unit_spec in * by apply Haw. by case_bool_decide. }
  pose proof (bridge_unit_pos _ _ _ (proj2 Haw) (proj1 Haw) Hunit) as Hupos.
  assert (origin_proof_holds cfg rd e sent a = Ok true) as ->.
  { unfold origin_proof_holds, retry. rewrite Eid, Hrd, live_lookup by (split; [done|]; rewrite Hd; by apply record_not_empty).
    cbn [map_err mbind result_bind fmap option_fmap option_map].
    change (HostHash.asset_account_unit a) with (bridge_unit (as_local_decimals a) (as_bridge_decimals a)).
    rewrite Hunit, bool_decide_eq_true_2 by done. rewrite Hd, verify_genuine; try done; [lia|].
    apply (sd_nonzero _ _ _ _ _ _ _ _ _ _ He). }
  unfold scale_agrees. rewrite Eto, Edid, Efrom, Hreader, Hcache, Hdec, Z.eqb_refl, Hallow. cbn [negb].
  fold rec. by rewrite Hup.
Qed.
(** An asset still recorded in the pre-decimals layout (96 or 97 bytes) is accepted
    by the gate, which bridges it one to one, but its transfers are never signed: the
    scanner reads the account as no registration at all and withholds its signature,
    so a send of such an asset can only come back through a refund. *)
Theorem legacy_asset_never_signed m rd cache e sent :
  let data := acc_data (acct m (asset_account pid (se_debridge_id e))) in
  (forall k, rd_account rd k = Ok (m !! k)) ->
  len data = LEGACY_ASSET_CONFIG_LEN \/ len data = LEGACY_ASSET_CONFIG_LEN + 1 ->
  (exists a, decode_asset_config data = Ok a /\ unit_of a = Ok 1) /\
  forall rec, fst (handle cfg rd cache e sent) <> Ok (Some rec).
Proof.
  intros data Hrd Hlen. split.
  - unfold decode_asset_config.
    assert ((len data =? LEGACY_ASSET_CONFIG_LEN) || (len data =? LEGACY_ASSET_CONFIG_LEN + 1) = true) as ->.
    { destruct Hlen as [-> | ->]; [by rewrite Z.eqb_refl|]. by rewrite Z.eqb_refl, orb_true_r. }
    set (cur := take (Z.to_nat LEGACY_ASSET_CONFIG_LEN) data).
    assert (length cur = 96%nat) as Hl.
    { unfold cur. rewrite length_take. change (Z.to_nat LEGACY_ASSET_CONFIG_LEN) with 96%nat.
      unfold len, LEGACY_ASSET_CONFIG_LEN in Hlen. lia. }
    assert (forall l, (32 <= length l)%nat -> exists x, take32 l = Ok (x, drop 32 l)) as Ht.
    { intros l Hll. unfold take32, arr_of_list. destruct (decide _) as [Hd|Hd]; [by eexists|].
      exfalso. apply Hd. rewrite length_take. lia. }
    destruct (Ht cur ltac:(lia)) as (x & Hx). destruct (Ht (drop 32 cur)) as (y & Hy); [rewrite length_drop; lia|].
    destruct (Ht (drop 32 (drop 32 cur))) as (z & Hz); [rewrite !length_drop; lia|].
    exists (MkAssetConfig x y z 0 0). split; [|done]. rewrite Hx. cbn [mbind result_bind]. rewrite Hy.
    cbn [mbind result_bind]. by rewrite Hz.
  - intros rec. unfold handle. destruct (signable _ _ _); [|done].
    assert (asset_for cfg rd (se_debridge_id e) = Ok None) as ->; [|done].
    unfold asset_for, retry. rewrite Hrd. cbn [map_err mbind result_bind].
    unfold data, acct in Hlen. destruct (m !! _) as [acc|]; [|done]. cbn [mbind option_bind].
    destruct (bool_decide _); [|done]. cbn [negb]. f_equal.
    destruct (borsh_de (acc_data acc)) as [asset|] eqn:E; [|done]. apply borsh_de_len in E. exfalso.
    unfold ASSET_CONFIG_LEN, LEGACY_ASSET_CONFIG_LEN in *. simpl in Hlen. lia.
Qed.
End Decision.
