(* ===== verification/SourceScan.v ===== *)
(** The source scanner's walk over the chain (solana-relayer source.rs
    [collect_since_cursor], [tick], [process_line]; state.rs): which transactions it
    reads, what it does with each event line, and when its cursor moves. Files and
    the JSON-RPC transport are not modelled. *)

From S2P Require Import Prelude.
From S2P Require Import Text.
From S2P Require Import SolanaRuntime.
From S2P Require Import GateTypes.
From S2P Require Import LogScan.
From S2P Require Import HostRecord.
From S2P Require Import Origin.

(** * Pages (source.rs) *)

Definition MAX_PAGES : nat := 100.
Inductive PageAction := Complete | KeepWalking | TooDeep.

Definition walks_to_start (has_cursor start_at_tip : bool) : bool := has_cursor || negb start_at_tip.
Definition next_page_action (page_len max_batch : nat) (walk_to_start : bool) (page_index : nat) : PageAction :=
  if (page_len <? max_batch)%nat then Complete
  else if negb walk_to_start then Complete
  else if (MAX_PAGES <=? page_index + 1)%nat then TooDeep
  else KeepWalking.

Inductive CollectError := RpcError | BacklogTooDeep | UnparseableSignature | UnreachableLoop.

(** One entry of [getSignaturesForAddress]; [sg_err] marks a failed transaction. *)
Record SignatureEntry := MkSignatureEntry { sg_signature : text; sg_err : bool }.

Section Collect.
(** [Signature::from_str] and the RPC call, from [before], [until] and the limit. *)
Context {Sig : Type} `{EqDecision Sig}.
Variable parse_sig : text -> option Sig.
Variable rpc : option Sig -> option Sig -> nat -> result unit (list SignatureEntry).
Variables (max_batch : nat) (start_at_tip : bool) (cursor : option text).

Definition until : option Sig := cursor ≫= parse_sig.

Fixpoint collect_loop (fuel page : nat) (before : option Sig) (newest_first : list SignatureEntry)
    : result CollectError (list SignatureEntry) :=
  match fuel with
  | O => Err UnreachableLoop
  | S fuel =>
      sigs ← map_err (fun _ => RpcError) (rpc before until max_batch);
      let walk := walks_to_start (bool_decide (until <> None)) start_at_tip in
      let action := next_page_action (length sigs) max_batch walk page in
      let oldest := sg_signature <$> last sigs in
      let newest_first := newest_first ++ sigs in
      match action with
      | Complete => Ok (reverse newest_first)
      | TooDeep => Err BacklogTooDeep
      | KeepWalking =>
          match oldest ≫= parse_sig with
          | Some s => collect_loop fuel (S page) (Some s) newest_first
          | None => Err UnparseableSignature
          end
      end
  end.
Definition collect_since_cursor : result CollectError (list SignatureEntry) :=
  collect_loop MAX_PAGES 0 None [].

(** ** What the RPC documents *)

(** Entries newer than [until], newest first. *)
Fixpoint newer_than (u : option Sig) (l : list SignatureEntry) : list SignatureEntry :=
  match l with
  | [] => []
  | e :: l => if bool_decide (u <> None /\ parse_sig (sg_signature e) = u) then [] else e :: newer_than u l
  end.
(** Entries strictly older than [before]. *)
Fixpoint older_than (b : Sig) (l : list SignatureEntry) : list SignatureEntry :=
  match l with
  | [] => []
  | e :: l => if bool_decide (parse_sig (sg_signature e) = Some b) then l else older_than b l
  end.
Definition rpc_of (history : list SignatureEntry) (before u : option Sig) (limit : nat) : list SignatureEntry :=
  take limit (newer_than u (match before with None => history | Some b => older_than b history end)).

Variable history : list SignatureEntry.
(** [history] is every transaction that mentions the program, newest first. *)
Hypothesis rpc_faithful : forall before u limit, rpc before u limit = Ok (rpc_of history before u limit).
Hypothesis parseable : Forall (fun e => parse_sig (sg_signature e) <> None) history.
Hypothesis distinct : NoDup (map (fun e => parse_sig (sg_signature e)) history).

Lemma newer_than_sublist u l : forall e, e ∈ newer_than u l -> e ∈ l.
Proof.
  induction l as [|x l IH]; intros e; simpl; [done|]. case_bool_decide; [by intros ?%elem_of_nil|].
  intros [->|?]%elem_of_cons; [left|right; auto].
Qed.
(** Walking back from an entry of the unread range stays in the range. *)
Lemma older_newer s e p q : NoDup (map (fun e => parse_sig (sg_signature e)) (p ++ e :: q)) ->
  parse_sig (sg_signature e) = Some s -> older_than s (p ++ e :: q) = q.
Proof.
  intros Hnd Hs. induction p as [|x p IH]; simpl.
  - by rewrite bool_decide_eq_true_2.
  - simpl in Hnd. apply NoDup_cons in Hnd as [Hx Hnd]. rewrite bool_decide_eq_false_2; [by apply IH|].
    intros E. apply Hx. rewrite E, <- Hs, map_app. apply elem_of_app. right. left.
Qed.
Lemma newer_split u l n : (n < length (newer_than u l))%nat ->
  exists e q, l = take n (newer_than u l) ++ e :: q /\ newer_than u l !! n = Some e /\
    newer_than u q = drop (S n) (newer_than u l).
Proof.
  revert l. induction n as [|n IH]; intros [|x l]; simpl; try lia; case_bool_decide; simpl; try lia; intros Hn.
  - by exists x, l.
  - destruct (IH l ltac:(lia)) as (e & q & E & He & Hq). exists e, q. rewrite E at 1. done.
Qed.

Abbreviation unread := (newer_than until history).

(** The loop after [k] full pages. *)
Lemma collect_loop_spec fuel page : (0 < max_batch)%nat -> (fuel + page = MAX_PAGES)%nat -> (0 < fuel)%nat ->
  walks_to_start (bool_decide (until <> None)) start_at_tip = true ->
  forall before, (page * max_batch <= length unread)%nat ->
  (newer_than until (match before with None => history | Some b => older_than b history end) =
     drop (page * max_batch) unread) ->
  collect_loop fuel page before (take (page * max_batch) unread) =
    if decide (length unread < MAX_PAGES * max_batch)%nat then Ok (reverse unread) else Err BacklogTooDeep.
Proof.
  intros Hmb. revert page. induction fuel as [|fuel IH]; intros page Hf Hpos Hw before Hle Hb; [lia|].
  cbn [collect_loop]. rewrite rpc_faithful. cbn [map_err mbind result_bind]. rewrite Hw.
  unfold rpc_of. rewrite Hb. unfold next_page_action.
  rewrite length_take, length_drop.
  destruct (Nat.ltb_spec (max_batch `min` (length unread - page * max_batch)) max_batch) as [Hlt|Hge].
  - rewrite decide_True by nia. f_equal. f_equal.
    rewrite (take_ge (drop _ _)) by (rewrite length_drop; lia). by rewrite take_drop.
  - cbn [negb]. destruct (Nat.leb_spec MAX_PAGES (page + 1)).
    + rewrite decide_False by nia. done.
    + set (n := (page * max_batch + max_batch - 1)%nat).
      destruct (newer_split until history n) as (e & q & Eh & He & Hq); [unfold n; lia|].
      assert (last (take max_batch (drop (page * max_batch) unread)) = Some e) as Hlast.
      { rewrite last_lookup, length_take, length_drop, Nat.min_l by lia.
        rewrite lookup_take, decide_True by lia. rewrite lookup_drop. rewrite <- He.
        f_equal. unfold n. lia. }
      rewrite Hlast. cbn [fmap option_fmap option_map mbind option_bind].
      assert (e ∈ history) as Hin by (rewrite Eh; apply elem_of_app; right; left).
      rewrite Forall_forall in parseable. specialize (parseable _ Hin).
      destruct (parse_sig (sg_signature e)) as [s|] eqn:Es; [|done].
      assert (take (page * max_batch) unread ++ take max_batch (drop (page * max_batch) unread) =
        take (S page * max_batch) unread) as ->.
      { rewrite take_take_drop. f_equal. lia. }
      apply IH; [lia|lia|done|lia|].
      rewrite Eh at 1. rewrite (older_newer s e) by (rewrite <- ?Eh; done).
      rewrite Hq. f_equal. unfold n. lia.
Qed.

(** C39. The scanner reads a range without a hole or reads nothing. Against an RPC that
    answers [getSignaturesForAddress] as documented, a scanner with a cursor, or one
    that was not told to start at the tip, gets exactly the transactions newer than
    the cursor, all of them, oldest first, whenever there are fewer than
    [MAX_PAGES * max_batch]; a deeper backlog is an error and never a partial
    range. Told to start at the tip without a cursor, it gets the newest page. *)
Theorem collect_without_gap : (0 < max_batch)%nat ->
  collect_since_cursor =
    if walks_to_start (bool_decide (until <> None)) start_at_tip then
      if decide (length unread < MAX_PAGES * max_batch)%nat then Ok (reverse unread) else Err BacklogTooDeep
    else Ok (reverse (take max_batch unread)).
Proof.
  intros Hmb. unfold collect_since_cursor.
  destruct (walks_to_start _ _) eqn:Hw.
  - rewrite <- (collect_loop_spec MAX_PAGES 0 Hmb ltac:(done) ltac:(unfold MAX_PAGES; lia) Hw None); [|lia|].
    + done.
    + done.
  - change MAX_PAGES with (S 99). cbn [collect_loop]. rewrite rpc_faithful. cbn [map_err mbind result_bind].
    rewrite Hw. unfold next_page_action. destruct (_ <? _)%nat; done.
Qed.
End Collect.

(** * The cursor (state.rs) *)

Definition MAX_QUARANTINED : nat := 1024.

(** Why an event can never be signed; the code keeps the formatted text. *)
Inductive QuarantineReason :=
  | QMalformed (e : LineError)
  | QUndecodable (version : Z)
  | QUnsignable (why : Refusal)
  | QStoreRefused.
#[export] Instance LineError_eq_dec : EqDecision LineError.
Proof. solve_decision. Defined.
#[export] Instance Refusal_eq_dec : EqDecision Refusal.
Proof. solve_decision. Defined.
#[export] Instance QuarantineReason_eq_dec : EqDecision QuarantineReason.
Proof. solve_decision. Defined.

Record Cursor := MkCursor {
  last_signature : option text;
  quarantined : list (text * QuarantineReason);
}.
(** [Cursor::quarantine]: whether the entry is new, and the bounded list after it. *)
Definition quarantine (c : Cursor) (tx : text) (reason : QuarantineReason) : Cursor * bool :=
  if bool_decide ((tx, reason) ∈ quarantined c) then (c, false)
  else
    let q := quarantined c ++ [(tx, reason)] in
    (MkCursor (last_signature c) (drop (length q - MAX_QUARANTINED) q), true).

(** The quarantine list is bounded, free of duplicates and loses only its oldest
    entries: after recording an event the list holds at most [MAX_QUARANTINED]
    entries, the event is in it, and what else it holds is a suffix of what it held
    before, the whole of it while there was room. *)
Theorem quarantine_bounded c tx reason :
  NoDup (quarantined c) -> (length (quarantined c) <= MAX_QUARANTINED)%nat ->
  let '(c', fresh) := quarantine c tx reason in
  NoDup (quarantined c') /\ (length (quarantined c') <= MAX_QUARANTINED)%nat /\
  (tx, reason) ∈ quarantined c' /\ last_signature c' = last_signature c /\
  (fresh = false <-> (tx, reason) ∈ quarantined c) /\
  exists dropped kept, quarantined c = dropped ++ kept /\
    quarantined c' = (if fresh then kept ++ [(tx, reason)] else kept) /\
    (length (quarantined c) < MAX_QUARANTINED -> dropped = [])%nat.
Proof.
  intros Hnd Hlen. unfold quarantine. destruct (decide ((tx, reason) ∈ quarantined c)) as [Hin|Hn].
  - rewrite bool_decide_eq_true_2 by done. split_and!; try done. by exists [], (quarantined c).
  - rewrite bool_decide_eq_false_2 by done. cbn [quarantined last_signature].
    rewrite length_app. cbn [length]. set (q := quarantined c) in *.
    assert (drop (length q + 1 - MAX_QUARANTINED) (q ++ [(tx, reason)]) =
      drop (length q + 1 - MAX_QUARANTINED) q ++ [(tx, reason)]) as ->.
    { rewrite drop_app_le; [done|]. unfold MAX_QUARANTINED in *. lia. }
    split_and!; try done.
    + apply NoDup_app. split_and!; [|intros x Hx ->%list_elem_of_singleton|apply NoDup_singleton].
      * rewrite <- (take_drop (length q + 1 - MAX_QUARANTINED) q) in Hnd.
        by apply NoDup_app in Hnd as (_ & _ & ?).
      * apply Hn. rewrite <- (take_drop (length q + 1 - MAX_QUARANTINED) q). apply elem_of_app. by right.
    + rewrite length_app, length_drop. cbn [length]. unfold MAX_QUARANTINED in *. lia.
    + apply elem_of_app. right. by left.
    + exists (take (length q + 1 - MAX_QUARANTINED) q), (drop (length q + 1 - MAX_QUARANTINED) q).
      rewrite take_drop. split_and!; [done..|]. intros Hl.
      replace (length q + 1 - MAX_QUARANTINED)%nat with 0%nat by lia. done.
Qed.

(** * One event line, one tick (source.rs) *)

Section Tick.
Context {RT : Runtime} {GB : GateBorsh} {HX : HexCodec} {SK : HostSigner}.
Context {B64 : Base64} {EC : EventCodec}.
Variable cfg : ScannerConfig.
(** The gate's id as the log lines show it. *)
Variable gate : text.
(** What the scanner reads the [n]-th time it handles an event. *)
Variable rd : nat -> reads.
(** The log of a transaction ([get_transaction]). *)
Variable logs_of : text -> result unit (list text).

(** The scanner's state; [sn_posted] is what the store accepted from it. *)
Record scan_state := MkScanState {
  sn_cursor : Cursor;
  sn_cache : scale_cache;
  sn_clock : nat;
  sn_posted : list SubmissionRecord;
}.

Inductive ScanError := NewerVersion (v : Z) | Transient.

Definition set_aside (st : scan_state) (tx : text) (reason : QuarantineReason) : scan_state :=
  MkScanState (fst (quarantine (sn_cursor st) tx reason)) (sn_cache st) (sn_clock st) (sn_posted st).
Definition handle_at (st : scan_state) (event : SentEvent) (sent : Sent)
    : result HandleError (option SubmissionRecord) * scan_state :=
  let '(r, cache) := handle cfg (rd (sn_clock st)) (sn_cache st) event sent in
  (r, MkScanState (sn_cursor st) cache (S (sn_clock st))
        (match r with Ok (Some rec) => sn_posted st ++ [rec] | _ => sn_posted st end)).

Definition process_line (line tx : text) (st : scan_state) : result ScanError bool * scan_state :=
  match parse_sent_event_line line with
  | None => (Ok false, st)
  | Some (Err e) =>
      match payload_version line with
      | Some v => if v >? SENT_EVENT_VERSION then (Err (NewerVersion v), st)
                  else (Ok false, set_aside st tx (QMalformed e))
      | None => (Ok false, set_aside st tx (QMalformed e))
      end
  | Some (Ok event) =>
      if se_version event >? SENT_EVENT_VERSION then (Err (NewerVersion (se_version event)), st)
      else
        match to_sent event with
        | None => (Ok false, set_aside st tx (QUndecodable (se_version event)))
        | Some sent =>
            match signable sent (sc_bridge_domain cfg) (sc_chain_id cfg) with
            | Err why => (Ok false, set_aside st tx (QUnsignable why))
            | Ok _ =>
                match handle_at st event sent with
                | (Err PermanentRejection, st) => (Ok false, set_aside st tx QStoreRefused)
                | (Err _, st) => (Err Transient, st)
                | (Ok r, st) => (Ok (bool_decide (r <> None)), st)
                end
            end
        end
  end.

Fixpoint process_lines (lines : list text) (tx : text) (st : scan_state) : result ScanError Z * scan_state :=
  match lines with
  | [] => (Ok 0, st)
  | line :: lines =>
      match process_line line tx st with
      | (Err e, st) => (Err e, st)
      | (Ok b, st) =>
          match process_lines lines tx st with
          | (Err e, st) => (Err e, st)
          | (Ok n, st) => (Ok (n + if b : bool then 1 else 0), st)
          end
      end
  end.

Definition advance (st : scan_state) (signature : text) : scan_state :=
  MkScanState (MkCursor (Some signature) (quarantined (sn_cursor st))) (sn_cache st) (sn_clock st) (sn_posted st).

(** The loop of [tick] over the collected entries, oldest first. *)
Fixpoint tick_entries (entries : list SignatureEntry) (st : scan_state) : result ScanError Z * scan_state :=
  match entries with
  | [] => (Ok 0, st)
  | entry :: entries =>
      let continue n st :=
        match tick_entries entries (advance st (sg_signature entry)) with
        | (Err e, st) => (Err e, st)
        | (Ok m, st) => (Ok (n + m), st)
        end in
      if sg_err entry then continue 0 st
      else
        match logs_of (sg_signature entry) with
        | Err _ => (Err Transient, st)
        | Ok logs =>
            match process_lines (gate_program_data_lines logs gate) (sg_signature entry) st with
            | (Err e, st) => (Err e, st)
            | (Ok n, st) => continue n st
            end
        end
  end.

(** ** What a tick leaves behind *)

(** A line needs no more attention: it is not an event of ours, it can never be
    signed, it was withheld on a definite answer, or its record was posted. *)
Definition settled (posted : list SubmissionRecord) (line : text) : Prop :=
  match parse_sent_event_line line with
  | None => True
  | Some (Err _) => forall v, payload_version line = Some v -> v <= SENT_EVENT_VERSION
  | Some (Ok event) =>
      se_version event <= SENT_EVENT_VERSION /\
      match to_sent event with
      | None => True
      | Some sent =>
          match signable sent (sc_bridge_domain cfg) (sc_chain_id cfg) with
          | Err _ => True
          | Ok _ =>
              exists n cache, match fst (handle cfg (rd n) cache event sent) with
                | Ok None | Err PermanentRejection => True
                | Ok (Some rec) => rec ∈ posted
                | Err _ => False
                end
          end
      end
  end.
Definition entry_settled (posted : list SubmissionRecord) (e : SignatureEntry) : Prop :=
  sg_err e = true \/
  exists logs, logs_of (sg_signature e) = Ok logs /\ Forall (settled posted) (gate_program_data_lines logs gate).

Lemma settled_mono p p' l : p ⊆ p' -> settled p l -> settled p' l.
Proof.
  intros Hp. unfold settled. destruct (parse_sent_event_line l) as [[event|]|]; [|done..].
  destruct (to_sent event) as [sent|]; [|done]. destruct (signable _ _ _); [|done].
  intros [Hv (n & cache & Hs)]. split; [done|]. exists n, cache.
  destruct (fst (handle _ _ _ _ _)) as [[rec|]|]; [by apply Hp|done..].
Qed.

Lemma process_line_ok line tx st r st' : process_line line tx st = (r, st') ->
  sn_posted st ⊆ sn_posted st' /\ last_signature (sn_cursor st') = last_signature (sn_cursor st) /\
  (forall b, r = Ok b -> settled (sn_posted st') line).
Proof.
  assert (forall st tx q, sn_posted (set_aside st tx q) = sn_posted st /\
    last_signature (sn_cursor (set_aside st tx q)) = last_signature (sn_cursor st)) as Haside.
  { intros s t q. unfold set_aside, quarantine. simpl. by case_match. }
  unfold process_line, settled. intros H.
  destruct (parse_sent_event_line line) as [[event|e]|] eqn:Hp; [|..].
  - destruct (Z.gtb_spec (se_version event) SENT_EVENT_VERSION); [by injection H as <- <-|].
    destruct (to_sent event) as [sent|]; [|injection H as <- <-; destruct (Haside st tx (QUndecodable (se_version event))) as [-> ->]; done].
    destruct (signable _ _ _) as [u|why]; [|injection H as <- <-; destruct (Haside st tx (QUnsignable why)) as [-> ->]; done].
    unfold handle_at in H. destruct (handle _ _ _ _ _) as [[[rec|]|er] cache] eqn:Hh; simpl in H.
    + injection H as <- <-. cbn [sn_posted sn_cursor]. split_and!; [set_solver|done|]. intros b _. split; [done|].
      exists (sn_clock st), (sn_cache st). rewrite Hh. simpl. set_solver.
    + injection H as <- <-. cbn [sn_posted sn_cursor]. split_and!; [done|done|]. intros b _. split; [done|].
      exists (sn_clock st), (sn_cache st). by rewrite Hh.
    + destruct er; injection H as <- <-; try done.
      destruct (Haside (MkScanState (sn_cursor st) cache (S (sn_clock st)) (sn_posted st)) tx QStoreRefused) as [-> ->].
      cbn [sn_posted sn_cursor]. split_and!; [done|done|]. intros b _. split; [done|].
      exists (sn_clock st), (sn_cache st). by rewrite Hh.
  - destruct (payload_version line) as [v|].
    + destruct (Z.gtb_spec v SENT_EVENT_VERSION); injection H as <- <-; [done|].
      destruct (Haside st tx (QMalformed e)) as [-> ->]. split_and!; [done|done|]. by intros b _ v' [= <-].
    + injection H as <- <-. destruct (Haside st tx (QMalformed e)) as [-> ->]. done.
  - by injection H as <- <-.
Qed.

Lemma process_lines_ok lines tx st r st' : process_lines lines tx st = (r, st') ->
  sn_posted st ⊆ sn_posted st' /\ last_signature (sn_cursor st') = last_signature (sn_cursor st) /\
  (forall n, r = Ok n -> Forall (settled (sn_posted st')) lines).
Proof.
  revert st r st'. induction lines as [|line lines IH]; intros st r st'; cbn [process_lines].
  { intros [= <- <-]. done. }
  destruct (process_line line tx st) as [[b|e] st1] eqn:H1; apply process_line_ok in H1 as (Hs1 & Hl1 & Hok1).
  - destruct (process_lines lines tx st1) as [[n|e] st2] eqn:H2; apply IH in H2 as (Hs2 & Hl2 & Hok2);
      intros [= <- <-]; (split_and!; [set_solver|congruence|]); [|done].
    intros m _. constructor; [|by eapply Hok2]. eapply settled_mono; [done|by eapply Hok1].
  - by intros [= <- <-].
Qed.

(** C36. The cursor never passes an unhandled event. However a tick ends, the entries
    split into those it finished and those it did not reach; the cursor stands at
    the last finished one (or where it was); every line the gate printed in a
    finished transaction is settled (not an event of ours, permanently unsignable,
    withheld on a definite answer, or posted); a tick that reports success finished
    them all; and nothing posted is forgotten. A failed read or an event of a newer
    program version stops the tick before its transaction. *)
Theorem tick_without_gap entries st r st' : tick_entries entries st = (r, st') ->
  exists done rest, entries = done ++ rest /\ sn_posted st ⊆ sn_posted st' /\
    last_signature (sn_cursor st') =
      match last done with Some e => Some (sg_signature e) | None => last_signature (sn_cursor st) end /\
    Forall (entry_settled (sn_posted st')) done /\
    match r with Ok _ => rest = [] | Err _ => rest <> [] end.
Proof.
  revert st r st'. induction entries as [|entry entries IH]; intros st r st'; cbn [tick_entries].
  { intros [= <- <-]. exists [], []. done. }
  assert (forall n st1 r st', sn_posted st ⊆ sn_posted st1 -> entry_settled (sn_posted st1) entry ->
    match tick_entries entries (advance st1 (sg_signature entry)) with
    | (Err e, s) => (Err e, s) | (Ok m, s) => (Ok (n + m), s) end = (r, st') ->
    exists done rest, entry :: entries = done ++ rest /\ sn_posted st ⊆ sn_posted st' /\
      last_signature (sn_cursor st') =
        match last done with Some e => Some (sg_signature e) | None => last_signature (sn_cursor st) end /\
      Forall (entry_settled (sn_posted st')) done /\
      match r with Ok _ => rest = [] | Err _ => rest <> [] end) as Hcont.
  { intros n st1 r1 st1' Hp He H.
    destruct (tick_entries entries (advance st1 (sg_signature entry))) as [[m|e] s2] eqn:Ht;
      apply IH in Ht as (dn & rest & -> & Hsub & Hl & Hall & Hr); injection H as <- <-;
      exists (entry :: dn), rest; cbn [advance sn_posted sn_cursor last_signature] in *;
      (split_and!; [done|set_solver| |constructor; [|done]|done]).
    1, 3: rewrite last_cons; by destruct (last dn).
    all: destruct He as [He|(logs & Hlogs & Hf)]; [by left|right]; exists logs; split; [done|];
      eapply Forall_impl; [exact Hf|]; intros l; by apply settled_mono. }
  destruct (sg_err entry) eqn:Herr; [apply Hcont; [done|by left]|].
  destruct (logs_of (sg_signature entry)) as [logs|] eqn:Hlogs.
  2: { intros [= <- <-]. exists [], (entry :: entries). done. }
  destruct (process_lines _ _ st) as [[n|e] st1] eqn:Hpl; apply process_lines_ok in Hpl as (Hs & Hl & Hok).
  - apply Hcont; [done|]. right. exists logs. split; [done|]. by eapply Hok.
  - intros [= <- <-]. exists [], (entry :: entries). by split_and!.
Qed.
End Tick.
