(* ===== verification/Attester.v ===== *)
(** Who may be paid back: the relayer's cancel and refund attestations
    (solana-relayer refund.rs) and the observer's reading of the gate's markers
    (observer.rs), against the histories of the gate: a refund is attested only for a
    transfer that was burned here and can never be claimed, a cancellation only for
    one that has been waiting for the whole timeout. *)

From S2P Require Import Prelude.
From S2P Require Import Text.
From S2P Require Import SolanaRuntime.
From S2P Require Import GateTypes.
From S2P Require Import GateState.
From S2P Require Import GateVerify.
From S2P Require Import GateTransfers.
From S2P Require Import LogScan.
From S2P Require Import EvmReader.
From S2P Require Import HostVerify.
From S2P Require Import HostRecord.
From S2P Require Import GateGov.
From S2P Require Import GateAdmin.
From S2P Require Import GateAssets.
From S2P Require Import GateProgram.
From S2P Require Import GateSafety.
From S2P Require Import Origin.
From S2P Require GateHash.
From S2P Require HostHash.

(** * The decision (refund.rs) *)

Record DestinationState := MkDestinationState { ds_executed : bool; ds_cancelled : bool }.
Record SourceState := MkSourceState { ss_sent : bool; ss_refunded : bool }.
Inductive Decision := AttestCancel | AttestRefund | Skip (why : string).

Definition decide_vote (src : option SourceState) (dst : DestinationState) (aged_out : option bool)
    (already_attested_cancel already_attested_refund : bool) : Decision :=
  if ds_executed dst && negb (ds_cancelled dst) then Skip "delivered on destination"
  else if match src with Some src => ss_refunded src || negb (ss_sent src) | None => false end
  then Skip "already refunded, or not sent from that gate"
  else if ds_cancelled dst then
    if already_attested_refund then Skip "refund already attested by us" else AttestRefund
  else if already_attested_cancel then Skip "cancel already attested by us"
  else match aged_out with
       | None => Skip "unclaimed timeout cannot be verified on-chain; not attesting"
       | Some false => Skip "unclaimed timeout has not elapsed (verified on-chain)"
       | Some true => AttestCancel
       end.

Definition solana_aged_out (locked_at now timeout_secs : Z) : bool :=
  (0 <? locked_at) && (timeout_secs <=? i_saturating_sub 64 now locked_at).

Section Attester.
Context {RT : Runtime} {GB : GateBorsh} {HX : HexCodec} {HC : HostCrypto}.

Definition solana_source_record (account : option (bool * list byte)) : SourceState * Z :=
  let not_sent := (MkSourceState false false, 0) in
  match account with
  | None => not_sent
  | Some (owner_is_program, data) =>
      if negb owner_is_program then not_sent
      else match host_decode_sent_record data with
           | None => not_sent
           | Some rec =>
               if record_retired rec then (MkSourceState true true, 0)
               else (MkSourceState true false, sr_locked_at rec)
           end
  end.

(** The cluster as the attester reads it. *)
Record cluster := MkCluster {
  cl_account : pubkey -> result unit (option account);
  cl_now : result unit Z;
}.
Variable pid : pubkey.
Definition account_view (a : account) : bool * list byte := (bool_decide (acc_owner a = pid), acc_data a).

Definition solana_destination_state (sol : cluster) (id : hash32) : result unit DestinationState :=
  acct ← cl_account sol (executed_account pid id);
  Ok (match acct with
      | Some a =>
          if bool_decide (acc_owner a = pid) && negb (bool_decide (acc_data a = []))
          then MkDestinationState true (bool_decide (head (acc_data a) = Some MARKER_CANCELLED))
          else MkDestinationState false false
      | None => MkDestinationState false false
      end).
Definition solana_source_state (sol : cluster) (id : hash32) : result unit (SourceState * Z) :=
  acct ← cl_account sol (sent_account pid id);
  Ok (solana_source_record (account_view <$> acct)).

(** The configured process: its chain id, refund timeout, EVM readers and address. *)
Record AttesterConfig := MkAttesterConfig {
  at_chain_id : Z;
  at_timeout_secs : option Z;
  at_evm : Z -> option GateReader;
  at_me : evm_address;
}.
Variable cfg : AttesterConfig.

Abbreviation facts := (option SourceState * DestinationState * option bool)%type.

Definition evm_to_solana_facts (sol : cluster) (id : hash32) (chain_id_from : Z) : result unit (option facts) :=
  dst ← solana_destination_state sol id;
  match at_timeout_secs cfg, at_evm cfg chain_id_from with
  | Some timeout, Some reader =>
      s ← source_state reader id;
      aged ← (if ds_cancelled dst then Ok None else aged ← aged_out reader id timeout; Ok (Some aged));
      Ok (Some (Some (MkSourceState (es_sent s) (es_refunded s)), dst, aged))
  | _, _ => Ok (Some (None, dst, None))
  end.

Definition solana_to_evm_facts (sol : cluster) (id : hash32) (chain_id_to : Z) : result unit (option facts) :=
  match at_evm cfg chain_id_to with
  | None => Ok None
  | Some reader =>
      d ← destination_state reader id;
      let dst := MkDestinationState (ed_executed d) (ed_cancelled d) in
      '(src, locked_at) ← solana_source_state sol id;
      aged ← (match at_timeout_secs cfg with
              | Some timeout =>
                  if negb (ds_cancelled dst) && ss_sent src && negb (ss_refunded src)
                  then now ← cl_now sol; Ok (Some (solana_aged_out locked_at now timeout))
                  else Ok None
              | None => Ok None
              end);
      Ok (Some (Some src, dst, aged))
  end.

(** What one candidate of the store earns: the vote and the id it is about. *)
Definition attest (sol : cluster) (rec : SubmissionRecord) : option (Decision * hash32) :=
  id ← bound_submission_id rec;
  let facts :=
    if rec_chain_id_to rec =? at_chain_id cfg then evm_to_solana_facts sol id (rec_chain_id_from rec)
    else if rec_chain_id_from rec =? at_chain_id cfg then solana_to_evm_facts sol id (rec_chain_id_to rec)
    else Ok None in
  match facts with
  | Ok (Some (src, dst, aged_out)) =>
      Some (decide_vote src dst aged_out
              (attested_by (rec_cancel_signatures rec) (HostHash.domain_id CANCEL_PREFIX id) (at_me cfg))
              (attested_by (rec_refund_signatures rec) (HostHash.domain_id REFUND_PREFIX id) (at_me cfg)), id)
  | _ => None
  end.

(** * The observer (observer.rs) *)

Inductive Terminal := TClaimed | TCancelled | TRefunded.
Inductive Side := Destination | Source.

Definition destination_terminal (account : option (bool * list byte)) : option Terminal :=
  '(owner_is_program, data) ← account;
  if negb owner_is_program then None
  else b ← head data;
    if bool_decide (b = MARKER_CLAIMED) then Some TClaimed
    else if bool_decide (b = MARKER_CANCELLED) then Some TCancelled else None.
Definition source_terminal (account : option (bool * list byte)) : option Terminal :=
  '(owner_is_program, data) ← account;
  if negb owner_is_program || bool_decide (data = []) then None else Some TRefunded.
Definition side_of (rec : SubmissionRecord) (chain_id : Z) : option Side :=
  if rec_chain_id_to rec =? chain_id then Some Destination
  else if rec_chain_id_from rec =? chain_id then Some Source
  else None.
End Attester.

(** * The marker of an id over a history of the gate *)

Section MarkerHistory.
Context {RT : Runtime} {RL : RuntimeLaws} {GB : GateBorsh} {GL : GateBorshLaws}.
Variable pid : pubkey.
Hypothesis pid_not_spl : pid <> spl_token_id.
Variable id : hash32.

Definition executed_isolated : Prop :=
  config_account pid <> executed_account pid id /\
  forall sd, gate_seeds sd -> sd <> executed_seeds id -> fst (find_program_address sd pid) <> executed_account pid id.
Hypothesis isolated : executed_isolated.

Abbreviation marker m := (marker_at pid m (executed_account pid id)).
Definition off_marker (k : pubkey) : Prop := k <> executed_account pid id.

Lemma off_config : off_marker (config_account pid).
Proof. exact (proj1 isolated). Qed.
Lemma off_asset i : off_marker (asset_account pid i).
Proof. by apply isolated; [constructor|]. Qed.
Lemma off_sent i : off_marker (sent_account pid i).
Proof. by apply isolated; [constructor|]. Qed.
Lemma off_refunded i : off_marker (refunded_account pid i).
Proof. by apply isolated; [constructor|]. Qed.
Lemma off_vault k : off_marker (vault_binding_account pid k).
Proof. by apply isolated; [constructor|]. Qed.
Lemma off_gov i : off_marker (gov_account pid i).
Proof. by apply isolated; [constructor|]. Qed.
Lemma off_executed i : i <> id -> off_marker (executed_account pid i).
Proof. intros Hne. apply isolated; [constructor|]. intros [= E]. by apply Hne, arr_eq. Qed.
#[local] Hint Resolve off_config off_asset off_sent off_refunded off_vault off_gov : core.

Lemma evolves_off m m' : evolves pid off_marker m m' -> marker m' = marker m.
Proof.
  intros [L G S D]. destruct (decide (is_Some (marker m))) as [Hs|Hn].
  - apply marker_live in Hs as Hl. destruct (S _ Hl) as [[]|E]; [done|]. unfold marker_at.
    rewrite E. destruct Hl as [Ho _]. destruct (L _ (proj1 (marker_live _ _ _) Hs)) as [Ho' _].
    by rewrite !bool_decide_eq_true_2.
  - rewrite marker_live in Hn. destruct (D _ Hn) as [[]|Hd]; [done|].
    rewrite <- marker_live in Hn, Hd. rewrite <- eq_None_not_Some in *. congruence.
Qed.

Definition is_claim (e : gate_event) : bool := match e with EvClaim i => bool_decide (i = id) | _ => false end.
Definition is_cancel (e : gate_event) : bool := match e with EvCancel i => bool_decide (i = id) | _ => false end.

Lemma marker_step s e s' : gate_step pid s e s' ->
  (marker (accts s') = marker (accts s) /\ is_claim e = false /\ is_cancel e = false) \/
  (marker (accts s) = None /\ marker (accts s') = Some MARKER_CLAIMED /\ is_claim e = true /\ is_cancel e = false) \/
  (marker (accts s) = None /\ marker (accts s') = Some MARKER_CANCELLED /\ is_claim e = false /\ is_cancel e = true).
Proof.
  intros [s0 accounts data ix s0' Hclk Hix Hp|s0 s0' He].
  - rewrite (process_instruction_decoded _ _ _ _ _ Hix) in Hp. destruct ix; simpl in Hp.
    3: { apply process_claim_Ok in Hp as (c & a & r & He); [|done].
         assert (event_of pid s0 accounts (Claim args) = EvClaim (claim_id c args)) as ->.
         { unfold event_of. by rewrite (proj2 (current_config_Some _ _ _) (ce_config _ _ _ _ _ _ _ He)). }
         pose proof (ce_fresh _ _ _ _ _ _ _ He) as Hf. pose proof (ce_marked _ _ _ _ _ _ _ He) as Hm.
         simpl. destruct (decide (claim_id c args = id)) as [Hid|Hne].
         - right. left. rewrite Hid in Hf, Hm. by rewrite bool_decide_eq_true_2.
         - left. rewrite bool_decide_eq_false_2 by done. split; [|done]. apply evolves_off.
           eapply evolves_weaken; [apply (ce_frame _ _ _ _ _ _ _ He)|]. intros k ->. by apply off_executed. }
    10: { apply process_cancel_Ok in Hp as (c & He).
          assert (event_of pid s0 accounts (Cancel args) = EvCancel (cancel_sub_id c args)) as ->.
          { unfold event_of. by rewrite (proj2 (current_config_Some _ _ _) (xe_config _ _ _ _ _ He)). }
          pose proof (xe_fresh _ _ _ _ _ He) as Hf. pose proof (xe_marked _ _ _ _ _ He) as Hm.
          simpl. destruct (decide (cancel_sub_id c args = id)) as [Hid|Hne].
          - right. right. rewrite Hid in Hf, Hm. by rewrite bool_decide_eq_true_2.
          - left. rewrite bool_decide_eq_false_2 by done. split; [|done]. apply evolves_off.
            eapply evolves_weaken; [apply (xe_frame _ _ _ _ _ He)|]. intros k ->. by apply off_executed. }
    all: left; split; [|unfold event_of; by destruct (current_config _ _)]; apply evolves_off.
    all: revert Hp; lazymatch goal with
      | |- context [process_init] => apply keeps_init
      | |- context [process_send] => apply keeps_send
      | |- context [process_set_validator] => apply keeps_set_validator
      | |- context [process_set_threshold] => apply keeps_set_threshold
      | |- context [process_register_asset] => apply keeps_register_asset
      | |- context [process_register_corridor] => apply keeps_register_corridor
      | |- context [process_set_paused] => apply keeps_set_paused
      | |- context [process_set_guardian] => apply keeps_set_guardian
      | |- context [process_refund] => apply keeps_refund
      | |- context [process_cancel_scheduled_governance] => apply keeps_cancel_scheduled
      | |- context [process_seal] => apply keeps_seal
      | |- context [process_schedule_action] => apply keeps_schedule
      | |- _ => apply keeps_fail
      end; auto.
  - left. split; [|done]. apply evolves_off. eapply evolves_weaken; [apply (env_pda _ _ _ He)|]. intros k Hk. apply Hk.
Qed.

(** The marker tells exactly which of the two happened. *)
Definition marker_tells (b : option byte) (evs : list gate_event) : Prop :=
  match b with
  | None => count is_claim evs = 0%nat /\ count is_cancel evs = 0%nat
  | Some b => (b = MARKER_CLAIMED /\ count is_claim evs = 1%nat /\ count is_cancel evs = 0%nat) \/
              (b = MARKER_CANCELLED /\ count is_claim evs = 0%nat /\ count is_cancel evs = 1%nat)
  end.
Lemma marker_history s0 evs s' : marker (accts s0) = None -> history pid s0 evs s' ->
  marker_tells (marker (accts s')) evs.
Proof.
  intros H0 Hh. induction Hh as [s|s evs s1 e s2 _ IH Hs]; [by rewrite H0|]. specialize (IH H0).
  unfold marker_tells in *. rewrite !count_snoc.
  destruct (marker_step _ _ _ Hs) as [(-> & -> & ->)|[(Hn & -> & -> & ->)|(Hn & -> & -> & ->)]].
  - rewrite !Nat.add_0_r. done.
  - rewrite Hn in IH. destruct IH as [-> ->]. by left.
  - rewrite Hn in IH. destruct IH as [-> ->]. by right.
Qed.
(** Once marked, nothing more happens to the id. *)
Lemma marker_final s evs s' b : marker (accts s) = Some b -> history pid s evs s' ->
  marker (accts s') = Some b /\ count is_claim evs = 0%nat /\ count is_cancel evs = 0%nat.
Proof.
  intros H0 Hh. induction Hh as [s|s evs s1 e s2 _ IH Hs]; [done|]. destruct (IH H0) as (Hm & Hc & Hx).
  rewrite !count_snoc, Hc, Hx.
  destruct (marker_step _ _ _ Hs) as [(-> & -> & ->)|[(Hn & _)|(Hn & _)]]; [done|congruence..].
Qed.

(** The observer reports what happened. Start from a ledger where an id is not
    spent and let any history follow: what the observer reads off the marker account
    at its end is [Claimed] exactly when the id was claimed in that history,
    [Cancelled] exactly when it was cancelled, and nothing exactly when neither
    happened; and a report is final, no continuation makes it false. *)
Theorem observer_exact s0 evs s' :
  marker (accts s0) = None -> history pid s0 evs s' ->
  let seen := destination_terminal (account_view pid <$> accts s' !! executed_account pid id) in
  (seen = Some TClaimed <-> count is_claim evs = 1%nat) /\
  (seen = Some TCancelled <-> count is_cancel evs = 1%nat) /\
  (seen = None <-> count is_claim evs = 0%nat /\ count is_cancel evs = 0%nat) /\ seen <> Some TRefunded /\
  (seen <> None -> forall evs2 s2, history pid s' evs2 s2 ->
     count is_claim evs2 = 0%nat /\ count is_cancel evs2 = 0%nat /\
     destination_terminal (account_view pid <$> accts s2 !! executed_account pid id) = seen).
Proof.
  intros H0 Hh seen. pose proof (marker_history _ _ _ H0 Hh) as Ht.
  assert (forall m, destination_terminal (account_view pid <$> m !! executed_account pid id) =
    match marker m with
    | Some b => if bool_decide (b = MARKER_CLAIMED) then Some TClaimed
                else if bool_decide (b = MARKER_CANCELLED) then Some TCancelled else None
    | None => None end) as Hread.
  { intros m. unfold destination_terminal, marker_at, acct, account_view.
    destruct (m !! executed_account pid id) as [a|]; simpl; [|by case_bool_decide].
    case_bool_decide; simpl; [|done]. by destruct (acc_data a). }
  unfold seen in *. clear seen. rewrite Hread. unfold marker_tells in Ht.
  destruct (marker (accts s')) as [b|] eqn:Hb.
  - assert (forall evs2 s2, history pid s' evs2 s2 -> count is_claim evs2 = 0%nat /\ count is_cancel evs2 = 0%nat /\
      marker (accts s2) = Some b) as Hfin by (intros evs2 s2 H2; by destruct (marker_final _ _ _ _ Hb H2) as (? & ? & ?)).
    destruct Ht as [(-> & Hc & Hx)|(-> & Hc & Hx)]; vm_compute (bool_decide (_ = _)); rewrite Hc, Hx;
      (split_and!; [split; done..|split; [done|intros [? ?]; done]|done|]);
      intros _ evs2 s2 H2; rewrite Hread; destruct (Hfin _ _ H2) as (? & ? & ->); split_and!; done.
  - destruct Ht as [Hc Hx]. rewrite Hc, Hx. split_and!; try done; by split.
Qed.
End MarkerHistory.

(** * What a vote means *)

Section Votes.
Context {RT : Runtime} {RL : RuntimeLaws} {GB : GateBorsh} {GL : GateBorshLaws}.
Context {HX : HexCodec} {HC : HostCrypto}.
Variable pid : pubkey.
Hypothesis pid_not_spl : pid <> spl_token_id.
Hypothesis zero_record_ser : borsh_ser zero_record = zeros (Z.to_nat SENT_RECORD_LEN).
Variable cfg : AttesterConfig.

(** The cluster is read at ledger [s]. *)
Definition reads_ledger (sol : cluster) (s : ledger) : Prop :=
  (forall k, cl_account sol k = Ok (accts s !! k)) /\ cl_now sol = Ok (clock s).

Lemma decide_refund src dst aged c r : decide_vote src dst aged c r = AttestRefund ->
  ds_cancelled dst = true /\ (forall x, src = Some x -> ss_sent x = true /\ ss_refunded x = false) /\ r = false.
Proof.
  unfold decide_vote. destruct (ds_executed dst), (ds_cancelled dst); simpl; try done;
    destruct src as [[[] []]|]; simpl; try done; destruct c, aged as [[]|], r; try done; naive_solver.
Qed.
Lemma decide_cancel src dst aged c r : decide_vote src dst aged c r = AttestCancel ->
  ds_executed dst = false /\ ds_cancelled dst = false /\ aged = Some true /\
  (forall x, src = Some x -> ss_sent x = true /\ ss_refunded x = false) /\ c = false.
Proof.
  unfold decide_vote. destruct (ds_executed dst), (ds_cancelled dst); simpl; try done;
    destruct src as [[[] []]|]; simpl; try done; destruct c, aged as [[]|], r; try done; naive_solver.
Qed.

Lemma destination_marker sol s id dst : reads_ledger sol s -> solana_destination_state pid sol id = Ok dst ->
  (ds_cancelled dst = true <-> marker_at pid (accts s) (executed_account pid id) = Some MARKER_CANCELLED) /\
  (ds_executed dst = true <-> spent pid (accts s) id).
Proof.
  intros [Hr _]. unfold solana_destination_state, spent, marker_at, acct. rewrite Hr. cbn [mbind result_bind].
  destruct (accts s !! executed_account pid id) as [a|]; simpl.
  - intros [= <-]. case_bool_decide; simpl; [|by split; (split; [done|]); [|intros [? ?]]].
    destruct (acc_data a) as [|b l]; simpl; [by split; (split; [done|]); [|intros [? ?]]|].
    rewrite bool_decide_eq_true. split; [done|]. by split.
  - intros [= <-]. simpl. by case_bool_decide; (split; (split; [done|])); [|intros [? ?]| |intros [? ?]].
Qed.

(** C14. A refund is attested only for what can never be paid here. Suppose the
    attester of the destination votes to refund an id, reading a ledger that a
    history of the gate reached from one where the id was unspent. Then the id was
    cancelled in that history, it was never claimed in it, and no continuation of
    it, whatever anyone submits, claims it: the repayment at the source cannot come
    on top of a payout here. *)
Theorem refund_vote_never_double_pays sol rec id s0 evs s' :
  executed_isolated pid id -> marker_at pid (accts s0) (executed_account pid id) = None ->
  history pid s0 evs s' -> reads_ledger sol s' -> rec_chain_id_to rec = at_chain_id cfg ->
  attest pid cfg sol rec = Some (AttestRefund, id) ->
  bound_submission_id rec = Some id /\ count (is_cancel id) evs = 1%nat /\ count (is_claim id) evs = 0%nat /\
  forall evs2 s2, history pid s' evs2 s2 -> count (is_claim id) evs2 = 0%nat.
Proof.
  intros Hiso H0 Hh Hr Hto Hv. unfold attest in Hv. apply bind_Some in Hv as (id' & Hb & Hv).
  rewrite Hto, Z.eqb_refl in Hv.
  destruct (evm_to_solana_facts _ _ _ _ _) as [[[[src dst] aged]|]|] eqn:Hf; [|done..].
  injection Hv as Hd ->. apply decide_refund in Hd as (Hc & _ & _).
  unfold evm_to_solana_facts in Hf. apply result_bind_Ok in Hf as (dst' & Hdst & Hf).
  assert (dst' = dst) as ->.
  { destruct (at_timeout_secs cfg), (at_evm cfg (rec_chain_id_from rec)); try (by injection Hf as <- <- <-).
    apply result_bind_Ok in Hf as (? & _ & Hf). apply result_bind_Ok in Hf as (? & _ & Hf).
    by injection Hf as <- <- <-. }
  destruct (destination_marker _ _ _ _ Hr Hdst) as [Hmk _]. apply Hmk in Hc.
  pose proof (marker_history pid pid_not_spl id Hiso _ _ _ H0 Hh) as Ht. rewrite Hc in Ht.
  split; [done|]. destruct Ht as [([=] & _)|(_ & Hcl & Hcx)]. split_and!; [done..|].
  intros evs2 s2 H2. by destruct (marker_final pid pid_not_spl id Hiso _ _ _ _ Hc H2) as (_ & ? & _).
Qed.

(** C15. A vote about a transfer that left this gate rests on its own record. If the
    attester votes to cancel or refund such an id, reading a ledger reached from one
    without a record of the id, then the history contains the successful [send] of
    exactly that id and no refund since; a cancel vote means moreover that the
    destination gate answered neither executed nor cancelled, and that the cluster's
    clock is at least the configured timeout past the moment of that send; a refund
    vote means that the destination gate answered cancelled. *)
Theorem source_vote_needs_send sol rec id vote s0 evs s' :
  sent_isolated pid id -> ~ live pid (accts s0) (sent_account pid id) ->
  history pid s0 evs s' -> reads_ledger sol s' ->
  rec_chain_id_from rec = at_chain_id cfg -> rec_chain_id_to rec <> at_chain_id cfg ->
  attest pid cfg sol rec = Some (vote, id) -> vote = AttestCancel \/ vote = AttestRefund ->
  exists pre post s1 s2 args c c' a wire payer user reader dst,
    evs = pre ++ EvSend (sa_chain_id_to args) (nonce c (sa_chain_id_to args)) :: post /\
    history pid s0 pre s1 /\ send_effect pid args s1 s2 c c' a wire payer user /\ history pid s2 post s' /\
    send_id c a args wire payer = id /\ count (is_refund id) post = 0%nat /\
    at_evm cfg (rec_chain_id_to rec) = Some reader /\ destination_state reader id = Ok dst /\
    match vote with
    | AttestCancel => ed_executed dst = false /\ ed_cancelled dst = false /\
        exists timeout, at_timeout_secs cfg = Some timeout /\ timeout <= i_saturating_sub 64 (clock s') (clock s1)
    | _ => ed_cancelled dst = true
    end.
Proof.
  intros Hiso Hdead Hh Hr Hfrom Hto Hv Hvote. unfold attest in Hv. apply bind_Some in Hv as (id' & Hb & Hv).
  rewrite Hfrom, Z.eqb_refl, (proj2 (Z.eqb_neq _ _)) in Hv by done.
  destruct (solana_to_evm_facts _ _ _ _ _) as [[[[src dst] aged]|]|] eqn:Hf; [|done..].
  injection Hv as Hd ->. unfold solana_to_evm_facts in Hf.
  destruct (at_evm cfg (rec_chain_id_to rec)) as [reader|]; [|done].
  apply result_bind_Ok in Hf as (d & Hdst & Hf). apply result_bind_Ok in Hf as ([st lk] & Hsrc & Hf).
  apply result_bind_Ok in Hf as (ag & Hag & Hf). injection Hf as <- <- <-.
  assert (ss_sent st = true /\ ss_refunded st = false) as [Hsent Href].
  { destruct Hvote as [-> | ->]; [apply decide_cancel in Hd as (_ & _ & _ & H & _)|apply decide_refund in Hd as (_ & H & _)];
      by apply H. }
  unfold solana_source_state in Hsrc. rewrite (proj1 Hr) in Hsrc. cbn [mbind result_bind] in Hsrc.
  injection Hsrc as Hsrc. unfold solana_source_record, account_view in Hsrc.
  destruct (accts s' !! sent_account pid id) as [acc|] eqn:Hlook; simpl in Hsrc; [|by injection Hsrc as <- _].
  assert (acct (accts s') (sent_account pid id) = acc) as Eacc by (unfold acct; by rewrite Hlook).
  case_bool_decide as Ho; simpl in Hsrc; [|by injection Hsrc as <- _].
  destruct (host_decode_sent_record (acc_data acc)) as [r|] eqn:Hdec; [|by injection Hsrc as <- _].
  destruct (record_retired r) eqn:Hret; injection Hsrc as <- <-; [done|].
  destruct (sent_life pid pid_not_spl id Hiso s0 evs s' Hdead Hh)
    as [Hnl|(pre & ev & post & s1 & s2 & r' & -> & Hpre & Hpost & _ & Hrs & Hcase)].
  { exfalso. apply Hnl. unfold live. rewrite Eacc. split; [done|]. intros E. by rewrite E in Hdec. }
  assert (SentRecord_wf r') as Hwr by (by eapply recorded_send_wf).
  destruct Hcase as [[[_ Hst] Hcnt]|[_ Hst]]; rewrite Eacc in Hst; rewrite Hst in Hdec.
  2: { exfalso. rewrite <- zero_record_ser, host_decode_ser in Hdec by apply zero_record_wf. injection Hdec as <-.
       by rewrite zero_record_retired in Hret. }
  rewrite host_decode_ser in Hdec by done. injection Hdec as <-.
  destruct Hrs as (args & c & c' & a & w & p & u & He & Hid & -> & Hargs & _ & ->). cbn [sr_locked_at] in *.
  exists pre, post, s1, s2, args, c, c', a, w, p, u, reader, d. split_and!; try done.
  destruct Hvote as [-> | ->].
  - apply decide_cancel in Hd as (He1 & Hc1 & Hage & _). cbn in He1, Hc1. split_and!; [done..|].
    destruct (at_timeout_secs cfg) as [timeout|]; [|by injection Hag as <-]. exists timeout. split; [done|].
    cbn [ds_cancelled] in Hag. rewrite Hc1 in Hag. cbn [negb andb ss_sent ss_refunded] in Hag.
    apply result_bind_Ok in Hag as (now & Hnow & [= <-]). rewrite (proj2 Hr) in Hnow. injection Hnow as <-.
    injection Hage as Hage. unfold solana_aged_out in Hage. apply andb_true_iff in Hage as [_ Hage].
    by apply Z.leb_le in Hage.
  - by apply decide_refund in Hd as (Hc & _).
Qed.
End Votes.
