(* ===== verification/Submitter.v ===== *)
(** The relayer's submitter (solana-relayer target.rs, gate.rs): one pass over the
    store's claim and refund queues, which turns every record with a quorum into a
    [Claim], [Cancel] or [Refund] instruction of the Solana gate. Nodes and the store are
    the outside; everything sent is kept in order. *)

From S2P Require Import Prelude.
From S2P Require Import Text.
From S2P Require Import SolanaRuntime.
From S2P Require Import Effects.
From S2P Require Import GateTypes.
From S2P Require Import GateState.
From S2P Require Import GateVerify.
From S2P Require Import GateGov.
From S2P Require Import GateTransfers.
From S2P Require Import HostVerify.
From S2P Require Import HostRecord.
From S2P Require Import Origin.
From S2P Require Import Attester.
From S2P Require HostHash.

(** * The wire *)

(** The leading fields of the configuration account. *)
Record ConfigView := MkConfigView {
  cv_owner : pubkey;
  cv_bridge_domain : hash32;
  cv_guardian : pubkey;
  cv_validators : list evm_address;
  cv_threshold : Z;   (* u32 *)
  cv_chain_id : Z;    (* u64 *)
  cv_paused : bool;
}.

(** Derived Borsh: [ConfigView::deserialize], which leaves a tail, and the arguments'
    [serialize]. *)
Class SubmitBorsh := {
  ConfigView_deserialize : list byte -> option ConfigView;
  ClaimArgs_serialize : ClaimArgs -> list byte;
  CancelArgs_serialize : CancelArgs -> list byte;
  RefundArgs_serialize : RefundArgs -> list byte;
}.

Record Instruction := MkInstruction { in_accounts : list account_info; in_data : list byte }.
(** [AccountMeta::new_readonly(key, false)], [AccountMeta::new(key, signer)] *)
Definition meta_readonly (k : pubkey) : account_info := AccountInfo k false false.
Definition meta_writable (k : pubkey) (signer : bool) : account_info := AccountInfo k signer true.

(** * The outside *)

Class SolanaNode := {
  (** [get_account]: a missing account is an error *)
  sn_get_account : nat -> pubkey -> result unit account;
  (** [get_account_with_commitment] *)
  sn_account : nat -> pubkey -> result unit (option account);
  sn_blockhash : nat -> result unit unit;
  sn_send_and_confirm : nat -> Instruction -> result unit unit;
  sn_pending_claims : nat -> result unit (list SubmissionRecord);
  sn_pending_refunds : nat -> result unit (list SubmissionRecord);
}.

(** What went out, with the compute units asked for and the answer. *)
Record Sending := MkSending { sg_units : Z; sg_instruction : Instruction; sg_result : result unit unit }.
Record Submitter := MkSubmitter { sb_unencodable : gset text; sb_sent : list Sending }.
Definition mark_unencodable (i : text) (s : Submitter) : Submitter :=
  MkSubmitter ({[i]} ∪ sb_unencodable s) (sb_sent s).
Definition add_sending (x : Sending) (s : Submitter) : Submitter :=
  MkSubmitter (sb_unencodable s) (sb_sent s ++ [x]).

Section Submitter.
Context {RT : Runtime} {GB : GateBorsh} {HX : HexCodec} {HC : HostCrypto} {SB : SubmitBorsh} {SN : SolanaNode}.
Variables (program_id payer : pubkey) (chain_id : Z).

Abbreviation T := (eff Submitter unit).
Definition node {A} (f : nat -> result unit A) : T A := r ← ask f; try r.

(** * Reading the gate (gate.rs) *)

Definition decode_gate_config (data : list byte) : option GateConfig :=
  view ← ConfigView_deserialize data;
  if bool_decide (cv_validators view = []) then None
  else Some (MkGateConfig (cv_validators view) (cv_threshold view) (cv_bridge_domain view)).

Definition LEGACY_ASSET_LEN : Z := 32 * 3.
Definition asset_vault (owner_is_program : bool) (data : list byte) (debridge_id : hash32) : option pubkey :=
  if negb owner_is_program then None
  else
    '(recorded_id, vault) ←
      (if (len data =? LEGACY_ASSET_LEN) || (len data =? LEGACY_ASSET_LEN + 1) then
         let legacy := take (Z.to_nat LEGACY_ASSET_LEN) data in
         d ← arr_of_list 32 (take 32 legacy);
         v ← arr_of_list 32 (take 32 (drop 64 legacy));
         Some (d, v)
       else a ← borsh_de data; Some (as_debridge_id a, as_vault a));
    if bool_decide (recorded_id = debridge_id) then Some vault else None.

(** * The wire form (target.rs) *)

Definition claim_instruction_data (args : ClaimArgs) : list byte := Byte.x02 :: ClaimArgs_serialize args.
Definition cancel_instruction_data (args : CancelArgs) : list byte := Byte.x0a :: CancelArgs_serialize args.
Definition refund_instruction_data (args : RefundArgs) : list byte := Byte.x0b :: RefundArgs_serialize args.

Definition vault_authority_account : pubkey := fst (find_program_address vault_authority_seeds program_id).
Definition cancel_accounts (id : hash32) : list account_info :=
  [meta_readonly (config_account program_id); meta_writable (executed_account program_id id) false;
   meta_writable payer true; meta_readonly system_program_id].
Definition claim_accounts (debridge_id id : hash32) (vault receiver_token : pubkey) : list account_info :=
  [meta_readonly (config_account program_id); meta_readonly (asset_account program_id debridge_id);
   meta_writable (executed_account program_id id) false; meta_writable payer true; meta_writable vault false;
   meta_writable receiver_token false; meta_readonly vault_authority_account; meta_readonly spl_token_id;
   meta_readonly system_program_id].
Definition refund_accounts (config asset sent refunded payer vault source_token vault_authority : pubkey) : list account_info :=
  [meta_readonly config; meta_readonly asset; meta_writable sent false; meta_writable refunded false;
   meta_writable payer true; meta_writable vault false; meta_writable source_token false;
   meta_readonly vault_authority; meta_readonly spl_token_id; meta_readonly system_program_id].

(** * Submitting *)

(** A transaction of the compute budget request and the instruction. *)
Definition submit (gate_cfg : GateConfig) (ix : Instruction) : T unit :=
  let units := compute_budget_for (len (gc_validators gate_cfg)) in
  _ ← node sn_blockhash;
  r ← ask (fun t => sn_send_and_confirm t ix);
  _ ← modify (add_sending (MkSending units ix r));
  try r.

Definition encodable_or_skip (r : SubmissionRecord) (gate_cfg : GateConfig) : T (option EncodableRecord) :=
  match encodable r (gc_bridge_domain gate_cfg) with
  | Ok e => mret (Some e)
  | Err _ => _ ← modify (mark_unencodable (rec_submission_id r)); mret None
  end.

(** The marker: owned by the program and not empty. *)
Definition is_spent (a : option account) : bool :=
  match a with
  | Some a => bool_decide (acc_owner a = program_id) && negb (bool_decide (acc_data a = []))
  | None => false
  end.
Definition below_quorum (signatures : list (list byte)) (gate_cfg : GateConfig) : bool :=
  as_u 32 (len signatures) <? gc_threshold gate_cfg.

Definition try_cancel (r : SubmissionRecord) (enc : EncodableRecord) (gate_cfg : GateConfig) : T bool :=
  let raw := raw_signatures (rec_cancel_signatures r) in
  if bool_decide (raw = []) then mret false
  else
    let signatures := ordered_signatures (HostHash.domain_id CANCEL_PREFIX (enc_id enc)) raw gate_cfg in
    if below_quorum signatures gate_cfg then mret false
    else
      let args := cancel_args r enc signatures in
      _ ← submit gate_cfg (MkInstruction (cancel_accounts (enc_id enc)) (cancel_instruction_data args));
      mret true.
Definition try_cancel_checked (r : SubmissionRecord) (gate_cfg : GateConfig) : T bool :=
  if match rec_cancel_signatures r with [] => true | _ => false end then mret false
  else
    enc ← encodable_or_skip r gate_cfg;
    match enc with
    | None => mret true
    | Some enc =>
        executed ← node (fun t => sn_account t (executed_account program_id (enc_id enc)));
        if is_spent executed then mret true else try_cancel r enc gate_cfg
    end.

(** [get_account] of the asset and the vault it binds. *)
Definition read_vault (debridge_id : hash32) : T pubkey :=
  asset ← node (fun t => sn_get_account t (asset_account program_id debridge_id));
  expect (asset_vault (bool_decide (acc_owner asset = program_id)) (acc_data asset) debridge_id) tt.

Definition try_claim (r : SubmissionRecord) (gate_cfg : GateConfig) : T unit :=
  enc ← encodable_or_skip r gate_cfg;
  match enc with
  | None => mret tt
  | Some enc =>
      let id := enc_id enc in
      executed ← node (fun t => sn_account t (executed_account program_id id));
      if is_spent executed then mret tt
      else
        receiver_token ← expect (arr_of_list 32 (enc_receiver enc)) tt;
        let signatures := ordered_signatures id (raw_signatures (rec_signatures r)) gate_cfg in
        if below_quorum signatures gate_cfg then mret tt
        else
          vault ← read_vault (enc_debridge_id enc);
          let args := claim_args r enc signatures in
          submit gate_cfg (MkInstruction (claim_accounts (enc_debridge_id enc) id vault receiver_token)
                             (claim_instruction_data args))
  end.

Definition try_refund (r : SubmissionRecord) (gate_cfg : GateConfig) : T unit :=
  enc ← encodable_or_skip r gate_cfg;
  match enc with
  | None => mret tt
  | Some enc =>
      let id := enc_id enc in
      refunded ← node (fun t => sn_account t (refunded_account program_id id));
      if is_spent refunded then mret tt
      else
        sent_acct ← node (fun t => sn_account t (sent_account program_id id));
        let record := fst (solana_source_record (account_view program_id <$> sent_acct)) in
        if negb (ss_sent record) || ss_refunded record then mret tt
        else
          source_token ← expect (sr_source_token <$>
            host_decode_sent_record (match sent_acct with Some a => acc_data a | None => [] end)) tt;
          let signatures := ordered_signatures (HostHash.domain_id REFUND_PREFIX id)
            (raw_signatures (rec_refund_signatures r)) gate_cfg in
          if below_quorum signatures gate_cfg then mret tt
          else
            vault ← read_vault (enc_debridge_id enc);
            let args := refund_args r enc signatures in
            submit gate_cfg (MkInstruction
              (refund_accounts (config_account program_id) (asset_account program_id (enc_debridge_id enc))
                 (sent_account program_id id) (refunded_account program_id id) payer vault source_token
                 vault_authority_account)
              (refund_instruction_data args))
  end.

(** * A pass over the queues *)

Definition refund_one (gate_cfg : GateConfig) (r : SubmissionRecord) : T unit :=
  if negb (rec_chain_id_from r =? chain_id) || match rec_refund_signatures r with [] => true | _ => false end then mret tt
  else _ ← attempt (E' := unit) (try_refund r gate_cfg); mret tt.
Definition claim_one (gate_cfg : GateConfig) (r : SubmissionRecord) : T unit :=
  if negb (rec_chain_id_to r =? chain_id) then mret tt
  else
    cancelled ← attempt (try_cancel_checked r gate_cfg);
    match cancelled with
    | Ok true => mret tt
    | Ok false | Err _ => _ ← attempt (E' := unit) (try_claim r gate_cfg); mret tt
    end.
Definition tick : T unit :=
  refunds ← ask sn_pending_refunds;
  let refunds := match refunds with Ok queue => queue | Err _ => [] end in
  claims ← ask sn_pending_claims;
  if match refunds, claims with [], Ok [] => true | _, _ => false end then mret tt
  else
    config ← node (fun t => sn_get_account t (config_account program_id));
    gate_cfg ← expect (decode_gate_config (acc_data config)) tt;
    _ ← mapM (refund_one gate_cfg) refunds;
    claims ← try claims;
    _ ← mapM (claim_one gate_cfg) claims;
    mret tt.
(** [run]: a failed tick is logged and the next one starts. *)
Fixpoint run (n : nat) : T unit :=
  match n with
  | O => mret tt
  | S n => _ ← attempt (E' := unit) tick; run n
  end.
End Submitter.
