(* ===== verification/SubmitterGate.v ===== *)
(** The gate's side of a submission: on instructions laid out as the submitter lays them
    out, every check of [process_claim], [process_cancel] and [process_refund] that the
    submitter can answer for passes, and only the cross-program calls remain. *)

From S2P Require Import Prelude.
From S2P Require Import SolanaRuntime.
From S2P Require Import GateTypes.
From S2P Require Import GateState.
From S2P Require Import GateVerify.
From S2P Require Import GateGov.
From S2P Require Import GateTransfers.
From S2P Require Import Origin.
From S2P Require Import Submitter.
From S2P Require GateHash.

(** Reading an account, then going on. *)
Lemma ai_owner_bind `{Runtime} {B} ai (f : pubkey -> prog B) s :
  (ai_owner ai ≫= f) s = f (acc_owner (acct (accts s) (ai_key ai))) s.
Proof. done. Qed.
Lemma ai_data_bind `{Runtime} {B} ai (f : list byte -> prog B) s :
  (ai_data ai ≫= f) s = f (acc_data (acct (accts s) (ai_key ai))) s.
Proof. done. Qed.
Lemma set_data_bind `{Runtime} {B} ai d (f : unit -> prog B) s :
  (set_data ai d ≫= f) s = f tt (Ledger (set_acct_data (accts s) (ai_key ai) d) (clock s) (logs s)).
Proof. done. Qed.
Lemma lift_bind {A B} (r : result program_error A) a (f : A -> prog B) s : r = Ok a -> (lift r ≫= f) s = f a s.
Proof. by intros ->. Qed.

Section GateSide.
Context {RT : Runtime} {GB : GateBorsh} {GL : GateBorshLaws}.
Variables (pid payer : pubkey).

(** * What is left of an instruction once it is accepted *)

Definition pay_marker (seeds : list (list byte)) (marker_state : byte) : prog unit :=
  create_marker pid (meta_writable payer true) (meta_writable (fst (find_program_address seeds pid)) false)
    (meta_readonly system_program_id) seeds (snd (find_program_address seeds pid)) marker_state.
Definition pay_tokens (vault dst : pubkey) (amount : Z) : prog unit :=
  invoke_signed (SplTransfer spl_token_id vault dst (vault_authority_account pid) amount)
    [meta_writable vault false; meta_writable dst false; meta_readonly (vault_authority_account pid); meta_readonly spl_token_id]
    [vault_authority_seeds ++ [[snd (find_program_address vault_authority_seeds pid)]]].
Definition claim_payout (id : hash32) (vault receiver_token : pubkey) (amount : Z) : prog unit :=
  _ ← pay_marker (executed_seeds id) MARKER_CLAIMED;
  _ ← pay_tokens vault receiver_token amount;
  msg ("CLAIMED " +:+ bs58_id id).
Definition cancel_burn (id : hash32) (args : CancelArgs) : prog unit :=
  _ ← pay_marker (executed_seeds id) MARKER_CANCELLED;
  _ ← emit_lifecycle CANCELLED_EVENT_TAG id (ca_debridge_id args) (ca_chain_id_from args) (ca_nonce args);
  msg ("CANCELLED " +:+ bs58_id id).
Definition refund_payout (c : Config) (id : hash32) (args : RefundArgs) (vault : pubkey) (sent : SentRecord) : prog unit :=
  _ ← pay_marker (refunded_seeds id) MARKER_CLAIMED;
  sent_data ← ai_data (meta_writable (sent_account pid id) false);
  _ ← set_data (meta_writable (sent_account pid id) false) (zeros (length sent_data));
  _ ← pay_tokens vault (sr_source_token sent) (sr_amount sent);
  _ ← emit_lifecycle REFUNDED_EVENT_TAG id (ra_debridge_id args) (cfg_chain_id c) (ra_nonce args);
  msg ("REFUNDED " +:+ bs58_id id).

(** * The checks *)

(** An initialised token account of a mint. *)
Definition holds_mint (m : gmap pubkey account) (k mint : pubkey) : Prop :=
  acc_owner (acct m k) = spl_token_id /\ exists t, token_at m k = Some t /\ ta_mint t = mint.

Lemma load_asset_run ai id s a : ai_key ai = asset_account pid id -> asset_at pid (accts s) id a ->
  load_asset pid id ai s = Ok (a, s).
Proof.
  unfold asset_account, asset_at, load_asset, verify_asset_account. intros Hk (Ho & Hd & Hid).
  unfold asset_account in Ho, Hd. destruct (find_program_address (asset_seeds id) pid) as [e b]. cbn [fst] in *.
  rewrite ai_owner_bind, Hk, Ho, !bool_decide_eq_true_2 by done. cbn [require mbind result_bind].
  rewrite (lift_bind _ tt) by done. rewrite ai_data_bind, Hk, Hd, (lift_bind _ a) by done. rewrite ensure_run, bool_decide_eq_true_2 by done. done.
Qed.
Lemma spl_mint_run ai s mint : holds_mint (accts s) (ai_key ai) mint ->
  exists o, spl_mint_and_owner ai spl_token_id s = Ok ((mint, o), s).
Proof.
  intros (Ho & t & Ht & <-). exists (ta_owner t). unfold spl_mint_and_owner.
  rewrite ai_owner_bind. rewrite ensure_run, Ho, bool_decide_eq_true_2 by done.
  rewrite ai_data_bind. unfold token_at in Ht. rewrite Ht. done.
Qed.
Lemma receiver_run ai s mint : holds_mint (accts s) (ai_key ai) mint ->
  exists o, receiver_token_account ai spl_token_id s = Ok ((mint, o), s).
Proof.
  intros (Ho & t & Ht & <-). exists (ta_owner t). unfold receiver_token_account.
  rewrite ai_owner_bind. rewrite ensure_run, Ho, bool_decide_eq_true_2 by done.
  rewrite ai_data_bind. unfold token_at in Ht. rewrite Ht. done.
Qed.
Lemma binding_run a : verify_asset_binding a spl_token_id (as_vault a) (as_mint a) (as_mint a) = Ok tt.
Proof. unfold verify_asset_binding. by rewrite !bool_decide_eq_true_2 by done. Qed.
Lemma sent_run ai id s r : ai_key ai = sent_account pid id -> sent_at pid (accts s) id r ->
  load_sent_record pid id ai s = Ok (r, s).
Proof.
  unfold sent_at, sent_account, load_sent_record. intros Hk (Ho & Hne & Hd).
  destruct (find_program_address (sent_seeds id) pid) as [e b]. cbn [fst] in *.
  rewrite ensure_run, Hk, bool_decide_eq_true_2 by done. rewrite ai_owner_bind.
  rewrite ensure_run, Hk, Ho, bool_decide_eq_true_2 by done. rewrite ai_data_bind.
  rewrite ensure_run, Hk, bool_decide_eq_false_2 by done. cbn [negb]. by rewrite Hd.
Qed.
Lemma unspent_run m k : marker_at pid m k = None ->
  is_already_executed (acc_owner (acct m k)) (len (acc_data (acct m k))) pid = false.
Proof. apply marker_not_executed. Qed.
End GateSide.

Section Accepted.
Context {RT : Runtime} {GB : GateBorsh} {GL : GateBorshLaws}.
Variables (pid payer : pubkey).

Lemma cancel_accepted s c args : let id := cancel_sub_id c args in
  config_at pid (accts s) c -> cfg_paused c = false -> ~ spent pid (accts s) id ->
  verify_threshold c (GateHash.cancel_id id) (ca_signatures args) = Ok tt ->
  process_cancel pid (cancel_accounts pid payer id) args s = cancel_burn pid payer id args s.
Proof.
  intros id Hc Hp Hs Hv. unfold process_cancel, cancel_accounts, cancel_burn, pay_marker. cbn beta iota delta [next_account_info].
  do 4 (erewrite prog_bind_run by done; cbn beta iota).
  erewrite prog_bind_run by by apply load_config_at. cbn beta iota. rewrite ensure_run, Hp. cbn [negb]. cbv iota beta zeta.
  fold (cancel_sub_id c args). fold id. unfold executed_account.
  assert (E0 : marker_at pid (accts s) (executed_account pid id) = None) by by apply eq_None_not_Some.
  unfold executed_account in E0. destruct (find_program_address (executed_seeds id) pid) as [e b]. cbn [fst snd meta_writable ai_key] in *.
  rewrite ensure_run, bool_decide_eq_true_2 by done. cbn beta iota. rewrite ai_owner_bind. rewrite ai_data_bind.
  cbn [meta_writable ai_key]. rewrite ensure_run, unspent_run by done. cbn [negb]. cbv iota beta. rewrite Hv. done.
Qed.

Lemma claim_accepted s c a args receiver amount : let id := claim_id c args in
  config_at pid (accts s) c -> cfg_paused c = false -> cfg_sealed c = true ->
  asset_at pid (accts s) (cl_debridge_id args) a -> arr_of_list 32 (cl_receiver args) = Some receiver ->
  holds_mint (accts s) (as_vault a) (as_mint a) -> holds_mint (accts s) receiver (as_mint a) ->
  cl_bridge_decimals args = as_bridge_decimals a -> to_local a (cl_amount args) = Ok amount ->
  ~ spent pid (accts s) id -> verify_threshold c id (cl_signatures args) = Ok tt ->
  process_claim pid (claim_accounts pid payer (cl_debridge_id args) id (as_vault a) receiver) args s =
    claim_payout pid payer id (as_vault a) receiver amount s.
Proof.
  intros id Hc Hp Hse Ha Hr Hv1 Hv2 Hd Hl Hs Hv. unfold process_claim, claim_accounts, claim_payout, pay_marker, pay_tokens.
  cbn beta iota delta [next_account_info]. do 9 (erewrite prog_bind_run by done; cbn beta iota).
  erewrite prog_bind_run by by apply load_config_at. cbn beta iota. rewrite ensure_run, Hp. cbn [negb]. cbv iota beta.
  rewrite ensure_run, Hse. cbv iota beta. erewrite prog_bind_run by by apply load_asset_run. cbn beta iota.
  rewrite (lift_bind _ receiver) by by rewrite Hr. rewrite ensure_run, bool_decide_eq_true_2 by done. cbn beta iota.
  destruct (spl_mint_run (meta_writable (as_vault a) false) s (as_mint a) Hv1) as [o1 E1]. rewrite (prog_bind_run _ _ _ _ _ E1).
  destruct (receiver_run (meta_writable receiver false) s (as_mint a) Hv2) as [o2 E2]. rewrite (prog_bind_run _ _ _ _ _ E2).
  cbn [meta_readonly meta_writable ai_key]. rewrite (lift_bind _ tt) by apply binding_run.
  rewrite ensure_run, Hd, Z.eqb_refl. cbv iota beta zeta. rewrite <- Hd. fold (claim_id c args). fold id. unfold executed_account.
  assert (E0 : marker_at pid (accts s) (executed_account pid id) = None) by by apply eq_None_not_Some.
  unfold executed_account, vault_authority_account in *.
  destruct (find_program_address (executed_seeds id) pid) as [e b]. cbn [fst snd] in *.
  rewrite ensure_run, bool_decide_eq_true_2 by done. cbn beta iota. rewrite ai_owner_bind, ai_data_bind.
  cbn [meta_writable ai_key]. rewrite ensure_run, unspent_run by done. cbn [negb]. cbv iota beta. rewrite Hv.
  rewrite (lift_bind _ tt) by done. rewrite (lift_bind _ amount) by done. unfold mbind at 1, prog_bind at 1.
  symmetry. unfold mbind at 1, prog_bind at 1. destruct (create_marker _ _ _ _ _ _ _ s) as [[u s1]|]; [|done].
  destruct (find_program_address vault_authority_seeds pid) as [au ab]. cbn [fst snd].
  rewrite ensure_run, bool_decide_eq_true_2 by done. done.
Qed.

Lemma refund_accepted s c a args sent : let id := refund_sub_id c args in
  config_at pid (accts s) c -> ~ refunded pid (accts s) id -> sent_at pid (accts s) id sent ->
  sr_debridge_id sent = ra_debridge_id args -> asset_at pid (accts s) (ra_debridge_id args) a ->
  holds_mint (accts s) (as_vault a) (as_mint a) -> holds_mint (accts s) (sr_source_token sent) (as_mint a) ->
  verify_threshold c (GateHash.refund_id id) (ra_signatures args) = Ok tt ->
  process_refund pid (refund_accounts (config_account pid) (asset_account pid (ra_debridge_id args)) (sent_account pid id)
    (refunded_account pid id) payer (as_vault a) (sr_source_token sent) (vault_authority_account pid)) args s =
    refund_payout pid payer c id args (as_vault a) sent s.
Proof.
  intros id Hc Hr Hsent Hd Ha Hv1 Hv2 Hv. unfold process_refund, refund_accounts, refund_payout, pay_marker, pay_tokens.
  cbn beta iota delta [next_account_info]. do 10 (erewrite prog_bind_run by done; cbn beta iota).
  erewrite prog_bind_run by by apply load_config_at. cbv iota beta zeta. fold (refund_sub_id c args). fold id.
  assert (E0 : marker_at pid (accts s) (refunded_account pid id) = None) by by apply eq_None_not_Some.
  unfold refunded_account, vault_authority_account in *.
  destruct (find_program_address (refunded_seeds id) pid) as [e b]. cbn [fst snd] in *.
  rewrite ensure_run, bool_decide_eq_true_2 by done. cbn beta iota. rewrite ai_owner_bind, ai_data_bind.
  cbn [meta_writable ai_key]. rewrite ensure_run, unspent_run by done. cbn [negb]. cbv iota beta.
  erewrite prog_bind_run by by apply sent_run. cbn beta iota. rewrite ensure_run, bool_decide_eq_true_2 by done. cbn beta iota.
  rewrite Hv, (lift_bind _ tt) by done. erewrite prog_bind_run by by apply load_asset_run. cbn beta iota.
  rewrite ensure_run, bool_decide_eq_true_2 by done. cbn beta iota.
  destruct (spl_mint_run (meta_writable (as_vault a) false) s (as_mint a) Hv1) as [o1 E1]. rewrite (prog_bind_run _ _ _ _ _ E1).
  destruct (receiver_run (meta_writable (sr_source_token sent) false) s (as_mint a) Hv2) as [o2 E2]. rewrite (prog_bind_run _ _ _ _ _ E2).
  cbn [meta_readonly meta_writable ai_key]. rewrite (lift_bind _ tt) by apply binding_run.
  unfold mbind at 1, prog_bind at 1. symmetry. unfold mbind at 1, prog_bind at 1.
  destruct (create_marker _ _ _ _ _ _ _ s) as [[u s1]|]; [|done]. rewrite !ai_data_bind.
  rewrite !set_data_bind. destruct (find_program_address vault_authority_seeds pid) as [au ab]. cbn [fst snd].
  rewrite ensure_run, bool_decide_eq_true_2 by done. done.
Qed.
End Accepted.
