(* ===== verification/SubmitterSafety.v ===== *)
(** What the relayer's submitter sends, whatever the store serves and however its nodes
    answer: instructions that the gate accepts as far as the submitter can know, for the
    id of the record; and a quorum in the store is enough for it to send one. *)

From S2P Require Import Prelude.
From S2P Require Import Text.
From S2P Require Import SolanaRuntime.
From S2P Require Import Effects.
From S2P Require Import GateTypes.
From S2P Require Import GateState.
From S2P Require Import GateVerify.
From S2P Require Import GateGov.
From S2P Require Import GateTransfers.
From S2P Require Import GateAdmin.
From S2P Require Import GateProgram.
From S2P Require Import AbiParams.
From S2P Require Import HostVerify.
From S2P Require Import HostRecord.
From S2P Require Import Origin.
From S2P Require Import Attester.
From S2P Require Import Submitter.
From S2P Require Import SubmitterGate.
From S2P Require GateHash.
From S2P Require HostHash.

(** * The wire *)

(** Vectors whose length Borsh can write. *)
Definition fits {A} (l : list A) : Prop := len l < 2 ^ 32.
Definition auto_fits (auto : option AutoParamsWire) : Prop :=
  forall w, auto = Some w -> fits (fallback_address w) /\ fits (auto_data w).
Definition proof_fits (receiver : list byte) (auto : option AutoParamsWire) (native_sender : list byte)
    (signatures : list (list byte)) : Prop :=
  fits receiver /\ auto_fits auto /\ fits native_sender /\ fits signatures /\ Forall fits signatures.

(** What a record of the store is by its type, and shorter than four gigabytes. *)
Record record_fits `{HexCodec} (r : SubmissionRecord) : Prop := {
  rf_chain_id_from : is_u 64 (rec_chain_id_from r);
  rf_chain_id_to : is_u 64 (rec_chain_id_to r);
  rf_nonce : is_u 64 (rec_nonce r);
  rf_decimals : forall d, rec_bridge_decimals r = Some d -> is_u 8 d;
  rf_receiver : forall b, hex_bytes (rec_receiver r) = Some b -> fits b;
  rf_native_sender : forall b, hex_bytes (rec_native_sender r) = Some b -> fits b;
  rf_auto : forall b o, hex_bytes (rec_auto_params r) = Some b -> decode_evm_auto_params b = Ok o -> auto_fits o;
}.

Class SubmitBorshLaws `{Runtime, GateBorsh, SubmitBorsh} : Prop := {
  (** the fields of [ConfigView] are the first ones of [Config] *)
  ConfigView_prefix : forall d c, borsh_de d = Some c -> ConfigView_deserialize d =
    Some (MkConfigView (cfg_owner c) (cfg_bridge_domain c) (cfg_guardian c) (cfg_validators c) (cfg_threshold c)
            (cfg_chain_id c) (cfg_paused c));
  claim_wire : forall a, ClaimArgs_wf a ->
    proof_fits (cl_receiver a) (cl_auto a) (cl_native_sender a) (cl_signatures a) ->
    ix_try_from_slice (claim_instruction_data a) = Some (Claim a);
  cancel_wire : forall a, CancelArgs_wf a ->
    proof_fits (ca_receiver a) (ca_auto a) (ca_native_sender a) (ca_signatures a) ->
    ix_try_from_slice (cancel_instruction_data a) = Some (Cancel a);
  refund_wire : forall a, RefundArgs_wf a ->
    proof_fits (ra_receiver a) (ra_auto a) (ra_native_sender a) (ra_signatures a) ->
    ix_try_from_slice (refund_instruction_data a) = Some (Refund a);
}.

(** * The submitter reads accounts as the program does *)

Section Reading.
Context {RT : Runtime} {GB : GateBorsh} {GL : GateBorshLaws} {SB : SubmitBorsh} {SL : SubmitBorshLaws}.

Lemma decode_gate_config_of d c : borsh_de d = Some c -> decode_gate_config d = gate_config_of c.
Proof. intros E. unfold decode_gate_config. by rewrite (ConfigView_prefix _ _ E). Qed.

(** The vault the submitter reads is the one the program reads. *)
Lemma asset_vault_decodes d id v : asset_vault true d id = Some v ->
  exists a, decode_asset_config d = Ok a /\ as_debridge_id a = id /\ as_vault a = v.
Proof.
  unfold asset_vault, decode_asset_config. change LEGACY_ASSET_LEN with LEGACY_ASSET_CONFIG_LEN. cbn [negb].
  destruct ((len d =? _) || _); intros H; apply bind_Some in H as ([rid w] & H & Hw); case_bool_decide; simplify_eq.
  - apply bind_Some in H as (x & Hx & H). apply bind_Some in H as (y & Hy & [= -> ->]).
    assert (exists m, arr_of_list 32 (take 32 (drop 32 (take (Z.to_nat LEGACY_ASSET_CONFIG_LEN) d))) = Some m) as [m Hm].
    { apply arr_of_list_Some in Hy. apply (f_equal length) in Hy. rewrite length_arr, length_take, length_drop in Hy.
      assert (length (take 32 (drop 32 (take (Z.to_nat LEGACY_ASSET_CONFIG_LEN) d))) = 32%nat) as E.
      { rewrite length_take, length_drop. lia. }
      unfold arr_of_list. destruct (decide _); [by eexists|done]. }
    exists (MkAssetConfig id m v 0 0). split_and!; [|done..]. unfold take32. rewrite Hx. cbn [ok_or mbind result_bind].
    rewrite Hm. cbn [ok_or mbind result_bind]. 
    set (cur := take (Z.to_nat _) d) in *. assert (drop 32 (drop 32 cur) = drop 64 cur) as -> by by rewrite drop_drop.
    by rewrite Hy.
  - apply bind_Some in H as (a & Ha & [= <- <-]). exists a. by rewrite Ha.
Qed.
Lemma asset_vault_complete d a : decode_asset_config d = Ok a -> asset_vault true d (as_debridge_id a) = Some (as_vault a).
Proof.
  unfold asset_vault, decode_asset_config. change LEGACY_ASSET_LEN with LEGACY_ASSET_CONFIG_LEN. cbn [negb].
  destruct ((len d =? _) || _); intros H.
  - set (cur := take (Z.to_nat _) d) in *. apply result_bind_Ok in H as ([d1 c1] & H1 & H).
    apply result_bind_Ok in H as ([m1 c2] & H2 & H). apply result_bind_Ok in H as ([v1 c3] & H3 & [= <-]).
    unfold take32 in *. apply result_bind_Ok in H1 as (x & Hx%ok_or_Ok & [= -> <-]).
    apply result_bind_Ok in H2 as (y & Hy%ok_or_Ok & [= -> <-]). apply result_bind_Ok in H3 as (z & Hz%ok_or_Ok & [= -> <-]).
    rewrite drop_drop in Hz. change (32 + 32)%nat with 64%nat in Hz. rewrite Hx, Hz. cbn. by rewrite bool_decide_eq_true_2.
  - apply ok_or_Ok in H. rewrite H. cbn. by rewrite bool_decide_eq_true_2.
Qed.
Lemma host_sent_decodes d r : host_decode_sent_record d = Some r -> decode_sent_record d = Ok r /\ d <> [].
Proof.
  unfold host_decode_sent_record, decode_sent_record. destruct (Z.eqb_spec (len d) SENT_RECORD_LEN) as [E|E].
  - intros H. rewrite E. change (SENT_RECORD_LEN =? SENT_RECORD_LEN - 8) with false. rewrite H. split; [done|]. by intros ->.
  - change LEGACY_SENT_RECORD_LEN with (SENT_RECORD_LEN - 8). destruct (_ =? _) eqn:E2; [|done]. intros ->.
    split; [done|]. by intros ->.
Qed.
End Reading.

(** * What is sent *)

Section Sent.
Context {RT : Runtime} {GB : GateBorsh} {GL : GateBorshLaws} {HX : HexCodec} {HC : HostCrypto} {CL : HostCryptoLaws}.
Context {SB : SubmitBorsh} {SL : SubmitBorshLaws} {SN : SolanaNode}.
Variables (pid payer : pubkey) (chain_id : Z) (m : gmap pubkey account) (c : Config).

(** The gate the nodes show: its configuration and its registered assets are those of
    [m] as long as the submitter runs, and the submitter is set up for its chain. *)
Record gate_shown : Prop := {
  gs_config : config_at pid m c;
  gs_inv : config_inv c;
  gs_chain : cfg_chain_id c = chain_id;
  gs_config_read : forall t a, sn_get_account t (config_account pid) = Ok a ->
    acc_data a = acc_data (acct m (config_account pid));
  gs_asset_read : forall t d a, sn_get_account t (asset_account pid d) = Ok a ->
    acc_owner a = acc_owner (acct m (asset_account pid d)) /\ acc_data a = acc_data (acct m (asset_account pid d));
  gs_claims : forall t l, sn_pending_claims t = Ok l -> Forall record_fits l;
  gs_refunds : forall t l, sn_pending_refunds t = Ok l -> Forall record_fits l;
}.
Hypothesis GS : gate_shown.

(** A ledger with the same configuration and assets. *)
Definition same_gate (l : ledger) : Prop :=
  forall k, k = config_account pid \/ (exists d, k = asset_account pid d) ->
  acc_owner (acct (accts l) k) = acc_owner (acct m k) /\ acc_data (acct (accts l) k) = acc_data (acct m k).
(** The submitter saw no marker there. *)
Definition seen_unspent (k : pubkey) : Prop := exists t o, sn_account t k = Ok o /\ is_spent pid o = false.
Definition seen_sent (id : hash32) (r : SentRecord) (a : account) : Prop :=
  (exists t, sn_account t (sent_account pid id) = Ok (Some a)) /\ acc_owner a = pid /\
  host_decode_sent_record (acc_data a) = Some r /\ record_retired r = false.

(** An instruction after which only the cross-program calls can fail, on a ledger whose
    gate is the one shown and, for what the submitter cannot know: *)
Inductive passes (ix : Instruction) : Prop :=
  | PassClaim a asset receiver :
      ix_try_from_slice (in_data ix) = Some (Claim a) -> seen_unspent (executed_account pid (claim_id c a)) ->
      asset_at pid m (cl_debridge_id a) asset -> arr_of_list 32 (cl_receiver a) = Some receiver ->
      (forall l amount, same_gate l ->
         (* the gate runs, the scale is the registered one, the accounts are of the mint *)
         cfg_paused c = false -> cfg_sealed c = true -> cl_bridge_decimals a = as_bridge_decimals asset ->
         to_local asset (cl_amount a) = Ok amount -> ~ spent pid (accts l) (claim_id c a) ->
         holds_mint (accts l) (as_vault asset) (as_mint asset) -> holds_mint (accts l) receiver (as_mint asset) ->
         process_instruction pid (in_accounts ix) (in_data ix) l =
           claim_payout pid payer (claim_id c a) (as_vault asset) receiver amount l) -> passes ix
  | PassCancel a :
      ix_try_from_slice (in_data ix) = Some (Cancel a) -> seen_unspent (executed_account pid (cancel_sub_id c a)) ->
      (forall l, same_gate l -> cfg_paused c = false -> ~ spent pid (accts l) (cancel_sub_id c a) ->
         process_instruction pid (in_accounts ix) (in_data ix) l = cancel_burn pid payer (cancel_sub_id c a) a l) ->
      passes ix
  | PassRefund a asset record seen :
      ix_try_from_slice (in_data ix) = Some (Refund a) -> seen_unspent (refunded_account pid (refund_sub_id c a)) ->
      asset_at pid m (ra_debridge_id a) asset -> seen_sent (refund_sub_id c a) record seen ->
      (forall l, same_gate l -> ~ refunded pid (accts l) (refund_sub_id c a) ->
         (* the origin record is still the one seen *)
         acc_owner (acct (accts l) (sent_account pid (refund_sub_id c a))) = acc_owner seen ->
         acc_data (acct (accts l) (sent_account pid (refund_sub_id c a))) = acc_data seen ->
         sr_debridge_id record = ra_debridge_id a ->
         holds_mint (accts l) (as_vault asset) (as_mint asset) ->
         holds_mint (accts l) (sr_source_token record) (as_mint asset) ->
         process_instruction pid (in_accounts ix) (in_data ix) l =
           refund_payout pid payer c (refund_sub_id c a) a (as_vault asset) record l) -> passes ix.

Definition sound (s : Submitter) : Prop := Forall (fun x => passes (sg_instruction x)) (sb_sent s).

(** ** Ledgers with the same gate *)

Lemma same_config l : same_gate l -> config_at pid (accts l) c.
Proof using GS. intros H. destruct (H (config_account pid)) as [Ho Hd]; [by left|]. unfold config_at. rewrite Ho, Hd. apply GS. Qed.
Lemma same_asset l d a : same_gate l -> asset_at pid m d a -> asset_at pid (accts l) d a.
Proof using Type. intros H. destruct (H (asset_account pid d)) as [Ho Hd]; [by eauto|]. unfold asset_at. by rewrite Ho, Hd. Qed.
Lemma vault_asset t d acct v : sn_get_account t (asset_account pid d) = Ok acct ->
  asset_vault (bool_decide (acc_owner acct = pid)) (acc_data acct) d = Some v ->
  exists a, asset_at pid m d a /\ as_vault a = v.
Proof using GS.
  intros Ht Hv. destruct (gs_asset_read GS _ _ _ Ht) as [Ho Hd]. case_bool_decide as E; [|done].
  apply asset_vault_decodes in Hv as (a & Ha & Hi & <-). exists a. split; [|done]. unfold asset_at. by rewrite <- Ho, <- Hd.
Qed.

(** ** Rules *)

Lemma wp_node {A} (f : nat -> result unit A) (Q : result unit A -> Submitter -> Prop) s :
  (forall t, match f t with Ok a => Q (Ok a) s | Err _ => Q (Err tt) s end) -> wp (node f) Q s.
Proof using Type. intros H. unfold node. apply wp_bind, wp_ask. intros t. specialize (H t). by destruct (f t) as [|[]]; apply wp_try. Qed.
Lemma submit_sound g ix s : passes ix -> sound s -> wp (submit g ix) (fun _ s' => sound s') s.
Proof using Type.
  intros Hix Hs. unfold submit. apply wp_bind, wp_node. intros t. destruct (sn_blockhash t); [|done].
  apply wp_bind, wp_ask. intros t2. apply wp_bind, wp_modify, wp_try. apply Forall_app. by repeat constructor.
Qed.
Lemma encodable_sound r g s (Q : result unit (option EncodableRecord) -> Submitter -> Prop) :
  sound s -> (forall s', sound s' -> Q (Ok None) s') ->
  (forall enc, encodable r (gc_bridge_domain g) = Ok enc -> Q (Ok (Some enc)) s) -> wp (encodable_or_skip r g) Q s.
Proof using Type.
  intros Hs H1 H2. unfold encodable_or_skip. destruct (encodable _ _) as [enc|]; [by apply wp_ret, H2|].
  apply wp_bind, wp_modify, wp_ret. by apply H1.
Qed.

(** ** Building an instruction *)

Lemma config_domain g : gate_config_of c = Some g -> gc_bridge_domain g = cfg_bridge_domain c /\ gc_threshold g = cfg_threshold c.
Proof using Type. unfold gate_config_of. case_bool_decide; [done|]. by intros [= <-]. Qed.

(** A choice of signatures that is not below the threshold: the gate takes it, and Borsh
    can write it. *)
Lemma chosen_accepted g digest raw : gate_config_of c = Some g ->
  below_quorum (ordered_signatures digest raw g) g = false ->
  verify_threshold c digest (ordered_signatures digest raw g) = Ok tt /\
  fits (ordered_signatures digest raw g) /\ Forall fits (ordered_signatures digest raw g).
Proof using GS CL.
  intros Hg Hb. destruct (gs_inv GS) as [Ht1 Ht2 Hcap Hd Hz _ _ _ _ _ _].
  unfold below_quorum in Hb. rewrite (proj2 (config_domain g Hg)) in Hb. apply Z.ltb_ge in Hb.
  assert (as_u 32 (len (ordered_signatures digest raw g)) <= len (ordered_signatures digest raw g)) as Hle.
  { unfold as_u. apply Z.mod_le; unfold len; lia. }
  destruct (ordered_bounds digest raw c Hd Hz g Hg ltac:(lia)) as [Hn H65]. split_and!.
  - apply ordered_accepted; (done || lia).
  - unfold fits. unfold MAX_THRESHOLD in Hcap. lia.
  - eapply Forall_impl; [exact H65|]. intros x Hx. unfold fits, len. rewrite Hx. done.
Qed.

(** What a record is read into can be written. *)
Lemma encodable_fits r domain enc sigs : record_fits r -> encodable r domain = Ok enc -> fits sigs -> Forall fits sigs ->
  proof_fits (enc_receiver enc) (enc_auto enc) (enc_native_sender enc) sigs /\
  is_u 64 (enc_amount enc) /\ is_u 8 (enc_bridge_decimals enc) /\ auto_wf (enc_auto enc).
Proof using Type.
  intros [] H Hs1 Hs2. apply encodable_Ok in H as (_ & _ & _ & Hr & Hn & _ & Ha & Hd & (blob & Hb & Hau) & _).
  split_and!; [unfold proof_fits; split_and!; eauto|done|eauto|]. apply decode_sound in Hau as [_ Hau].
  unfold auto_wf. destruct (enc_auto enc) as [w|]; [by apply Hau|done].
Qed.

Lemma domain_gate g r enc : gate_config_of c = Some g -> encodable r (gc_bridge_domain g) = Ok enc ->
  encodable r (cfg_bridge_domain c) = Ok enc.
Proof using Type. intros Hg. by rewrite (proj1 (config_domain g Hg)). Qed.

Lemma claim_passes r g enc receiver t acct vault :
  gate_config_of c = Some g -> record_fits r -> rec_chain_id_to r = chain_id ->
  encodable r (gc_bridge_domain g) = Ok enc -> seen_unspent (executed_account pid (enc_id enc)) ->
  arr_of_list 32 (enc_receiver enc) = Some receiver ->
  sn_get_account t (asset_account pid (enc_debridge_id enc)) = Ok acct ->
  asset_vault (bool_decide (acc_owner acct = pid)) (acc_data acct) (enc_debridge_id enc) = Some vault ->
  let sigs := ordered_signatures (enc_id enc) (raw_signatures (rec_signatures r)) g in
  below_quorum sigs g = false ->
  passes (MkInstruction (claim_accounts pid payer (enc_debridge_id enc) (enc_id enc) vault receiver)
            (claim_instruction_data (claim_args r enc sigs))).
Proof using GS GL CL SL.
  intros Hg Hf Hto Henc Hsp Hr Ht Hv sigs Hq. apply (domain_gate _ _ _ Hg) in Henc.
  destruct (chosen_accepted _ _ _ Hg Hq) as (Hver & Hs1 & Hs2). fold sigs in Hver, Hs1, Hs2.
  destruct (encodable_fits _ _ _ _ Hf Henc Hs1 Hs2) as (Hp & Ha & Hd & Hau).
  destruct (encodable_ids _ _ c sigs Henc) as [Hids _]. destruct Hids as [Hid _]; [by rewrite Hto, (gs_chain GS)|].
  destruct (vault_asset _ _ _ _ Ht Hv) as (a & Has & <-).
  assert (Hix : ix_try_from_slice (claim_instruction_data (claim_args r enc sigs)) = Some (Claim (claim_args r enc sigs))).
  { apply claim_wire; [split_and!; try done; apply Hf|exact Hp]. }
  eapply (PassClaim _ _ a receiver); [exact Hix|by rewrite Hid|exact Has|exact Hr|].
  intros l amount Hl Hpa Hse Hde Hamt Hns Hv1 Hv2. cbn [in_accounts in_data]. rewrite (process_instruction_decoded _ _ _ _ _ Hix).
  rewrite <- Hid at 1. apply claim_accepted; try done; [by apply same_config|by apply same_asset|by rewrite Hid].
Qed.

Lemma cancel_passes r g enc :
  gate_config_of c = Some g -> record_fits r -> rec_chain_id_to r = chain_id ->
  encodable r (gc_bridge_domain g) = Ok enc -> seen_unspent (executed_account pid (enc_id enc)) ->
  let sigs := ordered_signatures (HostHash.domain_id CANCEL_PREFIX (enc_id enc)) (raw_signatures (rec_cancel_signatures r)) g in
  below_quorum sigs g = false ->
  passes (MkInstruction (cancel_accounts pid payer (enc_id enc)) (cancel_instruction_data (cancel_args r enc sigs))).
Proof using GS GL CL SL.
  intros Hg Hf Hto Henc Hsp sigs Hq. apply (domain_gate _ _ _ Hg) in Henc.
  destruct (chosen_accepted _ _ _ Hg Hq) as (Hver & Hs1 & Hs2). fold sigs in Hver, Hs1, Hs2.
  destruct (encodable_fits _ _ _ _ Hf Henc Hs1 Hs2) as (Hp & Ha & Hd & Hau).
  destruct (encodable_ids _ _ c sigs Henc) as [Hids _]. destruct Hids as [_ Hid]; [by rewrite Hto, (gs_chain GS)|].
  assert (Hix : ix_try_from_slice (cancel_instruction_data (cancel_args r enc sigs)) = Some (Cancel (cancel_args r enc sigs))).
  { apply cancel_wire; [split_and!; try done; apply Hf|exact Hp]. }
  eapply PassCancel; [exact Hix|by rewrite Hid|]. intros l Hl Hpa Hns. cbn [in_accounts in_data].
  rewrite (process_instruction_decoded _ _ _ _ _ Hix). rewrite <- Hid at 1.
  apply cancel_accepted; [by apply same_config|done|done|]. rewrite Hid. rewrite HostHash.domain_id_cancel in Hver. exact Hver.
Qed.

Lemma refund_passes r g enc record seen t acct vault :
  gate_config_of c = Some g -> record_fits r -> rec_chain_id_from r = chain_id ->
  encodable r (gc_bridge_domain g) = Ok enc -> seen_unspent (refunded_account pid (enc_id enc)) ->
  seen_sent (enc_id enc) record seen ->
  sn_get_account t (asset_account pid (enc_debridge_id enc)) = Ok acct ->
  asset_vault (bool_decide (acc_owner acct = pid)) (acc_data acct) (enc_debridge_id enc) = Some vault ->
  let sigs := ordered_signatures (HostHash.domain_id REFUND_PREFIX (enc_id enc)) (raw_signatures (rec_refund_signatures r)) g in
  below_quorum sigs g = false ->
  passes (MkInstruction (refund_accounts (config_account pid) (asset_account pid (enc_debridge_id enc))
            (sent_account pid (enc_id enc)) (refunded_account pid (enc_id enc)) payer vault (sr_source_token record)
            (vault_authority_account pid)) (refund_instruction_data (refund_args r enc sigs))).
Proof using GS GL CL SL.
  intros Hg Hf Hto Henc Hsp Hsent Ht Hv sigs Hq. apply (domain_gate _ _ _ Hg) in Henc.
  destruct (chosen_accepted _ _ _ Hg Hq) as (Hver & Hs1 & Hs2). fold sigs in Hver, Hs1, Hs2.
  destruct (encodable_fits _ _ _ _ Hf Henc Hs1 Hs2) as (Hp & Ha & Hd & Hau).
  destruct (encodable_ids _ _ c sigs Henc) as [_ Hid]. specialize (Hid ltac:(by rewrite Hto, (gs_chain GS))).
  destruct (vault_asset _ _ _ _ Ht Hv) as (a & Has & <-).
  assert (Hix : ix_try_from_slice (refund_instruction_data (refund_args r enc sigs)) = Some (Refund (refund_args r enc sigs))).
  { apply refund_wire; [split_and!; try done; apply Hf|exact Hp]. }
  eapply (PassRefund _ _ a record seen); [exact Hix|by rewrite Hid|exact Has|by rewrite Hid|].
  intros l Hl Hnr Ho Hda Hdeb Hv1 Hv2. cbn [in_accounts in_data]. rewrite (process_instruction_decoded _ _ _ _ _ Hix).
  rewrite <- Hid at 1 2. destruct Hsent as (_ & Hown & Hdec & Hret). apply host_sent_decodes in Hdec as [Hdec Hne].
  apply refund_accepted; try done; [by apply same_config| |by apply same_asset|].
  - unfold sent_at. rewrite Ho, Hda, Hown. by split_and!.
  - rewrite Hid. rewrite HostHash.domain_id_refund in Hver. exact Hver.
Qed.

(** ** The passes *)

Lemma wp_gate {A B} (f : nat -> result unit A) (go : A -> eff Submitter unit B) s : sound s ->
  (forall t a, f t = Ok a -> wp (go a) (fun _ s' => sound s') s) -> wp (node f ≫= go) (fun _ s' => sound s') s.
Proof using Type. intros Hs H. apply wp_bind, wp_node. intros t. destruct (f t) eqn:E; [by eapply H|done]. Qed.
Lemma wp_some {A B} (o : option A) (go : A -> eff Submitter unit B) s : sound s ->
  (forall a, o = Some a -> wp (go a) (fun _ s' => sound s') s) -> wp (expect o tt ≫= go) (fun _ s' => sound s') s.
Proof using Type. intros Hs H. apply wp_bind, wp_expect; [done|by intros _]. Qed.
Lemma vault_sound {B} d (go : pubkey -> eff Submitter unit B) s : sound s ->
  (forall t acct v, sn_get_account t (asset_account pid d) = Ok acct ->
     asset_vault (bool_decide (acc_owner acct = pid)) (acc_data acct) d = Some v -> wp (go v) (fun _ s' => sound s') s) ->
  wp (read_vault pid d ≫= go) (fun _ s' => sound s') s.
Proof using Type.
  intros Hs H. unfold read_vault. apply wp_bind, wp_bind, wp_node. intros t. destruct (sn_get_account t _) as [acct|] eqn:E; [|done].
  apply wp_expect; [|done]. intros v Hv. by eapply H.
Qed.
Lemma attempt_sound {A} (p : eff Submitter unit A) s : wp p (fun _ s' => sound s') s ->
  wp (_ ← attempt (E' := unit) p; mret tt) (fun _ s' => sound s') s.
Proof using Type. intros H. apply wp_bind, wp_attempt. eapply wp_mono; [exact H|]. intros r s' Hs'. by apply wp_ret. Qed.

Section Passes.
Variable g : GateConfig.
Hypothesis Hg : gate_config_of c = Some g.

Lemma try_claim_sound r s : record_fits r -> rec_chain_id_to r = chain_id -> sound s ->
  wp (try_claim pid payer r g) (fun _ s' => sound s') s.
Proof using GS GL CL SL Hg.
  intros Hf Hto Hs. unfold try_claim. apply wp_bind, encodable_sound; [done|intros; by apply wp_ret|]. intros enc Henc. cbv beta iota zeta.
  apply wp_gate; [done|]. intros t o Ho. destruct (is_spent pid o) eqn:Esp; [by apply wp_ret|].
  apply wp_some; [done|]. intros receiver Hr. destruct (below_quorum _ _) eqn:Hq; [by apply wp_ret|].
  apply vault_sound; [done|]. intros t2 acct v Ht2 Hv. apply submit_sound; [|done].
  eapply claim_passes; try done. by exists t, o.
Qed.
Lemma try_cancel_sound r s : record_fits r -> rec_chain_id_to r = chain_id -> sound s ->
  wp (try_cancel_checked pid payer r g) (fun _ s' => sound s') s.
Proof using GS GL CL SL Hg.
  intros Hf Hto Hs. unfold try_cancel_checked. destruct (match rec_cancel_signatures r with [] => true | _ => false end); [by apply wp_ret|].
  apply wp_bind, encodable_sound; [done|intros; by apply wp_ret|]. intros enc Henc. cbv beta iota zeta.
  apply wp_gate; [done|]. intros t o Ho. destruct (is_spent pid o) eqn:Esp; [by apply wp_ret|].
  unfold try_cancel. case_bool_decide; [by apply wp_ret|]. destruct (below_quorum _ _) eqn:Hq; [by apply wp_ret|].
  apply wp_bind. eapply wp_mono; [apply submit_sound; [|done]|].
  - eapply cancel_passes; try done. by exists t, o.
  - intros [[]|] s' Hs'; [by apply wp_ret|done].
Qed.
Lemma try_refund_sound r s : record_fits r -> rec_chain_id_from r = chain_id -> sound s ->
  wp (try_refund pid payer r g) (fun _ s' => sound s') s.
Proof using GS GL CL SL Hg.
  intros Hf Hto Hs. unfold try_refund. apply wp_bind, encodable_sound; [done|intros; by apply wp_ret|]. intros enc Henc. cbv beta iota zeta.
  apply wp_gate; [done|]. intros t o Ho. destruct (is_spent pid o) eqn:Esp; [by apply wp_ret|].
  apply wp_gate; [done|]. intros t1 sa Hsa. destruct (negb _ || _) eqn:Hrec; [by apply wp_ret|].
  apply wp_some; [done|]. intros token Htoken. destruct (below_quorum _ _) eqn:Hq; [by apply wp_ret|].
  apply vault_sound; [done|]. intros t2 acct v Ht2 Hv. apply submit_sound; [|done].
  apply fmap_Some in Htoken as (record & Hdec & ->). destruct sa as [sa|]; [|done].
  eapply refund_passes; try done; [by exists t, o|]. split; [by exists t1|].
  cbn [fmap option_fmap option_map account_view solana_source_record] in Hrec. rewrite Hdec in Hrec.
  destruct (bool_decide_reflect (acc_owner sa = pid)) as [Hown|]; [|done].
  destruct (record_retired record) eqn:Hret; [done|]. by split_and!.
Qed.

Lemma claim_one_sound r s : record_fits r -> sound s -> wp (claim_one pid payer chain_id g r) (fun _ s' => sound s') s.
Proof using GS GL CL SL Hg.
  intros Hf Hs. unfold claim_one. destruct (Z.eqb_spec (rec_chain_id_to r) chain_id) as [E|]; cbn [negb]; [|by apply wp_ret].
  apply wp_bind, wp_attempt. eapply wp_mono; [by apply try_cancel_sound|]. intros o s' Hs'. cbv beta iota.
  destruct o as [[]|]; [by apply wp_ret| |]; by apply attempt_sound, try_claim_sound.
Qed.
Lemma refund_one_sound r s : record_fits r -> sound s -> wp (refund_one pid payer chain_id g r) (fun _ s' => sound s') s.
Proof using GS GL CL SL Hg.
  intros Hf Hs. unfold refund_one. destruct (Z.eqb_spec (rec_chain_id_from r) chain_id) as [E|]; cbn [negb orb]; [|by apply wp_ret].
  destruct (rec_refund_signatures r); [by apply wp_ret|]. by apply attempt_sound, try_refund_sound.
Qed.
End Passes.

Lemma tick_sound s : sound s -> wp (tick pid payer chain_id) (fun _ s' => sound s') s.
Proof using GS GL CL SL.
  intros Hs. unfold tick. apply wp_bind, wp_ask. intros t1. apply wp_bind, wp_ask. intros t2. cbv zeta.
  assert (Hr : Forall record_fits (match sn_pending_refunds t1 with Ok queue => queue | Err _ => [] end)).
  { destruct (sn_pending_refunds t1) eqn:E; [by eapply gs_refunds|constructor]. }
  lazymatch goal with |- wp (if ?b then _ else _) _ _ => destruct b end; [by apply wp_ret|]. apply wp_gate; [done|]. intros t a Ha.
  apply wp_some; [done|]. intros g Hg. rewrite (gs_config_read GS _ _ Ha) in Hg.
  erewrite decode_gate_config_of in Hg by apply GS.
  apply wp_bind. eapply wp_mono; [apply (wp_mapM sound); [|done]|].
  { intros x s1 Hx Hs1. rewrite Forall_forall in Hr. by apply refund_one_sound; [..|apply Hr|]. }
  intros [l|] s1 Hs1; [|done]. apply wp_bind, wp_try. destruct (sn_pending_claims t2) as [claims|] eqn:E; [|done].
  pose proof (gs_claims GS _ _ E) as Hc. apply wp_bind. eapply wp_mono; [apply (wp_mapM sound); [|done]|].
  { intros x s2 Hx Hs2. rewrite Forall_forall in Hc. by apply claim_one_sound; [..|apply Hc|]. }
  intros [l2|] s2 Hs2; [by apply wp_ret|done].
Qed.
Lemma run_sound n s : sound s -> wp (run pid payer chain_id n) (fun _ s' => sound s') s.
Proof using GS GL CL SL.
  revert s. induction n as [|n IH]; intros s Hs; cbn [run]; [by apply wp_ret|].
  apply wp_bind, wp_attempt. eapply wp_mono; [by apply tick_sound|]. intros r s' Hs'. by apply IH.
Qed.


(** * A quorum gets through *)

(** A claimable record: addressed to a token account of this chain, not spent, of a
    registered asset, with nodes that answer. *)
Record claimable (r : SubmissionRecord) (enc : EncodableRecord) (receiver : pubkey) (asset : AssetConfig) : Prop := {
  cm_chain : rec_chain_id_to r = chain_id;
  cm_encodable : encodable r (cfg_bridge_domain c) = Ok enc;
  cm_receiver : arr_of_list 32 (enc_receiver enc) = Some receiver;
  cm_asset : asset_at pid m (enc_debridge_id enc) asset;
  cm_marker : forall t, exists o, sn_account t (executed_account pid (enc_id enc)) = Ok o /\ is_spent pid o = false;
  cm_reads : forall t, exists a, sn_get_account t (asset_account pid (enc_debridge_id enc)) = Ok a;
  cm_blockhash : forall t, sn_blockhash t = Ok tt;
}.

(** One instruction more, the claim of this record. *)
Definition claim_submitted (r : SubmissionRecord) (enc : EncodableRecord) (receiver : pubkey) (asset : AssetConfig)
    (s s' : Submitter) : Prop :=
  exists x sigs, sb_sent s' = sb_sent s ++ [x] /\ verify_threshold c (enc_id enc) sigs = Ok tt /\
    sg_instruction x = MkInstruction (claim_accounts pid payer (enc_debridge_id enc) (enc_id enc) (as_vault asset) receiver)
      (claim_instruction_data (claim_args r enc sigs)).

Lemma quorum_below digest raw g : gate_config_of c = Some g -> len (backers digest raw c) < cfg_threshold c ->
  below_quorum (ordered_signatures digest raw g) g = true.
Proof using GS.
  intros Hg Hlt. destruct (gs_inv GS) as [Ht1 Ht2 Hcap Hd Hz _ _ _ _ _ _]. unfold below_quorum.
  rewrite (proj2 (config_domain g Hg)). destruct (chosen_count digest raw c Hd Hz g Hg ltac:(lia)) as (n & -> & Hn).
  apply Z.ltb_lt. unfold as_u. unfold len at 1. rewrite length_map. fold (len (take n (chosen digest raw c))). rewrite Hn.
  rewrite Z.mod_small; unfold MAX_THRESHOLD in Hcap; unfold len in *; lia.
Qed.
Lemma quorum_met digest raw g : gate_config_of c = Some g -> cfg_threshold c <= len (backers digest raw c) ->
  below_quorum (ordered_signatures digest raw g) g = false.
Proof using GS.
  intros Hg Hle. destruct (gs_inv GS) as [Ht1 Ht2 Hcap Hd Hz _ _ _ _ _ _]. unfold below_quorum.
  rewrite (proj2 (config_domain g Hg)). destruct (chosen_count digest raw c Hd Hz g Hg ltac:(lia)) as (n & -> & Hn).
  apply Z.ltb_ge. unfold as_u. unfold len at 1. rewrite length_map. fold (len (take n (chosen digest raw c))). rewrite Hn.
  rewrite Z.mod_small; unfold MAX_THRESHOLD in Hcap; unfold len in *; lia.
Qed.

(** No cancel quorum: nothing is sent for the cancellation, and the claim is tried. *)
Lemma no_cancel r enc g s : gate_config_of c = Some g -> rec_chain_id_to r = chain_id ->
  encodable r (cfg_bridge_domain c) = Ok enc ->
  (forall t, exists o, sn_account t (executed_account pid (enc_id enc)) = Ok o /\ is_spent pid o = false) ->
  len (backers (GateHash.cancel_id (enc_id enc)) (raw_signatures (rec_cancel_signatures r)) c) < cfg_threshold c ->
  wp (try_cancel_checked pid payer r g) (fun o s' => o = Ok false /\ s' = s) s.
Proof using GS.
  intros Hg Hto Henc Hm Hlt. unfold try_cancel_checked. destruct (rec_cancel_signatures r) as [|x l] eqn:El; [by apply wp_ret|].
  rewrite <- El in *. unfold encodable_or_skip. rewrite (proj1 (config_domain g Hg)), Henc. apply wp_bind, wp_ret.
  cbv beta iota. apply wp_bind, wp_node. intros t. destruct (Hm t) as (o & -> & ->). unfold try_cancel.
  case_bool_decide; [by apply wp_ret|]. rewrite HostHash.domain_id_cancel, quorum_below by done. by apply wp_ret.
Qed.

(** C18. A quorum in the store is enough. If the rows of a claimable transfer hold, among any
    others and in any encoding, signatures of at least [threshold] registered validators,
    and those for a cancellation come from fewer, then handling the record sends exactly
    one instruction: a claim built from the record, to its receiver, out of the vault
    registered for its asset, with signatures the gate's verification accepts. *)
Theorem quorum_is_submitted g r enc receiver asset s t o s' t' :
  gate_config_of c = Some g -> claimable r enc receiver asset ->
  cfg_threshold c <= len (backers (enc_id enc) (raw_signatures (rec_signatures r)) c) ->
  len (backers (GateHash.cancel_id (enc_id enc)) (raw_signatures (rec_cancel_signatures r)) c) < cfg_threshold c ->
  claim_one pid payer chain_id g r s t = (o, s', t') ->
  claim_submitted r enc receiver asset s s'.
Proof using GS CL.
  intros Hg [Hto Henc Hr Has Hm Hrd Hbh] Hq Hnc Hrun.
  eapply (wp_run _ (fun _ s' => claim_submitted r enc receiver asset s s')); [|exact Hrun]. clear o s' t t' Hrun.
  unfold claim_one. rewrite Hto, Z.eqb_refl. cbn [negb]. apply wp_bind, wp_attempt.
  eapply wp_mono; [by eapply no_cancel|]. intros o s1 [-> ->]. cbv beta iota. apply wp_bind, wp_attempt.
  unfold try_claim, encodable_or_skip. rewrite (proj1 (config_domain g Hg)), Henc. apply wp_bind, wp_ret. cbv beta iota zeta.
  apply wp_bind, wp_node. intros t. destruct (Hm t) as (o & -> & ->). apply wp_bind, wp_expect; [|by rewrite Hr].
  intros k Hk. assert (k = receiver) as -> by congruence. pose proof (quorum_met _ _ g Hg Hq) as Hb. rewrite Hb.
  destruct (chosen_accepted g _ _ Hg Hb) as (Hv & _). unfold read_vault. apply wp_bind, wp_bind, wp_node. intros t2.
  destruct (Hrd t2) as [acct Hacct]. rewrite Hacct. destruct (gs_asset_read GS _ _ _ Hacct) as [Ho Hd].
  destruct Has as (Hown & Hdec & Hid). rewrite Ho, Hd, Hown, bool_decide_eq_true_2 by done.
  pose proof (asset_vault_complete _ _ Hdec) as Hav. rewrite Hid in Hav. rewrite Hav. apply wp_ret.
  unfold submit. apply wp_bind, wp_node. intros t3. rewrite Hbh. apply wp_bind, wp_ask. intros t4. apply wp_bind, wp_modify, wp_try.
  apply wp_ret. unfold claim_submitted. do 2 eexists. split_and!; [reflexivity|exact Hv|reflexivity].
Qed.
End Sent.
