(* ===== verification/Observer.v ===== *)
(** The marker observer (solana-relayer observer.rs, store.rs [report_observed]): one
    pass over the transfers the store holds open, which reads the gate's marker of each
    and reports what it shows, once; and the search for the transaction that created the
    marker. The node and the store are the outside; every report is kept in order. *)

From S2P Require Import Prelude.
From S2P Require Import Text.
From S2P Require Import SolanaRuntime.
From S2P Require Import Effects.
From S2P Require Import GateTypes.
From S2P Require Import GateState.
From S2P Require Import GateTransfers.
From S2P Require Import HostRecord.
From S2P Require Import Origin.
From S2P Require Import Attester.
From S2P Require Import Submitter.

#[export] Instance Terminal_eq_dec : EqDecision Terminal.
Proof. solve_decision. Defined.
#[export] Instance Terminal_countable : Countable Terminal.
Proof.
  refine (inj_countable' (fun w => match w with TClaimed => 0 | TCancelled => 1 | TRefunded => 2 end)
            (fun z => if z =? 0 then TClaimed else if z =? 1 then TCancelled else TRefunded) _).
  by intros [].
Defined.

(** * Transactions as the node returns them *)

Record UiCompiledInstruction := MkUiCompiledInstruction {
  ui_program_id_index : Z;   (* u8 *)
  ui_accounts : list Z;      (* u8 *)
  ui_data : text;
}.
Inductive UiInstruction := UiCompiled (c : UiCompiledInstruction) | UiParsed.
Record UiTransactionStatusMeta := MkUiTransactionStatusMeta {
  tm_err : bool;             (* [err.is_some()] *)
  tm_status_err : bool;      (* [status.is_err()] *)
  tm_loaded_addresses : option (list text * list text);   (* writable, readonly *)
  tm_inner_instructions : option (list (list UiInstruction));
}.
Inductive UiMessage :=
  | UiRaw (account_keys : list text) (instructions : list UiCompiledInstruction)
  | UiMessageParsed.
Inductive EncodedTransaction := EtJson (message : UiMessage) | EtOther.
Record EncodedConfirmedTransaction := MkEncodedConfirmedTransaction {
  tx_transaction : EncodedTransaction;
  tx_meta : option UiTransactionStatusMeta;
}.

(** The [bs58] crate, in which keys and instruction data are written. *)
Class Base58 := {
  bs58_encode : list byte -> text;
  bs58_decode : text -> option (list byte);
}.
Class Base58Laws `{Base58} : Prop := { bs58_roundtrip : forall b, bs58_decode (bs58_encode b) = Some b }.
Definition key_text `{Base58} (k : pubkey) : text := bs58_encode (arr_bytes k).
Lemma key_text_inj `{Base58Laws} k k' : key_text k = key_text k' -> k = k'.
Proof.
  unfold key_text. intros E%(f_equal bs58_decode). rewrite !bs58_roundtrip in E. injection E as E. by apply arr_eq.
Qed.

(** * The transaction that created a marker *)

Section CreatesMarker.
Context {B58 : Base58}.

Definition CLAIM_IX : byte * nat := (Byte.x02, 2%nat).
Definition CANCEL_IX : byte * nat := (Byte.x0a, 1%nat).
Definition REFUND_IX : byte * nat := (Byte.x0b, 3%nat).
Definition wanted (side : Side) : list (byte * nat) :=
  match side with Destination => [CLAIM_IX; CANCEL_IX] | Source => [REFUND_IX] end.

Definition key_at (keys : list text) (i : Z) : option text := keys !! Z.to_nat i.
(** The closure [creates]. *)
Definition creates (program_id marker : pubkey) (side : Side) (keys : list text) (ix : UiCompiledInstruction) : bool :=
  if negb (bool_decide (key_at keys (ui_program_id_index ix) = Some (key_text program_id))) then false
  else
    match bs58_decode (ui_data ix) with
    | Some (disc :: _) =>
        existsb (fun '(d, slot) =>
          bool_decide (d = disc) &&
          bool_decide ((k ← ui_accounts ix !! slot; key_at keys k) = Some (key_text marker))) (wanted side)
    | _ => false
    end.

Definition loaded_keys (m : UiTransactionStatusMeta) : list text :=
  match tm_loaded_addresses m with Some (writable, readonly) => writable ++ readonly | None => [] end.
Definition inner_compiled (m : UiTransactionStatusMeta) : list UiCompiledInstruction :=
  omap (fun ix => match ix with UiCompiled c => Some c | UiParsed => None end)
    (concat (from_option id [] (tm_inner_instructions m))).

Definition creates_marker (tx : EncodedConfirmedTransaction) (program_id marker : pubkey) (side : Side) : bool :=
  match tx_meta tx, tx_transaction tx with
  | Some meta, EtJson (UiRaw account_keys instructions) =>
      if tm_err meta || tm_status_err meta then false
      else
        let keys := account_keys ++ loaded_keys meta in
        existsb (creates program_id marker side keys) instructions ||
        existsb (creates program_id marker side keys) (inner_compiled meta)
  | _, _ => false
  end.
End CreatesMarker.

(** * The outside *)

Record SignatureInfo := MkSignatureInfo { si_signature : text; si_err : bool }.
(** [POST /submissions/{id}/observed/{route}] with one field. *)
Record ObservedReport := MkObservedReport { or_id : text; or_route : text; or_field : text; or_tx : text }.

Class ObserverNode := {
  (** [Signature::from_str] *)
  signature_from_str : text -> option (list byte);
  (** [get_signatures_for_address_with_config]: newest first, at most [limit] *)
  on_signatures : nat -> pubkey -> Z -> result unit (list SignatureInfo);
  on_transaction : nat -> list byte -> result unit EncodedConfirmedTransaction;
  on_report : nat -> ObservedReport -> result unit unit;
}.

(** * Bookkeeping *)

(** [Terminal::route], [Terminal::tx_field] *)
Definition route (what : Terminal) : text :=
  match what with TClaimed => txt "claimed" | TCancelled => txt "cancelled" | TRefunded => txt "refunded" end.
Definition tx_field (what : Terminal) : text :=
  match what with TClaimed => txt "claim_tx" | TCancelled => txt "cancel_tx" | TRefunded => txt "refund_tx" end.
Definition observed_report (submission_id : text) (what : Terminal) (tx : text) : ObservedReport :=
  MkObservedReport (from_option id submission_id (strip_prefix (txt "0x") submission_id)) (route what) (tx_field what) tx.

Abbreviation Reported := (gset (text * Terminal)).
Definition already (done : Reported) (i : text) (what : Terminal) : bool :=
  bool_decide ((to_ascii_lowercase i, what) ∈ done).
Definition accepted (i : text) (what : Terminal) (done : Reported) : Reported :=
  {[(to_ascii_lowercase i, what)]} ∪ done.
Definition retain_in_queue (in_queue : gset text) (done : Reported) : Reported :=
  filter (fun x => x.1 ∈ in_queue) done.

(** A report that went out: whose, about what, with which transaction, and the answer. *)
Record Sighting := MkSighting { sy_id : text; sy_what : Terminal; sy_tx : text; sy_answer : result unit unit }.
Record Observer := MkObserver { ob_reported : Reported; ob_sightings : list Sighting }.
Definition on_reported (f : Reported -> Reported) (o : Observer) : Observer :=
  MkObserver (f (ob_reported o)) (ob_sightings o).
(** What an answer leaves behind: only an accepted report is remembered. *)
Definition note_report (i : text) (what : Terminal) (tx : text) (r : result unit unit) (o : Observer) : Observer :=
  MkObserver (match r with Ok _ => accepted i what (ob_reported o) | Err _ => ob_reported o end)
    (ob_sightings o ++ [MkSighting i what tx r]).

(** * A pass over the queues *)

Section Observer.
Context {RT : Runtime} {HX : HexCodec} {B58 : Base58} {SN : SolanaNode} {ON : ObserverNode}.
Variables (program_id : pubkey) (chain_id : Z).

Abbreviation M := (eff Observer unit).

Definition MARKER_TX_CANDIDATES : Z := 10.
(** The loop of [marker_tx], over the oldest first. *)
Fixpoint first_creating (marker : pubkey) (side : Side) (sigs : list SignatureInfo) : M text :=
  match sigs with
  | [] => mret (key_text marker)
  | s :: sigs =>
      match signature_from_str (si_signature s) with
      | None => first_creating marker side sigs
      | Some sig =>
          tx ← ask (fun t => on_transaction t sig);
          match tx with
          | Ok tx => if creates_marker tx program_id marker side then mret (si_signature s)
                     else first_creating marker side sigs
          | Err _ => first_creating marker side sigs
          end
      end
  end.
Definition marker_tx (marker : pubkey) (side : Side) : M text :=
  sigs ← ask (fun t => on_signatures t marker MARKER_TX_CANDIDATES);
  match sigs with
  | Err _ => mret (key_text marker)
  | Ok sigs => first_creating marker side (List.filter (fun s => negb (si_err s)) (reverse sigs))
  end.

Definition marker_account (side : Side) (i : hash32) : pubkey :=
  match side with
  | Destination => executed_account program_id i
  | Source => refunded_account program_id i
  end.
Definition terminal_on (side : Side) (account : option (bool * list byte)) : option Terminal :=
  match side with Destination => destination_terminal account | Source => source_terminal account end.

Definition report (rec : SubmissionRecord) (side : Side) (pda : pubkey) (what : Terminal) : M unit :=
  o ← get;
  if already (ob_reported o) (rec_submission_id rec) what then mret tt
  else
    tx ← marker_tx pda side;
    r ← ask (fun t => on_report t (observed_report (rec_submission_id rec) what tx));
    modify (note_report (rec_submission_id rec) what tx r).
(** The body of the loop over the queues; [continue] returns. *)
Definition observe (rec : SubmissionRecord) : M unit :=
  match side_of rec chain_id, hex32 (rec_submission_id rec) with
  | Some side, Some i =>
      let pda := marker_account side i in
      acct ← ask (fun t => sn_account t pda);
      match acct with
      | Err _ => mret tt
      | Ok acct =>
          match terminal_on side (account_view program_id <$> acct) with
          | None => mret tt
          | Some what => report rec side pda what
          end
      end
  | _, _ => mret tt
  end.

Definition queue_ids (queue : list SubmissionRecord) : gset text :=
  list_to_set (map (fun r => to_ascii_lowercase (rec_submission_id r)) queue).
Definition pass (queue : list SubmissionRecord) : M unit :=
  _ ← modify (on_reported (retain_in_queue (queue_ids queue)));
  _ ← mapM observe queue;
  mret tt.
Definition tick : M unit :=
  claims ← ask sn_pending_claims;
  claims ← try claims;
  refunds ← ask sn_pending_refunds;
  refunds ← try refunds;
  pass (claims ++ refunds).
(** [run]: a failed tick is logged and the next one starts. *)
Fixpoint run (n : nat) : M unit :=
  match n with
  | O => mret tt
  | S n => _ ← attempt (E' := unit) tick; run n
  end.
End Observer.
