(* ===== verification/ObserverSafety.v ===== *)
(** The observer against the histories of the gate: whatever it reports has happened and
    is final, what has happened gets reported, and the transaction it names is the one
    that created the marker. *)

From S2P Require Import Prelude.
From S2P Require Import Text.
From S2P Require Import SolanaRuntime.
From S2P Require Import Effects.
From S2P Require Import GateTypes.
From S2P Require Import GateState.
From S2P Require Import GateVerify.
From S2P Require Import GateGov.
From S2P Require Import GateTransfers.
From S2P Require Import GateAdmin.
From S2P Require Import GateAssets.
From S2P Require Import GateProgram.
From S2P Require Import GateSafety.
From S2P Require Import HostRecord.
From S2P Require Import Origin.
From S2P Require Import Attester.
From S2P Require Import Submitter.
From S2P Require Import Observer.

(** * The account a transfer instruction marks *)

Section Slots.
Context {RT : Runtime} {RL : RuntimeLaws} {GB : GateBorsh} {GL : GateBorshLaws}.
Variable pid : pubkey.
Hypothesis pid_not_spl : pid <> spl_token_id.

Definition slot (accounts : list account_info) (n : nat) : option pubkey := ai_key <$> accounts !! n.

Lemma claim_slot accounts args s u s' : process_claim pid accounts args s = Ok (u, s') ->
  exists c, config_at pid (accts s) c /\ slot accounts 2 = Some (executed_account pid (claim_id c args)).
Proof. intros H. unfold process_claim in H. prog_inv H. gate_facts. bool_inv. gate_facts. pda_facts. eexists. by split. Qed.
Lemma cancel_slot accounts args s u s' : process_cancel pid accounts args s = Ok (u, s') ->
  exists c, config_at pid (accts s) c /\ slot accounts 1 = Some (executed_account pid (cancel_sub_id c args)).
Proof.
  intros H. unfold process_cancel in H. prog_inv H. gate_facts. bool_inv. gate_facts. pda_facts. eexists. by split.
Qed.
Lemma refund_slot accounts args s u s' : process_refund pid accounts args s = Ok (u, s') ->
  exists c, config_at pid (accts s) c /\ slot accounts 3 = Some (refunded_account pid (refund_sub_id c args)).
Proof.
  intros H. unfold process_refund in H. prog_inv H. gate_facts. bool_inv. gate_facts. pda_facts. eexists. by split.
Qed.
End Slots.

(** * The refund marker over a history *)

Section RefundHistory.
Context {RT : Runtime} {RL : RuntimeLaws} {GB : GateBorsh} {GL : GateBorshLaws}.
Variable pid : pubkey.
Hypothesis pid_not_spl : pid <> spl_token_id.
Variable id : hash32.

Definition refunded_isolated : Prop :=
  config_account pid <> refunded_account pid id /\
  forall sd, gate_seeds sd -> sd <> refunded_seeds id -> fst (find_program_address sd pid) <> refunded_account pid id.
Hypothesis isolated : refunded_isolated.

Definition off_refund (k : pubkey) : Prop := k <> refunded_account pid id.
Lemma off_refund_config : off_refund (config_account pid).
Proof. exact (proj1 isolated). Qed.
Lemma off_refund_seeds sd : gate_seeds sd -> sd <> refunded_seeds id -> off_refund (fst (find_program_address sd pid)).
Proof. apply isolated. Qed.
Lemma off_refund_other i : i <> id -> off_refund (refunded_account pid i).
Proof. intros Hne. apply isolated; [constructor|]. intros [= E]. by apply Hne, arr_eq. Qed.
#[local] Hint Resolve off_refund_config : core.
#[local] Hint Extern 1 (off_refund _) => apply off_refund_seeds; [constructor|discriminate] : core.

Lemma off_refund_keeps s s' : evolves pid off_refund (accts s) (accts s') ->
  marker_at pid (accts s') (refunded_account pid id) = marker_at pid (accts s) (refunded_account pid id).
Proof.
  intros [L G S D]. destruct (decide (is_Some (marker_at pid (accts s) (refunded_account pid id)))) as [Hs|Hn].
  - apply marker_live in Hs as Hl. destruct (S _ Hl) as [[]|E]; [done|]. unfold marker_at.
    rewrite E. destruct Hl as [Ho _]. destruct (L _ (proj1 (marker_live _ _ _) Hs)) as [Ho' _].
    by rewrite !bool_decide_eq_true_2.
  - rewrite marker_live in Hn. destruct (D _ Hn) as [[]|Hd]; [done|].
    rewrite <- marker_live in Hn, Hd. rewrite <- eq_None_not_Some in *. congruence.
Qed.

Lemma refund_marker_step s e s' : gate_step pid s e s' -> is_refund id e = false ->
  marker_at pid (accts s') (refunded_account pid id) = marker_at pid (accts s) (refunded_account pid id).
Proof.
  intros [s0 accounts data ix s0' Hclk Hix Hp|s0 s0' He] Hno; apply off_refund_keeps.
  - rewrite (process_instruction_decoded _ _ _ _ _ Hix) in Hp. destruct ix; simpl in Hp.
    12: { apply process_refund_Ok in Hp as (c & a & r & He); [|done].
          assert (event_of pid s0 accounts (Refund args) = EvRefund (refund_sub_id c args)) as E.
          { unfold event_of. by rewrite (proj2 (current_config_Some _ _ _) (re_config _ _ _ _ _ _ _ He)). }
          rewrite E in Hno. simpl in Hno. apply bool_decide_eq_false in Hno.
          eapply evolves_weaken; [apply (re_frame _ _ _ _ _ _ _ He)|].
          intros k [->| ->]; [by apply off_refund_other|auto]. }
    all: revert Hp; lazymatch goal with
      | |- context [process_init] => apply keeps_init
      | |- context [process_send] => apply keeps_send
      | |- context [process_claim] => apply keeps_claim
      | |- context [process_set_validator] => apply keeps_set_validator
      | |- context [process_set_threshold] => apply keeps_set_threshold
      | |- context [process_register_asset] => apply keeps_register_asset
      | |- context [process_register_corridor] => apply keeps_register_corridor
      | |- context [process_set_paused] => apply keeps_set_paused
      | |- context [process_set_guardian] => apply keeps_set_guardian
      | |- context [process_cancel] => apply keeps_cancel
      | |- context [process_cancel_scheduled_governance] => apply keeps_cancel_scheduled
      | |- context [process_seal] => apply keeps_seal
      | |- context [process_schedule_action] => apply keeps_schedule
      | |- _ => apply keeps_fail
      end; auto.
  - eapply evolves_weaken; [apply (env_pda _ _ _ He)|]. intros k Hk. apply Hk.
Qed.

(** A refund happens once, and its marker stays. *)
Lemma refund_count s evs s' : history pid s evs s' ->
  (count (is_refund id) evs <= 1)%nat /\ (refunded pid (accts s) id -> count (is_refund id) evs = 0%nat) /\
  (refunded pid (accts s) id -> refunded pid (accts s') id).
Proof.
  intros Hh. destruct (once_only pid (is_refund id) (fun s => refunded pid (accts s) id) _ _ _
      (fun a b c H => evolves_marker _ _ _ _ _ (step_evolves _ pid_not_spl _ _ _ H))
      (fun a b c H Hf => refund_step _ pid_not_spl _ _ _ _ H Hf) Hh) as (? & ? & _ & ?). by split_and!.
Qed.
(** The marker tells whether the id was refunded. *)
Lemma refund_marker_history s0 evs s' : ~ refunded pid (accts s0) id -> history pid s0 evs s' ->
  (refunded pid (accts s') id <-> count (is_refund id) evs = 1%nat).
Proof.
  intros H0 Hh. induction Hh as [s|s evs s1 e s2 Hh IH Hs]; [by split|]. specialize (IH H0).
  rewrite count_snoc. destruct (is_refund id e) eqn:He.
  - destruct (refund_step _ pid_not_spl _ _ _ _ Hs He) as [Hn Hy]. split; [intros _|done].
    rewrite IH in Hn. pose proof (refund_count _ _ _ Hh) as (? & _). lia.
  - rewrite Nat.add_0_r, <- IH. unfold refunded. by rewrite (refund_marker_step _ _ _ Hs He).
Qed.
End RefundHistory.

(** * The transaction that created a marker *)

(** The leading byte of an instruction is its position in the enum: derived Borsh. *)
Definition ix_tag (ix : GateInstruction) : byte :=
  match ix with
  | Init _ => Byte.x00 | Send _ => Byte.x01 | Claim _ => Byte.x02 | SetValidator _ _ => Byte.x03
  | SetThreshold _ => Byte.x04 | RegisterAsset _ _ => Byte.x05 | RegisterCorridor _ => Byte.x06 | Pause => Byte.x07
  | Unpause => Byte.x08 | SetGuardian _ => Byte.x09 | Cancel _ => Byte.x0a | Refund _ => Byte.x0b
  | ScheduleGovernance _ => Byte.x0c | CancelScheduledGovernance _ => Byte.x0d | Seal => Byte.x0e
  | ScheduleAction _ => Byte.x0f
  end.
Class InstructionTags `{GateBorsh} : Prop := {
  ix_tagged : forall l ix, ix_try_from_slice l = Some ix -> head l = Some (ix_tag ix);
}.

(** A run of the gate program inside a transaction. *)
Record gate_call := MkGateCall {
  gc_accounts : list account_info;
  gc_data : list byte;
  gc_before : ledger;
  gc_after : ledger;
}.

Section MarkerTx.
Context {RT : Runtime} {RL : RuntimeLaws} {GB : GateBorsh} {GL : GateBorshLaws} {IT : InstructionTags}.
Context {B58 : Base58} {BL : Base58Laws}.
Variable pid : pubkey.
Hypothesis pid_not_spl : pid <> spl_token_id.

Definition ran (c : gate_call) : Prop :=
  is_i 64 (clock (gc_before c)) /\
  process_instruction pid (gc_accounts c) (gc_data c) (gc_before c) = Ok (tt, gc_after c).
(** The node prints the call as [ix], over the transaction's list of keys. *)
Definition prints (keys : list text) (ix : UiCompiledInstruction) (c : gate_call) : Prop :=
  bs58_decode (ui_data ix) = Some (gc_data c) /\
  forall n, (k ← ui_accounts ix !! n; key_at keys k) = key_text <$> slot (gc_accounts c) n.
(** The node shows a transaction that succeeded: its instructions of the gate, inner ones
    included, are the runs of the gate. *)
Definition shows (tx : EncodedConfirmedTransaction) (calls : list gate_call) : Prop :=
  exists meta account_keys instructions,
    tx_meta tx = Some meta /\ tm_err meta = false /\ tm_status_err meta = false /\
    tx_transaction tx = EtJson (UiRaw account_keys instructions) /\
    let keys := account_keys ++ loaded_keys meta in
    let gate_ix ix := ix ∈ instructions ++ inner_compiled meta /\
      key_at keys (ui_program_id_index ix) = Some (key_text pid) in
    Forall ran calls /\
    (forall ix, gate_ix ix -> exists c, c ∈ calls /\ prints keys ix c) /\
    (forall c, c ∈ calls -> exists ix, gate_ix ix /\ prints keys ix c).

(** The call turned the marker on. *)
Definition turned_on (marker : pubkey) (c : gate_call) : Prop :=
  marker_at pid (accts (gc_before c)) marker = None /\ is_Some (marker_at pid (accts (gc_after c)) marker).

Definition marker_isolated (side : Side) (id : hash32) : Prop :=
  match side with Destination => executed_isolated pid id | Source => refunded_isolated pid id end.

(** What the test asks of a call. *)
Definition marks (side : Side) (marker : pubkey) (c : gate_call) : Prop :=
  exists d n, (d, n) ∈ wanted side /\ head (gc_data c) = Some d /\ slot (gc_accounts c) n = Some marker.

Lemma creates_prints keys ix c side marker :
  key_at keys (ui_program_id_index ix) = Some (key_text pid) -> prints keys ix c ->
  creates pid marker side keys ix = true <-> marks side marker c.
Proof.
  intros Hp [Hd Hs]. unfold creates, marks. rewrite bool_decide_eq_true_2 by done. cbn [negb]. rewrite Hd.
  destruct (gc_data c) as [|b l]; [split; [done|by intros (? & ? & _ & ? & _)]|].
  rewrite existsb_exists. split.
  - intros ([d n] & Hin%list_elem_of_In & Hb). apply andb_true_iff in Hb as [H1 H2].
    apply bool_decide_eq_true in H1 as ->, H2. rewrite Hs in H2. exists b, n. split_and!; [done..|].
    apply fmap_Some in H2 as (k & -> & E). by apply key_text_inj in E as ->.
  - intros (d & n & Hin & [= ->] & Hk). exists (d, n). split; [by apply list_elem_of_In|].
    rewrite Hs, Hk. by rewrite !bool_decide_eq_true_2.
Qed.

Lemma creates_marker_marks tx calls side marker : shows tx calls ->
  creates_marker tx pid marker side = true <-> exists c, c ∈ calls /\ marks side marker c.
Proof.
  intros (meta & ks & ixs & Hm & He & Hse & Ht & _ & Hto & Hfrom). unfold creates_marker.
  rewrite Hm, Ht, He, Hse. cbn [orb]. rewrite <- existsb_app, existsb_exists. split.
  - intros (ix & Hin%list_elem_of_In & Hc).
    assert (key_at (ks ++ loaded_keys meta) (ui_program_id_index ix) = Some (key_text pid)) as Hk.
    { unfold creates in Hc. by case_bool_decide. }
    destruct (Hto ix (conj Hin Hk)) as (c & Hcc & Hpr). exists c. split; [done|]. by eapply creates_prints.
  - intros (c & Hc & Hmk). destruct (Hfrom c Hc) as (ix & [Hin Hk] & Hpr). exists ix.
    split; [by apply list_elem_of_In|]. by eapply creates_prints.
Qed.

(** A run of the gate turned a marker on exactly when it is a claim, cancel or refund with
    that account in its slot. *)
Lemma marks_turned_on side id c : ran c -> marks side (marker_account pid side id) c ->
  turned_on (marker_account pid side id) c.
Proof.
  intros [_ Hp] (d & n & Hin & Hd & Hs). destruct c as [accounts data s s']. cbn [gc_data gc_accounts gc_before gc_after] in *.
  unfold turned_on. cbn [gc_before gc_after].
  destruct (ix_try_from_slice data) as [ix|] eqn:Hix; [|unfold process_instruction in Hp; by rewrite Hix in Hp].
  rewrite (process_instruction_decoded _ _ _ _ _ Hix) in Hp.
  pose proof (ix_tagged _ _ Hix) as Ht. rewrite Hd in Ht. injection Ht as ->.
  unfold wanted, CLAIM_IX, CANCEL_IX, REFUND_IX in Hin.
  destruct side; rewrite ?elem_of_cons, ?list_elem_of_singleton in Hin; cbn [marker_account] in *.
  - destruct Hin as [Hin|[Hin|Hin%elem_of_nil] ]; [..|done]; injection Hin as Hd' ->; destruct ix; try done; simpl in Hp.
    + destruct (claim_slot _ _ _ _ _ _ Hp) as (c & Hc & Hs'). rewrite Hs in Hs'. injection Hs' as ->.
      apply process_claim_Ok in Hp as (c' & a & r & He); [|done].
      rewrite (config_at_unique _ _ _ _ Hc (ce_config _ _ _ _ _ _ _ He)).
      rewrite (ce_fresh _ _ _ _ _ _ _ He), (ce_marked _ _ _ _ _ _ _ He). by split.
    + destruct (cancel_slot _ _ _ _ _ _ Hp) as (c & Hc & Hs'). rewrite Hs in Hs'. injection Hs' as ->.
      apply process_cancel_Ok in Hp as (c' & He).
      rewrite (config_at_unique _ _ _ _ Hc (xe_config _ _ _ _ _ He)).
      rewrite (xe_fresh _ _ _ _ _ He), (xe_marked _ _ _ _ _ He). by split.
  - destruct Hin as [Hin|Hin%elem_of_nil]; [|done]. injection Hin as Hd' ->; destruct ix; try done; simpl in Hp.
    destruct (refund_slot _ _ _ _ _ _ Hp) as (c & Hc & Hs'). rewrite Hs in Hs'. injection Hs' as ->.
    apply process_refund_Ok in Hp as (c' & a & r & He); [|done].
    rewrite (config_at_unique _ _ _ _ Hc (re_config _ _ _ _ _ _ _ He)).
    rewrite (re_fresh _ _ _ _ _ _ _ He), (re_marked _ _ _ _ _ _ _ He). by split.
Qed.

Lemma turned_on_marks side id c : marker_isolated side id -> ran c -> turned_on (marker_account pid side id) c ->
  marks side (marker_account pid side id) c.
Proof.
  intros Hiso [Hclk Hp] [Hn Hy]. destruct c as [accounts data s s']. cbn [gc_data gc_accounts gc_before gc_after] in *.
  destruct (ix_try_from_slice data) as [ix|] eqn:Hix; [|unfold process_instruction in Hp; by rewrite Hix in Hp].
  pose proof (GateTx pid _ _ _ _ _ Hclk Hix Hp) as Hstep. pose proof (ix_tagged _ _ Hix) as Htag.
  rewrite (process_instruction_decoded _ _ _ _ _ Hix) in Hp. unfold marks. cbn [gc_data gc_accounts].
  destruct side; cbn [marker_account] in *.
  - assert (is_claim id (event_of pid s accounts ix) || is_cancel id (event_of pid s accounts ix) = true) as Hev.
    { destruct (marker_step pid pid_not_spl id Hiso _ _ _ Hstep) as [(E & _)|[(_ & _ & -> & _)|(_ & _ & _ & ->)]];
        [|done|by rewrite orb_true_r]. exfalso. rewrite E, Hn in Hy. by destruct Hy. }
    unfold event_of in Hev. destruct (current_config pid (accts s)) as [c|] eqn:Hc; [|by destruct ix].
    apply current_config_Some in Hc. destruct ix; try done; simpl in Hev, Hp; rewrite ?orb_false_r in Hev;
      apply bool_decide_eq_true in Hev.
    + exists Byte.x02, 2%nat. split_and!; [by left|done|]. destruct (claim_slot _ _ _ _ _ _ Hp) as (c' & Hc' & ->).
      by rewrite (config_at_unique _ _ _ _ Hc' Hc), Hev.
    + exists Byte.x0a, 1%nat. split_and!; [by right; left|done|]. destruct (cancel_slot _ _ _ _ _ _ Hp) as (c' & Hc' & ->).
      by rewrite (config_at_unique _ _ _ _ Hc' Hc), Hev.
  - destruct (is_refund id (event_of pid s accounts ix)) eqn:Hev.
    2: { exfalso. rewrite (refund_marker_step pid pid_not_spl id Hiso _ _ _ Hstep Hev), Hn in Hy. by destruct Hy. }
    unfold event_of in Hev. destruct (current_config pid (accts s)) as [c|] eqn:Hc; [|by destruct ix].
    apply current_config_Some in Hc. destruct ix; try done; simpl in Hev, Hp. apply bool_decide_eq_true in Hev.
    exists Byte.x0b, 3%nat. split_and!; [by left|done|]. destruct (refund_slot _ _ _ _ _ _ Hp) as (c' & Hc' & ->).
    by rewrite (config_at_unique _ _ _ _ Hc' Hc), Hev.
Qed.

(** The test by which the observer chooses the transaction to record is exact: for a
    transaction that succeeded, as the node prints it, [creates_marker] holds if and only
    if a run of the gate in that transaction, at top level or inside another program's
    call, turned this very marker on. So a transaction that merely mentions the address,
    in a call of the gate or elsewhere, is never recorded as the claim, the cancellation
    or the refund. *)
Theorem creates_marker_exact tx calls side id : shows tx calls -> marker_isolated side id ->
  creates_marker tx pid (marker_account pid side id) side = true <->
  exists c, c ∈ calls /\ turned_on (marker_account pid side id) c.
Proof.
  intros Hsh Hiso. rewrite (creates_marker_marks _ _ _ _ Hsh).
  assert (Forall ran calls) as Hran by (by destruct Hsh as (? & ? & ? & _ & _ & _ & _ & ? & _)).
  rewrite Forall_forall in Hran. split; intros (c & Hc & H); exists c; split; [done| |done|].
  - by apply marks_turned_on; [apply Hran|].
  - by apply turned_on_marks; [|apply Hran|].
Qed.
End MarkerTx.

(** * What is reported *)

(** The event of a terminal state, and what excludes it. *)
Definition happened (what : Terminal) (id : hash32) (evs : list gate_event) : Prop :=
  match what with
  | TClaimed => count (is_claim id) evs = 1%nat /\ count (is_cancel id) evs = 0%nat
  | TCancelled => count (is_claim id) evs = 0%nat /\ count (is_cancel id) evs = 1%nat
  | TRefunded => count (is_refund id) evs = 1%nat
  end.
Definition side_for (what : Terminal) : Side :=
  match what with TRefunded => Source | _ => Destination end.

Lemma count_app f evs evs' : count f (evs ++ evs') = (count f evs + count f evs')%nat.
Proof. unfold count. by rewrite List.filter_app, length_app. Qed.

Section Markers.
Context {RT : Runtime} {RL : RuntimeLaws} {GB : GateBorsh} {GL : GateBorshLaws}.
Variable pid : pubkey.
Hypothesis pid_not_spl : pid <> spl_token_id.

Lemma destination_reads m k : destination_terminal (account_view pid <$> m !! k) =
  match marker_at pid m k with
  | Some b => if bool_decide (b = MARKER_CLAIMED) then Some TClaimed
              else if bool_decide (b = MARKER_CANCELLED) then Some TCancelled else None
  | None => None
  end.
Proof.
  unfold destination_terminal, marker_at, acct, account_view.
  destruct (m !! k) as [a|]; simpl; [|by case_bool_decide]. case_bool_decide; simpl; [|done]. by destruct (acc_data a).
Qed.
Lemma source_reads m k : source_terminal (account_view pid <$> m !! k) =
  match marker_at pid m k with Some _ => Some TRefunded | None => None end.
Proof.
  unfold source_terminal, marker_at, acct, account_view.
  destruct (m !! k) as [a|]; simpl; [|by case_bool_decide]. case_bool_decide; simpl; [|done]. by destruct (acc_data a).
Qed.

Lemma history_app s evs s1 evs2 s2 : history pid s evs s1 -> history pid s1 evs2 s2 -> history pid s (evs ++ evs2) s2.
Proof.
  intros H1 H2. induction H2 as [|s' evs2 s3 e s4 _ IH Hs]; [by rewrite app_nil_r|].
  rewrite app_assoc. econstructor; [by apply IH|done].
Qed.

Definition unmarked (side : Side) (id : hash32) (s : ledger) : Prop :=
  marker_at pid (accts s) (marker_account pid side id) = None.

(** What the marker account shows after a history is what happened in it. *)
Lemma terminal_happened side what id s0 evs s' :
  marker_isolated pid side id -> unmarked side id s0 -> history pid s0 evs s' ->
  terminal_on side (account_view pid <$> accts s' !! marker_account pid side id) = Some what ->
  side = side_for what /\ happened what id evs.
Proof.
  intros Hiso H0 Hh. destruct side; cbn [terminal_on marker_account marker_isolated] in *.
  - rewrite destination_reads. pose proof (marker_history pid pid_not_spl id Hiso _ _ _ H0 Hh) as Ht.
    destruct (marker_at _ _ _) as [b|]; [|done]. destruct Ht as [(-> & ? & ?)|(-> & ? & ?)]; by intros [= <-].
  - rewrite source_reads. destruct (marker_at _ _ _) eqn:E; [|done]. intros [= <-]. split; [done|].
    eapply refund_marker_history; [done|exact Hiso| |exact Hh|]; unfold refunded; [|by rewrite E].
    unfold unmarked in H0. cbn in H0. rewrite H0. by intros [? ?].
Qed.
Lemma happened_terminal what id s0 evs s' :
  marker_isolated pid (side_for what) id -> unmarked (side_for what) id s0 -> history pid s0 evs s' ->
  happened what id evs ->
  terminal_on (side_for what) (account_view pid <$> accts s' !! marker_account pid (side_for what) id) = Some what.
Proof.
  unfold unmarked. intros Hiso H0 Hh Hw. destruct what; cbn [side_for terminal_on marker_account marker_isolated happened] in *.
  1, 2: rewrite destination_reads; pose proof (marker_history pid pid_not_spl id Hiso _ _ _ H0 Hh) as Ht;
    unfold marker_tells in Ht; destruct (marker_at pid (accts s') _) as [b|]; [destruct Ht as [(-> & ? & ?)|(-> & ? & ?)]|];
    first [done | lia].
  rewrite source_reads. assert (refunded pid (accts s') id) as [b Hb].
  { eapply refund_marker_history; [done|exact Hiso| |exact Hh|done]. unfold refunded. rewrite H0. by intros [? ?]. }
  by rewrite Hb.
Qed.

(** Nothing that comes later changes it. *)
Lemma happened_final what id s0 evs s' evs2 s2 :
  marker_isolated pid (side_for what) id -> unmarked (side_for what) id s0 -> history pid s0 evs s' ->
  happened what id evs -> history pid s' evs2 s2 -> happened what id (evs ++ evs2).
Proof.
  unfold unmarked. intros Hiso H0 Hh Hw H2.
  destruct what; cbn [side_for marker_account marker_isolated happened] in *; rewrite !count_app.
  1, 2: pose proof (marker_history pid pid_not_spl id Hiso _ _ _ H0 Hh) as Ht;
    unfold marker_tells in Ht; destruct (marker_at pid (accts s') _) as [b|] eqn:Hb; [|lia];
    destruct (marker_final pid pid_not_spl id Hiso _ _ _ _ Hb H2) as (_ & -> & ->); lia.
  assert (refunded pid (accts s') id) as Hr.
  { eapply refund_marker_history; [done|exact Hiso| |exact Hh|done]. unfold refunded. rewrite H0. by intros [? ?]. }
  destruct (refund_count pid pid_not_spl id _ _ _ H2) as (_ & Hz & _). rewrite (Hz Hr). lia.
Qed.
End Markers.

(** * Runs of the observer *)

Definition key_of (x : Sighting) : text * Terminal := (to_ascii_lowercase (sy_id x), sy_what x).
Definition sighted_ok (x : Sighting) : Prop := sy_answer x = Ok tt.

Section Runs.
Context {RT : Runtime} {HX : HexCodec} {B58 : Base58} {SN : SolanaNode} {ON : ObserverNode}.
Variables (pid : pubkey) (chain_id : Z).

(** The transaction named: the marker's address, or one that passed the test. *)
Definition names_tx (marker : pubkey) (side : Side) (tx : text) : Prop :=
  tx = key_text marker \/
  exists sig t tr, signature_from_str tx = Some sig /\ on_transaction t sig = Ok tr /\
    creates_marker tr pid marker side = true.
(** What a report rests on. *)
Definition seen (x : Sighting) : Prop :=
  exists side id t a, hex32 (sy_id x) = Some id /\ sn_account t (marker_account pid side id) = Ok a /\
    terminal_on side (account_view pid <$> a) = Some (sy_what x) /\
    names_tx (marker_account pid side id) side (sy_tx x).

Lemma first_creating_spec marker side sigs o :
  wp (first_creating pid marker side sigs) (fun r o' => o' = o /\ exists tx, r = Ok tx /\ names_tx marker side tx) o.
Proof.
  revert o. induction sigs as [|s sigs IH]; intros o; cbn [first_creating].
  - apply wp_ret. split; [done|]. eexists. split; [done|by left].
  - destruct (signature_from_str (si_signature s)) as [sig|] eqn:Hs; [|apply IH].
    apply wp_bind, wp_ask. intros t. destruct (on_transaction t sig) as [tr|] eqn:Ht; [|apply IH].
    destruct (creates_marker _ _ _ _) eqn:Hc; [|apply IH]. apply wp_ret. split; [done|].
    eexists. split; [done|]. right. by exists sig, t, tr.
Qed.
Lemma marker_tx_spec marker side o :
  wp (marker_tx pid marker side) (fun r o' => o' = o /\ exists tx, r = Ok tx /\ names_tx marker side tx) o.
Proof.
  apply wp_bind, wp_ask. intros t. destruct (on_signatures _ _ _); [apply first_creating_spec|].
  apply wp_ret. split; [done|]. eexists. split; [done|by left].
Qed.

(** One record: nothing, or one report of what its marker showed, not remembered before. *)
Definition reported_one (rec : SubmissionRecord) (o o' : Observer) : Prop :=
  o' = o \/ exists what tx ans, seen (MkSighting (rec_submission_id rec) what tx ans) /\
    already (ob_reported o) (rec_submission_id rec) what = false /\
    o' = note_report (rec_submission_id rec) what tx ans o.
Lemma observe_spec rec o :
  wp (observe pid chain_id rec) (fun r o' => r = Ok tt /\ reported_one rec o o') o.
Proof.
  unfold observe. destruct (side_of rec chain_id) as [side|]; [|apply wp_ret; by split; [|left] ].
  destruct (hex32 _) as [id|] eqn:Hid; [|apply wp_ret; by split; [|left] ].
  apply wp_bind, wp_ask. intros t. destruct (sn_account t _) as [a|] eqn:Ha; [|apply wp_ret; by split; [|left] ].
  destruct (terminal_on _ _) as [what|] eqn:Hw; [|apply wp_ret; by split; [|left] ].
  apply wp_bind, wp_get. destruct (already _ _ _) eqn:Hal; [apply wp_ret; by split; [|left] |].
  apply wp_bind. eapply wp_mono; [apply marker_tx_spec|]. intros r o' [-> (tx & -> & Htx)].
  apply wp_bind, wp_ask. intros t'. apply wp_modify. split; [done|]. right.
  exists what, tx, (on_report t' (observed_report (rec_submission_id rec) what tx)). split_and!; [|done..].
  by exists side, id, t, a.
Qed.

(** A property kept by a report is kept by a pass; [rec] ranges over the queues. *)
Lemma observe_all (I : Observer -> Prop) queue o :
  (forall rec o o', rec ∈ queue -> I o -> reported_one rec o o' -> I o') -> I o ->
  wp (mapM (observe pid chain_id) queue) (fun r o' => is_Ok r /\ I o') o.
Proof.
  revert o. induction queue as [|rec queue IH]; intros o HI Ho; cbn; [apply wp_ret; split; [by eexists|done]|].
  apply wp_bind. eapply wp_mono; [apply observe_spec|]. intros r o1 [-> H1].
  assert (I o1) as Ho1 by (eapply HI; [left|done|done]).
  apply wp_bind. eapply wp_mono; [apply IH; [intros; eapply HI; [right| |]; done|done]|].
  intros r o2 [[l ->] Ho2]. apply wp_ret. split; [by eexists|done].
Qed.
Definition queues_of (queue : list SubmissionRecord) : Prop :=
  exists t t' claims refunds, sn_pending_claims t = Ok claims /\ sn_pending_refunds t' = Ok refunds /\
    queue = claims ++ refunds.
Lemma tick_keeps (I : Observer -> Prop) o :
  (forall queue rec o o', queues_of queue -> rec ∈ queue -> I o -> reported_one rec o o' -> I o') ->
  (forall queue o, queues_of queue -> I o -> I (on_reported (retain_in_queue (queue_ids queue)) o)) -> I o ->
  wp (tick pid chain_id) (fun _ o' => I o') o.
Proof.
  intros HI Hr Ho. apply wp_bind, wp_ask. intros t. apply wp_bind, wp_try.
  destruct (sn_pending_claims t) as [claims|] eqn:Hc; [|done].
  apply wp_bind, wp_ask. intros t'. apply wp_bind, wp_try.
  destruct (sn_pending_refunds t') as [refunds|] eqn:Hrf; [|done].
  assert (queues_of (claims ++ refunds)) as Hq by (by exists t, t', claims, refunds).
  apply wp_bind, wp_modify, wp_bind. eapply wp_mono; [apply (observe_all I); [intros; by eapply HI|by apply Hr]|].
  intros r o' [[l ->] Ho']. by apply wp_ret.
Qed.
Lemma run_keeps (I : Observer -> Prop) n o :
  (forall queue rec o o', queues_of queue -> rec ∈ queue -> I o -> reported_one rec o o' -> I o') ->
  (forall queue o, queues_of queue -> I o -> I (on_reported (retain_in_queue (queue_ids queue)) o)) -> I o ->
  wp (run pid chain_id n) (fun r o' => r = Ok tt /\ I o') o.
Proof.
  intros HI Hr. revert o. induction n as [|n IH]; intros o Ho; cbn [run]; [by apply wp_ret|].
  apply wp_bind, wp_attempt. eapply wp_mono; [by apply (tick_keeps I)|]. intros r o' Ho'. by apply IH.
Qed.

Lemma note_sightings i what tx r o :
  ob_sightings (note_report i what tx r o) = ob_sightings o ++ [MkSighting i what tx r].
Proof. done. Qed.

Lemma run_seen n o : Forall seen (ob_sightings o) ->
  wp (run pid chain_id n) (fun r o' => r = Ok tt /\ Forall seen (ob_sightings o')) o.
Proof.
  intros Ho. apply run_keeps; [|done..]. intros _ rec o1 o2 _ _ H1 [->|(w & tx & a & Hs & _ & ->)]; [done|].
  rewrite note_sightings. apply Forall_app. split; [done|]. by apply Forall_singleton.
Qed.

(** ** Once *)

(** Every accepted report of the id is remembered, and nothing about it follows. *)
Definition settled (i : text) (o : Observer) : Prop :=
  forall pre x post, ob_sightings o = pre ++ x :: post -> to_ascii_lowercase (sy_id x) = i -> sighted_ok x ->
    key_of x ∈ ob_reported o /\ Forall (fun y => key_of y <> key_of x) post.
Lemma snoc_split {A} (l pre post : list A) x y : l ++ [y] = pre ++ x :: post ->
  (pre = l /\ x = y /\ post = []) \/ exists post', post = post' ++ [y] /\ l = pre ++ x :: post'.
Proof.
  destruct post as [|z post' _] using rev_ind.
  - intros [-> [= ->] ]%app_inj_2; [by left|done].
  - rewrite app_comm_cons, app_assoc. intros [-> [= ->] ]%app_inj_2; [|done]. right. by exists post'.
Qed.
Lemma settled_note i rec o o' : settled i o -> reported_one rec o o' -> settled i o'.
Proof.
  intros Hs [->|(w & tx & a & _ & Hal & ->)]; [done|]. intros pre x post E Hi Hok.
  rewrite note_sightings in E. unfold already in Hal. apply bool_decide_eq_false in Hal.
  apply snoc_split in E as [(-> & -> & ->)|(post' & -> & E)].
  - unfold sighted_ok in Hok. cbn in Hok. subst a. split; [|constructor]. cbn. unfold accepted, key_of. set_solver.
  - destruct (Hs _ _ _ E Hi Hok) as [Hin Hall]. split.
    + cbn. destruct a; [|done]. unfold accepted. set_solver.
    + apply Forall_app. split; [done|]. apply Forall_singleton. intros Ek. apply Hal. by rewrite <- Ek in Hin.
Qed.
Lemma settled_retain i queue o : i ∈ queue_ids queue -> settled i o ->
  settled i (on_reported (retain_in_queue (queue_ids queue)) o).
Proof.
  intros Hq Hs pre x post E Hi Hok. destruct (Hs _ _ _ E Hi Hok) as [Hin Hall]. split; [|done].
  cbn. apply elem_of_filter. split; [|done]. cbn. by rewrite Hi.
Qed.
End Runs.

Section Observed.
Context {RT : Runtime} {RL : RuntimeLaws} {GB : GateBorsh} {GL : GateBorshLaws}.
Context {HX : HexCodec} {B58 : Base58} {SN : SolanaNode} {ON : ObserverNode}.
Variables (pid : pubkey) (chain_id : Z).
Hypothesis pid_not_spl : pid <> spl_token_id.

(** What a restarted process begins with. *)
Definition fresh_observer : Observer := MkObserver ∅ [].
(** Every answer about an account is its content at some moment of the history. *)
Definition reads_history (s0 : ledger) (evs : list gate_event) (s' : ledger) : Prop :=
  forall t k a, sn_account t k = Ok a ->
  exists pre post s1, evs = pre ++ post /\ history pid s0 pre s1 /\ history pid s1 post s' /\ a = accts s1 !! k.

(** The observer reports only what has happened for good. Let it run any number of
    passes, whatever the store lists and whatever the node answers, as long as an answer
    about an account is its content at some moment of the gate's (finalized) history.
    Then for every report it sends, accepted or not, the claim, cancellation or refund it
    names occurred exactly once in the history, the alternative did not, and that stays so
    in every continuation; and the transaction it names is the address of the marker or a
    transaction that passed the test [creates_marker]. *)
Theorem observed_reports_true s0 evs s' n r o t x id evs2 s2 :
  reads_history s0 evs s' -> run pid chain_id n fresh_observer 0%nat = (r, o, t) -> x ∈ ob_sightings o ->
  hex32 (sy_id x) = Some id -> marker_isolated pid Destination id -> marker_isolated pid Source id ->
  unmarked pid Destination id s0 -> unmarked pid Source id s0 -> history pid s' evs2 s2 ->
  happened (sy_what x) id (evs ++ evs2) /\
  names_tx pid (marker_account pid (side_for (sy_what x)) id) (side_for (sy_what x)) (sy_tx x).
Proof.
  intros Hr Hrun Hx Hid Hd Hs H0d H0s H2.
  destruct (wp_run _ _ _ _ _ _ _ (run_seen pid chain_id n fresh_observer (Forall_nil_2 _)) Hrun) as [_ Hall].
  rewrite Forall_forall in Hall. destruct (Hall _ Hx) as (side & i & t' & a & Hid' & Hacc & Hterm & Htx).
  rewrite Hid in Hid'. injection Hid' as <-. destruct (Hr _ _ _ Hacc) as (pre & post & s1 & -> & Hpre & Hpost & ->).
  assert (marker_isolated pid side id /\ unmarked pid side id s0) as [Hiso H0] by by destruct side.
  destruct (terminal_happened _ pid_not_spl _ _ _ _ _ _ Hiso H0 Hpre Hterm) as [-> Hh].
  split; [|done]. rewrite <- app_assoc. eapply happened_final; [done..|]. by eapply history_app.
Qed.

(** One accepted report per transfer. While an id is in the queues the store lists, the
    observer never reports a state of it again once the store has accepted that report,
    however many passes it makes; an answer that was lost or refused is not taken for an
    acceptance (the next theorem: it is tried again). *)
Theorem reported_once i n r o t pre x post :
  (forall queue, queues_of queue -> i ∈ queue_ids queue) ->
  run pid chain_id n fresh_observer 0%nat = (r, o, t) -> ob_sightings o = pre ++ x :: post ->
  to_ascii_lowercase (sy_id x) = i -> sy_answer x = Ok tt -> Forall (fun y => key_of y <> key_of x) post.
Proof.
  intros Hq Hrun E Hi Hok. assert (settled i fresh_observer) as Hs by (intros p y q E'; by destruct p).
  destruct (wp_run _ _ _ _ _ _ _ (run_keeps pid chain_id (settled i) n fresh_observer
    (fun _ rec o1 o2 _ _ H1 H2 => settled_note pid i rec o1 o2 H1 H2)
    (fun queue o1 Hqu H1 => settled_retain i queue o1 (Hq _ Hqu) H1) Hs) Hrun) as [_ H].
  by destruct (H _ _ _ E Hi Hok).
Qed.

(** Remembered only what was accepted. *)
Definition backed (o : Observer) : Prop :=
  forall k, k ∈ ob_reported o -> exists x, x ∈ ob_sightings o /\ sighted_ok x /\ key_of x = k.
Lemma backed_note rec o o' : backed o -> reported_one pid rec o o' -> backed o'.
Proof.
  intros Hb [->|(w & tx & a & _ & _ & ->)]; [done|]. intros k Hk. rewrite note_sightings. cbn in Hk.
  destruct a as [[]|].
  - unfold accepted in Hk. apply elem_of_union in Hk as [->%elem_of_singleton|Hk].
    + eexists. split; [apply elem_of_app; right; by left|done].
    + destruct (Hb _ Hk) as (x & Hx & ?). exists x. split; [apply elem_of_app; by left|done].
  - destruct (Hb _ Hk) as (x & Hx & ?). exists x. split; [apply elem_of_app; by left|done].
Qed.
Lemma backed_retain q o : backed o -> backed (on_reported (retain_in_queue q) o).
Proof. intros Hb k Hk. apply Hb. cbn in Hk. unfold retain_in_queue in Hk. by apply elem_of_filter in Hk as [_ ?]. Qed.

Section Eventually.
Variables (rec : SubmissionRecord) (what : Terminal) (id : hash32).
Hypothesis rec_id : hex32 (rec_submission_id rec) = Some id.
Hypothesis rec_side : side_of rec chain_id = Some (side_for what).
Hypothesis shown : forall t, exists a, sn_account t (marker_account pid (side_for what) id) = Ok a /\
  terminal_on (side_for what) (account_view pid <$> a) = Some what.
Hypothesis taken : forall t tx, on_report t (observed_report (rec_submission_id rec) what tx) = Ok tt.
Abbreviation key := (to_ascii_lowercase (rec_submission_id rec), what).

Lemma observe_reports o : wp (observe pid chain_id rec) (fun r o' => r = Ok tt /\ key ∈ ob_reported o') o.
Proof.
  unfold observe. rewrite rec_side, rec_id. apply wp_bind, wp_ask. intros t.
  destruct (shown t) as (a & Ha & Hw). rewrite Ha, Hw. apply wp_bind, wp_get. unfold already.
  destruct (bool_decide (key ∈ ob_reported o)) eqn:Hal.
  - apply bool_decide_eq_true in Hal. by apply wp_ret.
  - apply wp_bind. eapply wp_mono; [apply marker_tx_spec|]. intros r o' [-> (tx & -> & _)].
    apply wp_bind, wp_ask. intros t'. rewrite taken. apply wp_modify. split; [done|]. cbn. unfold accepted. set_solver.
Qed.
Lemma pass_reports queue o : rec ∈ queue ->
  wp (mapM (observe pid chain_id) queue) (fun r o' => is_Ok r /\ key ∈ ob_reported o') o.
Proof.
  revert o. induction queue as [|rec' queue IH]; intros o Hin; [by apply elem_of_nil in Hin|]. cbn.
  assert (forall o, key ∈ ob_reported o ->
    wp (mapM (observe pid chain_id) queue) (fun r o' => is_Ok r /\ key ∈ ob_reported o') o) as Hkeep.
  { intros o1 Ho1. apply (observe_all pid chain_id (fun o => key ∈ ob_reported o)); [|done].
    intros r' o2 o3 _ H2 [->|(w & tx & a & _ & _ & ->)]; [done|]. cbn. destruct a; [|done].
    unfold accepted. apply elem_of_union. by right. }
  apply elem_of_cons in Hin as [<-|Hin].
  - apply wp_bind. eapply wp_mono; [apply observe_reports|]. intros r o1 [-> H1].
    apply wp_bind. eapply wp_mono; [by apply Hkeep|]. intros r o2 [[l ->] H2]. apply wp_ret. split; [by eexists|done].
  - apply wp_bind. eapply wp_mono; [apply observe_spec|]. intros r o1 [-> _].
    apply wp_bind. eapply wp_mono; [by apply IH|]. intros r o2 [[l ->] H2]. apply wp_ret. split; [by eexists|done].
Qed.
Hypothesis listed : forall t t', exists claims refunds, sn_pending_claims t = Ok claims /\
  sn_pending_refunds t' = Ok refunds /\ rec ∈ claims ++ refunds.
Lemma tick_reports o : wp (tick pid chain_id) (fun r o' => r = Ok tt /\ key ∈ ob_reported o') o.
Proof.
  apply wp_bind, wp_ask. intros t. destruct (listed t t) as (claims & _ & Hc & _). rewrite Hc. apply wp_bind, wp_try.
  apply wp_bind, wp_ask. intros t'. destruct (listed t t') as (claims' & refunds & Hc' & Hr & Hin).
  rewrite Hc in Hc'. injection Hc' as <-. rewrite Hr. apply wp_bind, wp_try, wp_bind, wp_modify, wp_bind.
  eapply wp_mono; [by apply pass_reports|]. intros r o' [[l ->] H]. by apply wp_ret.
Qed.
Lemma run_reports n o : wp (run pid chain_id (S n)) (fun r o' => r = Ok tt /\ key ∈ ob_reported o') o.
Proof.
  revert o. induction n as [|n IH]; intros o; change (run pid chain_id (S ?m)) with
    (attempt (E' := unit) (tick pid chain_id) ≫= fun _ => run pid chain_id m);
    apply wp_bind, wp_attempt; (eapply wp_mono; [apply tick_reports|]); intros r o' [-> H]; [by apply wp_ret|apply IH].
Qed.
End Eventually.

(** What has happened is reported. If an id was claimed, cancelled or refunded in a
    history of the gate that started without its marker, then a restarted observer whose
    node shows the marker as it is after that history, and whose store lists a record of
    the id on the side concerned and takes the report, gets the report of exactly that
    state accepted in its first pass, whatever else is in the queues and whatever the
    search for the transaction meets. *)
Theorem terminal_gets_reported s0 evs s' what id rec n r o t :
  marker_isolated pid (side_for what) id -> unmarked pid (side_for what) id s0 -> history pid s0 evs s' ->
  happened what id evs -> hex32 (rec_submission_id rec) = Some id -> side_of rec chain_id = Some (side_for what) ->
  (forall t, let k := marker_account pid (side_for what) id in sn_account t k = Ok (accts s' !! k)) ->
  (forall t t', exists claims refunds, sn_pending_claims t = Ok claims /\ sn_pending_refunds t' = Ok refunds /\
     rec ∈ claims ++ refunds) ->
  (forall t tx, on_report t (observed_report (rec_submission_id rec) what tx) = Ok tt) ->
  run pid chain_id (S n) fresh_observer 0%nat = (r, o, t) ->
  r = Ok tt /\ exists x, x ∈ ob_sightings o /\ sy_answer x = Ok tt /\ sy_what x = what /\
    to_ascii_lowercase (sy_id x) = to_ascii_lowercase (rec_submission_id rec).
Proof.
  intros Hiso H0 Hh Hw Hid Hside Hread Hlist Htake Hrun.
  pose proof (happened_terminal pid pid_not_spl _ _ _ _ _ Hiso H0 Hh Hw) as Hterm.
  assert (forall t, exists a, sn_account t (marker_account pid (side_for what) id) = Ok a /\
    terminal_on (side_for what) (account_view pid <$> a) = Some what) as Hshown by (intros t'; eexists; split; [apply Hread|done]).
  destruct (wp_run _ _ _ _ _ _ _ (run_reports rec what id Hid Hside Hshown Htake Hlist n fresh_observer) Hrun) as [-> Hin].
  split; [done|].
  destruct (wp_run _ _ _ _ _ _ _ (run_keeps pid chain_id backed (S n) fresh_observer
    (fun _ rec o1 o2 _ _ H1 H2 => backed_note rec o1 o2 H1 H2) (fun q o1 _ H1 => backed_retain _ o1 H1)
    (fun k H => False_ind _ (not_elem_of_empty k H))) Hrun) as [_ Hb].
  destruct (Hb _ Hin) as (x & Hx & Hok & [= H1 H2]). by exists x.
Qed.
End Observed.
