(* ===== verification/SwapMath.v ===== *)
(** Pricing math, account layouts and the reprice planner of the swap pool
    (crates/swap-math/src/lib.rs and refresh.rs), shared by the on-chain program
    and every off-chain reader. *)

From S2P Require Import Prelude.
From S2P Require Import SolanaRuntime.
From S2P Require Import GateTypes.

(** * Constants *)

Definition PRICE_ONE : Z := 1000000000000000000.
Definition BPS_DENOM : Z := 10000.
Definition MAX_FEE_BPS : Z := 1000.
Definition DEFAULT_MAX_PRICE_AGE : Z := 86400.
Definition POOL_SPACE : Z := 32 * 4 + 2 + 2 + 8 + 1 + 32.
Definition TOKEN_SPACE : Z := 32 + 32 + 1 + 16 + 8 + 8 + 1 + 32.
Definition POOL_SEED : list byte := bytes_of_string "pool".
Definition TOKEN_SEED : list byte := bytes_of_string "token".
Definition VAULT_AUTHORITY_SEED : list byte := bytes_of_string "vault_authority".

(** * Pricing *)

(** [mul_div]: the 256-bit product, the quotient, and the rounding. *)
Definition mul_div (a b d : Z) (ceil : bool) : option Z :=
  if d =? 0 then None
  else
    n ← checked_mul 256 a b;
    let q := n / d in
    q ← (if ceil && negb (q * d =? n) then checked_add 256 q 1 else Some q);
    if u_max 128 <? q then None else Some q.
Definition mul_div_floor (a b d : Z) : option Z := mul_div a b d false.
Definition mul_div_ceil (a b d : Z) : option Z := mul_div a b d true.

Definition pow10 (dec : Z) : option Z :=
  if 38 <? dec then None else checked_pow 128 10 dec.

Definition amount_out (amount_in price_in dec_in price_out dec_out fee_bps : Z) : option Z :=
  if (price_in =? 0) || (price_out =? 0) then None
  else
    p_in ← pow10 dec_in;
    usd ← mul_div_floor amount_in price_in p_in;
    usd ← (if negb (fee_bps =? 0) then
             fee ← mul_div_ceil usd fee_bps BPS_DENOM;
             checked_sub 128 usd fee
           else Some usd);
    p_out ← pow10 dec_out;
    out ← mul_div_floor usd p_out price_out;
    u_checked 64 out.

Definition usd_value (amount price dec : Z) : option Z :=
  p ← pow10 dec;
  mul_div_floor amount price p.

(** * Account layouts *)

Record PoolState := MkPoolState {
  pl_owner : pubkey;
  pl_oracle : pubkey;
  pl_guardian : pubkey;
  pl_hub_mint : pubkey;
  pl_fee_bps : Z;                    (* u16 *)
  pl_max_price_deviation_bps : Z;    (* u16 *)
  pl_min_price_update_interval : Z;  (* i64 *)
  pl_paused : bool;
  pl_max_price_age : Z;              (* i64 *)
}.

Record TokenState := MkTokenState {
  tk_mint : pubkey;
  tk_vault : pubkey;
  tk_decimals : Z;                   (* u8 *)
  tk_price : Z;                      (* u128 *)
  tk_reserve : Z;                    (* u64 *)
  tk_last_price_update : Z;          (* i64 *)
  tk_listed : bool;
  tk_price_set_at : Z;               (* i64 *)
}.

Record SwappedEvent := MkSwappedEvent {
  sw_version : Z;
  sw_sender : pubkey;
  sw_mint_in : pubkey;
  sw_mint_out : pubkey;
  sw_amount_in : Z;
  sw_amount_out : Z;
  sw_to : pubkey;
}.

Definition effective_max_price_age (p : PoolState) : Z :=
  if 0 <? pl_max_price_age p then pl_max_price_age p else DEFAULT_MAX_PRICE_AGE.

Definition price_is_fresh (p : PoolState) (token : TokenState) (now : Z) : bool :=
  if bool_decide (tk_mint token = pl_hub_mint p) then true
  else i_saturating_sub 64 now (tk_price_set_at token) <=? effective_max_price_age p.

Definition PoolState_wf (p : PoolState) : Prop :=
  is_u 16 (pl_fee_bps p) /\ is_u 16 (pl_max_price_deviation_bps p) /\
  is_i 64 (pl_min_price_update_interval p) /\ is_i 64 (pl_max_price_age p).
Definition TokenState_wf (t : TokenState) : Prop :=
  is_u 8 (tk_decimals t) /\ is_u 128 (tk_price t) /\ is_u 64 (tk_reserve t) /\
  is_i 64 (tk_last_price_update t) /\ is_i 64 (tk_price_set_at t).
#[export] Instance PoolState_wf_dec p : Decision (PoolState_wf p).
Proof. unfold PoolState_wf. apply _. Defined.
#[export] Instance TokenState_wf_dec p : Decision (TokenState_wf p).
Proof. unfold TokenState_wf. apply _. Defined.

(** * The reprice planner (refresh.rs) *)

Record PriceState := MkPriceState {
  ps_now : Z;
  ps_price : Z;                      (* u128 *)
  ps_price_set_at : Z;
  ps_last_price_update : Z;
  ps_max_age : option Z;
  ps_min_update_interval : Z;
  ps_max_deviation_bps : Z;          (* u16 *)
  ps_fee_bps : Z;                    (* u16 *)
}.

Definition step_cap_bps (s : PriceState) : Z := Z.min (ps_max_deviation_bps s) (ps_fee_bps s).

Inductive Plan :=
  | Idle
  | Wait (until : Z)
  | PlanSet (from price : Z) (step : bool).

Definition plan (s : PriceState) (target margin : Z) : Plan :=
  let moving := negb (ps_price s =? target) in
  let due :=
    match ps_max_age s with
    | Some max_age =>
        Z.max (i_saturating_sub 64 max_age margin) 0 <=? i_saturating_sub 64 (ps_now s) (ps_price_set_at s)
    | None => false
    end in
  if negb moving && negb due then Idle
  else
    let until := i_saturating_add 64 (ps_last_price_update s) (ps_min_update_interval s) in
    if negb (ps_last_price_update s =? 0) && (ps_now s <? until) then Wait until
    else
      let cap := default 0 (mul_div_floor (ps_price s) (step_cap_bps s) BPS_DENOM) in
      let '(next, step) :=
        if Z.abs (ps_price s - target) <=? cap then (target, false)
        else if ps_price s <? target then (saturating_add 128 (ps_price s) cap, true)
        else (saturating_sub (ps_price s) cap, true) in
      if (next =? ps_price s) && negb due then Idle
      else PlanSet (ps_price s) next step.

Definition due_in (s : PriceState) (margin : Z) : option Z :=
  max_age ← ps_max_age s;
  let due_at := i_saturating_add 64 (ps_price_set_at s) (Z.max (i_saturating_sub 64 max_age margin) 0) in
  Some (Z.max (i_saturating_sub 64 due_at (ps_now s)) 0).

(** ** Parsing prices. A [&str] is its sequence of Unicode scalar values. *)

(** [char::is_whitespace]: the Unicode White_Space property. *)
Definition is_whitespace (c : Z) : bool :=
  ((9 <=? c) && (c <=? 13)) || (c =? 32) || (c =? 133) || (c =? 160) || (c =? 5760)
  || ((8192 <=? c) && (c <=? 8202)) || (c =? 8232) || (c =? 8233) || (c =? 8239) || (c =? 8287)
  || (c =? 12288).
Fixpoint trim_start (s : list Z) : list Z :=
  match s with
  | c :: s' => if is_whitespace c then trim_start s' else s
  | [] => []
  end.
Definition trim (s : list Z) : list Z := reverse (trim_start (reverse (trim_start s))).

(** [s.split_once('.')] *)
Fixpoint split_once (sep : Z) (s : list Z) : option (list Z * list Z) :=
  match s with
  | [] => None
  | c :: s' =>
      if c =? sep then Some ([], s')
      else '(a, b) ← split_once sep s'; Some (c :: a, b)
  end.
Definition is_ascii_digit (c : Z) : bool := (48 <=? c) && (c <=? 57).
(** [str::parse::<u128>] of a non-empty string of ASCII digits. *)
Definition parse_u128 (s : list Z) : option Z :=
  fold_left (fun acc c => v ← acc; t ← checked_mul 128 v 10; checked_add 128 t (c - 48)) s (Some 0).

Definition parse_price (s : list Z) : option Z :=
  let s := trim s in
  let '(whole, frac) := default (s, []) (split_once 46 s) in
  if bool_decide (whole = []) && bool_decide (frac = []) then None
  else if negb (forallb is_ascii_digit whole) || negb (forallb is_ascii_digit frac) then None
  else if 18 <? len frac then None
  else
    whole ← (if bool_decide (whole = []) then Some 0 else parse_u128 whole);
    frac_scaled ←
      (if bool_decide (frac = []) then Some 0
       else v ← parse_u128 frac; checked_mul 128 v (10 ^ (18 - len frac)));
    t ← checked_mul 128 whole PRICE_ONE;
    v ← checked_add 128 t frac_scaled;
    if 0 <? v then Some v else None.

(** * Client-side address derivation (the [pda] feature of lib.rs) *)

Section Pda.
(** SHA-256, and whether 32 bytes decompress to an Ed25519 point. *)
Context (sha256 : list byte -> hash32) (is_on_curve : pubkey -> bool).

Definition PDA_MARKER : list byte := bytes_of_string "ProgramDerivedAddress".
Definition candidate (seeds : list (list byte)) (program_id : pubkey) (bump : Z) : pubkey :=
  sha256 (concat seeds ++ [byte_of_Z bump] ++ arr_bytes program_id ++ PDA_MARKER).
(** [for bump in (0u8..=255).rev()], from bump [n - 1] down. *)
Fixpoint find_bump (seeds : list (list byte)) (program_id : pubkey) (n : nat) : option (pubkey * Z) :=
  match n with
  | O => None
  | S n =>
      let bump := Z.of_nat n in
      if negb (is_on_curve (candidate seeds program_id bump)) then Some (candidate seeds program_id bump, bump)
      else find_bump seeds program_id n
  end.
Definition pda_find_program_address (seeds : list (list byte)) (program_id : pubkey) : option (pubkey * Z) :=
  find_bump seeds program_id 256.
Definition pool_address (program_id : pubkey) : option pubkey :=
  fst <$> pda_find_program_address [POOL_SEED] program_id.
Definition token_address (program_id mint : pubkey) : option pubkey :=
  fst <$> pda_find_program_address [TOKEN_SEED; arr_bytes mint] program_id.
Definition pda_vault_authority (program_id : pubkey) : option pubkey :=
  fst <$> pda_find_program_address [VAULT_AUTHORITY_SEED] program_id.
End Pda.

(** * Lemmas *)

Definition ceil_div (n d : Z) : Z := (n + d - 1) / d.

Lemma ceil_div_spec n d : 0 < d -> ceil_div n d = if n mod d =? 0 then n / d else n / d + 1.
Proof.
  intros Hd. unfold ceil_div. pose proof (Z.div_mod n d ltac:(lia)) as E.
  pose proof (Z.mod_pos_bound n d Hd) as Hm. destruct (Z.eqb_spec (n mod d) 0) as [E0|E0].
  - symmetry. apply Z.div_unique_pos with (r := d - 1); nia.
  - symmetry. apply Z.div_unique_pos with (r := n mod d - 1); nia.
Qed.

(** Floor and ceiling of the exact quotient; the 256-bit product never overflows
    and a result past 128 bits is refused. *)
Lemma mul_div_spec a b d ceil : is_u 128 a -> is_u 128 b -> 0 <= d ->
  mul_div a b d ceil =
    if d =? 0 then None
    else u_checked 128 (if ceil then ceil_div (a * b) d else a * b / d).
Proof.
  intros Ha Hb Hd. unfold mul_div. destruct (Z.eqb_spec d 0) as [|Hne]; [done|].
  unfold is_u in *. assert (0 <= a * b < 2 ^ 256) as Hn by nia.
  unfold checked_mul. rewrite (proj2 (u_checked_Some 256 (a * b) (a * b))) by done. simpl.
  assert (0 <= a * b / d <= a * b) as Hq.
  { split; [apply Z.div_pos; lia|]. apply Z.div_le_upper_bound; nia. }
  assert (forall q, 0 <= q -> (if u_max 128 <? q then None else Some q) = u_checked 128 q) as Hu.
  { intros q Hq0. unfold u_checked, u_max. destruct (Z.leb_spec 0 q); [|lia].
    destruct (Z.ltb_spec (2 ^ 128 - 1) q), (Z.ltb_spec q (2 ^ 128)); done || lia. }
  destruct ceil; simpl; [|apply Hu; lia]. rewrite ceil_div_spec by lia.
  pose proof (Z.div_mod (a * b) d ltac:(lia)) as E.
  destruct (Z.eqb_spec (a * b / d * d) (a * b)) as [Ed|Ed], (Z.eqb_spec ((a * b) mod d) 0); simpl; try lia.
  - apply Hu. lia.
  - unfold checked_add. rewrite (proj2 (u_checked_Some 256 _ (a * b / d + 1))) by (unfold is_u; nia).
    simpl. apply Hu. lia.
Qed.

Lemma mul_div_floor_Some a b d r : is_u 128 a -> is_u 128 b -> 0 <= d ->
  mul_div_floor a b d = Some r -> 0 < d /\ r = a * b / d /\ is_u 128 r.
Proof.
  intros Ha Hb Hd. unfold mul_div_floor. rewrite mul_div_spec by done.
  destruct (Z.eqb_spec d 0); [done|]. intros [-> ?]%u_checked_Some. split_and!; [lia|done..].
Qed.
Lemma mul_div_ceil_Some a b d r : is_u 128 a -> is_u 128 b -> 0 <= d ->
  mul_div_ceil a b d = Some r -> 0 < d /\ r = ceil_div (a * b) d /\ is_u 128 r.
Proof.
  intros Ha Hb Hd. unfold mul_div_ceil. rewrite mul_div_spec by done.
  destruct (Z.eqb_spec d 0); [done|]. intros [-> ?]%u_checked_Some. split_and!; [lia|done..].
Qed.

Lemma pow10_Some d p : is_u 8 d -> pow10 d = Some p <-> p = 10 ^ d /\ d <= 38.
Proof.
  intros Hd. unfold pow10, checked_pow, is_u in *. destruct (Z.ltb_spec 38 d); [split; [done|lia]|].
  rewrite u_checked_Some. unfold is_u. split; [intros [-> _]; lia|intros [-> _]].
  split; [done|]. split; [apply Z.pow_nonneg; lia|].
  apply Z.le_lt_trans with (10 ^ 38); [apply Z.pow_le_mono_r; lia|]. by vm_compute.
Qed.

Lemma pow10_u128 d : is_u 8 d -> d <= 38 -> is_u 128 (10 ^ d).
Proof.
  intros Hd Hd'. unfold is_u in *. split; [apply Z.pow_nonneg; lia|].
  apply Z.le_lt_trans with (10 ^ 38); [apply Z.pow_le_mono_r; lia|by vm_compute].
Qed.

(** ** The swap output *)

(** What the pool promises to pay: the dollar value rounded down, less the fee
    rounded up, converted at the output price rounded down. *)
Definition fair_out (amount price_in dec_in price_out dec_out fee : Z) : Z :=
  let usd := amount * price_in / 10 ^ dec_in in
  (usd - (if fee =? 0 then 0 else ceil_div (usd * fee) BPS_DENOM)) * 10 ^ dec_out / price_out.

Record quote_wf (amount price_in dec_in price_out dec_out fee : Z) : Prop := {
  qw_amount : is_u 64 amount;
  qw_price_in : is_u 128 price_in;
  qw_dec_in : is_u 8 dec_in;
  qw_price_out : is_u 128 price_out;
  qw_dec_out : is_u 8 dec_out;
  qw_fee : is_u 16 fee;
}.

Lemma is_u_widen w w' z : 0 <= w <= w' -> is_u w z -> is_u w' z.
Proof. unfold is_u. intros Hw Hz. pose proof (Z.pow_le_mono_r 2 w w'). lia. Qed.

(** A quote, taken apart. *)
Lemma amount_out_Some amount price_in dec_in price_out dec_out fee r :
  quote_wf amount price_in dec_in price_out dec_out fee ->
  amount_out amount price_in dec_in price_out dec_out fee = Some r ->
  exists usd net, 0 < price_in /\ 0 < price_out /\ dec_in <= 38 /\ dec_out <= 38 /\
    usd = amount * price_in / 10 ^ dec_in /\ is_u 128 usd /\
    net = usd - (if fee =? 0 then 0 else ceil_div (usd * fee) BPS_DENOM) /\ 0 <= net <= usd /\
    r = net * 10 ^ dec_out / price_out /\ is_u 64 r.
Proof.
  intros [Ha Hpi Hdi Hpo Hdo Hf] Hr. unfold amount_out in Hr.
  destruct (_ || _) eqn:Hz; [done|]. bool_inv.
  destruct (pow10 dec_in) as [pi|] eqn:Epi; [|done]. apply pow10_Some in Epi as [-> Hd1]; [|done].
  assert (is_u 128 (10 ^ dec_in)) as Hp1 by (by apply pow10_u128).
  simpl in Hr. destruct (mul_div_floor _ _ _) as [usd|] eqn:Eu; [|done].
  apply mul_div_floor_Some in Eu as (Hpos & Eu & Hu); [|by apply (is_u_widen 64)|done|apply Hp1].
  simpl in Hr.
  assert (exists net, net = usd - (if fee =? 0 then 0 else ceil_div (usd * fee) BPS_DENOM) /\ 0 <= net <= usd /\
    (p_out ← pow10 dec_out; out ← mul_div_floor net p_out price_out; u_checked 64 out) = Some r)
    as (net & En & Hnet & Hr').
  { destruct (Z.eqb_spec fee 0) as [->|Hfn]; simpl in Hr.
    - exists usd. split_and!; [lia|unfold is_u in *; lia..|done].
    - destruct (mul_div_ceil _ _ _) as [fv|] eqn:Ef; [|done]. simpl in Hr.
      apply mul_div_ceil_Some in Ef as (_ & -> & Hfu); [|done|by apply (is_u_widen 16)|done].
      destruct (checked_sub _ _ _) as [net|] eqn:En; [|done]. apply u_checked_Some in En as [-> En].
      exists (usd - ceil_div (usd * fee) BPS_DENOM). unfold is_u in *. split_and!; [done|lia..|done]. }
  clear Hr. destruct (pow10 dec_out) as [po|] eqn:Epo; [|done].
  apply pow10_Some in Epo as [-> Hd2]; [|done]. simpl in Hr'.
  destruct (mul_div_floor _ _ _) as [out|] eqn:Eo; [|done]. simpl in Hr'.
  assert (is_u 128 (10 ^ dec_out)) as Hp2 by (by apply pow10_u128).
  apply mul_div_floor_Some in Eo as (Hpo' & -> & _); [|unfold is_u in *; lia|done|apply Hpo].
  apply u_checked_Some in Hr' as [-> Hr']. exists usd, net. unfold is_u in Hpi. split_and!; try done; lia.
Qed.

Lemma pow10_pos d : 0 <= d -> 0 < 10 ^ d.
Proof. intros. apply Z.pow_pos_nonneg; lia. Qed.

(** Taking a fee rounded up leaves the remainder rounded down. *)
Lemma net_floor usd fee : 0 <= usd -> 0 <= fee <= BPS_DENOM ->
  usd - (if fee =? 0 then 0 else ceil_div (usd * fee) BPS_DENOM) = usd * (BPS_DENOM - fee) / BPS_DENOM.
Proof.
  intros Hu Hf. unfold BPS_DENOM in *. destruct (Z.eqb_spec fee 0) as [->|Hn].
  - rewrite Z.sub_0_r, Z.div_mul by lia. lia.
  - rewrite ceil_div_spec by lia. pose proof (Z.div_mod (usd * fee) 10000 ltac:(lia)) as E.
    pose proof (Z.mod_pos_bound (usd * fee) 10000 ltac:(lia)) as Hm.
    destruct (Z.eqb_spec ((usd * fee) mod 10000) 0) as [E0|E0].
    + apply Z.div_unique_pos with (r := 0); lia.
    + apply Z.div_unique_pos with (r := 10000 - (usd * fee) mod 10000); lia.
Qed.

Lemma div_mul_le n d : 0 < d -> n / d * d <= n.
Proof. intros Hd. pose proof (Z.mul_div_le n d Hd). lia. Qed.

(** The three roundings of a quote all favour the pool. *)
Lemma quote_bounds amount price_in dec_in price_out dec_out fee r :
  quote_wf amount price_in dec_in price_out dec_out fee -> fee <= BPS_DENOM ->
  amount_out amount price_in dec_in price_out dec_out fee = Some r ->
  exists usd net, 0 <= usd /\ 0 <= net /\ 0 <= r /\ 0 < price_in /\ 0 < price_out /\
    usd * 10 ^ dec_in <= amount * price_in /\ net * BPS_DENOM <= usd * (BPS_DENOM - fee) /\
    r * price_out <= net * 10 ^ dec_out.
Proof.
  intros Hwf Hf Hr. destruct (amount_out_Some _ _ _ _ _ _ _ Hwf Hr)
    as (usd & net & Hpi & Hpo & _ & _ & Eu & Hu & En & Hn & -> & Hr64).
  destruct Hwf as [_ _ Hdi _ _ Hfu]. exists usd, net. unfold is_u in *.
  rewrite net_floor in En by lia. split_and!; try lia.
  - rewrite Eu. apply div_mul_le, pow10_pos. lia.
  - rewrite En. apply div_mul_le. by vm_compute.
  - apply div_mul_le. done.
Qed.

Lemma mul_div_floor_run a b d : is_u 128 a -> is_u 128 b -> 0 < d -> is_u 128 (a * b / d) ->
  mul_div_floor a b d = Some (a * b / d).
Proof.
  intros Ha Hb Hd Hr. unfold mul_div_floor. rewrite mul_div_spec by (done || lia).
  rewrite (proj2 (Z.eqb_neq d 0)) by lia. by apply u_checked_Some.
Qed.

(** Subtracting the fee never fails for a fee of at most 100 %. *)
Lemma fee_step usd fee : is_u 128 usd -> is_u 16 fee -> fee <= BPS_DENOM ->
  (if negb (fee =? 0) then fv ← mul_div_ceil usd fee BPS_DENOM; checked_sub 128 usd fv else Some usd)
  = Some (usd * (BPS_DENOM - fee) / BPS_DENOM) /\ is_u 128 (usd * (BPS_DENOM - fee) / BPS_DENOM).
Proof.
  intros Hu Hf Hle. rewrite <- net_floor by (unfold is_u in *; lia).
  assert (0 <= usd - (if fee =? 0 then 0 else ceil_div (usd * fee) BPS_DENOM) <= usd) as Hn.
  { rewrite net_floor by (unfold is_u in *; lia). unfold is_u, BPS_DENOM in *.
    split; [apply Z.div_pos; nia|]. apply Z.div_le_upper_bound; nia. }
  split; [|unfold is_u in *; lia]. destruct (Z.eqb_spec fee 0) as [->|Hne]; simpl; [f_equal; lia|].
  unfold mul_div_ceil. rewrite mul_div_spec; [|done|by apply (is_u_widen 16)|done].
  change (BPS_DENOM =? 0) with false. cbn iota.
  assert (0 <= ceil_div (usd * fee) BPS_DENOM) by (apply Z.div_pos; unfold is_u, BPS_DENOM in *; nia).
  rewrite (proj2 (u_checked_Some 128 _ (ceil_div (usd * fee) BPS_DENOM))) by (unfold is_u in *; lia).
  simpl. apply u_checked_Some. unfold is_u in *. lia.
Qed.

Lemma amount_out_eval amount price_in dec_in price_out dec_out fee :
  quote_wf amount price_in dec_in price_out dec_out fee -> fee <= BPS_DENOM ->
  price_in <> 0 -> price_out <> 0 -> dec_in <= 38 -> dec_out <= 38 ->
  is_u 128 (amount * price_in / 10 ^ dec_in) ->
  is_u 64 (fair_out amount price_in dec_in price_out dec_out fee) ->
  amount_out amount price_in dec_in price_out dec_out fee =
    Some (fair_out amount price_in dec_in price_out dec_out fee).
Proof.
  intros [Ha Hpi' Hdi Hpo' Hdo Hfu] Hf Hpi Hpo Hd1 Hd2 Hu Hr. unfold amount_out, fair_out in *. cbv zeta in Hr.
  rewrite (proj2 (Z.eqb_neq price_in 0)), (proj2 (Z.eqb_neq price_out 0)) by done.
  rewrite (proj2 (pow10_Some dec_in _ Hdi)), (proj2 (pow10_Some dec_out _ Hdo)) by done.
  cbn [orb mbind option_bind].
  rewrite (mul_div_floor_run amount price_in) by
    (first [done|by apply (is_u_widen 64)|apply pow10_pos; unfold is_u in *; lia]).
  cbn [mbind option_bind]. destruct (fee_step _ _ Hu Hfu Hf) as [-> Hn].
  cbn [mbind option_bind]. rewrite net_floor in * by (unfold is_u in *; lia).
  rewrite (mul_div_floor_run _ (10 ^ dec_out)) by
    (first [done|by apply pow10_u128|by apply (is_u_widen 64)|unfold is_u in *; lia]).
  cbn [mbind option_bind]. by rewrite (proj2 (u_checked_Some 64 _ _) (conj eq_refl Hr)).
Qed.

(** [amount_out] is exactly the documented formula: it answers [fair_out] when
    both prices are set, both decimals are at most 38, and the dollar value and
    the result fit 128 and 64 bits, and [None] otherwise; never a wrapped or
    truncated number. A payout is never worth more than what came in, at the two
    prices, before any fee. *)
Theorem amount_out_exact amount price_in dec_in price_out dec_out fee :
  quote_wf amount price_in dec_in price_out dec_out fee -> fee <= BPS_DENOM ->
  amount_out amount price_in dec_in price_out dec_out fee =
    (if bool_decide (price_in <> 0 /\ price_out <> 0 /\ dec_in <= 38 /\ dec_out <= 38 /\
       is_u 128 (amount * price_in / 10 ^ dec_in) /\
       is_u 64 (fair_out amount price_in dec_in price_out dec_out fee))
     then Some (fair_out amount price_in dec_in price_out dec_out fee) else None) /\
  forall r, amount_out amount price_in dec_in price_out dec_out fee = Some r ->
    r * price_out * 10 ^ dec_in <= amount * price_in * 10 ^ dec_out.
Proof.
  intros Hwf Hf. split.
  - destruct (amount_out _ _ _ _ _ _) as [r|] eqn:Er.
    + destruct (amount_out_Some _ _ _ _ _ _ _ Hwf Er)
        as (usd & net & Hpi & Hpo & Hd1 & Hd2 & -> & Hu & -> & _ & -> & Hr).
      rewrite bool_decide_eq_true_2; [done|]. unfold fair_out. split_and!; done || lia.
    + symmetry. case_bool_decide as Hok; [|done].
      destruct Hok as (Hpi & Hpo & Hd1 & Hd2 & Hu & Hr). by rewrite amount_out_eval in Er.
  - intros r Hr. destruct (quote_bounds _ _ _ _ _ _ _ Hwf Hf Hr)
      as (usd & net & Hu & Hn & Hr0 & Hpi & Hpo & H1 & H2 & H3).
    destruct Hwf as [_ _ Hdi _ Hdo Hfu]. unfold is_u, BPS_DENOM in *.
    pose proof (pow10_pos dec_in ltac:(lia)). pose proof (pow10_pos dec_out ltac:(lia)).
    assert (net <= usd) by nia.
    transitivity (net * 10 ^ dec_out * 10 ^ dec_in); [apply Z.mul_le_mono_nonneg_r; lia|].
    transitivity (usd * (10 ^ dec_out * 10 ^ dec_in)); [|].
    { rewrite <- Z.mul_assoc. apply Z.mul_le_mono_nonneg_r; [|done]. lia. }
    replace (usd * (10 ^ dec_out * 10 ^ dec_in)) with (usd * 10 ^ dec_in * 10 ^ dec_out) by lia.
    apply Z.mul_le_mono_nonneg_r; lia.
Qed.

(** The arithmetic of the two round trips, on the bounds of [quote_bounds]. *)
Lemma buy_sell_le (amount mid back ph p0 p1 u1 n1 u2 n2 H T f : Z) :
  0 < H -> 0 < T -> 0 <= f < BPS_DENOM -> 0 < ph -> 0 < p0 -> 0 < p1 ->
  0 <= u1 -> 0 <= n1 -> 0 <= mid -> 0 <= u2 -> 0 <= n2 ->
  p1 * BPS_DENOM <= p0 * (BPS_DENOM + f) ->
  u1 * H <= amount * ph -> n1 * BPS_DENOM <= u1 * (BPS_DENOM - f) -> mid * p0 <= n1 * T ->
  u2 * T <= mid * p1 -> n2 * BPS_DENOM <= u2 * (BPS_DENOM - f) -> back * ph <= n2 * H ->
  back <= amount.
Proof.
  unfold BPS_DENOM. intros.
  assert (u2 * 10000 <= n1 * (10000 + f)) as E1.
  { apply Z.mul_le_mono_pos_r with (T * p0); [nia|].
    assert (u2 * T * (p0 * 10000) <= mid * p1 * (p0 * 10000)) by (apply Z.mul_le_mono_nonneg_r; nia).
    assert (mid * p0 * (p1 * 10000) <= n1 * T * (p1 * 10000)) by (apply Z.mul_le_mono_nonneg_r; nia).
    assert (n1 * T * (p1 * 10000) <= n1 * T * (p0 * (10000 + f))) by (apply Z.mul_le_mono_nonneg_l; nia).
    lia. }
  assert (n2 <= u1) as E2.
  { apply Z.mul_le_mono_pos_r with (10000 * 10000 * 10000); [lia|].
    assert (n2 * 10000 * (10000 * 10000) <= u2 * (10000 - f) * (10000 * 10000)) by nia.
    assert (u2 * 10000 * ((10000 - f) * 10000) <= n1 * (10000 + f) * ((10000 - f) * 10000)).
    { apply Z.mul_le_mono_nonneg_r; nia. }
    assert (n1 * 10000 * ((10000 + f) * (10000 - f)) <= u1 * (10000 - f) * ((10000 + f) * (10000 - f))).
    { apply Z.mul_le_mono_nonneg_r; nia. }
    assert (u1 * ((10000 - f) * ((10000 + f) * (10000 - f))) <= u1 * (10000 * 10000 * 10000)).
    { apply Z.mul_le_mono_nonneg_l; nia. }
    lia. }
  apply Z.mul_le_mono_pos_r with ph; [done|]. nia.
Qed.
Lemma sell_buy_le (amount mid back ph p0 p1 u1 n1 u2 n2 H T f : Z) :
  0 < H -> 0 < T -> 0 <= f < BPS_DENOM -> 0 < ph -> 0 < p0 -> 0 < p1 ->
  0 <= u1 -> 0 <= n1 -> 0 <= amount -> 0 <= u2 -> 0 <= n2 -> 0 <= back ->
  p0 * (BPS_DENOM - f) <= p1 * BPS_DENOM ->
  u1 * T <= amount * p0 -> n1 * BPS_DENOM <= u1 * (BPS_DENOM - f) -> mid * ph <= n1 * H ->
  u2 * H <= mid * ph -> n2 * BPS_DENOM <= u2 * (BPS_DENOM - f) -> back * p1 <= n2 * T ->
  back <= amount.
Proof.
  unfold BPS_DENOM. intros.
  assert (u2 <= n1) as E1 by (apply Z.mul_le_mono_pos_r with H; [done|lia]).
  assert (n2 * (10000 * 10000) <= u1 * ((10000 - f) * (10000 - f))) as E2.
  { assert (n2 * 10000 * 10000 <= n1 * (10000 - f) * 10000) by nia.
    assert (n1 * 10000 * (10000 - f) <= u1 * (10000 - f) * (10000 - f)).
    { apply Z.mul_le_mono_nonneg_r; lia. } lia. }
  apply Z.mul_le_mono_pos_r with (p0 * (10000 - f) * 10000); [nia|].
  assert (back * (p0 * (10000 - f)) * 10000 <= back * (p1 * 10000) * 10000).
  { apply Z.mul_le_mono_nonneg_r; [lia|]. apply Z.mul_le_mono_nonneg_l; lia. }
  assert (back * p1 * (10000 * 10000) <= n2 * T * (10000 * 10000)) by (apply Z.mul_le_mono_nonneg_r; lia).
  assert (n2 * (10000 * 10000) * T <= u1 * ((10000 - f) * (10000 - f)) * T).
  { apply Z.mul_le_mono_nonneg_r; lia. }
  assert (u1 * T * ((10000 - f) * (10000 - f)) <= amount * p0 * ((10000 - f) * (10000 - f))).
  { apply Z.mul_le_mono_nonneg_r; nia. }
  assert (amount * p0 * ((10000 - f) * (10000 - f)) <= amount * p0 * ((10000 - f) * 10000)).
  { apply Z.mul_le_mono_nonneg_l; nia. }
  lia.
Qed.

(** A round trip around one oracle step never comes out ahead. Buying a token
    before an update and selling it after returns at most what was paid if the
    price rose by at most one swap fee (the keeper's step cap), and selling before
    and buying back after returns at most what was sold if it fell by at most one
    fee. *)
Theorem round_trip_never_profits hub_price dec_h dec_t p0 p1 fee amount mid back :
  quote_wf amount hub_price dec_h p0 dec_t fee -> quote_wf mid p1 dec_t hub_price dec_h fee ->
  fee <= MAX_FEE_BPS ->
  (p1 * BPS_DENOM <= p0 * (BPS_DENOM + fee) ->
   amount_out amount hub_price dec_h p0 dec_t fee = Some mid ->
   amount_out mid p1 dec_t hub_price dec_h fee = Some back -> back <= amount) /\
  (p0 * (BPS_DENOM - fee) <= p1 * BPS_DENOM ->
   amount_out amount p0 dec_t hub_price dec_h fee = Some mid ->
   amount_out mid hub_price dec_h p1 dec_t fee = Some back -> back <= amount).
Proof.
  intros W1 W2 Hf. unfold MAX_FEE_BPS in Hf.
  destruct W1 as [Ha Hph Hdh Hp0 Hdt Hfee], W2 as [Hm Hp1 _ _ _ _].
  pose proof (pow10_pos dec_h ltac:(unfold is_u in *; lia)) as Ph.
  pose proof (pow10_pos dec_t ltac:(unfold is_u in *; lia)) as Pt.
  assert (0 <= fee) as Hf0 by (unfold is_u in *; lia).
  split; intros Hstep H1 H2.
  - apply quote_bounds in H1 as (u1 & n1 & ? & ? & ? & ? & ? & A1 & A2 & A3); [|by constructor|unfold BPS_DENOM; lia].
    apply quote_bounds in H2 as (u2 & n2 & ? & ? & ? & ? & ? & B1 & B2 & B3); [|by constructor|unfold BPS_DENOM; lia].
    apply (buy_sell_le amount mid back hub_price p0 p1 u1 n1 u2 n2 (10 ^ dec_h) (10 ^ dec_t) fee); unfold is_u, BPS_DENOM in *; lia.
  - apply quote_bounds in H1 as (u1 & n1 & ? & ? & ? & ? & ? & A1 & A2 & A3); [|by constructor|unfold BPS_DENOM; lia].
    apply quote_bounds in H2 as (u2 & n2 & ? & ? & ? & ? & ? & B1 & B2 & B3); [|by constructor|unfold BPS_DENOM; lia].
    apply (sell_buy_le amount mid back hub_price p0 p1 u1 n1 u2 n2 (10 ^ dec_h) (10 ^ dec_t) fee); unfold is_u, BPS_DENOM in *; lia.
Qed.

(** ** The planner *)

Record PriceState_wf (s : PriceState) : Prop := {
  pw_now : is_i 64 (ps_now s);
  pw_price : is_u 128 (ps_price s);
  pw_set : is_i 64 (ps_price_set_at s);
  pw_last : is_i 64 (ps_last_price_update s);
  pw_age : forall m, ps_max_age s = Some m -> is_i 64 m;
  pw_interval : is_i 64 (ps_min_update_interval s);
  pw_dev : is_u 16 (ps_max_deviation_bps s);
  pw_fee : is_u 16 (ps_fee_bps s);
}.

(** The largest move one update may make. *)
Definition step_cap (s : PriceState) : Z := ps_price s * step_cap_bps s / BPS_DENOM.

(** The refresh deadline has come. *)
Definition is_due (s : PriceState) (margin : Z) : bool :=
  match ps_max_age s with
  | Some max_age =>
      Z.max (i_saturating_sub 64 max_age margin) 0 <=? i_saturating_sub 64 (ps_now s) (ps_price_set_at s)
  | None => false
  end.
Definition cooling (s : PriceState) : bool :=
  negb (ps_last_price_update s =? 0) &&
  (ps_now s <? i_saturating_add 64 (ps_last_price_update s) (ps_min_update_interval s)).

(** The clamped next price. *)
Definition toward (s : PriceState) (target : Z) : Z :=
  Z.max (ps_price s - step_cap s) (Z.min target (ps_price s + step_cap s)).

Lemma plan_cap s : PriceState_wf s -> ps_max_deviation_bps s <= BPS_DENOM ->
  default 0 (mul_div_floor (ps_price s) (step_cap_bps s) BPS_DENOM) = step_cap s /\
  0 <= step_cap s <= ps_price s.
Proof.
  intros [_ Hp _ _ _ _ Hd Hf] Hb.
  assert (0 <= step_cap_bps s <= 10000) as Hc by (unfold step_cap_bps, is_u, BPS_DENOM in *; lia).
  assert (0 <= step_cap s <= ps_price s) as Hs.
  { unfold step_cap, is_u, BPS_DENOM in *. split; [apply Z.div_pos; nia|]. apply Z.div_le_upper_bound; nia. }
  split; [|done]. rewrite mul_div_floor_run; [done|done| |done|].
  - unfold is_u. assert (10000 < 2 ^ 128) by (by vm_compute). lia.
  - unfold is_u in *. fold (step_cap s). lia.
Qed.

Lemma plan_eq s target margin : PriceState_wf s -> ps_max_deviation_bps s <= BPS_DENOM ->
  is_u 128 target ->
  plan s target margin =
    if (ps_price s =? target) && negb (is_due s margin) then Idle
    else if cooling s then
      Wait (i_saturating_add 64 (ps_last_price_update s) (ps_min_update_interval s))
    else if (toward s target =? ps_price s) && negb (is_due s margin) then Idle
    else PlanSet (ps_price s) (toward s target) (negb (toward s target =? target)).
Proof.
  intros Hwf Hd Ht. destruct (plan_cap s Hwf Hd) as [Ec Hc]. destruct Hwf as [_ Hp _ _ _ _ _ _].
  unfold plan, cooling. fold (is_due s margin). rewrite negb_involutive.
  destruct ((ps_price s =? target) && negb (is_due s margin)); [done|].
  destruct (negb (ps_last_price_update s =? 0) && _); [done|]. rewrite Ec.
  assert ((if Z.abs (ps_price s - target) <=? step_cap s then (target, false)
     else if ps_price s <? target then (saturating_add 128 (ps_price s) (step_cap s), true)
     else (saturating_sub (ps_price s) (step_cap s), true)) =
    (toward s target, negb (toward s target =? target))) as ->; [|done].
  unfold toward, saturating_add, saturating_sub, u_max, is_u in *.
  destruct (Z.leb_spec (Z.abs (ps_price s - target)) (step_cap s)).
  - rewrite Z.max_r, Z.min_l by lia. by rewrite Z.eqb_refl.
  - destruct (Z.ltb_spec (ps_price s) target).
    + rewrite Z.max_r, !Z.min_r by lia. by rewrite (proj2 (Z.eqb_neq _ _)) by lia.
    + rewrite (Z.max_l (ps_price s - step_cap s)), Z.max_r by lia.
      by rewrite (proj2 (Z.eqb_neq _ _)) by lia.
Qed.

(** The planner never proposes a move a pool would refuse, and every move makes
    progress. [plan] answers [Wait] only inside the cooldown, and then with its
    end; a [PlanSet] carries the price it was read from, comes after the cooldown,
    moves by at most the lesser of the deviation cap and the fee, towards the
    target and never past it, keeps a positive price positive, and flags a partial
    step exactly when the target is not reached; and it is idle only when nothing
    is due and no move is possible. *)
Theorem plan_respects_guards s target margin :
  PriceState_wf s -> ps_max_deviation_bps s <= BPS_DENOM -> is_u 128 target -> 0 < target -> 0 < ps_price s ->
  match plan s target margin with
  | Idle => is_due s margin = false /\ (ps_price s = target \/ step_cap s = 0)
  | Wait until => cooling s = true /\
      until = i_saturating_add 64 (ps_last_price_update s) (ps_min_update_interval s)
  | PlanSet from price step =>
      from = ps_price s /\ cooling s = false /\ 0 < price /\ is_u 128 price /\
      Z.abs (price - from) <= step_cap s /\
      Z.abs (target - price) = Z.max 0 (Z.abs (target - from) - step_cap s) /\
      step = negb (price =? target) /\
      (is_due s margin = true \/ Z.abs (target - price) < Z.abs (target - from))
  end.
Proof.
  intros Hwf Hd Ht Ht0 Hp0. rewrite plan_eq by done. destruct (plan_cap s Hwf Hd) as [_ Hc].
  destruct Hwf as [_ Hp _ _ _ _ _ _]. unfold is_u in *.
  destruct (is_due s margin) eqn:Hdue; cbn [negb]; rewrite ?andb_false_r, ?andb_true_r.
  - destruct (cooling s) eqn:Hcool; [done|]. unfold toward. split_and!; try done; try lia.
  - destruct (Z.eqb_spec (ps_price s) target); [by split; [|left]|].
    destruct (cooling s) eqn:Hcool; [done|]. destruct (Z.eqb_spec (toward s target) (ps_price s)) as [E|E].
    + split; [done|right]. unfold toward in E. lia.
    + unfold toward in *. split_and!; try done; try lia.
Qed.

(** [due_in] is the planner's own deadline: it answers zero exactly when [plan]
    would treat the price as due (short of the last representable second), and
    nothing when the pool enforces no age. *)
Theorem due_in_agrees s margin : PriceState_wf s -> is_i 64 margin -> ps_now s < i_max 64 ->
  match due_in s margin with
  | None => ps_max_age s = None /\ is_due s margin = false
  | Some d => 0 <= d /\ (d = 0 <-> is_due s margin = true)
  end.
Proof.
  intros [Hn _ Hs _ Ha _ _ _] Hm Hlast. unfold due_in, is_due.
  destruct (ps_max_age s) as [m|]; [|done]. specialize (Ha m eq_refl). simpl.
  unfold i_saturating_add, i_saturating_sub, i_clamp, i_min, i_max, is_i in *.
  split; [lia|]. rewrite Z.leb_le. lia.
Qed.

(** ** Parsing *)

(** The decimal value of a digit string. *)
Definition digits_value (s : list Z) : Z := fold_left (fun acc c => acc * 10 + (c - 48)) s 0.

Lemma fold_digits_ge s acc : Forall (fun c => is_ascii_digit c = true) s -> 0 <= acc ->
  acc <= fold_left (fun acc c => acc * 10 + (c - 48)) s acc.
Proof.
  intros Hs. revert acc. induction Hs as [|c s Hc Hs IH]; intros acc Ha; simpl; [lia|].
  unfold is_ascii_digit in Hc. bool_inv. etransitivity; [|apply IH]; lia.
Qed.
Lemma parse_u128_none s : fold_left (fun acc c => v ← acc; t ← checked_mul 128 v 10; checked_add 128 t (c - 48)) s
  (None : option Z) = None.
Proof. induction s; simpl; done. Qed.
Lemma parse_u128_acc s acc : Forall (fun c => is_ascii_digit c = true) s -> is_u 128 acc ->
  fold_left (fun acc c => v ← acc; t ← checked_mul 128 v 10; checked_add 128 t (c - 48)) s (Some acc) =
    u_checked 128 (fold_left (fun acc c => acc * 10 + (c - 48)) s acc).
Proof.
  intros Hs. revert acc. induction Hs as [|c s Hc Hs IH]; intros acc Ha; simpl.
  - symmetry. by apply u_checked_Some.
  - assert (0 <= c - 48 <= 9) as Hd by (unfold is_ascii_digit in Hc; bool_inv; lia).
    pose proof (fold_digits_ge s (acc * 10 + (c - 48)) Hs) as Hge. unfold is_u in Ha.
    destruct (decide (is_u 128 (acc * 10 + (c - 48)))) as [Hu|Hu].
    + unfold checked_mul. rewrite (proj2 (u_checked_Some 128 _ (acc * 10))) by (unfold is_u in *; lia).
      simpl. unfold checked_add. rewrite (proj2 (u_checked_Some 128 _ _) (conj eq_refl Hu)). by apply IH.
    + replace (u_checked 128 (fold_left _ s _)) with (None : option Z).
      2:{ symmetry. apply u_checked_None. unfold is_u in *. lia. }
      destruct (checked_mul 128 acc 10) as [t|] eqn:E; simpl; [|apply parse_u128_none].
      apply u_checked_Some in E as [-> _]. unfold checked_add.
      rewrite (proj2 (u_checked_None _ _) Hu). apply parse_u128_none.
Qed.
Lemma parse_u128_digits s : Forall (fun c => is_ascii_digit c = true) s ->
  parse_u128 s = u_checked 128 (digits_value s) /\ 0 <= digits_value s.
Proof.
  intros Hs. split; [by apply parse_u128_acc; [|by vm_compute]|]. by apply fold_digits_ge.
Qed.
Lemma digits_bound s acc : Forall (fun c => is_ascii_digit c = true) s -> 0 <= acc ->
  fold_left (fun acc c => acc * 10 + (c - 48)) s acc < (acc + 1) * 10 ^ len s.
Proof.
  intros Hs. revert acc. induction Hs as [|c s Hc Hs IH]; intros acc Ha; unfold len in *; cbn [length fold_left]; [lia|].
  unfold is_ascii_digit in Hc. bool_inv. rewrite Nat2Z.inj_succ, Z.pow_succ_r by lia.
  specialize (IH (acc * 10 + (c - 48)) ltac:(lia)).
  assert (0 < 10 ^ Z.of_nat (length s)) by (apply Z.pow_pos_nonneg; lia). nia.
Qed.

Definition is_digits (s : list Z) : Prop := Forall (fun c => is_ascii_digit c = true) s.
Lemma is_digits_forallb s : forallb is_ascii_digit s = true <-> is_digits s.
Proof. unfold is_digits. rewrite forallb_forall, Forall_forall. by setoid_rewrite list_elem_of_In. Qed.

(** The value a price string spells, at 18 decimals. *)
Definition price_value (whole frac : list Z) : Z :=
  digits_value whole * PRICE_ONE + digits_value frac * 10 ^ (18 - len frac).

Lemma split_once_digits w f : is_digits w -> split_once 46 (w ++ 46 :: f) = Some (w, f).
Proof.
  induction 1 as [|c w Hc Hw IH]; simpl; [done|]. rewrite IH.
  destruct (Z.eqb_spec c 46) as [->|]; done.
Qed.
Lemma split_once_none w : is_digits w -> split_once 46 w = None.
Proof.
  induction 1 as [|c w Hc Hw IH]; simpl; [done|]. rewrite IH.
  destruct (Z.eqb_spec c 46) as [->|]; done.
Qed.

(** Parsing computes the value, checked at every step; equivalently, checked once
    at the end. *)
Lemma parse_parts whole frac : is_digits whole -> is_digits frac -> len frac <= 18 ->
  whole <> [] \/ frac <> [] ->
  (whole_v ← (if bool_decide (whole = []) then Some 0 else parse_u128 whole);
   frac_scaled ← (if bool_decide (frac = []) then Some 0
                  else v ← parse_u128 frac; checked_mul 128 v (10 ^ (18 - len frac)));
   t ← checked_mul 128 whole_v PRICE_ONE;
   v ← checked_add 128 t frac_scaled;
   if 0 <? v then Some v else None) =
  if bool_decide (0 < price_value whole frac < 2 ^ 128) then Some (price_value whole frac) else None.
Proof.
  intros Hw Hf Hl _. destruct (parse_u128_digits whole Hw) as [Ew Hw0], (parse_u128_digits frac Hf) as [Ef Hf0].
  assert (0 <= digits_value frac * 10 ^ (18 - len frac) < PRICE_ONE) as Hfs.
  { pose proof (digits_bound frac 0 Hf ltac:(lia)) as Hb. fold (digits_value frac) in Hb.
    assert (0 <= len frac) by (unfold len; lia).
    assert (0 < 10 ^ (18 - len frac)) by (apply Z.pow_pos_nonneg; lia).
    assert (10 ^ len frac * 10 ^ (18 - len frac) = PRICE_ONE) as E.
    { rewrite <- Z.pow_add_r by lia. by replace (len frac + (18 - len frac)) with 18 by lia. }
    nia. }
  assert ((if bool_decide (frac = []) then Some 0
           else v ← parse_u128 frac; checked_mul 128 v (10 ^ (18 - len frac)))
          = Some (digits_value frac * 10 ^ (18 - len frac))) as ->.
  { assert (PRICE_ONE < 2 ^ 128) by (by vm_compute).
    case_bool_decide as E; [by rewrite E|]. rewrite Ef.
    assert (0 < 10 ^ (18 - len frac)) by (apply Z.pow_pos_nonneg; lia).
    assert (digits_value frac * 1 <= digits_value frac * 10 ^ (18 - len frac)) by (apply Z.mul_le_mono_nonneg_l; lia).
    rewrite (proj2 (u_checked_Some 128 _ (digits_value frac))) by (unfold is_u; lia). simpl.
    apply u_checked_Some. unfold is_u. split; [done|lia]. }
  assert ((if bool_decide (whole = []) then Some 0 else parse_u128 whole) = u_checked 128 (digits_value whole)) as ->.
  { case_bool_decide as E; [by rewrite E|done]. }
  clear Ew Ef. unfold price_value. set (fs := digits_value frac * _) in *. set (w := digits_value whole) in *.
  unfold PRICE_ONE in *. destruct (u_checked 128 w) as [w'|] eqn:E1; simpl.
  - apply u_checked_Some in E1 as [-> _]. unfold checked_mul.
    destruct (u_checked 128 (w * _)) as [t|] eqn:E2; simpl.
    + apply u_checked_Some in E2 as [-> _]. unfold checked_add.
      destruct (u_checked 128 _) as [v|] eqn:E3; simpl.
      * apply u_checked_Some in E3 as [-> E3]. unfold is_u in E3.
        case_bool_decide; destruct (Z.ltb_spec 0 (w * 1000000000000000000 + fs)); done || lia.
      * apply u_checked_None in E3. unfold is_u in E3. rewrite bool_decide_eq_false_2; [done|lia].
    + apply u_checked_None in E2. unfold is_u in E2. rewrite bool_decide_eq_false_2; [done|lia].
  - apply u_checked_None in E1. unfold is_u in E1. rewrite bool_decide_eq_false_2; [done|lia].
Qed.

Lemma parse_checked whole frac :
  (if bool_decide (whole = []) && bool_decide (frac = []) then None
  else if negb (forallb is_ascii_digit whole) || negb (forallb is_ascii_digit frac) then None
  else if 18 <? len frac then None
  else
    whole_v ← (if bool_decide (whole = []) then Some 0 else parse_u128 whole);
    frac_scaled ← (if bool_decide (frac = []) then Some 0
                   else v ← parse_u128 frac; checked_mul 128 v (10 ^ (18 - len frac)));
    t ← checked_mul 128 whole_v PRICE_ONE;
    v ← checked_add 128 t frac_scaled;
    if 0 <? v then Some v else None) =
  if bool_decide ((whole <> [] \/ frac <> []) /\ is_digits whole /\ is_digits frac /\ len frac <= 18 /\
                  0 < price_value whole frac < 2 ^ 128)
  then Some (price_value whole frac) else None.
Proof.
  destruct (bool_decide (whole = []) && bool_decide (frac = [])) eqn:E1.
  { bool_inv. rewrite bool_decide_eq_false_2; [done|naive_solver]. }
  assert (whole <> [] \/ frac <> []) as Hne.
  { apply andb_false_iff in E1 as [E1|E1]; bool_inv; auto. }
  destruct (negb (forallb is_ascii_digit whole) || negb (forallb is_ascii_digit frac)) eqn:E2.
  { rewrite bool_decide_eq_false_2; [done|]. intros (_ & Hw%is_digits_forallb & Hf%is_digits_forallb & _).
    by rewrite Hw, Hf in E2. }
  bool_inv. rewrite is_digits_forallb in *. destruct (Z.ltb_spec 18 (len frac)).
  { rewrite bool_decide_eq_false_2; [done|lia]. }
  rewrite parse_parts by done. repeat case_bool_decide; naive_solver.
Qed.
Lemma if_ext {A} (b b' : bool) (x y : A) : (b = true <-> b' = true) ->
  (if b then x else y) = (if b' then x else y).
Proof. destruct b, b'; naive_solver. Qed.

(** [parse_price] reads exactly the plain decimals. After trimming, a string of
    ASCII digits, optionally with one point and at most 18 digits after it, and at
    least one digit in all, is read as its exact value scaled by 10^18; a value of
    zero or past 128 bits is refused, and so is every other string. *)
Theorem parse_price_exact s :
  match split_once 46 (trim s) with
  | Some (w, f) =>
      parse_price s =
        if bool_decide ((w <> [] \/ f <> []) /\ is_digits w /\ is_digits f /\ len f <= 18 /\
                        0 < price_value w f < 2 ^ 128)
        then Some (price_value w f) else None
  | None =>
      parse_price s =
        if bool_decide (trim s <> [] /\ is_digits (trim s) /\ 0 < price_value (trim s) [] < 2 ^ 128)
        then Some (price_value (trim s) []) else None
  end.
Proof.
  unfold parse_price. destruct (split_once 46 (trim s)) as [[w f]|] eqn:Es; cbn [default].
  - apply parse_checked.
  - rewrite parse_checked. apply if_ext. rewrite !bool_decide_eq_true.
    split; [intros ([?|[]] & ? & _ & _ & ?)|intros (? & ? & ?)]; try done.
    split; [by left|]. split; [done|]. split; [apply Forall_nil_2|]. by split; [vm_compute|].
Qed.

Section PdaFacts.
Context (sha256 : list byte -> hash32) (is_on_curve : pubkey -> bool).

Lemma find_bump_spec seeds pid n :
  match find_bump sha256 is_on_curve seeds pid n with
  | Some (k, b) => 0 <= b < Z.of_nat n /\ k = candidate sha256 seeds pid b /\ is_on_curve k = false /\
      forall b', b < b' < Z.of_nat n -> is_on_curve (candidate sha256 seeds pid b') = true
  | None => forall b, 0 <= b < Z.of_nat n -> is_on_curve (candidate sha256 seeds pid b) = true
  end.
Proof.
  induction n as [|n IH]; cbn [find_bump]; [lia|].
  destruct (is_on_curve (candidate sha256 seeds pid (Z.of_nat n))) eqn:E; cbn [negb].
  - destruct (find_bump _ _ _ _ n) as [[k b]|].
    + destruct IH as (H1 & H2 & H3 & H4). split_and!; try done; try lia.
      intros b' Hb. destruct (decide (b' = Z.of_nat n)) as [->|]; [done|apply H4; lia].
    + intros b Hb. destruct (decide (b = Z.of_nat n)) as [->|]; [done|apply IH; lia].
  - split_and!; try done; lia.
Qed.

(** The client derives the canonical address: the off-curve candidate with the
    highest bump, and none exactly when all 256 candidates are on the curve. *)
Theorem pda_is_canonical seeds pid :
  match pda_find_program_address sha256 is_on_curve seeds pid with
  | Some (k, b) => 0 <= b <= 255 /\ k = candidate sha256 seeds pid b /\ is_on_curve k = false /\
      forall b', b < b' <= 255 -> is_on_curve (candidate sha256 seeds pid b') = true
  | None => forall b, 0 <= b <= 255 -> is_on_curve (candidate sha256 seeds pid b) = true
  end.
Proof.
  unfold pda_find_program_address. pose proof (find_bump_spec seeds pid 256) as Hs.
  destruct (find_bump _ _ _ _ 256) as [[k b]|].
  - destruct Hs as (H1 & H2 & H3 & H4). split_and!; try done; try lia. intros b' Hb. apply H4. lia.
  - intros b Hb. apply Hs. lia.
Qed.
End PdaFacts.
