(* ===== verification/ScaleGuard.v ===== *)
(** Do the two ends of a transfer agree on the scale of its amount? (validator/src/scale.rs)
    The reads of the destination gate, EVM or Solana, how several endpoints' answers are
    combined, what is remembered, and what one lying endpoint can do to it. *)

From S2P Require Import Prelude.
From S2P Require Import SolanaRuntime.
From S2P Require Import GateTypes.
From S2P Require Import Text.
From S2P Require Import Quorum.
From S2P Require Import Effects.
From S2P Require Import Failover.
From S2P Require Import Endpoints.
From S2P Require Import SwapMath.
From S2P Require HostHash.

(** * What the chains answer *)

(** How a contract call fails: [alloy::contract::Error]. A revert carries its data. *)
Inductive ContractError :=
  | Reverted
  | ZeroData
  | AbiError
  | UnknownFunction
  | UnknownSelector
  | TransportError (message : text)
  | OtherError.

Class ScaleReads `{NW : Network} := {
  bridge_decimals_for_at : nat -> Provider -> evm_address -> hash32 -> result ContractError (bool * Z);
  token_of_at : nat -> Provider -> evm_address -> hash32 -> result ContractError evm_address;
  bridge_decimals_of_at : nat -> Provider -> evm_address -> evm_address -> result ContractError (bool * Z);
  (** [getAccountInfo] at one url: the owner in base58 and the data *)
  solana_account_at : nat -> text -> pubkey -> result unit (option (text * list byte));
  b58_encode : list byte -> text;
  sha256 : list byte -> hash32;
  is_on_curve : pubkey -> bool;
}.

Fixpoint contains (needle l : text) : bool :=
  match l with
  | [] => bool_decide (needle = [])
  | _ :: l' => starts_with needle l || contains needle l'
  end.
(** The chain itself answered; asking again will not change it. *)
Definition is_definitive (e : ContractError) : bool :=
  match e with
  | Reverted | ZeroData | AbiError | UnknownFunction | UnknownSelector => true
  | TransportError message => contains (txt "execution reverted") (to_ascii_lowercase message)
  | OtherError => false
  end.

Inductive Verdict :=
  | Agree (scale : Z)
  | Mismatch (source destination : Z)
  | Unknown (why : string).

(** One Solana endpoint's verdict on the account of an asset. *)
Inductive SolanaAnswer := Absent | Unusable (why : string) | Scale (decimals : Z).
#[export] Instance SolanaAnswer_eq_dec : EqDecision SolanaAnswer.
Proof. solve_decision. Defined.

(** * The guard *)

Section ScaleGuard.
Context {NW : Network} {ND : Nodes} {SR : ScaleReads} {GB : GateBorsh}.

Record Destination := MkDestination {
  de_chain_id : Z;
  de_gate : evm_address;
  de_urls : list text;
  de_connected : option (list Endpoint);
  de_min_agree : nat;
}.
Definition Destination_new (chain_id : Z) (gate : evm_address) (urls : list text) : Destination :=
  MkDestination chain_id gate urls None (min_agree (length urls) false).
Record SolanaDestination := MkSolanaDestination { so_chain_id : Z; so_program_id : pubkey; so_rpcs : list text }.
Inductive Peer := Evm (d : Destination) | Solana (d : SolanaDestination).

Record ScaleGuard := MkScaleGuard {
  sg_peers : gmap Z Peer;
  sg_dest_cache : gmap (Z * hash32) Z;
  sg_warned : gset Z;
}.
Definition ScaleGuard_new (evm : list Destination) (solana : list SolanaDestination) : ScaleGuard :=
  let peers := fold_left (fun m d => <[de_chain_id d := Evm d]> m) evm ∅ in
  let peers := fold_left (fun m d => <[so_chain_id d := Solana d]> m) solana peers in
  MkScaleGuard peers ∅ ∅.

Abbreviation G := (eff ScaleGuard unit).
Definition set_peer (chain : Z) (p : Peer) : G unit :=
  modify (fun g => MkScaleGuard (<[chain := p]> (sg_peers g)) (sg_dest_cache g) (sg_warned g)).
Definition set_cache (key : Z * hash32) (d : Z) : G unit :=
  modify (fun g => MkScaleGuard (sg_peers g) (<[key := d]> (sg_dest_cache g)) (sg_warned g)).
Definition set_warned (chain : Z) : G unit :=
  modify (fun g => MkScaleGuard (sg_peers g) (sg_dest_cache g) ({[chain]} ∪ sg_warned g)).

(** [Destination::endpoints]: connected at first use. *)
Definition destination_endpoints (chain : Z) (d : Destination) : G (list Endpoint) :=
  match de_connected d with
  | Some e => mret e
  | None =>
      healthy ← connect_all_checked (de_urls d) (de_chain_id d);
      if (length healthy <? de_min_agree d)%nat then fail tt
      else
        _ ← set_peer chain (Evm (MkDestination (de_chain_id d) (de_gate d) (de_urls d) (Some healthy) (de_min_agree d)));
        mret healthy
  end.

(** ** EVM *)

(** The two reads of which [bridgeDecimalsFor] is made. *)
Definition evm_scale_fallback (gate : evm_address) (p : Provider) (debridge_id : hash32) : G (option Z) :=
  r ← ask (fun t => token_of_at t p gate debridge_id);
  match r with
  | Err e => if is_definitive e then mret None else fail tt
  | Ok local =>
      if bool_decide (local = arr_zero 20) then mret None
      else
        r ← ask (fun t => bridge_decimals_of_at t p gate local);
        match r with
        | Ok (set, decimals) => mret (if set : bool then Some decimals else None)
        | Err e => if is_definitive e then mret None else fail tt
        end
  end.
Definition evm_scale_on (gate : evm_address) (debridge_id : hash32) (p : Provider) : G (option Z) :=
  r ← ask (fun t => bridge_decimals_for_at t p gate debridge_id);
  match r with
  | Ok (set, decimals) => mret (if set : bool then Some decimals else None)
  | Err _ => evm_scale_fallback gate p debridge_id
  end.
Definition evm_destination_scale (chain : Z) (d : Destination) (debridge_id : hash32) : G (option Z) :=
  endpoints ← destination_endpoints chain d;
  read_agreed (evm_scale_on (de_gate d) debridge_id) endpoints (de_min_agree d).

(** ** Solana *)

(** [account::decode::<AssetAccount>] leaves the rent padding. *)
Definition solana_asset_scale (owner_is_program : bool) (data : list byte) (debridge_id : hash32) : result string Z :=
  _ ← require owner_is_program "asset account is not owned by the gate program";
  _ ← require (negb (len data <? 98)) "pre-decimals asset record: scale cannot be compared";
  asset ← ok_or (borsh_de data) "asset account does not decode";
  _ ← require (bool_decide (as_debridge_id asset = debridge_id)) "asset record is for a different debridgeId";
  _ ← require (negb (bool_decide (HostHash.asset_account_unit asset = None))) "asset decimals yield no bridge unit";
  Ok (as_bridge_decimals asset).

Definition settle_solana (answers : list (text * SolanaAnswer)) (k : nat) : result NoMajority SolanaAnswer :=
  agreed ← majority answers k;
  if (match agreed with Scale _ => true | _ => false end) || forallb (fun a => bool_decide (a.2 = agreed)) answers
  then Ok agreed else Err (MkNoMajority true).

(** What one endpoint says of the account. *)
Definition solana_answer (d : SolanaDestination) (pda : pubkey) (debridge_id : hash32)
    (r : result unit (option (text * list byte))) : option SolanaAnswer :=
  match r with
  | Err _ => None
  | Ok None => Some Absent
  | Ok (Some (owner, data)) =>
      Some (match solana_asset_scale (bool_decide (owner = b58_encode (so_program_id d))) data debridge_id with
            | Ok s => Scale s
            | Err why => Unusable why
            end)
  end.
Fixpoint ask_solana (d : SolanaDestination) (pda : pubkey) (debridge_id : hash32) (rpcs : list text)
    : G (list (text * SolanaAnswer)) :=
  match rpcs with
  | [] => mret []
  | url :: rpcs =>
      r ← ask (fun t => solana_account_at t url pda);
      rest ← ask_solana d pda debridge_id rpcs;
      mret (match solana_answer d pda debridge_id r with Some a => (redact_url url, a) :: rest | None => rest end)
  end.
Definition solana_destination_scale (d : SolanaDestination) (debridge_id : hash32) : G (option Z) :=
  match pda_find_program_address sha256 is_on_curve [bytes_of_string "asset"; arr_bytes debridge_id] (so_program_id d) with
  | None => mret None
  | Some (pda, _) =>
      answers ← ask_solana d pda debridge_id (so_rpcs d);
      match settle_solana answers (min_agree (length (so_rpcs d)) false) with
      | Ok (Scale s) => mret (Some s)
      | Ok _ => mret None
      | Err _ => fail tt
      end
  end.

(** ** The verdict *)

Definition verdict_on (source destination : Z) : Verdict :=
  if source =? destination then Agree source else Mismatch source destination.
Definition scale_verdict (source chain_id_to : Z) (debridge_id : hash32) : G Verdict :=
  g ← get;
  match sg_peers g !! chain_id_to with
  | None => _ ← set_warned chain_id_to; mret (Unknown "destination chain not configured on this validator")
  | Some peer =>
      match sg_dest_cache g !! (chain_id_to, debridge_id) with
      | Some d => mret (verdict_on source d)
      | None =>
          read ← match peer with
                 | Evm d => evm_destination_scale chain_id_to d debridge_id
                 | Solana d => solana_destination_scale d debridge_id
                 end;
          match read with
          | None => mret (Unknown "destination did not report bridge decimals")
          | Some d => _ ← set_cache (chain_id_to, debridge_id) d; mret (verdict_on source d)
          end
      end
  end.

(** * One lying endpoint *)

(** An endpoint, asked for the scale, gives this answer at some call. *)
Definition evm_said (gate : evm_address) (id : hash32) (e : Endpoint) (v : option Z) : Prop :=
  exists s t s' t', evm_scale_on gate id (ep_provider e) s t = (Ok v, s', t').
Definition solana_said (d : SolanaDestination) (id : hash32) (url : text) (a : SolanaAnswer) : Prop :=
  exists pda b t, pda_find_program_address sha256 is_on_curve [bytes_of_string "asset"; arr_bytes id] (so_program_id d) = Some (pda, b) /\
    solana_answer d pda id (solana_account_at t url pda) = Some a.
Definition scale_of (a : SolanaAnswer) : option Z := match a with Scale s => Some s | _ => None end.

Lemma evm_scale_on_wp gate id e s : wp (evm_scale_on gate id (ep_provider e)) (fun r s' => s' = s /\
  forall v, r = Ok v -> evm_said gate id e v) s.
Proof.
  intros t. split.
  - unfold evm_scale_on, evm_scale_fallback. cbn. unfold mbind, eff_bind, ask.
    destruct (bridge_decimals_for_at _ _ _ _) as [[[] ?]|]; [done|done|].
    destruct (token_of_at _ _ _ _) as [local|x]; [|by destruct (is_definitive x)].
    case_bool_decide; [done|]. destruct (bridge_decimals_of_at _ _ _ _) as [[[] ?]|x]; [done|done|by destruct (is_definitive x)].
  - intros v Hv. destruct (evm_scale_on gate id (ep_provider e) s t) as [[r s'] t'] eqn:E. simpl in Hv. subst r. by exists s, t, s', t'.
Qed.

Section OneLiar.
Variables (honest : Endpoint -> Prop) (honest_url : text -> Prop).
(** What the chains say: of an id on a peer chain, its scale there. *)
Variable truth : Z -> hash32 -> option Z -> Prop.
(** The chains the validator was configured with. *)
Variable configured : Z -> Prop.

(** A peer of this validator with at least two endpoints, at most one of which lies. *)
Definition peer_ok (chain : Z) (p : Peer) : Prop :=
  match p with
  | Evm d =>
      (2 <= de_min_agree d)%nat /\ at_most_one_liar honest (url_endpoints (de_urls d)) /\
      (forall eps, de_connected d = Some eps -> eps `sublist_of` url_endpoints (de_urls d)) /\
      (forall e id v, honest e -> evm_said (de_gate d) id e v -> truth chain id v)
  | Solana d =>
      (2 <= length (so_rpcs d))%nat /\
      (forall u1 u2, [u1; u2] `sublist_of` so_rpcs d -> honest_url u1 \/ honest_url u2) /\
      (forall u id a, honest_url u -> solana_said d id u a -> truth chain id (scale_of a)) /\
      (forall id, pda_find_program_address sha256 is_on_curve [bytes_of_string "asset"; arr_bytes id] (so_program_id d) = None ->
         truth chain id None)
  end.
Record guard_ok (g : ScaleGuard) : Prop := {
  go_known : forall chain, configured chain -> is_Some (sg_peers g !! chain);
  go_peers : forall chain p, sg_peers g !! chain = Some p -> peer_ok chain p;
  go_cache : forall chain id v, sg_dest_cache g !! (chain, id) = Some v -> truth chain id (Some v);
}.

Lemma destination_endpoints_wp chain d g : guard_ok g -> sg_peers g !! chain = Some (Evm d) ->
  wp (destination_endpoints chain d) (fun r g' => guard_ok g' /\
    forall eps, r = Ok eps -> eps `sublist_of` url_endpoints (de_urls d)) g.
Proof using Type.
  intros Hg Hp. pose proof (go_peers _ Hg _ _ Hp) as Hpo. pose proof Hpo as (Hk & Hone & Hconn & Htrue).
  unfold destination_endpoints. destruct (de_connected d) as [eps|] eqn:Hc.
  { apply wp_ret. split; [done|]. intros ? [= <-]. by apply Hconn. }
  apply wp_bind. eapply wp_mono; [apply connect_all_checked_wp|]. intros r g' [-> Hr]. destruct r as [eps|x]; [|by split].
  destruct (Hr eps eq_refl) as [_ Hs]. destruct (_ <? _)%nat; [by apply wp_fail|].
  apply wp_bind, wp_modify, wp_ret. split; [|by intros ? [= <-]]. constructor; cbn; [| |apply Hg].
  { intros c Hc'. destruct (decide (chain = c)) as [<-|Hne]; [rewrite lookup_insert_eq; eauto|].
    rewrite lookup_insert_ne by done. by apply Hg. }
  intros c p. destruct (decide (chain = c)) as [<-|Hne].
  - rewrite lookup_insert_eq. intros [= <-]. cbn. split_and!; [done|done|by intros ? [= <-]|done].
  - rewrite lookup_insert_ne by done. apply Hg.
Qed.

Lemma evm_destination_scale_wp chain d id g : guard_ok g -> sg_peers g !! chain = Some (Evm d) ->
  wp (evm_destination_scale chain d id) (fun r g' => guard_ok g' /\ forall v, r = Ok v -> truth chain id v) g.
Proof using Type.
  intros Hg Hp. pose proof (go_peers _ Hg _ _ Hp) as (Hk & Hone & _ & Htrue).
  apply wp_bind. eapply wp_mono; [by eapply destination_endpoints_wp|]. intros r g' [Hg' Hr]. destruct r as [eps|x]; [|by split].
  eapply wp_mono; [apply (read_agreed_wp _ (evm_said (de_gate d) id)) with (honest := honest)|].
  - intros e s. apply evm_scale_on_wp.
  - done.
  - eapply at_most_one_liar_sub; [by apply Hr|done].
  - intros r g'' [-> Hv]. split; [done|]. intros v Ev. destruct (Hv v Ev) as (e & _ & He & Hs). by eapply Htrue.
Qed.

Lemma ask_solana_wp d pda id rpcs g : wp (ask_solana d pda id rpcs) (fun r g' => g' = g /\
  exists answers who, r = Ok answers /\ who `sublist_of` rpcs /\
    Forall2 (fun u a => exists t, solana_answer d pda id (solana_account_at t u pda) = Some a.2) who answers) g.
Proof using Type.
  induction rpcs as [|u rpcs IH]; cbn [ask_solana].
  { apply wp_ret. split; [done|]. exists [], []. by split_and!. }
  apply wp_bind, wp_ask. intros t. apply wp_bind. eapply wp_mono; [exact IH|].
  intros r s' (-> & answers & who & -> & Hs & Hf). apply wp_ret. split; [done|].
  destruct (solana_answer _ _ _ _) as [a|] eqn:E.
  - exists ((redact_url u, a) :: answers), (u :: who). split_and!; [done|by constructor|]. constructor; [by exists t|done].
  - exists answers, who. split_and!; [done|by constructor|done].
Qed.

(** What is settled is what an honest endpoint's account says, if only one lies. *)
Lemma settle_solana_true (answers : list (text * SolanaAnswer)) who k a (Q : text -> SolanaAnswer -> Prop) :
  Forall2 (fun u x => Q u x.2) who answers -> (2 <= k)%nat ->
  (forall u1 u2, [u1; u2] `sublist_of` who -> honest_url u1 \/ honest_url u2) ->
  settle_solana answers k = Ok a -> exists u, honest_url u /\ Q u a.
Proof using Type.
  intros Hf Hk Hone Hs. unfold settle_solana in Hs. apply result_bind_Ok in Hs as (b & Hb & Hs).
  destruct (_ || _); [|done]. injection Hs as ->. apply majority_exact in Hb as [Hb _].
  destruct (backed_by_two Q a who answers Hf) as (u1 & u2 & H12 & H1 & H2); [lia|].
  destruct (Hone _ _ H12); eauto.
Qed.
Lemma solana_destination_scale_wp chain d id g : guard_ok g -> sg_peers g !! chain = Some (Solana d) ->
  wp (solana_destination_scale d id) (fun r g' => g' = g /\ forall v, r = Ok v -> truth chain id v) g.
Proof using Type.
  intros Hg Hp. destruct (go_peers _ Hg _ _ Hp) as (Hk & Hone & Htrue & Hnone). unfold solana_destination_scale.
  destruct (pda_find_program_address _ _ _ _) as [[pda b]|] eqn:E.
  2:{ apply wp_ret. split; [done|]. intros ? [= <-]. by apply Hnone. }
  apply wp_bind. eapply wp_mono; [apply ask_solana_wp|]. intros r g' (-> & answers & who & -> & Hs & Hf).
  destruct (settle_solana _ _) as [a|] eqn:Ha; [|by apply wp_fail].
  assert (exists u, honest_url u /\ exists t, solana_answer d pda id (solana_account_at t u pda) = Some a) as (u & Hu & t & Hx).
  { eapply (settle_solana_true answers who _ a (fun u x => exists t, solana_answer d pda id (solana_account_at t u pda) = Some x)); [exact Hf| | |exact Ha].
    - unfold min_agree. rewrite (proj2 (Nat.leb_le _ _) Hk). simpl. lia.
    - intros u1 u2 H12. apply Hone. by etrans. }
  assert (truth chain id (scale_of a)) as Ht by (eapply Htrue; [exact Hu|by exists pda, b, t]).
  destruct a; apply wp_ret; split; try done; by intros ? [= <-].
Qed.

(** What a verdict on a corridor's scale has to mean. *)
Definition verdict_true (source chain : Z) (id : hash32) (r : result unit Verdict) : Prop :=
  match r with
  | Ok (Agree d) => d = source /\ truth chain id (Some d)
  | Ok (Mismatch s d) => s = source /\ d <> source /\ truth chain id (Some d)
  | Ok (Unknown _) => ~ configured chain \/ truth chain id None
  | Err _ => True
  end.
Lemma verdict_on_true source d chain id : truth chain id (Some d) -> verdict_true source chain id (Ok (verdict_on source d)).
Proof using Type. intros Hd. unfold verdict_on. destruct (Z.eqb_spec source d) as [->|]; [done|]. by split_and!. Qed.
Lemma scale_verdict_wp source chain id g : guard_ok g ->
  wp (scale_verdict source chain id) (fun r g' => guard_ok g' /\ verdict_true source chain id r) g.
Proof using Type.
  intros Hg. apply wp_bind, wp_get. destruct (sg_peers g !! chain) as [p|] eqn:Hp.
  2:{ apply wp_bind, wp_modify, wp_ret. split; [constructor; apply Hg|left].
      intros Hc. destruct (go_known _ Hg _ Hc). congruence. }
  destruct (sg_dest_cache g !! (chain, id)) as [d|] eqn:Hc.
  { apply wp_ret. split; [done|]. apply verdict_on_true. by apply (go_cache _ Hg). }
  apply wp_bind. assert (wp match p with Evm d => evm_destination_scale chain d id | Solana d => solana_destination_scale d id end
    (fun r g' => guard_ok g' /\ forall v, r = Ok v -> truth chain id v) g) as Hread.
  { destruct p as [d|d]; [by apply evm_destination_scale_wp|].
    eapply wp_mono; [by eapply solana_destination_scale_wp|]. by intros r0 g0 [-> Hv]. }
  eapply wp_mono; [exact Hread|]. intros r0 g0 [Hg0 Hv]. destruct r0 as [[d|]|x]; [| |done].
  - specialize (Hv _ eq_refl). apply wp_bind, wp_modify, wp_ret. split; [|by apply verdict_on_true].
    constructor; cbn; [apply Hg0..|]. intros c i v. destruct (decide ((chain, id) = (c, i))) as [[= <- <-]|Hne].
    + rewrite lookup_insert_eq. by intros [= <-].
    + rewrite lookup_insert_ne by done. apply Hg0.
  - apply wp_ret. split; [done|]. right. by apply Hv.
Qed.

(** C31. One lying endpoint cannot make a validator misjudge a corridor. When each peer
    chain is read through at least two endpoints of which at most one lies, the verdict
    on a transfer's scale is what the destination chain says: agreement and mismatch
    compare the event's scale with the registered one, and a transfer is withheld for
    good only when the chain is not configured or really has no scale. Everything else
    is an error, to be tried again. What the guard remembers stays true. *)
Theorem one_liar_cannot_misjudge source chain id g r g' t t' : guard_ok g ->
  scale_verdict source chain id g t = (r, g', t') -> guard_ok g' /\ verdict_true source chain id r.
Proof using Type. intros Hg Hrun. exact (wp_run _ _ _ _ _ _ _ (scale_verdict_wp source chain id g Hg) Hrun). Qed.
End OneLiar.
End ScaleGuard.
