(* ===== verification/Validator.v ===== *)
(** The EVM validator (validator/src/main.rs): one scan loop of one source chain, from
    the head it works towards to the signatures it posts. A tick reads a window that
    other endpoints must confirm, handles its events in chain order, and moves the block
    cursor only when every event was handled. The operator's requests arrive at any
    await point. *)

From S2P Require Import Prelude.
From S2P Require Import SolanaRuntime.
From S2P Require Import Text.
From S2P Require Import ListSort.
From S2P Require Import Quorum.
From S2P Require Import Effects.
From S2P Require Import Failover.
From S2P Require Import Endpoints.
From S2P Require Import Allowlist.
From S2P Require Import ScannerState.
From S2P Require Import GateTypes.
From S2P Require Import HostRecord.
From S2P Require Import SigStore.
From S2P Require Import ScaleGuard.
From S2P Require CoreHash.

(** * The event *)

(** [Gate::Sent] of bridge-core/src/abi.rs; integers are 256-bit words but the scale. *)
Record EvmSent := MkEvmSent {
  es_submission_id : hash32;
  es_debridge_id : hash32;
  es_amount : Z;
  es_bridge_decimals : Z;   (* u8 *)
  es_chain_id_from : Z;
  es_chain_id_to : Z;
  es_receiver : list byte;
  es_nonce : Z;
  es_auto_params : list byte;
  es_native_sender : list byte;
  es_token : evm_address;
}.

(** The outside of one scan loop: alloy's decoder, the store, the disk, the operator. *)
Class ValidatorWorld := {
  decode_sent : evm_address -> list hash32 -> list byte -> option EvmSent;
  upsert_at : nat -> SubmissionRecord -> SignerSig -> result unit unit;
  allowlist_at : nat -> result unit AllowlistView;
  save_at : nat -> bool;
  operator_at : nat -> list OperatorAction;
}.

Definition u64_of_word (z : Z) : option Z := u_checked 64 z.

Definition sent_event_u64s (ev : EvmSent) : option (Z * Z * Z) :=
  from ← u64_of_word (es_chain_id_from ev);
  to ← u64_of_word (es_chain_id_to ev);
  nonce ← u64_of_word (es_nonce ev);
  Some (from, to, nonce).

Section Validator.
Context {RT : Runtime} {HX : HexCodec} {AL : Alloy} {GB : GateBorsh}.
Context {NW : Network} {ND : Nodes} {SR : ScaleReads} {SK : HostSigner} {VW : ValidatorWorld}.

Definition record_from_sent_event (ev : EvmSent) (bridge_domain : hash32) : option SubmissionRecord :=
  '(chain_id_from, chain_id_to, nonce) ← sent_event_u64s ev;
  Some (MkSubmissionRecord (hex0x (arr_bytes (es_submission_id ev))) (hex0x (arr_bytes bridge_domain))
    (hex0x (arr_bytes (es_debridge_id ev))) (u256_dec (es_amount ev)) (Some (es_bridge_decimals ev))
    chain_id_from chain_id_to nonce (hex0x (es_receiver ev)) (hex0x (es_auto_params ev))
    (hex0x (es_native_sender ev)) (hex0x (arr_bytes (es_token ev))) [] [] []).
(** [Submission::from_sent_event] *)
Definition submission_from_sent_event (ev : EvmSent) (bridge_domain : hash32) : option CoreHash.Submission :=
  auto ← decode_auto_params (es_auto_params ev) (es_native_sender ev);
  Some (CoreHash.MkSubmission bridge_domain (es_debridge_id ev) (es_bridge_decimals ev) (es_amount ev)
          (es_chain_id_from ev) (es_chain_id_to ev) (es_nonce ev) (es_receiver ev) auto).

(** * The loop's state *)

Record BatchProgress := MkBatchProgress { bp_from_block : option Z; bp_stored : gset hash32 }.
(** [for_window] *)
Definition for_window (from_block : Z) (p : BatchProgress) : BatchProgress :=
  if bool_decide (bp_from_block p = Some from_block) then p else MkBatchProgress (Some from_block) ∅.

(** What the loop was started with. *)
Record ScanConfig := MkScanConfig {
  cf_gate : evm_address;
  cf_sent_sig : hash32;
  cf_block_confirmation : Z;
  cf_max_block_range : Z;
  cf_bridge_domain : hash32;
  cf_policy : AllowlistPolicy;
  cf_require : bool;
  cf_signer : evm_address;
}.

(** The local variables of the loop, the shared [Runtime], its file, and every post. *)
Record Scanner := MkScanner {
  sc_failover : Failover;
  sc_persist : Persist;
  sc_file : StateFile;
  sc_scale : ScaleGuard;
  sc_progress : BatchProgress;
  sc_cached_latest : option Z;
  sc_inconclusive_streak : Z;
  sc_window_cap : Z;
  sc_last_from : option Z;
  sc_idle_ticks : Z;
  sc_posts : list (SubmissionRecord * SignerSig * result unit unit);
}.
Abbreviation V := (eff Scanner unit).

Definition upd_failover (f : Failover) (s : Scanner) : Scanner :=
  MkScanner f (sc_persist s) (sc_file s) (sc_scale s) (sc_progress s) (sc_cached_latest s)
    (sc_inconclusive_streak s) (sc_window_cap s) (sc_last_from s) (sc_idle_ticks s) (sc_posts s).
Definition upd_persist (p : Persist) (s : Scanner) : Scanner :=
  MkScanner (sc_failover s) p (sc_file s) (sc_scale s) (sc_progress s) (sc_cached_latest s)
    (sc_inconclusive_streak s) (sc_window_cap s) (sc_last_from s) (sc_idle_ticks s) (sc_posts s).
Definition upd_file (f : StateFile) (s : Scanner) : Scanner :=
  MkScanner (sc_failover s) (sc_persist s) f (sc_scale s) (sc_progress s) (sc_cached_latest s)
    (sc_inconclusive_streak s) (sc_window_cap s) (sc_last_from s) (sc_idle_ticks s) (sc_posts s).
Definition upd_scale (g : ScaleGuard) (s : Scanner) : Scanner :=
  MkScanner (sc_failover s) (sc_persist s) (sc_file s) g (sc_progress s) (sc_cached_latest s)
    (sc_inconclusive_streak s) (sc_window_cap s) (sc_last_from s) (sc_idle_ticks s) (sc_posts s).
Definition upd_progress (p : BatchProgress) (s : Scanner) : Scanner :=
  MkScanner (sc_failover s) (sc_persist s) (sc_file s) (sc_scale s) p (sc_cached_latest s)
    (sc_inconclusive_streak s) (sc_window_cap s) (sc_last_from s) (sc_idle_ticks s) (sc_posts s).
Definition upd_cached (l : option Z) (s : Scanner) : Scanner :=
  MkScanner (sc_failover s) (sc_persist s) (sc_file s) (sc_scale s) (sc_progress s) l
    (sc_inconclusive_streak s) (sc_window_cap s) (sc_last_from s) (sc_idle_ticks s) (sc_posts s).
Definition upd_cap (streak cap : Z) (s : Scanner) : Scanner :=
  MkScanner (sc_failover s) (sc_persist s) (sc_file s) (sc_scale s) (sc_progress s) (sc_cached_latest s)
    streak cap (sc_last_from s) (sc_idle_ticks s) (sc_posts s).
Definition upd_idle (last : option Z) (ticks : Z) (s : Scanner) : Scanner :=
  MkScanner (sc_failover s) (sc_persist s) (sc_file s) (sc_scale s) (sc_progress s) (sc_cached_latest s)
    (sc_inconclusive_streak s) (sc_window_cap s) last ticks (sc_posts s).
Definition upd_posts (l : list (SubmissionRecord * SignerSig * result unit unit)) (s : Scanner) : Scanner :=
  MkScanner (sc_failover s) (sc_persist s) (sc_file s) (sc_scale s) (sc_progress s) (sc_cached_latest s)
    (sc_inconclusive_streak s) (sc_window_cap s) (sc_last_from s) (sc_idle_ticks s) l.

(** [runtime.lock().await] and one change *)
Definition with_runtime (f : Persist -> Persist) : V unit := modify (fun s => upd_persist (f (sc_persist s)) s).
(** [rt.save()]: the temporary file is renamed over the old one, or nothing changes. *)
Definition save : V unit :=
  ok ← ask save_at;
  if ok : bool then modify (fun s => upd_file (FileHolds (sc_persist s)) s) else mret tt.
(** An await point at which the lock is free: whatever the operator asked for is done,
    and saved. *)
Fixpoint operator_acts (l : list OperatorAction) : V unit :=
  match l with
  | [] => mret tt
  | a :: l => _ ← with_runtime (operate a); _ ← save; operator_acts l
  end.
Definition await_point : V unit := l ← ask operator_at; operator_acts l.

(** * One event *)

Definition halt (reason : PauseReason) : V bool := _ ← with_runtime (pause reason); _ ← save; mret false.
(** [runtime.lock().await.accept_nonce(..)]: with nothing posted before, the nonce is
    consumed and nothing is signed. *)
Definition withhold (from to nonce : Z) : V bool :=
  _ ← await_point; _ ← with_runtime (accept_nonce from to nonce); mret true.

Definition blocked (allowlist : option Allowlist) (ev : EvmSent) (from to : Z) : bool :=
  match allowlist with
  | None => false
  | Some l => negb (token_allowed l (hex0x (arr_bytes (es_debridge_id ev)))) || negb (chain_allowed l from to)
  end.

Definition post (cf : ScanConfig) (ev : EvmSent) (record : SubmissionRecord) (from to nonce : Z) : V bool :=
  let sig := MkSignerSig (hex0x (arr_bytes (cf_signer cf))) (sign (es_submission_id ev)) in
  answer ← ask (fun t => upsert_at t record sig);
  _ ← modify (fun s => upd_posts (sc_posts s ++ [(record, sig, answer)]) s);
  _ ← try answer;
  _ ← modify (fun s => upd_progress (MkBatchProgress (bp_from_block (sc_progress s)) ({[es_submission_id ev]} ∪ bp_stored (sc_progress s))) s);
  withhold from to nonce.

(** From the check of the id on. *)
Definition handle_submission (cf : ScanConfig) (allowlist : option Allowlist) (ev : EvmSent) (record : SubmissionRecord)
    (submission : CoreHash.Submission) (from to nonce : Z) : V bool :=
  if bool_decide (CoreHash.compute_id submission = es_submission_id ev) then
    match check_storable record with
    | Err _ => withhold from to nonce
    | Ok _ =>
        if blocked allowlist ev from to then withhold from to nonce
        else
          v ← on_part sc_scale upd_scale (scale_verdict (es_bridge_decimals ev) to (es_debridge_id ev));
          match v with
          | Agree _ =>
              s ← get;
              if bool_decide (es_submission_id ev ∈ bp_stored (sc_progress s)) then withhold from to nonce
              else post cf ev record from to nonce
          | _ => withhold from to nonce
          end
    end
  else _ ← await_point; halt (ScannerState.IdMismatch (es_submission_id ev)).

Definition handle_log (cf : ScanConfig) (allowlist : option Allowlist) (l : Log) : V bool :=
  ev ← expect (decode_sent (log_address l) (log_topics l) (log_data l)) tt;
  match record_from_sent_event ev (cf_bridge_domain cf) with
  | None => mret true
  | Some record =>
      let from := rec_chain_id_from record in
      let to := rec_chain_id_to record in
      let nonce := rec_nonce record in
      s ← get;
      let last := last_nonce (sc_persist s) from to in
      match check_nonce (sc_persist s) from to nonce with
      | Missed => halt (MissedNonce from to (default 0 ((fun n => as_u 64 (n + 1)) <$> last)) nonce)
      | Duplicated => halt (DuplicatedNonce from to (default 0 last) nonce)
      | Accept =>
          match submission_from_sent_event ev (cf_bridge_domain cf) with
          | None => withhold from to nonce
          | Some submission => handle_submission cf allowlist ev record submission from to nonce
          end
      end
  end.

(** * One batch *)

Inductive BatchEnd := Processed | PausedAt | FailedAt.
Fixpoint handle_logs (cf : ScanConfig) (allowlist : option Allowlist) (logs : list Log) : V BatchEnd :=
  match logs with
  | [] => mret Processed
  | l :: logs =>
      r ← attempt (handle_log cf allowlist l);
      _ ← await_point;
      match r with
      | Ok true => handle_logs cf allowlist logs
      | Ok false => mret PausedAt
      | Err _ => mret FailedAt
      end
  end.

Definition pos_leb (a b : Z * Z) : bool := (a.1 <? b.1) || ((a.1 =? b.1) && (a.2 <=? b.2)).
Definition chain_order (logs : list Log) : list Log :=
  sort_by_key (fun l => (default 0 (log_block_number l), default 0 (log_index l))) pos_leb logs.

(** What is done with a window whose logs may be signed. *)
Definition process_window (cf : ScanConfig) (from_block scanned_to : Z) (logs : list Log) : V unit :=
  match dedupe_logs (live (chain_order logs)) with
  | Err _ => mret tt
  | Ok (logs, _) =>
      view ← ask allowlist_at;
      _ ← await_point;
      match view ≫= (fun v => map_err (fun _ => tt) (check (cf_policy cf) v)) with
      | Err _ => mret tt
      | Ok allowlist =>
          s ← get;
          let nonces_before := nonce_snapshot (sc_persist s) in
          _ ← await_point;
          _ ← modify (fun s => upd_progress (for_window from_block (sc_progress s)) s);
          e ← handle_logs cf allowlist logs;
          _ ← match e with
              | Processed => with_runtime (set_last_block scanned_to)
              | _ => with_runtime (restore_nonces nonces_before)
              end;
          save
      end
  end.

(** The verdict on a window: may it be signed, and how large is the next one. *)
Definition heed (cf : ScanConfig) (v : Corroboration) (s : Scanner) : bool * Scanner :=
  match v with
  | Agreed _ => (true, upd_cap 0 (Z.min (Z.min (u_max 64) (sc_window_cap s * 2)) (Z.max (cf_max_block_range cf) 1)) s)
  | Disagreed _ _ _ => (false, upd_cap 0 (sc_window_cap s) s)
  | Inconclusive =>
      (false, upd_cap (Z.min (u_max 32) (sc_inconclusive_streak s + 1)) (Z.max (sc_window_cap s / 2) 1) s)
  | Unavailable => (negb (cf_require cf), s)
  end.

Definition scan_window (cf : ScanConfig) (from_block confirmed : Z) : V unit :=
  s ← get;
  let to_block := Z.min confirmed (as_u 64 (from_block + sc_window_cap s - 1)) in
  let filter := MkFilter (cf_gate cf) (cf_sent_sig cf) from_block to_block in
  r ← attempt (on_part sc_failover upd_failover
        (get_logs_corroborated filter from_block to_block (cf_block_confirmation cf)));
  _ ← await_point;
  match r with
  | Err _ => mret tt
  | Ok None => modify (upd_cached None)
  | Ok (Some (logs, scanned_to, v)) =>
      s ← get;
      let '(sign_it, s') := heed cf v s in
      _ ← modify (fun _ => s');
      if sign_it : bool then process_window cf from_block scanned_to logs else mret tt
  end.

(** [is_none_or(|l| from_block + block_confirmation > l)] *)
Definition stale_head (cf : ScanConfig) (from_block : Z) (cached : option Z) : bool :=
  match cached with None => true | Some l => l <? as_u 64 (from_block + cf_block_confirmation cf) end.
Definition note_idle (from_block : Z) (s : Scanner) : Scanner :=
  if bool_decide (sc_last_from s = Some from_block)
  then upd_idle (sc_last_from s) (Z.min (u_max 32) (sc_idle_ticks s + 1)) s
  else upd_idle (Some from_block) 0 s.

(** One turn of the loop. *)
Definition scan_tick (cf : ScanConfig) : V unit :=
  s ← get;
  if p_paused (sc_persist s) then await_point
  else
    _ ← await_point;
    s ← get;
    let from_block := next_block (sc_persist s) in
    _ ← modify (note_idle from_block);
    r ← (if stale_head cf from_block (sc_cached_latest s)
         then r ← attempt (on_part sc_failover upd_failover scan_head);
              _ ← await_point;
              match r with
              | Ok v => _ ← modify (upd_cached (Some v)); mret true
              | Err _ => mret false
              end
         else mret true);
    if r : bool then
      s ← get;
      let confirmed := saturating_sub (default 0 (sc_cached_latest s)) (cf_block_confirmation cf) in
      if from_block <=? confirmed then scan_window cf from_block confirmed else mret tt
    else mret tt.

(** [scan_source]: the loop, turn after turn. *)
Fixpoint scan_ticks (cf : ScanConfig) (n : nat) : V unit :=
  match n with
  | O => mret tt
  | S n => _ ← scan_tick cf; scan_ticks cf n
  end.
End Validator.
