(* ===== verification/Indexer.v ===== *)
(** The indexer (crates/indexer/src/main.rs): one loop per EVM chain that mirrors the events
    of its gate, swap router and swap pool into the database, and moves the chain's cursor
    only past what it wrote down. The endpoint is what it answers; a loop is followed for
    any finite number of turns. *)

From S2P Require Import Prelude.
From S2P Require Import Text.
From S2P Require Import SolanaRuntime.
From S2P Require Import ListSort.
From S2P Require Import Quorum.
From S2P Require Import HostRecord.
From S2P Require Import SigStore.
From S2P Require Import Interleave.
From S2P Require Import Db.
From S2P Require Import Validator.

(** * Events and configuration *)

Record IndexedLog := MkIndexedLog { il_log : Log; il_block_hash : option hash32 }.
(** [SwapPool.Swapped] and [SwapRouter.SwapBridged], as far as they are read. *)
Record Swapped := MkSwapped {
  sd_sender : evm_address; sd_to : evm_address; sd_token_in : evm_address; sd_token_out : evm_address;
  sd_amount_in : Z; sd_amount_out : Z;
}.
Record SwapBridged := MkSwapBridged {
  sbd_submission_id : hash32; sbd_token_in : evm_address; sbd_amount_in : Z; sbd_stable_out : Z;
  sbd_final_token : evm_address; sbd_final_receiver : evm_address;
}.
(** [decode_log] of each event; the gate's marks by their id, an outcome by id and amount. *)
Class EvmEvents := {
  gate_sent : Log -> option EvmSent;
  gate_claimed : Log -> option hash32;
  gate_cancelled : Log -> option hash32;
  gate_refunded : Log -> option hash32;
  pool_swapped : Log -> option Swapped;
  router_swap_bridged : Log -> option SwapBridged;
  router_finalized : Log -> option (hash32 * Z);
  router_finalize_deferred : Log -> option hash32;
  router_finalize_fallback : Log -> option (hash32 * Z);
}.

Record ChainCfg := MkChainCfg {
  ch_chain_id : Z;
  ch_gate : option evm_address;
  ch_router : option evm_address;
  ch_pool : option evm_address;
  ch_start_block : Z;
  ch_block_confirmation : Z;
  ch_max_block_range : Z;
}.
Record Window := MkWindow { wd_from_block : Z; wd_to_block : Z; wd_confirmations : Z }.
Record Header := MkHeader { hd_number : Z; hd_hash : hash32 }.

(** What the endpoint answers during one scan: its head, then the batch of the logs of an
    address in a range with the block at its end. *)
Record ScanAnswers := MkScanAnswers {
  sa_head : result unit Z;
  sa_batch : evm_address -> Z -> Z -> result unit (list IndexedLog * option Header);
}.
Record TurnAnswers := MkTurnAnswers {
  ta_head : result unit Z;
  ta_gate : ScanAnswers;
  ta_router : ScanAnswers;
  ta_pool : ScanAnswers;
}.

(** * One scan *)

Definition window_end_vouched (scanned_to : Z) (block : option Header) (logs : list IndexedLog) : bool :=
  match block with
  | None => false
  | Some block =>
      (hd_number block =? scanned_to) &&
      forallb (fun l => negb (bool_decide (log_block_number (il_log l) = Some scanned_to)) ||
                        bool_decide (il_block_hash l = Some (hd_hash block))) logs
  end.
Definition position (l : IndexedLog) : Z * Z :=
  (default 0 (log_block_number (il_log l)), default 0 (log_index (il_log l))).
Definition position_leb (a b : Z * Z) : bool := if a.1 =? b.1 then a.2 <=? b.2 else a.1 <? b.1.

Definition fetch_window (a : ScanAnswers) (address : evm_address) (w : Window)
    : result unit (option (Z * list IndexedLog)) :=
  endpoint_head ← sa_head a;
  match clamp_scan_window (wd_from_block w) (wd_to_block w) endpoint_head (wd_confirmations w) with
  | None => Ok None
  | Some scanned_to =>
      '(logs, block) ← sa_batch a address (wd_from_block w) scanned_to;
      if negb (window_end_vouched scanned_to block logs) then Ok None
      else
        let logs := sort_by_key position position_leb logs in
        Ok (Some (scanned_to, List.filter (fun l => negb (log_removed (il_log l))) logs))
  end.

Section Indexer.
Context {RT : Runtime} {HX : HexCodec} {AL : Alloy} {EV : EvmEvents}.

Abbreviation T := (sprog Tables DbError).

Definition hex_of {n} (a : arr n) : text := hex0x (arr_bytes a).
Definition tx_hash (log : Log) : text := match log_transaction_hash log with Some h => hex_of h | None => [] end.

Definition handle_gate_log (bridge_domain : hash32) (log : Log) : T unit :=
  match gate_sent log with
  | Some ev =>
      match record_from_sent_event ev bridge_domain with
      | None => mret tt   (* too large for u64: skipped for good *)
      | Some record =>
          match check_storable record with
          | Err _ => mret tt   (* no store will ever take it *)
          | Ok _ => observe_submission record
          end
      end
  | None =>
  match gate_claimed log with
  | Some id => mark_claimed (hex_of id) (tx_hash log)
  | None =>
  match gate_cancelled log with
  | Some id => mark_cancelled (hex_of id) (tx_hash log)
  | None =>
  match gate_refunded log with
  | Some id => mark_refunded (hex_of id) (tx_hash log)
  | None => mret tt
  end end end end.
Definition handle_pool_log (chain_id : Z) (log : Log) : T unit :=
  match pool_swapped log with
  | None => mret tt
  | Some ev =>
      record_swap chain_id (tx_hash log) (default 0 (log_index log)) (hex_of (sd_sender ev)) (hex_of (sd_to ev))
        (hex_of (sd_token_in ev)) (hex_of (sd_token_out ev)) (u256_dec (sd_amount_in ev)) (u256_dec (sd_amount_out ev))
        (default 0 (log_block_number log))
  end.
Definition handle_router_log (log : Log) : T unit :=
  match router_swap_bridged log with
  | Some ev =>
      record_swap_bridge_intent (hex_of (sbd_submission_id ev)) (hex_of (sbd_token_in ev)) (u256_dec (sbd_amount_in ev))
        (u256_dec (sbd_stable_out ev)) (hex_of (sbd_final_token ev)) (hex_of (sbd_final_receiver ev))
  | None =>
  match router_finalized log with
  | Some (id, amount_out) => record_finalized (hex_of id) (tx_hash log) (u256_dec amount_out) false
  | None =>
  match router_finalize_deferred log with
  | Some _ => mret tt
  | None =>
  match router_finalize_fallback log with
  | Some (id, stable_amount) => record_finalized (hex_of id) (tx_hash log) (u256_dec stable_amount) true
  | None => mret tt
  end end end end.

(** The first failure ends the scan. *)
Fixpoint handle_all (handler : Log -> T unit) (logs : list IndexedLog) : T unit :=
  match logs with
  | [] => mret tt
  | l :: logs => _ ← handler (il_log l); handle_all handler logs
  end.
(** A failed call of the endpoint is an input error like any other. *)
Definition scan (a : ScanAnswers) (address : evm_address) (w : Window) (handler : Log -> T unit) : T (option Z) :=
  match fetch_window a address w with
  | Err _ => throw Sqlx
  | Ok None => mret None
  | Ok (Some (scanned_to, logs)) => _ ← handle_all handler logs; mret (Some scanned_to)
  end.

(** * The loop of a chain *)

Record LoopState := MkLoopState { lp_from_block : Z; lp_cached_latest : option Z }.

Definition narrow (scanned_to limit : option Z) : option Z :=
  match scanned_to, limit with Some a, Some b => Some (Z.min a b) | _, _ => None end.
(** One contract's scan, if it is configured: [(all_ok, scanned_to)]. *)
Definition scan_contract (address : option evm_address) (a : ScanAnswers) (w : Window) (handler : Log -> T unit)
    (acc : bool * option Z) : T (bool * option Z) :=
  match address with
  | None => mret acc
  | Some address =>
      r ← caught (scan a address w handler);
      mret (match r with Ok limit => (acc.1, narrow acc.2 limit) | Err _ => (false, acc.2) end)
  end.
(** The head is read again once the cursor reaches it; [None] when it cannot be read. *)
Definition latest_head (cfg : ChainCfg) (a : TurnAnswers) (st : LoopState) : option (option Z) :=
  let stale := match lp_cached_latest st with
    | None => true
    | Some l => l <? as_u 64 (lp_from_block st + ch_block_confirmation cfg)
    end in
  if stale then match ta_head a with Ok v => Some (Some v) | Err _ => None end else Some (lp_cached_latest st).
Definition chain_turn (cfg : ChainCfg) (gate_domain : hash32) (a : TurnAnswers) (st : LoopState) : T LoopState :=
  match latest_head cfg a st with
  | None => mret st
  | Some cached_latest =>
      let from_block := lp_from_block st in
      let confirmed := saturating_sub (default 0 cached_latest) (ch_block_confirmation cfg) in
      if confirmed <? from_block then mret (MkLoopState from_block cached_latest)
      else
        let to_block := Z.min confirmed (as_u 64 (from_block + ch_max_block_range cfg - 1)) in
        let w := MkWindow from_block to_block (ch_block_confirmation cfg) in
        r ← scan_contract (ch_gate cfg) (ta_gate a) w (handle_gate_log gate_domain) (true, Some to_block);
        r ← scan_contract (ch_router cfg) (ta_router a) w handle_router_log r;
        r ← scan_contract (ch_pool cfg) (ta_pool a) w (handle_pool_log (ch_chain_id cfg)) r;
        let '(all_ok, scanned_to) := r in
        let cached_latest := if all_ok && bool_decide (scanned_to = None) then None else cached_latest in
        match (if all_ok then scanned_to else None) with
        | None => mret (MkLoopState from_block cached_latest)
        | Some to_block =>
            r ← caught (set_cursor (ch_chain_id cfg) to_block);
            mret (MkLoopState (match r with Ok _ => as_u 64 (to_block + 1) | Err _ => from_block end) cached_latest)
        end
  end.
Fixpoint chain_loop (cfg : ChainCfg) (gate_domain : hash32) (l : list TurnAnswers) (st : LoopState) : T unit :=
  match l with
  | [] => mret tt
  | a :: l => st ← chain_turn cfg gate_domain a st; chain_loop cfg gate_domain l st
  end.

(** The first answer; [None] while there is none. *)
Fixpoint first_answer {A} (l : list (result unit A)) : option A :=
  match l with [] => None | Ok a :: _ => Some a | Err _ :: l => first_answer l end.
Definition first_block (cfg : ChainCfg) : T Z :=
  r ← caught (get_cursor (ch_chain_id cfg));
  mret (match r with Ok (Some b) => as_u 64 (b + 1) | Ok None | Err _ => ch_start_block cfg end).
(** The answers to [get_chain_id] and [bridgeDomain()], then those of each turn. *)
Definition run_chain (cfg : ChainCfg) (ids : list (result unit Z)) (domains : list (result unit hash32))
    (l : list TurnAnswers) : T unit :=
  if bool_decide (ch_gate cfg = None /\ ch_router cfg = None /\ ch_pool cfg = None) then throw Sqlx
  else
    match first_answer ids with
    | None => mret tt
    | Some id =>
        if negb (id =? ch_chain_id cfg) then throw Sqlx
        else
          match (match ch_gate cfg with None => Some (arr_zero 32) | Some _ => first_answer domains end) with
          | None => mret tt
          | Some gate_domain =>
              from_block ← first_block cfg;
              chain_loop cfg gate_domain l (MkLoopState from_block None)
          end
    end.
End Indexer.
