(* ===== verification/IndexerSafety.v ===== *)
(** Where the indexer's cursors may stand: whatever else runs against the database, every
    event up to a chain's cursor is written down. *)

From S2P Require Import Prelude.
From S2P Require Import Text.
From S2P Require Import SolanaRuntime.
From S2P Require Import ListSort.
From S2P Require Import Quorum.
From S2P Require Import HostRecord.
From S2P Require Import SigStore.
From S2P Require Import Interleave.
From S2P Require Import Db.
From S2P Require Import DbSafety.
From S2P Require Import DbLifecycle.
From S2P Require Import SigServer.
From S2P Require Import ServerSafety.
From S2P Require Import Validator.
From S2P Require Import Indexer.

Section IndexerSafety.
Context {RT : Runtime} {HX : HexCodec} {AL : Alloy} {HL : HexLaws} {ALL : AlloyLaws} {AT : AlloyText} {EV : EvmEvents}.
(** The server that shares the database. *)
Variable server : Server.
Abbreviation vs := (sv_validator_set server).
Abbreviation T := (sprog Tables DbError).

(** The configured chains, the domain of each gate, and what the contracts logged. *)
Variable chain_cfg : Z -> option ChainCfg.
Variable domain_of : Z -> hash32.
Variable chain_logs : Z -> evm_address -> Z -> list Log.   (* chain, contract, block *)

(** * Written down *)

(** The rows there were at the start. *)
Variable d0 : Tables.
Definition known (id : hash32) : Prop := is_Some (db_submissions d0 !! norm_id (hex_of id)).
Definition at_row (d : Tables) (id : text) (P : SubmissionRow -> Prop) : Prop :=
  exists r, db_submissions d !! id = Some r /\ P r.
Definition seen (r : SubmissionRow) : Prop := is_Some (row_sent_observed_at r).
Definition is_claimed (r : SubmissionRow) : Prop := lf_status (row_lifecycle r) = Claimed.
Definition is_unwound (r : SubmissionRow) : Prop := unwound (lf_refund_status (row_lifecycle r)).
Definition gate_recorded (domain : hash32) (d : Tables) (log : Log) : Prop :=
  match gate_sent log with
  | Some ev => forall record, record_from_sent_event ev domain = Some record -> check_storable record = Ok tt ->
      at_row d (norm_id (rec_submission_id record)) seen
  | None =>
  match gate_claimed log with
  | Some id => known id -> at_row d (norm_id (hex_of id)) is_claimed
  | None =>
  match gate_cancelled log with
  | Some id => known id -> at_row d (norm_id (hex_of id)) is_unwound
  | None =>
  match gate_refunded log with
  | Some id => known id -> at_row d (norm_id (hex_of id)) is_unwound
  | None => True
  end end end end.
Definition pool_recorded (chain_id : Z) (d : Tables) (log : Log) : Prop :=
  match pool_swapped log with
  | Some _ => is_Some (db_swaps d !! (chain_id, to_ascii_lowercase (tx_hash log), as_u 32 (default 0 (log_index log))))
  | None => True
  end.
Definition router_recorded (d : Tables) (log : Log) : Prop :=
  match router_swap_bridged log with
  | Some ev => norm_id (hex_of (sbd_submission_id ev)) ∈ dom (db_swap_bridges d)
  | None => True
  end.

(** One contract's logs in a range of blocks. *)
Definition range_recorded (chain_id : Z) (address : option evm_address) (rec : Log -> Prop) (from to : Z) : Prop :=
  forall a n log, address = Some a -> from <= n <= to -> log ∈ chain_logs chain_id a n -> rec log.
Definition all_recorded (cfg : ChainCfg) (d : Tables) (from to : Z) : Prop :=
  let c := ch_chain_id cfg in
  range_recorded c (ch_gate cfg) (gate_recorded (domain_of c) d) from to /\
  range_recorded c (ch_router cfg) (router_recorded d) from to /\
  range_recorded c (ch_pool cfg) (pool_recorded c d) from to.
Definition covered (d : Tables) (c b : Z) : Prop :=
  forall cfg, chain_cfg c = Some cfg -> all_recorded cfg d (ch_start_block cfg) b.

(** * What every statement keeps *)

Definition cursor_ok (d : Tables) (c b : Z) : Prop := 0 <= b /\ covered d c b.
Record indexed_ok (d : Tables) : Prop := {
  io_tables : tables_ok vs d;
  io_markers : markers_ok d;
  io_known : kept d0 d;
  io_cursors : forall c b, db_cursors d !! c = Some b -> cursor_ok d c b;
}.
Definition indexed_step (d d' : Tables) : Prop := indexed_ok d' /\ kept d d'.

Abbreviation lasting := (Interleave.lasting indexed_ok indexed_step).
Abbreviation rely := (Interleave.rely (E := DbError) indexed_ok indexed_step).
Abbreviation keeps := (guarded (E := DbError) indexed_ok indexed_step).
Abbreviation anything := (fun _ => True).

(** What outlives every kept row, swap and intent. *)
Definition survives (P : Tables -> Prop) : Prop := forall d d', kept d d' -> P d -> P d'.
Lemma survives_lasting P : survives P -> lasting P.
Proof using Type. intros H d d' _ HP [_ Hk]. by eapply H. Qed.
Lemma at_row_survives id P : (forall r r', row_kept r r' -> P r -> P r') -> survives (fun d => at_row d id P).
Proof using Type.
  intros HP d d' Hk (r & Hr & H). destruct (kp_rows _ _ Hk _ _ Hr) as (r' & Hr' & Hrk). exists r'. split; [done|].
  by eapply HP.
Qed.
Lemma seen_survives id : survives (fun d => at_row d id seen).
Proof using Type. apply at_row_survives. intros r r' Hk [t Ht]. exists t. by apply (rk_sent _ _ Hk). Qed.
Lemma claimed_survives id : survives (fun d => at_row d id is_claimed).
Proof using Type. apply at_row_survives. intros r r' Hk. apply (rk_claimed _ _ Hk). Qed.
Lemma unwound_survives id : survives (fun d => at_row d id is_unwound).
Proof using Type. apply at_row_survives. intros r r' Hk. apply (rk_unwound _ _ Hk). Qed.
Lemma intent_survives id : survives (fun d => id ∈ dom (db_swap_bridges d)).
Proof using Type. intros d d' Hk. apply (kp_swaps _ _ Hk). Qed.
Lemma swap_survives key : survives (fun d => is_Some (db_swaps d !! key)).
Proof using Type. intros d d' Hk [x Hx]. exists x. eapply lookup_weaken; [exact Hx|]. apply (kp_swaps _ _ Hk). Qed.
Lemma gate_survives domain log : survives (fun d => gate_recorded domain d log).
Proof using Type.
  intros d d' Hk H. unfold gate_recorded in *. destruct (gate_sent log) as [ev|].
  { intros r Hr Hs. eapply seen_survives; eauto. }
  destruct (gate_claimed log); [intros Hn; eapply claimed_survives; eauto|].
  destruct (gate_cancelled log); [intros Hn; eapply unwound_survives; eauto|].
  destruct (gate_refunded log); [intros Hn; eapply unwound_survives; eauto|done].
Qed.
Lemma pool_survives c log : survives (fun d => pool_recorded c d log).
Proof using Type. intros d d' Hk. unfold pool_recorded. destruct (pool_swapped log); [by apply swap_survives|done]. Qed.
Lemma router_survives log : survives (fun d => router_recorded d log).
Proof using Type. intros d d' Hk. unfold router_recorded. destruct (router_swap_bridged log); [by apply intent_survives|done]. Qed.
Lemma range_survives c a (rec : Tables -> Log -> Prop) from to : (forall log, survives (fun d => rec d log)) ->
  survives (fun d => range_recorded c a (rec d) from to).
Proof using Type. intros Hs d d' Hk H a' n log Ha Hn Hin. eapply Hs; eauto. Qed.
Lemma all_survives cfg from to : survives (fun d => all_recorded cfg d from to).
Proof using Type.
  intros d d' Hk (H1 & H2 & H3). split_and!.
  - exact (range_survives _ _ _ _ _ (gate_survives _) _ _ Hk H1).
  - exact (range_survives _ _ _ _ _ router_survives _ _ Hk H2).
  - exact (range_survives _ _ _ _ _ (pool_survives _) _ _ Hk H3).
Qed.
Lemma covered_survives c b : survives (fun d => covered d c b).
Proof using Type. intros d d' Hk H cfg Hc. eapply all_survives; eauto. Qed.

Lemma step_refl d : indexed_ok d -> indexed_step d d.
Proof using Type. by split. Qed.
Lemma step_keeps d d' : indexed_ok d -> indexed_step d d' -> indexed_ok d'.
Proof using Type. by intros _ [? _]. Qed.
(** ** Steps *)

Lemma effect_cursors d e d' : effect vs d e d' ->
  match e with ECursor c b => db_cursors d' = <[c := b]> (db_cursors d) | _ => db_cursors d' = db_cursors d end.
Proof using Type.
  assert (Hu : forall id g f d, db_cursors (update_submission id g f d).1 = db_cursors d).
  { intros id g f x. unfold update_submission. destruct (db_submissions x !! id) as [r|]; [destruct (g r)|]; done. }
  assert (Hi : forall id record now d, db_cursors (insert_submission_row id record now d) = db_cursors d).
  { intros id record now x. unfold insert_submission_row. by destruct (db_submissions x !! id). }
  destruct 1 as [|d' ? ? ? ? ? ?| |id h record now|id h record sig existing now d' u Hb Ha H|id h kind sig now d' u Hk Hb Ha H| | | | | | | |];
    try done; try apply Hu; try apply Hi.
  - unfold merge_signature in H. set (d1 := if existing then _ else _) in H.
    assert (E : db_cursors d1 = db_cursors d).
    { unfold d1, backfill_token. destruct existing; [destruct (bool_decide (rec_token record = [])); [done|apply Hu]|apply Hi]. }
    clearbody d1. apply result_bind_Ok in H as (u1 & _ & H). case_bool_decide; [done|].
    destruct (db_signatures d1 !! _); injection H as <- _; [done|]. by rewrite Hu.
  - unfold merge_attestation in H. apply result_bind_Ok in H as (u1 & _ & H). case_bool_decide; [done|].
    by destruct (db_attestations d !! _); injection H as <- _.
  - unfold fold_marker. destruct (db_lifecycle d !! id); [apply Hu|done].
Qed.
Lemma effect_step d e d' : indexed_ok d -> legal e -> effect vs d e d' ->
  match e with ECursor c b => cursor_ok d c b | _ => True end -> indexed_step d d'.
Proof using HL ALL AT.
  intros [H1 H2 H3 H4] Hl He Hc. pose proof (effect_kept _ _ _ _ Hl H2 He) as Hk. split; [|done]. split.
  - by eapply effect_ok.
  - by eapply effect_markers_ok.
  - by etransitivity.
  - intros c b Hb. assert (H : cursor_ok d c b); [|split; [apply H|by eapply covered_survives, H]]. apply effect_cursors in He.
    destruct e; try (rewrite He in Hb; by apply H4). rewrite He in Hb.
    apply lookup_insert_Some in Hb as [[-> ->]|[_ Hb]]; [done|by apply H4].
Qed.
(** Calls whose statements leave the cursors alone. *)
Definition ordinary (e : Effect) : Prop := legal e /\ match e with ECursor _ _ => False | _ => True end.
Lemma does_keeps {A} (Q : A -> Prop) (p : T A) : guarded (tables_ok vs) (within vs ordinary) Q p -> keeps Q p.
Proof using HL ALL AT.
  intros Hp. eapply guarded_weaken; [exact Hp|by intros d [? _ _ _]|]. intros d d' Hd (e & [Hl Hc] & He).
  eapply effect_step; [done|exact Hl|exact He|]. by destruct e.
Qed.
Lemma rely_does {A} (Q : A -> Prop) (P : Tables -> Prop) (p : T A) : survives P ->
  guarded (tables_ok vs) (within vs ordinary) Q p -> rely (fun a d => Q a /\ P d) P p.
Proof using HL ALL AT. intros HP Hp. apply rely_guarded; [by apply survives_lasting|by apply does_keeps]. Qed.
(** A statement that establishes a fact. *)
Lemma rely_does_sql {A} (Q : A -> Tables -> Prop) (P P' : Tables -> Prop) (f : Z -> Tables -> Tables * A) e : survives P' ->
  ordinary e -> (forall t d, effect vs d e (f t d).1) -> (forall t d, indexed_ok d -> P d -> P' (f t d).1) ->
  (forall t d d', indexed_ok d -> P d -> P' d' -> Q (f t d).2 d') -> rely Q P (sql f).
Proof using HL ALL AT.
  intros HP [Hl Hc] He Hf HQ. apply rely_sql. intros t d Hd HPd. split.
  - eapply effect_step; [done|exact Hl|apply He|]. by destruct e.
  - exists P'. split_and!; [by apply survives_lasting|by apply Hf|]. intros d' _. by apply HQ.
Qed.

Lemma rely_lift_bind {A B} (Q : B -> Tables -> Prop) P (r : result DbError A) (f : A -> T B) :
  (forall a, r = Ok a -> rely Q P (f a)) -> rely Q P (lift r ≫= f).
Proof using Type. intros H. destruct r as [a|e]; [by apply H|]. by constructor. Qed.
Lemma rely_after {A} (P F : Tables -> Prop) (p : T A) : survives F -> (forall d, P d -> F d) ->
  guarded (tables_ok vs) (within vs ordinary) anything p -> rely (fun _ d => F d) P p.
Proof using HL ALL AT.
  intros HF HPF Hp. eapply rely_pre; [|intros d _; apply HPF].
  eapply rely_mono; [by apply rely_does|]. by intros a d _ [_ ?].
Qed.

(** ** Handlers *)

Abbreviation present d id := (at_row d id (fun _ => True)).
Lemma present_survives id : survives (fun d => present d id).
Proof using Type. by apply at_row_survives. Qed.
Lemma update_at d id g f (P : SubmissionRow -> Prop) : present d id ->
  (forall r, g r = true -> P (f r)) -> (forall r, g r = false -> P r) -> at_row (update_submission id g f d).1 id P.
Proof using Type.
  intros (r & Hr & _) H1 H2. unfold update_submission. rewrite Hr. destruct (g r) eqn:Eg; cbn.
  - exists (f r). split; [|by apply H1]. cbn. by rewrite lookup_insert_eq.
  - exists r. split; [done|]. by apply H2.
Qed.
Lemma inserted_at id record now d : present (insert_submission_row id record now d) id.
Proof using Type.
  unfold insert_submission_row, at_row. destruct (db_submissions d !! id); eexists; (split; [|done]); cbn; by rewrite lookup_insert_eq.
Qed.
Lemma rely_observe record : rely (fun _ d => at_row d (norm_id (rec_submission_id record)) seen) anything (observe_submission record).
Proof using HL ALL AT.
  unfold observe_submission. apply rely_lift_bind. intros h Hb. set (id := norm_id (rec_submission_id record)).
  eapply (rely_bind _ _ (fun _ d => present d id)).
  { apply (rely_does_sql _ _ _ _ (EInsert id) (present_survives id)); [done| |intros; apply inserted_at|done].
    intros t d. by apply (DoInsert _ _ _ h). }
  intros _. eapply (rely_bind _ _ (fun _ d => at_row d id seen)).
  { apply (rely_does_sql _ _ _ _ (EVouch id) (seen_survives id)); [done|intros; apply DoVouch| |done].
    intros t d _ Hd. apply update_at; [done| |].
    - intros r _. by exists t.
    - intros r Hr%bool_decide_eq_false. unfold seen. by destruct (row_sent_observed_at r) as [x|]; [exists x|]. }
  intros _. apply rely_after; [apply seen_survives|done|]. by apply does_apply.
Qed.
Lemma rely_mark field g f marker submission_id tx (F : SubmissionRow -> Prop) : let id := norm_id submission_id in
  survives (fun d => at_row d id F) ->
  (exists tx', f tx = claim_lifecycle tx' \/ f tx = cancel_lifecycle tx' \/ f tx = refund_lifecycle tx') ->
  (exists tx', marker tx = claimed_marker tx' \/ marker tx = cancelled_marker tx' \/ marker tx = refunded_marker tx') ->
  (forall t r, g r = true -> F (touch t (on_lifecycle (f tx) r))) -> (forall r, g r = false -> F r) ->
  rely (fun _ d => is_Some (db_submissions d0 !! id) -> at_row d id F) anything
    (mark_with field g f marker submission_id tx Park).
Proof using HL ALL AT.
  intros id HF Hf Hm H1 H2. assert (Hsurv : survives (fun d => is_Some (db_submissions d0 !! id) -> at_row d id F)).
  { intros d d' Hk H Hn. eapply HF; eauto. }
  unfold mark_with. apply rely_lift_bind. intros i Hi. apply result_bind_Ok in Hi as (u & _ & [= <-]). fold id.
  apply rely_lift_bind. intros _ _.
  eapply (rely_bind _ _ (fun _ d => is_Some (db_submissions d0 !! id) -> at_row d id F)).
  - apply (rely_does_sql _ _ _ _ (EMark id (f tx)) Hsurv); [by split|intros; apply DoMark| |done].
    intros t d Hd _ [r0 Hr0]. apply update_at; [|by apply H1|by apply H2].
    destruct (kp_rows _ _ (io_known _ Hd) _ _ Hr0) as (r & Hr & _). by exists r.
  - intros b. apply rely_after; [exact Hsurv|done|]. apply does_park_if_missing; [done| |by intros _; split_and!].
    apply (does_sql _ _ _ (EMark id (f tx))); [by split|]. constructor.
Qed.
Lemma rely_gate_log domain log : rely (fun _ d => gate_recorded domain d log) anything (handle_gate_log domain log).
Proof using HL ALL AT.
  unfold handle_gate_log, gate_recorded. destruct (gate_sent log) as [ev|].
  { destruct (record_from_sent_event ev domain) as [record|]; [|apply rely_ret; by intros].
    destruct (check_storable record) as [u|e] eqn:Es.
    - eapply rely_mono; [apply rely_observe|]. intros u0 d _ H r Hr _. by simplify_eq.
    - apply rely_ret. intros d _ _ r [= <-]. congruence. }
  destruct (gate_claimed log) as [id|].
  { apply (rely_mark _ _ _ _ _ _ is_claimed); [apply claimed_survives|by eexists; left|by eexists; left|done|done]. }
  destruct (gate_cancelled log) as [id|].
  { apply (rely_mark _ _ _ _ _ _ is_unwound); [apply unwound_survives|by eexists; right; left|by eexists; right; left|by left|].
    intros r Hr%negb_false_iff%bool_decide_eq_true. by right. }
  destruct (gate_refunded log) as [id|].
  { apply (rely_mark _ _ _ _ _ _ is_unwound); [apply unwound_survives|by eexists; right; right|by eexists; right; right|by right|done]. }
  apply rely_ret. by intros.
Qed.
Lemma rely_pool_log c log : rely (fun _ d => pool_recorded c d log) anything (handle_pool_log c log).
Proof using HL ALL AT.
  unfold handle_pool_log, pool_recorded. destruct (pool_swapped log) as [ev|]; [|apply rely_ret; by intros].
  unfold record_swap. do 7 (apply rely_lift_bind; intros ? _).
  set (key := (c, to_ascii_lowercase (tx_hash log), as_u 32 (default 0 (log_index log)))).
  apply (rely_does_sql _ _ _ _ EOther (swap_survives key)); [done| | |done].
  - intros t d. constructor; [done..|]. split; [|done]. cbn. fold key. destruct (db_swaps d !! key) eqn:E; [done|by apply insert_subseteq].
  - intros t d _ _. cbn. fold key. destruct (db_swaps d !! key) as [r|] eqn:E; [by exists r|]. eexists. apply lookup_insert_eq.
Qed.
Lemma rely_router_log log : rely (fun _ d => router_recorded d log) anything (handle_router_log log).
Proof using HL ALL AT.
  unfold handle_router_log, router_recorded. destruct (router_swap_bridged log) as [ev|].
  - unfold record_swap_bridge_intent. apply rely_lift_bind. intros id Hid. apply result_bind_Ok in Hid as (u & _ & [= <-]).
    do 5 (apply rely_lift_bind; intros ? _). set (id := norm_id _).
    eapply (rely_bind _ _ (fun _ d => id ∈ dom (db_swap_bridges d))).
    + apply rely_transaction; [apply step_refl|]. intros t d d' u0 Hd _ H.
      assert (He : effect vs d EOther d' /\ id ∈ dom (db_swap_bridges d')).
      { destruct (db_swap_bridges d !! id) as [b|] eqn:E.
        - injection H as <- _. split; [by apply others_same|]. apply elem_of_dom. by exists b.
        - case_bool_decide; [done|]. injection H as <- _. split; [apply others_intent|]. cbn. rewrite dom_insert. by apply elem_of_union_l, elem_of_singleton. }
      destruct He as [He Hin]. split; [by apply (effect_step d EOther d')|].
      exists (fun d => id ∈ dom (db_swap_bridges d)). split_and!; [apply survives_lasting, intent_survives|done|done].
    + intros _. apply rely_after; [apply intent_survives|done|]. by apply does_apply_finalize.
  - apply rely_after; [done|done|]. destruct (router_finalized log) as [[id amount]|]; [by apply does_finalized|].
    destruct (router_finalize_deferred log); [apply does_ret|].
    destruct (router_finalize_fallback log) as [[id amount]|]; [by apply does_finalized|apply does_ret].
Qed.

(** ** Scans *)

Lemma rely_handle_all (handler : Log -> T unit) (rec : Tables -> Log -> Prop) logs :
  (forall log, survives (fun d => rec d log)) -> (forall log, rely (fun _ d => rec d log) anything (handler log)) ->
  rely (fun _ d => forall l, l ∈ logs -> rec d (il_log l)) anything (handle_all handler logs).
Proof using Type.
  intros Hs Hh. induction logs as [|l logs IH]; cbn; [apply rely_ret; by intros ? _ _ ? ?%elem_of_nil|].
  eapply rely_bind; [apply Hh|]. intros u. eapply rely_mono.
  - eapply rely_pre; [apply (rely_frame _ _ _ _ (fun d => rec d (il_log l)) _ (survives_lasting _ (Hs _)) IH)|]. by intros.
  - intros v d _ [H1 H2] x [->|?]%elem_of_cons; [done|by apply H1].
Qed.

(** A node that holds the last block of a range, and answers with it together with the logs,
    has returned every log of the contract in the range. *)
Definition vouches (c : Z) (address : evm_address) (a : ScanAnswers) : Prop :=
  forall from to logs block, sa_batch a address from to = Ok (logs, Some block) -> hd_number block = to ->
    (forall l, l ∈ logs -> log_block_number (il_log l) = Some to -> il_block_hash l = Some (hd_hash block)) ->
    forall n log, from <= n <= to -> log ∈ chain_logs c address n ->
      log_removed log = false /\ exists h, MkIndexedLog log h ∈ logs.
Lemma fetched_all c address a w to logs : vouches c address a -> fetch_window a address w = Ok (Some (to, logs)) ->
  forall n log, wd_from_block w <= n <= to -> log ∈ chain_logs c address n -> exists h, MkIndexedLog log h ∈ logs.
Proof using Type.
  intros Hv H n log Hn Hin. unfold fetch_window in H. apply result_bind_Ok in H as (endpoint_head & _ & H).
  destruct (clamp_scan_window _ _ _ _) as [to'|]; [|done]. apply result_bind_Ok in H as ([logs' block] & Hb & H).
  destruct (window_end_vouched to' block logs') eqn:Ew; [|done]. cbn [negb] in H. injection H as -> <-.
  unfold window_end_vouched in Ew. destruct block as [block|]; [|done].
  apply andb_true_iff in Ew as [En%Z.eqb_eq Ef]. rewrite forallb_forall in Ef.
  destruct (Hv _ _ _ _ Hb En) with (n := n) (log := log) as [Hr [h Hh]]; [|done|done|].
  { intros l Hl%list_elem_of_In Hl'. apply Ef, orb_true_iff in Hl as [H|H%bool_decide_eq_true]; [|done].
    by apply negb_true_iff, bool_decide_eq_false in H. }
  exists h. apply list_elem_of_In, filter_In. split; [|by cbn; rewrite Hr].
  apply list_elem_of_In. by rewrite (sort_by_key_Permutation _ _ _).
Qed.
Lemma fetched_nonneg address a w to logs : 0 <= wd_from_block w -> 0 <= wd_to_block w ->
  fetch_window a address w = Ok (Some (to, logs)) -> 0 <= to.
Proof using Type.
  intros H1 H2 H. unfold fetch_window in H. apply result_bind_Ok in H as (endpoint_head & _ & H).
  destruct (clamp_scan_window _ _ _ _) as [to'|] eqn:Ec; [|done]. apply clamp_scan_window_Some in Ec as [-> Hc].
  apply result_bind_Ok in H as ([logs' block] & _ & H). destruct (window_end_vouched _ _ _); [|done]. cbn [negb] in H.
  injection H as <- _. lia.
Qed.
Lemma rely_scan c address a w handler (rec : Tables -> Log -> Prop) : vouches c address a ->
  0 <= wd_from_block w -> 0 <= wd_to_block w -> (forall log, survives (fun d => rec d log)) -> (forall log, rely (fun _ d => rec d log) anything (handler log)) ->
  rely (fun o d => forall b, o = Some b -> 0 <= b /\ range_recorded c (Some address) (rec d) (wd_from_block w) b) anything
    (scan a address w handler).
Proof using Type.
  intros Hv Hw1 Hw2 Hs Hh. unfold scan. destruct (fetch_window a address w) as [[[to logs]|]|e] eqn:Ef.
  - eapply rely_bind; [by apply (rely_handle_all _ rec)|]. intros u. apply rely_ret. intros d _ H b [= <-]. split; [by eapply fetched_nonneg|]. intros a' n log [= <-] Hn Hin.
    destruct (fetched_all _ _ _ _ _ _ Hv Ef n log Hn Hin) as [h Hl]. exact (H _ Hl).
  - apply rely_ret. by intros.
  - by constructor.
Qed.

(** The scans of a turn so far: what they cover, if none failed. *)
Definition scanned (P : Tables -> Z -> Prop) (acc : bool * option Z) (d : Tables) : Prop :=
  acc.1 = true -> forall b, acc.2 = Some b -> 0 <= b /\ P d b.
Definition shrinks (P : Tables -> Z -> Prop) : Prop := forall d b b', P d b -> b' <= b -> P d b'.
Lemma range_shrinks c a (rec : Tables -> Log -> Prop) from : shrinks (fun d b => range_recorded c a (rec d) from b).
Proof using Type. intros d b b' H Hb a' n log Ha Hn. apply H; [done|lia]. Qed.
Lemma rely_scan_contract c address a w handler (rec : Tables -> Log -> Prop) (P : Tables -> Z -> Prop) acc :
  (forall x, address = Some x -> vouches c x a) -> 0 <= wd_from_block w -> 0 <= wd_to_block w ->
  (forall log, survives (fun d => rec d log)) ->
  (is_Some address -> forall log, rely (fun _ d => rec d log) anything (handler log)) ->
  (forall b, survives (fun d => P d b)) -> shrinks P ->
  rely (scanned (fun d b => P d b /\ range_recorded c address (rec d) (wd_from_block w) b)) (scanned P acc)
    (scan_contract address a w handler acc).
Proof using Type.
  intros Hv Hw1 Hw2 Hs Hh HP Hsh. unfold scan_contract. destruct address as [address|].
  2:{ apply rely_ret. intros d _ H H1 b H2. destruct (H H1 b H2). split_and!; [done..|]. by intros a' n log [=]. }
  assert (HPs : survives (scanned P acc)).
  { intros d d' Hk H H1 b H2. destruct (H H1 b H2). split; [done|]. by eapply HP. }
  eapply rely_bind.
  { eapply (rely_caught _ _ _ _ (scanned P acc)); [by apply survives_lasting|by intros|].
    eapply rely_pre; [by apply (rely_scan c address a w handler rec); [apply Hv|..|apply Hh; eexists]|by intros]. }
  intros r. apply rely_ret. intros d _ [Hacc Hr]. destruct r as [o|e]; [|by intros [=]].
  intros Hok b Hb. cbn in Hok, Hb. destruct (acc.2) as [x|] eqn:E1, o as [y|]; cbn in Hb; try done. injection Hb as <-.
  destruct (Hacc Hok x E1) as [Hx1 Hx2], (Hr _ eq_refl y eq_refl) as [Hy1 Hy2]. split_and!; [lia| |].
  - eapply Hsh; [exact Hx2|lia].
  - eapply (range_shrinks _ _ rec); [exact Hy2|lia].
Qed.

(** ** Turns *)

Definition turn_vouches (cfg : ChainCfg) (a : TurnAnswers) : Prop :=
  let c := ch_chain_id cfg in
  (forall x, ch_gate cfg = Some x -> vouches c x (ta_gate a)) /\
  (forall x, ch_router cfg = Some x -> vouches c x (ta_router a)) /\
  (forall x, ch_pool cfg = Some x -> vouches c x (ta_pool a)).
(** Everything before the block the loop reads next. *)
Definition reached (cfg : ChainCfg) (d : Tables) (from : Z) : Prop :=
  0 <= from /\ all_recorded cfg d (ch_start_block cfg) (from - 1).
Lemma reached_survives cfg from : survives (fun d => reached cfg d from).
Proof using Type. intros d d' Hk [? H]. split; [done|by eapply all_survives]. Qed.
Lemma range_join c a (rec : Log -> Prop) s from to : range_recorded c a rec s (from - 1) -> range_recorded c a rec from to ->
  range_recorded c a rec s to.
Proof using Type.
  intros H1 H2 x n log Ha Hn. destruct (Z_lt_le_dec n from); [apply H1|apply H2]; try done; lia.
Qed.
Lemma reached_next cfg d b : all_recorded cfg d (ch_start_block cfg) b -> 0 <= b -> reached cfg d (as_u 64 (b + 1)).
Proof using Type.
  intros (H1 & H2 & H3) Hb. unfold as_u. pose proof (Z.mod_pos_bound (b + 1) (2 ^ 64) ltac:(lia)).
  pose proof (Z.mod_le (b + 1) (2 ^ 64) ltac:(lia) ltac:(lia)). split; [lia|].
  split_and!; (eapply (range_shrinks _ _ (fun _ => _) _ d); [eassumption|lia]).
Qed.
Lemma rely_read {A} (P : Tables -> Prop) (f : Z -> Tables -> A) (Q : A -> Tables -> Prop) : survives P ->
  (forall t d d', indexed_ok d -> P d -> P d' -> kept d d' -> Q (f t d) d') -> rely Q P (sql (fun t d => (d, f t d))).
Proof using Type.
  intros HP HQ. apply rely_sql. intros t d Hd HPd. split; [by apply step_refl|].
  exists (fun d' => P d' /\ kept d d'). split_and!; [|done|done|].
  - intros d1 d2 _ [H1 H2] [_ Hk]. split; [by eapply HP|by etransitivity].
  - intros d' _ [H1 H2]. by apply HQ.
Qed.
Lemma rely_turn cfg domain a st : chain_cfg (ch_chain_id cfg) = Some cfg -> turn_vouches cfg a ->
  (is_Some (ch_gate cfg) -> domain = domain_of (ch_chain_id cfg)) ->
  rely (fun st' d => reached cfg d (lp_from_block st')) (fun d => reached cfg d (lp_from_block st)) (chain_turn cfg domain a st).
Proof using HL ALL AT.
  intros Hcfg (Hv1 & Hv2 & Hv3) Hdom. set (c := ch_chain_id cfg) in *. set (F := fun d => reached cfg d (lp_from_block st)).
  assert (HF : survives F) by apply reached_survives.
  unfold chain_turn. destruct (latest_head cfg a st) as [cached|]; [|apply rely_ret; by intros].
  destruct (Z.ltb_spec (saturating_sub (default 0 cached) (ch_block_confirmation cfg)) (lp_from_block st)) as [|Hfrom];
    [apply rely_ret; by intros|].
  eapply (rely_pre _ _ _ (fun d => 0 <= lp_from_block st /\ F d)); [|intros d _ H; split; [apply H|done]].
  apply rely_when. intros H0. set (to := Z.min _ _). assert (Hto : 0 <= to).
  { subst to. unfold as_u. pose proof (Z.mod_pos_bound (lp_from_block st + ch_max_block_range cfg - 1) (2 ^ 64) ltac:(lia)). lia. }
  set (w := MkWindow _ _ _).
  set (P1 := fun (d : Tables) (b : Z) => True /\ range_recorded c (ch_gate cfg) (gate_recorded (domain_of c) d) (wd_from_block w) b).
  set (P2 := fun d b => P1 d b /\ range_recorded c (ch_router cfg) (router_recorded d) (wd_from_block w) b).
  set (P3 := fun d b => P2 d b /\ range_recorded c (ch_pool cfg) (pool_recorded c d) (wd_from_block w) b).
  assert (S1 : (forall b, survives (fun d => P1 d b)) /\ shrinks P1).
  { split; [intros b d d' Hk [_ H]; split; [done|exact (range_survives _ _ _ _ _ (gate_survives _) _ _ Hk H)]|].
    intros d b b' [_ H] Hb. split; [done|]. exact (range_shrinks _ _ (gate_recorded _) _ _ _ _ H Hb). }
  assert (S2 : (forall b, survives (fun d => P2 d b)) /\ shrinks P2).
  { split; [intros b d d' Hk [H1 H]; split; [exact (proj1 S1 b _ _ Hk H1)|exact (range_survives _ _ _ _ _ router_survives _ _ Hk H)]|].
    intros d b b' [H1 H] Hb. split; [exact (proj2 S1 _ _ _ H1 Hb)|]. exact (range_shrinks _ _ router_recorded _ _ _ _ H Hb). }
  eapply (rely_bind _ _ (fun r d => scanned P1 r d /\ F d)).
  { eapply (rely_pre _ _ _ (fun d => scanned (fun _ _ => True) (true, Some to) d /\ F d)); [|intros d _ HFd; split; [|done]].
    - apply rely_frame; [by apply survives_lasting|].
      apply (rely_scan_contract c _ _ _ _ (gate_recorded (domain_of c)) (fun _ _ => True)); try done; [apply gate_survives|].
      intros Hg log. rewrite (Hdom Hg). apply rely_gate_log.
    - intros _ b [= <-]. done. }
  intros r1. eapply (rely_bind _ _ (fun r d => scanned P2 r d /\ F d)).
  { apply rely_frame; [by apply survives_lasting|].
    apply (rely_scan_contract c _ _ _ _ router_recorded P1); try done; [apply router_survives|intros _; apply rely_router_log|apply S1..]. }
  intros r2. eapply (rely_bind _ _ (fun r d => scanned P3 r d /\ F d)).
  { apply rely_frame; [by apply survives_lasting|].
    apply (rely_scan_contract c _ _ _ _ (pool_recorded c) P2); try done; [apply pool_survives|intros _; apply rely_pool_log|apply S2..]. }
  intros [ok scanned_to]. destruct ok; [|apply rely_ret; by intros d _ [_ ?]].
  destruct scanned_to as [b|]; [|apply rely_ret; by intros d _ [_ ?]].
  set (G := fun d => 0 <= b /\ all_recorded cfg d (ch_start_block cfg) b).
  assert (HG : survives G) by (intros d d' Hk [? H]; split; [done|by eapply all_survives]).
  eapply (rely_pre _ _ _ (fun d => G d /\ F d)).
  2:{ intros d _ [H HFd]. split; [|done]. destruct (H eq_refl b eq_refl) as (Hb & [[_ R1] R2] & R3).
      destruct HFd as (_ & A1 & A2 & A3). split; [done|]. split_and!; by eapply range_join. }
  eapply (rely_bind _ _ (fun r d => (G d /\ F d) /\ forall u, r = Ok u -> True)).
  { eapply (rely_caught _ _ _ _ (fun d => G d /\ F d)); [|by intros|].
    - intros d d' _ [H1 H2] [_ Hk]. split; [by eapply HG|by eapply HF].
    - apply rely_sql. intros t d Hd [[Hb HGd] _]. split; [|exists (fun _ => True); by split_and!].
      apply (effect_step d (ECursor c b)); [done|done|apply DoCursor|]. split; [done|]. intros cfg' Hc'. by simplify_eq. }
  intros r. apply rely_ret. intros d _ [[[Hb HGd] HFd] _]. destruct r; [by apply reached_next|done].
Qed.
Lemma rely_loop cfg domain l st : chain_cfg (ch_chain_id cfg) = Some cfg -> Forall (turn_vouches cfg) l ->
  (is_Some (ch_gate cfg) -> domain = domain_of (ch_chain_id cfg)) ->
  rely (fun _ _ => True) (fun d => reached cfg d (lp_from_block st)) (chain_loop cfg domain l st).
Proof using HL ALL AT.
  intros Hc Hl Hd. revert st. induction Hl as [|a l Ha Hl IH]; intros st; cbn; [by apply rely_ret|].
  eapply rely_bind; [by apply rely_turn|]. exact IH.
Qed.

(** * The deployment *)

Lemma rely_first_block cfg : chain_cfg (ch_chain_id cfg) = Some cfg -> 0 <= ch_start_block cfg ->
  rely (fun from d => reached cfg d from) anything (first_block cfg).
Proof using Type.
  intros Hc H0. assert (Hstart : forall d, reached cfg d (ch_start_block cfg)).
  { intros d. split; [done|]. split_and!; intros a n log _ Hn; lia. }
  unfold first_block. eapply rely_bind.
  { eapply (rely_caught _ _ (fun o d => forall b, o = Some b -> cursor_ok d (ch_chain_id cfg) b) _ (fun _ => True)); [done|done|].
    apply rely_read; [done|]. intros t d d' Hd _ _ Hk b Hb. destruct (io_cursors _ Hd _ _ Hb) as [? H]. split; [done|].
    by eapply covered_survives. }
  intros r. apply rely_ret. intros d _ [_ Hr]. destruct r as [[b|]|e]; [|done..].
  destruct (Hr _ eq_refl b eq_refl) as [Hb H]. apply reached_next; [by apply H|done].
Qed.
Lemma first_answer_elem {A} (l : list (result unit A)) x : first_answer l = Some x -> Ok x ∈ l.
Proof using Type. induction l as [|[a|e] l IH]; cbn; [done|intros [= <-]; by left|intros H; right; by apply IH]. Qed.

Variable holds : text -> Prop.
(** The requests, the hourly collection, the sweeps, and the loop of any chain, as often as
    it is started. *)
Inductive deployed : T unit -> Prop :=
  | RunsServer p : served server holds p -> deployed p
  | RunsSweep timeout : deployed (DbSafety.discard (sweep_refund_eligible timeout))
  | RunsIndexer cfg ids domains l : chain_cfg (ch_chain_id cfg) = Some cfg -> 0 <= ch_start_block cfg ->
      (forall x, Ok x ∈ domains -> x = domain_of (ch_chain_id cfg)) -> Forall (turn_vouches cfg) l ->
      deployed (run_chain cfg ids domains l).
Lemma served_ordinary e : served_effects server holds e -> ordinary e.
Proof using Type.
  unfold ordinary. destruct e; cbn; try by intros (t & _ & []); try by split. all: by intros; split.
Qed.
Lemma deployed_rely p : deployed p -> rely (fun _ _ => True) anything p.
Proof using HL ALL AT.
  intros [q Hq|timeout|cfg ids domains l Hc H0 Hdom Hl].
  - apply rely_after; [done|done|]. eapply guarded_weaken; [by apply served_does|done|].
    intros d d' _ (e & He & Hd). exists e. split; [by apply served_ordinary|done].
  - apply rely_after; [done|done|]. apply does_discard. by apply does_sweep.
  - unfold run_chain. case_bool_decide; [by constructor|]. destruct (first_answer ids) as [id|]; [|by apply rely_ret].
    destruct (negb _); [by constructor|].
    assert (Hgo : forall dom, (is_Some (ch_gate cfg) -> dom = domain_of (ch_chain_id cfg)) ->
      rely (fun _ _ => True) anything (from_block ← first_block cfg; chain_loop cfg dom l (MkLoopState from_block None))).
    { intros dom Hd. eapply rely_bind; [by apply rely_first_block|]. intros from. by apply (rely_loop cfg dom l (MkLoopState from None)). }
    destruct (ch_gate cfg) as [g|]; [|apply Hgo; by intros []].
    destruct (first_answer domains) as [dom|] eqn:Ed; [|by apply rely_ret]. apply Hgo. intros _.
    by apply Hdom, first_answer_elem.
Qed.

(** C12. A cursor passes only what is written down. On endpoints that, when they answer with
    the last block of a range, return every log of it ([vouches]), and whatever requests,
    sweeps and indexer loops run against the database at the same time, each breaking off
    anywhere and restarting as often as it likes: when the cursor of a chain stands at a
    block, the events its contracts logged from the configured start up to that block are in
    the database as follows. A [Sent] that makes a record the store can hold has its row,
    marked as seen on its chain (one that cannot be stored is passed over, as the code
    does); of the transfers that had a row when the run began, one that was claimed is
    claimed, and one that was cancelled or refunded is one of the two; swaps and the intents
    of swaps across the bridge are there. Nothing is said of the events by which a swap
    across the bridge is finalized. *)
Theorem cursor_passes_only_recorded y c b : indexed_ok d0 -> rtc (sys_step deployed) (MkSystem d0 []) y ->
  db_cursors (sys_state y) !! c = Some b -> covered (sys_state y) c b.
Proof using HL ALL AT.
  intros H0 H. apply (relied_steps deployed indexed_ok indexed_step step_refl step_keeps deployed_rely) in H as [[Hy _] _].
  - intros Hb. by apply (io_cursors _ Hy).
  - by split.
Qed.
End IndexerSafety.
