(* ===== verification/ValidatorSafety.v ===== *)
(** What a validator signs and how its cursors move, over any answers of the nodes, the
    store, the disk and the operator: the composition of the corroborated window
    (Failover.v), the event handling (Validator.v) and the scale guard (ScaleGuard.v). *)

From S2P Require Import Prelude.
From S2P Require Import SolanaRuntime.
From S2P Require Import Text.
From S2P Require Import ListSort.
From S2P Require Import Quorum.
From S2P Require Import Effects.
From S2P Require Import Failover.
From S2P Require Import Endpoints.
From S2P Require Import Allowlist.
From S2P Require Import GateTypes.
From S2P Require Import HostRecord.
From S2P Require Import SigStore.
From S2P Require Import ScannerState.
From S2P Require Import ScaleGuard.
From S2P Require Import Validator.
From S2P Require CoreHash.

Lemma accepts_app p l p' m p'' : accepts p l p' -> accepts p' m p'' -> accepts p (l ++ m) p''.
Proof. induction 1 as [|p f t n l p' Hc Ha IH]; [done|]. intros H. constructor; [done|by apply IH]. Qed.
Lemma accepts_cursor p l p' : accepts p l p' -> p_last_block p' = p_last_block p.
Proof. induction 1 as [|p f t n l p' Hc Ha IH]; [done|]. by rewrite IH. Qed.

Section ValidatorSafety.
Context {RT : Runtime} {HX : HexCodec} {AL : Alloy} {GB : GateBorsh}.
Context {NW : Network} {ND : Nodes} {SR : ScaleReads} {SK : HostSigner} {VW : ValidatorWorld}.
Variable cf : ScanConfig.

(** ** What the world is assumed to be *)

Variables (eps : list Endpoint) (honest : nat -> bool).
(** The events of this gate in a range of blocks. *)
Variable chain : Z -> Z -> list LogKey.
Variables (honest_peer : Endpoint -> Prop) (honest_url : text -> Prop).
Variables (truth : Z -> hash32 -> option Z -> Prop) (configured : Z -> Prop).

(** At most one endpoint of the source chain is not honest; an honest one serves the chain. *)
Hypothesis one_liar : forall i j, i <> j -> honest i = true \/ honest j = true.
Hypothesis honest_logs : forall i e h from to l, honest i = true -> eps !! i = Some e -> head_said e h ->
  to <= saturating_sub h (cf_block_confirmation cf) -> logs_said e (MkFilter (cf_gate cf) (cf_sent_sig cf) from to) l ->
  live_keys l ≡ₚ chain from to.

(** Nobody operates the scanner. *)
Definition calm : Prop := forall t, operator_at t = [].

(** ** Events and posts *)

Abbreviation Post := (SubmissionRecord * SignerSig * result unit unit)%type.
Definition key_event (k : LogKey) : option EvmSent := let '(_, _, _, address, topics, data) := k in decode_sent address topics data.
Definition sig_for (id : hash32) : SignerSig := MkSignerSig (hex0x (arr_bytes (cf_signer cf))) (sign id).
Definition acked (posts : list Post) (id : hash32) : Prop := exists record, (record, sig_for id, Ok tt) ∈ posts.

(** A post the validator may make, for an event at [k], under [allowlist]. *)
Definition vouched (allowlist : option Allowlist) (k : LogKey) (post : Post) : Prop := exists ev record submission,
  key_event k = Some ev /\ record_from_sent_event ev (cf_bridge_domain cf) = Some record /\
  submission_from_sent_event ev (cf_bridge_domain cf) = Some submission /\
  CoreHash.compute_id submission = es_submission_id ev /\ check_storable record = Ok tt /\
  blocked allowlist ev (rec_chain_id_from record) (rec_chain_id_to record) = false /\
  truth (rec_chain_id_to record) (es_debridge_id ev) (Some (es_bridge_decimals ev)) /\
  post.1 = (record, sig_for (es_submission_id ev)).

(** Why an event is done with, and the nonce it consumes. *)
Inductive disposed (allowlist : option Allowlist) (posts : list Post) (ev : EvmSent) : list (Z * Z * Z) -> Prop :=
  | Aliased : record_from_sent_event ev (cf_bridge_domain cf) = None -> disposed allowlist posts ev []
  | Undecodable n : sent_event_u64s ev = Some n -> submission_from_sent_event ev (cf_bridge_domain cf) = None ->
      disposed allowlist posts ev [n]
  | Unstorable n record : sent_event_u64s ev = Some n -> record_from_sent_event ev (cf_bridge_domain cf) = Some record ->
      check_storable record <> Ok tt -> disposed allowlist posts ev [n]
  | Blocked n : sent_event_u64s ev = Some n -> blocked allowlist ev n.1.1 n.1.2 = true -> disposed allowlist posts ev [n]
  | Misscaled n : sent_event_u64s ev = Some n ->
      (~ configured n.1.2 \/ exists d, truth n.1.2 (es_debridge_id ev) d /\ d <> Some (es_bridge_decimals ev)) ->
      disposed allowlist posts ev [n]
  | Stored n : sent_event_u64s ev = Some n -> acked posts (es_submission_id ev) -> disposed allowlist posts ev [n].

Lemma acked_app posts new id : acked posts id -> acked (posts ++ new) id.
Proof using Type. intros [r H]. exists r. apply elem_of_app. by left. Qed.
Lemma disposed_app al posts new ev ns : disposed al posts ev ns -> disposed al (posts ++ new) ev ns.
Proof using Type.
  intros []; [by apply Aliased|by apply Undecodable|by eapply Unstorable|by apply Blocked|by apply Misscaled|].
  apply Stored; [done|by apply acked_app].
Qed.

(** ** The invariant of the loop *)

Record loop_ok (s : Scanner) : Prop := {
  lo_eps : fo_endpoints (sc_failover s) = eps;
  lo_wf : fo_wf (sc_failover s);
  lo_guard : guard_ok honest_peer honest_url truth configured (sc_scale s);
  lo_stored : forall id, id ∈ bp_stored (sc_progress s) -> acked (sc_posts s) id;
  lo_cap : 1 <= sc_window_cap s <= Z.max (cf_max_block_range cf) 1;
}.
Definition grows (P : Post -> Prop) (s s' : Scanner) : Prop := exists new, sc_posts s' = sc_posts s ++ new /\ Forall P new.

(** What others do to the shared state while the loop waits. *)
Definition noise (s s' : Scanner) : Prop :=
  exists p f, s' = upd_file f (upd_persist p s) /\ (calm -> p = sc_persist s).

Lemma noise_refl s : noise s s.
Proof using Type. exists (sc_persist s), (sc_file s). by destruct s. Qed.
Lemma noise_trans s1 s2 s3 : noise s1 s2 -> noise s2 s3 -> noise s1 s3.
Proof using Type. intros (p & f & -> & H1) (p' & f' & -> & H2). exists p', f'. split; [done|]. intros Hc. rewrite (H2 Hc). by apply H1. Qed.
Lemma noise_ok s s' : noise s s' -> loop_ok s -> loop_ok s'.
Proof using Type. intros (p & f & -> & _) []. by constructor. Qed.
Lemma noise_posts s s' : noise s s' -> sc_posts s' = sc_posts s.
Proof using Type. by intros (p & f & -> & _). Qed.
Lemma noise_calm s s' : noise s s' -> calm -> sc_persist s' = sc_persist s.
Proof using Type. intros (p & f & -> & H) Hc. by apply H. Qed.
Lemma grows_refl P s s' : sc_posts s' = sc_posts s -> grows P s s'.
Proof using Type. intros E. exists []. by rewrite E, app_nil_r. Qed.
Lemma grows_trans P s1 s2 s3 : grows P s1 s2 -> grows P s2 s3 -> grows P s1 s3.
Proof using Type. intros (n1 & E1 & H1) (n2 & E2 & H2). exists (n1 ++ n2). rewrite E2, E1, app_assoc. split; [done|by apply Forall_app]. Qed.
Lemma grows_mono (P Q : Post -> Prop) s s' : (forall p, P p -> Q p) -> grows P s s' -> grows Q s s'.
Proof using Type. intros H (n & E & Hn). exists n. split; [done|]. by eapply Forall_impl. Qed.

Lemma save_wp Q s : (forall f, Q (Ok tt) (upd_file f s)) -> wp save Q s.
Proof using Type.
  intros H. unfold save. apply wp_bind, wp_ask. intros t. destruct (save_at t); [apply wp_modify, H|].
  apply wp_ret. specialize (H (sc_file s)). by destruct s.
Qed.
Lemma operator_acts_wp l s : wp (operator_acts l) (fun r s' => r = Ok tt /\ exists p f, s' = upd_file f (upd_persist p s) /\ (l = [] -> s' = s)) s.
Proof using Type.
  revert s. induction l as [|a l IH]; intros s; cbn [operator_acts].
  - apply wp_ret. split; [done|]. exists (sc_persist s), (sc_file s). by destruct s.
  - apply wp_bind, wp_modify, wp_bind, save_wp. intros f. eapply wp_mono; [apply IH|].
    intros r s' (-> & p & f' & -> & _). split; [done|]. by exists p, f'.
Qed.
Lemma await_point_wp Q s : (forall s', noise s s' -> Q (Ok tt) s') -> wp await_point Q s.
Proof using Type.
  intros H. unfold await_point. apply wp_bind, wp_ask. intros t. eapply wp_mono; [apply operator_acts_wp|].
  intros r s' (-> & p & f & -> & Hn). apply H. exists p, f. split; [done|]. intros Hc.
  specialize (Hn (Hc t)). apply (f_equal sc_persist) in Hn. exact Hn.
Qed.

(** ** One event *)

Definition log_event (l : Log) : option EvmSent := decode_sent (log_address l) (log_topics l) (log_data l).
Definition handled (allowlist : option Allowlist) (l : Log) (s : Scanner) (r : result unit bool) (s' : Scanner) : Prop :=
  loop_ok s' /\ grows (vouched allowlist (log_key l)) s s' /\
  (calm -> match r with
   | Ok true => exists ev ns, log_event l = Some ev /\ disposed allowlist (sc_posts s') ev ns /\
       accepts (sc_persist s) ns (sc_persist s')
   | _ => p_last_block (sc_persist s') = p_last_block (sc_persist s)
   end).
(** Between the start of an event's handling and now. *)
Definition meanwhile (P : Post -> Prop) (s0 s : Scanner) : Prop :=
  loop_ok s /\ grows P s0 s /\ (calm -> sc_persist s = sc_persist s0).

Lemma meanwhile_noise P s0 s s' : meanwhile P s0 s -> noise s s' -> meanwhile P s0 s'.
Proof using Type.
  intros (Hok & Hg & Hp) Hn. split_and!; [by eapply noise_ok| |].
  - eapply grows_trans; [exact Hg|]. apply grows_refl. by apply noise_posts.
  - intros Hc. by rewrite (noise_calm _ _ Hn Hc), Hp.
Qed.

Lemma withhold_wp al l s0 s ev from to nonce : meanwhile (vouched al (log_key l)) s0 s -> log_event l = Some ev ->
  check_nonce (sc_persist s0) from to nonce = Accept -> disposed al (sc_posts s) ev [(from, to, nonce)] ->
  wp (withhold from to nonce) (handled al l s0) s.
Proof using Type.
  intros Hm Hev Hn Hd. apply wp_bind, await_point_wp. intros s' Hns.
  pose proof (meanwhile_noise _ _ _ _ Hm Hns) as ([] & Hg & Hp).
  apply wp_bind, wp_modify, wp_ret. split_and!; [by constructor|done|]. intros Hc. exists ev, [(from, to, nonce)].
  split_and!; [done|by rewrite <- (noise_posts _ _ Hns) in Hd|]. cbn. rewrite (Hp Hc). by repeat constructor.
Qed.
Lemma halt_wp al l s0 s reason : meanwhile (vouched al (log_key l)) s0 s -> wp (halt reason) (handled al l s0) s.
Proof using Type.
  intros ([] & Hg & Hp). apply wp_bind, wp_modify, wp_bind, save_wp. intros f. apply wp_ret.
  split_and!; [by constructor|done|]. intros Hc. cbn. by rewrite (Hp Hc).
Qed.

Lemma record_numbers ev domain record : record_from_sent_event ev domain = Some record ->
  sent_event_u64s ev = Some (rec_chain_id_from record, rec_chain_id_to record, rec_nonce record).
Proof using Type. unfold record_from_sent_event. destruct (sent_event_u64s ev) as [[[f t] n]|]; [|done]. by intros [= <-]. Qed.

(** The event at hand has passed every check before the scale's. *)
Record passed (al : option Allowlist) (l : Log) (s0 : Scanner) (ev : EvmSent) (record : SubmissionRecord)
    (submission : CoreHash.Submission) : Prop := {
  ps_event : log_event l = Some ev;
  ps_record : record_from_sent_event ev (cf_bridge_domain cf) = Some record;
  ps_nonce : check_nonce (sc_persist s0) (rec_chain_id_from record) (rec_chain_id_to record) (rec_nonce record) = Accept;
  ps_submission : submission_from_sent_event ev (cf_bridge_domain cf) = Some submission;
}.

Lemma post_wp al l s0 s ev record submission : passed al l s0 ev record submission ->
  meanwhile (vouched al (log_key l)) s0 s -> CoreHash.compute_id submission = es_submission_id ev ->
  check_storable record = Ok tt -> blocked al ev (rec_chain_id_from record) (rec_chain_id_to record) = false ->
  truth (rec_chain_id_to record) (es_debridge_id ev) (Some (es_bridge_decimals ev)) ->
  wp (post cf ev record (rec_chain_id_from record) (rec_chain_id_to record) (rec_nonce record)) (handled al l s0) s.
Proof using Type.
  intros [Hev Hrec Hn Hsub] ([He Hwf Hg Hst Hcap] & Hgr & Hp) Hid Hstor Hbl Htr.
  apply wp_bind, wp_ask. intros t. apply wp_bind, wp_modify, wp_bind, wp_try.
  change (MkSignerSig _ _) with (sig_for (es_submission_id ev)).
  set (answer := upsert_at t record _). set (s1 := upd_posts (sc_posts s ++ [(record, sig_for (es_submission_id ev), answer)]) s).
  assert (grows (vouched al (log_key l)) s0 s1) as Hgr1.
  { eapply grows_trans; [exact Hgr|]. exists [(record, sig_for (es_submission_id ev), answer)]. split; [done|].
    apply Forall_singleton. by exists ev, record, submission. }
  assert (forall id, id ∈ bp_stored (sc_progress s) -> acked (sc_posts s1) id) as Hst1 by (intros; by apply acked_app, Hst).
  destruct answer as [[]|[]] eqn:Ea.
  - apply wp_bind, wp_modify. apply (withhold_wp al l s0 _ ev); [|done|done|].
    + split_and!; [constructor; [done|done|done| |done]|done|done]. cbn. intros id [->%elem_of_singleton|Hin]%elem_of_union; [|by apply Hst1].
      exists record. apply elem_of_app. right. by apply list_elem_of_singleton.
    + apply Stored; [by apply record_numbers with (domain := cf_bridge_domain cf)|]. exists record. apply elem_of_app. right. by apply list_elem_of_singleton.
  - split_and!; [by constructor|done|]. intros Hc. cbn. by rewrite (Hp Hc).
Qed.

Lemma handle_submission_wp al l s0 s ev record submission : passed al l s0 ev record submission ->
  meanwhile (vouched al (log_key l)) s0 s ->
  wp (handle_submission cf al ev record submission (rec_chain_id_from record) (rec_chain_id_to record) (rec_nonce record))
    (handled al l s0) s.
Proof using Type.
  intros Hps Hm. pose proof Hps as [Hev Hrec Hn Hsub]. pose proof (record_numbers _ _ _ Hrec) as Hnum.
  unfold handle_submission. case_bool_decide as Hid.
  2:{ apply wp_bind, await_point_wp. intros s' Hns. apply halt_wp. by eapply meanwhile_noise. }
  destruct (check_storable record) as [[]|x] eqn:Hst.
  2:{ apply (withhold_wp al l s0 s ev); [done..|]. eapply Unstorable; [done|done|]. by rewrite Hst. }
  destruct (blocked al ev _ _) eqn:Hbl.
  { apply (withhold_wp al l s0 s ev); [done..|]. by apply Blocked. }
  destruct Hm as ([He Hwf Hg Hstd Hcap] & Hgr & Hp).
  apply wp_bind, wp_on_part. eapply wp_mono; [by eapply scale_verdict_wp|]. intros r g' [Hg' Hv].
  assert (meanwhile (vouched al (log_key l)) s0 (upd_scale g' s)) as Hm' by (split_and!; [by constructor|done|done]).
  destruct r as [v|[]].
  2:{ destruct Hm' as (H1 & H2 & H3). split_and!; [done|done|]. intros Hc. by rewrite (H3 Hc). }
  destruct v as [d|a b|why]; cbn in Hv.
  - destruct Hv as [-> Htr]. apply wp_bind, wp_get. case_bool_decide as Hin; [|by eapply post_wp].
    apply (withhold_wp al l s0 _ ev); [done..|]. apply Stored; [done|]. by apply Hstd.
  - destruct Hv as (-> & Hne & Htr). apply (withhold_wp al l s0 _ ev); [done..|]. apply Misscaled; [done|]. right.
    exists (Some b). split; [done|]. by intros [= ->].
  - apply (withhold_wp al l s0 _ ev); [done..|]. apply Misscaled; [done|]. destruct Hv as [?|?]; [by left|right; by exists None].
Qed.

Lemma handle_log_wp al l s : loop_ok s -> wp (handle_log cf al l) (handled al l s) s.
Proof using Type.
  intros Hok. assert (meanwhile (vouched al (log_key l)) s s) as Hm by (split_and!; [done|by apply grows_refl|done]).
  unfold handle_log. apply wp_bind, wp_expect.
  2:{ intros _. split_and!; [done|by apply grows_refl|done]. }
  intros ev Hev. destruct (record_from_sent_event ev _) as [record|] eqn:Hrec.
  2:{ apply wp_ret. split_and!; [done|by apply grows_refl|]. intros _. exists ev, []. split_and!; [done|by apply Aliased|constructor]. }
  apply wp_bind, wp_get. destruct (check_nonce _ _ _ _) eqn:Hn; [|by apply halt_wp|by apply halt_wp].
  destruct (submission_from_sent_event ev _) as [submission|] eqn:Hsub.
  - apply handle_submission_wp; [by constructor|done].
  - apply (withhold_wp al l s s ev); [done..|]. apply Undecodable; [by eapply record_numbers|done].
Qed.

(** ** One batch *)

(** A post for one of these logs. *)
Definition vouched_in (al : option Allowlist) (logs : list Log) (p : Post) : Prop := exists l, l ∈ logs /\ vouched al (log_key l) p.
(** Every log is done with, its nonces in order. *)
Definition all_disposed (al : option Allowlist) (logs : list Log) (posts : list Post) (numbers : list (list (Z * Z * Z))) : Prop :=
  Forall2 (fun l ns => exists ev, log_event l = Some ev /\ disposed al posts ev ns) logs numbers.
Definition batch_done (al : option Allowlist) (logs : list Log) (s : Scanner) (r : result unit BatchEnd) (s' : Scanner) : Prop :=
  loop_ok s' /\ grows (vouched_in al logs) s s' /\ exists e, r = Ok e /\
  (calm -> match e with
   | Processed => exists numbers, all_disposed al logs (sc_posts s') numbers /\
       accepts (sc_persist s) (concat numbers) (sc_persist s')
   | _ => p_last_block (sc_persist s') = p_last_block (sc_persist s)
   end).

Lemma handle_logs_wp al logs s : loop_ok s -> wp (handle_logs cf al logs) (batch_done al logs s) s.
Proof using Type.
  revert s. induction logs as [|l logs IH]; intros s Hok; cbn [handle_logs].
  { apply wp_ret. split_and!; [done|by apply grows_refl|]. exists Processed. split; [done|]. intros _. exists [].
    split; [constructor|constructor]. }
  apply wp_bind, wp_attempt. eapply wp_mono; [by apply handle_log_wp|]. intros r s1 (Hok1 & Hg1 & Hd1).
  apply wp_bind, await_point_wp. intros s2 Hns. pose proof (noise_ok _ _ Hns Hok1) as Hok2.
  assert (grows (vouched_in al (l :: logs)) s s2) as Hg2.
  { eapply grows_trans; [|by apply grows_refl, noise_posts]. eapply grows_mono; [|exact Hg1]. intros p Hp. exists l. split; [left|done]. }
  assert (calm -> p_last_block (sc_persist s1) = p_last_block (sc_persist s) -> p_last_block (sc_persist s2) = p_last_block (sc_persist s)) as Hcur.
  { intros Hc. by rewrite (noise_calm _ _ Hns Hc). }
  destruct r as [[|]|x]; [|apply wp_ret; split_and!; [done|done|]; exists PausedAt; split; [done|]; auto
    |apply wp_ret; split_and!; [done|done|]; exists FailedAt; split; [done|]; auto].
  eapply wp_mono; [by apply IH|]. intros r s3 (Hok3 & Hg3 & e & -> & He). split_and!; [done| |exists e; split; [done|]].
  { eapply grows_trans; [exact Hg2|]. eapply grows_mono; [|exact Hg3]. intros p (l' & Hl & Hv). exists l'. split; [by right|done]. }
  intros Hc. specialize (He Hc). destruct (Hd1 Hc) as (ev & ns & Hev & Hds & Hac). rewrite (noise_calm _ _ Hns Hc) in He.
  destruct e; [|by rewrite He, (accepts_cursor _ _ _ Hac)..].
  destruct He as (nss & Hall & Hac2). exists (ns :: nss). split; [constructor; [|done]|cbn [concat]; by eapply accepts_app].
  exists ev. split; [done|]. rewrite <- (noise_posts _ _ Hns) in Hds. destruct Hg3 as (new & -> & _). by apply disposed_app.
Qed.

(** The cursors moved over [logs], or not at all. *)
Definition moved (logs : list Log) (scanned_to : Z) (s s' : Scanner) : Prop :=
  p_last_block (sc_persist s') = p_last_block (sc_persist s) /\ p_nonces (sc_persist s') = p_nonces (sc_persist s) \/
  exists t view al kept numbers p, allowlist_at t = Ok view /\ check (cf_policy cf) view = Ok al /\
    kept ⊆ live logs /\ NoDup (map (fun l => log_pos l) kept) /\
    (forall l, l ∈ live logs -> exists m, m ∈ kept /\ log_key m = log_key l) /\
    all_disposed al kept (sc_posts s') numbers /\ accepts (sc_persist s) (concat numbers) p /\
    sc_persist s' = set_last_block scanned_to p.
(** A post for one of the live logs, under a served list that the policy lets pass. *)
Definition lawful (logs : list Log) (p : Post) : Prop := exists t view al,
  allowlist_at t = Ok view /\ check (cf_policy cf) view = Ok al /\ vouched_in al (live logs) p.

Lemma live_chain_order logs l : l ∈ live (chain_order logs) <-> l ∈ live logs.
Proof using Type. unfold chain_order. by rewrite !list_elem_of_filter, sort_by_key_Permutation. Qed.

Lemma process_window_wp from to logs s : loop_ok s ->
  wp (process_window cf from to logs) (fun _ s' => loop_ok s' /\ grows (lawful logs) s s' /\ (calm -> moved logs to s s')) s.
Proof using Type.
  intros Hok. assert (forall s', noise s s' -> loop_ok s' /\ grows (lawful logs) s s' /\ (calm -> moved logs to s s')) as Hquit.
  { intros s' Hn. split_and!; [by eapply noise_ok|by apply grows_refl, noise_posts|]. intros Hc. left. by rewrite (noise_calm _ _ Hn Hc). }
  unfold process_window. destruct (dedupe_logs (live (chain_order logs))) as [[kept dropped]|pos] eqn:Hd; [|by apply wp_ret, Hquit, noise_refl].
  apply dedupe_kept in Hd as (Hsub & _ & Hpos & Hall). apply wp_bind, wp_ask. intros t. apply wp_bind, await_point_wp. intros s1 Hn1.
  destruct (allowlist_at t) as [view|x] eqn:Hview; cbn [mbind result_bind]; [|by apply wp_ret, Hquit].
  destruct (check (cf_policy cf) view) as [al|x] eqn:Hal; cbn [map_err]; [|by apply wp_ret, Hquit].
  apply wp_bind, wp_get, wp_bind, await_point_wp. intros s2 Hn2. pose proof (noise_trans _ _ _ Hn1 Hn2) as Hn.
  assert (loop_ok (upd_progress (for_window from (sc_progress s2)) s2)) as Hok2.
  { destruct (noise_ok _ _ Hn Hok) as [He Hw Hg Hst Hcap]. constructor; [done|done|done| |done]. cbn. unfold for_window. by case_bool_decide. }
  apply wp_bind, wp_modify, wp_bind. eapply wp_mono; [by apply handle_logs_wp|]. intros r s3 (Hok3 & Hg3 & e & -> & He).
  assert (forall l, l ∈ kept -> l ∈ live logs) as Hkept.
  { intros l Hl. apply live_chain_order. by eapply elem_of_sublist. }
  assert (grows (lawful logs) s s3) as Hgr.
  { eapply grows_trans; [by apply grows_refl, (noise_posts _ _ Hn)|]. destruct Hg3 as (new & E & Hnew).
    exists new. split; [exact E|]. eapply Forall_impl; [exact Hnew|]. intros p (l & Hl & Hv). exists t, view, al. split_and!; [done|done|]. exists l. auto. }
  destruct Hok3. apply wp_bind. destruct e; apply wp_modify, save_wp; intros f; (split_and!; [by constructor|done|]); intros Hc;
    specialize (He Hc); pose proof (noise_calm _ _ Hn Hc) as Hp; pose proof (noise_calm _ _ Hn1 Hc) as Hp1; cbn in He.
  - right. rewrite Hp in He. destruct He as (nss & Hds & Hac). exists t, view, al, kept, nss, (sc_persist s3).
    split_and!; [done|done|done|done| |done|done|done]. intros l Hl. apply live_chain_order in Hl. destruct (Hall l Hl) as (m & ? & _ & ?). eauto.
  - left. rewrite Hp in He. cbn. unfold nonce_snapshot. by rewrite Hp1.
  - left. rewrite Hp in He. cbn. unfold nonce_snapshot. by rewrite Hp1.
Qed.

(** ** One window *)

Lemma scan_head_keeps fo : fo_wf fo -> wp scan_head (fun _ fo' => fo_endpoints fo' = fo_endpoints fo /\ fo_wf fo') fo.
Proof using Type.
  intros Hwf. unfold scan_head. apply wp_bind, wp_get, wp_bind. eapply wp_mono; [by apply (ask_heads_wp fo 0)|].
  intros r fo1 (-> & heads & report & -> & _). apply wp_bind, wp_modify. destruct (majority_floor _) as [head|]; [|by apply wp_fail].
  apply wp_bind. destruct (match _ with None => _ | Some h => _ end); [|by apply wp_ret, wp_ret].
  destruct (rotate_to _ _ _ _) as [i|] eqn:Hr; [|by apply wp_ret, wp_ret].
  apply wp_modify, wp_ret. split; [done|]. unfold rotate_to in Hr. apply find_some in Hr as [Hin _].
  apply in_map_iff in Hin as (k & <- & _). apply (mod_in fo _ Hwf).
Qed.

(** An honest endpoint has this block behind the confirmation distance. *)
Definition settled_block (to : Z) : Prop := exists i e h, honest i = true /\ eps !! i = Some e /\ head_said e h /\
  to <= saturating_sub h (cf_block_confirmation cf).
(** A post for an event of the chain, under a served list that the policy lets pass. *)
Definition genuine (p : Post) : Prop := exists from to k t view al,
  k ∈ chain from to /\ settled_block to /\
  allowlist_at t = Ok view /\ check (cf_policy cf) view = Ok al /\ vouched al k p.
(** Both cursors moved past a window of the chain, all of whose events are done with. *)
Definition advanced (from : Z) (s s' : Scanner) : Prop := exists to t view al kept numbers p,
  (from + Z.max (cf_max_block_range cf) 1 <= 2 ^ 64 -> from <= to) /\ settled_block to /\
  allowlist_at t = Ok view /\ check (cf_policy cf) view = Ok al /\
  NoDup (map (fun l => log_pos l) kept) /\ (forall k, k ∈ chain from to <-> k ∈ map log_key kept) /\
  all_disposed al kept (sc_posts s') numbers /\ accepts (sc_persist s) (concat numbers) p /\
  sc_persist s' = set_last_block to p.
Definition stayed (s s' : Scanner) : Prop :=
  p_last_block (sc_persist s') = p_last_block (sc_persist s) /\ p_nonces (sc_persist s') = p_nonces (sc_persist s).
Definition progressed (from : Z) (s s' : Scanner) : Prop :=
  loop_ok s' /\ grows genuine s s' /\ (calm -> stayed s s' \/ advanced from s s').

Lemma progressed_noise from s s' : loop_ok s -> noise s s' -> progressed from s s'.
Proof using Type.
  intros Hok Hn. split_and!; [by eapply noise_ok|by apply grows_refl, noise_posts|]. intros Hc. left.
  unfold stayed. by rewrite (noise_calm _ _ Hn Hc).
Qed.
(** Steps that only touch what the scanner forgets at a restart. *)
Lemma progressed_local from s s1 s' : sc_posts s1 = sc_posts s -> (calm -> sc_persist s1 = sc_persist s) ->
  progressed from s1 s' -> progressed from s s'.
Proof using Type.
  intros E1 E2 (Hok & Hg & Hm). split_and!; [done| |].
  - eapply grows_trans; [by apply grows_refl|done].
  - intros Hc. destruct (Hm Hc) as [Hs|(to & t & view & al & kept & nss & p & H)].
    + left. unfold stayed in *. by rewrite <- (E2 Hc).
    + right. exists to, t, view, al, kept, nss, p. by rewrite <- (E2 Hc).
Qed.

Lemma heed_ok v s : loop_ok s -> loop_ok (heed cf v s).2 /\ sc_posts (heed cf v s).2 = sc_posts s /\
  sc_persist (heed cf v s).2 = sc_persist s.
Proof using Type.
  intros [He Hw Hg Hst Hcap]. destruct v; (split_and!; [constructor; try done; cbn; cbn in Hcap|done|done]); unfold u_max in *; try lia.
  - pose proof (Z.div_lt_upper_bound (sc_window_cap s) 2 (sc_window_cap s)). lia.
Qed.

Hypothesis corroborated : cf_require cf = true \/ (2 <= length eps)%nat.

Lemma process_agreed from to to_block logs s v s1 fo' i : loop_ok s ->
  outcome eps (MkFilter (cf_gate cf) (cf_sent_sig cf) from to_block) from to_block (cf_block_confirmation cf) i fo'
    (Ok (Some (logs, to, v))) ->
  (from + Z.max (cf_max_block_range cf) 1 <= 2 ^ 64 -> from <= to_block) ->
  heed cf v s = (true, s1) -> loop_ok s1 ->
  wp (process_window cf from to logs) (fun _ s' => progressed from s1 s') s1.
Proof using one_liar honest_logs corroborated.
  intros Hok Hout Hne Hheed Hok1.
  assert (exists url, v = Agreed url) as [url ->].
  { destruct v as [url|a b d| |]; [eauto|discriminate Hheed|discriminate Hheed|].
    apply outcome_Unavailable in Hout. cbn in Hheed. injection Hheed as Hreq _. destruct (cf_require cf); [done|].
    destruct corroborated; [done|lia]. }
  destruct (agreed_true (MkFilter (cf_gate cf) (cf_sent_sig cf) from to_block) from to_block (cf_block_confirmation cf)
    (MkFailover eps 0 []) (chain from) honest one_liar) with (s := i) (fo' := fo') (served := logs) (to := to) (url := url)
    as (Hkeys & Hpos & Hle & Hge & Hconf); [|exact Hout|].
  { intros j e h to' l Hj He Hh Hto Hl. by eapply honest_logs. }
  cbn in Hconf. eapply wp_mono; [by apply process_window_wp|]. intros r s' (Hok' & Hg & Hm). split_and!; [done| |].
  - eapply grows_mono; [|exact Hg]. intros p (t & view & al & Hview & Hal & l & Hl & Hv).
    exists from, to, (log_key l), t, view, al. split_and!; [|done..]. rewrite <- Hkeys. by apply live_key_in.
  - intros Hc. destruct (Hm Hc) as [Hs|(t & view & al & kept & nss & p & H1 & H2 & Hsub & H3 & Hall & H4 & H5 & H6)]; [by left|right].
    exists to, t, view, al, kept, nss, p. split_and!; try done; [intros; by apply Hge, Hne|].
    intros k. rewrite <- Hkeys. unfold live_keys. rewrite !list_elem_of_fmap. split.
    + intros (l & -> & Hl). destruct (Hall l Hl) as (m & Hm' & E). by exists m.
    + intros (l & -> & Hl). exists l. split; [done|by apply Hsub].
Qed.

Lemma scan_window_wp from confirmed s : loop_ok s -> is_u 64 from -> from <= confirmed ->
  wp (scan_window cf from confirmed) (fun _ s' => progressed from s s') s.
Proof using one_liar honest_logs corroborated.
  intros Hok Hu Hle. pose proof Hok as [He Hwf Hg Hst Hcap]. unfold scan_window. apply wp_bind, wp_get. cbv zeta.
  set (to_block := Z.min _ _). assert (from + Z.max (cf_max_block_range cf) 1 <= 2 ^ 64 -> from <= to_block) as Hne.
  { intros H. subst to_block. unfold as_u, is_u in *. rewrite Z.mod_small by lia. lia. }
  apply wp_bind, wp_attempt, wp_on_part. eapply wp_mono; [by apply get_logs_corroborated_wp|].
  intros r fo' (He' & Hwf' & i & Hout & _). rewrite He in He', Hout.
  apply wp_bind, await_point_wp. intros s1 Hn.
  assert (loop_ok (upd_failover fo' s)) as Hok0 by (by constructor).
  pose proof (noise_ok _ _ Hn Hok0) as Hok1.
  assert (forall s', progressed from s1 s' -> progressed from s s') as Hback.
  { intros s' H. eapply progressed_local; [| |exact H]; [by rewrite (noise_posts _ _ Hn)|]. intros Hc. by rewrite (noise_calm _ _ Hn Hc). }
  destruct r as [[[[logs to] v]|]|x].
  - apply wp_bind, wp_get. destruct (heed cf v s1) as [b s2] eqn:Hh. destruct (heed_ok v s1 Hok1) as (Hok2 & Ep & Es).
    rewrite Hh in Hok2, Ep, Es. cbn in Hok2, Ep, Es. apply wp_bind, wp_modify.
    assert (forall s', progressed from s2 s' -> progressed from s s') as Hback2.
    { intros s' H. apply Hback. eapply progressed_local; [exact Ep| |exact H]. by intros _. }
    destruct b; [|by apply wp_ret, Hback2, progressed_noise, noise_refl].
    eapply wp_mono; [eapply process_agreed; [exact Hok1|exact Hout|exact Hne|exact Hh|done]|]. intros r s' H. by apply Hback2.
  - apply wp_modify, Hback. eapply (progressed_local _ _ (upd_cached None s1)); [done|done|].
    apply progressed_noise; [by destruct Hok1; constructor|apply noise_refl].
  - by apply wp_ret, Hback, progressed_noise, noise_refl.
Qed.

(** ** The loop *)

Lemma scan_tick_wp s : loop_ok s -> wp (scan_tick cf) (fun _ s' => exists from, progressed from s s' /\
  (calm -> from = next_block (sc_persist s))) s.
Proof using one_liar honest_logs corroborated.
  intros Hok. unfold scan_tick. apply wp_bind, wp_get. destruct (p_paused _).
  { apply await_point_wp. intros s' Hn. exists (next_block (sc_persist s)). split; [by apply progressed_noise|done]. }
  apply wp_bind, await_point_wp. intros s1 Hn1. pose proof (noise_ok _ _ Hn1 Hok) as Hok1.
  apply wp_bind, wp_get. cbv zeta. set (from := next_block _). assert (is_u 64 from) as Hu by (apply Z.mod_pos_bound; lia).
  apply wp_bind, wp_modify. set (s2 := note_idle from s1).
  assert (loop_ok s2 /\ sc_posts s2 = sc_posts s1 /\ sc_persist s2 = sc_persist s1) as (Hok2 & Ep2 & Es2).
  { unfold s2, note_idle. destruct Hok1. case_bool_decide; (split_and!; [by constructor|done|done]). }
  assert (forall s', progressed from s2 s' -> exists from', progressed from' s s' /\ (calm -> from' = next_block (sc_persist s))) as Hback.
  { intros s' H. exists from. split; [|intros Hc; unfold from; by rewrite (noise_calm _ _ Hn1 Hc)].
    eapply progressed_local; [| |exact H]; [by rewrite Ep2, (noise_posts _ _ Hn1)|]. intros Hc. by rewrite Es2, (noise_calm _ _ Hn1 Hc). }
  assert (forall s3, loop_ok s3 -> sc_posts s3 = sc_posts s2 -> (calm -> sc_persist s3 = sc_persist s2) ->
    wp (s ← get; let confirmed := saturating_sub (default 0 (sc_cached_latest s)) (cf_block_confirmation cf) in
        if from <=? confirmed then scan_window cf from confirmed else mret tt)
      (fun _ s' => exists from', progressed from' s s' /\ (calm -> from' = next_block (sc_persist s))) s3) as Hrest.
  { intros s3 Hok3 Ep3 Es3. apply wp_bind, wp_get. cbv zeta.
    assert (forall s', progressed from s3 s' -> progressed from s2 s') as Hb3 by (intros s' H; by eapply progressed_local).
    destruct (Z.leb_spec from (saturating_sub (default 0 (sc_cached_latest s3)) (cf_block_confirmation cf))).
    - eapply wp_mono; [by apply scan_window_wp|]. intros r s' H'. by apply Hback, Hb3.
    - by apply wp_ret, Hback, Hb3, progressed_noise, noise_refl. }
  apply wp_bind. destruct (stale_head _ _ _); [|by apply wp_ret, Hrest].
  apply wp_bind, wp_attempt, wp_on_part. eapply wp_mono; [by apply scan_head_keeps, lo_wf|].
  intros r fo' [He' Hwf']. apply wp_bind, await_point_wp. intros s3 Hn3.
  assert (loop_ok (upd_failover fo' s2)) as Hok2' by (destruct Hok2; constructor; try done; by rewrite <- lo_eps0).
  pose proof (noise_ok _ _ Hn3 Hok2') as Hok3. pose proof (noise_posts _ _ Hn3) as Ep3. pose proof (noise_calm _ _ Hn3) as Es3.
  destruct r as [v|x].
  - apply wp_bind, wp_modify, wp_ret, Hrest; [by destruct Hok3; constructor|exact Ep3|exact Es3].
  - apply wp_ret, wp_ret, Hback. eapply progressed_local; [exact Ep3|exact Es3|]. apply progressed_noise; [done|apply noise_refl].
Qed.

Lemma scan_ticks_wp n s : loop_ok s -> wp (scan_ticks cf n) (fun _ s' => loop_ok s' /\ grows genuine s s') s.
Proof using one_liar honest_logs corroborated.
  revert s. induction n as [|n IH]; intros s Hok; cbn [scan_ticks].
  { apply wp_ret. split; [done|by apply grows_refl]. }
  apply wp_bind. eapply wp_mono; [by apply scan_tick_wp|]. intros r s1 (from & (Hok1 & Hg & _) & _).
  destruct r; [|done]. eapply wp_mono; [by apply IH|]. intros r s2 [Hok2 Hg2]. split; [done|by eapply grows_trans].
Qed.

(** C8. A validator only signs what happened. Let it require corroboration or have at
    least two endpoints for its source chain (with a single endpoint and no such
    requirement it signs whatever that endpoint shows), of which at most one lies while the
    others serve the chain's logs, and let its scale guard read each destination through
    two endpoints or more, at most one of which lies ([guard_ok]). Then, however long it runs and whatever the liar, the store, the disk
    and the operator do: each signature it posts is for an event that the source chain holds, in a block an honest endpoint has
    confirmed; the record posted is that event's, its id is recomputed from the event's
    fields, the served allowlist passed the node's own policy and lets the transfer
    through, and the destination chain has registered the very scale the event was sent
    with. *)
Theorem signed_only_genuine n s r s' t t' : loop_ok s -> scan_ticks cf n s t = (r, s', t') ->
  exists new, sc_posts s' = sc_posts s ++ new /\ Forall genuine new.
Proof using one_liar honest_logs corroborated.
  intros Hok Hrun. destruct (wp_run _ _ _ _ _ _ _ (scan_ticks_wp n s Hok) Hrun) as [_ H]. exact H.
Qed.

(** C11. No transfer is passed over. Under the same conditions (corroboration required or
    two endpoints at least, at most one of them lying, for the source and for what the
    scale guard reads) and while
    nobody operates the scanner, a turn of the loop leaves both cursors where they were, or moves the block cursor over a window
    that starts at the next block and is confirmed by an honest endpoint; then the logs
    handled are exactly the chain's events there, the nonces of each corridor were
    accepted in sequence, and every event is done with for good: its signature is in the
    store, or it can never be signed, or the allowlist or the destination's scale forbids
    it. *)
Theorem cursor_passes_only_settled s r s' t t' : loop_ok s -> calm -> scan_tick cf s t = (r, s', t') ->
  stayed s s' \/ advanced (next_block (sc_persist s)) s s'.
Proof using one_liar honest_logs corroborated.
  intros Hok Hc Hrun. destruct (wp_run _ _ _ _ _ _ _ (scan_tick_wp s Hok) Hrun) as (from & (_ & _ & H) & Hf).
  rewrite <- (Hf Hc). by apply H.
Qed.
End ValidatorSafety.

(** * Safety stops and restarts *)

Section Restart.
Context {RT : Runtime} {HX : HexCodec} {AL : Alloy} {GB : GateBorsh}.
Context {NW : Network} {ND : Nodes} {SR : ScaleReads} {SK : HostSigner} {VW : ValidatorWorld}.
Variable cf : ScanConfig.
Hypothesis saves : forall t, save_at t = true.

Definition current (s : Scanner) : Prop := sc_file s = FileHolds (sc_persist s).

Lemma saved_wp s : wp save (fun _ s' => current s') s.
Proof using saves. unfold save. apply wp_bind, wp_ask. intros t. rewrite saves. by apply wp_modify. Qed.
Lemma operator_current l s : current s -> wp (operator_acts l) (fun _ s' => current s') s.
Proof using saves.
  revert s. induction l as [|a l IH]; intros s H; cbn [operator_acts]; [by apply wp_ret|].
  apply wp_bind, wp_modify, wp_bind. eapply wp_mono; [apply saved_wp|]. intros [u|x] s' H'; [by apply IH|done].
Qed.
Lemma await_current Q s : current s -> (forall s', current s' -> Q (Ok tt) s') -> wp await_point Q s.
Proof using saves.
  intros H HQ. apply wp_bind, wp_ask. intros t.
  eapply wp_mono; [apply wp_and; [by apply operator_current|apply operator_acts_wp]|]. intros r s' (Hc & -> & _). by apply HQ.
Qed.

Lemma wp_trivial {S E A} (m : eff S E A) s : wp m (fun _ _ => True) s.
Proof using Type. by intros t. Qed.

Lemma handle_logs_ends al logs s : wp (handle_logs cf al logs) (fun r _ => exists e, r = Ok e) s.
Proof using Type.
  revert s. induction logs as [|l logs IH]; intros s; cbn [handle_logs]; [by apply wp_ret; eauto|].
  apply wp_bind, wp_attempt. eapply wp_mono; [apply wp_trivial|]. intros r s1 _. apply wp_bind, await_point_wp. intros s2 _.
  destruct r as [[]|x]; [apply IH|apply wp_ret; eauto..].
Qed.
Lemma process_current from to logs s : current s -> wp (process_window cf from to logs) (fun _ s' => current s') s.
Proof using saves.
  intros H. unfold process_window. destruct (dedupe_logs _) as [[kept dropped]|pos]; [|by apply wp_ret].
  apply wp_bind, wp_ask. intros t. apply wp_bind, await_current; [done|]. intros s1 H1.
  destruct (_ ≫= _) as [al|x]; [|by apply wp_ret]. apply wp_bind, wp_get, wp_bind, await_current; [done|]. intros s2 H2.
  apply wp_bind, wp_modify, wp_bind.
  assert (forall e s3, wp (_ ← match e with
              | Processed => with_runtime (set_last_block to)
              | _ => with_runtime (restore_nonces (nonce_snapshot (sc_persist s1)))
              end; save) (fun _ s' => current s') s3) as Hend.
  { intros e s3. apply wp_bind. destruct e; apply wp_modify, saved_wp. }
  eapply wp_mono; [apply (handle_logs_ends al kept)|]. intros r s3 (e & ->). apply Hend.
Qed.
Lemma window_current from confirmed s : current s -> wp (scan_window cf from confirmed) (fun _ s' => current s') s.
Proof using saves.
  intros H. apply wp_bind, wp_get. cbv zeta. apply wp_bind, wp_attempt, wp_on_part. eapply wp_mono; [apply wp_trivial|]. intros r fo _.
  apply wp_bind, await_current; [done|]. intros s1 H1. destruct r as [[[[logs to] v]|]|x]; [|by apply wp_modify|by apply wp_ret].
  apply wp_bind, wp_get. destruct (heed cf v s1) as [b s2] eqn:Hh. apply wp_bind, wp_modify.
  assert (current s2) as H2 by (destruct v; injection Hh as _ <-; done). destruct b; [by apply process_current|by apply wp_ret].
Qed.
Lemma tick_current s : current s -> wp (scan_tick cf) (fun _ s' => current s') s.
Proof using saves.
  intros H. apply wp_bind, wp_get. destruct (p_paused _); [by apply await_current|].
  apply wp_bind, await_current; [done|]. intros s1 H1. apply wp_bind, wp_get. cbv zeta. set (from := next_block _).
  apply wp_bind, wp_modify. assert (current (note_idle from s1)) as H2 by (unfold note_idle; by case_bool_decide).
  assert (forall s3, current s3 -> wp (s ← get; let confirmed := saturating_sub (default 0 (sc_cached_latest s)) (cf_block_confirmation cf) in
      if from <=? confirmed then scan_window cf from confirmed else mret tt) (fun _ s' => current s') s3) as Hrest.
  { intros s3 H3. apply wp_bind, wp_get. cbv zeta. destruct (_ <=? _); [by apply window_current|by apply wp_ret]. }
  apply wp_bind. destruct (stale_head _ _ _); [|by apply wp_ret, Hrest].
  apply wp_bind, wp_attempt, wp_on_part. eapply wp_mono; [apply wp_trivial|]. intros r fo _.
  apply wp_bind, await_current; [done|]. intros s3 H3. destruct r as [v|x]; [by apply wp_bind, wp_modify, wp_ret, Hrest|by apply wp_ret, wp_ret].
Qed.
Lemma ticks_current n s : current s -> wp (scan_ticks cf n) (fun _ s' => current s') s.
Proof using saves.
  revert s. induction n as [|n IH]; intros s H; cbn [scan_ticks]; [by apply wp_ret|].
  apply wp_bind. eapply wp_mono; [by apply tick_current|]. intros [u|x] s1 H1; [by apply IH|done].
Qed.

Lemma paused_ticks n s t : calm -> p_paused (sc_persist s) = true -> (scan_ticks cf n s t).1 = (Ok tt, s).
Proof using Type.
  intros Hc Hp. revert t. induction n as [|n IH]; intros t; [done|]. cbn [scan_ticks]. unfold mbind at 1, eff_bind at 1.
  assert (scan_tick cf s t = (Ok tt, s, Datatypes.S t)) as ->; [|apply IH].
  unfold scan_tick. unfold mbind at 1, eff_bind at 1, get. rewrite Hp. unfold await_point, ask, mbind, eff_bind. by rewrite (Hc t).
Qed.

(** C32. A safety stop outlives a crash and lasts until the operator ends it. When the
    state file can be written, what it holds after any number of turns, whatever the
    operator did during them, is what the scanner has in memory, so a restart resumes
    from the same block with the same nonces and the same stop; and while the scanner is
    stopped and nobody operates it, no turn changes anything: nothing is read, signed or
    posted. *)
Theorem halt_survives_restart n s r s' t t' start : current s -> scan_ticks cf n s t = (r, s', t') ->
  load_or_init (sc_file s') start = Ok (sc_persist s') /\
  (calm -> p_paused (sc_persist s) = true -> s' = s).
Proof using saves.
  intros H Hrun. split.
  - by rewrite (wp_run _ _ _ _ _ _ _ (ticks_current n s H) Hrun).
  - intros Hc Hp. pose proof (paused_ticks n s t Hc Hp) as E. rewrite Hrun in E. by injection E.
Qed.
End Restart.

(** * What the store makes of a post *)

Section Posts.
Context {RT : Runtime} {HX : HexCodec} {AL : Alloy} {GB : GateBorsh} {SK : HostSigner}.
Context {HL : HexLaws} {ALL : AlloyLaws} {AP : AlloyParses} {AW : AlloyPrints}.

Lemma numbers_fit ev f t n : sent_event_u64s ev = Some (f, t, n) ->
  f = es_chain_id_from ev /\ t = es_chain_id_to ev /\ n = es_nonce ev.
Proof using Type.
  unfold sent_event_u64s, u64_of_word. destruct (u_checked 64 (es_chain_id_from ev)) as [x|] eqn:E1; [|done]. cbn.
  destruct (u_checked 64 (es_chain_id_to ev)) as [y|] eqn:E2; [|done]. cbn.
  destruct (u_checked 64 (es_nonce ev)) as [z|] eqn:E3; [|done]. cbn. intros [= <- <- <-].
  apply u_checked_Some in E1 as [-> _], E2 as [-> _], E3 as [-> _]. done.
Qed.

(** The store recomputes the id from the record's text. *)
Lemma record_canonical ev domain record submission : record_from_sent_event ev domain = Some record ->
  submission_from_sent_event ev domain = Some submission -> is_u 256 (es_amount ev) ->
  canonical_submission_id record = Ok (CoreHash.compute_id submission).
Proof using AP AW HL.
  intros Hrec Hsub Ha. unfold record_from_sent_event in Hrec. destruct (sent_event_u64s ev) as [[[f t] n]|] eqn:Hn; [|done].
  injection Hrec as <-. apply numbers_fit in Hn as (-> & -> & ->).
  unfold submission_from_sent_event in Hsub. destruct (decode_auto_params _ _) as [auto|] eqn:Hau; [|done]. injection Hsub as <-.
  unfold canonical_submission_id. cbn -[hex_field hex0x u256_dec CoreHash.submission_id CoreHash.submission_id_with_auto CoreHash.compute_id].
  rewrite !b256_printed. cbn [ok_or mbind result_bind]. rewrite u256_word_printed by done.
  cbn [ok_or mbind result_bind]. rewrite !hex_field_0x. cbn [mbind result_bind]. rewrite Hau. by destruct auto.
Qed.

Lemma record_admitted ev domain record submission signer_addr : record_from_sent_event ev domain = Some record ->
  submission_from_sent_event ev domain = Some submission -> CoreHash.compute_id submission = es_submission_id ev ->
  check_storable record = Ok tt -> is_u 256 (es_amount ev) ->
  CoreHash.debridge_id (es_chain_id_from ev) (es_token ev) = es_debridge_id ev ->
  recover_address_from_msg (es_submission_id ev) (raw_signature (es_submission_id ev)) = Some signer_addr ->
  exists s, admit_record record (MkSignerSig (hex0x (arr_bytes signer_addr)) (sign (es_submission_id ev))) = Ok s.
Proof using ALL AP AW HL.
  intros Hrec Hsub Hid Hst Ha Hdb Hr. pose proof (record_canonical _ _ _ _ Hrec Hsub Ha) as Hc. rewrite Hid in Hc.
  unfold record_from_sent_event in Hrec. destruct (sent_event_u64s ev) as [[[f t] n]|] eqn:Hn; [|done].
  injection Hrec as <-. apply numbers_fit in Hn as (-> & -> & ->).
  unfold admit_record. cbn [rec_submission_id]. rewrite valid_id_hex, Hst. cbn [require mbind result_bind].
  rewrite Hc. cbn [mbind result_bind]. rewrite b256_printed. cbn [ok_or mbind result_bind].
  rewrite bool_decide_eq_true_2 by done. cbn [require mbind result_bind].
  assert (sign (es_submission_id ev) = hex0x (raw_signature (es_submission_id ev))) as ->.
  { unfold sign, raw_signature. by destruct (ecdsa_sign _). }
  unfold verify_signature, canonical_signature. cbn [sig_signer sig_signature].
  rewrite address_printed, !hex_field_0x. cbn [ok_or mbind result_bind]. rewrite Hr. cbn [ok_or mbind result_bind].
  rewrite bool_decide_eq_true_2 by done. cbn [require mbind result_bind].
  destruct (recovered_parses _ _ _ Hr) as [raw' ->]. cbn [ok_or mbind result_bind].
  unfold verify_token_binding. cbn [rec_token rec_debridge_id rec_chain_id_from].
  case_bool_decide; [cbn; eauto|]. rewrite address_printed. cbn [ok_or mbind result_bind]. rewrite b256_printed. cbn [ok_or mbind result_bind].
  rewrite bool_decide_eq_true_2 by done. cbn. eauto.
Qed.

(** What a validator posts, an honest store takes. For an event whose id the
    validator recomputed and whose record it found storable, from a gate whose
    debridgeId is the token's, by a key whose signatures recover to its address: the
    store recomputes the very id that was signed from the record's text, and accepts the
    signature into the transfer list, whether it is the first for this transfer or joins
    a record spelled the same with room left. So a refused post is the store's fault and
    is rightly tried again. *)
Theorem posted_record_stored fs ev domain record submission signer_addr :
  record_from_sent_event ev domain = Some record -> submission_from_sent_event ev domain = Some submission ->
  CoreHash.compute_id submission = es_submission_id ev -> check_storable record = Ok tt -> is_u 256 (es_amount ev) ->
  CoreHash.debridge_id (es_chain_id_from ev) (es_token ev) = es_debridge_id ev ->
  recover_address_from_msg (es_submission_id ev) (raw_signature (es_submission_id ev)) = Some signer_addr ->
  let sig := MkSignerSig (hex0x (arr_bytes signer_addr)) (sign (es_submission_id ev)) in
  (forall old, fs !! file_path (rec_submission_id record) = Some old ->
     same_params old record = true /\ has_room (rec_signatures old) sig) ->
  canonical_submission_id record = Ok (es_submission_id ev) /\
  exists r fs', upsert_signature fs record sig = Ok (r, fs') /\ fs' !! file_path (rec_submission_id record) = Some r /\
    exists t, t ∈ rec_signatures r /\ same_signer t sig.
Proof using ALL AP AW HL.
  intros Hrec Hsub Hid Hst Ha Hdb Hr sig Hold. split.
  { rewrite <- Hid. by apply (record_canonical ev domain). }
  destruct (record_admitted ev domain record submission signer_addr) as [s Hs]; [done..|].
  apply (upsert_accepts fs record sig s); [|exact Hs|].
  - unfold record_from_sent_event in Hrec. destruct (sent_event_u64s ev) as [[[f t] n]|]; [|done]. injection Hrec as <-. by intros [].
  - intros old Ho. destruct (Hold old Ho) as [Hp Hroom]. split; [done|]. apply admit_record_Ok in Hs as (_ & _ & _ & _ & _ & _ & Es).
    destruct Hroom as [?|(t & Ht & E)]; [by left|right; exists t; split; [done|]]. unfold same_signer in *. by rewrite Es.
Qed.
End Posts.
