(* ===== verification/ValidatorRefund.v ===== *)
(** The validator's refund votes (validator/src/refund.rs): the chains it can read, what
    it reads of a stuck transfer on both of them, the decision, and the loop that walks
    the store's queue and posts cancel and refund attestations. The store nominates, the
    chains decide. *)

From S2P Require Import Prelude.
From S2P Require Import SolanaRuntime.
From S2P Require Import Text.
From S2P Require Import ListSort.
From S2P Require Import Quorum.
From S2P Require Import Effects.
From S2P Require Import Failover.
From S2P Require Import Endpoints.
From S2P Require Import HostRecord.
From S2P Require Import SigStore.
From S2P Require Import RefundQueue.

(** What the chains, the store and the clock answer. *)
Class RefundWorld `{NW : Network} := {
  executed_at : nat -> Provider -> evm_address -> hash32 -> Z -> result unit bool;
  cancelled_at : nat -> Provider -> evm_address -> hash32 -> Z -> result unit bool;
  sent_by_at : nat -> Provider -> evm_address -> hash32 -> Z -> result unit evm_address;
  refunded_at : nat -> Provider -> evm_address -> hash32 -> Z -> result unit bool;
  (** the timestamp of a block, [None] when the node has no such block *)
  timestamp_at : nat -> Provider -> Z -> result unit (option Z);
  page_at : nat -> nat -> option text -> result unit (list SubmissionRecord);
  attest_at : nat -> text -> SigKind -> SignerSig -> result unit unit;
  (** [Instant::now()], in seconds *)
  instant_at : nat -> Z;
}.

(** [z as i64] of a [u64] *)
Definition as_i64 (z : Z) : Z := if z <? 2 ^ 63 then z else z - 2 ^ 64.

(** * One chain *)

Record GateReader := MkGateReader {
  gr_chain_id : Z;
  gr_gate : evm_address;
  gr_block_confirmation : Z;
  gr_min_agree : nat;
}.

Record DestinationState := MkDestinationState { ds_executed : bool; ds_cancelled : bool }.
Record SourceState := MkSourceState { ss_sent_by : evm_address; ss_refunded : bool }.

Definition agreed_aged_block (found : list (option Z)) : option Z := mjoin (majority_floor found).

Section Readers.
Context {NW : Network} {ND : Nodes} {AL : Alloy} {RW : RefundWorld}.

(** A reader and the endpoints it was connected with. *)
Record Reader := MkReader { rd_gate : GateReader; rd_endpoints : list Endpoint }.

Section Reading.
Context {S : Type}.
Abbreviation M := (eff S unit).

(** [GateReader::connect] *)
Definition connect (chain_id : Z) (gate : text) (endpoints : list text) (block_confirmation : Z) (require : bool) : M Reader :=
  let min_agree := min_agree (length endpoints) require in
  healthy ← connect_all_checked endpoints chain_id;
  if (length healthy <? min_agree)%nat then fail tt
  else gate ← expect (address_from_str gate) tt; mret (MkReader (MkGateReader chain_id gate block_confirmation min_agree) healthy).

(** A call for a result that may fail. *)
Definition call {A} (f : nat -> result unit A) : M A := r ← ask f; try r.

Fixpoint heads_of (eps : list Endpoint) : M (list Z) :=
  match eps with
  | [] => mret []
  | e :: eps =>
      r ← ask (fun t => head_at t (ep_provider e));
      rest ← heads_of eps;
      mret (match r with Ok h => h :: rest | Err _ => rest end)
  end.
Definition confirmed_block (r : Reader) : M Z :=
  heads ← heads_of (rd_endpoints r);
  if (length heads <? gr_min_agree (rd_gate r))%nat then fail tt
  else latest ← expect (majority_floor heads) tt; mret (saturating_sub latest (gr_block_confirmation (rd_gate r))).

Definition destination_state (r : Reader) (id : hash32) : M DestinationState :=
  block ← confirmed_block r;
  '(executed, cancelled) ← read_agreed (fun p =>
      executed ← call (fun t => executed_at t p (gr_gate (rd_gate r)) id block);
      cancelled ← call (fun t => cancelled_at t p (gr_gate (rd_gate r)) id block);
      mret (executed, cancelled)) (rd_endpoints r) (gr_min_agree (rd_gate r));
  mret (MkDestinationState executed cancelled).
Definition source_state (r : Reader) (id : hash32) : M SourceState :=
  block ← confirmed_block r;
  '(sent_by, refunded) ← read_agreed (fun p =>
      sent_by ← call (fun t => sent_by_at t p (gr_gate (rd_gate r)) id block);
      refunded ← call (fun t => refunded_at t p (gr_gate (rd_gate r)) id block);
      mret (sent_by, refunded)) (rd_endpoints r) (gr_min_agree (rd_gate r));
  mret (MkSourceState sent_by refunded).

(** ** Age *)

Definition block_timestamp (p : Provider) (block : Z) : M Z := b ← call (fun t => timestamp_at t p block); expect b tt.
(** The steps back: at most 24 of them, each twice as long. *)
Fixpoint step_back (tries : nat) (p : Provider) (head_num target step : Z) : M (option Z) :=
  match tries with
  | O => mret None
  | Datatypes.S tries =>
      if head_num <? step then mret None
      else
        let candidate := head_num - step in
        timestamp ← block_timestamp p candidate;
        if as_i64 timestamp <=? target then mret (Some candidate)
        else step_back tries p head_num target (Z.min (u_max 64) (step * 2))
  end.
Definition aged_block_on (p : Provider) (head_num timeout_secs : Z) : M (option Z) :=
  head ← block_timestamp p head_num;
  let target := i_saturating_sub 64 (as_i64 head) timeout_secs in
  step_back 24 p head_num target (Z.max (Z.max timeout_secs 1 / 12) 1).

Definition aged_block (r : Reader) (timeout_secs : Z) : M (option Z) :=
  head_num ← confirmed_block r;
  found ← ask_all (fun p => aged_block_on p head_num timeout_secs) (rd_endpoints r);
  if (length found <? gr_min_agree (rd_gate r))%nat then fail tt
  else mret (agreed_aged_block (map snd found)).
Definition was_sent_by_block (r : Reader) (id : hash32) (block : Z) : M bool :=
  read_agreed (fun p =>
      sent_by ← call (fun t => sent_by_at t p (gr_gate (rd_gate r)) id block);
      mret (negb (bool_decide (sent_by = arr_zero 20)))) (rd_endpoints r) (gr_min_agree (rd_gate r)).
End Reading.

(** * Chains that may not be connected yet *)

Record LazyReader := MkLazyReader { lr_chain_id : Z; lr_gate : text; lr_endpoints : list text; lr_reader : option Reader }.
Definition LazyReader_new (chain_id : Z) (gate : text) (endpoints : list text) : LazyReader :=
  MkLazyReader chain_id gate endpoints None.
Definition ensure {S} (block_confirmation : Z) (require : bool) (l : LazyReader) : eff S unit LazyReader :=
  match lr_reader l with
  | Some _ => mret l
  | None =>
      r ← attempt (connect (lr_chain_id l) (lr_gate l) (lr_endpoints l) block_confirmation require);
      mret (match r with
            | Ok r => MkLazyReader (lr_chain_id l) (lr_gate l) (lr_endpoints l) (Some r)
            | Err _ => l
            end)
  end.

Inductive Readable := Ready (r : Reader) | NotReady | NotConfigured.
Definition lookup_reader (readers : gmap Z LazyReader) (chain_id : Z) : Readable :=
  match readers !! chain_id with
  | None => NotConfigured
  | Some l => match lr_reader l with Some r => Ready r | None => NotReady end
  end.
End Readers.

(** * The decision *)

Inductive Decision := AttestCancel | AttestRefund | Skip (why : string).
Definition decide_vote (src : option SourceState) (dst : DestinationState)
    (aged_out already_attested_cancel already_attested_refund : bool) : Decision :=
  if ds_executed dst && negb (ds_cancelled dst) then Skip "delivered on destination"
  else
    let follow :=
      if ds_cancelled dst then
        if already_attested_refund then Skip "refund already attested by us" else AttestRefund
      else if already_attested_cancel then Skip "cancel already attested by us"
      else if negb aged_out then Skip "unclaimed timeout has not elapsed (verified on-chain)"
      else AttestCancel in
    match src with
    | Some src =>
        if ss_refunded src || bool_decide (ss_sent_by src = arr_zero 20)
        then Skip "already refunded, or not sent from this gate" else follow
    | None =>
        if negb (ds_cancelled dst) then Skip "source chain unreadable: cancel cannot be attested here" else follow
    end.

Section Votes.
Context {RT : Runtime} {HX : HexCodec} {AL : Alloy}.

Definition attested_by (sigs : list SignerSig) (id : hash32) (kind : SigKind) (signer_addr : evm_address) : bool :=
  existsb (fun s => match verify_attestation id kind s with Ok a => bool_decide (a = signer_addr) | Err _ => false end) sigs.
Definition fully_attested_by_us (rec : SubmissionRecord) (id : hash32) (signer_addr : evm_address) : bool :=
  attested_by (rec_cancel_signatures rec) id Cancel signer_addr && attested_by (rec_refund_signatures rec) id Refund signer_addr.
Definition bound_submission_id (rec : SubmissionRecord) : option hash32 :=
  claimed ← b256_from_str (rec_submission_id rec);
  match canonical_submission_id rec with
  | Ok computed => if bool_decide (computed = claimed) then Some claimed else None
  | Err _ => None
  end.
End Votes.

(** * Rests for what was never sent *)

Definition NOT_SENT_REST : Z := 10 * 60.
Definition NOT_SENT_MAX_REST : Z := 24 * 60 * 60.
Definition NOT_SENT_MAX_ENTRIES : Z := 100000.

(** Of an id: when it may be read again, and how long it rests. *)
Abbreviation NotSentMemo := (gmap hash32 (Z * Z)).
Definition is_resting (memo : NotSentMemo) (id : hash32) (now : Z) : bool :=
  match memo !! id with Some (until, _) => now <? until | None => false end.
Definition rest (memo : NotSentMemo) (id : hash32) (now : Z) : NotSentMemo :=
  match memo !! id with
  | Some (_, prev) => let r := Z.min (prev * 2) NOT_SENT_MAX_REST in <[id := (now + r, r)]> memo
  | None => if NOT_SENT_MAX_ENTRIES <=? Z.of_nat (size memo) then memo else <[id := (now + NOT_SENT_REST, NOT_SENT_REST)]> memo
  end.
Definition prune (memo : NotSentMemo) (now : Z) : NotSentMemo := filter (fun row => now < row.2.1 + NOT_SENT_MAX_REST) memo.

(** * The loop *)

Record RefundConfig := MkRefundConfig {
  rc_timeout_secs : Z;           (* i64 *)
  rc_block_confirmation : Z;
  rc_require : bool;
  rc_signer : evm_address;
}.
Inductive Outcome := Done | NotSent.

Section Loop.
Context {RT : Runtime} {HX : HexCodec} {AL : Alloy} {SK : HostSigner}.
Context {NW : Network} {ND : Nodes} {RW : RefundWorld}.

Abbreviation Vote := (text * SigKind * SignerSig * result unit unit)%type.
Record RefundLoop := MkRefundLoop {
  rl_sources : gmap Z LazyReader;
  rl_dests : gmap Z LazyReader;
  rl_cursor : option text;
  rl_not_sent : NotSentMemo;
  rl_votes : list Vote;
}.
Abbreviation L := (eff RefundLoop unit).

Definition set_readers (src dst : gmap Z LazyReader) (s : RefundLoop) : RefundLoop :=
  MkRefundLoop src dst (rl_cursor s) (rl_not_sent s) (rl_votes s).
Definition set_cursor (c : option text) (s : RefundLoop) : RefundLoop :=
  MkRefundLoop (rl_sources s) (rl_dests s) c (rl_not_sent s) (rl_votes s).
Definition set_not_sent (m : NotSentMemo) (s : RefundLoop) : RefundLoop :=
  MkRefundLoop (rl_sources s) (rl_dests s) (rl_cursor s) m (rl_votes s).
Definition set_votes (l : list Vote) (s : RefundLoop) : RefundLoop :=
  MkRefundLoop (rl_sources s) (rl_dests s) (rl_cursor s) (rl_not_sent s) l.

Variable cfg : RefundConfig.

(** The vote itself. *)
Definition cast (rec : SubmissionRecord) (id : hash32) (kind : SigKind) : L Outcome :=
  let sig := MkSignerSig (hex0x (arr_bytes (rc_signer cfg))) (sign (digest kind id)) in
  answer ← ask (fun t => attest_at t (rec_submission_id rec) kind sig);
  _ ← modify (fun s => set_votes (rl_votes s ++ [(rec_submission_id rec, kind, sig, answer)]) s);
  _ ← try answer;
  mret Done.

(** Has the timeout elapsed, by the source chain's own account? *)
Definition aged_out (src : option Reader) (id : hash32) (cancelled : bool) : L bool :=
  match src, cancelled with
  | _, true => mret true
  | None, false => mret false
  | Some src, false =>
      b ← aged_block src (rc_timeout_secs cfg);
      match b with Some block => was_sent_by_block src id block | None => mret false end
  end.
(** From the reads on. *)
Definition handle_readable (rec : SubmissionRecord) (id : hash32) (dst : Reader) (src : option Reader) : L Outcome :=
  dst_state ← destination_state dst id;
  src_state ← match src with Some s => x ← source_state s id; mret (Some x) | None => mret None end;
  let settled := match src_state with
                 | Some s => if bool_decide (ss_sent_by s = arr_zero 20) && negb (ss_refunded s) then Some NotSent
                             else if ss_refunded s then Some Done else None
                 | None => None
                 end in
  match settled with
  | Some o => mret o
  | None =>
      aged ← aged_out src id (ds_cancelled dst_state);
      match decide_vote src_state dst_state aged
              (attested_by (rec_cancel_signatures rec) id Cancel (rc_signer cfg))
              (attested_by (rec_refund_signatures rec) id Refund (rc_signer cfg)) with
      | Skip _ => mret Done
      | AttestCancel => cast rec id Cancel
      | AttestRefund => cast rec id Refund
      end
  end.
Definition handle_candidate (rec : SubmissionRecord) (id : hash32) : L Outcome :=
  s ← get;
  match lookup_reader (rl_dests s) (rec_chain_id_to rec), lookup_reader (rl_sources s) (rec_chain_id_from rec) with
  | Ready dst, Ready src => handle_readable rec id dst (Some src)
  | Ready dst, NotConfigured => handle_readable rec id dst None
  | _, _ => mret Done
  end.

Fixpoint handle_candidates (now : Z) (candidates : list SubmissionRecord) : L unit :=
  match candidates with
  | [] => mret tt
  | rec :: candidates =>
      s ← get;
      _ ← match bound_submission_id rec with
          | None => mret tt
          | Some id =>
              if fully_attested_by_us rec id (rc_signer cfg) || is_resting (rl_not_sent s) id now then mret tt
              else
                o ← attempt (handle_candidate rec id);
                match o with
                | Ok NotSent => modify (fun s => set_not_sent (rest (rl_not_sent s) id now) s)
                | _ => mret tt
                end
          end;
      handle_candidates now candidates
  end.

(** [for r in readers.values_mut() { r.ensure(..) }], in the order of the chain ids. *)
Fixpoint ensure_all (readers : list (Z * LazyReader)) (acc : gmap Z LazyReader) : L (gmap Z LazyReader) :=
  match readers with
  | [] => mret acc
  | (chain, l) :: readers =>
      l ← ensure (rc_block_confirmation cfg) (rc_require cfg) l;
      ensure_all readers (<[chain := l]> acc)
  end.
Definition in_key_order (m : gmap Z LazyReader) : list (Z * LazyReader) := sort_by_key fst Z.leb (map_to_list m).

(** One turn of the loop. *)
Definition refund_tick : L unit :=
  s ← get;
  sources ← ensure_all (in_key_order (rl_sources s)) ∅;
  dests ← ensure_all (in_key_order (rl_dests s)) ∅;
  _ ← modify (set_readers sources dests);
  s ← get;
  '(walked, cursor) ← ask (fun t => cursor_walk rec_submission_id (page_at t) (rl_cursor s));
  _ ← modify (set_cursor cursor);
  match walked with
  | Err _ => mret tt
  | Ok candidates =>
      now ← ask instant_at;
      _ ← modify (fun s => set_not_sent (prune (rl_not_sent s) now) s);
      handle_candidates now candidates
  end.
Fixpoint refund_ticks (n : nat) : L unit :=
  match n with O => mret tt | S n => _ ← refund_tick; refund_ticks n end.
End Loop.
