(* ===== verification/RefundVotes.v ===== *)
(** What a validator's cancel and refund attestations mean: each rests on what an honest
    endpoint of the destination, and of the source where there is one, reported at a
    confirmed block (validator/src/refund.rs, over ValidatorRefund.v). *)

From S2P Require Import Prelude.
From S2P Require Import SolanaRuntime.
From S2P Require Import Text.
From S2P Require Import ListSort.
From S2P Require Import Quorum.
From S2P Require Import Effects.
From S2P Require Import Failover.
From S2P Require Import Endpoints.
From S2P Require Import HostRecord.
From S2P Require Import SigStore.
From S2P Require Import RefundQueue.
From S2P Require Import ValidatorRefund.

Section RefundVotes.
Context {RT : Runtime} {HX : HexCodec} {AL : Alloy} {SK : HostSigner}.
Context {NW : Network} {ND : Nodes} {RW : RefundWorld}.
Variable cfg : RefundConfig.

(** ** The chains *)

(** The gates' flags by chain, gate, block and id; the blocks' timestamps. *)
Variables (executed cancelled refunded : Z -> evm_address -> Z -> hash32 -> bool).
Variable sent_by : Z -> evm_address -> Z -> hash32 -> evm_address.
Variable timestamp : Z -> Z -> Z.
(** The gate this validator is configured with, of a chain. *)
Variable gate : Z -> evm_address.

(** An honest endpoint of a chain. *)
Record honest (c : Z) (e : Endpoint) : Prop := {
  hn_executed : forall t g id b v, executed_at t (ep_provider e) g id b = Ok v -> v = executed c g b id;
  hn_cancelled : forall t g id b v, cancelled_at t (ep_provider e) g id b = Ok v -> v = cancelled c g b id;
  hn_sent_by : forall t g id b v, sent_by_at t (ep_provider e) g id b = Ok v -> v = sent_by c g b id;
  hn_refunded : forall t g id b v, refunded_at t (ep_provider e) g id b = Ok v -> v = refunded c g b id;
  hn_timestamp : forall t b v, timestamp_at t (ep_provider e) b = Ok (Some v) -> v = timestamp c b;
}.
Hypothesis times : forall c b, 0 <= timestamp c b < 2 ^ 62.
Hypothesis timeout : 0 <= rc_timeout_secs cfg < 2 ^ 62.

(** ** One chain's reader *)

Record reader_ok (c : Z) (r : Reader) : Prop := {
  ro_agree : (2 <= gr_min_agree (rd_gate r))%nat;
  ro_one : at_most_one_liar (honest c) (rd_endpoints r);
  ro_gate : gr_gate (rd_gate r) = gate c;
  ro_conf : gr_block_confirmation (rd_gate r) = rc_block_confirmation cfg;
}.
(** An honest endpoint has this block behind the confirmation distance. *)
Definition confirmed (c : Z) (block : Z) : Prop := exists e h, honest c e /\ head_said e h /\
  block <= saturating_sub h (rc_block_confirmation cfg).

Section Reading.
Context {S : Type}.
Implicit Type s : S.

Lemma wp_call {A} (f : nat -> result unit A) (Q : result unit A -> S -> Prop) s :
  (forall t a, f t = Ok a -> Q (Ok a) s) -> (forall t e, f t = Err e -> Q (Err e) s) -> wp (call f) Q s.
Proof using Type. intros H1 H2. apply wp_bind, wp_ask. intros t. apply wp_try. destruct (f t) eqn:E; eauto. Qed.

Lemma heads_of_wp eps s : wp (heads_of eps) (fun r s' => s' = s /\ exists heads who, r = Ok heads /\
  who `sublist_of` eps /\ Forall2 head_said who heads) s.
Proof using Type.
  induction eps as [|e eps IH]; cbn [heads_of].
  { apply wp_ret. split; [done|]. exists [], []. by split_and!. }
  apply wp_bind, wp_ask. intros t. apply wp_bind. eapply wp_mono; [exact IH|].
  intros r s' (-> & heads & who & -> & Hs & Hf). apply wp_ret. split; [done|].
  destruct (head_at t (ep_provider e)) as [h|x] eqn:E.
  - exists (h :: heads), (e :: who). split_and!; [done|by constructor|]. constructor; [by exists t|done].
  - exists heads, who. split_and!; [done|by constructor|done].
Qed.
Lemma confirmed_block_wp c r s : reader_ok c r -> wp (confirmed_block r) (fun b s' => s' = s /\
  forall block, b = Ok block -> confirmed c block) s.
Proof using Type.
  intros [Hk Hone _ Hc]. apply wp_bind. eapply wp_mono; [apply heads_of_wp|]. intros x s' (-> & heads & who & -> & Hs & Hf).
  destruct (Nat.ltb_spec (length heads) (gr_min_agree (rd_gate r))); [by apply wp_fail|].
  apply wp_bind, wp_expect; [|done]. intros latest Hm. apply wp_ret. split; [done|]. intros ? [= <-].
  destruct (floor_honest (honest c) (rd_endpoints r) who _ heads latest Hs Hf Hone) as (e & h & _ & He & Hh & Hle); [lia|done|].
  exists e, h. split_and!; [done|done|]. rewrite <- Hc. apply Z.leb_le in Hle. unfold saturating_sub. lia.
Qed.

Lemma destination_state_wp c r id s : reader_ok c r -> wp (destination_state r id) (fun v s' => s' = s /\
  forall d, v = Ok d -> exists b, confirmed c b /\ ds_executed d = executed c (gate c) b id /\
    ds_cancelled d = cancelled c (gate c) b id) s.
Proof using Type.
  intros Hr. pose proof Hr as [Hk Hone Hg _]. apply wp_bind. eapply wp_mono; [by apply confirmed_block_wp|].
  intros x s' [-> Hb]. destruct x as [b|]; [|done]. specialize (Hb b eq_refl). apply wp_bind.
  eapply wp_mono; [apply (read_agreed_wp _ (fun e v => (exists t, executed_at t (ep_provider e) (gate c) id b = Ok v.1) /\
    exists t, cancelled_at t (ep_provider e) (gate c) id b = Ok v.2)) with (honest := honest c); [|exact Hk|exact Hone]|].
  - intros e s0. rewrite Hg. apply wp_bind, wp_call; [|done]. intros t1 ex E1. apply wp_bind, wp_call; [|done]. intros t2 ca E2.
    apply wp_ret. split; [done|]. intros ? [= <-]. eauto.
  - intros v s' [-> Hv]. destruct v as [[ex ca]|]; [|done]. apply wp_ret. split; [done|]. intros ? [= <-].
    destruct (Hv _ eq_refl) as (e & _ & He & [t1 E1] & [t2 E2]). exists b. split_and!; [done| |].
    + by eapply hn_executed.
    + by eapply hn_cancelled.
Qed.
Lemma source_state_wp c r id s : reader_ok c r -> wp (source_state r id) (fun v s' => s' = s /\
  forall d, v = Ok d -> exists b, confirmed c b /\ ss_sent_by d = sent_by c (gate c) b id /\
    ss_refunded d = refunded c (gate c) b id) s.
Proof using Type.
  intros Hr. pose proof Hr as [Hk Hone Hg _]. apply wp_bind. eapply wp_mono; [by apply confirmed_block_wp|].
  intros x s' [-> Hb]. destruct x as [b|]; [|done]. specialize (Hb b eq_refl). apply wp_bind.
  eapply wp_mono; [apply (read_agreed_wp _ (fun e v => (exists t, sent_by_at t (ep_provider e) (gate c) id b = Ok v.1) /\
    exists t, refunded_at t (ep_provider e) (gate c) id b = Ok v.2)) with (honest := honest c); [|exact Hk|exact Hone]|].
  - intros e s0. rewrite Hg. apply wp_bind, wp_call; [|done]. intros t1 sb E1. apply wp_bind, wp_call; [|done]. intros t2 rf E2.
    apply wp_ret. split; [done|]. intros ? [= <-]. eauto.
  - intros v s' [-> Hv]. destruct v as [[sb rf]|]; [|done]. apply wp_ret. split; [done|]. intros ? [= <-].
    destruct (Hv _ eq_refl) as (e & _ & He & [t1 E1] & [t2 E2]). exists b. split_and!; [done| |].
    + by eapply hn_sent_by.
    + by eapply hn_refunded.
Qed.

(** ** Age *)

(** A node's claim that a block is old enough, seen from a head. *)
Definition aged_said (head : Z) (e : Endpoint) (v : option Z) : Prop := forall b, v = Some b -> exists t1 t2 h w,
  timestamp_at t1 (ep_provider e) head = Ok (Some h) /\ timestamp_at t2 (ep_provider e) b = Ok (Some w) /\
  as_i64 w <= i_saturating_sub 64 (as_i64 h) (rc_timeout_secs cfg).

Lemma wp_timestamp p b (Q : result unit Z -> S -> Prop) s : (forall t v, timestamp_at t p b = Ok (Some v) -> Q (Ok v) s) ->
  (forall e, Q (Err e) s) -> wp (block_timestamp p b) Q s.
Proof using Type. intros H1 H2. apply wp_bind, wp_call; [|done]. intros t o E. apply wp_expect; [|done]. intros v ->. eauto. Qed.
Lemma step_back_wp tries p head target step s : wp (step_back tries p head target step) (fun r s' => s' = s /\
  forall b, r = Ok (Some b) -> exists t w, timestamp_at t p b = Ok (Some w) /\ as_i64 w <= target) s.
Proof using Type.
  revert step. induction tries as [|tries IH]; intros step; cbn [step_back]; [by apply wp_ret|].
  destruct (head <? step); [by apply wp_ret|]. apply wp_bind, wp_timestamp; [|done]. intros t w Ew.
  destruct (Z.leb_spec (as_i64 w) target); [|apply IH]. apply wp_ret. split; [done|]. intros b [= <-]. eauto.
Qed.
Lemma aged_block_on_wp e head s : wp (aged_block_on (ep_provider e) head (rc_timeout_secs cfg)) (fun r s' => s' = s /\
  forall v, r = Ok v -> aged_said head e v) s.
Proof using Type.
  apply wp_bind, wp_timestamp; [|done]. intros t h Eh. cbv zeta. eapply wp_mono; [apply step_back_wp|].
  intros r s' [-> Hr]. split; [done|]. intros v -> b ->. destruct (Hr b eq_refl) as (t2 & w & Ew & Hle). by exists t, t2, h, w.
Qed.

Lemma aged_times c head e b v : honest c e -> aged_said head e v -> ord_leb (Some b) v = true ->
  exists b', b <= b' /\ timestamp c b' + rc_timeout_secs cfg <= timestamp c head.
Proof using times timeout.
  intros He Hs Hle. destruct v as [b'|]; [|done]. destruct (Hs b' eq_refl) as (t1 & t2 & h & w & Eh & Ew & Hw).
  apply Z.leb_le in Hle. exists b'. split; [done|].
  pose proof (hn_timestamp _ _ He _ _ _ Eh). pose proof (hn_timestamp _ _ He _ _ _ Ew). subst h w.
  pose proof (times c head). pose proof (times c b'). unfold as_i64, i_saturating_sub, i_clamp, i_min, i_max in Hw.
  rewrite !(proj2 (Z.ltb_lt _ _)) in Hw by lia. lia.
Qed.

Lemma aged_block_wp c r s : reader_ok c r -> wp (aged_block r (rc_timeout_secs cfg)) (fun v s' => s' = s /\
  forall b, v = Ok (Some b) -> exists head b', confirmed c head /\ b <= b' /\
    timestamp c b' + rc_timeout_secs cfg <= timestamp c head) s.
Proof using times timeout.
  intros Hr. pose proof Hr as [Hk Hone _ _]. apply wp_bind. eapply wp_mono; [by apply confirmed_block_wp|].
  intros x s' [-> Hb]. destruct x as [head|]; [|done]. specialize (Hb head eq_refl). apply wp_bind.
  eapply wp_mono; [apply (ask_all_wp _ (aged_said head)); intros e s0; apply aged_block_on_wp|].
  intros x s' (-> & answers & who & -> & Hs & Hf).
  destruct (Nat.ltb_spec (length answers) (gr_min_agree (rd_gate r))); [by apply wp_fail|]. apply wp_ret. split; [done|].
  intros b [= Eb]. unfold agreed_aged_block in Eb. destruct (majority_floor (map snd answers)) as [[b0|]|] eqn:Hm; [|done|done].
  injection Eb as ->. assert (Forall2 (aged_said head) who (map snd answers)) as Hf'.
  { clear -Hf. induction Hf; simpl; by constructor. }
  destruct (floor_honest (honest c) (rd_endpoints r) who _ _ (Some b) Hs Hf' Hone) as (e & a & _ & He & Ha & Hle); [rewrite length_map; lia|exact Hm|].
  destruct (aged_times _ _ _ _ _ He Ha Hle) as (b' & ? & ?). exists head, b'. done.
Qed.
Lemma was_sent_by_block_wp c r id b s : reader_ok c r -> wp (was_sent_by_block r id b) (fun v s' => s' = s /\
  (v = Ok true -> sent_by c (gate c) b id <> arr_zero 20)) s.
Proof using Type.
  intros [Hk Hone Hg _]. eapply wp_mono; [apply (read_agreed_wp _ (fun e v => exists t a, sent_by_at t (ep_provider e) (gate c) id b = Ok a /\
    v = negb (bool_decide (a = arr_zero 20)))) with (honest := honest c); [|exact Hk|exact Hone]|].
  - intros e s0. rewrite Hg. apply wp_bind, wp_call; [|done]. intros t a E. apply wp_ret. split; [done|]. intros ? [= <-]. eauto.
  - intros v s' [-> Hv]. split; [done|]. intros ->. destruct (Hv true eq_refl) as (e & _ & He & t & a & Ea & E).
    rewrite <- (hn_sent_by _ _ He _ _ _ _ _ Ea). intros ->. by rewrite bool_decide_eq_true_2 in E.
Qed.
End Reading.

(** ** Votes *)

Lemma vote_cancel src dst aged c r : decide_vote src dst aged c r = AttestCancel ->
  ds_executed dst = false /\ ds_cancelled dst = false /\ aged = true /\ c = false /\
  exists x, src = Some x /\ ss_refunded x = false /\ ss_sent_by x <> arr_zero 20.
Proof using Type.
  unfold decide_vote. rewrite andb_comm. destruct (ds_cancelled dst); cbn.
  - destruct src as [[sb rf]|]; cbn; [destruct (rf || _)|]; by destruct r.
  - destruct (ds_executed dst); cbn; [done|]. destruct src as [[sb rf]|]; cbn; [|done]. destruct rf; cbn; [done|].
    case_bool_decide; [done|]. destruct c; [done|]. destruct aged; [|done]. intros _. split_and!; [done..|].
    by exists (MkSourceState sb false).
Qed.
Lemma vote_refund src dst aged c r : decide_vote src dst aged c r = AttestRefund ->
  ds_cancelled dst = true /\ r = false /\
  forall x, src = Some x -> ss_refunded x = false /\ ss_sent_by x <> arr_zero 20.
Proof using Type.
  unfold decide_vote. rewrite andb_comm. destruct (ds_cancelled dst); cbn; (destruct src as [[sb rf]|]; cbn; [destruct rf; cbn; [by destruct (ds_executed dst)|case_bool_decide; cbn]|]).
  all: try (by destruct (ds_executed dst)); try (by destruct (ds_executed dst), c, aged).
  - destruct r; [done|]. intros _. split_and!; [done|done|]. by intros ? [= <-].
  - destruct r; [done|]. intros _. by split_and!.
Qed.

(** The chains a validator reads as sources. *)
Variable source_chain : Z -> Prop.

(** What a vote rests on: of a transfer with this id between these chains. *)
Definition grounds (id : hash32) (from to : Z) (kind : SigKind) : Prop := exists b, confirmed to b /\
  match kind with
  | Transfer => False
  | Refund => cancelled to (gate to) b id = true /\
      (source_chain from -> exists b', confirmed from b' /\
         sent_by from (gate from) b' id <> arr_zero 20 /\ refunded from (gate from) b' id = false)
  | Cancel => executed to (gate to) b id = false /\ cancelled to (gate to) b id = false /\
      source_chain from /\ (exists b', confirmed from b' /\ refunded from (gate from) b' id = false) /\
      exists head aged old, confirmed from head /\ old <= aged /\
        timestamp from aged + rc_timeout_secs cfg <= timestamp from head /\
        sent_by from (gate from) old id <> arr_zero 20
  end.
Definition sound_vote (v : text * SigKind * SignerSig * result unit unit) : Prop := exists rec id,
  bound_submission_id rec = Some id /\ v.1.1.1 = rec_submission_id rec /\
  v.1.2 = MkSignerSig (hex0x (arr_bytes (rc_signer cfg))) (sign (digest v.1.1.2 id)) /\
  attested_by (match v.1.1.2 with Cancel => rec_cancel_signatures rec | _ => rec_refund_signatures rec end)
    id v.1.1.2 (rc_signer cfg) = false /\
  grounds id (rec_chain_id_from rec) (rec_chain_id_to rec) v.1.1.2.

(** A chain as configured, connected or not. *)
Record lazy_ok (c : Z) (l : LazyReader) : Prop := {
  lz_chain : lr_chain_id l = c;
  lz_agree : (2 <= min_agree (length (lr_endpoints l)) (rc_require cfg))%nat;
  lz_one : at_most_one_liar (honest c) (url_endpoints (lr_endpoints l));
  lz_gate : forall a, address_from_str (lr_gate l) = Some a -> a = gate c;
  lz_reader : forall r, lr_reader l = Some r -> reader_ok c r;
}.
Record loop_ok (s : RefundLoop) : Prop := {
  rk_sources : forall c l, rl_sources s !! c = Some l -> lazy_ok c l;
  rk_dests : forall c l, rl_dests s !! c = Some l -> lazy_ok c l;
  rk_known : forall c, source_chain c <-> is_Some (rl_sources s !! c);
}.
(** The state goes on being in order and every new vote is sound. *)
Definition votes_soundly (s s' : RefundLoop) : Prop := loop_ok s' /\
  exists new, rl_votes s' = rl_votes s ++ new /\ Forall sound_vote new.

Lemma votes_same s s' : loop_ok s' -> rl_votes s' = rl_votes s -> votes_soundly s s'.
Proof using Type. intros H E. split; [done|]. exists []. by rewrite E, app_nil_r. Qed.
Lemma votes_then s s1 s2 : votes_soundly s s1 -> votes_soundly s1 s2 -> votes_soundly s s2.
Proof using Type.
  intros (_ & n1 & E1 & H1) (Hok & n2 & E2 & H2). split; [done|]. exists (n1 ++ n2).
  rewrite E2, E1, app_assoc. split; [done|by apply Forall_app].
Qed.

Lemma cast_wp rec id kind s : loop_ok s -> bound_submission_id rec = Some id ->
  attested_by (match kind with Cancel => rec_cancel_signatures rec | _ => rec_refund_signatures rec end) id kind (rc_signer cfg) = false ->
  grounds id (rec_chain_id_from rec) (rec_chain_id_to rec) kind ->
  wp (cast cfg rec id kind) (fun _ s' => votes_soundly s s') s.
Proof using Type.
  intros [] Hid Hat Hg. apply wp_bind, wp_ask. intros t. apply wp_bind, wp_modify.
  set (v := (_, kind, _, attest_at t _ _ _)). set (s1 := set_votes (rl_votes s ++ [v]) s).
  assert (votes_soundly s s1) as H.
  { split; [by constructor|]. exists [v]. split; [done|]. apply Forall_singleton. by exists rec, id. }
  apply wp_bind, wp_try. destruct (attest_at _ _ _ _); [by apply wp_ret|done].
Qed.

Lemma aged_out_wp c r id s : reader_ok c r -> wp (aged_out cfg (Some r) id false) (fun v s' => s' = s /\
  (v = Ok true -> exists head aged old, confirmed c head /\ old <= aged /\
     timestamp c aged + rc_timeout_secs cfg <= timestamp c head /\ sent_by c (gate c) old id <> arr_zero 20)) s.
Proof using times timeout.
  intros Hr. apply wp_bind. eapply wp_mono; [by apply aged_block_wp|]. intros x s' [-> Hb].
  destruct x as [[old|]|]; [|by apply wp_ret|done]. destruct (Hb old eq_refl) as (head & b' & Hc & Hle & Ht).
  eapply wp_mono; [by apply was_sent_by_block_wp|]. intros v s' [-> Hv]. split; [done|]. intros E. by exists head, b', old; auto.
Qed.

Lemma handle_readable_wp rec id dst src s : loop_ok s -> bound_submission_id rec = Some id ->
  reader_ok (rec_chain_id_to rec) dst ->
  match src with Some r => reader_ok (rec_chain_id_from rec) r /\ source_chain (rec_chain_id_from rec)
               | None => ~ source_chain (rec_chain_id_from rec) end ->
  wp (handle_readable cfg rec id dst src) (fun _ s' => votes_soundly s s') s.
Proof using times timeout.
  intros Hok Hid Hdst Hsrc. pose proof (votes_same s s Hok eq_refl) as Hsame.
  apply wp_bind. eapply wp_mono; [by apply destination_state_wp|]. intros x s' [-> Hd]. destruct x as [d|]; [|done].
  destruct (Hd d eq_refl) as (b & Hb & Hex & Hca). clear Hd.
  assert (wp (match src with Some s => x ← source_state s id; mret (Some x) | None => mret None end) (fun r s' => s' = s /\
    forall st, r = Ok st -> match st with
      | Some x => source_chain (rec_chain_id_from rec) /\ (exists r, src = Some r) /\ exists b', confirmed (rec_chain_id_from rec) b' /\
          ss_sent_by x = sent_by (rec_chain_id_from rec) (gate (rec_chain_id_from rec)) b' id /\
          ss_refunded x = refunded (rec_chain_id_from rec) (gate (rec_chain_id_from rec)) b' id
      | None => ~ source_chain (rec_chain_id_from rec) /\ src = None end) s) as Hread.
  { destruct src as [r|].
    - destruct Hsrc as [Hr Hs]. apply wp_bind. eapply wp_mono; [by apply source_state_wp|]. intros x s' [-> Hx].
      destruct x as [x|]; [|done]. apply wp_ret. split; [done|]. intros ? [= <-]. split_and!; [done|eauto|by apply Hx].
    - apply wp_ret. split; [done|]. by intros ? [= <-]. }
  apply wp_bind. eapply wp_mono; [exact Hread|]. intros x s' [-> Hst]. destruct x as [st|]; [|done]. specialize (Hst st eq_refl).
  cbv zeta. destruct (match st with Some s => _ | None => None end) as [o|]; [by apply wp_ret|].
  assert (wp (aged_out cfg src id (ds_cancelled d)) (fun v s' => s' = s /\ (v = Ok true -> ds_cancelled d = true \/
    exists head aged old, confirmed (rec_chain_id_from rec) head /\ old <= aged /\
      timestamp (rec_chain_id_from rec) aged + rc_timeout_secs cfg <= timestamp (rec_chain_id_from rec) head /\
      sent_by (rec_chain_id_from rec) (gate (rec_chain_id_from rec)) old id <> arr_zero 20)) s) as Hage.
  { destruct (ds_cancelled d).
    - replace (aged_out cfg src id true) with (mret (M:=eff RefundLoop unit) true) by (by destruct src). apply wp_ret. split; [done|by left].
    - destruct src as [r|]; [|by apply wp_ret]. eapply wp_mono; [by apply aged_out_wp; apply Hsrc|].
      intros v s' [-> Hv]. split; [done|]. intros E. right. by apply Hv. }
  apply wp_bind. eapply wp_mono; [exact Hage|]. intros x s' [-> Ha]. destruct x as [aged|]; [|done].
  destruct (decide_vote _ _ _ _ _) eqn:Hdec; [| |by apply wp_ret].
  - apply vote_cancel in Hdec as (He & Hc & -> & Hno & x & -> & Hrf & _). destruct Hst as (Hs & _ & b' & Hb' & _ & Er).
    apply cast_wp; [done|done|done|]. exists b. split_and!; [done|congruence|congruence|done|exists b'; split; congruence|].
    destruct (Ha eq_refl); [congruence|done].
  - apply vote_refund in Hdec as (Hc & Hno & Hx). apply cast_wp; [done|done|done|]. exists b. split_and!; [done|congruence|].
    intros Hs. destruct st as [x|]; [|by destruct Hst]. destruct Hst as (_ & _ & b' & Hb' & E1 & E2). destruct (Hx x eq_refl).
    exists b'. split_and!; congruence.
Qed.

Lemma handle_candidate_wp rec id s : loop_ok s -> bound_submission_id rec = Some id ->
  wp (handle_candidate cfg rec id) (fun _ s' => votes_soundly s s') s.
Proof using times timeout.
  intros Hok Hid. apply wp_bind, wp_get. unfold lookup_reader. pose proof (votes_same s s Hok eq_refl) as Hsame.
  destruct (rl_dests s !! rec_chain_id_to rec) as [[? ? ? [dst|]]|] eqn:Hd; cbn; [|by apply wp_ret..].
  pose proof (lz_reader _ _ (rk_dests _ Hok _ _ Hd) _ eq_refl) as Hdst.
  destruct (rl_sources s !! rec_chain_id_from rec) as [[? ? ? [src|]]|] eqn:Hs; cbn; [|by apply wp_ret|].
  - apply handle_readable_wp; [done..|]. split; [exact (lz_reader _ _ (rk_sources _ Hok _ _ Hs) _ eq_refl)|].
    apply (rk_known _ Hok). by rewrite Hs.
  - apply handle_readable_wp; [done..|]. rewrite (rk_known _ Hok), Hs. by intros [].
Qed.

(** ** The loop *)

Lemma ensure_wp {S} c l (s : S) : lazy_ok c l -> wp (ensure (rc_block_confirmation cfg) (rc_require cfg) l)
  (fun r s' => s' = s /\ exists l', r = Ok l' /\ lazy_ok c l') s.
Proof using Type.
  intros Hl. pose proof Hl as [Hc Hk Hone Hg Hr]. unfold ensure. destruct (lr_reader l) as [r|] eqn:Er; [by apply wp_ret; eauto|].
  apply wp_bind, wp_attempt. apply wp_bind. eapply wp_mono; [apply connect_all_checked_wp|]. intros x s' [-> Hx].
  destruct x as [eps|x]; [|by apply wp_ret; eauto]. destruct (Hx eps eq_refl) as [_ Hs].
  destruct (_ <? _)%nat; [by apply wp_fail, wp_ret; eauto|]. apply wp_bind, wp_expect; [|by intros _; apply wp_ret; eauto].
  intros a Ha. apply wp_ret, wp_ret. split; [done|]. eexists. split; [done|]. constructor; [done..|]. cbn. intros ? [= <-].
  constructor; cbn; [done|by eapply at_most_one_liar_sub|by apply Hg|done].
Qed.
Lemma ensure_all_wp readers acc s : Forall (fun x => lazy_ok x.1 x.2) readers -> (forall c l, acc !! c = Some l -> lazy_ok c l) ->
  wp (ensure_all cfg readers acc) (fun r s' => s' = s /\ exists m, r = Ok m /\ (forall c l, m !! c = Some l -> lazy_ok c l) /\
    forall c, is_Some (m !! c) <-> is_Some (acc !! c) \/ c ∈ map fst readers) s.
Proof using Type.
  clear source_chain times timeout. revert acc. induction readers as [|[c l] readers IH]; intros acc Hf Ha; cbn [ensure_all].
  { apply wp_ret. split; [done|]. exists acc. split_and!; [done|done|]. intros c. cbn. rewrite elem_of_nil. tauto. }
  apply Forall_cons in Hf as [Hl Hf]. apply wp_bind. eapply wp_mono; [by apply ensure_wp|]. intros r s' (-> & l' & -> & Hl').
  eapply wp_mono; [apply IH; [done|]|].
  - intros c' x. destruct (decide (c = c')) as [<-|Hne]; [rewrite lookup_insert_eq; by intros [= <-]|rewrite lookup_insert_ne by done; apply Ha].
  - intros r s' (-> & m & -> & Hm & Hd). split; [done|]. exists m. split_and!; [done|done|]. intros c'. rewrite Hd. cbn.
    rewrite elem_of_cons. destruct (decide (c = c')) as [<-|Hne]; [rewrite lookup_insert_eq; naive_solver|].
    rewrite lookup_insert_ne by done. naive_solver.
Qed.
Lemma in_key_order_ok (m : gmap Z LazyReader) : (forall c l, m !! c = Some l -> lazy_ok c l) ->
  Forall (fun x => lazy_ok x.1 x.2) (in_key_order m) /\ forall c, c ∈ map fst (in_key_order m) <-> is_Some (m !! c).
Proof using Type.
  intros Hm. unfold in_key_order. split.
  - rewrite sort_by_key_Permutation. apply Forall_forall. intros [c l] Hin%elem_of_map_to_list. by apply Hm.
  - intros c. rewrite (fmap_Permutation fst _ _ (sort_by_key_Permutation fst Z.leb (map_to_list m))). rewrite list_elem_of_fmap. split.
    + intros ([c' l] & -> & Hin%elem_of_map_to_list). by exists l.
    + intros [l Hl]. exists (c, l). split; [done|]. by apply elem_of_map_to_list.
Qed.

Lemma handle_candidates_wp now l s : loop_ok s -> wp (handle_candidates cfg now l) (fun _ s' => votes_soundly s s') s.
Proof using times timeout.
  revert s. induction l as [|rec l IH]; intros s Hok; cbn [handle_candidates]; [by apply wp_ret, votes_same|].
  apply wp_bind, wp_get, wp_bind. assert (forall s1, votes_soundly s s1 -> wp (handle_candidates cfg now l) (fun _ s' => votes_soundly s s') s1) as Hrest.
  { intros s1 H1. eapply wp_mono; [apply IH, H1|]. intros r s2 H2. by eapply votes_then. }
  pose proof (votes_same s s Hok eq_refl) as Hsame. destruct (bound_submission_id rec) as [id|] eqn:Hid; [|by apply wp_ret, Hrest].
  destruct (_ || _); [by apply wp_ret, Hrest|]. apply wp_bind, wp_attempt. eapply wp_mono; [by apply handle_candidate_wp|].
  intros o s1 H1. destruct o as [[|]|]; [by apply wp_ret, Hrest| |by apply wp_ret, Hrest].
  apply wp_modify, Hrest. eapply votes_then; [exact H1|]. destruct H1 as [[] _]. apply votes_same; [by constructor|done].
Qed.
Lemma refund_tick_wp s : loop_ok s -> wp (refund_tick cfg) (fun _ s' => votes_soundly s s') s.
Proof using times timeout.
  intros Hok. pose proof Hok as [Hs Hd Hk]. apply wp_bind, wp_get.
  destruct (in_key_order_ok _ Hs) as [Hfs Hks], (in_key_order_ok _ Hd) as [Hfd _].
  apply wp_bind. eapply wp_mono; [apply ensure_all_wp; [exact Hfs|intros c l; by rewrite lookup_empty]|].
  intros r s' (-> & src & -> & Hsrc & Hsd). apply wp_bind. eapply wp_mono; [apply ensure_all_wp; [exact Hfd|intros c l; by rewrite lookup_empty]|].
  intros r s' (-> & dst & -> & Hdst & _). apply wp_bind, wp_modify, wp_bind, wp_get, wp_bind, wp_ask. intros t.
  destruct (cursor_walk _ _ _) as [walked cursor].
  apply wp_bind, wp_modify. set (s1 := set_cursor _ _). assert (loop_ok s1) as Hok1.
  { constructor; [done|done|]. intros c. cbn. rewrite Hsd, Hks, lookup_empty, Hk. split; [by right|by intros [[]|]]. }
  assert (votes_soundly s s1) as H1 by (by apply votes_same).
  destruct walked as [candidates|x]; [|by apply wp_ret]. apply wp_bind, wp_ask. intros t'. apply wp_bind, wp_modify.
  eapply wp_mono; [apply handle_candidates_wp; by destruct Hok1; constructor|]. intros r s2 H2.
  eapply votes_then; [exact H1|]. eapply votes_then; [|exact H2]. apply votes_same; [by destruct Hok1; constructor|done].
Qed.
Lemma refund_ticks_wp n s : loop_ok s -> wp (refund_ticks cfg n) (fun _ s' => votes_soundly s s') s.
Proof using times timeout.
  revert s. induction n as [|n IH]; intros s Hok; cbn [refund_ticks]; [by apply wp_ret, votes_same|].
  apply wp_bind. eapply wp_mono; [by apply refund_tick_wp|]. intros r s1 H1. destruct r; [|done].
  eapply wp_mono; [apply IH, H1|]. intros r s2 H2. by eapply votes_then.
Qed.

(** C13. A validator never votes to pay back what may still be delivered. Let every chain
    it reads be read through endpoints of which two must agree (at least two are
    configured, or corroboration is required) and at most one lies, and let timestamps and
    the timeout fit 62 bits. However long the loop runs and whatever the store nominates and
    the liars answer: each attestation it posts is for the id its record's own fields hash to,
    and not one it had given before. A refund is attested only if at a block confirmed by
    an honest endpoint of the destination the transfer is burned, and if moreover, where
    the source is a chain this validator is configured to read, it is sent and not yet paid
    back there (a source it cannot read, such as Solana, is not consulted for a refund); a cancellation only if the destination
    has neither delivered nor burned it, and the source holds it, unrefunded, since a
    block older than the timeout by the chain's own timestamps. *)
Theorem refund_votes_sound n s r s' t t' : loop_ok s -> refund_ticks cfg n s t = (r, s', t') ->
  exists new, rl_votes s' = rl_votes s ++ new /\ Forall sound_vote new.
Proof using times timeout.
  intros Hok Hrun. exact (proj2 (wp_run _ _ _ _ _ _ _ (refund_ticks_wp n s Hok) Hrun)).
Qed.
End RefundVotes.

(** * What need not be read *)

Section CheapSkips.
Context {RT : Runtime} {HX : HexCodec} {AL : Alloy} {SK : HostSigner}.
Context {NW : Network} {ND : Nodes} {RW : RefundWorld}.
Variable cfg : RefundConfig.

Lemma heads_of_keeps {S} eps (s : S) : wp (heads_of eps) (fun _ s' => s' = s) s.
Proof. eapply wp_mono; [apply heads_of_wp|]. by intros r s' [-> _]. Qed.
Lemma confirmed_block_keeps {S} r (s : S) : wp (confirmed_block r) (fun _ s' => s' = s) s.
Proof.
  apply wp_bind. eapply wp_mono; [apply heads_of_keeps|]. intros [heads|x] s' ->; [|done].
  destruct (_ <? _)%nat; [by apply wp_fail|]. apply wp_bind, wp_expect; [|done]. intros m _. by apply wp_ret.
Qed.
Lemma read_agreed_keeps {S T} `{EqDecision T} (read : Provider -> eff S unit T) eps k (s : S) :
  (forall p s0, wp (read p) (fun _ s' => s' = s0) s0) -> wp (read_agreed read eps k) (fun _ s' => s' = s) s.
Proof.
  intros Hr. apply wp_bind. eapply wp_mono; [apply (ask_all_wp read (fun _ _ => True))|].
  - intros e s0. eapply wp_mono; [apply Hr|]. by intros r s' ->.
  - intros r s' (-> & answers & who & -> & _). destruct (majority _ _); [by apply wp_ret|by apply wp_fail].
Qed.
Lemma call_keeps {S A} (f : nat -> result unit A) (s : S) : wp (call f) (fun _ s' => s' = s) s.
Proof. by apply wp_call. Qed.
Lemma destination_state_keeps {S} r id (s : S) : wp (destination_state r id) (fun _ s' => s' = s) s.
Proof.
  apply wp_bind. eapply wp_mono; [apply confirmed_block_keeps|]. intros [b|x] s' ->; [|done]. apply wp_bind.
  eapply wp_mono; [apply read_agreed_keeps|].
  - intros p s0. apply wp_bind. eapply wp_mono; [apply call_keeps|]. intros [a|x] s' ->; [|done].
    apply wp_bind. eapply wp_mono; [apply call_keeps|]. intros [a'|x] s' ->; [|done]. by apply wp_ret.
  - intros [[a b']|x] s' ->; [by apply wp_ret|done].
Qed.
Lemma source_state_keeps {S} r id (s : S) : wp (source_state r id) (fun _ s' => s' = s) s.
Proof.
  apply wp_bind. eapply wp_mono; [apply confirmed_block_keeps|]. intros [b|x] s' ->; [|done]. apply wp_bind.
  eapply wp_mono; [apply read_agreed_keeps|].
  - intros p s0. apply wp_bind. eapply wp_mono; [apply call_keeps|]. intros [a|x] s' ->; [|done].
    apply wp_bind. eapply wp_mono; [apply call_keeps|]. intros [a'|x] s' ->; [|done]. by apply wp_ret.
  - intros [[a b']|x] s' ->; [by apply wp_ret|done].
Qed.
Lemma aged_out_keeps src id c s : wp (aged_out cfg src id c) (fun _ s' => s' = s) s.
Proof.
  destruct src as [r|], c; try by apply wp_ret. apply wp_bind, wp_bind. eapply wp_mono; [apply confirmed_block_keeps|].
  intros [head|x] s' ->; [|done]. apply wp_bind.
  eapply wp_mono; [apply (ask_all_wp _ (fun _ _ => True)); intros e s0; eapply wp_mono; [apply (aged_block_on_wp cfg)|by intros r0 s' [-> _]]|].
  intros x s' (-> & answers & who & -> & _). destruct (_ <? _)%nat; [by apply wp_fail|]. apply wp_ret.
  destruct (agreed_aged_block _); [|by apply wp_ret]. apply read_agreed_keeps. intros p s0.
  apply wp_bind. eapply wp_mono; [apply call_keeps|]. intros [a|x] s' ->; [|done]. by apply wp_ret.
Qed.

(** With both votes given there is nothing left to decide. *)
Lemma decide_both src dst aged : exists why, decide_vote src dst aged true true = Skip why.
Proof.
  unfold decide_vote. destruct (ds_executed dst), (ds_cancelled dst); cbn; (destruct src as [[sb rf]|]; cbn; [destruct rf; cbn; repeat case_match|]); eauto.
Qed.
Lemma handle_voted rec id dst src s : fully_attested_by_us rec id (rc_signer cfg) = true ->
  wp (handle_readable cfg rec id dst src) (fun _ s' => s' = s) s.
Proof.
  intros [Hc Hr]%andb_true_iff. apply wp_bind. eapply wp_mono; [apply destination_state_keeps|]. intros [d|x] s' ->; [|done].
  apply wp_bind. eapply wp_mono with (Q := fun _ s' => s' = s).
  { destruct src as [r|]; [|by apply wp_ret]. apply wp_bind. eapply wp_mono; [apply source_state_keeps|].
    intros [x|x] s' ->; [by apply wp_ret|done]. }
  intros [st|x] s' ->; [|done]. cbv zeta. destruct (match st with Some s => _ | None => None end); [by apply wp_ret|].
  apply wp_bind. eapply wp_mono; [apply aged_out_keeps|]. intros [a|x] s' ->; [|done].
  rewrite Hc, Hr. destruct (decide_both st d a) as [why ->]. by apply wp_ret.
Qed.

(** Skipping a candidate with both votes given loses nothing. For a record that
    carries this validator's own cancel and refund attestations, recovered and not just
    labelled, handling it would change nothing and post nothing whatever both chains
    answer, so the loop may leave its reads out; and a signature that only names the
    validator never stands in for a vote. *)
Theorem voted_needs_no_reads rec id s t r s' t' : fully_attested_by_us rec id (rc_signer cfg) = true ->
  handle_candidate cfg rec id s t = (r, s', t') -> s' = s.
Proof.
  intros Hv Hrun. refine (wp_run _ (fun _ s' => s' = s) _ _ _ _ _ _ Hrun). apply wp_bind, wp_get.
  destruct (lookup_reader (rl_dests s) _); [|by apply wp_ret..].
  destruct (lookup_reader (rl_sources s) _); [|by apply wp_ret|]; by apply handle_voted.
Qed.
End CheapSkips.

(** * The memo *)

(** The memo over time. *)
Inductive memo_run : NotSentMemo -> Z -> Prop :=
  | MemoEmpty now : memo_run ∅ now
  | MemoRest m now id : memo_run m now -> memo_run (rest m id now) now
  | MemoPrune m now : memo_run m now -> memo_run (prune m now) now
  | MemoLater m now now' : memo_run m now -> now <= now' -> memo_run m now'.

(** A mistaken rest delays a refund by at most a day. Under any sequence of rests
    and prunings, with the clock running, no rest is shorter than [NOT_SENT_REST] or
    longer than [NOT_SENT_MAX_REST], every row can be read again within the latter, and
    the memo never holds more than its bound. *)
Theorem rests_bounded m now : memo_run m now ->
  (forall id until r, m !! id = Some (until, r) -> NOT_SENT_REST <= r <= NOT_SENT_MAX_REST /\ until <= now + NOT_SENT_MAX_REST) /\
  Z.of_nat (size m) <= NOT_SENT_MAX_ENTRIES /\
  forall id later, now + NOT_SENT_MAX_REST <= later -> is_resting m id later = false.
Proof.
  intros H. assert ((forall id until r, m !! id = Some (until, r) -> NOT_SENT_REST <= r <= NOT_SENT_MAX_REST /\ until <= now + NOT_SENT_MAX_REST) /\
    Z.of_nat (size m) <= NOT_SENT_MAX_ENTRIES) as [Hb Hs].
  { induction H as [now|m now id _ [Hb Hs]|m now _ [Hb Hs]|m now now' _ [Hb Hs] Hle].
    - split; [intros id u r; by rewrite lookup_empty|by rewrite map_size_empty].
    - unfold rest. destruct (m !! id) as [[u prev]|] eqn:E.
      + split; [|by rewrite map_size_insert_Some]. intros id' u' r'. destruct (Hb _ _ _ E) as [Hp _].
        destruct (decide (id = id')) as [<-|Hne]; [rewrite lookup_insert_eq|rewrite lookup_insert_ne by done; apply Hb].
        intros [= <- <-]. unfold NOT_SENT_REST, NOT_SENT_MAX_REST in *. lia.
      + destruct (Z.leb_spec NOT_SENT_MAX_ENTRIES (Z.of_nat (size m))); [done|]. split; [|rewrite map_size_insert_None by done; lia].
        intros id' u' r'. destruct (decide (id = id')) as [<-|Hne]; [rewrite lookup_insert_eq|rewrite lookup_insert_ne by done; apply Hb].
        intros [= <- <-]. unfold NOT_SENT_REST, NOT_SENT_MAX_REST in *. lia.
    - unfold prune. split.
      + intros id u r [Hl _]%map_lookup_filter_Some. by eapply Hb.
      + etrans; [|exact Hs]. apply inj_le. apply map_subseteq_size, map_filter_subseteq.
    - split; [|done]. intros id u r Hl. destruct (Hb _ _ _ Hl). lia. }
  split_and!; [done|done|]. intros id later Hl. unfold is_resting. destruct (m !! id) as [[u r]|] eqn:E; [|done].
  destruct (Hb _ _ _ E) as [_ Hu]. apply Z.ltb_ge. lia.
Qed.
