(* ===== verification/KeeperTx.v ===== *)
(** What the keeper broadcasts (keeper/src/main.rs): the gate and router calls, the
    transaction requests that carry them, the fees of a replacement, the verdict on a
    nonce from the probes of its hashes, and the watch on the head of the account's
    queue. Everything here is pure; Keeper.v does the calls. *)

From S2P Require Import Prelude.
From S2P Require Import Text.
From S2P Require Import SolanaRuntime.
From S2P Require Import GateTypes.

(** * Requests *)

(** The parameters every gate entry point takes; the chain is the source's in [claim] and
    [cancel], the destination's in [refund]. *)
Record CallParams := MkCallParams {
  cp_debridge_id : hash32;
  cp_amount : Z;
  cp_bridge_decimals : Z;
  cp_chain_id : Z;
  cp_nonce : Z;
  cp_receiver : list byte;
  cp_auto_params : list byte;
  cp_native_sender : list byte;
}.
Inductive Call :=
  | CallClaim (p : CallParams) (signatures : list (list byte))
  | CallCancel (p : CallParams) (signatures : list (list byte))
  | CallRefund (token : evm_address) (p : CallParams) (signatures : list (list byte))
  | CallForwardRefund (submission_id : hash32)
  | CallRefundAndForward (p : CallParams) (signatures : list (list byte))
  | CallFinalize (p : CallParams)
  | CallNothing.   (* no input *)

(** The fields of alloy's [TransactionRequest] the keeper uses; [tr_input] is the call
    its input encodes. *)
Record TransactionRequest := MkRequest {
  tr_from : option evm_address;
  tr_to : option evm_address;
  tr_value : Z;
  tr_input : Call;
  tr_nonce : option Z;                       (* u64 *)
  tr_gas : option Z;                         (* u64 *)
  tr_gas_price : option Z;                   (* u128, as the next two *)
  tr_max_fee_per_gas : option Z;
  tr_max_priority_fee_per_gas : option Z;
}.
(** What a call builder makes: an address and an input. *)
Definition call_request (to : evm_address) (c : Call) : TransactionRequest :=
  MkRequest None (Some to) 0 c None None None None None.
Definition set_from (a : evm_address) (t : TransactionRequest) : TransactionRequest :=
  MkRequest (Some a) (tr_to t) (tr_value t) (tr_input t) (tr_nonce t) (tr_gas t) (tr_gas_price t)
    (tr_max_fee_per_gas t) (tr_max_priority_fee_per_gas t).
Definition set_nonce (n : Z) (t : TransactionRequest) : TransactionRequest :=
  MkRequest (tr_from t) (tr_to t) (tr_value t) (tr_input t) (Some n) (tr_gas t) (tr_gas_price t)
    (tr_max_fee_per_gas t) (tr_max_priority_fee_per_gas t).
Definition set_gas (g : Z) (t : TransactionRequest) : TransactionRequest :=
  MkRequest (tr_from t) (tr_to t) (tr_value t) (tr_input t) (tr_nonce t) (Some g) (tr_gas_price t)
    (tr_max_fee_per_gas t) (tr_max_priority_fee_per_gas t).
Definition set_gas_price (p : Z) (t : TransactionRequest) : TransactionRequest :=
  MkRequest (tr_from t) (tr_to t) (tr_value t) (tr_input t) (tr_nonce t) (tr_gas t) (Some p)
    (tr_max_fee_per_gas t) (tr_max_priority_fee_per_gas t).
Definition set_fees (max_fee tip : Z) (t : TransactionRequest) : TransactionRequest :=
  MkRequest (tr_from t) (tr_to t) (tr_value t) (tr_input t) (tr_nonce t) (tr_gas t) (tr_gas_price t)
    (Some max_fee) (Some tip).

(** [Eip1559Estimation] *)
Record Estimation := MkEstimation { est_max_fee : Z; est_max_priority_fee : Z }.

(** * Fees *)

Definition nanos (secs : Z) : Z := secs * 1000000000.
(** Durations and instants are nanoseconds. *)
Definition RECEIPT_TIMEOUT : Z := nanos 120.
Definition HEAD_CHECK_INTERVAL : Z := RECEIPT_TIMEOUT / 12.
Definition GATE_REFRESH_INTERVAL : Z := nanos 60.
Definition FEE_BUMP_DIVISOR : Z := 8.
Definition MAX_FEE_BUMPS : Z := 5.
Definition MAX_FEE_MULTIPLE : Z := 4.
Definition SELF_TRANSFER_GAS : Z := 21000.

Definition saturating_mul (w a b : Z) : Z := Z.min (u_max w) (a * b).
(** [saturating_duration_since], and [elapsed] *)
Definition since (now before : Z) : Z := Z.max 0 (now - before).

Definition bumped_fee (current : Z) (estimate : option Z) (ceiling : Z) : option Z :=
  let min := saturating_add 128 (saturating_add 128 current (current / FEE_BUMP_DIVISOR)) 1 in
  if ceiling <? min then None
  else Some (Z.min (match estimate with None => min | Some e => Z.max e min end) ceiling).

Definition reprice (tx : TransactionRequest) (estimate : option Estimation) (gas_price_estimate : option Z)
    (ceiling : Z) : option TransactionRequest :=
  match tr_max_fee_per_gas tx, tr_max_priority_fee_per_gas tx with
  | Some max_fee, Some tip =>
      new_max ← bumped_fee max_fee (est_max_fee <$> estimate) ceiling;
      new_tip ← bumped_fee tip (est_max_priority_fee <$> estimate) ceiling;
      Some (set_fees new_max (Z.min new_tip new_max) tx)
  | _, _ =>
      price ← tr_gas_price tx;
      new_price ← bumped_fee price gas_price_estimate ceiling;
      Some (set_gas_price new_price tx)
  end.

Definition fee_cap (tx : TransactionRequest) : Z :=
  match tr_max_fee_per_gas tx with
  | Some f => f
  | None => default 0 (tr_gas_price tx)
  end.

(** * A remembered nonce *)

Record InFlight := MkInFlight {
  fl_tx : TransactionRequest;
  fl_hashes : list hash32;     (* oldest first *)
  fl_bumps : Z;                (* u32 *)
  fl_last_sent : Z;
  fl_ceiling : Z;
}.
Definition InFlight_new (tx : TransactionRequest) (hash : hash32) (sent_at : Z) : InFlight :=
  MkInFlight tx [hash] 0 sent_at (saturating_mul 128 (fee_cap tx) MAX_FEE_MULTIPLE).

Inductive TxProbe := Mined (reverted : bool) | InMempool | Gone | Unknown.
Inductive PendingAction := Landed | PendingWait | Resubmit.
#[export] Instance TxProbe_eq_dec : EqDecision TxProbe.
Proof. solve_decision. Defined.
#[export] Instance PendingAction_eq_dec : EqDecision PendingAction.
Proof. solve_decision. Defined.

Definition resolve_pending (probe : TxProbe) : PendingAction :=
  match probe with
  | Mined false => Landed
  | Mined true | Gone => Resubmit
  | InMempool | Unknown => PendingWait
  end.
Definition probe_rank (p : TxProbe) : Z :=
  match p with Mined _ => 3 | InMempool => 2 | Unknown => 1 | Gone => 0 end.
Definition combine_probes (probes : list TxProbe) : TxProbe :=
  fold_left (fun acc p => if probe_rank acc <? probe_rank p then p else acc) probes Gone.

(** * The head of the queue *)

Record HeadStall := MkHeadStall {
  hs_nonce : Z;
  hs_since : Z;
  hs_last_sent : option Z;
  hs_bumps : Z;
  hs_last_tx : option TransactionRequest;
  hs_ceiling : option Z;
}.
Abbreviation HeadWatch := (option HeadStall).
Inductive HeadAction := HeadIdle | HeadWait | HeadReplace (nonce bump : Z) | HeadExhausted (nonce : Z).

Definition observe (watch : HeadWatch) (latest pending : Z) (tracked : bool) (now : Z) : HeadAction * HeadWatch :=
  if (pending <=? latest) || tracked then (HeadIdle, None)
  else
    match watch with
    | Some s =>
        if hs_nonce s =? latest then
          if since now (default (hs_since s) (hs_last_sent s)) <? RECEIPT_TIMEOUT then (HeadWait, watch)
          else if MAX_FEE_BUMPS <=? hs_bumps s then
            (HeadExhausted latest,
             Some (MkHeadStall (hs_nonce s) (hs_since s) (Some now) (hs_bumps s) (hs_last_tx s) (hs_ceiling s)))
          else
            (HeadReplace latest (hs_bumps s + 1),
             Some (MkHeadStall (hs_nonce s) (hs_since s) (Some now) (hs_bumps s + 1) (hs_last_tx s) (hs_ceiling s)))
        else (HeadWait, Some (MkHeadStall latest now None 0 None None))
    | None => (HeadWait, Some (MkHeadStall latest now None 0 None None))
    end.

(** The request, and what the ceiling becomes. *)
Definition head_replacement (from : evm_address) (nonce : Z) (prev : option TransactionRequest)
    (estimate : option Estimation) (gas_price : option Z) (ceiling : option Z)
    : option TransactionRequest * option Z :=
  match prev with
  | Some prev => (c ← ceiling; reprice prev estimate gas_price c, ceiling)
  | None =>
      let base := MkRequest (Some from) (Some from) 0 CallNothing (Some nonce) (Some SELF_TRANSFER_GAS) in
      match estimate, gas_price with
      | Some e, _ =>
          let base := base None (Some (est_max_fee e)) (Some (est_max_priority_fee e)) in
          let cap := saturating_mul 128 (fee_cap base) MAX_FEE_MULTIPLE in
          (reprice base None None cap, Some cap)
      | None, Some p =>
          let base := base (Some p) None None in
          let cap := saturating_mul 128 (fee_cap base) MAX_FEE_MULTIPLE in
          (reprice base None None cap, Some cap)
      | None, None => (None, ceiling)
      end
  end.

(** * Replacements *)

(** Fees as [populate] fills them: both EIP-1559 fields with the tip inside the maximum,
    or a gas price. *)
Definition fees_wf (tx : TransactionRequest) : Prop :=
  match tr_max_fee_per_gas tx, tr_max_priority_fee_per_gas tx, tr_gas_price tx with
  | Some m, Some t, None => 0 <= t <= m
  | None, None, Some p => 0 <= p
  | _, _, _ => False
  end.
(** The rest of a request. *)
Definition same_call (a b : TransactionRequest) : Prop :=
  tr_from a = tr_from b /\ tr_to a = tr_to b /\ tr_value a = tr_value b /\ tr_input a = tr_input b /\
  tr_nonce a = tr_nonce b /\ tr_gas a = tr_gas b.
(** What a node asks of a transaction that takes the place of another: a tenth more. *)
Definition outbids (old new : TransactionRequest) : Prop :=
  match tr_max_fee_per_gas old, tr_max_priority_fee_per_gas old, tr_max_fee_per_gas new,
        tr_max_priority_fee_per_gas new with
  | Some m, Some t, Some m', Some t' => 11 * m <= 10 * m' /\ 11 * t <= 10 * t'
  | None, None, None, None =>
      exists p p', tr_gas_price old = Some p /\ tr_gas_price new = Some p' /\ 11 * p <= 10 * p'
  | _, _, _, _ => False
  end.

#[export] Instance same_call_equiv : Equivalence same_call.
Proof.
  split; unfold same_call; [done| |].
  - intros a b H. destruct_and!. split_and!; congruence.
  - intros a b c H1 H2. destruct_and!. split_and!; congruence.
Qed.

Lemma bumped_fee_Some current estimate ceiling r :
  0 <= current -> ceiling < u_max 128 -> bumped_fee current estimate ceiling = Some r ->
  current + current / 8 + 1 <= r <= ceiling.
Proof.
  intros Hc Hu. unfold bumped_fee, saturating_add, FEE_BUMP_DIVISOR.
  pose proof (Z.div_pos current 8 Hc ltac:(lia)) as Hd.
  destruct (Z.ltb_spec ceiling (Z.min (u_max 128) (Z.min (u_max 128) (current + current / 8) + 1))) as [H|H]; [done|].
  intros [= <-]. destruct estimate; lia.
Qed.
Lemma bumped_tenth c r : 0 <= c -> c + c / 8 + 1 <= r -> 11 * c <= 10 * r.
Proof. intros Hc Hr. pose proof (Z.div_mod c 8 ltac:(lia)). pose proof (Z.mod_pos_bound c 8 ltac:(lia)). lia. Qed.
(** A bump is refused only when the minimum is above the ceiling. *)
Lemma bumped_fee_None current estimate ceiling : 0 <= current ->
  bumped_fee current estimate ceiling = None -> ceiling < current + current / 8 + 1.
Proof.
  intros Hc. unfold bumped_fee, saturating_add, FEE_BUMP_DIVISOR.
  pose proof (Z.div_pos current 8 Hc ltac:(lia)) as Hd.
  destruct (Z.ltb_spec ceiling (Z.min (u_max 128) (Z.min (u_max 128) (current + current / 8) + 1))) as [H|H]; [|done].
  intros _. lia.
Qed.

Lemma reprice_same_call tx estimate gas_price ceiling tx' :
  reprice tx estimate gas_price ceiling = Some tx' -> same_call tx tx'.
Proof.
  unfold reprice. intros H. assert (H2 : forall p, (price ← tr_gas_price tx; new ← bumped_fee price gas_price ceiling;
    Some (set_gas_price new tx)) = Some p -> same_call tx p).
  { intros p Hp. apply bind_Some in Hp as (? & _ & Hp). apply bind_Some in Hp as (? & _ & [= <-]). by unfold same_call. }
  destruct (tr_max_fee_per_gas tx), (tr_max_priority_fee_per_gas tx); [|by apply H2..].
  apply bind_Some in H as (? & _ & H). apply bind_Some in H as (? & _ & [= <-]). by unfold same_call.
Qed.
Lemma reprice_Some tx estimate gas_price ceiling tx' :
  fees_wf tx -> ceiling < u_max 128 -> reprice tx estimate gas_price ceiling = Some tx' ->
  fees_wf tx' /\ same_call tx tx' /\ outbids tx tx' /\ fee_cap tx < fee_cap tx' <= ceiling.
Proof.
  unfold fees_wf, reprice, outbids, fee_cap. intros Hwf Hc.
  destruct (tr_max_fee_per_gas tx) as [m|] eqn:E1; destruct (tr_max_priority_fee_per_gas tx) as [t|] eqn:E2;
    destruct (tr_gas_price tx) as [p|] eqn:Ep; try done.
  - destruct (bumped_fee m _ _) as [m'|] eqn:Em; [|done]. destruct (bumped_fee t _ _) as [t'|] eqn:Et; [|done].
    intros [= <-]. cbn. rewrite ?E1, ?E2, Ep. apply bumped_fee_Some in Em; [|lia|done]. apply bumped_fee_Some in Et; [|lia|done].
    pose proof (Z.div_pos t 8 ltac:(lia) ltac:(lia)). pose proof (Z.div_pos m 8 ltac:(lia) ltac:(lia)).
    assert (t / 8 <= m / 8) by (apply Z.div_le_mono; lia).
    split_and!; try lia; [by unfold same_call|apply bumped_tenth; lia|].
    apply bumped_tenth; lia.
  - cbn [mbind option_bind]. destruct (bumped_fee p _ _) as [p'|] eqn:E; [|done]. intros [= <-]. cbn. rewrite E1, E2.
    apply bumped_fee_Some in E; [|lia|done]. pose proof (Z.div_pos p 8 ltac:(lia) ltac:(lia)).
    split_and!; try lia; [by unfold same_call|]. exists p, p'. split_and!; [done|done|]. apply bumped_tenth; lia.
Qed.

(** * Probes *)

Lemma combine_probes_fold l acc :
  fold_left (fun acc p => if probe_rank acc <? probe_rank p then p else acc) l acc = acc \/
  fold_left (fun acc p => if probe_rank acc <? probe_rank p then p else acc) l acc ∈ l.
Proof.
  revert acc. induction l as [|p l IH]; intros acc; simpl; [by left|].
  destruct (probe_rank acc <? probe_rank p).
  - right. destruct (IH p) as [->|H]; [by left|by right].
  - destruct (IH acc) as [->|H]; [by left|right; by right].
Qed.
Lemma combine_probes_rank l acc p : p ∈ acc :: l ->
  probe_rank p <= probe_rank (fold_left (fun acc p => if probe_rank acc <? probe_rank p then p else acc) l acc).
Proof.
  revert acc p. induction l as [|q l IH]; intros acc p; simpl.
  { intros ->%list_elem_of_singleton. lia. }
  intros H. destruct (Z.ltb_spec (probe_rank acc) (probe_rank q)) as [Hlt|Hge].
  - apply elem_of_cons in H as [->|H]; [|by apply IH]. pose proof (IH q q ltac:(by left)). lia.
  - apply elem_of_cons in H as [->|H]; [apply IH; by left|].
    apply elem_of_cons in H as [->|H]; [|apply IH; by right]. pose proof (IH acc acc ltac:(by left)). lia.
Qed.

(** A nonce is given up only when every hash is gone, or one was mined and reverted; it is
    settled only by a receipt. *)
Lemma combine_probes_spec l :
  match resolve_pending (combine_probes l) with
  | Landed => Mined false ∈ l
  | Resubmit => Mined true ∈ l \/ Forall (fun p => p = Gone) l
  | PendingWait => InMempool ∈ l \/ Unknown ∈ l
  end.
Proof.
  unfold combine_probes. set (f := fun acc p => _).
  pose proof (combine_probes_fold l Gone) as H. pose proof (combine_probes_rank l Gone) as Hr.
  fold f in H, Hr. destruct (fold_left f l Gone) as [[]| | |] eqn:E; cbn [resolve_pending].
  1, 2: (destruct H as [[=]|H]; auto).
  - destruct H as [[=]|H]; auto.
  - right. apply Forall_forall. intros p Hp. specialize (Hr p ltac:(by right)). by destruct p.
  - destruct H as [[=]|H]; auto.
Qed.

(** * The head watch *)

(** Market prices small enough that four times one fits in 128 bits. *)
Definition estimation_ok (e : Estimation) : Prop :=
  0 <= est_max_priority_fee e <= est_max_fee e /\ est_max_fee e < 2 ^ 126.
Definition price_ok (p : Z) : Prop := 0 <= p < 2 ^ 126.

Section Head.
Variable from : evm_address.

Definition self_transfer (nonce : Z) (tx : TransactionRequest) : Prop :=
  tr_from tx = Some from /\ tr_to tx = Some from /\ tr_value tx = 0 /\ tr_input tx = CallNothing /\
  tr_nonce tx = Some nonce /\ tr_gas tx = Some SELF_TRANSFER_GAS.
(** What a stall remembers of its replacements: their number, the last of them and the
    ceiling fixed at the first. *)
Definition stall_ok (s : HeadStall) : Prop :=
  0 <= hs_bumps s <= MAX_FEE_BUMPS /\ (hs_bumps s = 0 -> hs_last_tx s = None) /\
  match hs_last_tx s with
  | None => True
  | Some tx => fees_wf tx /\ self_transfer (hs_nonce s) tx /\
      exists c, hs_ceiling s = Some c /\ c < u_max 128 /\ fee_cap tx <= c
  end.
Definition watch_ok (w : HeadWatch) : Prop := match w with None => True | Some s => stall_ok s end.

Lemma observe_ok w latest pending tracked now : watch_ok w -> watch_ok (observe w latest pending tracked now).2.
Proof.
  unfold observe. intros H. assert (Hn : forall n t, stall_ok (MkHeadStall n t None 0 None None)).
  { intros. unfold stall_ok, MAX_FEE_BUMPS; cbn. split; [lia|]. by split. }
  destruct (_ || _); [done|]. destruct w as [s|]; [|apply Hn].
  destruct (hs_nonce s =? latest); [|apply Hn].
  destruct (_ <? RECEIPT_TIMEOUT); [done|]. destruct H as (Hb & Hz & Ht).
  destruct (Z.leb_spec MAX_FEE_BUMPS (hs_bumps s)); (split; [cbn; lia|]); (split; [cbn; try done; lia|done]).
Qed.
(** A replacement is decided only for a nonce nobody tracks, that the pool holds, and that
    has not moved for a whole window since it was first seen or last replaced. *)
Lemma observe_replace w latest pending tracked now n b w' :
  observe w latest pending tracked now = (HeadReplace n b, w') ->
  n = latest /\ latest < pending /\ tracked = false /\
  exists s, w = Some s /\ hs_nonce s = latest /\ hs_bumps s < MAX_FEE_BUMPS /\ b = hs_bumps s + 1 /\
    w' = Some (MkHeadStall (hs_nonce s) (hs_since s) (Some now) b (hs_last_tx s) (hs_ceiling s)) /\
    default (hs_since s) (hs_last_sent s) + RECEIPT_TIMEOUT <= now.
Proof.
  unfold observe. destruct (Z.leb_spec pending latest) as [|Hp]; [done|]. destruct tracked; [done|]. cbn [orb].
  destruct w as [s|]; [|done]. destruct (Z.eqb_spec (hs_nonce s) latest) as [Hn|]; [|done].
  destruct (Z.ltb_spec (since now (default (hs_since s) (hs_last_sent s))) RECEIPT_TIMEOUT) as [|Hs]; [done|].
  destruct (Z.leb_spec MAX_FEE_BUMPS (hs_bumps s)) as [|Hb]; [done|]. intros [= <- <- <-].
  split_and!; [done..|]. exists s. split_and!; try done.
  unfold since, RECEIPT_TIMEOUT, nanos in *. lia.
Qed.

Lemma first_replacement nonce base tx cap : fees_wf base -> self_transfer nonce base -> fee_cap base < 2 ^ 126 ->
  cap = saturating_mul 128 (fee_cap base) MAX_FEE_MULTIPLE -> reprice base None None cap = Some tx ->
  fees_wf tx /\ self_transfer nonce tx /\ cap = 4 * fee_cap base /\ cap < u_max 128 /\ fee_cap tx <= cap.
Proof.
  intros Hwf Hs Hf -> E. assert (Hc : saturating_mul 128 (fee_cap base) MAX_FEE_MULTIPLE = 4 * fee_cap base).
  { unfold saturating_mul, MAX_FEE_MULTIPLE, u_max. lia. }
  rewrite Hc in E |- *. assert (4 * fee_cap base < u_max 128) as Hu by (unfold u_max; lia).
  apply reprice_Some in E as (Hw & (E1 & E2 & E3 & E4 & E5 & E6) & _ & Hl); [|done|done].
  unfold self_transfer in *. rewrite <- E1, <- E2, <- E3, <- E4, <- E5, <- E6. destruct_and! Hs. split_and!; try done; lia.
Qed.
(** Whatever is sent is a transfer to oneself at that nonce, inside the ceiling; and the
    ceiling is four times the price the market asked at the first replacement. *)
Lemma head_replacement_Some nonce prev estimate gas_price ceiling tx c' :
  (forall e, estimate = Some e -> estimation_ok e) -> (forall p, gas_price = Some p -> price_ok p) ->
  match prev with
  | None => True
  | Some p => fees_wf p /\ self_transfer nonce p /\ exists c, ceiling = Some c /\ c < u_max 128 /\ fee_cap p <= c
  end ->
  head_replacement from nonce prev estimate gas_price ceiling = (Some tx, c') ->
  fees_wf tx /\ self_transfer nonce tx /\ (exists c, c' = Some c /\ c < u_max 128 /\ fee_cap tx <= c) /\
  match prev with
  | None => (exists e, estimate = Some e /\ c' = Some (4 * est_max_fee e)) \/
      exists p, gas_price = Some p /\ c' = Some (4 * p)
  | Some p => c' = ceiling /\ outbids p tx
  end.
Proof.
  unfold head_replacement. intros He Hg Hp E. destruct prev as [p|].
  - destruct Hp as (Hw & Hs & c & -> & Hc & _). cbn [mbind option_bind] in E. injection E as E <-.
    apply reprice_Some in E as (Hw' & (E1 & E2 & E3 & E4 & E5 & E6) & Ho & Hl); [|done|done].
    split_and!; [done| |exists c; split_and!; [done|done|lia]|done|done].
    unfold self_transfer in *. rewrite <- E1, <- E2, <- E3, <- E4, <- E5, <- E6. exact Hs.
  - destruct estimate as [e|]; [|destruct gas_price as [p|]; [|done]].
    + destruct (He e eq_refl) as [H1 H2]. injection E as E <-.
      apply (first_replacement nonce) in E as (? & ? & Hc & ? & ?); [|done|done|done|done]. split_and!; [done..| |left; exists e; by rewrite Hc].
      eexists. by split_and!.
    + destruct (Hg p eq_refl) as [H1 H2]. injection E as E <-.
      apply (first_replacement nonce) in E as (? & ? & Hc & ? & ?); [|done|done|done|done]. split_and!; [done..| |right; exists p; by rewrite Hc].
      eexists. by split_and!.
Qed.
End Head.
