(* ===== verification/KeeperSigs.v ===== *)
(** Which signatures the keeper puts in calldata (keeper/src/main.rs), and what the EVM
    gate does with them (contracts/src/Gate.sol, [_verifySignatures]): rows of an
    untrusted store are recovered, deduplicated by the recovered address, filtered to
    the gate's validators and ordered; the result is an array the gate accepts exactly
    when enough validators signed. *)

From S2P Require Import Prelude.
From S2P Require Import Text.
From S2P Require Import SolanaRuntime.
From S2P Require Import ListSort.
From S2P Require Import GateTypes.
From S2P Require Import HostRecord.
From S2P Require Import SigStore.
From Stdlib Require Import Sorting.Sorted.

(** [ECDSA.recover] of OpenZeppelin over the EIP-191 digest of a message: it takes what
    alloy recovers when the bytes are in canonical form, and never yields the zero
    address. *)
Class Ecdsa := ecdsa_recover : hash32 -> list byte -> option evm_address.
Class EcdsaLaws `{Alloy, Ecdsa} : Prop := {
  ecdsa_canonical : forall m raw a, recover_address_from_msg m raw = Some a ->
    signature_normalized raw = Some raw -> ecdsa_recover m raw = Some a;
  ecdsa_nonzero : forall m raw a, ecdsa_recover m raw = Some a -> a <> arr_zero 20;
}.

Inductive Membership := Fresh (b : bool) | Cached (b : bool).
Definition is_member (m : Membership) : bool := match m with Fresh b | Cached b => b end.
Definition is_cached (m : Membership) : bool := match m with Cached _ => true | Fresh _ => false end.

Definition addr_leb (a b : evm_address) : bool := bytes_leb (arr_bytes a) (arr_bytes b).
(** Pairs in lexicographic order; [false < true]. *)
Definition rank_leb (x y : bool * evm_address) : bool :=
  if Bool.eqb x.1 y.1 then addr_leb x.2 y.2 else negb x.1.

Inductive GateRevert :=
  | TooManySignatures (got max : Z)
  | InvalidSignature
  | InvalidSignerOrder
  | NotEnoughSignatures (got want : Z).

Section Sigs.
Context {RT : Runtime} {HX : HexCodec} {AL : Alloy}.

(** * The keeper *)

Abbreviation resolved := (evm_address * Membership * SignerSig)%type.

Fixpoint authenticate_loop (id : hash32) (kind : SigKind) (seen : gset evm_address) (sigs : list SignerSig)
    : list (evm_address * SignerSig) :=
  match sigs with
  | [] => []
  | s :: sigs =>
      match verify_attestation id kind s with
      | Ok recovered =>
          if bool_decide (recovered ∈ seen) then authenticate_loop id kind seen sigs
          else (recovered, MkSignerSig (hex0x (arr_bytes recovered)) (sig_signature s)) ::
               authenticate_loop id kind ({[recovered]} ∪ seen) sigs
      | Err _ => authenticate_loop id kind seen sigs
      end
  end.
Definition authenticate_signatures (id : hash32) (kind : SigKind) (sigs : list SignerSig) :=
  authenticate_loop id kind ∅ sigs.

(** [truncate] to a [usize] that may be far above the length. *)
Definition truncate {A} (n : Z) (l : list A) : list A := take (Z.to_nat (Z.min n (len l))) l.
Definition filter_members (l : list resolved) (validator_count : Z) : list SignerSig :=
  let kept := List.filter (fun r => is_member r.1.2) l in
  let kept := sort_by_key (fun r => (is_cached r.1.2, r.1.1)) rank_leb kept in
  let kept := truncate validator_count kept in
  map snd (sort_by_key (fun r => r.1.1) addr_leb kept).

Definition bytes_of (s : text) : option (list byte) :=
  let s := strip_0x s in if bool_decide (s = []) then Some [] else hex_decode s.
Definition signature_bytes (s : SignerSig) : option (list byte) :=
  match canonical_signature s with
  | Ok canonical => bytes_of (sig_signature canonical)
  | Err _ => bytes_of (sig_signature s)
  end.
Definition sorted_signatures (sigs : list SignerSig) : option (list (list byte)) :=
  mapM signature_bytes
    (sort_by_key (fun s => default (arr_zero 20) (address_from_str (sig_signer s))) addr_leb sigs).

(** * The gate *)

(** [_verifySignatures]; the mapping [isValidator] is a function. *)
Section Gate.
Context {EC : Ecdsa}.
Variables (threshold validator_count : Z) (is_validator : evm_address -> bool).

Fixpoint gate_verify_loop (message : hash32) (signatures : list (list byte)) (last : evm_address) (count : Z)
    : result GateRevert Z :=
  match signatures with
  | [] => Ok count
  | s :: signatures =>
      signer ← ok_or (ecdsa_recover message s) InvalidSignature;
      _ ← require (negb (addr_leb signer last)) InvalidSignerOrder;
      gate_verify_loop message signatures signer (if is_validator signer then count + 1 else count)
  end.
Definition gate_verify_signatures (message : hash32) (signatures : list (list byte)) : result GateRevert unit :=
  _ ← require (len signatures <=? validator_count) (TooManySignatures (len signatures) validator_count);
  count ← gate_verify_loop message signatures (arr_zero 20) 0;
  require (threshold <=? count) (NotEnoughSignatures count threshold).
End Gate.

(** * Orders *)

Lemma addr_leb_total a b : addr_leb a b = false -> addr_leb b a = true.
Proof. apply bytes_leb_total. Qed.
Lemma addr_leb_trans a b c : addr_leb a b = true -> addr_leb b c = true -> addr_leb a c = true.
Proof. apply bytes_leb_trans. Qed.
Lemma addr_leb_antisym a b : addr_leb a b = true -> addr_leb b a = true -> a = b.
Proof. intros H1 H2. apply arr_eq. by apply bytes_leb_antisym. Qed.
#[local] Transparent zeros.
Lemma addr_zero_leb a : a <> arr_zero 20 -> addr_leb a (arr_zero 20) = false.
Proof.
  intros Hn. destruct (addr_leb a (arr_zero 20)) eqn:E; [|done]. destruct Hn. apply addr_leb_antisym; [done|].
  destruct (addr_leb (arr_zero 20) a) eqn:E'; [done|]. unfold addr_leb in E, E'.
  assert (forall n l, length l = n -> bytes_leb (zeros n) l = true) as Hz.
  { clear. intros n. induction n as [|n IH]; intros [|b l] Hl; simpl in Hl; try done. unfold zeros. cbn [replicate bytes_leb].
    change (Z_of_byte Byte.x00) with 0. pose proof (Z_of_byte_range b).
    destruct (Z.ltb_spec 0 (Z_of_byte b)); [done|]. destruct (Z.ltb_spec (Z_of_byte b) 0); [lia|]. apply IH. lia. }
  change (arr_bytes (arr_zero 20)) with (zeros 20) in E'. by rewrite (Hz 20%nat a) in E' by apply length_arr.
Qed.
#[local] Opaque zeros.
Lemma sort_id {A} (key : A -> evm_address) (l : list A) :
  StronglySorted (fun x y => addr_leb (key x) (key y) = true) l -> sort_by_key key addr_leb l = l.
Proof.
  unfold sort_by_key. assert (forall acc, StronglySorted (fun x y => addr_leb (key x) (key y) = true) (acc ++ l) ->
    fold_left (fun acc x => insert_by key addr_leb x acc) l acc = acc ++ l) as H; [|apply (H [])].
  induction l as [|x l IH]; intros acc Hs; cbn [fold_left]; [by rewrite app_nil_r|].
  assert (insert_by key addr_leb x acc = acc ++ [x]) as ->.
  { clear IH. induction acc as [|y acc IHa]; [done|]. inversion Hs as [|? ? Hs' Hf]; subst. cbn [insert_by app].
    rewrite Forall_forall in Hf. rewrite (Hf x) by set_solver.
    by rewrite IHa. }
  rewrite IH; [by rewrite <- app_assoc|by rewrite <- app_assoc].
Qed.

(** * Authentic rows *)

(** A row under the recovered address, whose bytes that address signed over [m]. *)
Definition entry_ok (m : hash32) (e : evm_address * SignerSig) : Prop :=
  sig_signer e.2 = hex0x (arr_bytes e.1) /\
  exists raw, hex_field "signature" (sig_signature e.2) = Ok raw /\ recover_address_from_msg m raw = Some e.1.

Lemma verify_attestation_Ok id kind s a : verify_attestation id kind s = Ok a ->
  exists raw, hex_field "signature" (sig_signature s) = Ok raw /\
    recover_address_from_msg (digest kind id) raw = Some a.
Proof.
  unfold verify_attestation, verify_signature. intros H.
  apply result_bind_Ok in H as (c & _ & H). apply result_bind_Ok in H as (raw & Hraw & H).
  apply result_bind_Ok in H as (r & Hr%ok_or_Ok & H). apply result_bind_Ok in H as (u & _ & [= <-]). eauto.
Qed.

Lemma authenticate_loop_spec id kind seen sigs :
  let l := authenticate_loop id kind seen sigs in
  NoDup (map fst l) /\ (forall a, a ∈ map fst l -> a ∉ seen) /\ Forall (entry_ok (digest kind id)) l /\
  (forall s a, s ∈ sigs -> verify_attestation id kind s = Ok a -> a ∈ seen \/ a ∈ map fst l).
Proof.
  revert seen. induction sigs as [|s sigs IH]; intros seen; cbn.
  { split_and!; [constructor|set_solver|constructor|set_solver]. }
  destruct (verify_attestation id kind s) as [a|] eqn:E.
  - case_bool_decide as Ha.
    + destruct (IH seen) as (H1 & H2 & H3 & H4). split_and!; [done..|].
      intros s' a' [->|Hs]%elem_of_cons Hv; [left; congruence|eauto].
    + destruct (IH ({[a]} ∪ seen)) as (H1 & H2 & H3 & H4). cbn. split_and!.
      * constructor; [|done]. intros Hin. specialize (H2 a Hin). set_solver.
      * intros b [->|Hb]%elem_of_cons; [done|]. specialize (H2 b Hb). set_solver.
      * constructor; [|done]. split; [done|]. exact (verify_attestation_Ok _ _ _ _ E).
      * intros s' a' [->|Hs]%elem_of_cons Hv; [assert (a' = a) as -> by congruence; set_solver|].
        destruct (H4 s' a' Hs Hv) as [H|H]; set_solver.
  - destruct (IH seen) as (H1 & H2 & H3 & H4). split_and!; [done..|].
    intros s' a' [->|Hs]%elem_of_cons Hv; [congruence|eauto].
Qed.

Lemma authenticate_signers id kind seen sigs a : a ∈ map fst (authenticate_loop id kind seen sigs) ->
  exists s, s ∈ sigs /\ verify_attestation id kind s = Ok a.
Proof.
  revert seen. induction sigs as [|s sigs IH]; intros seen; cbn; [set_solver|].
  assert (Hrec : forall seen, a ∈ map fst (authenticate_loop id kind seen sigs) ->
    exists s', s' ∈ s :: sigs /\ verify_attestation id kind s' = Ok a).
  { intros seen' H. destruct (IH _ H) as (s' & ? & ?). exists s'. set_solver. }
  destruct (verify_attestation id kind s) as [a'|] eqn:E; [|apply Hrec]. case_bool_decide; [apply Hrec|]. cbn.
  intros [->|H']%elem_of_cons; [|by eapply Hrec]. exists s. set_solver.
Qed.

(** * The members that are kept *)

Definition ascending {A} (key : A -> evm_address) : list A -> Prop :=
  StronglySorted (fun x y => addr_leb (key y) (key x) = false).

Lemma sorted_ascending {A} (key : A -> evm_address) l : NoDup (map key l) -> ascending key (sort_by_key key addr_leb l).
Proof.
  intros Hd. pose proof (sort_by_key_Sorted key addr_leb addr_leb_total addr_leb_trans l) as Hs.
  rewrite <- (sort_by_key_Permutation key addr_leb l) in Hd. unfold ascending.
  induction Hs as [|x k Hk IH Hf]; [constructor|]. cbn in Hd. apply NoDup_cons in Hd as [Hx Hd].
  constructor; [by apply IH|]. rewrite Forall_forall in Hf |- *. intros y Hy. specialize (Hf y Hy).
  destruct (addr_leb (key y) (key x)) eqn:E; [|done]. destruct Hx.
  rewrite (addr_leb_antisym _ _ Hf E). apply list_elem_of_In, in_map, list_elem_of_In, Hy.
Qed.
Lemma ascending_sorted {A} (key : A -> evm_address) l : ascending key l -> sort_by_key key addr_leb l = l.
Proof.
  intros H. apply sort_id. induction H as [|x l Hl IH Hf]; constructor; [done|].
  eapply Forall_impl; [exact Hf|]. intros y Hy. by apply addr_leb_total.
Qed.
Lemma ascending_map {A B} (f : A -> B) (key : B -> evm_address) l :
  ascending (fun x => key (f x)) l -> ascending key (map f l).
Proof.
  induction 1 as [|x l Hl IH Hf]; cbn; constructor; [done|]. apply Forall_forall.
  intros y Hy%list_elem_of_In. apply in_map_iff in Hy as (z & <- & Hz). rewrite Forall_forall in Hf.
  by apply Hf, list_elem_of_In.
Qed.

Definition addr_of (r : resolved) : evm_address := r.1.1.
Definition entry_of (r : resolved) : evm_address * SignerSig := (r.1.1, r.2).

Lemma filter_members_spec l validator_count : NoDup (map addr_of l) -> 0 <= validator_count ->
  exists k, filter_members l validator_count = map snd k /\ ascending addr_of k /\
    (forall r, r ∈ k -> r ∈ l /\ is_member r.1.2 = true) /\
    len k = Z.min validator_count (len (List.filter (fun r => is_member r.1.2) l)) /\
    (len (List.filter (fun r => is_member r.1.2) l) <= validator_count -> k ≡ₚ List.filter (fun r => is_member r.1.2) l).
Proof.
  intros Hd Hc. unfold filter_members. set (kept := List.filter _ l).
  set (ranked := sort_by_key (fun r : resolved => (is_cached r.1.2, r.1.1)) rank_leb kept).
  assert (Hp : ranked ≡ₚ kept) by apply sort_by_key_Permutation.
  assert (Hin : forall r, r ∈ kept -> r ∈ l /\ is_member r.1.2 = true).
  { intros r Hr%list_elem_of_In. apply filter_In in Hr as [Hr Hm]. by rewrite list_elem_of_In. }
  assert (Hk : NoDup (map addr_of kept)).
  { revert Hd. unfold kept. clear. induction l as [|r l IH]; cbn; [done|]. intros [Hr Hd]%NoDup_cons.
    destruct (is_member r.1.2); cbn; [|auto]. constructor; [|auto]. intros Hx%list_elem_of_In. apply Hr.
    apply in_map_iff in Hx as (y & E & Hy%filter_In). apply list_elem_of_In, in_map_iff. exists y. tauto. }
  assert (Ht : truncate validator_count ranked ⊆+ kept).
  { rewrite <- Hp. unfold truncate. apply sublist_submseteq, sublist_take. }
  eexists. split; [reflexivity|]. pose proof (sort_by_key_Permutation addr_of addr_leb (truncate validator_count ranked)) as Hs.
  split_and!.
  - apply (sorted_ascending addr_of). apply submseteq_Permutation in Ht as (rest & Hrest).
    rewrite Hrest, map_app in Hk. by apply NoDup_app in Hk as [Hk _].
  - intros r Hr. rewrite Hs in Hr. apply Hin. by eapply elem_of_submseteq.
  - unfold len in *. pose proof (Permutation_length Hs) as Hl. fold (addr_of) in *.
    change (Z.of_nat (length (sort_by_key addr_of addr_leb (truncate validator_count ranked))) =
      Z.min validator_count (Z.of_nat (length kept))). rewrite Hl. unfold truncate, len. rewrite length_take.
    rewrite (Permutation_length Hp). lia.
  - intros Hle. change (sort_by_key addr_of addr_leb (truncate validator_count ranked) ≡ₚ kept). rewrite Hs.
    unfold truncate. rewrite take_ge; [done|]. unfold len in *. rewrite (Permutation_length Hp). lia.
Qed.

(** * The gate accepts *)

Context {EC : Ecdsa} {HL : HexLaws} {ALL : AlloyLaws} {AW : AlloyPrints} {EL : EcdsaLaws}.

Lemma bytes_of_0x b : bytes_of (hex0x b) = Some b.
Proof.
  pose proof (hex_field_0x "" b) as H. unfold hex_field in H. unfold bytes_of. cbv zeta in *.
  case_bool_decide; [by injection H as <-|]. by apply ok_or_Ok in H.
Qed.
Lemma entry_signature m e : entry_ok m e ->
  exists raw, signature_bytes e.2 = Some raw /\ ecdsa_recover m raw = Some e.1.
Proof.
  intros (_ & raw & Hraw & Hr). destruct (recovered_parses _ _ _ Hr) as [raw' Hn].
  destruct (normalized_keeps _ _ _ _ Hr Hn) as [Hr' Hn']. exists raw'. split; [|by apply ecdsa_canonical].
  unfold signature_bytes, canonical_signature. rewrite Hraw. cbn [mbind result_bind]. rewrite Hn. cbn. apply bytes_of_0x.
Qed.
Lemma entries_signatures m k : Forall (entry_ok m) k -> exists raws, mapM signature_bytes (map snd k) = Some raws /\
  Forall2 (fun raw e => ecdsa_recover m raw = Some e.1) raws k.
Proof.
  induction 1 as [|e k He _ (raws & E & H)]; [by exists []|]. destruct (entry_signature m e He) as (raw & Er & Hr).
  exists (raw :: raws). split; [|by constructor]. cbn. rewrite Er. cbn. by rewrite E.
Qed.
Lemma gate_verify_loop_ascending is_validator m raws (k : list (evm_address * SignerSig)) last count :
  Forall2 (fun raw e => ecdsa_recover m raw = Some e.1) raws k -> ascending fst k ->
  Forall (fun e => addr_leb e.1 last = false) k ->
  gate_verify_loop is_validator m raws last count = Ok (count + len (List.filter (fun e => is_validator e.1) k)).
Proof.
  intros H. revert last count. induction H as [|raw e raws k Hr H IH]; intros last count Ha Hl; cbn [gate_verify_loop].
  { f_equal. unfold len. cbn. lia. }
  rewrite Hr. cbn [ok_or mbind result_bind]. inversion Hl as [|? ? He Hl']; subst. rewrite He. cbn.
  inversion Ha as [|? ? Ha' Hf]; subst. rewrite (IH e.1 _ Ha' Hf). f_equal.
  destruct (is_validator e.1); unfold len; cbn [length]; lia.
Qed.

(** What the keeper hands over for [entries], as the gate judges it. *)
Lemma relayed_signatures m k : ascending fst k -> Forall (entry_ok m) k -> exists raws,
  sorted_signatures (map snd k) = Some raws /\ len raws = len k /\
  forall is_validator, gate_verify_loop is_validator m raws (arr_zero 20) 0 =
    Ok (len (List.filter (fun e => is_validator e.1) k)).
Proof.
  intros Ha He. destruct (entries_signatures m k He) as (raws & E & H2). exists raws.
  assert (Hs : sort_by_key (fun s => default (arr_zero 20) (address_from_str (sig_signer s))) addr_leb (map snd k) = map snd k).
  { apply ascending_sorted, ascending_map. revert He Ha. clear -AW. induction 1 as [|e k (Hn & _) He IH]; intros Ha; [constructor|].
    inversion Ha as [|? ? Ha' Hf]; subst. constructor; [by apply IH|]. apply Forall_forall. intros y Hy.
    rewrite Forall_forall in He, Hf. destruct (He y Hy) as [Hny _]. rewrite Hn, Hny, !address_printed. by apply Hf. }
  split; [unfold sorted_signatures; by rewrite Hs|]. split; [unfold len; by rewrite (Forall2_length _ _ _ H2)|].
  intros V. rewrite (gate_verify_loop_ascending V m raws k _ 0 H2 Ha); [done|].
  apply Forall_forall. intros e Hin. apply list_elem_of_lookup_1 in Hin as [i Hi].
  destruct (Forall2_lookup_r _ _ _ _ _ H2 Hi) as (raw & _ & Hr). apply addr_zero_leb. by eapply ecdsa_nonzero.
Qed.

(** A ballot: rows in signer order, each signed by the signer it names, each from an
    address the gate counts. *)
Record ballot (m : hash32) (is_validator : evm_address -> bool) (k : list (evm_address * SignerSig)) : Prop := {
  bl_ascending : ascending fst k;
  bl_signed : Forall (entry_ok m) k;
  bl_members : Forall (fun e => is_validator e.1 = true) k;
}.
Lemma filter_forall_id {A} (f : A -> bool) l : Forall (fun x => f x = true) l -> List.filter f l = l.
Proof. induction 1 as [|x l Hx _ IH]; cbn; [done|]. by rewrite Hx, IH. Qed.
Lemma ballot_accepted m is_validator k threshold validator_count : ballot m is_validator k ->
  threshold <= len k <= validator_count -> exists raws, sorted_signatures (map snd k) = Some raws /\
    gate_verify_signatures threshold validator_count is_validator m raws = Ok tt.
Proof.
  intros [Ha Hs Hm] Hk. destruct (relayed_signatures m k Ha Hs) as (raws & E & Hl & Hv). exists raws. split; [done|].
  unfold gate_verify_signatures. rewrite Hl, (proj2 (Z.leb_le _ _)) by lia. cbn [require mbind result_bind].
  rewrite Hv, filter_forall_id by done. cbn. by rewrite (proj2 (Z.leb_le _ _)) by lia.
Qed.
Lemma ascending_NoDup {A} (key : A -> evm_address) l : ascending key l -> NoDup (map key l).
Proof.
  induction 1 as [|x l Hl IH Hf]; cbn; constructor; [|done]. intros Hx%list_elem_of_In.
  apply in_map_iff in Hx as (y & E & Hy%list_elem_of_In). rewrite Forall_forall in Hf. specialize (Hf y Hy).
  rewrite E in Hf. unfold addr_leb in Hf. by rewrite bytes_leb_refl in Hf.
Qed.
End Sigs.
