(* ===== verification/KeeperQueue.v ===== *)
(** What the keeper skips and what it comes back to: the floor below which a transfer is
    not claimed (keeper/src/config.rs), and the queue of router deliveries to finalize
    with its growing pauses (keeper/src/finalize.rs). *)

From S2P Require Import Prelude.
From S2P Require Import Text.
From S2P Require Import SolanaRuntime.
From S2P Require Import ListSort.
From S2P Require Import GateTypes.
From S2P Require Import HostRecord.
From S2P Require Import SigStore.
From S2P Require Import RefundQueue.
From S2P Require Import KeeperTx.
From Stdlib Require Import Sorting.Sorted.

(** * The floor *)

(** "12.5" is ("12", "5"). *)
Definition parse_whole (s : text) : option (text * text) :=
  let s := trim s in
  let '(w, f) := default (s, []) (split_once 46 s) in
  if (bool_decide (w = []) && bool_decide (f = [])) || negb (forallb is_digit w) || negb (forallb is_digit f)
  then None else Some (w, f).
Definition parse_u128_or_0 (s : text) : option Z := if bool_decide (s = []) then Some 0 else parse_uint 128 s.
Definition scale (whole frac : text) (decimals : Z) : option Z :=
  let d := Z.to_nat decimals in
  unit ← checked_pow 128 10 decimals;
  w ← parse_u128_or_0 whole;
  let '(kept, rest) := if (d <? length frac)%nat then (take d frac, drop d frac) else (frac, []) in
  f ← parse_u128_or_0 kept;
  p ← checked_pow 128 10 (decimals - len kept);
  f ← checked_mul 128 f p;
  let round_up := if existsb (fun b => negb (b =? 48)) rest then 1 else 0 in
  wu ← checked_mul 128 w unit;
  r ← checked_add 128 wu f;
  checked_add 128 r round_up.

(** [min_claim] in the order of its keys. *)
Definition min_claim_wire (min_claim : list (text * text)) (debridge_id : text) (bridge_decimals : Z) : option Z :=
  let key := to_ascii_lowercase debridge_id in
  '(_, v) ← find (fun kv => bool_decide (to_ascii_lowercase kv.1 = key)) min_claim;
  '(whole, frac) ← parse_whole v;
  scale whole frac bridge_decimals.

Section Queue.
Context {AL : Alloy}.

Definition below_min_claim (min_claim : list (text * text)) (r : SubmissionRecord) : option (Z * Z) :=
  decimals ← rec_bridge_decimals r;
  floor ← min_claim_wire min_claim (rec_debridge_id r) decimals;
  amount ← u256_from_str (rec_amount r);
  amount ← u_checked 128 amount;
  if amount <? floor then Some (amount, floor) else None.

(** The configured router a receiver names. *)
Definition router_of (rec_receiver : text) (routers : gset evm_address) : option evm_address :=
  addr ← address_from_str rec_receiver;
  if bool_decide (addr ∈ routers) then Some addr else None.

(** * The queue *)

Definition SEED_INTERVAL : Z := nanos (15 * 60).
Definition BACKOFF_BASE : Z := nanos (5 * 60).
Definition BACKOFF_MAX : Z := nanos (6 * 3600).
Definition PER_TICK : nat := 4.
Definition SEED_LOADS : Z := 200.

(** [attempts] is a [u32]; no product comes near a [Duration]'s limit. *)
Definition backoff_for (attempts : Z) : Z :=
  let shift := Z.min (saturating_sub attempts 1) 16 in Z.min (BACKOFF_BASE * Z.shiftl 1 shift) BACKOFF_MAX.

Record Entry := MkEntry { en_rec : SubmissionRecord; en_router : evm_address; en_next_at : Z; en_attempts : Z }.
Inductive Outcome := Done | Drop (reason : string) | NotYetDelivered | Deferred.
Record FinalizeQueue := MkFinalizeQueue { fq_entries : gmap text Entry; fq_seeded_at : option Z }.
Definition FinalizeQueue_default : FinalizeQueue := MkFinalizeQueue ∅ None.

Definition enqueue (r : SubmissionRecord) (router : evm_address) (now : Z) (q : FinalizeQueue) : bool * FinalizeQueue :=
  match fq_entries q !! rec_submission_id r with
  | Some _ => (false, q)
  | None => (true, MkFinalizeQueue (<[rec_submission_id r := MkEntry r router now 0]> (fq_entries q)) (fq_seeded_at q))
  end.

Definition due_leb (x y : Z * text) : bool :=
  if x.1 <? y.1 then true else if y.1 <? x.1 then false else text_leb x.2 y.2.
Definition due (q : FinalizeQueue) (now : Z) (max : nat) : list text :=
  let due := List.filter (fun e => e.1 <=? now) (map (fun ie => (en_next_at ie.2, ie.1)) (map_to_list (fq_entries q))) in
  map snd (take max (sort_by_key id due_leb due)).

Definition back_off (i : text) (now : Z) (q : FinalizeQueue) : FinalizeQueue :=
  match fq_entries q !! i with
  | None => q
  | Some e =>
      let attempts := as_u 32 (en_attempts e + 1) in
      MkFinalizeQueue (<[i := MkEntry (en_rec e) (en_router e) (now + backoff_for attempts) attempts]> (fq_entries q))
        (fq_seeded_at q)
  end.
Definition remove (i : text) (q : FinalizeQueue) : FinalizeQueue :=
  MkFinalizeQueue (delete i (fq_entries q)) (fq_seeded_at q).
Definition seed_due (q : FinalizeQueue) (now : Z) : bool :=
  match fq_seeded_at q with None => true | Some t => SEED_INTERVAL <=? since now t end.
Definition set_seeded (now : Z) (q : FinalizeQueue) : FinalizeQueue := MkFinalizeQueue (fq_entries q) (Some now).

(** The columns of a history row the seed reads; [swap_intent] with its [finalize_tx]. *)
Record HistoryRow := MkHistoryRow {
  hr_submission_id : text;
  hr_chain_id_to : Z;
  hr_status : text;
  hr_receiver : text;
  hr_swap_intent : option (option text);
}.
Definition row_wanted (q : FinalizeQueue) (chain_id : Z) (row : HistoryRow) : bool :=
  negb (negb (hr_chain_id_to row =? chain_id)
    || negb (bool_decide (hr_status row = txt "claimed"))
    || bool_decide (is_Some (fq_entries q !! hr_submission_id row))
    || match hr_swap_intent row with Some (Some _) => true | _ => false end).

(** * Pauses *)

Lemma backoff_range n : BACKOFF_BASE <= backoff_for n <= BACKOFF_MAX.
Proof.
  unfold backoff_for. assert (0 <= Z.min (saturating_sub n 1) 16) as H by (unfold saturating_sub; lia).
  rewrite Z.shiftl_mul_pow2, Z.mul_1_l by done. assert (BACKOFF_BASE <= BACKOFF_MAX) by done.
  assert (0 < BACKOFF_BASE) by done. pose proof (Z.pow_pos_nonneg 2 (Z.min (saturating_sub n 1) 16) ltac:(lia) H).
  split; [apply Z.min_glb; nia|lia].
Qed.
(** It doubles until it meets the ceiling, and never shrinks. *)
Lemma backoff_doubles n : 1 <= n -> backoff_for (n + 1) = Z.min (2 * backoff_for n) BACKOFF_MAX.
Proof.
  intros Hn. unfold backoff_for, saturating_sub. rewrite !Z.shiftl_mul_pow2, !Z.mul_1_l by lia.
  replace (Z.max 0 (n - 1)) with (n - 1) by lia. replace (Z.max 0 (n + 1 - 1)) with n by lia.
  assert (BACKOFF_BASE = 300000000000) as -> by done. assert (BACKOFF_MAX = 21600000000000) as -> by done.
  destruct (Z_le_gt_dec n 16).
  - rewrite (Z.min_l n 16), (Z.min_l (n - 1) 16) by lia. assert (2 ^ n = 2 * 2 ^ (n - 1)) as ->.
    { rewrite <- Z.pow_succ_r by lia. f_equal. lia. }
    pose proof (Z.pow_pos_nonneg 2 (n - 1)). lia.
  - rewrite (Z.min_r n 16), (Z.min_r (n - 1) 16) by lia. change (2 ^ 16) with 65536. lia.
Qed.

(** * What is due *)

Lemma due_leb_total x y : due_leb x y = false -> due_leb y x = true.
Proof.
  unfold due_leb. destruct (Z.ltb_spec x.1 y.1), (Z.ltb_spec y.1 x.1); try done; try lia. apply text_leb_total.
Qed.
Lemma due_leb_trans x y z : due_leb x y = true -> due_leb y z = true -> due_leb x z = true.
Proof.
  unfold due_leb. destruct (Z.ltb_spec x.1 y.1), (Z.ltb_spec y.1 x.1), (Z.ltb_spec y.1 z.1), (Z.ltb_spec z.1 y.1),
    (Z.ltb_spec x.1 z.1), (Z.ltb_spec z.1 x.1); try done; try lia. apply text_leb_trans.
Qed.

(** Only what is due, never more than asked for, and nothing is left out for something due
    later. *)
Lemma due_spec q now max :
  (length (due q now max) <= max)%nat /\ NoDup (due q now max) /\
  (forall i, i ∈ due q now max -> exists e, fq_entries q !! i = Some e /\ en_next_at e <= now) /\
  (forall i e, fq_entries q !! i = Some e -> en_next_at e <= now -> i ∈ due q now max \/
     (length (due q now max) = max /\ forall j, j ∈ due q now max ->
        exists e', fq_entries q !! j = Some e' /\ en_next_at e' <= en_next_at e)).
Proof.
  unfold due. set (all := List.filter _ _). set (s := sort_by_key id due_leb all).
  assert (Hp : s ≡ₚ all) by apply sort_by_key_Permutation.
  assert (Hs : StronglySorted (fun x y => due_leb x y = true) s)
    by exact (sort_by_key_Sorted id due_leb due_leb_total due_leb_trans all).
  assert (Hall : forall x, x ∈ all <-> exists e, fq_entries q !! x.2 = Some e /\ en_next_at e = x.1 /\ x.1 <= now).
  { intros [t i]. unfold all. rewrite list_elem_of_In, filter_In, in_map_iff. cbn [fst snd]. split.
    - intros [(x & [= <- <-] & Hx%list_elem_of_In) Hn%Z.leb_le]. destruct x as [i e].
      apply elem_of_map_to_list in Hx. eauto.
    - intros (e & He & <- & Hn). split; [|by apply Z.leb_le]. exists (i, e). split; [done|].
      by apply list_elem_of_In, elem_of_map_to_list. }
  assert (Hd : NoDup (map snd s)).
  { assert (map snd s ≡ₚ map snd all) as -> by (by rewrite Hp). unfold all.
    pose proof (NoDup_fst_map_to_list (fq_entries q)) as H. revert H. generalize (map_to_list (fq_entries q)). clear.
    intros l. induction l as [|[i e] l IH]; cbn; [done|]. intros [Hi Hd]%NoDup_cons.
    destruct (_ <=? now); cbn; [|auto]. constructor; [|auto]. intros Hx%list_elem_of_In. apply Hi.
    apply in_map_iff in Hx as ([t j] & E & [Hx _]%filter_In). apply in_map_iff in Hx as ([k e'] & [= <- <-] & Hx).
    cbn in E. subst. apply list_elem_of_In, in_map_iff. by exists (i, e'). }
  split_and!.
  - rewrite length_map, length_take. lia.
  - rewrite <- (take_drop max s), map_app in Hd. by apply NoDup_app in Hd as [Hd _].
  - intros i Hi%list_elem_of_In. apply in_map_iff in Hi as ([t j] & <- & Hx%list_elem_of_In).
    apply elem_of_take in Hx as (n & Hx & _). apply list_elem_of_lookup_2 in Hx. rewrite Hp in Hx.
    apply Hall in Hx as (e & He & <- & Hn). eauto.
  - intros i e He Hn. assert ((en_next_at e, i) ∈ s) as Hin by (rewrite Hp; apply Hall; eauto).
    rewrite <- (take_drop max s) in Hin. apply elem_of_app in Hin as [Hin|Hin].
    { left. apply list_elem_of_In, in_map_iff. exists (en_next_at e, i). by rewrite <- list_elem_of_In. }
    right. split.
    + rewrite length_map, length_take. apply list_elem_of_lookup_1 in Hin as [n Hin]. rewrite lookup_drop in Hin.
      apply lookup_lt_Some in Hin. lia.
    + intros j Hj%list_elem_of_In. apply in_map_iff in Hj as ([t k] & <- & Hx%list_elem_of_In).
      assert (Hle : due_leb (t, k) (en_next_at e, i) = true).
      { rewrite <- (take_drop max s) in Hs. revert Hs Hx Hin. generalize (take max s), (drop max s). clear.
        intros a b. induction a as [|x a IH]; [set_solver|]. cbn [app]. inversion 1 as [|? ? Hs' Hf]; subst.
        intros [->|Hx]%elem_of_cons Hb; [|eauto]. rewrite Forall_forall in Hf. apply Hf. set_solver. }
      apply elem_of_take in Hx as (n & Hx & _). apply list_elem_of_lookup_2 in Hx. rewrite Hp in Hx.
      apply Hall in Hx as (e' & He' & E & _). exists e'. split; [done|]. cbn [fst] in E. subst t.
      unfold due_leb in Hle. cbn [fst] in Hle. destruct (Z.ltb_spec (en_next_at e') (en_next_at e)); [lia|].
      destruct (Z.ltb_spec (en_next_at e) (en_next_at e')); [done|lia].
Qed.
End Queue.
