(* ===== verification/Keeper.v ===== *)
(** The EVM keeper (keeper/src/main.rs, finalize.rs): the claim loop of a destination
    chain and the refund loop of a source chain. A tick reads the store's work queue and
    turns every record with a quorum into at most one transaction, remembers the ones
    whose receipt did not come, raises the fee of those that are stuck, and watches the
    head of the account's queue. Nodes, routers, the store, the clock and the other loop
    of the same account are the outside. *)

From S2P Require Import Prelude.
From S2P Require Import Text.
From S2P Require Import SolanaRuntime.
From S2P Require Import Effects.
From S2P Require Import Allowlist.
From S2P Require Import GateTypes.
From S2P Require Import HostRecord.
From S2P Require Import SigStore.
From S2P Require Import KeeperTx.
From S2P Require Import KeeperSigs.
From S2P Require Import KeeperQueue.

(** * State *)

(** What the loops of one account on one chain share, under a lock. *)
Record SendState := MkSendState {
  ss_tracked : gmap string (gset Z);
  ss_head : HeadWatch;
  ss_head_checked : option Z;
}.
Record GateView := MkGateView {
  gv_threshold : Z;           (* u64 *)
  gv_validator_count : Z;     (* usize *)
  gv_members : gmap evm_address bool;
  gv_refreshed_at : Z;
}.
Abbreviation PendingTxs := (gmap (text * string) InFlight).

Inductive Cause := FirstSend | FeeBump | HeadTransfer.
Record Broadcast := MkBroadcast { bc_cause : Cause; bc_tx : TransactionRequest; bc_result : result unit hash32 }.

(** The local variables of a loop, the shared state, everything broadcast and every claim
    reported to the store. *)
Record Loop := MkLoop {
  lp_view : GateView;
  lp_pending : PendingTxs;
  lp_stranded : gset text;
  lp_below_min : gset text;
  lp_finalizer : FinalizeQueue;
  lp_send : SendState;
  lp_broadcasts : list Broadcast;
  lp_marks : list (text * text);
}.
Definition upd_view (v : GateView) (s : Loop) : Loop :=
  MkLoop v (lp_pending s) (lp_stranded s) (lp_below_min s) (lp_finalizer s) (lp_send s) (lp_broadcasts s) (lp_marks s).
Definition upd_pending (f : PendingTxs -> PendingTxs) (s : Loop) : Loop :=
  MkLoop (lp_view s) (f (lp_pending s)) (lp_stranded s) (lp_below_min s) (lp_finalizer s) (lp_send s)
    (lp_broadcasts s) (lp_marks s).
Definition upd_stranded (f : gset text -> gset text) (s : Loop) : Loop :=
  MkLoop (lp_view s) (lp_pending s) (f (lp_stranded s)) (lp_below_min s) (lp_finalizer s) (lp_send s)
    (lp_broadcasts s) (lp_marks s).
Definition upd_below_min (f : gset text -> gset text) (s : Loop) : Loop :=
  MkLoop (lp_view s) (lp_pending s) (lp_stranded s) (f (lp_below_min s)) (lp_finalizer s) (lp_send s)
    (lp_broadcasts s) (lp_marks s).
Definition upd_finalizer (f : FinalizeQueue -> FinalizeQueue) (s : Loop) : Loop :=
  MkLoop (lp_view s) (lp_pending s) (lp_stranded s) (lp_below_min s) (f (lp_finalizer s)) (lp_send s)
    (lp_broadcasts s) (lp_marks s).
Definition upd_send (f : SendState -> SendState) (s : Loop) : Loop :=
  MkLoop (lp_view s) (lp_pending s) (lp_stranded s) (lp_below_min s) (lp_finalizer s) (f (lp_send s))
    (lp_broadcasts s) (lp_marks s).
Definition add_broadcast (b : Broadcast) (s : Loop) : Loop :=
  MkLoop (lp_view s) (lp_pending s) (lp_stranded s) (lp_below_min s) (lp_finalizer s) (lp_send s)
    (lp_broadcasts s ++ [b]) (lp_marks s).
Definition add_mark (m : text * text) (s : Loop) : Loop :=
  MkLoop (lp_view s) (lp_pending s) (lp_stranded s) (lp_below_min s) (lp_finalizer s) (lp_send s)
    (lp_broadcasts s) (lp_marks s ++ [m]).

(** * The outside *)

Inductive FeeError := UnsupportedFeature | FeeReadFailed.
Inductive Awaited := AwaitReceipt (transaction_hash : hash32) (status : bool) | AwaitTimeout | AwaitFailed.

(** Answers by the number of calls made before; the contract is the loop's own gate. *)
Class KeeperWorld := {
  kw_now : nat -> Z;
  kw_executed : nat -> hash32 -> result unit bool;
  kw_cancelled : nat -> hash32 -> result unit bool;
  kw_refunded : nat -> hash32 -> result unit bool;
  kw_sent_by : nat -> hash32 -> result unit evm_address;
  kw_token_of : nat -> hash32 -> result unit evm_address;
  kw_threshold : nat -> result unit Z;
  kw_validator_count : nat -> result unit Z;
  kw_is_validator : nat -> evm_address -> result unit bool;
  (** SwapRouter; [refundOf(id).to] *)
  kw_finalized : nat -> evm_address -> hash32 -> result unit bool;
  kw_refund_of : nat -> evm_address -> hash32 -> result unit evm_address;
  kw_owner : nat -> evm_address -> result unit evm_address;
  kw_guardian : nat -> evm_address -> result unit evm_address;
  kw_code : nat -> evm_address -> result unit (list byte);
  (** the status of a receipt, when there is one *)
  kw_receipt : nat -> hash32 -> result unit (option bool);
  kw_known : nat -> hash32 -> result unit bool;
  kw_latest : nat -> result unit Z;
  kw_next_nonce : nat -> result unit Z;
  kw_estimate_gas : nat -> TransactionRequest -> result unit Z;
  kw_fees : nat -> result FeeError Estimation;
  kw_gas_price : nat -> result unit Z;
  kw_send : nat -> TransactionRequest -> result unit hash32;
  kw_await : nat -> hash32 -> Awaited;
  kw_allowlist : nat -> result unit AllowlistView;
  kw_pending_claims : nat -> result unit (list SubmissionRecord);
  kw_pending_refunds : nat -> result unit (list SubmissionRecord);
  kw_mark_claimed : nat -> result unit unit;
  kw_history : nat -> result unit (list HistoryRow);
  kw_load : nat -> text -> result unit (option SubmissionRecord);
  kw_dir : bool;   (* the store is a directory *)
  (** what the other loop did to the shared state before this one took the lock *)
  kw_other : nat -> SendState -> SendState;
}.

Inductive KeeperError := ReceiptTimeout (hash : hash32) (tx : TransactionRequest) (sent_at : Z) | OtherError.
Inductive StrandedReason :=
  | NotAHash | OtherDomain | WronglyPaired | NoSubmissionId   (* [agrees_with_gate] *)
  | BadReceiverWidth | UnregisteredAsset.
Inductive ClaimOutcome := Submitted (tx : text) | AlreadyExecuted | Stranded (reason : StrandedReason).

Record LoopConfig := MkLoopConfig {
  lc_chain_id : Z;
  lc_gate : evm_address;
  lc_bridge_domain : hash32;
  lc_from : evm_address;
  lc_role : string;
  lc_routers : gset evm_address;
  lc_min_claim : list (text * text);
  lc_policy : AllowlistPolicy;
}.

Section Keeper.
Context {RT : Runtime} {HX : HexCodec} {AL : Alloy} {KW : KeeperWorld}.
Abbreviation K := (eff Loop KeeperError).

Definition other {A} (r : result unit A) : result KeeperError A := map_err (fun _ => OtherError) r.
(** [call().await?] *)
Definition rpc {A} (f : nat -> result unit A) : K A := r ← ask f; try (other r).
Definition broadcast (c : Cause) (tx : TransactionRequest) : K (result unit hash32) :=
  r ← ask (fun t => kw_send t tx); _ ← modify (add_broadcast (MkBroadcast c tx r)); mret r.
Definition lock : K unit := f ← ask kw_other; modify (upd_send f).

(** * Does the gate agree? *)

Definition gate_submission_id (r : SubmissionRecord) (bridge_domain : hash32) : result StoreError hash32 :=
  canonical_submission_id
    (MkSubmissionRecord (rec_submission_id r) (hex0x (arr_bytes bridge_domain)) (rec_debridge_id r) (rec_amount r)
       (rec_bridge_decimals r) (rec_chain_id_from r) (rec_chain_id_to r) (rec_nonce r) (rec_receiver r)
       (rec_auto_params r) (rec_native_sender r) (rec_token r) (rec_signatures r) (rec_cancel_signatures r)
       (rec_refund_signatures r)).
Definition agrees_with_gate (r : SubmissionRecord) (bridge_domain : hash32) : result StrandedReason unit :=
  claimed ← ok_or (b256_from_str (rec_submission_id r)) NotAHash;
  match gate_submission_id r bridge_domain with
  | Ok computed =>
      if bool_decide (computed = claimed) then Ok tt
      else if bool_decide (b256_from_str (rec_bridge_domain r) = Some bridge_domain) then Err WronglyPaired
      else Err OtherDomain
  | Err _ => Err NoSubmissionId
  end.
Definition evm_receiver_decodable (receiver : text) : bool := str_len (strip_0x receiver) / 2 =? 20.

(** * Sending and confirming *)

Definition populate (from : evm_address) (tx : TransactionRequest) : K TransactionRequest :=
  nonce ← rpc kw_next_nonce;
  let tx := set_nonce nonce (set_from from tx) in
  gas ← rpc (fun t => kw_estimate_gas t tx);
  let tx := set_gas gas tx in
  fees ← ask kw_fees;
  match fees with
  | Ok e => mret (set_fees (est_max_fee e) (est_max_priority_fee e) tx)
  | Err UnsupportedFeature => price ← rpc kw_gas_price; mret (set_gas_price price tx)
  | Err FeeReadFailed => fail OtherError
  end.
Definition track_nonce (role : string) (nonce : Z) (s : SendState) : SendState :=
  MkSendState (<[role := {[nonce]} ∪ default ∅ (ss_tracked s !! role)]> (ss_tracked s)) (ss_head s) (ss_head_checked s).

Section OneLoop.
Variable cfg : LoopConfig.

Definition confirm (to : evm_address) (call : Call) : K text :=
  _ ← lock;
  tx ← populate (lc_from cfg) (call_request to call);
  sent ← broadcast FirstSend tx;
  hash ← try (other sent);
  _ ← match tr_nonce tx with
      | Some n => modify (upd_send (track_nonce (lc_role cfg) n))
      | None => mret tt
      end;
  sent_at ← ask kw_now;
  awaited ← ask (fun t => kw_await t hash);
  match awaited with
  | AwaitReceipt h true => mret (hex0x (arr_bytes h))
  | AwaitReceipt _ false | AwaitFailed => fail OtherError
  | AwaitTimeout => fail (ReceiptTimeout hash tx sent_at)
  end.

(** The parameters after [debridge_id] and [amount], in the order the code parses them. *)
Definition call_params (debridge_id : hash32) (amount : Z) (chain_id : Z) (r : SubmissionRecord) : option CallParams :=
  bridge_decimals ← rec_bridge_decimals r;
  receiver ← bytes_of (rec_receiver r);
  auto_params ← bytes_of (rec_auto_params r);
  native_sender ← bytes_of (rec_native_sender r);
  Some (MkCallParams debridge_id amount bridge_decimals chain_id (rec_nonce r) receiver auto_params native_sender).

Definition try_claim (r : SubmissionRecord) (sigs : list SignerSig) : K ClaimOutcome :=
  submission_id ← expect (b256_from_str (rec_submission_id r)) OtherError;
  if negb (evm_receiver_decodable (rec_receiver r)) then mret (Stranded BadReceiverWidth)
  else
    match agrees_with_gate r (lc_bridge_domain cfg) with
    | Err reason => mret (Stranded reason)
    | Ok _ =>
        executed ← rpc (fun t => kw_executed t submission_id);
        if (executed : bool) then mret AlreadyExecuted
        else
          debridge_id ← expect (b256_from_str (rec_debridge_id r)) OtherError;
          token ← rpc (fun t => kw_token_of t debridge_id);
          if bool_decide (token = arr_zero 20) then mret (Stranded UnregisteredAsset)
          else
            amount ← expect (u256_from_str (rec_amount r)) OtherError;
            p ← expect (call_params debridge_id amount (rec_chain_id_from r) r) OtherError;
            signatures ← expect (sorted_signatures sigs) OtherError;
            tx ← confirm (lc_gate cfg) (CallClaim p signatures);
            mret (Submitted tx)
    end.

Definition try_cancel (r : SubmissionRecord) (sigs : list SignerSig) : K (option text) :=
  submission_id ← expect (b256_from_str (rec_submission_id r)) OtherError;
  executed ← rpc (fun t => kw_executed t submission_id);
  if (executed : bool) then mret None
  else
    debridge_id ← expect (b256_from_str (rec_debridge_id r)) OtherError;
    amount ← expect (u256_from_str (rec_amount r)) OtherError;
    p ← expect (call_params debridge_id amount (rec_chain_id_from r) r) OtherError;
    signatures ← expect (sorted_signatures sigs) OtherError;
    tx ← confirm (lc_gate cfg) (CallCancel p signatures);
    mret (Some tx).

(** A failed read counts as no code; the answer only decides a warning. *)
Definition is_contract_sender (addr : evm_address) : K bool :=
  code ← ask (fun t => kw_code t addr);
  mret (match code with Ok c => negb (bool_decide (c = [])) | Err _ => false end).

Definition try_refund (r : SubmissionRecord) (sigs : list SignerSig) : K (option text) :=
  submission_id ← expect (b256_from_str (rec_submission_id r)) OtherError;
  refunded ← rpc (fun t => kw_refunded t submission_id);
  if (refunded : bool) then
    match router_of (rec_native_sender r) (lc_routers cfg) with
    | None => mret None
    | Some router =>
        to ← rpc (fun t => kw_refund_of t router submission_id);
        if bool_decide (to = arr_zero 20) then mret None
        else tx ← confirm router (CallForwardRefund submission_id); mret (Some tx)
    end
  else
    sent_by ← rpc (fun t => kw_sent_by t submission_id);
    if bool_decide (sent_by = arr_zero 20) then mret None
    else if bool_decide (rec_token r = []) then mret None
    else
      token ← expect (address_from_str (rec_token r)) OtherError;
      debridge_id ← expect (b256_from_str (rec_debridge_id r)) OtherError;
      amount ← expect (u256_from_str (rec_amount r)) OtherError;
      _ ← expect (rec_bridge_decimals r) OtherError;
      if bool_decide (sent_by ∈ lc_routers cfg) then
        p ← expect (call_params debridge_id amount (rec_chain_id_to r) r) OtherError;
        signatures ← expect (sorted_signatures sigs) OtherError;
        tx ← confirm sent_by (CallRefundAndForward p signatures);
        mret (Some tx)
      else
        _ ← (if bool_decide (lc_routers cfg = ∅) then mret false else is_contract_sender sent_by);
        p ← expect (call_params debridge_id amount (rec_chain_id_to r) r) OtherError;
        signatures ← expect (sorted_signatures sigs) OtherError;
        tx ← confirm (lc_gate cfg) (CallRefund token p signatures);
        mret (Some tx).

(** * Remembered transactions *)

Definition probe_tx (hash : hash32) : K TxProbe :=
  r ← ask (fun t => kw_receipt t hash);
  match r with
  | Ok (Some status) => mret (Mined (negb status))
  | Ok None =>
      k ← ask (fun t => kw_known t hash);
      mret (match k with Ok true => InMempool | Ok false => Gone | Err _ => Unknown end)
  | Err _ => mret Unknown
  end.

Definition with_last_sent (now : Z) (f : InFlight) : InFlight :=
  MkInFlight (fl_tx f) (fl_hashes f) (fl_bumps f) now (fl_ceiling f).
Definition maybe_replace (f : InFlight) : K InFlight :=
  now ← ask kw_now;
  if since now (fl_last_sent f) <? RECEIPT_TIMEOUT then mret f
  else
    match tr_from (fl_tx f), tr_nonce (fl_tx f) with
    | Some _, Some nonce =>
        if MAX_FEE_BUMPS <=? fl_bumps f then now ← ask kw_now; mret (with_last_sent now f)
        else
          next ← ask kw_latest;
          if bool_decide (next = Ok nonce) then
            estimate ← match tr_max_fee_per_gas (fl_tx f) with
                       | Some _ => e ← ask kw_fees; mret (match e with Ok e => Some e | Err _ => None end)
                       | None => mret None
                       end;
            gas_price ← match tr_gas_price (fl_tx f) with
                        | Some _ => p ← ask kw_gas_price; mret (match p with Ok p => Some p | Err _ => None end)
                        | None => mret None
                        end;
            now ← ask kw_now;
            let f := MkInFlight (fl_tx f) (fl_hashes f) (fl_bumps f + 1) now (fl_ceiling f) in
            match reprice (fl_tx f) estimate gas_price (fl_ceiling f) with
            | None => mret (MkInFlight (fl_tx f) (fl_hashes f) MAX_FEE_BUMPS now (fl_ceiling f))
            | Some replacement =>
                sent ← broadcast FeeBump replacement;
                match sent with
                | Ok hash => mret (MkInFlight replacement (fl_hashes f ++ [hash]) (fl_bumps f) now (fl_ceiling f))
                | Err _ => mret f
                end
            end
          else mret f
    | _, _ => mret f
    end.

Definition pending_key (submission_id : text) (kind : SigKind) : text * string := (submission_id, kind_as_str kind).
(** [apply], and what to do. *)
Definition apply_probe (key : text * string) (probe : TxProbe) : K PendingAction :=
  let action := resolve_pending probe in
  _ ← (if bool_decide (action = PendingWait) then mret tt else modify (upd_pending (delete key)));
  mret action.
Definition may_submit (submission_id : text) (kind : SigKind) : K bool :=
  let key := pending_key submission_id kind in
  s ← get;
  match lp_pending s !! key with
  | None => mret true
  | Some f =>
      probes ← mapM probe_tx (fl_hashes f);
      let probe := combine_probes probes in
      action ← apply_probe key probe;
      match action with
      | Landed | Resubmit => mret true
      | PendingWait =>
          _ ← (if bool_decide (probe = InMempool) then f ← maybe_replace f; modify (upd_pending (<[key := f]>))
               else mret tt);
          mret false
      end
  end.
Definition note_failure (submission_id : text) (kind : SigKind) (e : KeeperError) : K unit :=
  match e with
  | ReceiptTimeout hash tx sent_at =>
      modify (upd_pending (<[pending_key submission_id kind := InFlight_new tx hash sent_at]>))
  | OtherError => mret tt
  end.
Definition retain_pending (seen : gset text) (p : PendingTxs) : PendingTxs := filter (fun kf => kf.1.1 ∈ seen) p.
Definition nonces_of (p : PendingTxs) : gset Z :=
  list_to_set (omap (fun kf => tr_nonce (fl_tx kf.2)) (map_to_list p)).

(** * The view of the gate *)

Definition view_load : K GateView :=
  threshold ← rpc kw_threshold;
  validator_count ← rpc kw_validator_count;
  now ← ask kw_now;
  mret (MkGateView (Z.min (u_max 64) threshold) (Z.min (u_max 64) validator_count) ∅ now).
Definition refresh_if_stale : K unit :=
  s ← get;
  now ← ask kw_now;
  if since now (gv_refreshed_at (lp_view s)) <? GATE_REFRESH_INTERVAL then mret tt
  else
    fresh ← attempt view_load;
    match fresh with
    | Ok fresh => modify (upd_view fresh)
    | Err _ =>
        now ← ask kw_now;
        let v := lp_view s in
        modify (upd_view (MkGateView (gv_threshold v) (gv_validator_count v) (gv_members v) now))
    end.

Definition memoize (a : evm_address) (m : bool) : K unit :=
  modify (fun s => let v := lp_view s in
    upd_view (MkGateView (gv_threshold v) (gv_validator_count v) (<[a := m]> (gv_members v)) (gv_refreshed_at v)) s).
Fixpoint resolve_members (authentic : list (evm_address * SignerSig)) : K (list (evm_address * Membership * SignerSig)) :=
  match authentic with
  | [] => mret []
  | (addr, sig) :: authentic =>
      s ← get;
      match gv_members (lp_view s) !! addr with
      | Some m => rest ← resolve_members authentic; mret ((addr, Cached m, sig) :: rest)
      | None =>
          r ← ask (fun t => kw_is_validator t addr);
          match r with
          | Ok m => _ ← memoize addr m; rest ← resolve_members authentic; mret ((addr, Fresh m, sig) :: rest)
          | Err _ => resolve_members authentic
          end
      end
  end.
Fixpoint reread_members (l : list (evm_address * Membership * SignerSig)) : K (list (evm_address * Membership * SignerSig)) :=
  match l with
  | [] => mret []
  | (addr, Cached m, sig) :: l =>
      r ← ask (fun t => kw_is_validator t addr);
      m ← match r with
          | Ok v => _ ← memoize addr v; mret (Fresh v)
          | Err _ => mret (Cached m)
          end;
      rest ← reread_members l; mret ((addr, m, sig) :: rest)
  | e :: l => rest ← reread_members l; mret (e :: rest)
  end.
Definition member_signatures (submission_id : text) (kind : SigKind) (sigs : list SignerSig) : K (list SignerSig) :=
  match b256_from_str submission_id with
  | None => mret []
  | Some id =>
      resolved ← resolve_members (authenticate_signatures id kind sigs);
      s ← get;
      let members := len (List.filter (fun r => is_member r.1.2) resolved) in
      resolved ← (if gv_validator_count (lp_view s) <? members then reread_members resolved else mret resolved);
      s ← get;
      mret (filter_members resolved (gv_validator_count (lp_view s)))
  end.

(** * The head of the queue *)

Definition unwedge_head : K unit :=
  s ← get;
  let tracked := nonces_of (lp_pending s) in
  _ ← lock;
  _ ← modify (upd_send (fun ss => MkSendState (<[lc_role cfg := tracked]> (ss_tracked ss)) (ss_head ss) (ss_head_checked ss)));
  s ← get;
  recent ← match ss_head_checked (lp_send s) with
           | Some t => now ← ask kw_now; mret (since now t <? HEAD_CHECK_INTERVAL)
           | None => mret false
           end;
  if (recent : bool) then mret tt
  else
    now ← ask kw_now;
    _ ← modify (upd_send (fun ss => MkSendState (ss_tracked ss) (ss_head ss) (Some now)));
    latest ← ask kw_latest;
    pending ← ask kw_next_nonce;
    match latest, pending with
    | Ok latest, Ok pending =>
        s ← get;
        let is_tracked := existsb (fun kv : string * gset Z => bool_decide (latest ∈ kv.2)) (map_to_list (ss_tracked (lp_send s))) in
        now ← ask kw_now;
        let '(action, head) := observe (ss_head (lp_send s)) latest pending is_tracked now in
        _ ← modify (upd_send (fun ss => MkSendState (ss_tracked ss) head (ss_head_checked ss)));
        match action, head with
        | HeadReplace nonce bump, Some stall =>
            e ← ask kw_fees;
            let estimate := match e with Ok e => Some e | Err _ => None end in
            gas_price ← match estimate with
                        | None => p ← ask kw_gas_price; mret (match p with Ok p => Some p | Err _ => None end)
                        | Some _ => mret None
                        end;
            let '(tx, ceiling) := head_replacement (lc_from cfg) nonce (hs_last_tx stall) estimate gas_price (hs_ceiling stall) in
            match tx with
            | None =>
                modify (upd_send (fun ss => MkSendState (ss_tracked ss)
                  (Some (MkHeadStall (hs_nonce stall) (hs_since stall) (hs_last_sent stall) MAX_FEE_BUMPS (hs_last_tx stall) ceiling))
                  (ss_head_checked ss)))
            | Some tx =>
                _ ← broadcast HeadTransfer tx;
                modify (upd_send (fun ss => MkSendState (ss_tracked ss)
                  (Some (MkHeadStall (hs_nonce stall) (hs_since stall) (hs_last_sent stall) (hs_bumps stall) (Some tx) ceiling))
                  (ss_head_checked ss)))
            end
        | _, _ => mret tt
        end
    | _, _ => mret tt
    end.

(** * Router deliveries (finalize.rs) *)

Definition finalize_one (router : evm_address) (r : SubmissionRecord) : K Outcome :=
  id ← expect (b256_from_str (rec_submission_id r)) OtherError;
  finalized ← rpc (fun t => kw_finalized t router id);
  if (finalized : bool) then mret Done
  else
    cancelled ← rpc (fun t => kw_cancelled t id);
    if (cancelled : bool) then mret (Drop "cancelled")
    else
      executed ← rpc (fun t => kw_executed t id);
      if negb executed then mret NotYetDelivered
      else
        owner ← rpc (fun t => kw_owner t router);
        mine ← (if bool_decide (owner = lc_from cfg) then mret true
                else guardian ← rpc (fun t => kw_guardian t router); mret (bool_decide (guardian = lc_from cfg)));
        if (mine : bool) then mret (Drop "owner or guardian")
        else
          debridge_id ← expect (b256_from_str (rec_debridge_id r)) OtherError;
          amount ← expect (u256_from_str (rec_amount r)) OtherError;
          p ← expect (call_params debridge_id amount (rec_chain_id_from r) r) OtherError;
          _ ← confirm router (CallFinalize p);
          finalized ← rpc (fun t => kw_finalized t router id);
          mret (if (finalized : bool) then Done else Deferred).

Definition finalize_due (now : Z) (id : text) : K unit :=
  s ← get;
  match fq_entries (lp_finalizer s) !! id with
  | None => mret tt
  | Some e =>
      outcome ← attempt (finalize_one (en_router e) (en_rec e));
      modify (upd_finalizer
        match outcome with
        | Ok Done | Ok (Drop _) => remove id
        | Ok NotYetDelivered | Ok Deferred | Err _ => back_off id now
        end)
  end.
Definition finalize_run : K unit :=
  now ← ask kw_now;
  s ← get;
  _ ← mapM (finalize_due now) (due (lp_finalizer s) now PER_TICK);
  mret tt.

Fixpoint seed_rows (now : Z) (loads : Z) (rows : list HistoryRow) : K unit :=
  match rows with
  | [] => mret tt
  | row :: rows =>
      if SEED_LOADS <=? loads then mret tt
      else
        s ← get;
        if negb (row_wanted (lp_finalizer s) (lc_chain_id cfg) row) then seed_rows now loads rows
        else
          match router_of (hr_receiver row) (lc_routers cfg) with
          | None => seed_rows now loads rows
          | Some router =>
              loaded ← ask (fun t => kw_load t (hr_submission_id row));
              _ ← match loaded with
                  | Ok (Some r) =>
                      if bool_decide (below_min_claim (lc_min_claim cfg) r = None)
                      then modify (upd_finalizer (fun q => (enqueue r router now q).2)) else mret tt
                  | _ => mret tt
                  end;
              seed_rows now (loads + 1) rows
          end
  end.
Definition seed (now : Z) : K unit :=
  _ ← modify (upd_finalizer (set_seeded now));
  if bool_decide (lc_routers cfg = ∅) || kw_dir then mret tt
  else
    rows ← ask kw_history;
    match rows with Ok rows => seed_rows now 0 rows | Err _ => mret tt end.

(** * The claim loop *)

Definition report_stranded (id : text) : K unit := modify (upd_stranded (fun m => {[id]} ∪ m)).
Definition enqueue_delivery (r : SubmissionRecord) : K unit :=
  match router_of (rec_receiver r) (lc_routers cfg) with
  | Some router => now ← ask kw_now; modify (upd_finalizer (fun q => (enqueue r router now q).2))
  | None => mret tt
  end.

(** A cancel quorum is there: this record is not claimed, whatever happens. *)
Definition cancel_record (r : SubmissionRecord) (sigs : list SignerSig) : K unit :=
  match agrees_with_gate r (lc_bridge_domain cfg) with
  | Err _ => report_stranded (rec_submission_id r)
  | Ok _ =>
      may ← may_submit (rec_submission_id r) Cancel;
      if negb may then mret tt
      else
        res ← attempt (try_cancel r sigs);
        match res with
        | Ok _ => mret tt
        | Err e => note_failure (rec_submission_id r) Cancel e
        end
  end.
Definition claim_record (allowlist : option Allowlist) (r : SubmissionRecord) : K unit :=
  match below_min_claim (lc_min_claim cfg) r with
  | Some _ => modify (upd_below_min (fun m => {[rec_submission_id r]} ∪ m))
  | None =>
      claim_sigs ← member_signatures (rec_submission_id r) Transfer (rec_signatures r);
      s ← get;
      if len claim_sigs <? gv_threshold (lp_view s) then mret tt
      else if match allowlist with
              | Some allow => negb (token_allowed allow (rec_debridge_id r))
                  || negb (chain_allowed allow (rec_chain_id_from r) (rec_chain_id_to r))
              | None => false
              end then mret tt
      else
        may ← may_submit (rec_submission_id r) Transfer;
        if negb may then mret tt
        else
          res ← attempt (try_claim r claim_sigs);
          match res with
          | Ok (Submitted tx) =>
              _ ← modify (upd_stranded (fun m => m ∖ {[rec_submission_id r]}));
              _ ← enqueue_delivery r;
              _ ← ask kw_mark_claimed;
              modify (add_mark (rec_submission_id r, tx))
          | Ok AlreadyExecuted =>
              _ ← modify (upd_stranded (fun m => m ∖ {[rec_submission_id r]}));
              enqueue_delivery r
          | Ok (Stranded _) => report_stranded (rec_submission_id r)
          | Err e => note_failure (rec_submission_id r) Transfer e
          end
  end.
Definition target_record (allowlist : option Allowlist) (r : SubmissionRecord) : K unit :=
  if negb (rec_chain_id_to r =? lc_chain_id cfg) then mret tt
  else
    cancel_sigs ← member_signatures (rec_submission_id r) Cancel (rec_cancel_signatures r);
    s ← get;
    if gv_threshold (lp_view s) <=? len cancel_sigs then cancel_record r cancel_sigs
    else claim_record allowlist r.

Definition seen_ids (records : list SubmissionRecord) : gset text := list_to_set (map rec_submission_id records).
Definition target_tick : K unit :=
  _ ← refresh_if_stale;
  view ← ask kw_allowlist;
  match view with
  | Err _ => mret tt
  | Ok view =>
      match check (lc_policy cfg) view with
      | Err _ => mret tt
      | Ok allowlist =>
          records ← ask kw_pending_claims;
          match records with
          | Err _ => mret tt
          | Ok records =>
              _ ← mapM (target_record allowlist) records;
              let seen := seen_ids records in
              _ ← modify (upd_stranded (fun m => m ∩ seen));
              _ ← modify (upd_pending (retain_pending seen));
              _ ← modify (upd_below_min (fun m => m ∩ seen));
              _ ← (if bool_decide (lc_routers cfg = ∅) then mret tt
                   else
                     now ← ask kw_now;
                     s ← get;
                     _ ← (if seed_due (lp_finalizer s) now then seed now else mret tt);
                     finalize_run);
              unwedge_head
          end
      end
  end.

(** * The refund loop *)

Definition refund_record (r : SubmissionRecord) : K unit :=
  if negb (rec_chain_id_from r =? lc_chain_id cfg) then mret tt
  else
    refund_sigs ← member_signatures (rec_submission_id r) Refund (rec_refund_signatures r);
    s ← get;
    if len refund_sigs <? gv_threshold (lp_view s) then mret tt
    else
      match agrees_with_gate r (lc_bridge_domain cfg) with
      | Err _ => report_stranded (rec_submission_id r)
      | Ok _ =>
          may ← may_submit (rec_submission_id r) Refund;
          if negb may then mret tt
          else
            res ← attempt (try_refund r refund_sigs);
            match res with
            | Ok _ => mret tt
            | Err e => note_failure (rec_submission_id r) Refund e
            end
      end.
Definition source_tick : K unit :=
  _ ← refresh_if_stale;
  records ← ask kw_pending_refunds;
  match records with
  | Err _ => mret tt
  | Ok records =>
      _ ← mapM refund_record records;
      let seen := seen_ids records in
      _ ← modify (upd_pending (retain_pending seen));
      _ ← modify (upd_stranded (fun m => m ∩ seen));
      unwedge_head
  end.

(** * Running *)

(** [GateView::load] until it answers, then any number of ticks; [n] counts attempts. *)
Definition loop_init (v : GateView) (ss : SendState) : Loop := MkLoop v ∅ ∅ ∅ FinalizeQueue_default ss [] [].
Fixpoint ticks (tick : K unit) (n : nat) : K unit :=
  match n with
  | O => mret tt
  | S n => _ ← tick; ticks tick n
  end.
End OneLoop.
End Keeper.
