(* ===== verification/KeeperLoop.v ===== *)
(** Invariants of the keeper's loops, once for all of them: what a predicate on the
    loop's state must withstand, and that it then holds after any number of ticks of the
    claim loop and of the refund loop. *)

From S2P Require Import Prelude.
From S2P Require Import Text.
From S2P Require Import SolanaRuntime.
From S2P Require Import Effects.
From S2P Require Import Allowlist.
From S2P Require Import GateTypes.
From S2P Require Import HostRecord.
From S2P Require Import SigStore.
From S2P Require Import KeeperTx.
From S2P Require Import KeeperSigs.
From S2P Require Import KeeperQueue.
From S2P Require Import Keeper.

Section Loops.
Context {RT : Runtime} {HX : HexCodec} {AL : Alloy} {KW : KeeperWorld}.
Variable cfg : LoopConfig.
Abbreviation K := (eff Loop KeeperError).

(** A request as [populate] leaves it. *)
Definition populated (to : evm_address) (call : Call) (tx : TransactionRequest) : Prop :=
  tr_from tx = Some (lc_from cfg) /\ tr_to tx = Some to /\ tr_value tx = 0 /\ tr_input tx = call /\
  is_Some (tr_nonce tx) /\
  ((exists t e, kw_fees t = Ok e /\ tr_max_fee_per_gas tx = Some (est_max_fee e) /\
      tr_max_priority_fee_per_gas tx = Some (est_max_priority_fee e) /\ tr_gas_price tx = None) \/
   (exists t p, kw_gas_price t = Ok p /\ tr_gas_price tx = Some p /\ tr_max_fee_per_gas tx = None /\
      tr_max_priority_fee_per_gas tx = None)).
(** The keeper saw a receipt of status 1 for this call, and calls it [text]. *)
Definition confirmed (call : Call) (text : text) (s : Loop) : Prop :=
  exists b hash, b ∈ lp_broadcasts s /\ bc_cause b = FirstSend /\ tr_input (bc_tx b) = call /\ bc_result b = Ok hash /\
    exists t h, kw_await t hash = AwaitReceipt h true /\ text = hex0x (arr_bytes h).

(** A remembered transaction after an attempt that broadcast nothing. *)
Definition idle_step (f f' : InFlight) : Prop :=
  fl_tx f' = fl_tx f /\ fl_hashes f' = fl_hashes f /\ fl_ceiling f' = fl_ceiling f /\
  (fl_bumps f' = fl_bumps f \/ fl_bumps f < MAX_FEE_BUMPS /\ (fl_bumps f' = fl_bumps f + 1 \/ fl_bumps f' = MAX_FEE_BUMPS)).
(** A price the nodes quoted. *)
Definition quoted (estimate : option Estimation) (gas_price : option Z) : Prop :=
  (forall e, estimate = Some e -> exists t, kw_fees t = Ok e) /\ (forall p, gas_price = Some p -> exists t, kw_gas_price t = Ok p).
Definition after_bump (f : InFlight) (tx : TransactionRequest) (res : result unit hash32) (now : Z) : InFlight :=
  match res with
  | Ok hash => MkInFlight tx (fl_hashes f ++ [hash]) (fl_bumps f + 1) now (fl_ceiling f)
  | Err _ => MkInFlight (fl_tx f) (fl_hashes f) (fl_bumps f + 1) now (fl_ceiling f)
  end.

Lemma wp_maybe_replace f s (Q : result KeeperError InFlight -> Loop -> Prop) :
  (forall f', idle_step f f' -> Q (Ok f') s) ->
  (forall estimate gas_price tx res now, fl_bumps f < MAX_FEE_BUMPS -> quoted estimate gas_price ->
     reprice (fl_tx f) estimate gas_price (fl_ceiling f) = Some tx ->
     Q (Ok (after_bump f tx res now)) (add_broadcast (MkBroadcast FeeBump tx res) s)) ->
  wp (maybe_replace f) Q s.
Proof.
  intros Hidle Hsend. assert (Hsame : Q (Ok f) s) by (apply Hidle; unfold idle_step; auto).
  unfold maybe_replace. apply wp_bind, wp_ask. intros t. destruct (_ <? RECEIPT_TIMEOUT); [by apply wp_ret|].
  destruct (tr_from (fl_tx f)) as [from|]; [|by apply wp_ret]. destruct (tr_nonce (fl_tx f)) as [nonce|]; [|by apply wp_ret].
  destruct (Z.leb_spec MAX_FEE_BUMPS (fl_bumps f)) as [Hm|Hm].
  { apply wp_bind, wp_ask. intros t'. apply wp_ret, Hidle. unfold idle_step, with_last_sent; cbn; auto. }
  apply wp_bind, wp_ask. intros t1. case_bool_decide; [|by apply wp_ret]. apply wp_bind.
  eapply (wp_mono _ (fun r s' => s' = s /\ exists est, r = Ok est /\ forall e, est = Some e -> exists t, kw_fees t = Ok e)).
  { destruct (tr_max_fee_per_gas (fl_tx f)); [|apply wp_ret; split; [done|]; exists None; by split].
    apply wp_bind, wp_ask. intros t2. apply wp_ret. split; [done|]. eexists. split; [done|].
    intros e. destruct (kw_fees t2) eqn:E; [|done]. intros [= <-]. eauto. }
  intros r s' (-> & est & -> & He). apply wp_bind.
  eapply (wp_mono _ (fun r s' => s' = s /\ exists gp, r = Ok gp /\ forall p, gp = Some p -> exists t, kw_gas_price t = Ok p)).
  { destruct (tr_gas_price (fl_tx f)); [|apply wp_ret; split; [done|]; exists None; by split].
    apply wp_bind, wp_ask. intros t2. apply wp_ret. split; [done|]. eexists. split; [done|].
    intros e. destruct (kw_gas_price t2) eqn:E; [|done]. intros [= <-]. eauto. }
  intros r s' (-> & gp & -> & Hp). apply wp_bind, wp_ask. intros t3. cbv zeta. cbn [fl_tx fl_ceiling fl_hashes fl_bumps].
  destruct (reprice _ _ _ _) as [tx|] eqn:Er.
  - apply wp_bind. unfold broadcast. apply wp_bind, wp_ask. intros t4. apply wp_bind, wp_modify, wp_ret.
    pose proof (Hsend est gp tx (kw_send t4 tx) (kw_now t3) Hm (conj He Hp) Er) as HQ.
    unfold after_bump in HQ. by destruct (kw_send t4 tx); apply wp_ret.
  - apply wp_ret, Hidle. unfold idle_step; cbn. split_and!; [done..|]. right. auto.
Qed.

(** The head watch sends at most one transaction, and only for a nonce that no loop tracks,
    that the pool holds, and that did not move for a window. *)
Record head_sent (s : Loop) (nonce : Z) (tx : TransactionRequest) (ss : SendState) : Prop := {
  hd_untracked : nonce ∉ nonces_of (lp_pending s);
  hd_stall : exists t st pending now bump estimate gas_price ceiling,
    (forall role set, role <> lc_role cfg -> ss_tracked (kw_other t (lp_send s)) !! role = Some set -> nonce ∉ set) /\
    ss_head (kw_other t (lp_send s)) = Some st /\ hs_nonce st = nonce /\ nonce < pending /\
    hs_bumps st < MAX_FEE_BUMPS /\ bump = hs_bumps st + 1 /\
    default (hs_since st) (hs_last_sent st) + RECEIPT_TIMEOUT <= now /\ quoted estimate gas_price /\
    head_replacement (lc_from cfg) nonce (hs_last_tx st) estimate gas_price (hs_ceiling st) = (Some tx, ceiling) /\
    ss_head ss = Some (MkHeadStall nonce (hs_since st) (Some now) bump (Some tx) ceiling);
}.
(** Where the watch is left when nothing was sent. *)
Definition head_rest (w w' : HeadWatch) : Prop :=
  w' = w \/ (exists latest pending tracked now, w' = (observe w latest pending tracked now).2) \/
  exists latest pending tracked now st ceiling, (observe w latest pending tracked now).2 = Some st /\
    (hs_last_tx st = None \/ ceiling = hs_ceiling st) /\
    w' = Some (MkHeadStall (hs_nonce st) (hs_since st) (hs_last_sent st) MAX_FEE_BUMPS (hs_last_tx st) ceiling).

Lemma wp_unwedge_head s (Q : result KeeperError unit -> Loop -> Prop) :
  (forall t ss, head_rest (ss_head (kw_other t (lp_send s))) (ss_head ss) -> Q (Ok tt) (upd_send (fun _ => ss) s)) ->
  (forall nonce tx res ss, head_sent s nonce tx ss ->
     Q (Ok tt) (upd_send (fun _ => ss) (add_broadcast (MkBroadcast HeadTransfer tx res) s))) ->
  wp (unwedge_head cfg) Q s.
Proof.
  intros Hrest Hsent. unfold unwedge_head, lock. apply wp_bind, wp_get. cbv zeta. apply wp_bind, wp_bind, wp_ask. intros t.
  apply wp_modify, wp_bind, wp_modify, wp_bind, wp_get. apply wp_bind.
  eapply (wp_mono _ (fun r s' => s' = _ /\ is_Ok r)).
  { destruct (ss_head_checked _); [apply wp_bind, wp_ask; intros|]; apply wp_ret; (split; [done|by eexists]). }
  intros r s' [-> [[|] ->]]; [apply wp_ret; eapply (Hrest t); by left|].
  apply wp_bind, wp_ask. intros t1. apply wp_bind, wp_modify. apply wp_bind, wp_ask. intros t2. apply wp_bind, wp_ask. intros t3.
  destruct (kw_latest t2) as [latest|]; [|apply wp_ret; eapply (Hrest t); by left].
  destruct (kw_next_nonce t3) as [pending|]; [|apply wp_ret; eapply (Hrest t); by left].
  apply wp_bind, wp_get. cbv zeta. apply wp_bind, wp_ask. intros t4. cbn [lp_send upd_send ss_head ss_tracked ss_head_checked].
  set (locked := kw_other t (lp_send s)) in *. set (tracked := existsb _ _). destruct (observe _ _ _ _ _) as [action w] eqn:Eo.
  assert (Hr : head_rest (ss_head locked) w) by (right; left; eexists _, _, _, _; by rewrite Eo).
  apply wp_bind, wp_modify. destruct action as [| |nonce bump|n]; try (apply wp_ret; by eapply (Hrest t)).
  pose proof (observe_replace _ _ _ _ _ _ _ _ Eo) as (-> & Hp & Htr & st & Hst & Hn & Hb & -> & Hw & Hwin). subst w.
  apply wp_bind, wp_ask. intros t5. cbv zeta. apply wp_bind.
  eapply (wp_mono _ (fun r s' => s' = _ /\ exists gp, r = Ok gp /\ forall p, gp = Some p -> exists t, kw_gas_price t = Ok p)).
  { destruct (kw_fees t5); [apply wp_ret; split; [done|]; exists None; by split|].
    apply wp_bind, wp_ask. intros t6. apply wp_ret. split; [done|]. eexists. split; [done|].
    intros p. destruct (kw_gas_price t6) eqn:E; [|done]. intros [= <-]. eauto. }
  intros r s' (-> & gp & -> & Hgp). set (est := match kw_fees t5 with Ok e => Some e | Err _ => None end).
  assert (Hq : quoted est gp).
  { split; [|done]. unfold est. intros e. destruct (kw_fees t5) eqn:E; [|done]. intros [= <-]. eauto. }
  cbn [hs_last_tx hs_ceiling hs_nonce hs_since hs_last_sent hs_bumps].
  destruct (head_replacement _ _ _ _ _ _) as [[tx|] ceiling] eqn:Eh.
  - apply wp_bind. unfold broadcast. apply wp_bind, wp_ask. intros t7. apply wp_bind, wp_modify, wp_ret, wp_modify.
    eapply (Hsent latest tx). constructor.
    + apply not_true_iff_false in Htr. intros Hin. apply Htr, existsb_exists.
      exists (lc_role cfg, nonces_of (lp_pending s)). split; [|by apply bool_decide_eq_true].
      apply list_elem_of_In, elem_of_map_to_list, lookup_insert_eq.
    + exists t, st, pending, (kw_now t4), (hs_bumps st + 1), est, gp, ceiling. fold locked. split_and!; try done; [|by rewrite <- Hn].
      intros role set_ Hrole Hl Hin. apply not_true_iff_false in Htr. apply Htr, existsb_exists. exists (role, set_).
      split; [|by apply bool_decide_eq_true]. apply list_elem_of_In, elem_of_map_to_list. by rewrite lookup_insert_ne.
  - apply wp_modify. eapply (Hrest t). right; right. eexists latest, pending, tracked, (kw_now t4), _, ceiling. fold locked.
    rewrite Eo. split; [done|]. split; [|done]. cbn. destruct (hs_last_tx st); [right|by left].
    unfold head_replacement in Eh. by injection Eh as _ <-.
Qed.

Lemma wp_rpc {A} (f : nat -> result unit A) (Q : result KeeperError A -> Loop -> Prop) s :
  (forall t a, f t = Ok a -> Q (Ok a) s) -> Q (Err OtherError) s -> wp (rpc f) Q s.
Proof using Type.
  intros H He. apply wp_bind, wp_ask. intros t. apply wp_try. destruct (f t) as [a|e] eqn:E; cbn; eauto.
Qed.

Lemma wp_populate to call s (Q : result KeeperError TransactionRequest -> Loop -> Prop) :
  (forall tx, populated to call tx -> Q (Ok tx) s) -> Q (Err OtherError) s ->
  wp (populate (lc_from cfg) (call_request to call)) Q s.
Proof using Type.
  intros H He. unfold populate. apply wp_bind, wp_rpc; [|done]. intros t n Hn. apply wp_bind, wp_rpc; [|done].
  intros t' g Hg. apply wp_bind, wp_ask. intros t2. destruct (kw_fees t2) as [e|[|]] eqn:Ef; cbn.
  - apply wp_ret, H. unfold populated; cbn. split_and!; try done. left. exists t2, e. by split_and!.
  - apply wp_bind, wp_rpc; [|done]. intros t3 p Hp. apply wp_ret, H. unfold populated; cbn.
    split_and!; try done. right. exists t3, p. by split_and!.
  - by apply wp_fail.
Qed.

(** Reading the gate changes the view and nothing else. *)
Definition view_only (s s' : Loop) : Prop := exists v, s' = upd_view v s.
Lemma view_only_refl s : view_only s s.
Proof using Type. by exists (lp_view s); destruct s. Qed.
Lemma view_only_trans s1 s2 s3 : view_only s1 s2 -> view_only s2 s3 -> view_only s1 s3.
Proof using Type. intros [v ->] [w ->]. by exists w. Qed.
#[local] Hint Resolve view_only_refl : core.
Lemma refresh_frame s : wp refresh_if_stale (fun r s' => view_only s s' /\ r = Ok tt) s.
Proof using Type.
  unfold refresh_if_stale. apply wp_bind, wp_get, wp_bind, wp_ask. intros t.
  destruct (_ <? _); [by apply wp_ret|]. apply wp_bind, wp_attempt. eapply (wp_mono _ (fun _ s' => s' = s)).
  { unfold view_load. apply wp_bind, wp_rpc; [|done]. intros. apply wp_bind, wp_rpc; [|done]. intros.
    apply wp_bind, wp_ask. intros. by apply wp_ret. }
  intros [v|e] s' ->; [apply wp_modify; split; [by eexists|done]|].
  apply wp_bind, wp_ask. intros t'. apply wp_modify. split; [by eexists|done].
Qed.
Lemma memoize_frame a m s : wp (memoize a m) (fun r s' => view_only s s' /\ r = Ok tt) s.
Proof using Type. apply wp_modify. split; [by eexists|done]. Qed.
Lemma resolve_frame rows s : wp (resolve_members rows) (fun r s' => view_only s s' /\ is_Ok r) s.
Proof using Type.
  revert s. induction rows as [|[a sig] rows IH]; intros s; cbn [resolve_members]; [apply wp_ret; split; [done|by eexists]|].
  assert (Hnext : forall m s1, view_only s s1 -> wp (rest ← resolve_members rows; mret ((a, m, sig) :: rest))
      (fun r s' => view_only s s' /\ is_Ok r) s1).
  { intros m s1 H1. apply wp_bind. eapply wp_mono; [apply IH|]. intros r s2 [H2 [l ->]]. apply wp_ret.
    split; [by eapply view_only_trans|by eexists]. }
  apply wp_bind, wp_get. destruct (_ !! a); [by apply Hnext|]. apply wp_bind, wp_ask. intros t.
  destruct (kw_is_validator t a); [|apply IH]. apply wp_bind. eapply wp_mono; [apply memoize_frame|].
  intros r s1 [H1 ->]. by apply Hnext.
Qed.
Lemma reread_frame l s : wp (reread_members l) (fun r s' => view_only s s' /\ is_Ok r) s.
Proof using Type.
  revert s. induction l as [|[[a [m|m]] sig] l IH]; intros s; cbn [reread_members]; [apply wp_ret; split; [done|by eexists]|..].
  - apply wp_bind. eapply wp_mono; [apply IH|]. intros r s1 [H1 [k ->]]. apply wp_ret. split; [done|by eexists].
  - apply wp_bind, wp_ask. intros t. apply wp_bind. eapply (wp_mono _ (fun r s' => view_only s s' /\ is_Ok r)).
    { destruct (kw_is_validator t a); [|apply wp_ret; split; [done|by eexists]]. apply wp_bind.
      eapply wp_mono; [apply memoize_frame|]. intros r s1 [H1 ->]. apply wp_ret. split; [done|by eexists]. }
    intros r s1 [H1 [k ->]]. apply wp_bind. eapply wp_mono; [apply IH|]. intros r s2 [H2 [k' ->]]. apply wp_ret.
    split; [by eapply view_only_trans|by eexists].
Qed.
Lemma members_frame id kind sigs s : wp (member_signatures id kind sigs) (fun r s' => view_only s s' /\ is_Ok r) s.
Proof using Type.
  unfold member_signatures. destruct (b256_from_str id) as [h|]; [|apply wp_ret; split; [done|by eexists]].
  apply wp_bind. eapply wp_mono; [apply resolve_frame|]. intros r s1 [H1 [l ->]]. apply wp_bind, wp_get. cbv zeta. apply wp_bind.
  eapply (wp_mono _ (fun r s' => view_only s s' /\ is_Ok r)).
  { destruct (_ <? _); [|apply wp_ret; split; [done|by eexists]]. eapply wp_mono; [apply reread_frame|].
    intros r s2 [H2 Hr]. split; [by eapply view_only_trans|done]. }
  intros r s2 [H2 [k ->]]. apply wp_bind, wp_get, wp_ret. split; [done|by eexists].
Qed.

(** ** What an invariant must withstand *)

Section Closed.
(** [I], the invariant; [J hash tx], the invariant right after [tx] went out as [hash];
    [good], the calls that may go out; [sigs_ok], what is known of a quorum. *)
Variables (I : Loop -> Prop) (J : hash32 -> TransactionRequest -> Loop -> Prop)
  (good : Call -> Prop) (sigs_ok : SigKind -> text -> list SignerSig -> Prop).

Definition claim_confirmed (r : SubmissionRecord) (text : text) (s : Loop) : Prop :=
  exists p raws, good (CallClaim p raws) /\ confirmed (CallClaim p raws) text s /\
    agrees_with_gate r (lc_bridge_domain cfg) = Ok tt /\ rec_chain_id_to r = lc_chain_id cfg /\
    exists debridge_id amount, b256_from_str (rec_debridge_id r) = Some debridge_id /\
      u256_from_str (rec_amount r) = Some amount /\ call_params debridge_id amount (rec_chain_id_from r) r = Some p.

(** The parameters of a call, when the gate agrees with the record. *)
Definition described (r : SubmissionRecord) (chain_id : Z) (p : CallParams) : Prop :=
  agrees_with_gate r (lc_bridge_domain cfg) = Ok tt /\
  exists debridge_id amount, b256_from_str (rec_debridge_id r) = Some debridge_id /\
    u256_from_str (rec_amount r) = Some amount /\ call_params debridge_id amount chain_id r = Some p.

Record closed : Prop := {
  cl_lock : forall t s, I s -> I (upd_send (kw_other t) s);
  cl_nonce : forall hash tx n s, J hash tx s -> J hash tx (upd_send (track_nonce (lc_role cfg) n) s);
  cl_refused : forall to call tx e s, good call -> populated to call tx -> I s ->
    I (add_broadcast (MkBroadcast FirstSend tx (Err e)) s);
  cl_sent : forall to call tx hash s, good call -> populated to call tx -> I s ->
    J hash tx (add_broadcast (MkBroadcast FirstSend tx (Ok hash)) s);
  cl_settled : forall hash tx s, J hash tx s -> I s;
  cl_track : forall hash tx s key at_, J hash tx s -> I (upd_pending (<[key := InFlight_new tx hash at_]>) s);
  cl_shrink : forall g s, g (lp_pending s) ⊆ lp_pending s -> I s -> I (upd_pending g s);
  cl_replace : forall key f s, lp_pending s !! key = Some f -> I s ->
    wp (maybe_replace f) (fun r s' => match r with Ok f' => I (upd_pending (<[key := f']>) s') | Err _ => I s' end) s;
  cl_refresh : forall s, I s -> wp refresh_if_stale (fun _ s' => I s') s;
  cl_members : forall id kind sigs s, I s -> wp (member_signatures id kind sigs) (fun r s' => I s' /\
    match r with Ok l => gv_threshold (lp_view s') <= len l -> sigs_ok kind id l | Err _ => True end) s;
  cl_stranded : forall f s, I s -> I (upd_stranded f s);
  cl_below_min : forall f s, I s -> I (upd_below_min f s);
  cl_finalizer : forall f s, I s -> I (upd_finalizer f s);
  cl_mark : forall r text s, claim_confirmed r text s -> I s -> I (add_mark (rec_submission_id r, text) s);
  cl_head : forall s, I s -> wp (unwedge_head cfg) (fun _ s' => I s') s;
  cl_claim : forall r p l raws, described r (rec_chain_id_from r) p -> rec_chain_id_to r = lc_chain_id cfg ->
    evm_receiver_decodable (rec_receiver r) = true ->
    sigs_ok Transfer (rec_submission_id r) l -> sorted_signatures l = Some raws -> good (CallClaim p raws);
  cl_cancel : forall r p l raws, described r (rec_chain_id_from r) p -> rec_chain_id_to r = lc_chain_id cfg ->
    sigs_ok Cancel (rec_submission_id r) l -> sorted_signatures l = Some raws -> good (CallCancel p raws);
  cl_refund : forall r p l raws token, described r (rec_chain_id_to r) p -> rec_chain_id_from r = lc_chain_id cfg ->
    sigs_ok Refund (rec_submission_id r) l -> sorted_signatures l = Some raws ->
    good (CallRefund token p raws) /\ good (CallRefundAndForward p raws);
  cl_forward : forall id, good (CallForwardRefund id);
  cl_finalize : forall p, good (CallFinalize p);
}.
Hypothesis CL : closed.

(** ** The steps *)

(** How a try ends. *)
Definition ended {A} (done : A -> Loop -> Prop) (r : result KeeperError A) (s : Loop) : Prop :=
  match r with
  | Ok a => I s /\ done a s
  | Err (ReceiptTimeout hash tx _) => J hash tx s
  | Err OtherError => I s
  end.
Abbreviation quiet := (fun _ _ => True).

Lemma confirm_wp to call s : good call -> I s -> wp (confirm cfg to call) (ended (confirmed call)) s.
Proof using CL.
  intros Hg Hs. unfold confirm, lock. apply wp_bind, wp_bind, wp_ask. intros t. apply wp_modify.
  apply (cl_lock CL t) in Hs. apply wp_bind, wp_populate; [|done]. intros tx Htx.
  apply wp_bind. unfold broadcast. apply wp_bind, wp_ask. intros t'. apply wp_bind, wp_modify, wp_ret. apply wp_bind, wp_try.
  destruct (kw_send t' tx) as [hash|e]; cbn; [|exact (cl_refused CL _ _ _ _ _ Hg Htx Hs)].
  pose proof (cl_sent CL _ _ _ hash _ Hg Htx Hs) as HJ. set (s1 := add_broadcast _ _) in *.
  destruct Htx as (_ & _ & _ & Hin & [n Hn] & _). rewrite Hn. apply wp_bind, wp_modify.
  apply (cl_nonce CL _ _ n) in HJ. apply wp_bind, wp_ask. intros t2. apply wp_bind, wp_ask. intros t3.
  destruct (kw_await t3 hash) as [h [|]| |] eqn:Ea.
  - apply wp_ret. split; [exact (cl_settled CL _ _ _ HJ)|]. exists (MkBroadcast FirstSend tx (Ok hash)), hash.
    split_and!; [cbn; set_solver|done..|]. by exists t3, h.
  - apply wp_fail. exact (cl_settled CL _ _ _ HJ).
  - apply wp_fail. exact HJ.
  - apply wp_fail. exact (cl_settled CL _ _ _ HJ).
Qed.

Lemma ended_mono {A} (P Q : A -> Loop -> Prop) r s : (forall a s, P a s -> Q a s) -> ended P r s -> ended Q r s.
Proof using Type. clear. intros H. destruct r as [a|[]]; cbn; [|done..]. intros [HI HP]. auto. Qed.
Lemma wp_expect_ended {A B} (o : option A) (f : A -> K B) (P : B -> Loop -> Prop) s : I s ->
  (forall a, o = Some a -> wp (f a) (ended P) s) -> wp (expect o OtherError ≫= f) (ended P) s.
Proof using Type. clear. intros Hs H. apply wp_bind, wp_expect; [done|]. by intros _. Qed.
Lemma wp_rpc_ended {A B} (g : nat -> result unit A) (f : A -> K B) (P : B -> Loop -> Prop) s : I s ->
  (forall t a, g t = Ok a -> wp (f a) (ended P) s) -> wp (rpc g ≫= f) (ended P) s.
Proof using Type. clear. intros Hs H. apply wp_bind, wp_rpc; [exact H|done]. Qed.
Lemma wp_bind_ended {A B} (m : K A) (f : A -> K B) (P : A -> Loop -> Prop) (Q : B -> Loop -> Prop) s :
  wp m (ended P) s -> (forall a s', I s' -> P a s' -> wp (f a) (ended Q) s') -> wp (m ≫= f) (ended Q) s.
Proof using Type.
  clear. intros H Hf. apply wp_bind. eapply wp_mono; [exact H|]. intros [a|[]] s'; cbn; [intros []; auto|done..].
Qed.
(** A call and what its caller returns for it. *)
Lemma wp_confirm_ended {B} to call (f : text -> K B) (P : B -> Loop -> Prop) s : good call -> I s ->
  (forall a s', I s' -> confirmed call a s' -> wp (f a) (ended P) s') -> wp (confirm cfg to call ≫= f) (ended P) s.
Proof using CL. intros Hg Hs H. eapply wp_bind_ended; [by apply confirm_wp|exact H]. Qed.

Lemma try_claim_wp r l s : I s -> sigs_ok Transfer (rec_submission_id r) l -> rec_chain_id_to r = lc_chain_id cfg ->
  wp (try_claim cfg r l)
    (ended (fun o s' => match o with Submitted text => claim_confirmed r text s' | _ => True end)) s.
Proof using CL.
  intros Hs Hl Hc. unfold try_claim. apply wp_expect_ended; [done|]. intros id Hid.
  destruct (evm_receiver_decodable (rec_receiver r)) eqn:Hw; cbn [negb]; [|by apply wp_ret].
  destruct (agrees_with_gate r (lc_bridge_domain cfg)) as [[]|] eqn:Ha; [|by apply wp_ret].
  apply wp_rpc_ended; [done|]. intros _ [|] _; [by apply wp_ret|].
  apply wp_expect_ended; [done|]. intros d Hd. apply wp_rpc_ended; [done|]. intros _ token _.
  case_bool_decide; [by apply wp_ret|]. apply wp_expect_ended; [done|]. intros a Hamt.
  apply wp_expect_ended; [done|]. intros p Hp. apply wp_expect_ended; [done|]. intros raws Hr.
  assert (Hg : good (CallClaim p raws)).
  { eapply (cl_claim CL); eauto. split; [done|]. exists d, a. by split_and!. }
  apply wp_confirm_ended; [done..|]. intros text s' Hs' Hcf. apply wp_ret. split; [done|].
  exists p, raws. split_and!; [done..|]. exists d, a. by split_and!.
Qed.
Lemma try_cancel_wp r l s : I s -> sigs_ok Cancel (rec_submission_id r) l -> rec_chain_id_to r = lc_chain_id cfg ->
  agrees_with_gate r (lc_bridge_domain cfg) = Ok tt -> wp (try_cancel cfg r l) (ended quiet) s.
Proof using CL.
  intros Hs Hl Hc Ha. unfold try_cancel. apply wp_expect_ended; [done|]. intros id Hid.
  apply wp_rpc_ended; [done|]. intros _ [|] _; [by apply wp_ret|].
  apply wp_expect_ended; [done|]. intros d Hd. apply wp_expect_ended; [done|]. intros a Hamt.
  apply wp_expect_ended; [done|]. intros p Hp. apply wp_expect_ended; [done|]. intros raws Hr.
  apply wp_confirm_ended; [|done|intros; by apply wp_ret].
  eapply (cl_cancel CL); eauto. split; [done|]. exists d, a. by split_and!.
Qed.
Lemma try_refund_wp r l s : I s -> sigs_ok Refund (rec_submission_id r) l -> rec_chain_id_from r = lc_chain_id cfg ->
  agrees_with_gate r (lc_bridge_domain cfg) = Ok tt -> wp (try_refund cfg r l) (ended quiet) s.
Proof using CL.
  intros Hs Hl Hc Ha. unfold try_refund. apply wp_expect_ended; [done|]. intros id Hid.
  apply wp_rpc_ended; [done|]. intros _ [|] _.
  - destruct (router_of _ _) as [router|]; [|by apply wp_ret]. apply wp_rpc_ended; [done|]. intros _ to _.
    case_bool_decide; [by apply wp_ret|].
    apply wp_confirm_ended; [apply (cl_forward CL)|done|intros; by apply wp_ret].
  - apply wp_rpc_ended; [done|]. intros _ by_ _. case_bool_decide; [by apply wp_ret|].
    case_bool_decide; [by apply wp_ret|]. apply wp_expect_ended; [done|]. intros token Ht.
    apply wp_expect_ended; [done|]. intros d Hd. apply wp_expect_ended; [done|]. intros a Hamt.
    apply wp_expect_ended; [done|]. intros _ _.
    assert (Hg : forall p raws, call_params d a (rec_chain_id_to r) r = Some p -> sorted_signatures l = Some raws ->
      good (CallRefund token p raws) /\ good (CallRefundAndForward p raws)).
    { intros p raws Hp Hr. eapply (cl_refund CL); eauto. split; [done|]. exists d, a. by split_and!. }
    case_bool_decide as Hrt.
    + apply wp_expect_ended; [done|]. intros p Hp. apply wp_expect_ended; [done|]. intros raws Hr.
      apply wp_confirm_ended; [by apply Hg|done|intros; by apply wp_ret].
    + apply wp_bind. eapply (wp_mono _ (fun r' s' => s' = s /\ is_Ok r')).
      { case_bool_decide; [apply wp_ret; split; [done|by eexists]|]. unfold is_contract_sender.
        apply wp_bind, wp_ask. intros. apply wp_ret. split; [done|by eexists]. }
      intros r' s' [-> [b ->]]. apply wp_expect_ended; [done|]. intros p Hp. apply wp_expect_ended; [done|]. intros raws Hr.
      apply wp_confirm_ended; [by apply Hg|done|intros; by apply wp_ret].
Qed.

(** ** The records *)

Lemma note_failure_wp {A} (P : A -> Loop -> Prop) id kind (e : KeeperError) s : ended P (Err e) s ->
  wp (note_failure id kind e) (fun _ s' => I s') s.
Proof using CL. intros H. destruct e as [hash tx at_|]; [by apply wp_modify, (cl_track CL)|by apply wp_ret]. Qed.

Lemma may_submit_wp id kind s : I s -> wp (may_submit id kind) (fun _ s' => I s') s.
Proof using CL.
  intros Hs. unfold may_submit. apply wp_bind, wp_get. destruct (lp_pending s !! _) as [f|] eqn:Hf; [|by apply wp_ret].
  apply wp_bind. eapply (wp_mono _ (fun r s' => s' = s)).
  { apply (wp_mapM (fun s' => s' = s)); [|done]. intros h s' _ ->. unfold probe_tx. apply wp_bind, wp_ask. intros t.
    destruct (kw_receipt t h) as [[st|]|]; [by apply wp_ret| |by apply wp_ret]. apply wp_bind, wp_ask. intros. by apply wp_ret. }
  intros [probes|e] s' ->; [|done]. apply wp_bind. unfold apply_probe. apply wp_bind.
  destruct (resolve_pending _) eqn:Er; cbn [bool_decide]; (case_bool_decide as Hw; [|]); try done.
  1, 3: (apply wp_modify, wp_ret, wp_ret; apply (cl_shrink CL); [apply delete_subseteq|done]).
  apply wp_ret, wp_ret. apply wp_bind. case_bool_decide as Hp; [|by apply wp_ret, wp_ret].
  apply wp_bind. eapply wp_mono; [by apply (cl_replace CL _ _ _ Hf)|]. intros [f'|e] s' Hs'; [|done].
  apply wp_modify, wp_ret. exact Hs'.
Qed.

Lemma wp_member_quorum id kind sigs (f : list SignerSig -> K unit) s : I s ->
  (forall l s', I s' -> (gv_threshold (lp_view s') <= len l -> sigs_ok kind id l) -> wp (f l) (fun _ s'' => I s'') s') ->
  wp (member_signatures id kind sigs ≫= f) (fun _ s' => I s') s.
Proof using CL.
  intros Hs H. apply wp_bind. eapply wp_mono; [by apply (cl_members CL)|]. intros [l|e] s' [Hs' Hl]; [by apply H|done].
Qed.

Lemma cancel_record_wp r l s : I s -> sigs_ok Cancel (rec_submission_id r) l -> rec_chain_id_to r = lc_chain_id cfg ->
  wp (cancel_record cfg r l) (fun _ s' => I s') s.
Proof using CL.
  intros Hs Hl Hc. unfold cancel_record. destruct (agrees_with_gate _ _) as [[]|] eqn:Ha; [|by apply wp_modify, (cl_stranded CL)].
  apply wp_bind. eapply wp_mono; [by apply may_submit_wp|]. intros [[|]|e] s1 Hs1; [|by apply wp_ret|done].
  cbn [negb]. apply wp_bind, wp_attempt. eapply wp_mono; [by apply try_cancel_wp|].
  intros [o|e] s2 H2; [by apply wp_ret; destruct H2|by eapply note_failure_wp].
Qed.
Lemma enqueue_delivery_wp r s : I s -> wp (enqueue_delivery cfg r) (fun _ s' => I s') s.
Proof using CL.
  intros Hs. unfold enqueue_delivery. destruct (router_of _ _); [|by apply wp_ret].
  apply wp_bind, wp_ask. intros t. by apply wp_modify, (cl_finalizer CL).
Qed.

Lemma claim_record_wp allow r s : I s -> rec_chain_id_to r = lc_chain_id cfg ->
  wp (claim_record cfg allow r) (fun _ s' => I s') s.
Proof using CL.
  intros Hs Hc. unfold claim_record. destruct (below_min_claim _ _); [by apply wp_modify, (cl_below_min CL)|].
  apply wp_member_quorum; [done|]. intros l s1 Hs1 Hl. apply wp_bind, wp_get.
  destruct (Z.ltb_spec (len l) (gv_threshold (lp_view s1))) as [|Hge]; [by apply wp_ret|]. specialize (Hl Hge).
  destruct (match allow with Some _ => _ | None => _ end); [by apply wp_ret|].
  apply wp_bind. eapply wp_mono; [by apply may_submit_wp|]. intros [[|]|e] s2 Hs2; [|by apply wp_ret|done].
  cbn [negb]. apply wp_bind, wp_attempt. eapply wp_mono; [by apply try_claim_wp|].
  intros [[text| |reason]|e] s3 H3; [destruct H3 as [Hs3 Hd]..|by eapply note_failure_wp].
  - apply wp_bind, wp_modify. apply wp_bind.
    assert (Hd' : claim_confirmed r text (upd_stranded (fun m => m ∖ {[rec_submission_id r]}) s3)) by exact Hd.
    apply (cl_stranded CL (fun m => m ∖ {[rec_submission_id r]})) in Hs3. set (s4 := upd_stranded _ s3) in *.
    eapply (wp_mono _ (fun _ s' => I s' /\ claim_confirmed r text s')).
    { apply wp_and; [by apply enqueue_delivery_wp|]. unfold enqueue_delivery. destruct (router_of _ _); [|by apply wp_ret].
      apply wp_bind, wp_ask. intros t. by apply wp_modify. }
    intros [u|e] s5 [Hs5 Hd5]; [|done]. apply wp_bind, wp_ask. intros t. by apply wp_modify, (cl_mark CL).
  - apply wp_bind, wp_modify. by apply enqueue_delivery_wp, (cl_stranded CL).
  - by apply wp_modify, (cl_stranded CL).
Qed.
Lemma target_record_wp allow r s : I s -> wp (target_record cfg allow r) (fun _ s' => I s') s.
Proof using CL.
  intros Hs. unfold target_record. destruct (Z.eqb_spec (rec_chain_id_to r) (lc_chain_id cfg)) as [Hc|]; [|by apply wp_ret].
  cbn [negb]. apply wp_member_quorum; [done|]. intros l s1 Hs1 Hl. apply wp_bind, wp_get.
  destruct (Z.leb_spec (gv_threshold (lp_view s1)) (len l)); [apply cancel_record_wp; auto|by apply claim_record_wp].
Qed.
Lemma refund_record_wp r s : I s -> wp (refund_record cfg r) (fun _ s' => I s') s.
Proof using CL.
  intros Hs. unfold refund_record. destruct (Z.eqb_spec (rec_chain_id_from r) (lc_chain_id cfg)) as [Hc|]; [|by apply wp_ret].
  cbn [negb]. apply wp_member_quorum; [done|]. intros l s1 Hs1 Hl. apply wp_bind, wp_get.
  destruct (Z.ltb_spec (len l) (gv_threshold (lp_view s1))) as [|Hge]; [by apply wp_ret|].
  destruct (agrees_with_gate _ _) as [[]|] eqn:Ha; [|by apply wp_modify, (cl_stranded CL)].
  apply wp_bind. eapply wp_mono; [by apply may_submit_wp|]. intros [[|]|e] s2 Hs2; [|by apply wp_ret|done].
  cbn [negb]. apply wp_bind, wp_attempt. eapply wp_mono; [apply try_refund_wp; auto|].
  intros [o|e] s3 H3; [by apply wp_ret; destruct H3|by eapply note_failure_wp].
Qed.

(** ** Deliveries *)

Lemma finalize_one_wp router r s : I s -> wp (finalize_one cfg router r) (ended quiet) s.
Proof using CL.
  intros Hs. unfold finalize_one. apply wp_expect_ended; [done|]. intros id Hid.
  apply wp_rpc_ended; [done|]. intros _ [|] _; [by apply wp_ret|].
  apply wp_rpc_ended; [done|]. intros _ [|] _; [by apply wp_ret|].
  apply wp_rpc_ended; [done|]. intros _ [|] _; [|by apply wp_ret]. cbn [negb].
  apply wp_rpc_ended; [done|]. intros _ owner _. eapply (wp_bind_ended _ _ quiet).
  { case_bool_decide; [by apply wp_ret|]. apply wp_rpc_ended; [done|]. intros. by apply wp_ret. }
  intros [|] s1 Hs1 _; [by apply wp_ret|]. apply wp_expect_ended; [done|]. intros d Hd.
  apply wp_expect_ended; [done|]. intros a Hamt. apply wp_expect_ended; [done|]. intros p Hp.
  apply wp_confirm_ended; [apply (cl_finalize CL)|done|]. intros text s2 Hs2 _. apply wp_rpc_ended; [done|].
  intros _ [|] _; by apply wp_ret.
Qed.
Lemma ended_inv {A} (P : A -> Loop -> Prop) r s : ended P r s -> I s.
Proof using CL. destruct r as [a|[]]; cbn; [by intros []|apply (cl_settled CL)|done]. Qed.
Lemma finalize_due_wp now id s : I s -> wp (finalize_due cfg now id) (fun _ s' => I s') s.
Proof using CL.
  intros Hs. unfold finalize_due. apply wp_bind, wp_get. destruct (fq_entries _ !! id) as [e|]; [|by apply wp_ret].
  apply wp_bind, wp_attempt. eapply wp_mono; [by apply finalize_one_wp|]. intros o s1 H1%ended_inv.
  by apply wp_modify, (cl_finalizer CL).
Qed.
Lemma finalize_run_wp s : I s -> wp (finalize_run cfg) (fun _ s' => I s') s.
Proof using CL.
  intros Hs. unfold finalize_run. apply wp_bind, wp_ask. intros t. apply wp_bind, wp_get. apply wp_bind.
  eapply wp_mono; [apply (wp_mapM I); [intros; by apply finalize_due_wp|done]|]. intros [l|e] s1 H1; [by apply wp_ret|done].
Qed.
Lemma seed_wp now s : I s -> wp (seed cfg now) (fun _ s' => I s') s.
Proof using CL.
  intros Hs. unfold seed. apply wp_bind, wp_modify. apply (cl_finalizer CL (set_seeded now)) in Hs.
  destruct (_ || _); [by apply wp_ret|]. apply wp_bind, wp_ask. intros t.
  destruct (kw_history t) as [rows|]; [|by apply wp_ret]. revert Hs. generalize (upd_finalizer (set_seeded now) s) as s1.
  generalize 0. induction rows as [|row rows IH]; intros loads s1 Hs; cbn [seed_rows]; [by apply wp_ret|].
  destruct (SEED_LOADS <=? loads); [by apply wp_ret|]. apply wp_bind, wp_get.
  destruct (negb (row_wanted _ _ _)); [by apply IH|]. destruct (router_of _ _) as [router|]; [|by apply IH].
  apply wp_bind, wp_ask. intros t'. apply wp_bind. destruct (kw_load _ _) as [[r|]|].
  - case_bool_decide; [by apply wp_modify, IH, (cl_finalizer CL)|by apply wp_ret, IH].
  - by apply wp_ret, IH.
  - by apply wp_ret, IH.
Qed.

(** ** The ticks *)

Lemma retain_subseteq seen p : retain_pending seen p ⊆ p.
Proof using Type. clear. apply map_filter_subseteq. Qed.

Lemma target_tick_wp s : I s -> wp (target_tick cfg) (fun _ s' => I s') s.
Proof using CL.
  intros Hs. unfold target_tick. apply wp_bind. eapply wp_mono; [by apply (cl_refresh CL)|]. intros [u|e] s1 Hs1; [|done].
  apply wp_bind, wp_ask. intros t. destruct (kw_allowlist t) as [v|]; [|by apply wp_ret].
  destruct (check _ v) as [allow|]; [|by apply wp_ret]. apply wp_bind, wp_ask. intros t'.
  destruct (kw_pending_claims t') as [records|]; [|by apply wp_ret]. apply wp_bind.
  eapply wp_mono; [apply (wp_mapM I); [intros; by apply target_record_wp|done]|]. intros [l|e] s2 Hs2; [|done].
  apply wp_bind, wp_modify. apply (cl_stranded CL (fun m => m ∩ seen_ids records)) in Hs2. set (s3 := upd_stranded _ s2) in *.
  apply wp_bind, wp_modify. apply (cl_shrink CL (retain_pending (seen_ids records))) in Hs2; [|apply retain_subseteq].
  set (s4 := upd_pending _ s3) in *. apply wp_bind, wp_modify.
  apply (cl_below_min CL (fun m => m ∩ seen_ids records)) in Hs2. set (s5 := upd_below_min _ s4) in *. apply wp_bind.
  eapply (wp_mono _ (fun _ s' => I s')); [|intros [u'|e] s' Hs'; [by apply (cl_head CL)|done]].
  case_bool_decide; [by apply wp_ret|]. apply wp_bind, wp_ask. intros t2. apply wp_bind, wp_get. apply wp_bind.
  eapply (wp_mono _ (fun _ s' => I s')); [|intros [u'|e] s' Hs'; [by apply finalize_run_wp|done]].
  destruct (seed_due _ _); [by apply seed_wp|by apply wp_ret].
Qed.
Lemma source_tick_wp s : I s -> wp (source_tick cfg) (fun _ s' => I s') s.
Proof using CL.
  intros Hs. unfold source_tick. apply wp_bind. eapply wp_mono; [by apply (cl_refresh CL)|]. intros [u|e] s1 Hs1; [|done].
  apply wp_bind, wp_ask. intros t'. destruct (kw_pending_refunds t') as [records|]; [|by apply wp_ret]. apply wp_bind.
  eapply wp_mono; [apply (wp_mapM I); [intros; by apply refund_record_wp|done]|]. intros [l|e] s2 Hs2; [|done].
  apply wp_bind, wp_modify. apply (cl_shrink CL (retain_pending (seen_ids records))) in Hs2; [|apply retain_subseteq].
  set (s4 := upd_pending _ s2) in *. apply wp_bind, wp_modify.
  by apply (cl_head CL), (cl_stranded CL (fun m => m ∩ seen_ids records)).
Qed.

(** Which loop, and how many ticks. *)
Inductive keeper_loop : K unit -> Prop := TargetLoop : keeper_loop (target_tick cfg) | SourceLoop : keeper_loop (source_tick cfg).
Lemma ticks_invariant tick n s : keeper_loop tick -> I s -> wp (ticks tick n) (fun _ s' => I s') s.
Proof using CL.
  intros Ht. revert s. induction n as [|n IH]; intros s Hs; cbn; [by apply wp_ret|]. apply wp_bind.
  eapply wp_mono; [destruct Ht; [by apply target_tick_wp|by apply source_tick_wp]|]. intros [u|e] s' Hs'; [by apply IH|done].
Qed.
End Closed.
End Loops.
