(* ===== verification/KeeperSafety.v ===== *)
(** What the keeper puts on chain, whatever the store serves and however its nodes answer:
    only calls whose signatures the gate accepts for the id it recomputes; at most five
    replacements for a transaction, none above four times its price; and no claim
    reported to the store without a receipt of status 1. *)

From S2P Require Import Prelude.
From S2P Require Import Text.
From S2P Require Import SolanaRuntime.
From S2P Require Import Effects.
From S2P Require Import Allowlist.
From S2P Require Import GateTypes.
From S2P Require Import HostRecord.
From S2P Require Import SigStore.
From S2P Require Import KeeperTx.
From S2P Require Import KeeperSigs.
From S2P Require Import KeeperQueue.
From S2P Require Import Keeper.
From S2P Require Import KeeperLoop.
From S2P Require CoreHash.

(** * The gate's side *)

Section GateSide.
Context {RT : Runtime} {HX : HexCodec} {AL : Alloy}.

(** [_idFor] past its width check: [BridgeHash.getSubmissionId], or its variant with
    auto-params; the ABI decoder is alloy's. *)
Definition gate_id_for (bridge_domain : hash32) (chain_id_from chain_id_to : Z) (p : CallParams) : option hash32 :=
  auto ← decode_auto_params (cp_auto_params p) (cp_native_sender p);
  Some (match auto with
        | None => CoreHash.submission_id bridge_domain (cp_debridge_id p) (cp_bridge_decimals p) (cp_amount p)
                    chain_id_from chain_id_to (cp_nonce p) (cp_receiver p)
        | Some auto => CoreHash.submission_id_with_auto bridge_domain (cp_debridge_id p) (cp_bridge_decimals p)
                    (cp_amount p) chain_id_from chain_id_to (cp_nonce p) (cp_receiver p) auto
        end).

Context {HL : HexLaws} {ALL : AlloyLaws} {AP : AlloyParses}.

Lemma bytes_of_hex_field f s b : hex_field f s = Ok b <-> bytes_of s = Some b.
Proof.
  unfold hex_field, bytes_of. case_bool_decide; [split; intros [= ->]; done|]. by rewrite ok_or_Ok.
Qed.
(** The id of a record under the gate's domain is the one the gate computes from the call
    made of the record. *)
Lemma agreed_id r domain debridge amount chain_id p :
  agrees_with_gate r domain = Ok tt -> b256_from_str (rec_debridge_id r) = Some debridge ->
  u256_from_str (rec_amount r) = Some amount -> call_params debridge amount chain_id r = Some p ->
  exists id, b256_from_str (rec_submission_id r) = Some id /\ cp_chain_id p = chain_id /\
    gate_id_for domain (rec_chain_id_from r) (rec_chain_id_to r) p = Some id.
Proof.
  unfold agrees_with_gate. intros Ha Hd Hamt Hp. apply result_bind_Ok in Ha as (id & Hid%ok_or_Ok & Ha).
  exists id. split; [done|]. destruct (gate_submission_id r domain) as [c|] eqn:Hc; [|done].
  case_bool_decide as E; [subst c|by case_bool_decide].
  unfold call_params in Hp. apply bind_Some in Hp as (dec & Hdec & Hp). apply bind_Some in Hp as (rc & Hrc & Hp).
  apply bind_Some in Hp as (au & Hau & Hp). apply bind_Some in Hp as (ns & Hns & [= <-]). split; [done|].
  unfold gate_submission_id, canonical_submission_id in Hc.
  cbn [rec_bridge_domain rec_debridge_id rec_amount rec_bridge_decimals rec_receiver rec_auto_params rec_native_sender
    rec_chain_id_from rec_chain_id_to rec_nonce] in Hc.
  rewrite b256_printed, Hd, Hamt, Hdec in Hc. cbn [ok_or mbind result_bind] in Hc.
  rewrite (proj2 (bytes_of_hex_field _ _ _) Hrc), (proj2 (bytes_of_hex_field _ _ _) Hau),
    (proj2 (bytes_of_hex_field _ _ _) Hns) in Hc. cbn [mbind result_bind] in Hc.
  unfold gate_id_for. cbn [cp_auto_params cp_native_sender cp_debridge_id cp_bridge_decimals cp_amount cp_nonce cp_receiver].
  apply result_bind_Ok in Hc as (auto & Hauto%ok_or_Ok & [= <-]). rewrite Hauto. cbn. by destruct auto.
Qed.
End GateSide.

(** * A gate that stays the same *)

Section Steady.
Context {RT : Runtime} {HX : HexCodec} {AL : Alloy} {EC : Ecdsa} {KW : KeeperWorld}.
Context {HL : HexLaws} {ALL : AlloyLaws} {AP : AlloyParses} {AW : AlloyPrints} {EL : EcdsaLaws}.
Variable cfg : LoopConfig.
Variables (threshold validator_count : Z) (is_validator : evm_address -> bool).

(** What the nodes answer about it, when they answer. *)
Record gate_reads : Prop := {
  gr_threshold : forall t x, kw_threshold t = Ok x -> x = threshold;
  gr_count : forall t x, kw_validator_count t = Ok x -> x = validator_count;
  gr_member : forall t a b, kw_is_validator t a = Ok b -> b = is_validator a;
  gr_u64 : is_u 64 threshold /\ is_u 64 validator_count;
  gr_size : exists vs, len vs = validator_count /\ forall a, is_validator a = true -> a ∈ vs;
}.
Definition view_right (v : GateView) : Prop :=
  gv_threshold v = threshold /\ gv_validator_count v = validator_count /\
  forall a m, gv_members v !! a = Some m -> m = is_validator a.

(** The gate takes these signatures for the id it computes from these parameters. *)
Definition gate_accepts (kind : SigKind) (chain_id_from chain_id_to : Z) (p : CallParams) (signatures : list (list byte)) : Prop :=
  exists id, gate_id_for (lc_bridge_domain cfg) chain_id_from chain_id_to p = Some id /\
    gate_verify_signatures threshold validator_count is_validator (digest kind id) signatures = Ok tt.
Definition call_accepted (c : Call) : Prop :=
  match c with
  | CallClaim p signatures => gate_accepts Transfer (cp_chain_id p) (lc_chain_id cfg) p signatures
  | CallCancel p signatures => gate_accepts Cancel (cp_chain_id p) (lc_chain_id cfg) p signatures
  | CallRefund _ p signatures | CallRefundAndForward p signatures =>
      gate_accepts Refund (lc_chain_id cfg) (cp_chain_id p) p signatures
  | CallForwardRefund _ | CallFinalize _ | CallNothing => True
  end.

Record calls_ok (s : Loop) : Prop := {
  co_view : view_right (lp_view s);
  co_log : Forall (fun b => bc_cause b <> HeadTransfer -> call_accepted (tr_input (bc_tx b))) (lp_broadcasts s);
  co_pending : forall k f, lp_pending s !! k = Some f -> call_accepted (tr_input (fl_tx f));
}.
Definition sent_ok (hash : hash32) (tx : TransactionRequest) (s : Loop) : Prop :=
  calls_ok s /\ call_accepted (tr_input tx).
Definition quorum_ok (kind : SigKind) (id : text) (l : list SignerSig) : Prop :=
  forall h, b256_from_str id = Some h -> exists k, l = map snd k /\ ballot (digest kind h) is_validator k /\
    threshold <= len k <= validator_count.

Hypothesis GR : gate_reads.

(** ** The view *)

Lemma refresh_ok s : calls_ok s -> wp refresh_if_stale (fun _ s' => calls_ok s') s.
Proof using GR.
  intros Hs. unfold refresh_if_stale. apply wp_bind, wp_get. apply wp_bind, wp_ask. intros t.
  destruct (_ <? GATE_REFRESH_INTERVAL); [by apply wp_ret|]. apply wp_bind, wp_attempt.
  eapply (wp_mono _ (fun r s' => s' = s /\ match r with Ok v => view_right v | Err _ => True end)).
  { unfold view_load. apply wp_bind, wp_rpc; [|done]. intros t1 x Hx. apply wp_bind, wp_rpc; [|done]. intros t2 y Hy.
    apply wp_bind, wp_ask. intros t3. apply wp_ret. split; [done|].
    rewrite (gr_threshold GR _ _ Hx), (gr_count GR _ _ Hy). destruct (gr_u64 GR) as [H1 H2].
    unfold is_u in *. unfold view_right, u_max. cbn. split_and!; [lia|lia|]. intros a m. by rewrite lookup_empty. }
  intros [v|e] s' [-> Hv].
  - apply wp_modify. destruct Hs. by constructor.
  - apply wp_bind, wp_ask. intros t'. apply wp_modify. destruct Hs as [(H1 & H2 & H3) ? ?]. by constructor.
Qed.

Lemma memoize_ok a m s : m = is_validator a -> calls_ok s -> wp (memoize a m) (fun r s' => calls_ok s' /\ r = Ok tt) s.
Proof using Type.
  clear GR. intros -> [(H1 & H2 & H3) ? ?]. unfold memoize. apply wp_modify. split; [|done]. constructor; [|done..].
  unfold view_right. cbn [lp_view upd_view gv_threshold gv_validator_count gv_members]. split_and!; [done..|]. intros b m. rewrite lookup_insert_Some. intros [[<- <-]|[_ H]]; [done|by apply H3].
Qed.
(** Members as the gate has them, in the order of the rows. *)
Definition resolved_ok (rows : list (evm_address * SignerSig)) (l : list (evm_address * Membership * SignerSig)) : Prop :=
  map entry_of l `sublist_of` rows /\ Forall (fun r => is_member r.1.2 = is_validator r.1.1) l.
Lemma resolve_ok rows s : calls_ok s -> wp (resolve_members rows)
  (fun r s' => calls_ok s' /\ exists l, r = Ok l /\ resolved_ok rows l) s.
Proof using GR.
  revert s. induction rows as [|[a sig] rows IH]; intros s Hs; cbn [resolve_members].
  { apply wp_ret. split; [done|]. exists []. split; [done|]. by split. }
  assert (Hnext : forall m s', calls_ok s' -> is_member m = is_validator a ->
    wp (rest ← resolve_members rows; mret ((a, m, sig) :: rest))
      (fun r s' => calls_ok s' /\ exists l, r = Ok l /\ resolved_ok ((a, sig) :: rows) l) s').
  { intros m s' Hs' Hm. apply wp_bind. eapply wp_mono; [by apply IH|]. intros r s2 (Hs2 & l & -> & Hl & Hf).
    apply wp_ret. split; [done|]. exists ((a, m, sig) :: l). split; [done|]. split; [by apply sublist_skip|by constructor]. }
  apply wp_bind, wp_get. destruct (gv_members (lp_view s) !! a) as [m|] eqn:Em.
  { apply Hnext; [done|]. destruct Hs as [(_ & _ & H) _ _]. by apply H. }
  apply wp_bind, wp_ask. intros t. destruct (kw_is_validator t a) as [m|] eqn:Ev.
  - pose proof (gr_member GR _ _ _ Ev) as Hm. apply wp_bind. eapply wp_mono; [by apply memoize_ok|].
    intros r s' [Hs' ->]. by apply Hnext.
  - eapply wp_mono; [by apply IH|]. intros r s' (Hs' & l & -> & Hl & Hf). split; [done|]. exists l. split; [done|].
    split; [by apply sublist_cons|done].
Qed.
Lemma resolved_fit rows l : NoDup (map fst rows) -> resolved_ok rows l ->
  NoDup (map addr_of l) /\ len (List.filter (fun r => is_member r.1.2) l) <= validator_count.
Proof using GR.
  intros Hd [Hl Hm]. assert (Hd' : NoDup (map addr_of l)).
  { replace (map addr_of l) with (map fst (map entry_of l)) by (by rewrite map_map).
    exact (sublist_NoDup _ _ Hd (fmap_sublist fst _ _ Hl)). }
  split; [done|]. destruct (gr_size GR) as (vs & <- & Hvs). unfold len. apply inj_le.
  rewrite <- (length_map addr_of). apply submseteq_length, NoDup_submseteq.
  - revert Hd'. clear. induction l as [|r l IH]; cbn; [done|]. intros [Hr Hd]%NoDup_cons.
    destruct (is_member r.1.2); cbn; [|auto]. constructor; [|auto]. intros Hx%list_elem_of_In. apply Hr.
    apply in_map_iff in Hx as (y & E & Hy%filter_In). apply list_elem_of_In, in_map_iff. exists y. tauto.
  - intros a Ha%list_elem_of_In. apply in_map_iff in Ha as (r & <- & [Hr Hb]%filter_In). apply Hvs.
    rewrite Forall_forall in Hm. unfold addr_of. rewrite <- (Hm r); [done|by apply list_elem_of_In].
Qed.

Lemma members_ok id kind sigs s : calls_ok s -> wp (member_signatures id kind sigs) (fun r s' => calls_ok s' /\
  match r with Ok l => gv_threshold (lp_view s') <= len l -> quorum_ok kind id l | Err _ => True end) s.
Proof using GR HL ALL AW EL.
  intros Hs. unfold member_signatures. destruct (b256_from_str id) as [h|] eqn:Hh.
  2: { apply wp_ret. split; [done|]. intros _ h Hh'. congruence. }
  destruct (authenticate_loop_spec h kind ∅ sigs) as (Hd & _ & Hauth & _). cbv zeta in *.
  unfold authenticate_signatures. set (rows := authenticate_loop h kind ∅ sigs) in *.
  apply wp_bind. eapply wp_mono; [by apply resolve_ok|]. intros r s1 (Hs1 & l & -> & Hl).
  destruct (resolved_fit _ _ Hd Hl) as [Hdl Hfit]. destruct Hs1 as [(Ht & Hc & Hm) Hlog Hp] eqn:E1; clear E1.
  assert (Hs1' : calls_ok s1) by done. apply wp_bind, wp_get. apply wp_bind. rewrite Hc.
  rewrite (proj2 (Z.ltb_ge _ _) Hfit). apply wp_ret. apply wp_bind, wp_get. apply wp_ret. split; [done|].
  rewrite Hc, Ht. intros Hge h' [= <-]%(eq_trans (eq_sym Hh)).
  destruct (filter_members_spec l validator_count Hdl) as (k & Ek & Hasc & Hin & Hlen & _).
  { destruct (gr_u64 GR) as [_ []]. done. }
  rewrite Z.min_r in Hlen by done. rewrite Ek in Hge |- *. exists (map entry_of k).
  assert (El : len (map snd k) = len k) by (unfold len; by rewrite length_map).
  assert (El' : len (map entry_of k) = len k) by (unfold len; by rewrite length_map).
  split; [by rewrite map_map|]. split; [|lia]. destruct Hl as [Hsub Hmem]. constructor.
  - by apply (ascending_map entry_of fst).
  - apply Forall_forall. intros e He%list_elem_of_In. apply in_map_iff in He as (x & <- & Hx%list_elem_of_In).
    destruct (Hin x Hx) as [Hxl _]. rewrite Forall_forall in Hauth. apply Hauth.
    eapply elem_of_sublist; [|exact Hsub]. by apply list_elem_of_In, in_map, list_elem_of_In.
  - apply Forall_forall. intros e He%list_elem_of_In. apply in_map_iff in He as (x & <- & Hx%list_elem_of_In).
    destruct (Hin x Hx) as [Hxl Hb]. rewrite Forall_forall in Hmem. cbn. by rewrite <- (Hmem x Hxl).
Qed.

(** ** The calls *)

Lemma head_calls_ok s : calls_ok s -> wp (unwedge_head cfg) (fun _ s' => calls_ok s') s.
Proof using Type.
  clear GR. intros [Hv Hl Hp]. apply wp_unwedge_head.
  - intros t ss _. by constructor.
  - intros nonce tx res ss _. constructor; [done| |done]. cbn. apply Forall_app. split; [done|]. by apply Forall_singleton.
Qed.
Lemma replace_calls_ok key f s : lp_pending s !! key = Some f -> calls_ok s ->
  wp (maybe_replace f) (fun r s' => match r with Ok f' => calls_ok (upd_pending (<[key := f']>) s') | Err _ => calls_ok s' end) s.
Proof using Type.
  clear GR. intros Hf [Hv Hl Hp]. pose proof (Hp _ _ Hf) as Hc. apply wp_maybe_replace.
  - intros f' (E & _). constructor; [done|done|]. cbn [lp_pending upd_pending]. intros k g.
    rewrite lookup_insert_Some. intros [[_ <-]|[_ H]]; [by rewrite E|by eapply Hp].
  - intros est gp tx res now _ _ E%reprice_same_call. destruct E as (_ & _ & _ & E & _).
    constructor; [done| |].
    + cbn. apply Forall_app. split; [done|]. apply Forall_singleton. cbn. by rewrite <- E.
    + cbn [lp_pending upd_pending add_broadcast]. intros k g. rewrite lookup_insert_Some.
      intros [[_ <-]|[_ H]]; [|by eapply Hp]. unfold after_bump. destruct res; cbn; [by rewrite <- E|done].
Qed.
Lemma accepted_call kind r p l raws from to : from = rec_chain_id_from r -> to = rec_chain_id_to r ->
  described cfg r (cp_chain_id p) p -> quorum_ok kind (rec_submission_id r) l -> sorted_signatures l = Some raws ->
  gate_accepts kind from to p raws.
Proof using ALL AW EL HL AP.
  clear GR. intros -> -> (Ha & d & amt & Hd & Hamt & Hp) Hq Hr.
  destruct (agreed_id _ _ _ _ _ _ Ha Hd Hamt Hp) as (id & Hid & _ & Hg). exists id. split; [done|].
  destruct (Hq id Hid) as (k & -> & Hb & Hk). destruct (ballot_accepted _ _ _ _ _ Hb Hk) as (raws' & E & Hv).
  rewrite Hr in E. by injection E as ->.
Qed.
Lemma described_chain r c p : described cfg r c p -> cp_chain_id p = c.
Proof using AP HL.
  clear GR. intros (Ha & d & amt & Hd & Hamt & Hp). by destruct (agreed_id _ _ _ _ _ _ Ha Hd Hamt Hp) as (id & _ & E & _).
Qed.

Lemma calls_closed : closed cfg calls_ok sent_ok call_accepted quorum_ok.
Proof using GR HL ALL AP AW EL.
  assert (Hlog : forall s cause tx res, calls_ok s -> call_accepted (tr_input tx) ->
    calls_ok (add_broadcast (MkBroadcast cause tx res) s)).
  { intros s cause tx res [Hv Hl Hp] Hc. constructor; [done| |done]. cbn. apply Forall_app. split; [done|].
    by apply Forall_singleton. }
  constructor.
  - intros t s []. by constructor.
  - intros hash tx n s [[] Hc]. by split.
  - intros to call tx e s Hg (_ & _ & _ & <- & _) Hs. by apply Hlog.
  - intros to call tx hash s Hg (_ & _ & _ & <- & _) Hs. split; [by apply Hlog|done].
  - by intros hash tx s [].
  - intros hash tx s key at_ [[Hv Hl Hp] Hc]. constructor; [done..|]. cbn [lp_pending upd_pending]. intros k f.
    rewrite lookup_insert_Some. intros [[_ <-]|[_ H]]; [done|by eapply Hp].
  - intros g s Hsub [Hv Hl Hp]. constructor; [done..|]. intros k f H. eapply Hp, lookup_weaken; done.
  - intros. by apply replace_calls_ok.
  - apply refresh_ok.
  - apply members_ok.
  - intros f s []. by constructor.
  - intros f s []. by constructor.
  - intros f s []. by constructor.
  - intros r text s _ []. by constructor.
  - apply head_calls_ok.
  - intros r p l raws Hd Hc _ Hq Hr. pose proof (described_chain _ _ _ Hd) as E. cbn. rewrite E, <- Hc.
    eapply accepted_call; [done|done|by rewrite E|done|done].
  - intros r p l raws Hd Hc Hq Hr. pose proof (described_chain _ _ _ Hd) as E. cbn. rewrite E, <- Hc.
    eapply accepted_call; [done|done|by rewrite E|done|done].
  - intros r p l raws token Hd Hc Hq Hr. pose proof (described_chain _ _ _ Hd) as E. cbn. rewrite E, <- Hc.
    split; (eapply accepted_call; [done|done|by rewrite E|done|done]).
  - done.
  - done.
Qed.

(** C9. However the store fills its rows, every claim, cancel and refund the keeper puts on
    chain, replacements included, carries signatures that [_verifySignatures] accepts over
    the digest of the very id the gate recomputes from the call: in ascending order of
    distinct validators, no more than there are, no fewer than the threshold. A gate whose
    nodes answer truly, when they answer, never refuses the keeper for its signatures. *)
Theorem keeper_calls_accepted tick n s s' t r t' :
  gv_threshold (lp_view s) = threshold -> gv_validator_count (lp_view s) = validator_count ->
  gv_members (lp_view s) = ∅ -> lp_pending s = ∅ -> lp_broadcasts s = [] ->
  keeper_loop cfg tick -> ticks tick n s t = (r, s', t') ->
  forall b, b ∈ lp_broadcasts s' -> bc_cause b <> HeadTransfer -> call_accepted (tr_input (bc_tx b)).
Proof using GR HL ALL AP AW EL.
  intros Ht Hc Hm Hp Hb Hl Hrun b. assert (Hs : calls_ok s).
  { constructor; [|by rewrite Hb|rewrite Hp; intros k f; by rewrite lookup_empty].
    split_and!; [done..|]. intros a m. by rewrite Hm, lookup_empty. }
  pose proof (wp_run _ _ _ _ _ _ _ (ticks_invariant _ _ _ _ _ calls_closed tick n s Hl Hs) Hrun) as [_ H _].
  intros Hin. rewrite Forall_forall in H. by apply H.
Qed.
End Steady.

(** * What it costs *)

(** Replacements still allowed for what is remembered. *)
Definition slack (p : PendingTxs) : Z := map_fold (fun _ f n => MAX_FEE_BUMPS - fl_bumps f + n) 0 p.
Lemma slack_insert k f p : p !! k = None -> slack (<[k := f]> p) = MAX_FEE_BUMPS - fl_bumps f + slack p.
Proof. intros H. unfold slack. rewrite map_fold_insert_L; [done|intros; lia|done]. Qed.
Lemma slack_delete k f p : p !! k = Some f -> slack p = MAX_FEE_BUMPS - fl_bumps f + slack (delete k p).
Proof. intros H. rewrite <- (slack_insert k f (delete k p)) by apply lookup_delete_eq. by rewrite insert_delete_id. Qed.
Definition bumps_bounded (p : PendingTxs) : Prop := forall k f, p !! k = Some f -> fl_bumps f <= MAX_FEE_BUMPS.
Lemma slack_subseteq p q : bumps_bounded q -> p ⊆ q -> slack p <= slack q.
Proof.
  revert q. induction p as [|k f p Hk IH] using map_ind; intros q Hq Hs.
  - change (slack ∅) with 0. clear Hs. induction q as [|k f q Hk IH] using map_ind; [done|]. rewrite slack_insert by done.
    specialize (IH ltac:(intros j g Hj; apply (Hq j); rewrite lookup_insert_ne; congruence)).
    pose proof (Hq k f ltac:(by rewrite lookup_insert_eq)). lia.
  - rewrite slack_insert by done. assert (Hkq : q !! k = Some f).
    { eapply lookup_weaken; [|exact Hs]. apply lookup_insert_eq. }
    rewrite (slack_delete k f q Hkq). assert (slack p <= slack (delete k q)); [|lia]. apply IH.
    + intros j g Hj. apply (Hq j). by apply lookup_delete_Some in Hj as [_ ?].
    + apply map_subseteq_spec. intros j g Hj. assert (k <> j) by congruence. rewrite lookup_delete_ne by done.
      eapply lookup_weaken; [|exact Hs]. by rewrite lookup_insert_ne.
Qed.
Lemma slack_replace k f f' p : p !! k = Some f ->
  slack (<[k := f']> p) = slack p + fl_bumps f - fl_bumps f'.
Proof.
  intros H. rewrite (slack_delete k f p H). rewrite <- insert_delete_eq.
  rewrite slack_insert by apply lookup_delete_eq. lia.
Qed.
Lemma slack_track k f p : bumps_bounded p -> fl_bumps f = 0 -> slack (<[k := f]> p) <= slack p + MAX_FEE_BUMPS.
Proof.
  intros Hp Hf. destruct (p !! k) as [f0|] eqn:E.
  - rewrite (slack_replace k f0) by done. pose proof (Hp _ _ E). lia.
  - rewrite slack_insert by done. lia.
Qed.

Section Money.
Context {RT : Runtime} {HX : HexCodec} {AL : Alloy} {KW : KeeperWorld}.
Variable cfg : LoopConfig.

Definition is_first (b : Broadcast) : bool := match bc_cause b with FirstSend => true | _ => false end.
Definition is_bump (b : Broadcast) : bool := match bc_cause b with FeeBump => true | _ => false end.
Definition firsts (l : list Broadcast) : Z := len (List.filter is_first l).
Definition fee_bumps (l : list Broadcast) : Z := len (List.filter is_bump l).

(** In the pool, as far as the node said: it was taken under a hash. *)
Definition taken (b : Broadcast) : Prop := exists hash, bc_result b = Ok hash.
Definition first_of (l : list Broadcast) (b0 : Broadcast) : Prop := b0 ∈ l /\ bc_cause b0 = FirstSend /\ taken b0.
(** A replacement of a transaction in the log: the same call at the same nonce, a tenth
    above what was last taken for that nonce, never above four times the first price. *)
Definition bump_ok (l : list Broadcast) (tx : TransactionRequest) : Prop :=
  exists b0 prev, first_of l b0 /\ same_call (bc_tx b0) tx /\
    fee_cap (bc_tx b0) < fee_cap tx <= MAX_FEE_MULTIPLE * fee_cap (bc_tx b0) /\
    prev ∈ l /\ taken prev /\ same_call (bc_tx prev) tx /\ outbids (bc_tx prev) tx.
(** What the code expects of a remembered transaction: a hash to poll, an account, a nonce,
    and numbers that fit. *)
Record flight_wf (f : InFlight) : Prop := {
  fw_hashes : fl_hashes f <> [];
  fw_from : tr_from (fl_tx f) = Some (lc_from cfg);
  fw_nonce : is_Some (tr_nonce (fl_tx f));
  fw_fees : fees_wf (fl_tx f);
  fw_bumps : 0 <= fl_bumps f <= MAX_FEE_BUMPS;
  fw_ceiling : is_u 128 (fl_ceiling f);
  fw_cap : fee_cap (fl_tx f) <= fl_ceiling f;
}.
Definition flight_ok (l : list Broadcast) (f : InFlight) : Prop :=
  flight_wf f /\
  exists b0 prev, first_of l b0 /\ same_call (bc_tx b0) (fl_tx f) /\
    fl_ceiling f = MAX_FEE_MULTIPLE * fee_cap (bc_tx b0) /\ fl_ceiling f < u_max 128 /\
    fee_cap (bc_tx b0) <= fee_cap (fl_tx f) /\ prev ∈ l /\ taken prev /\ bc_tx prev = fl_tx f.

(** [spare] replacements belong to a transaction that is not remembered yet. *)
Record money_ok (spare : Z) (s : Loop) : Prop := {
  mo_bumps : Forall (fun b => bc_cause b = FeeBump -> bump_ok (lp_broadcasts s) (bc_tx b)) (lp_broadcasts s);
  mo_pending : forall k f, lp_pending s !! k = Some f -> flight_ok (lp_broadcasts s) f;
  mo_count : fee_bumps (lp_broadcasts s) + slack (lp_pending s) + spare <= MAX_FEE_BUMPS * firsts (lp_broadcasts s);
  mo_marks : Forall (fun m => exists r, rec_submission_id r = m.1 /\ claim_confirmed cfg (fun _ => True) r m.2 s) (lp_marks s);
}.
Definition fresh_ok (hash : hash32) (tx : TransactionRequest) (s : Loop) : Prop :=
  money_ok MAX_FEE_BUMPS s /\ fees_wf tx /\ fee_cap tx < 2 ^ 126 /\ tr_from tx = Some (lc_from cfg) /\ is_Some (tr_nonce tx) /\
  exists b, first_of (lp_broadcasts s) b /\ bc_tx b = tx.

(** Prices the market can quote. *)
Hypothesis fees_sane : forall t e, kw_fees t = Ok e -> estimation_ok e.
Hypothesis prices_sane : forall t p, kw_gas_price t = Ok p -> price_ok p.

Lemma populated_fees to call tx : populated cfg to call tx -> fees_wf tx /\ fee_cap tx < 2 ^ 126.
Proof using fees_sane prices_sane.
  intros (_ & _ & _ & _ & _ & [(t & e & He & H1 & H2 & H3)|(t & p & Hp & H1 & H2 & H3)]).
  - destruct (fees_sane _ _ He) as [Ht Hm]. unfold fees_wf, fee_cap. rewrite H1, H2, H3. lia.
  - destruct (prices_sane _ _ Hp) as [Ht Hm]. unfold fees_wf, fee_cap. rewrite H1, H2, H3. cbn. lia.
Qed.

Lemma fee_cap_nonneg tx : fees_wf tx -> 0 <= fee_cap tx.
Proof using Type.
  clear. unfold fees_wf, fee_cap. destruct (tr_max_fee_per_gas tx), (tr_max_priority_fee_per_gas tx), (tr_gas_price tx); try done; cbn; lia.
Qed.
Lemma bump_ok_mono l l' tx : l ⊆ l' -> bump_ok l tx -> bump_ok l' tx.
Proof using Type.
  clear. intros Hl (b0 & prev & (H1 & H2) & H3 & H4 & H5 & H6). exists b0, prev. split_and!; try tauto; [|by apply Hl].
  split; [by apply Hl|done].
Qed.
Lemma flight_ok_mono l l' f : l ⊆ l' -> flight_ok l f -> flight_ok l' f.
Proof using Type.
  clear. intros Hl (Hw & b0 & prev & (H1 & H2) & H3 & H4 & H5 & H6 & H7 & H8).
  split; [done|]. exists b0, prev. split_and!; try tauto; [|by apply Hl]. split; [by apply Hl|done].
Qed.
Lemma claim_confirmed_mono r text s s' : lp_broadcasts s ⊆ lp_broadcasts s' ->
  claim_confirmed cfg (fun _ => True) r text s -> claim_confirmed cfg (fun _ => True) r text s'.
Proof using Type.
  clear. intros Hl (p & raws & _ & (b & h & Hb & H) & Hr). exists p, raws. split_and!; try tauto. exists b, h.
  split; [by apply Hl|done].
Qed.
Lemma bounded spare s : money_ok spare s -> bumps_bounded (lp_pending s).
Proof using Type. clear. intros H k f Hf. destruct (mo_pending _ _ H _ _ Hf) as ([] & _). lia. Qed.

(** Appending to the log. *)
Lemma money_broadcast spare spare' cause tx res s : money_ok spare s ->
  (cause = FeeBump -> bump_ok (lp_broadcasts s) tx) ->
  spare' + (match cause with FeeBump => 1 | _ => 0 end) <= spare + (match cause with FirstSend => MAX_FEE_BUMPS | _ => 0 end) ->
  money_ok spare' (add_broadcast (MkBroadcast cause tx res) s).
Proof using Type.
  clear. intros H Hb Hc. set (b := MkBroadcast cause tx res). assert (Hl : lp_broadcasts s ⊆ lp_broadcasts s ++ [b]) by set_solver.
  destruct H as [H1 H2 H3 H4]. constructor.
  - cbn. apply Forall_app. split; [|apply Forall_singleton; cbn; intros E; by eapply bump_ok_mono, Hb].
    eapply Forall_impl; [exact H1|]. cbn. intros x Hx E. by eapply bump_ok_mono, Hx.
  - intros k f Hf. cbn. by eapply flight_ok_mono, H2.
  - cbn [lp_broadcasts lp_pending add_broadcast]. unfold fee_bumps, firsts in *. rewrite !List.filter_app, !len_app.
    unfold b. destruct cause; cbn [List.filter is_first is_bump bc_cause]; unfold MAX_FEE_BUMPS, len in *; cbn [length]; lia.
  - cbn. eapply Forall_impl; [exact H4|]. cbn. intros m (r & E & Hm). exists r. split; [done|].
    eapply claim_confirmed_mono; [|exact Hm]. done.
Qed.
(** Changing what is remembered. *)
Lemma money_pending spare spare' g s : money_ok spare s ->
  (forall k f, g (lp_pending s) !! k = Some f -> flight_ok (lp_broadcasts s) f) ->
  slack (g (lp_pending s)) + spare' <= slack (lp_pending s) + spare -> money_ok spare' (upd_pending g s).
Proof using Type.
  clear. intros [H1 H2 H3 H4] Hg Hs. constructor; [done|done| |].
  - cbn. lia.
  - eapply Forall_impl; [exact H4|]. cbn. intros m (r & E & Hm). exists r. split; [done|].
    eapply claim_confirmed_mono; [|exact Hm]. done.
Qed.

Lemma money_same spare s s' : money_ok spare s -> lp_broadcasts s' = lp_broadcasts s -> lp_pending s' = lp_pending s ->
  lp_marks s' = lp_marks s -> money_ok spare s'.
Proof using Type.
  clear. intros [H1 H2 H3 H4] E1 E2 E3. constructor; rewrite ?E1, ?E2, ?E3; [done..|].
  eapply Forall_impl; [exact H4|]. cbn. intros m (r & E & Hm). exists r. split; [done|].
  eapply claim_confirmed_mono; [|exact Hm]. by rewrite E1.
Qed.
Lemma money_weaken spare s : 0 <= spare -> money_ok spare s -> money_ok 0 s.
Proof using Type. clear. intros Hs [H1 H2 H3 H4]. constructor; [done..|lia|done]. Qed.
Lemma head_money s : money_ok 0 s -> wp (unwedge_head cfg) (fun _ s' => money_ok 0 s') s.
Proof using Type.
  clear. intros Hs. apply wp_unwedge_head.
  - intros t ss _. by eapply money_same.
  - intros nonce tx res ss _. eapply money_same; [apply (money_broadcast 0 0 HeadTransfer tx res s Hs); [done|lia]|done..].
Qed.

Lemma bump_of_flight l f estimate gas_price tx : flight_ok l f ->
  reprice (fl_tx f) estimate gas_price (fl_ceiling f) = Some tx -> bump_ok l tx /\ fees_wf tx /\ same_call (fl_tx f) tx /\
  fee_cap (fl_tx f) < fee_cap tx.
Proof using Type.
  clear. intros ([_ _ _ Hw _ _ _] & b0 & prev & H1 & H2 & H3 & H4 & H5 & H6 & H7 & H8) E.
  apply reprice_Some in E as (Hw' & Hs & Ho & Hc); [|done|done]. split_and!; [|done|done|lia].
  exists b0, prev. rewrite H8. split_and!; try done; [by etrans|lia|lia].
Qed.
Lemma replace_money key f s : lp_pending s !! key = Some f -> money_ok 0 s ->
  wp (maybe_replace f) (fun r s' => match r with Ok f' => money_ok 0 (upd_pending (<[key := f']>) s') | Err _ => money_ok 0 s' end) s.
Proof using Type.
  clear. intros Hf Hs. pose proof (mo_pending _ _ Hs _ _ Hf) as Hfl. apply wp_maybe_replace.
  - intros f' (E1 & E2 & E3 & E4). eapply (money_pending 0 0 (<[key := f']>)); [done| |].
    + intros k g. rewrite lookup_insert_Some. intros [[_ <-]|[_ H]]; [|by apply (mo_pending _ _ Hs _ _ H)].
      destruct Hfl as ([] & H). unfold flight_ok. rewrite E1, E3. split; [|done].
      constructor; rewrite ?E1, ?E2, ?E3; try done. unfold MAX_FEE_BUMPS in *. lia.
    + rewrite (slack_replace key f) by done. destruct Hfl as ([] & _). unfold MAX_FEE_BUMPS in *. lia.
  - intros est gp tx res now Hlt _ E. destruct (bump_of_flight _ _ _ _ _ Hfl E) as (Hbump & Hw' & Hsc & Hcap).
    set (b := MkBroadcast FeeBump tx res).
    assert (Hs' : money_ok (-1) (add_broadcast b s)) by (apply (money_broadcast 0); [done|done|lia]).
    eapply (money_pending (-1) 0); [exact Hs'| |].
    + intros k g. cbn [lp_pending add_broadcast lp_broadcasts]. rewrite lookup_insert_Some. intros [[_ <-]|[_ H]].
      2: { eapply flight_ok_mono; [|by apply (mo_pending _ _ Hs _ _ H)]. set_solver. }
      destruct Hfl as ([Hh Hfr Hn Hw Hb Hcl Hcp] & b0 & prev & (H1 & H1') & H2 & H3 & H4 & H5 & H6 & H7 & H8).
      assert (Hc4 : fee_cap tx <= fl_ceiling f) by (apply reprice_Some in E as (_ & _ & _ & ?); [lia|done|done]).
      pose proof Hsc as (Ef & _ & _ & _ & En & _). unfold flight_ok, after_bump.
      destruct res as [hash|e]; cbn [fl_tx fl_bumps fl_ceiling]; (split; [constructor; cbn; rewrite <- ?Ef, <- ?En; try done; try lia|]).
      1: by intros [_ [=]]%app_nil.
      * exists b0, b. split_and!; [split; [set_solver|done]|by etrans|done|done|lia|set_solver|by exists hash|done].
      * exists b0, prev. split_and!; [split; [set_solver|done]|done|done|done|done|set_solver|done|done].
    + cbn [lp_pending add_broadcast]. rewrite (slack_replace key f) by done. unfold after_bump. destruct res; cbn; lia.
Qed.

Lemma money_closed : closed cfg (money_ok 0) fresh_ok (fun _ => True) (fun _ _ _ => True).
Proof using fees_sane prices_sane.
  constructor; try done.
  - intros t s Hs. by eapply money_same.
  - intros hash tx n s (Hs & Hf). split; [by eapply money_same|exact Hf].
  - intros to call tx e s _ _ Hs. apply (money_broadcast 0 0); [done|done|unfold MAX_FEE_BUMPS; lia].
  - intros to call tx hash s _ Htx Hs. destruct (populated_fees _ _ _ Htx) as [Hw Hc].
    destruct Htx as (Hfr & _ & _ & _ & Hn & _). split; [|split_and!; try done].
    + apply (money_broadcast 0); [done|done|lia].
    + exists (MkBroadcast FirstSend tx (Ok hash)). cbn. unfold first_of. split; [|done]. split; [set_solver|].
      split; [done|by exists hash].
  - intros hash tx s (Hs & _). by apply (money_weaken MAX_FEE_BUMPS).
  - intros hash tx s key at_ (Hs & Hw & Hc & Hfr & Hn & b & Hb & Eb). eapply (money_pending MAX_FEE_BUMPS 0); [done| |].
    + intros k f. rewrite lookup_insert_Some. intros [[_ <-]|[_ H]]; [|by apply (mo_pending _ _ Hs _ _ H)].
      assert (Hpos : 0 <= fee_cap tx) by (apply fee_cap_nonneg, Hw).
      unfold flight_ok, InFlight_new, saturating_mul, MAX_FEE_MULTIPLE, MAX_FEE_BUMPS, u_max. cbn [fl_tx fl_bumps fl_ceiling].
      split; [constructor; cbn; unfold is_u, MAX_FEE_BUMPS; try done; lia|]. destruct Hb as (Hb1 & Hb2 & Hb3). exists b, b. rewrite Eb.
      split_and!; try done; lia.
    + pose proof (slack_track key (InFlight_new tx hash at_) _ (bounded _ _ Hs) eq_refl). lia.
  - intros g s Hsub Hs. eapply (money_pending 0 0); [done| |].
    + intros k f H. eapply (mo_pending _ _ Hs), lookup_weaken; done.
    + pose proof (slack_subseteq _ _ (bounded _ _ Hs) Hsub). lia.
  - intros. by apply replace_money.
  - intros s Hs. eapply wp_mono; [apply refresh_frame|]. intros r s' [[v ->] _]. by eapply money_same.
  - intros id kind sigs s Hs. eapply wp_mono; [apply members_frame|]. intros r s' [[v ->] [l ->]].
    split; [by eapply money_same|done].
  - intros f s Hs. by eapply money_same.
  - intros f s Hs. by eapply money_same.
  - intros f s Hs. by eapply money_same.
  - intros r text s Hr [H1 H2 H3 H4]. constructor; [done..|]. cbn. apply Forall_app.
    split; [|apply Forall_singleton; exists r; split; [done|by eapply claim_confirmed_mono, Hr]].
    eapply Forall_impl; [exact H4|]. cbn. intros m (r' & E & Hm). exists r'. split; [done|]. by eapply claim_confirmed_mono, Hm.
  - apply head_money.
Qed.
Lemma ticks_money tick n s s' t r t' : lp_pending s = ∅ -> lp_broadcasts s = [] -> lp_marks s = [] ->
  keeper_loop cfg tick -> ticks tick n s t = (r, s', t') -> money_ok 0 s'.
Proof using fees_sane prices_sane.
  intros Hp Hb Hm Hl Hrun. eapply (wp_run _ (fun _ s' => money_ok 0 s')); [|exact Hrun].
  apply (ticks_invariant _ _ _ _ _ money_closed); [done|]. constructor; rewrite ?Hb, ?Hp, ?Hm; try done.
Qed.

(** C38. What a keeper loop remembers is always fit for what its code expects of it: a hash to
    poll (so taking the last never panics), the keeper's own account and a nonce (so a
    replacement is never silently skipped), fees of one kind with the tip inside the
    maximum, at most five bumps, and a price within a ceiling that fits 128 bits. *)
Theorem in_flight_well_formed tick n s s' t r t' :
  lp_pending s = ∅ -> lp_broadcasts s = [] -> lp_marks s = [] -> keeper_loop cfg tick ->
  ticks tick n s t = (r, s', t') -> forall k f, lp_pending s' !! k = Some f -> flight_wf f.
Proof using fees_sane prices_sane.
  intros Hp Hb Hm Hl Hrun k f Hf. pose proof (ticks_money _ _ _ _ _ _ _ Hp Hb Hm Hl Hrun) as H.
  by apply (mo_pending _ _ H k f Hf).
Qed.

(** C23. A stuck transaction costs a bounded amount, whatever prices the node quotes and
    however often it refuses: over any run of a keeper loop there are at most five fee
    bumps for every transaction first sent; each repeats a call the keeper sent, at the
    same nonce and gas; raises every fee a tenth above what the pool last took for it; and
    never pays more than four times the price of the first. *)
Theorem fee_bumps_bounded tick n s s' t r t' :
  lp_pending s = ∅ -> lp_broadcasts s = [] -> lp_marks s = [] -> keeper_loop cfg tick ->
  ticks tick n s t = (r, s', t') ->
  fee_bumps (lp_broadcasts s') <= 5 * firsts (lp_broadcasts s') /\
  forall b, b ∈ lp_broadcasts s' -> bc_cause b = FeeBump -> bump_ok (lp_broadcasts s') (bc_tx b).
Proof using fees_sane prices_sane.
  intros Hp Hb Hm Hl Hrun. pose proof (ticks_money _ _ _ _ _ _ _ Hp Hb Hm Hl Hrun) as H. split.
  - pose proof (mo_count _ _ H) as Hc. pose proof (slack_subseteq ∅ _ (bounded _ _ H) (map_empty_subseteq _)) as Hs.
    change (slack ∅) with 0 in Hs. unfold MAX_FEE_BUMPS in Hc. lia.
  - intros b Hin. pose proof (mo_bumps _ _ H) as Hf. rewrite Forall_forall in Hf. by apply Hf.
Qed.

Context {HL : HexLaws} {AP : AlloyParses}.

(** C24. A claim is reported to the store as delivered only when it was: for every report of a
    keeper loop there is a claim it broadcast, of parameters from which this gate computes
    exactly the reported id, whose receipt came back with status 1 and gave the reported
    transaction; a reverted or unconfirmed claim is never reported. *)
Theorem claim_marked_after_receipt tick n s s' t r t' id text :
  lp_pending s = ∅ -> lp_broadcasts s = [] -> lp_marks s = [] -> keeper_loop cfg tick ->
  ticks tick n s t = (r, s', t') -> (id, text) ∈ lp_marks s' ->
  exists h p signatures b hash, b256_from_str id = Some h /\
    gate_id_for (lc_bridge_domain cfg) (cp_chain_id p) (lc_chain_id cfg) p = Some h /\
    b ∈ lp_broadcasts s' /\ bc_cause b = FirstSend /\ tr_input (bc_tx b) = CallClaim p signatures /\ bc_result b = Ok hash /\
    exists t h', kw_await t hash = AwaitReceipt h' true /\ text = hex0x (arr_bytes h').
Proof using fees_sane prices_sane HL AP.
  intros Hp Hb Hm Hl Hrun Hin. pose proof (ticks_money _ _ _ _ _ _ _ Hp Hb Hm Hl Hrun) as [_ _ _ H].
  rewrite Forall_forall in H. destruct (H _ Hin) as (rec & E & p & raws & _ & (b & hash & H1 & H2 & H3 & H4 & H5) & Ha & Hc & d & amt & Hd & Hamt & Hcp).
  cbn in E. subst id. destruct (agreed_id _ _ _ _ _ _ Ha Hd Hamt Hcp) as (h & Hh & Echain & Hg).
  exists h, p, raws, b, hash. rewrite Hc, <- Echain in Hg. by split_and!.
Qed.
End Money.
