(* ===== verification/KeeperProgress.v ===== *)
(** What the keeper does with a quorum: rubbish in the store cannot keep it from the gate,
    a transaction in flight is not sent a second time, and the watch on the head of the
    queue displaces only what nobody tracks. *)

From S2P Require Import Prelude.
From S2P Require Import Text.
From S2P Require Import SolanaRuntime.
From S2P Require Import Effects.
From S2P Require Import Allowlist.
From S2P Require Import GateTypes.
From S2P Require Import HostRecord.
From S2P Require Import SigStore.
From S2P Require Import KeeperTx.
From S2P Require Import KeeperSigs.
From S2P Require Import KeeperQueue.
From S2P Require Import Keeper.
From S2P Require Import KeeperLoop.
From S2P Require Import KeeperSafety.

(** A statement about where a run ends, from a weakest precondition. *)
Ltac by_run H :=
  lazymatch type of H with _ = (_, ?s', _) =>
    pattern s'; lazymatch goal with |- ?F _ => refine (wp_run _ (fun _ x => F x) _ _ _ _ _ _ H) end
  end; cbn beta.

Lemma wp_mapM_ok {S E A B} (R : A -> B -> Prop) (f : A -> eff S E B) l s :
  (forall x, x ∈ l -> wp (f x) (fun r s' => s' = s /\ exists y, r = Ok y /\ R x y) s) ->
  wp (mapM f l) (fun r s' => s' = s /\ exists ys, r = Ok ys /\ Forall2 R l ys) s.
Proof.
  induction l as [|x l IH]; intros Hf; cbn; [apply wp_ret; split; [done|]; exists []; by split|].
  apply wp_bind. eapply wp_mono; [apply Hf; set_solver|]. intros r s1 (-> & y & -> & Hy).
  apply wp_bind. eapply wp_mono; [apply IH; intros z Hz; apply Hf; set_solver|]. intros r s2 (-> & ys & -> & Hys).
  apply wp_ret. split; [done|]. exists (y :: ys). split; [done|by constructor].
Qed.

(** * The head of the queue *)

Section Head.
Context {KW : KeeperWorld}.
Variable cfg : LoopConfig.
Hypothesis fees_sane : forall t e, kw_fees t = Ok e -> estimation_ok e.
Hypothesis prices_sane : forall t p, kw_gas_price t = Ok p -> price_ok p.

Lemma head_rest_ok w w' : watch_ok (lc_from cfg) w -> head_rest w w' -> watch_ok (lc_from cfg) w'.
Proof using Type.
  intros H [->|[(l & p & tr & now & ->)|(l & p & tr & now & st & c & E & Hc & ->)]]; [done|by apply observe_ok|].
  pose proof (observe_ok _ _ l p tr now H) as Ho. rewrite E in Ho. destruct Ho as (Hb & Hz & Ht). unfold watch_ok, stall_ok; cbn.
  split; [unfold MAX_FEE_BUMPS; lia|]. split; [done|]. destruct (hs_last_tx st); [|done]. by destruct Hc as [| ->].
Qed.

(** The watch on the head of the account's queue never fights a loop and never drains the
    account: one check sends at most one transaction, a transfer of nothing to the keeper
    itself, at a nonce that no loop's remembered transactions use; the watch never counts
    more than five for one stalled nonce; and none pays more than the ceiling fixed at the
    first, four times what the market asked then. *)
Theorem head_transfer_safe s t r s' t' :
  (forall t, watch_ok (lc_from cfg) (ss_head (kw_other t (lp_send s)))) ->
  unwedge_head cfg s t = (r, s', t') ->
  watch_ok (lc_from cfg) (ss_head (lp_send s')) /\
  exists new, lp_broadcasts s' = lp_broadcasts s ++ new /\ (length new <= 1)%nat /\
    forall b, b ∈ new -> bc_cause b = HeadTransfer /\ exists nonce st c,
      self_transfer (lc_from cfg) nonce (bc_tx b) /\ nonce ∉ nonces_of (lp_pending s) /\
      (exists t, forall role set, role <> lc_role cfg -> ss_tracked (kw_other t (lp_send s)) !! role = Some set -> nonce ∉ set) /\
      ss_head (lp_send s') = Some st /\ hs_nonce st = nonce /\ 1 <= hs_bumps st <= 5 /\ hs_ceiling st = Some c /\
      fee_cap (bc_tx b) <= c /\
      (hs_bumps st = 1 -> (exists t e, kw_fees t = Ok e /\ c = 4 * est_max_fee e) \/
         exists t p, kw_gas_price t = Ok p /\ c = 4 * p).
Proof using fees_sane prices_sane.
  intros Hw Hrun. by_run Hrun. apply wp_unwedge_head.
  - intros t0 ss Hr. split; [by eapply head_rest_ok, Hr|]. exists []. cbn. split_and!; [by rewrite app_nil_r|lia|set_solver].
  - intros nonce tx res ss [Hu (t0 & st & pend & now & bump & est & gp & c' & H1 & H2 & H3 & H4 & H5 & H6 & H7 & [Hq1 Hq2] & H8 & H9)].
    specialize (Hw t0). rewrite H2 in Hw. destruct Hw as (Hb & Hz & Hl).
    apply head_replacement_Some in H8 as (Hwf & Hself & (c & -> & Hcu & Hcap) & Hprev).
    2: { intros e He. destruct (Hq1 e He) as [t1 Ht]. by eapply fees_sane. }
    2: { intros p Hp. destruct (Hq2 p Hp) as [t1 Ht]. by eapply prices_sane. }
    2: { destruct (hs_last_tx st); [|done]. by rewrite <- H3. }
    split.
    + cbn [lp_send upd_send add_broadcast]. rewrite H9. split; cbn; [unfold MAX_FEE_BUMPS in *; lia|].
      split; [lia|]. split_and!; [done|done|]. exists c. by split_and!.
    + exists [MkBroadcast HeadTransfer tx res]. cbn [lp_broadcasts upd_send add_broadcast]. split_and!; [done|done|].
      intros b ->%list_elem_of_singleton. split; [done|]. eexists nonce, _, c. cbn [bc_tx lp_send upd_send].
      split_and!; [done|done|by exists t0|exact H9|done|cbn; unfold MAX_FEE_BUMPS in *; lia..|done|done|].
      cbn [hs_bumps]. intros Hone. rewrite Hz in Hprev by lia. destruct Hprev as [(e & -> & [= ->])|(p & -> & [= ->])]; [left|right].
      * destruct (Hq1 e eq_refl) as [t1 Ht]. eauto.
      * destruct (Hq2 p eq_refl) as [t1 Ht]. eauto.
Qed.
End Head.

(** * In flight *)

Section InFlight.
Context {RT : Runtime} {HX : HexCodec} {AL : Alloy} {KW : KeeperWorld}.
Variable cfg : LoopConfig.

(** As far as the nodes tell, no transaction at this nonce was mined, and one of them is not
    reported missing: it is in the pool, or the nodes do not answer. *)
Definition unsettled (f : InFlight) : Prop :=
  (forall t h st, h ∈ fl_hashes f -> kw_receipt t h <> Ok (Some st)) /\
  exists h, h ∈ fl_hashes f /\ forall t, kw_known t h <> Ok false.
(** Nothing was sent but, perhaps, the same call at the same nonce with a higher fee. *)
Definition only_bumped (f : InFlight) (s s' : Loop) : Prop :=
  exists new, lp_broadcasts s' = lp_broadcasts s ++ new /\ (length new <= 1)%nat /\
    forall b, b ∈ new -> bc_cause b = FeeBump /\ same_call (fl_tx f) (bc_tx b).

Lemma only_bumped_same f s s' : lp_broadcasts s' = lp_broadcasts s -> only_bumped f s s'.
Proof using Type. intros E. exists []. rewrite app_nil_r. split_and!; [done|cbn; lia|set_solver]. Qed.
Lemma only_bumped_after f s s1 s2 : lp_broadcasts s1 = lp_broadcasts s -> only_bumped f s1 s2 -> only_bumped f s s2.
Proof using Type. unfold only_bumped. by intros ->. Qed.

Lemma probe_frame h s : wp (probe_tx h) (fun r s' => s' = s /\ exists p, r = Ok p /\
  ((forall t st, kw_receipt t h <> Ok (Some st)) -> forall b, p <> Mined b) /\
  ((forall t, kw_known t h <> Ok false) -> p <> Gone)) s.
Proof using Type.
  unfold probe_tx. apply wp_bind, wp_ask. intros t. destruct (kw_receipt t h) as [[st|]|] eqn:Er.
  - apply wp_ret. split; [done|]. eexists. split; [done|]. split; [|done]. intros H. by destruct (H t st).
  - apply wp_bind, wp_ask. intros t'. apply wp_ret. split; [done|]. eexists. split; [done|].
    destruct (kw_known t' h) as [[|]|] eqn:Ek; split; try done. intros H. by destruct (H t').
  - apply wp_ret. split; [done|]. eexists. by split.
Qed.
Lemma may_submit_waits id kind f s : lp_pending s !! pending_key id kind = Some f -> unsettled f ->
  wp (may_submit id kind) (fun r s' => r = Ok false /\ only_bumped f s s') s.
Proof using Type.
  intros Hf [Hmined (h0 & Hh0 & Hknown)]. unfold may_submit. apply wp_bind, wp_get. cbv zeta. rewrite Hf. apply wp_bind.
  eapply wp_mono.
  { apply (wp_mapM_ok (fun h p => ((forall t st, kw_receipt t h <> Ok (Some st)) -> forall b, p <> Mined b) /\
      ((forall t, kw_known t h <> Ok false) -> p <> Gone))). intros h _. apply probe_frame. }
  intros r s1 (-> & probes & -> & Hp). apply wp_bind.
  assert (Hw : resolve_pending (combine_probes probes) = PendingWait).
  { pose proof (combine_probes_spec probes) as Hc.
    assert (Hno : forall b, Mined b ∉ probes).
    { intros b Hin. apply list_elem_of_lookup_1 in Hin as [i Hi].
      destruct (Forall2_lookup_r _ _ _ _ _ Hp Hi) as (h & Hh & Hm & _). eapply Hm; [|done]. intros t st.
      apply Hmined. by eapply list_elem_of_lookup_2. }
    destruct (resolve_pending _); [by apply Hno in Hc|done|]. exfalso. destruct Hc as [Hc|Hc]; [by apply Hno in Hc|].
    apply list_elem_of_lookup_1 in Hh0 as [i Hi]. destruct (Forall2_lookup_l _ _ _ _ _ Hp Hi) as (p & Hpi & _ & Hg).
    apply Hg; [done|]. rewrite Forall_forall in Hc. apply Hc. by eapply list_elem_of_lookup_2. }
  unfold apply_probe. rewrite Hw. rewrite bool_decide_eq_true_2 by done. apply wp_bind, wp_ret, wp_ret. apply wp_bind.
  case_bool_decide; [|apply wp_ret, wp_ret; split; [done|by apply only_bumped_same]]. apply wp_bind, wp_maybe_replace.
  - intros f' _. apply wp_modify, wp_ret. split; [done|]. by apply only_bumped_same.
  - intros est gp tx res now _ _ E%reprice_same_call. apply wp_modify, wp_ret. split; [done|].
    eexists. split; [done|]. split; [done|]. by intros b ->%list_elem_of_singleton.
Qed.

(** The three places where a record becomes a transaction. *)
Inductive submits (rec : SubmissionRecord) : SigKind -> eff Loop KeeperError unit -> Prop :=
  | SubmitsClaim allowlist : submits rec Transfer (claim_record cfg allowlist rec)
  | SubmitsCancel sigs : submits rec Cancel (cancel_record cfg rec sigs)
  | SubmitsRefund : submits rec Refund (refund_record cfg rec).

(** A transaction whose receipt did not come is not sent a second time while it may still
    land: as long as no receipt exists at its nonce and some hash broadcast there is not
    reported missing, handling its record again, as a claim, a cancel or a refund, sends
    nothing but at most one replacement: the same call, from the same account, at the
    same nonce, so that only one of them can ever execute. An unreachable node counts as
    a transaction in flight. *)
Theorem in_flight_not_resent rec kind step f s t r s' t' :
  lp_pending s !! pending_key (rec_submission_id rec) kind = Some f -> unsettled f ->
  submits rec kind step -> step s t = (r, s', t') -> only_bumped f s s'.
Proof using Type.
  intros Hf Hu Hstep Hrun. by_run Hrun. clear r s' t' t Hrun.
  assert (Hgo : forall s1 (go : eff Loop KeeperError unit), lp_broadcasts s1 = lp_broadcasts s -> lp_pending s1 = lp_pending s ->
    wp (may ← may_submit (rec_submission_id rec) kind; if negb may then mret tt else go) (fun _ s' => only_bumped f s s') s1).
  { intros s1 go El Ep. apply wp_bind. eapply wp_mono; [apply may_submit_waits; [by rewrite Ep|done]|].
    intros r s2 [-> Hb]. apply wp_ret. by eapply only_bumped_after. }
  destruct Hstep as [allow|sigs|].
  - unfold claim_record. destruct (below_min_claim _ _); [by apply wp_modify, only_bumped_same|].
    apply wp_bind. eapply wp_mono; [apply members_frame|]. intros r s1 [[v ->] [l ->]]. apply wp_bind, wp_get.
    destruct (_ <? _); [by apply wp_ret, only_bumped_same|].
    destruct (match allow with Some _ => _ | None => _ end); [by apply wp_ret, only_bumped_same|]. by apply Hgo.
  - unfold cancel_record. destruct (agrees_with_gate _ _); [by apply Hgo|by apply wp_modify, only_bumped_same].
  - unfold refund_record. destruct (negb _); [by apply wp_ret, only_bumped_same|].
    apply wp_bind. eapply wp_mono; [apply members_frame|]. intros r s1 [[v ->] [l ->]]. apply wp_bind, wp_get.
    destruct (_ <? _); [by apply wp_ret, only_bumped_same|].
    destruct (agrees_with_gate _ _); [by apply Hgo|by apply wp_modify, only_bumped_same].
Qed.
End InFlight.

(** * A quorum gets through *)

Section Relay.
Context {RT : Runtime} {HX : HexCodec} {AL : Alloy} {EC : Ecdsa} {KW : KeeperWorld}.
Context {HL : HexLaws} {ALL : AlloyLaws} {AP : AlloyParses} {AW : AlloyPrints} {EL : EcdsaLaws}.
Variable cfg : LoopConfig.
Variables (threshold validator_count : Z) (is_validator : evm_address -> bool).
Hypothesis GR : gate_reads threshold validator_count is_validator.
Abbreviation calls_ok := (calls_ok cfg threshold validator_count is_validator).

(** The validators among the signers of [sigs]. *)
Definition signed_by (id : hash32) (kind : SigKind) (sigs : list SignerSig) (a : evm_address) : Prop :=
  is_validator a = true /\ exists sig, sig ∈ sigs /\ verify_attestation id kind sig = Ok a.

Section Reads.
Hypothesis members_answer : forall t a, kw_is_validator t a = Ok (is_validator a).

Lemma resolve_total rows s : wp (resolve_members rows) (fun r s' => exists l, r = Ok l /\ map entry_of l = rows) s.
Proof using members_answer.
  clear GR. revert s. induction rows as [|[a sig] rows IH]; intros s; cbn [resolve_members]; [apply wp_ret; by exists []|].
  assert (Hnext : forall m s1, wp (rest ← resolve_members rows; mret ((a, m, sig) :: rest))
      (fun r s' => exists l, r = Ok l /\ map entry_of l = (a, sig) :: rows) s1).
  { intros m s1. apply wp_bind. eapply wp_mono; [apply IH|]. intros r s2 (l & -> & E). apply wp_ret.
    eexists. split; [done|]. cbn. by rewrite E. }
  apply wp_bind, wp_get. destruct (_ !! a); [by apply Hnext|]. apply wp_bind, wp_ask. intros t. rewrite members_answer.
  apply wp_bind. eapply wp_mono; [apply memoize_frame|]. intros r s1 [H1 ->]. by apply Hnext.
Qed.
Lemma filter_members_len l : Forall (fun r => is_member r.1.2 = is_validator r.1.1) l ->
  len (List.filter (fun r : evm_address * Membership * SignerSig => is_member r.1.2) l) =
  len (List.filter is_validator (map fst (map entry_of l))).
Proof using Type.
  clear. unfold len. induction 1 as [|r l Hr _ IH]; [done|]. cbn [List.filter map entry_of fst]. rewrite Hr.
  destruct (is_validator r.1.1); cbn [length]; lia.
Qed.

(** What is kept is one row for each validator that signed, no more and no fewer. *)
Lemma members_exact text id kind sigs s : calls_ok s -> b256_from_str text = Some id ->
  wp (member_signatures text kind sigs) (fun r s' => calls_ok s' /\ view_only s s' /\ exists l, r = Ok l /\
    (gv_threshold (lp_view s') <= len l -> quorum_ok threshold validator_count is_validator kind text l) /\
    len l = len (List.filter is_validator (map fst (authenticate_signatures id kind sigs)))) s.
Proof using GR HL ALL AW EL members_answer.
  intros Hs Hid. assert (Hlen : wp (member_signatures text kind sigs) (fun r _ => exists l, r = Ok l /\
    len l = len (List.filter is_validator (map fst (authenticate_signatures id kind sigs)))) s).
  2: { eapply wp_mono; [apply wp_and; [by apply members_ok|apply wp_and; [apply members_frame|exact Hlen]]|].
       intros r s' ((H1 & H2) & (H3 & _) & (l & -> & H4)). eauto 8. }
  unfold member_signatures. rewrite Hid. destruct (authenticate_loop_spec id kind ∅ sigs) as (Hd & _).
  unfold authenticate_signatures in *. set (rows := authenticate_loop id kind ∅ sigs) in *.
  apply wp_bind. eapply wp_mono; [apply wp_and; [by apply resolve_ok|apply resolve_total]|].
  intros r s1 ((Hs1 & l & -> & Hl) & l' & [= <-] & Hrows). destruct (resolved_fit _ _ _ GR _ _ Hd Hl) as [Hdl Hfit].
  destruct Hs1 as [(Ht & Hc & Hm) _ _]. apply wp_bind, wp_get. apply wp_bind. rewrite Hc, (proj2 (Z.ltb_ge _ _) Hfit).
  apply wp_ret. apply wp_bind, wp_get. apply wp_ret. eexists. split; [done|]. rewrite Hc.
  destruct (filter_members_spec l validator_count Hdl) as (k & -> & _ & _ & Hlen & _).
  { destruct (gr_u64 _ _ _ GR) as [_ []]. done. }
  rewrite Z.min_r in Hlen by done. destruct Hl as [_ Hmem]. rewrite <- Hrows, <- filter_members_len by done.
  rewrite <- Hlen. unfold len. by rewrite length_map.
Qed.
Lemma signers_counted id kind sigs vs : NoDup vs -> (forall a, a ∈ vs -> signed_by id kind sigs a) ->
  len vs <= len (List.filter is_validator (map fst (authenticate_signatures id kind sigs))).
Proof using Type.
  clear. intros Hd Hv. unfold len. apply inj_le, submseteq_length, NoDup_submseteq; [done|]. intros a Ha.
  destruct (Hv a Ha) as (Hm & sig & Hin & Hs). apply list_elem_of_In, filter_In. split; [|done]. apply list_elem_of_In.
  destruct (authenticate_loop_spec id kind ∅ sigs) as (_ & _ & _ & H). destruct (H _ _ Hin Hs); [set_solver|done].
Qed.
Lemma counted_signers id kind sigs : exists ws, NoDup ws /\ (forall a, a ∈ ws -> signed_by id kind sigs a) /\
  len ws = len (List.filter is_validator (map fst (authenticate_signatures id kind sigs))).
Proof using Type.
  clear. eexists. split_and!; [| |reflexivity].
  - apply NoDup_ListNoDup, List.NoDup_filter, NoDup_ListNoDup. by destruct (authenticate_loop_spec id kind ∅ sigs).
  - intros a Ha%list_elem_of_In. apply filter_In in Ha as [Ha Hv]. split; [done|].
    by apply authenticate_signers with ∅, list_elem_of_In.
Qed.
End Reads.

(** ** The claim *)

Lemma wp_populate_up to call s (Q : result KeeperError TransactionRequest -> Loop -> Prop) :
  (forall t, exists n, kw_next_nonce t = Ok n) -> (forall t tx, exists g, kw_estimate_gas t tx = Ok g) ->
  (forall t, exists e, kw_fees t = Ok e) -> (forall tx, populated cfg to call tx -> Q (Ok tx) s) ->
  wp (populate (lc_from cfg) (call_request to call)) Q s.
Proof using Type.
  clear. intros Hn Hg Hf H. unfold populate, rpc. apply wp_bind, wp_bind, wp_ask. intros t1. destruct (Hn t1) as [n ->].
  apply wp_ret. apply wp_bind, wp_bind, wp_ask. intros t2. destruct (Hg t2 (set_nonce n (set_from (lc_from cfg) (call_request to call)))) as [g ->].
  apply wp_ret. apply wp_bind, wp_ask. intros t3. destruct (Hf t3) as [e He]. rewrite He. apply wp_ret, H.
  unfold populated; cbn. split_and!; try done. left. exists t3, e. by split_and!.
Qed.

(** A record the gate would pay out, of a chain and a size this keeper serves. *)
Record claimable (allowlist : option Allowlist) (rec : SubmissionRecord) (id debridge : hash32) (p : CallParams) : Prop := {
  cm_chain : rec_chain_id_to rec = lc_chain_id cfg;
  cm_id : b256_from_str (rec_submission_id rec) = Some id;
  cm_agrees : agrees_with_gate rec (lc_bridge_domain cfg) = Ok tt;
  cm_width : evm_receiver_decodable (rec_receiver rec) = true;
  cm_debridge : b256_from_str (rec_debridge_id rec) = Some debridge;
  cm_amount : exists amount, u256_from_str (rec_amount rec) = Some amount /\
    call_params debridge amount (rec_chain_id_from rec) rec = Some p;
  cm_floor : below_min_claim (lc_min_claim cfg) rec = None;
  cm_allowed : match allowlist with None => True | Some l =>
    token_allowed l (rec_debridge_id rec) = true /\ chain_allowed l (rec_chain_id_from rec) (rec_chain_id_to rec) = true end;
}.
(** Nodes that answer, of a gate that has not executed [id] and has a token for it. *)
Record nodes_up (id debridge : hash32) : Prop := {
  nu_member : forall t a, kw_is_validator t a = Ok (is_validator a);
  nu_executed : forall t, kw_executed t id = Ok false;
  nu_token : forall t, exists token, kw_token_of t debridge = Ok token /\ token <> arr_zero 20;
  nu_nonce : forall t, exists n, kw_next_nonce t = Ok n;
  nu_gas : forall t tx, exists g, kw_estimate_gas t tx = Ok g;
  nu_fees : forall t, exists e, kw_fees t = Ok e;
}.

Definition claim_sent (p : CallParams) (s s' : Loop) : Prop :=
  exists b signatures, lp_broadcasts s' = lp_broadcasts s ++ [b] /\ bc_cause b = FirstSend /\
    tr_input (bc_tx b) = CallClaim p signatures /\
    gate_accepts cfg threshold validator_count is_validator Transfer (cp_chain_id p) (lc_chain_id cfg) p signatures.

Lemma confirm_sends to call s : (forall t, exists n, kw_next_nonce t = Ok n) ->
  (forall t tx, exists g, kw_estimate_gas t tx = Ok g) -> (forall t, exists e, kw_fees t = Ok e) ->
  wp (confirm cfg to call) (fun _ s' => exists b, lp_broadcasts s' = lp_broadcasts s ++ [b] /\ bc_cause b = FirstSend /\
    tr_input (bc_tx b) = call) s.
Proof using Type.
  clear. intros Hn Hg Hf. unfold confirm, lock. apply wp_bind, wp_bind, wp_ask. intros t. apply wp_modify.
  apply wp_bind, wp_populate_up; [done..|]. intros tx (_ & _ & _ & Hin & [n Hnn] & _).
  apply wp_bind. unfold broadcast. apply wp_bind, wp_ask. intros t'. apply wp_bind, wp_modify, wp_ret. apply wp_bind, wp_try.
  destruct (kw_send t' tx) as [hash|e]; cbn; [|eexists; by split_and!]. rewrite Hnn. apply wp_bind, wp_modify.
  apply wp_bind, wp_ask. intros t2. apply wp_bind, wp_ask. intros t3.
  destruct (kw_await t3 hash) as [h [|]| |]; [apply wp_ret|apply wp_fail..]; eexists; by split_and!.
Qed.
Lemma try_claim_sends allow rec id debridge p l s : claimable allow rec id debridge p -> nodes_up id debridge ->
  quorum_ok threshold validator_count is_validator Transfer (rec_submission_id rec) l ->
  wp (try_claim cfg rec l) (fun _ s' => claim_sent p s s') s.
Proof using HL ALL AP AW EL.
  clear GR. intros [Hc Hid Ha Hw Hd (amt & Hamt & Hp) _ _] [_ He Ht Hn Hg Hf] Hq. unfold try_claim, rpc.
  rewrite Hid. apply wp_bind, wp_ret. rewrite Hw, Ha. cbn [negb]. apply wp_bind, wp_bind, wp_ask. intros t1. rewrite He.
  apply wp_ret. rewrite Hd. apply wp_bind, wp_ret. apply wp_bind, wp_bind, wp_ask. intros t2.
  destruct (Ht t2) as (tok & -> & Hnz). apply wp_ret. rewrite bool_decide_eq_false_2 by done.
  rewrite Hamt. apply wp_bind, wp_ret. rewrite Hp. apply wp_bind, wp_ret.
  destruct (Hq id Hid) as (k & -> & Hb & Hk). destruct (ballot_accepted _ _ _ _ _ Hb Hk) as (raws & Hr & Hv).
  rewrite Hr. apply wp_bind, wp_ret. apply wp_bind. eapply wp_mono; [by apply confirm_sends|].
  intros r s' (b & Hl & Hcause & Hin). assert (claim_sent p s s') as Hdone.
  { assert (Hdesc : described cfg rec (rec_chain_id_from rec) p) by (split; [done|]; exists debridge, amt; by split_and!).
    pose proof (described_chain _ _ _ _ Hdesc) as Hcp. exists b, raws. split_and!; [done..|].
    eapply (accepted_call _ _ _ _ _ rec); [done|done|by rewrite Hcp|exact Hq|exact Hr]. }
  destruct r; [by apply wp_ret|done].
Qed.

(** C17. Nothing an untrusted store adds to a record keeps its quorum from the gate: if the
    rows of a claimable transfer hold signatures of at least [threshold] validators, in
    any order and among any others (of strangers, repeated, mislabelled, malformed), while
    its rows for a cancellation hold fewer, no claim of it is in flight and the nodes
    answer, then handling the record broadcasts exactly one transaction, a claim of these
    very parameters, with signatures the gate accepts. (With a cancel quorum the keeper
    cancels instead.) *)
Theorem quorum_is_relayed allowlist rec id debridge p voters s t r s' t' :
  calls_ok s -> lp_pending s !! pending_key (rec_submission_id rec) Transfer = None ->
  claimable allowlist rec id debridge p -> nodes_up id debridge ->
  NoDup voters -> threshold <= len voters -> (forall a, a ∈ voters -> signed_by id Transfer (rec_signatures rec) a) ->
  (forall ws, NoDup ws -> (forall a, a ∈ ws -> signed_by id Cancel (rec_cancel_signatures rec) a) -> len ws < threshold) ->
  target_record cfg allowlist rec s t = (r, s', t') -> claim_sent p s s'.
Proof using GR HL ALL AP AW EL.
  intros Hs Hpend Hcm Hup Hnd Hlen Hvote Hcancel Hrun. by_run Hrun. clear r s' t' t Hrun.
  pose proof (nu_member _ _ Hup) as Hans. unfold target_record. rewrite (cm_chain _ _ _ _ _ Hcm), Z.eqb_refl. cbn [negb].
  apply wp_bind. eapply wp_mono; [by apply members_exact, (cm_id _ _ _ _ _ Hcm)|].
  intros r1 s1 (Hs1 & [v1 E1] & l1 & -> & _ & Hl1). apply wp_bind, wp_get.
  destruct (co_view _ _ _ _ _ Hs1) as (Ht1 & _). destruct (counted_signers id Cancel (rec_cancel_signatures rec)) as (ws & Hw1 & Hw2 & Hw3).
  specialize (Hcancel ws Hw1 Hw2). rewrite Ht1, (proj2 (Z.leb_gt _ _)) by lia.
  unfold claim_record. rewrite (cm_floor _ _ _ _ _ Hcm). apply wp_bind.
  eapply wp_mono; [by apply members_exact, (cm_id _ _ _ _ _ Hcm)|].
  intros r2 s2 (Hs2 & [v2 E2] & l2 & -> & Hq2 & Hl2). apply wp_bind, wp_get.
  destruct (co_view _ _ _ _ _ Hs2) as (Ht2 & _).
  pose proof (signers_counted id Transfer (rec_signatures rec) voters Hnd Hvote) as Hcount.
  rewrite Ht2, (proj2 (Z.ltb_ge _ _)) by lia. rewrite Ht2 in Hq2. specialize (Hq2 ltac:(lia)).
  assert (match allowlist with Some allow => negb (token_allowed allow (rec_debridge_id rec)) ||
    negb (chain_allowed allow (rec_chain_id_from rec) (rec_chain_id_to rec)) | None => false end = false) as ->.
  { pose proof (cm_allowed _ _ _ _ _ Hcm) as H. destruct allowlist; [|done]. by destruct H as [-> ->]. }
  apply wp_bind. unfold may_submit. apply wp_bind, wp_get. cbv zeta.
  assert (lp_pending s2 = lp_pending s /\ lp_broadcasts s2 = lp_broadcasts s) as [-> Elog] by (by subst).
  rewrite Hpend. apply wp_ret. cbn [negb]. apply wp_bind, wp_attempt.
  eapply wp_mono; [by eapply try_claim_sends|]. unfold claim_sent. rewrite Elog. intros o s3 H3.
  assert (Henq : forall s4, lp_broadcasts s4 = lp_broadcasts s3 ->
    wp (enqueue_delivery cfg rec) (fun r' s5 => is_Ok (E := KeeperError) r' /\ lp_broadcasts s5 = lp_broadcasts s3) s4).
  { intros s4 E. unfold enqueue_delivery. destruct (router_of _ _); [apply wp_bind, wp_ask; intros; apply wp_modify|apply wp_ret];
    (split; [by eexists|done]). }
  destruct o as [[text| |reason]|[hash tx at_|]].
  - apply wp_bind, wp_modify, wp_bind. eapply wp_mono; [by apply Henq|]. intros r' s4 [[[] ->] E4].
    apply wp_bind, wp_ask. intros t'. apply wp_modify. cbn [lp_broadcasts add_mark]. by rewrite E4.
  - apply wp_bind, wp_modify. eapply wp_mono; [by apply Henq|]. intros r' s4 [_ E4]. by rewrite E4.
  - apply wp_modify. exact H3.
  - apply wp_modify. exact H3.
  - apply wp_ret. exact H3.
Qed.
End Relay.
