(* ===== verification/SolanaSwap.v ===== *)
(** The Solana swap pool (crates/solana-swap/src/lib.rs): instructions, state
    access, and every handler. *)

From S2P Require Import Prelude.
From S2P Require Import SolanaRuntime.
From S2P Require Import GateTypes.
From S2P Require Import SwapMath.

(** * Instructions *)

Record InitPoolArgs := MkInitPoolArgs {
  ip_fee_bps : Z;                    (* u16 *)
  ip_max_price_deviation_bps : Z;    (* u16 *)
  ip_min_price_update_interval : Z;  (* i64 *)
  ip_guardian : pubkey;
  ip_oracle : pubkey;
}.

Inductive SwapInstruction :=
  | SwapInit (args : InitPoolArgs)
  | ListToken (price : Z)
  | SetPrice (price : Z)
  | SeedLiquidity (amount : Z)
  | WithdrawLiquidity (amount : Z)
  | Swap (amount_in min_amount_out : Z)
  | SwapPause
  | SwapUnpause
  | SwapSetGuardian (guardian : pubkey)
  | SetOracle (oracle : pubkey)
  | SetFee (fee_bps : Z)
  | SetMaxPriceDeviation (bps : Z)
  | SetMaxPriceAge (seconds : Z)
  | SetMinPriceUpdateInterval (seconds : Z)
  | SetPriceFrom (expected price : Z).

(** * Errors *)

Inductive SwapError :=
  | TokenNotListed | TokenAlreadyListed | SameToken | SwapZeroAmount | ZeroPrice | Slippage
  | ExceedsLock | HubRepriceForbidden | PriceDeviationTooHigh | PriceUpdateTooSoon | SwapPaused
  | NotAuthorizedToPause | Overflow | VaultNotOwned | VaultNotExclusive | AccountMismatch | StalePrice
  | FeeTooHigh | PriceChanged | SetPriceRemoved.

Definition SwapError_discriminant (e : SwapError) : Z :=
  match e with
  | TokenNotListed => 0 | TokenAlreadyListed => 1 | SameToken => 2 | SwapZeroAmount => 3
  | ZeroPrice => 4 | Slippage => 5 | ExceedsLock => 6 | HubRepriceForbidden => 7
  | PriceDeviationTooHigh => 8 | PriceUpdateTooSoon => 9 | SwapPaused => 10
  | NotAuthorizedToPause => 11 | Overflow => 12 | VaultNotOwned => 13 | VaultNotExclusive => 14
  | AccountMismatch => 15 | StalePrice => 16 | FeeTooHigh => 17 | PriceChanged => 18
  | SetPriceRemoved => 19
  end.
(** [impl From<SwapError> for ProgramError] *)
Definition swap_err (e : SwapError) : program_error := Custom (SwapError_discriminant e + 1).
#[export] Instance swap_err_inj : Inj (=) (=) swap_err.
Proof. intros x y [= H]. destruct x, y; try done; simpl in H; lia. Qed.

Inductive Role :=
  | RoleGuardian (g : pubkey)
  | RoleOracle (o : pubkey)
  | RoleFee (f : Z)
  | RoleMaxPriceDeviation (bps : Z)
  | RoleMaxPriceAge (s : Z)
  | RoleMinPriceUpdateInterval (s : Z).

(** The derived codecs of the pool's types. *)
Class SwapBorsh := {
  #[global] PoolState_borsh :: Borsh PoolState;
  #[global] TokenState_borsh :: Borsh TokenState;
  swap_ix_try_from_slice : list byte -> option SwapInstruction;
  SwappedEvent_to_vec : SwappedEvent -> list byte;
}.

Definition with_price (t : TokenState) (price now : Z) : TokenState :=
  MkTokenState (tk_mint t) (tk_vault t) (tk_decimals t) price (tk_reserve t) now (tk_listed t) now.
Definition with_reserve (t : TokenState) (r : Z) : TokenState :=
  MkTokenState (tk_mint t) (tk_vault t) (tk_decimals t) (tk_price t) r (tk_last_price_update t)
    (tk_listed t) (tk_price_set_at t).
Definition pool_with_paused (p : PoolState) (b : bool) : PoolState :=
  MkPoolState (pl_owner p) (pl_oracle p) (pl_guardian p) (pl_hub_mint p) (pl_fee_bps p)
    (pl_max_price_deviation_bps p) (pl_min_price_update_interval p) b (pl_max_price_age p).

Section SolanaSwap.
Context {RT : Runtime} {SB : SwapBorsh}.

Definition SWAPPED_EVENT_TAG : list byte := bytes_of_string "SWAP_SWAPPED".
Definition swapped_log_fields (ev : SwappedEvent) : list (list byte) :=
  [SWAPPED_EVENT_TAG; SwappedEvent_to_vec ev].

(** * State access *)

Definition pool_seeds : list (list byte) := [POOL_SEED].
Definition token_seeds (mint : pubkey) : list (list byte) := [TOKEN_SEED; arr_bytes mint].
Definition pool_authority_seeds : list (list byte) := [VAULT_AUTHORITY_SEED].

Definition load_pool (program_id : pubkey) (ai : account_info) : prog PoolState :=
  let '(expected, _) := find_program_address pool_seeds program_id in
  owner ← ai_owner ai;
  _ ← ensure (negb (negb (bool_decide (ai_key ai = expected)) || negb (bool_decide (owner = program_id))))
        (swap_err AccountMismatch);
  data ← ai_data ai;
  lift (ok_or (borsh_de data) InvalidAccountData).

Definition swap_store {T} `{Borsh T} (ai : account_info) (v : T) : prog unit :=
  let bytes := borsh_ser v in
  data ← ai_data ai;
  _ ← ensure (negb (bool_decide (length data < length bytes)%nat)) AccountDataTooSmall;
  set_data ai (bytes ++ drop (length bytes) data).

Definition load_token (program_id : pubkey) (ai : account_info) (mint : pubkey) : prog TokenState :=
  let '(expected, _) := find_program_address (token_seeds mint) program_id in
  owner ← ai_owner ai;
  _ ← ensure (negb (negb (bool_decide (ai_key ai = expected)) || negb (bool_decide (owner = program_id))))
        (swap_err AccountMismatch);
  data ← ai_data ai;
  rec ← lift (ok_or (borsh_de data) InvalidAccountData);
  _ ← ensure (tk_listed rec) (swap_err TokenNotListed);
  mret rec.

Definition require_owner (pool : PoolState) (signer : account_info) : result program_error unit :=
  require (negb (negb (bool_decide (ai_key signer = pl_owner pool)) || negb (is_signer signer)))
    MissingRequiredSignature.

Definition swap_require_upgrade_authority (program_id : pubkey) (program_ai program_data_ai : account_info)
    (who : pubkey) : prog unit :=
  owner ← ai_owner program_ai;
  _ ← ensure (negb (negb (bool_decide (ai_key program_ai = program_id))
                    || negb (bool_decide (owner = bpf_loader_upgradeable_id)))) IncorrectProgramId;
  let '(expected_pd, _) := find_program_address [arr_bytes program_id] bpf_loader_upgradeable_id in
  _ ← ensure (bool_decide (ai_key program_data_ai = expected_pd)) InvalidArgument;
  data ← ai_data program_data_ai;
  state ← lift (ok_or (bincode_loader_state data) InvalidAccountData);
  match state with
  | ProgramData upgrade_authority_address =>
      ensure (bool_decide (upgrade_authority_address = Some who)) MissingRequiredSignature
  | OtherLoaderState => fail InvalidAccountData
  end.

Definition check_vault (program_id : pubkey) (vault : account_info) (mint token_program : pubkey)
    : prog unit :=
  owner ← ai_owner vault;
  _ ← ensure (bool_decide (owner = token_program)) IllegalOwner;
  data ← ai_data vault;
  state ← lift (ok_or (spl_account_unpack data) InvalidAccountData);
  _ ← ensure (bool_decide (ta_mint state = mint)) (swap_err AccountMismatch);
  let '(auth, _) := find_program_address pool_authority_seeds program_id in
  _ ← ensure (bool_decide (ta_owner state = auth)) (swap_err VaultNotOwned);
  ensure (negb (negb (bool_decide (ta_delegate state = None))
                || negb (bool_decide (ta_close_authority state = None)))) (swap_err VaultNotExclusive).

Definition vault_balance (vault : account_info) : prog Z :=
  data ← ai_data vault;
  state ← lift (ok_or (spl_account_unpack data) InvalidAccountData);
  mret (ta_amount state).

Definition create_pda (payer account system_program : account_info) (program_id : pubkey)
    (seeds : list (list byte)) (bump : byte) (space : Z) : prog unit :=
  data ← ai_data account;
  owner ← ai_owner account;
  _ ← ensure (negb (negb (bool_decide (data = [])) || negb (bool_decide (owner = system_program_id))))
        AccountAlreadyInitialized;
  _ ← ensure (bool_decide (ai_key system_program = system_program_id)) IncorrectProgramId;
  let rent := rent_minimum_balance space in
  have ← ai_lamports account;
  _ ← (if have <? rent then
         invoke (SysTransfer (ai_key payer) (ai_key account) (rent - have)) [payer; account; system_program]
       else mret tt);
  let signer_seeds := seeds ++ [[bump]] in
  _ ← invoke_signed (SysAllocate (ai_key account) space) [account; system_program] [signer_seeds];
  invoke_signed (SysAssign (ai_key account) program_id) [account; system_program] [signer_seeds].

Definition check_fee_bps (bps : Z) : result program_error unit :=
  require (negb (MAX_FEE_BPS <? bps)) (swap_err FeeTooHigh).
Definition check_deviation_bps (bps : Z) : result program_error unit :=
  require (negb ((bps =? 0) || (BPS_DENOM <? bps))) InvalidArgument.
Definition validate_init_args (args : InitPoolArgs) : result program_error unit :=
  _ ← check_deviation_bps (ip_max_price_deviation_bps args);
  _ ← check_fee_bps (ip_fee_bps args);
  require (negb (ip_min_price_update_interval args <? 0)) InvalidArgument.

(** * Handlers *)

Definition process_init (program_id : pubkey) (accounts : list account_info) (args : InitPoolArgs)
    : prog unit :=
  '(pool_ai, it) ← next_account_info accounts;
  '(payer, it) ← next_account_info it;
  '(hub_mint, it) ← next_account_info it;
  '(hub_vault, it) ← next_account_info it;
  '(hub_rec_ai, it) ← next_account_info it;
  '(token_program, it) ← next_account_info it;
  '(system_program, it) ← next_account_info it;
  '(program_ai, it) ← next_account_info it;
  '(program_data_ai, it) ← next_account_info it;
  _ ← ensure (is_signer payer) MissingRequiredSignature;
  _ ← swap_require_upgrade_authority program_id program_ai program_data_ai (ai_key payer);
  _ ← ensure (bool_decide (ai_key token_program = spl_token_id)) IncorrectProgramId;
  _ ← lift (validate_init_args args);
  let '(expected_pool, pool_bump) := find_program_address pool_seeds program_id in
  _ ← ensure (bool_decide (ai_key pool_ai = expected_pool)) InvalidSeeds;
  _ ← create_pda payer pool_ai system_program program_id pool_seeds pool_bump POOL_SPACE;
  let pool := MkPoolState (ai_key payer)
    (if bool_decide (ip_oracle args = pubkey_default) then ai_key payer else ip_oracle args)
    (ip_guardian args) (ai_key hub_mint) (ip_fee_bps args) (ip_max_price_deviation_bps args)
    (ip_min_price_update_interval args) false DEFAULT_MAX_PRICE_AGE in
  _ ← swap_store pool_ai pool;
  now ← clock_now;
  mint_data ← ai_data hub_mint;
  decimals ← lift (ok_or (spl_mint_unpack mint_data) InvalidAccountData);
  _ ← check_vault program_id hub_vault (ai_key hub_mint) (ai_key token_program);
  let '(_, rec_bump) := find_program_address (token_seeds (ai_key hub_mint)) program_id in
  _ ← create_pda payer hub_rec_ai system_program program_id (token_seeds (ai_key hub_mint)) rec_bump
        TOKEN_SPACE;
  _ ← swap_store hub_rec_ai
        (MkTokenState (ai_key hub_mint) (ai_key hub_vault) decimals PRICE_ONE 0 0 true now);
  msg ("pool initialized; hub " +:+ pubkey_to_string (ai_key hub_mint) +:+ " at 1.0").

Definition process_list_token (program_id : pubkey) (accounts : list account_info) (price : Z)
    : prog unit :=
  '(pool_ai, it) ← next_account_info accounts;
  '(owner, it) ← next_account_info it;
  '(mint, it) ← next_account_info it;
  '(vault, it) ← next_account_info it;
  '(rec_ai, it) ← next_account_info it;
  '(token_program, it) ← next_account_info it;
  '(system_program, it) ← next_account_info it;
  pool ← load_pool program_id pool_ai;
  _ ← lift (require_owner pool owner);
  _ ← ensure (negb (price =? 0)) (swap_err ZeroPrice);
  _ ← ensure (bool_decide (ai_key token_program = spl_token_id)) IncorrectProgramId;
  rec_data ← ai_data rec_ai;
  rec_owner ← ai_owner rec_ai;
  _ ← ensure (negb (negb (bool_decide (rec_data = [])) || bool_decide (rec_owner = program_id)))
        (swap_err TokenAlreadyListed);
  _ ← check_vault program_id vault (ai_key mint) (ai_key token_program);
  mint_data ← ai_data mint;
  decimals ← lift (ok_or (spl_mint_unpack mint_data) InvalidAccountData);
  let '(expected, bump) := find_program_address (token_seeds (ai_key mint)) program_id in
  _ ← ensure (bool_decide (ai_key rec_ai = expected)) InvalidSeeds;
  _ ← create_pda owner rec_ai system_program program_id (token_seeds (ai_key mint)) bump TOKEN_SPACE;
  now ← clock_now;
  _ ← swap_store rec_ai (MkTokenState (ai_key mint) (ai_key vault) decimals price 0 0 true now);
  msg ("listed " +:+ pubkey_to_string (ai_key mint) +:+ " at " +:+ pretty price).

Definition process_set_price (program_id : pubkey) (accounts : list account_info) (expected price : Z)
    : prog unit :=
  '(pool_ai, it) ← next_account_info accounts;
  '(oracle, it) ← next_account_info it;
  '(rec_ai, it) ← next_account_info it;
  pool ← load_pool program_id pool_ai;
  _ ← ensure (negb (negb (bool_decide (ai_key oracle = pl_oracle pool)) || negb (is_signer oracle)))
        MissingRequiredSignature;
  _ ← ensure (negb (price =? 0)) (swap_err ZeroPrice);
  data ← ai_data rec_ai;
  rec ← lift (ok_or (@borsh_de TokenState _ data) InvalidAccountData);
  rec_check ← load_token program_id rec_ai (tk_mint rec);
  _ ← ensure (bool_decide (tk_mint rec_check = tk_mint rec)) (swap_err AccountMismatch);
  _ ← ensure (negb (bool_decide (tk_mint rec = pl_hub_mint pool))) (swap_err HubRepriceForbidden);
  _ ← ensure (tk_price rec =? expected) (swap_err PriceChanged);
  now ← clock_now;
  _ ← ensure (negb (negb (tk_last_price_update rec =? 0)
        && (now <? i_saturating_add 64 (tk_last_price_update rec) (pl_min_price_update_interval pool))))
        (swap_err PriceUpdateTooSoon);
  let old := tk_price rec in
  let diff := if old <? price then price - old else old - price in
  cap ← lift (ok_or (mul_div_floor old (pl_max_price_deviation_bps pool) BPS_DENOM) (swap_err Overflow));
  _ ← ensure (negb (cap <? diff)) (swap_err PriceDeviationTooHigh);
  _ ← msg ("price " +:+ pretty (tk_price rec) +:+ " -> " +:+ pretty price);
  swap_store rec_ai (with_price rec price now).

Definition process_liquidity (program_id : pubkey) (accounts : list account_info) (amount : Z)
    (inward : bool) : prog unit :=
  '(pool_ai, it) ← next_account_info accounts;
  '(owner, it) ← next_account_info it;
  '(rec_ai, it) ← next_account_info it;
  '(owner_ata, it) ← next_account_info it;
  '(vault, it) ← next_account_info it;
  '(mint, it) ← next_account_info it;
  '(vault_authority, it) ← next_account_info it;
  '(token_program, it) ← next_account_info it;
  pool ← load_pool program_id pool_ai;
  _ ← lift (require_owner pool owner);
  _ ← ensure (negb (amount =? 0)) (swap_err SwapZeroAmount);
  rec ← load_token program_id rec_ai (ai_key mint);
  _ ← ensure (bool_decide (tk_vault rec = ai_key vault)) (swap_err AccountMismatch);
  _ ← ensure (bool_decide (ai_key token_program = spl_token_id)) IncorrectProgramId;
  before ← vault_balance vault;
  rec ←
    (if inward : bool then
       _ ← invoke (SplTransferChecked (ai_key token_program) (ai_key owner_ata) (ai_key mint)
                     (ai_key vault) (ai_key owner) amount (tk_decimals rec))
             [owner_ata; mint; vault; owner; token_program];
       after ← vault_balance vault;
       received ← lift (ok_or (checked_sub 64 after before) (swap_err Overflow));
       reserve ← lift (ok_or (checked_add 64 (tk_reserve rec) received) (swap_err Overflow));
       _ ← msg ("seeded " +:+ pretty received +:+ " (reserve " +:+ pretty reserve +:+ ")");
       mret (with_reserve rec reserve)
     else
       _ ← ensure (negb (tk_reserve rec <? amount)) (swap_err ExceedsLock);
       let '(auth, bump) := find_program_address pool_authority_seeds program_id in
       _ ← ensure (bool_decide (ai_key vault_authority = auth)) (swap_err VaultNotOwned);
       let reserve := tk_reserve rec - amount in
       _ ← invoke_signed (SplTransferChecked (ai_key token_program) (ai_key vault) (ai_key mint)
                            (ai_key owner_ata) auth amount (tk_decimals rec))
             [vault; mint; owner_ata; vault_authority; token_program]
             [pool_authority_seeds ++ [[bump]]];
       _ ← msg ("withdrew " +:+ pretty amount +:+ " (reserve " +:+ pretty reserve +:+ ")");
       mret (with_reserve rec reserve));
  swap_store rec_ai rec.

Definition process_swap (program_id : pubkey) (accounts : list account_info)
    (amount_in min_amount_out : Z) : prog unit :=
  '(pool_ai, it) ← next_account_info accounts;
  '(user, it) ← next_account_info it;
  '(rec_in_ai, it) ← next_account_info it;
  '(rec_out_ai, it) ← next_account_info it;
  '(user_in, it) ← next_account_info it;
  '(user_out, it) ← next_account_info it;
  '(vault_in, it) ← next_account_info it;
  '(vault_out, it) ← next_account_info it;
  '(mint_in, it) ← next_account_info it;
  '(mint_out, it) ← next_account_info it;
  '(vault_authority, it) ← next_account_info it;
  '(token_program, it) ← next_account_info it;
  pool ← load_pool program_id pool_ai;
  _ ← ensure (negb (pl_paused pool)) (swap_err SwapPaused);
  _ ← ensure (is_signer user) MissingRequiredSignature;
  _ ← ensure (negb (bool_decide (ai_key mint_in = ai_key mint_out))) (swap_err SameToken);
  _ ← ensure (negb (amount_in =? 0)) (swap_err SwapZeroAmount);
  _ ← ensure (bool_decide (ai_key token_program = spl_token_id)) IncorrectProgramId;
  rec_in ← load_token program_id rec_in_ai (ai_key mint_in);
  rec_out ← load_token program_id rec_out_ai (ai_key mint_out);
  _ ← ensure (negb (negb (bool_decide (tk_vault rec_in = ai_key vault_in))
                    || negb (bool_decide (tk_vault rec_out = ai_key vault_out)))) (swap_err AccountMismatch);
  now ← clock_now;
  _ ← ensure (negb (negb (price_is_fresh pool rec_in now) || negb (price_is_fresh pool rec_out now)))
        (swap_err StalePrice);
  before ← vault_balance vault_in;
  _ ← invoke (SplTransferChecked (ai_key token_program) (ai_key user_in) (ai_key mint_in)
                (ai_key vault_in) (ai_key user) amount_in (tk_decimals rec_in))
        [user_in; mint_in; vault_in; user; token_program];
  after ← vault_balance vault_in;
  received ← lift (ok_or (checked_sub 64 after before) (swap_err Overflow));
  _ ← ensure (negb (received =? 0)) (swap_err SwapZeroAmount);
  out ← lift (ok_or (amount_out received (tk_price rec_in) (tk_decimals rec_in) (tk_price rec_out)
                       (tk_decimals rec_out) (pl_fee_bps pool)) (swap_err Overflow));
  _ ← ensure (negb (out =? 0)) (swap_err SwapZeroAmount);
  _ ← ensure (negb (out <? min_amount_out)) (swap_err Slippage);
  _ ← ensure (negb (tk_reserve rec_out <? out)) (swap_err ExceedsLock);
  reserve_in ← lift (ok_or (checked_add 64 (tk_reserve rec_in) received) (swap_err Overflow));
  let rec_in := with_reserve rec_in reserve_in in
  let rec_out := with_reserve rec_out (tk_reserve rec_out - out) in
  _ ← swap_store rec_in_ai rec_in;
  _ ← swap_store rec_out_ai rec_out;
  let '(auth, bump) := find_program_address pool_authority_seeds program_id in
  _ ← ensure (bool_decide (ai_key vault_authority = auth)) (swap_err VaultNotOwned);
  _ ← invoke_signed (SplTransferChecked (ai_key token_program) (ai_key vault_out) (ai_key mint_out)
                       (ai_key user_out) auth out (tk_decimals rec_out))
        [vault_out; mint_out; user_out; vault_authority; token_program]
        [pool_authority_seeds ++ [[bump]]];
  let ev := MkSwappedEvent 1 (ai_key user) (ai_key mint_in) (ai_key mint_out) received out
    (ai_key user_out) in
  _ ← sol_log_data (swapped_log_fields ev);
  msg ("swapped " +:+ pretty received +:+ " -> " +:+ pretty out).

Definition swap_set_paused (program_id : pubkey) (accounts : list account_info) (paused : bool)
    : prog unit :=
  '(pool_ai, it) ← next_account_info accounts;
  '(who, it) ← next_account_info it;
  pool ← load_pool program_id pool_ai;
  _ ← ensure (is_signer who) MissingRequiredSignature;
  let allowed :=
    if paused then
      bool_decide (ai_key who = pl_owner pool)
      || (negb (bool_decide (pl_guardian pool = pubkey_default)) && bool_decide (ai_key who = pl_guardian pool))
    else bool_decide (ai_key who = pl_owner pool) in
  _ ← ensure allowed (swap_err NotAuthorizedToPause);
  swap_store pool_ai (pool_with_paused pool paused).

(** The role assignment of [process_set_role]. *)
Definition apply_role (p : PoolState) (role : Role) : result program_error PoolState :=
  match role with
  | RoleGuardian g => Ok (MkPoolState (pl_owner p) (pl_oracle p) g (pl_hub_mint p) (pl_fee_bps p)
      (pl_max_price_deviation_bps p) (pl_min_price_update_interval p) (pl_paused p) (pl_max_price_age p))
  | RoleOracle o => Ok (MkPoolState (pl_owner p) o (pl_guardian p) (pl_hub_mint p) (pl_fee_bps p)
      (pl_max_price_deviation_bps p) (pl_min_price_update_interval p) (pl_paused p) (pl_max_price_age p))
  | RoleFee f =>
      _ ← check_fee_bps f;
      Ok (MkPoolState (pl_owner p) (pl_oracle p) (pl_guardian p) (pl_hub_mint p) f
        (pl_max_price_deviation_bps p) (pl_min_price_update_interval p) (pl_paused p) (pl_max_price_age p))
  | RoleMaxPriceDeviation bps =>
      _ ← check_deviation_bps bps;
      Ok (MkPoolState (pl_owner p) (pl_oracle p) (pl_guardian p) (pl_hub_mint p) (pl_fee_bps p)
        bps (pl_min_price_update_interval p) (pl_paused p) (pl_max_price_age p))
  | RoleMaxPriceAge s =>
      _ ← require (negb (s <=? 0)) InvalidArgument;
      Ok (MkPoolState (pl_owner p) (pl_oracle p) (pl_guardian p) (pl_hub_mint p) (pl_fee_bps p)
        (pl_max_price_deviation_bps p) (pl_min_price_update_interval p) (pl_paused p) s)
  | RoleMinPriceUpdateInterval s =>
      _ ← require (negb (s <? 0)) InvalidArgument;
      Ok (MkPoolState (pl_owner p) (pl_oracle p) (pl_guardian p) (pl_hub_mint p) (pl_fee_bps p)
        (pl_max_price_deviation_bps p) s (pl_paused p) (pl_max_price_age p))
  end.
Definition process_set_role (program_id : pubkey) (accounts : list account_info) (role : Role) : prog unit :=
  '(pool_ai, it) ← next_account_info accounts;
  '(owner, it) ← next_account_info it;
  pool ← load_pool program_id pool_ai;
  _ ← lift (require_owner pool owner);
  pool ← lift (apply_role pool role);
  swap_store pool_ai pool.

Definition swap_dispatch (program_id : pubkey) (accounts : list account_info) (ix : SwapInstruction)
    : prog unit :=
  match ix with
  | SwapInit args => process_init program_id accounts args
  | ListToken price => process_list_token program_id accounts price
  | SetPrice _ => fail (swap_err SetPriceRemoved)
  | SetPriceFrom expected price => process_set_price program_id accounts expected price
  | SeedLiquidity amount => process_liquidity program_id accounts amount true
  | WithdrawLiquidity amount => process_liquidity program_id accounts amount false
  | Swap amount_in min_amount_out => process_swap program_id accounts amount_in min_amount_out
  | SwapPause => swap_set_paused program_id accounts true
  | SwapUnpause => swap_set_paused program_id accounts false
  | SwapSetGuardian guardian => process_set_role program_id accounts (RoleGuardian guardian)
  | SetOracle oracle => process_set_role program_id accounts (RoleOracle oracle)
  | SetFee fee_bps => process_set_role program_id accounts (RoleFee fee_bps)
  | SetMaxPriceDeviation bps => process_set_role program_id accounts (RoleMaxPriceDeviation bps)
  | SetMaxPriceAge seconds => process_set_role program_id accounts (RoleMaxPriceAge seconds)
  | SetMinPriceUpdateInterval seconds =>
      process_set_role program_id accounts (RoleMinPriceUpdateInterval seconds)
  end.
Definition swap_process_instruction (program_id : pubkey) (accounts : list account_info)
    (data : list byte) : prog unit :=
  ix ← lift (ok_or (swap_ix_try_from_slice data) InvalidInstructionData);
  swap_dispatch program_id accounts ix.
End SolanaSwap.

(** * Lemmas *)

(** The ranges of the integers a decoded instruction carries. *)
Definition SwapInstruction_wf (ix : SwapInstruction) : Prop :=
  match ix with
  | SwapInit a => is_u 16 (ip_fee_bps a) /\ is_u 16 (ip_max_price_deviation_bps a) /\
      is_i 64 (ip_min_price_update_interval a)
  | ListToken price | SetPrice price => is_u 128 price
  | SeedLiquidity n | WithdrawLiquidity n => is_u 64 n
  | Swap n m => is_u 64 n /\ is_u 64 m
  | SetFee n | SetMaxPriceDeviation n => is_u 16 n
  | SetMaxPriceAge n | SetMinPriceUpdateInterval n => is_i 64 n
  | SetPriceFrom e p => is_u 128 e /\ is_u 128 p
  | SwapPause | SwapUnpause | SwapSetGuardian _ | SetOracle _ => True
  end.

Class SwapBorshLaws `{Runtime, SwapBorsh} : Prop := {
  #[global] PoolState_laws :: BorshLaws PoolState PoolState_wf (fun _ => 149);
  #[global] TokenState_laws :: BorshLaws TokenState TokenState_wf (fun _ => 106);
  swap_ix_try_wf : forall d ix, swap_ix_try_from_slice d = Some ix -> SwapInstruction_wf ix;
}.

Section SwapFacts.
Context {RT : Runtime} {RL : RuntimeLaws} {SB : SwapBorsh} {SL : SwapBorshLaws}.
Variable pid : pubkey.

Definition pool_account : pubkey := fst (find_program_address pool_seeds pid).
Definition token_account_of (mint : pubkey) : pubkey := fst (find_program_address (token_seeds mint) pid).
Definition pool_authority : pubkey := fst (find_program_address pool_authority_seeds pid).

(** The pool record and a mint's record, as stored. *)
Definition pool_at (m : gmap pubkey account) (p : PoolState) : Prop :=
  acc_owner (acct m pool_account) = pid /\ borsh_de (acc_data (acct m pool_account)) = Some p.
Definition record_at (m : gmap pubkey account) (mint : pubkey) (r : TokenState) : Prop :=
  acc_owner (acct m (token_account_of mint)) = pid /\
  borsh_de (acc_data (acct m (token_account_of mint))) = Some r /\ tk_listed r = true.

Lemma pool_at_unique m p q : pool_at m p -> pool_at m q -> p = q.
Proof. intros [_ H1] [_ H2]. congruence. Qed.
Lemma record_at_unique m k p q : record_at m k p -> record_at m k q -> p = q.
Proof. intros (_ & H1 & _) (_ & H2 & _). congruence. Qed.
Lemma record_at_wf m k r : record_at m k r -> TokenState_wf r.
Proof. intros (_ & Hd & _). by eapply borsh_de_wf. Qed.
Lemma pool_at_wf m p : pool_at m p -> PoolState_wf p.
Proof. intros [_ Hd]. by eapply borsh_de_wf. Qed.

Lemma load_pool_Ok ai s p s' : load_pool pid ai s = Ok (p, s') ->
  s' = s /\ ai_key ai = pool_account /\ pool_at (accts s) p.
Proof.
  unfold load_pool, pool_at, pool_account. destruct (find_program_address pool_seeds pid) as [e b].
  intros Hl. prog_inv Hl. bool_inv. by subst e.
Qed.
Lemma load_token_Ok ai mint s r s' : load_token pid ai mint s = Ok (r, s') ->
  s' = s /\ ai_key ai = token_account_of mint /\ record_at (accts s) mint r.
Proof.
  unfold load_token, record_at, token_account_of.
  destruct (find_program_address (token_seeds mint) pid) as [e b].
  intros Hl. prog_inv Hl. bool_inv. by subst e.
Qed.
Lemma vault_balance_Ok ai s x s' : vault_balance ai s = Ok (x, s') ->
  s' = s /\ exists t, token_at (accts s) (ai_key ai) = Some t /\ x = ta_amount t.
Proof. unfold vault_balance, token_at. intros Hl. prog_inv Hl. eauto. Qed.
Lemma require_owner_Ok p ai u : require_owner p ai = Ok u <-> ai_key ai = pl_owner p /\ is_signer ai = true.
Proof.
  unfold require_owner. destruct u. rewrite require_Ok.
  case_bool_decide; destruct (is_signer ai); simpl; split; try done; by intros [? ?].
Qed.

(** Everything outside [k] is untouched, and [k] keeps its owner. *)
Definition only_data (k : pubkey) (m m' : gmap pubkey account) : Prop :=
  (forall k', acc_owner (acct m' k') = acc_owner (acct m k')) /\
  (forall k', k' <> k -> acc_data (acct m' k') = acc_data (acct m k')).

Lemma swap_store_Ok {T} `{!Borsh T} ai (v : T) s u s' : swap_store ai v s = Ok (u, s') ->
  (length (borsh_ser v) <= length (acc_data (acct (accts s) (ai_key ai))))%nat /\
  acc_data (acct (accts s') (ai_key ai)) =
    borsh_ser v ++ drop (length (borsh_ser v)) (acc_data (acct (accts s) (ai_key ai))) /\
  only_data (ai_key ai) (accts s) (accts s') /\ clock s' = clock s /\ logs s' = logs s.
Proof.
  unfold swap_store. intros Hs. prog_inv Hs. bool_inv. cbn [accts clock logs]. rewrite acct_set_data.
  cbn [acc_data]. split_and!; [lia|done| |done..]. split; intros k'; [apply set_data_owner|].
  intros Hk. by rewrite acct_set_data_ne.
Qed.

Lemma store_pool ai p s u s' : PoolState_wf p -> ai_key ai = pool_account ->
  acc_owner (acct (accts s) pool_account) = pid -> swap_store ai p s = Ok (u, s') ->
  pool_at (accts s') p /\ only_data pool_account (accts s) (accts s').
Proof.
  intros Hwf Hk Ho (_ & Hd & Hoth & _)%swap_store_Ok. rewrite Hk in *. split; [|done].
  split; [by rewrite (proj1 Hoth)|]. rewrite Hd. by apply borsh_roundtrip.
Qed.
Lemma store_record ai mint r s u s' : TokenState_wf r -> tk_listed r = true ->
  ai_key ai = token_account_of mint ->
  acc_owner (acct (accts s) (token_account_of mint)) = pid -> swap_store ai r s = Ok (u, s') ->
  record_at (accts s') mint r /\ only_data (token_account_of mint) (accts s) (accts s').
Proof.
  intros Hwf Hl Hk Ho (_ & Hd & Hoth & _)%swap_store_Ok. rewrite Hk in *. split; [|done].
  split_and!; [by rewrite (proj1 Hoth)| |done]. rewrite Hd. by apply borsh_roundtrip.
Qed.

Lemma only_data_record k m m' mint r : only_data k m m' -> k <> token_account_of mint ->
  record_at m' mint r <-> record_at m mint r.
Proof. intros [Ho Hd] Hk. unfold record_at. by rewrite Ho, Hd by (by apply not_eq_sym). Qed.
Lemma only_data_pool k m m' p : only_data k m m' -> k <> pool_account -> pool_at m' p <-> pool_at m p.
Proof. intros [Ho Hd] Hk. unfold pool_at. by rewrite Ho, Hd by (by apply not_eq_sym). Qed.

(** An SPL transfer leaves the program's own records alone. *)
Lemma spl_moved_record src dst auth n m m' mint r : pid <> spl_token_id -> spl_moved src dst auth n m m' ->
  record_at m' mint r <-> record_at m mint r.
Proof.
  intros Hp Hm. unfold record_at. rewrite (spl_owners _ _ _ _ _ _ Hm).
  destruct (decide (acc_owner (acct m (token_account_of mint)) = pid)) as [Ho|]; [|naive_solver].
  rewrite (spl_others _ _ _ _ _ _ Hm); [done|..]; intros E; apply Hp; rewrite <- Ho, E;
    [by eapply spl_src_owned|by eapply spl_dst_owned].
Qed.
Lemma spl_moved_pool src dst auth n m m' p : pid <> spl_token_id -> spl_moved src dst auth n m m' ->
  pool_at m' p <-> pool_at m p.
Proof.
  intros Hp Hm. unfold pool_at. rewrite (spl_owners _ _ _ _ _ _ Hm).
  destruct (decide (acc_owner (acct m pool_account) = pid)) as [Ho|]; [|naive_solver].
  rewrite (spl_others _ _ _ _ _ _ Hm); [done|..]; intros E; apply Hp; rewrite <- Ho, E;
    [by eapply spl_src_owned|by eapply spl_dst_owned].
Qed.
End SwapFacts.

Ltac swap_facts :=
  repeat match goal with
  | H : load_pool _ _ _ = Ok _ |- _ => apply load_pool_Ok in H; destruct H as (? & ? & ?); subst
  | H : load_token _ _ _ _ = Ok _ |- _ => apply load_token_Ok in H; destruct H as (? & ? & ?); subst
  | H : vault_balance _ _ = Ok _ |- _ => apply vault_balance_Ok in H; destruct H as (? & ? & ? & ?); subst
  | H : require_owner _ _ = Ok _ |- _ => apply require_owner_Ok in H; destruct H
  end.
