(* ===== verification/PoolEffects.v ===== *)
(** The effect of every successful instruction of the swap pool, and the solvency
    of its records: what is stored, what moves, and why each kind of step keeps
    every recorded reserve covered by its vault. *)

From S2P Require Import Prelude.
From S2P Require Import SolanaRuntime.
From S2P Require Import GateTypes.
From S2P Require Import SwapMath.
From S2P Require Import SolanaSwap.

Section PoolEffects.
Context {RT : Runtime} {RL : RuntimeLaws} {SB : SwapBorsh} {SL : SwapBorshLaws}.
Variable pid : pubkey.
Hypothesis pid_not_spl : pid <> spl_token_id.
(** The pool's own account is not also some mint's record. *)
Hypothesis pool_isolated : forall mint, token_account_of pid mint <> pool_account pid.

(** ** Solvency *)

(** The vault a record names is an SPL account of the record's mint that only the
    pool can move, and it holds at least the recorded reserve plus [extra]. *)
Definition vault_backs (m : gmap pubkey account) (r : TokenState) (extra : Z) : Prop :=
  acc_owner (acct m (tk_vault r)) = spl_token_id /\
  exists t, token_at m (tk_vault r) = Some t /\ ta_mint t = tk_mint r /\ ta_owner t = pool_authority pid /\
    ta_delegate t = None /\ ta_close_authority t = None /\ tk_reserve r + extra <= ta_amount t.

Definition listed_record (m : gmap pubkey account) (a : pubkey) (r : TokenState) : Prop :=
  acc_owner (acct m a) = pid /\ borsh_de (acc_data (acct m a)) = Some r /\ tk_listed r = true.

Definition backed (m : gmap pubkey account) (a : pubkey) : Prop :=
  forall r, listed_record m a r -> a = token_account_of pid (tk_mint r) /\ vault_backs m r 0.
Definition solvent (m : gmap pubkey account) : Prop :=
  forall a, a <> pool_account pid -> backed m a.

Lemma listed_record_unique m a r r' : listed_record m a r -> listed_record m a r' -> r = r'.
Proof. intros (_ & H1 & _) (_ & H2 & _). congruence. Qed.
Lemma record_at_listed m mint r : record_at pid m mint r <-> listed_record m (token_account_of pid mint) r.
Proof. done. Qed.
Lemma vault_backs_le m r x y : y <= x -> vault_backs m r x -> vault_backs m r y.
Proof. intros Hle (Ho & t & ? & ? & ? & ? & ? & ?). split; [done|]. exists t. split_and!; done || lia. Qed.
(** Only the named vault's owner and balance matter. *)
Lemma vault_backs_reserve m r k extra : vault_backs m r (k - tk_reserve r + extra) ->
  vault_backs m (with_reserve r k) extra.
Proof.
  intros (Ho & t & ? & ? & ? & ? & ? & Hle). split; [done|]. exists t. simpl. split_and!; try done. lia.
Qed.
Lemma vault_backs_price m r p now extra : vault_backs m r extra -> vault_backs m (with_price r p now) extra.
Proof. done. Qed.

(** The vault's account is untouched. *)
Lemma vault_backs_same m m' r extra :
  acc_owner (acct m' (tk_vault r)) = acc_owner (acct m (tk_vault r)) ->
  acc_data (acct m' (tk_vault r)) = acc_data (acct m (tk_vault r)) ->
  vault_backs m r extra -> vault_backs m' r extra.
Proof. unfold vault_backs, token_at. by intros -> ->. Qed.

(** A store to one of the program's own accounts moves no vault. *)
Lemma vault_backs_only_data k m m' r extra : acc_owner (acct m k) = pid -> only_data k m m' ->
  vault_backs m r extra -> vault_backs m' r extra.
Proof.
  intros Hk [Ho Hd] Hv. apply (vault_backs_same m); [apply Ho| |done]. apply Hd.
  intros E. apply pid_not_spl. rewrite <- Hk, <- E. apply Hv.
Qed.
Lemma backed_only_data k m m' a : acc_owner (acct m k) = pid -> only_data k m m' -> a <> k ->
  backed m a -> backed m' a.
Proof.
  intros Hk Hod Hak Hb r (Ho & Hd & Hl). pose proof Hod as [HO HD]. rewrite HO in Ho. rewrite HD in Hd by done.
  destruct (Hb r) as [? Hv]; [done|]. split; [done|]. by apply (vault_backs_only_data k m).
Qed.

(** An SPL transfer someone other than the pool authorises takes nothing out of
    a vault. *)
Lemma token_balance_Some m k t : token_at m k = Some t -> token_balance m k = ta_amount t.
Proof. intros Ht. unfold token_balance. by rewrite Ht. Qed.
Lemma vault_backs_moved src dst auth n m m' r extra : spl_moved src dst auth n m m' ->
  (src = tk_vault r -> src <> dst -> auth = pool_authority pid -> vault_backs m r (extra + n)) ->
  vault_backs m r extra -> vault_backs m' r extra.
Proof.
  intros Hm Hsrc Hv. destruct (decide (src = tk_vault r /\ src <> dst)) as [[E Hne]|Hn].
  - assert (auth = pool_authority pid) as Ha.
    { destruct Hv as (_ & t & Ht & _ & Hown & Hdel & _).
      rewrite <- E in Ht. destruct (spl_authority _ _ _ _ _ _ Hm t Ht); congruence. }
    specialize (Hsrc E Hne Ha). destruct Hsrc as (Ho & t & Ht & ? & ? & Hdel & ? & Hle).
    split; [by rewrite (spl_owners _ _ _ _ _ _ Hm)|].
    destruct (spl_keeps _ _ _ _ _ _ Hm _ _ Ht) as (t' & Ht' & Eo & Ed & Ec).
    exists t'. pose proof (spl_mints _ _ _ _ _ _ Hm (tk_vault r)) as Emint. rewrite Ht, Ht' in Emint.
    injection Emint as Emint. rewrite Eo, Ec, Emint. split_and!; auto.
    pose proof (spl_debit _ _ _ _ _ _ Hm Hne) as Hb. rewrite E in Hb.
    rewrite (token_balance_Some _ _ _ Ht), (token_balance_Some _ _ _ Ht') in Hb. lia.
  - destruct Hv as (Ho & t & Ht & ? & ? & Hdel & ? & Hle).
    split; [by rewrite (spl_owners _ _ _ _ _ _ Hm)|].
    destruct (spl_keeps _ _ _ _ _ _ Hm _ _ Ht) as (t' & Ht' & Eo & Ed & Ec).
    exists t'. pose proof (spl_mints _ _ _ _ _ _ Hm (tk_vault r)) as Emint. rewrite Ht, Ht' in Emint.
    injection Emint as Emint. rewrite Eo, Ec, Emint. split_and!; auto.
    enough (ta_amount t <= ta_amount t') by lia.
    destruct (decide (tk_vault r = dst)) as [Ed'|Hd].
    + destruct (decide (src = dst)) as [Es|Hs].
      * pose proof (spl_self _ _ _ _ _ _ Hm Es) as Hsame. unfold token_at in *.
        assert (tk_vault r = src) as Ev by congruence. rewrite Ev in *. rewrite Hsame in Ht'.
        assert (t = t') as <- by congruence. lia.
      * pose proof (spl_credit _ _ _ _ _ _ Hm Hs) as Hb. rewrite <- Ed' in Hb.
        rewrite (token_balance_Some _ _ _ Ht), (token_balance_Some _ _ _ Ht') in Hb.
        pose proof (spl_enough _ _ _ _ _ _ Hm). lia.
    + assert (tk_vault r <> src) as Hs.
      { intros E. apply Hn. split; [done|]. by intros E2; apply Hd; rewrite E. }
      unfold token_at in *. rewrite (spl_others _ _ _ _ _ _ Hm) in Ht' by done.
      assert (t = t') as <- by congruence. lia.
Qed.

Lemma listed_record_moved src dst auth n m m' a r : spl_moved src dst auth n m m' ->
  listed_record m' a r <-> listed_record m a r.
Proof.
  intros Hm. unfold listed_record. rewrite (spl_owners _ _ _ _ _ _ Hm).
  destruct (decide (acc_owner (acct m a) = pid)) as [Ho|]; [|naive_solver].
  rewrite (spl_others _ _ _ _ _ _ Hm); [done|..]; intros E; apply pid_not_spl; rewrite <- Ho, E;
    [by eapply spl_src_owned|by eapply spl_dst_owned].
Qed.
(** A transfer into the pool, or between strangers. *)
Lemma solvent_deposit src dst auth n m m' : auth <> pool_authority pid -> spl_moved src dst auth n m m' ->
  solvent m -> solvent m'.
Proof.
  intros Ha Hm Hs a Hna r Hr%(listed_record_moved _ _ _ _ _ _ _ _ Hm). destruct (Hs a Hna r Hr) as [? Hv].
  split; [done|]. eapply vault_backs_moved; [done| |done]. by intros.
Qed.
(** A payout from the vault of the record at [a], whose reserve leaves room for it. *)
Lemma backed_payout src dst auth n m m' a r : spl_moved src dst auth n m m' -> solvent m ->
  a <> pool_account pid -> listed_record m a r -> tk_vault r = src ->
  forall b, b <> pool_account pid -> b <> a -> backed m' b.
Proof.
  intros Hm Hs Ha Hr Hv b Hb Hba rb Hrb%(listed_record_moved _ _ _ _ _ _ _ _ Hm).
  destruct (Hs b Hb rb Hrb) as [Eb Hvb], (Hs a Ha r Hr) as [Ea Hva]. split; [done|].
  eapply vault_backs_moved; [done| |done]. intros Es _ _.
  destruct Hva as (_ & t & Ht & Hmint & _), Hvb as (_ & t' & Ht' & Hmint' & _).
  destruct Hba. rewrite Ea, Eb. f_equal. rewrite Hv, Es in Ht. congruence.
Qed.

(** Storing a record whose vault covers it. *)
Lemma solvent_store a r m m' : a <> pool_account pid -> acc_owner (acct m a) = pid -> only_data a m m' ->
  listed_record m' a r -> a = token_account_of pid (tk_mint r) -> vault_backs m r 0 ->
  (forall b, b <> pool_account pid -> b <> a -> backed m b) -> solvent m'.
Proof.
  intros Ha Ho Hod Hr Ea Hv Hrest b Hb. destruct (decide (b = a)) as [->|Hne].
  - intros r' Hr'. rewrite (listed_record_unique _ _ _ _ Hr' Hr). split; [done|].
    by apply (vault_backs_only_data a m).
  - eapply backed_only_data; eauto.
Qed.
Lemma solvent_pool_store m m' : acc_owner (acct m (pool_account pid)) = pid -> only_data (pool_account pid) m m' ->
  solvent m -> solvent m'.
Proof. intros Ho Hod Hs a Ha. eapply backed_only_data; eauto. Qed.

(** ** Creating a record *)

Lemma create_pda_Ok payer ai sysp seeds bump space s u s' :
  create_pda payer ai sysp pid seeds bump space s = Ok (u, s') ->
  acc_data (acct (accts s) (ai_key ai)) = [] /\ acc_owner (acct (accts s) (ai_key ai)) = system_program_id /\
  acc_owner (acct (accts s') (ai_key ai)) = pid /\
  (forall k, k <> ai_key ai -> acc_owner (acct (accts s') k) = acc_owner (acct (accts s) k) /\
     acc_data (acct (accts s') k) = acc_data (acct (accts s) k)) /\
  clock s' = clock s /\ logs s' = logs s.
Proof.
  unfold create_pda. intros Hc. prog_inv Hc; bool_inv; cbn [accts clock logs] in *.
  match goal with H : (if _ then invoke _ _ else _) s = Ok (_, ?s0) |- _ =>
    assert ((forall k, acc_owner (acct (accts s0) k) = acc_owner (acct (accts s) k) /\
      acc_data (acct (accts s0) k) = acc_data (acct (accts s) k)) /\ clock s0 = clock s /\ logs s0 = logs s)
      as (Ht & ? & ?)
  end.
  { prog_inv Hrun1; [|done]. split; [|done]. by eapply cpi_system_transfer. }
  repeat match goal with
    | H : cpi (SysAllocate _ _) _ _ _ = Ok _ |- _ => apply cpi_system_allocate in H as (?&?&?&?& Hal)
    | H : cpi (SysAssign _ _) _ _ _ = Ok _ |- _ => apply cpi_system_assign in H as (?&?&?& Has)
    end; split_and!; try done. intros k Hk. by rewrite Has, Hal.
Qed.

(** A fresh record for a vault the program has just checked. *)
Lemma check_vault_Ok ai mint tp s u s' : check_vault pid ai mint tp s = Ok (u, s') ->
  s' = s /\ acc_owner (acct (accts s) (ai_key ai)) = tp /\ exists t, token_at (accts s) (ai_key ai) = Some t /\
    ta_mint t = mint /\ ta_owner t = pool_authority pid /\ ta_delegate t = None /\ ta_close_authority t = None.
Proof.
  unfold check_vault, pool_authority, token_at. intros Hc.
  destruct (find_program_address pool_authority_seeds pid) as [au b]. prog_inv Hc. bool_inv.
  split_and!; try done. eexists. split; [done|]. done.
Qed.
Lemma backed_created k m m' a : acc_owner (acct m k) = system_program_id ->
  (forall k', k' <> k -> acc_owner (acct m' k') = acc_owner (acct m k') /\
     acc_data (acct m' k') = acc_data (acct m k')) ->
  a <> k -> backed m a -> backed m' a.
Proof.
  intros Ho Hsame Ha Hb r (Hr1 & Hr2 & Hl). destruct (Hsame a Ha) as [E1 E2]. rewrite E1, E2 in *.
  destruct (Hb r) as [? Hv]; [done|]. split; [done|].
  assert (tk_vault r <> k) as Hk. { intros E. apply system_not_spl. rewrite <- Ho, <- E. apply Hv. }
  destruct (Hsame _ Hk). by apply (vault_backs_same m).
Qed.
Lemma vault_backs_created k m m' r : acc_owner (acct m k) = system_program_id ->
  (forall k', k' <> k -> acc_owner (acct m' k') = acc_owner (acct m k') /\
     acc_data (acct m' k') = acc_data (acct m k')) ->
  vault_backs m r 0 -> vault_backs m' r 0.
Proof.
  intros Ho Hsame Hv.
  assert (tk_vault r <> k) as Hk. { intros E. apply system_not_spl. rewrite <- Ho, <- E. apply Hv. }
  destruct (Hsame _ Hk). by apply (vault_backs_same m).
Qed.

(** Every store of the program is well-formed and listed: [store_record] in the
    form the invariant uses. *)
Lemma store_listed ai r s u s' : TokenState_wf r -> tk_listed r = true ->
  acc_owner (acct (accts s) (ai_key ai)) = pid -> swap_store ai r s = Ok (u, s') ->
  listed_record (accts s') (ai_key ai) r /\ only_data (ai_key ai) (accts s) (accts s') /\
  clock s' = clock s /\ logs s' = logs s.
Proof.
  intros Hwf Hl Ho (_ & Hd & Hoth & Hc & Hg)%swap_store_Ok. split_and!; try done.
  split_and!; [by rewrite (proj1 Hoth)| |done]. rewrite Hd. by apply borsh_roundtrip.
Qed.

(** ** A swap *)

(** [m'] is [m] with the record [r] written into the program's account [a]. *)
Definition stores (m : gmap pubkey account) (a : pubkey) (r : TokenState) (m' : gmap pubkey account) : Prop :=
  acc_owner (acct m a) = pid /\ only_data a m m' /\ listed_record m' a r.

Lemma swap_store_stores ai r s u s' : TokenState_wf r -> tk_listed r = true ->
  acc_owner (acct (accts s) (ai_key ai)) = pid -> swap_store ai r s = Ok (u, s') ->
  stores (accts s) (ai_key ai) r (accts s') /\ clock s' = clock s /\ logs s' = logs s.
Proof. intros ? ? ? (? & ? & ? & ?)%store_listed; done. Qed.
Lemma stores_listed_ne m a r m' b r' : stores m a r m' -> b <> a -> listed_record m b r' -> listed_record m' b r'.
Proof. intros (_ & [Ho Hd] & _) Hb. unfold listed_record. by rewrite Ho, Hd. Qed.

(** What a successful swap did: the user pays into the vault ([mu]), both records
    are rewritten ([m1], [m2]) and the pool pays out. *)
Record swap_effect (accounts : list account_info) (amount_in min_amount_out : Z) (s s' : ledger) (pool : PoolState)
    (user user_in user_out mint_in mint_out : pubkey) (rec_in rec_out : TokenState) (out : Z)
    (mu m1 m2 : gmap pubkey account) : Prop := {
  se_accounts : take 12 (ai_key <$> accounts) =
    [pool_account pid; user; token_account_of pid mint_in; token_account_of pid mint_out; user_in; user_out;
     tk_vault rec_in; tk_vault rec_out; mint_in; mint_out; pool_authority pid; spl_token_id];
  se_pool : pool_at pid (accts s) pool;
  se_unpaused : pl_paused pool = false;
  se_in : record_at pid (accts s) mint_in rec_in;
  se_out : record_at pid (accts s) mint_out rec_out;
  se_distinct : mint_in <> mint_out;
  se_fresh : price_is_fresh pool rec_in (clock s) = true /\ price_is_fresh pool rec_out (clock s) = true;
  se_paid : spl_moved user_in (tk_vault rec_in) user amount_in (accts s) mu;
  se_nonself : user_in <> tk_vault rec_in;
  se_quote : amount_out amount_in (tk_price rec_in) (tk_decimals rec_in) (tk_price rec_out)
    (tk_decimals rec_out) (pl_fee_bps pool) = Some out;
  se_bounds : 0 < amount_in /\ 0 < out /\ min_amount_out <= out <= tk_reserve rec_out;
  se_room : tk_reserve rec_in + amount_in < 2 ^ 64;
  se_credited : stores mu (token_account_of pid mint_in)
    (with_reserve rec_in (tk_reserve rec_in + amount_in)) m1;
  se_debited : stores m1 (token_account_of pid mint_out)
    (with_reserve rec_out (tk_reserve rec_out - out)) m2;
  se_got : spl_moved (tk_vault rec_out) user_out (pool_authority pid) out m2 (accts s');
  se_clock : clock s' = clock s;
  se_event : logs s' = logs s ++ [LogData (swapped_log_fields (MkSwappedEvent 1 user mint_in mint_out
      amount_in out user_out));
    LogMsg ("swapped " +:+ pretty amount_in +:+ " -> " +:+ pretty out)];
}.

Lemma with_reserve_wf r x : TokenState_wf r -> is_u 64 x -> TokenState_wf (with_reserve r x).
Proof. unfold TokenState_wf. simpl. tauto. Qed.
Lemma quote_of_records m1 m2 m3 k1 k2 r1 r2 p n : record_at pid m1 k1 r1 -> record_at pid m2 k2 r2 ->
  pool_at pid m3 p -> is_u 64 n ->
  quote_wf n (tk_price r1) (tk_decimals r1) (tk_price r2) (tk_decimals r2) (pl_fee_bps p).
Proof.
  intros (?&?&?&?&?)%record_at_wf (?&?&?&?&?)%record_at_wf (?&?&?&?)%pool_at_wf ?. by constructor.
Qed.
(** The balance the program sees arrive is the amount sent, if anything arrives. *)
Lemma received_is_amount src v auth n m m' t t' r : spl_moved src v auth n m m' ->
  token_at m v = Some t -> token_at m' v = Some t' -> checked_sub 64 (ta_amount t') (ta_amount t) = Some r ->
  r <> 0 -> r = n /\ src <> v.
Proof.
  intros Hm Ht Ht' [-> _]%u_checked_Some Hr. destruct (decide (src = v)) as [->|Hne].
  - pose proof (spl_self _ _ _ _ _ _ Hm eq_refl) as Hs. unfold token_at in *. rewrite Hs in Ht'.
    assert (t = t') as <- by congruence. lia.
  - pose proof (spl_credit _ _ _ _ _ _ Hm Hne) as Hc. 
    rewrite (token_balance_Some _ _ _ Ht), (token_balance_Some _ _ _ Ht') in Hc. split; [lia|done].
Qed.
Lemma moved_owner src dst auth n m m' k : spl_moved src dst auth n m m' -> acc_owner (acct m k) = pid ->
  acc_owner (acct m' k) = pid.
Proof. intros Hm. by rewrite (spl_owners _ _ _ _ _ _ Hm). Qed.

Lemma quote_u64 n p1 d1 p2 d2 f r : quote_wf n p1 d1 p2 d2 f -> amount_out n p1 d1 p2 d2 f = Some r -> is_u 64 r.
Proof. intros Hq Hr. by destruct (amount_out_Some _ _ _ _ _ _ _ Hq Hr) as (?&?&?&?&?&?&?&?&?&?&?&?). Qed.
Lemma process_swap_Ok accounts amount_in min_amount_out s u s' : is_u 64 amount_in ->
  process_swap pid accounts amount_in min_amount_out s = Ok (u, s') ->
  exists pool user user_in user_out mint_in mint_out rec_in rec_out out mu m1 m2,
    swap_effect accounts amount_in min_amount_out s s' pool (ai_key user) user_in user_out mint_in mint_out
      rec_in rec_out out mu m1 m2 /\ user ∈ accounts /\ is_signer user = true.
Proof using RL SL pid_not_spl.
  clear pool_isolated.
  intros Hu Hp. unfold process_swap in Hp. prog_inv Hp. swap_facts. bool_inv. swap_facts. cbn [accts clock logs] in *.
  match goal with Hs : cpi _ _ _ (accts s) = Ok _, Hq : token_at (accts s) _ = Some _, Hq' : token_at _ _ = Some _,
    Hr : checked_sub _ _ _ = Some _ |- _ =>
    apply cpi_spl_transfer_checked in Hs as [_ Hin];
    destruct (received_is_amount _ _ _ _ _ _ _ _ _ Hin Hq Hq' Hr) as [-> Hself]; [done|] end.
  match goal with Ho : amount_out _ _ _ _ _ _ = Some ?o |- _ =>
    assert (is_u 64 o) as Hout; [refine (quote_u64 _ _ _ _ _ _ _ _ Ho); by eapply quote_of_records|] end.
  match goal with Hr : checked_add _ _ _ = Some _ |- _ => apply u_checked_Some in Hr as [-> Hroom] end.
  match goal with Hi : record_at pid _ _ ?ri, Ho : record_at pid _ _ ?ro, H1 : swap_store _ (with_reserve ?ri _) _ = _,
      H2 : swap_store _ (with_reserve ?ro _) _ = _ |- _ =>
    pose proof (record_at_wf _ _ _ _ Hi) as Hwi; pose proof (record_at_wf _ _ _ _ Ho) as Hwo;
    pose proof Hi as (Hoi & _ & Hli); pose proof Ho as (Hoo & _ & Hlo);
    apply swap_store_stores in H1 as (Hs1 & Hc1 & Hg1);
      [|by apply with_reserve_wf|done|eapply moved_owner; [done|]; congruence]; cbn [accts clock logs] in *;
    apply swap_store_stores in H2 as (Hs2 & Hc2 & Hg2);
      [|apply with_reserve_wf; [done|unfold TokenState_wf, is_u in *; lia]|done
       |rewrite (proj1 (proj1 (proj2 Hs1))); eapply moved_owner; [done|]; congruence] end.
  match goal with Hs : cpi _ _ _ (accts _) = Ok _ |- _ => apply cpi_spl_transfer_checked in Hs as [_ Hpay] end.
  unfold is_u, TokenState_wf in *.
  assert (Hau : fst (find_program_address pool_authority_seeds pid) = pool_authority pid) by done.
  match goal with Hi : record_at pid _ ?mi ?ri, Ho : record_at pid _ ?mo ?ro, Hs1 : stores _ _ (with_reserve ?ri _) ?m1,
      Hs2 : stores _ _ (with_reserve ?ro _) ?m2, Hm : spl_moved ?ui _ (ai_key ?us) _ (accts s) ?mu,
      He : find_program_address pool_authority_seeds pid = _, Hp : spl_moved _ ?uo _ ?o ?m2 _ |- _ =>
    rewrite He in Hau; simpl in Hau;
    eexists _, us, ui, uo, mi, mo, ri, ro, o, mu, m1, m2; split; [|split; [set_solver|done]] end.
  constructor; cbn [accts clock logs]; try done; eauto; try congruence; try lia.
  { simpl. rewrite take_0. congruence. }
  match goal with H1 : logs _ = logs s, H2 : logs _ = logs _ |- _ => by rewrite H2, H1, <- app_assoc end.
Qed.

(** ** Each kind of step keeps the pool solvent *)

Lemma solvent_stores m a r m' : a <> pool_account pid -> a = token_account_of pid (tk_mint r) ->
  stores m a r m' -> vault_backs m r 0 -> (forall b, b <> pool_account pid -> b <> a -> backed m b) -> solvent m'.
Proof. intros Ha Ea (Ho & Hod & Hr). by eapply solvent_store. Qed.
Lemma vault_backs_stores m a r m' r' x : stores m a r m' -> vault_backs m r' x -> vault_backs m' r' x.
Proof. intros (Ho & Hod & _). by apply (vault_backs_only_data a). Qed.
(** What arrived in a vault can be added to its record's reserve. *)
Lemma vault_backs_received src dst auth n m m' r x : auth <> pool_authority pid ->
  spl_moved src dst auth n m m' -> vault_backs m r x ->
  vault_backs m' r (x + (token_balance m' (tk_vault r) - token_balance m (tk_vault r))).
Proof.
  intros Ha Hm Hv. pose proof Hv as (_ & t & Ht & _ & _ & _ & _ & Hle).
  apply (vault_backs_moved _ _ _ _ _ _ _ _ Hm) in Hv as (Ho & t' & Ht' & ? & ? & ? & ? & _); [|by intros].
  split; [done|]. exists t'. split_and!; try done.
  rewrite (token_balance_Some _ _ _ Ht), (token_balance_Some _ _ _ Ht'). lia.
Qed.

(** A payout from the vault of a record that has set the amount aside. *)
Lemma solvent_payout a r dst n m m' : a <> pool_account pid -> solvent m -> listed_record m a r ->
  vault_backs m r n -> spl_moved (tk_vault r) dst (pool_authority pid) n m m' -> solvent m'.
Proof.
  intros Ha Hs Hr Hv Hm b Hb. destruct (decide (b = a)) as [->|Hne]; [|by eapply (backed_payout _ _ _ _ _ _ a r)].
  intros r' Hr'%(listed_record_moved _ _ _ _ _ _ _ _ Hm). rewrite (listed_record_unique _ _ _ _ Hr' Hr).
  split; [by apply (Hs a Ha)|]. eapply vault_backs_moved; [done| |].
  - intros _ _ _. by rewrite Z.add_0_l.
  - eapply vault_backs_le; [|done]. apply (spl_enough _ _ _ _ _ _ Hm).
Qed.

Lemma swap_solvent accounts n mn s s' pool user ui uo mi mo ri ro out mu m1 m2 : user <> pool_authority pid ->
  swap_effect accounts n mn s s' pool user ui uo mi mo ri ro out mu m1 m2 -> solvent (accts s) -> solvent (accts s').
Proof.
  intros Hu He Hs. pose proof (se_paid _ _ _ _ _ _ _ _ _ _ _ _ _ _ _ _ _ He) as Hin.
  pose proof (se_credited _ _ _ _ _ _ _ _ _ _ _ _ _ _ _ _ _ He) as H1.
  pose proof (se_debited _ _ _ _ _ _ _ _ _ _ _ _ _ _ _ _ _ He) as H2.
  pose proof (se_got _ _ _ _ _ _ _ _ _ _ _ _ _ _ _ _ _ He) as Hout.
  destruct (Hs _ (pool_isolated mi) _ (se_in _ _ _ _ _ _ _ _ _ _ _ _ _ _ _ _ _ He)) as [Ei Hvi].
  destruct (Hs _ (pool_isolated mo) _ (se_out _ _ _ _ _ _ _ _ _ _ _ _ _ _ _ _ _ He)) as [Eo Hvo].
  assert (solvent mu) as Hsu by (by eapply solvent_deposit).
  assert (solvent m1) as Hs1.
  { apply (solvent_stores mu (token_account_of pid mi) (with_reserve ri (tk_reserve ri + n))); [apply pool_isolated|simpl; exact Ei|exact H1| |by intros; apply Hsu].
    apply vault_backs_reserve. eapply vault_backs_le; [|by eapply (vault_backs_received _ _ _ _ _ _ ri 0)].
    rewrite (spl_credit _ _ _ _ _ _ Hin); [lia|]. exact (se_nonself _ _ _ _ _ _ _ _ _ _ _ _ _ _ _ _ _ He). }
  assert (vault_backs m1 (with_reserve ro (tk_reserve ro - out)) out) as Hv1.
  { apply vault_backs_reserve. eapply (vault_backs_stores mu); [done|].
    eapply vault_backs_moved; [done|by intros|]. by eapply vault_backs_le; [|done]; lia. }
  eapply (solvent_payout (token_account_of pid mo) (with_reserve ro (tk_reserve ro - out)));
    [apply pool_isolated| | | |exact Hout].
  - apply (solvent_stores m1 (token_account_of pid mo) (with_reserve ro (tk_reserve ro - out))); [apply pool_isolated|simpl; exact Eo|exact H2| |by intros; apply Hs1].
    eapply vault_backs_le; [|done]. apply (spl_enough _ _ _ _ _ _ Hout).
  - apply H2.
  - by eapply vault_backs_stores.
Qed.

(** ** Liquidity *)

Record liquidity_effect (s : ledger) (pool : PoolState) (owner : account_info) (mint : pubkey) (r : TokenState)
    (amount : Z) : Prop := {
  le_pool : pool_at pid (accts s) pool;
  le_owner : ai_key owner = pl_owner pool;
  le_signed : is_signer owner = true;
  le_record : record_at pid (accts s) mint r;
  le_amount : 0 < amount;
}.

Lemma process_seed_Ok accounts amount s u s' : is_u 64 amount ->
  process_liquidity pid accounts amount true s = Ok (u, s') ->
  exists pool owner mint r from mu, liquidity_effect s pool owner mint r amount /\ owner ∈ accounts /\
    spl_moved from (tk_vault r) (ai_key owner) amount (accts s) mu /\
    stores mu (token_account_of pid mint)
      (with_reserve r (tk_reserve r + (token_balance mu (tk_vault r) - token_balance (accts s) (tk_vault r))))
      (accts s') /\ clock s' = clock s.
Proof using RL SL pid_not_spl.
  clear pool_isolated.
  intros Hu Hp. unfold process_liquidity in Hp. prog_inv Hp. swap_facts. bool_inv. 
  match goal with H : (invoke _ _ ≫= _) _ = _ |- _ => prog_inv H end. swap_facts. cbn [accts clock logs] in *.
  match goal with Hr : checked_add _ _ _ = Some _ |- _ => apply u_checked_Some in Hr as [-> Hroom] end.
  match goal with Hr : checked_sub _ _ _ = Some _ |- _ => apply u_checked_Some in Hr as [-> _] end.
  match goal with Hs : cpi _ _ _ (accts s) = Ok _ |- _ => apply cpi_spl_transfer_checked in Hs as [_ Hin] end.
  match goal with Hr : record_at pid _ _ _ |- _ =>
    pose proof (record_at_wf _ _ _ _ Hr) as Hw; pose proof Hr as (Ho & _ & Hl) end.
  apply swap_store_stores in Hp as (Hst & Hc & _);
    [|by apply with_reserve_wf|done|eapply moved_owner; [done|]; congruence]. cbn [accts clock logs] in *.
  repeat match goal with Hq : token_at _ _ = Some _ |- _ => apply token_balance_Some in Hq end.
  do 6 eexists. split; [|split; [|split; [|split; [|exact Hc]]]].
  - constructor; eauto. unfold is_u in Hu. lia.
  - set_solver.
  - match goal with E : tk_vault _ = _ |- _ => rewrite E end. exact Hin.
  - match goal with E : tk_vault _ = _, E' : ai_key _ = token_account_of _ _ |- _ => rewrite E, <- E' end.
    repeat match goal with E : token_balance _ _ = ta_amount _ |- _ => rewrite E end. exact Hst.
Qed.

Lemma process_withdraw_Ok accounts amount s u s' : is_u 64 amount ->
  process_liquidity pid accounts amount false s = Ok (u, s') ->
  exists pool owner mint r to mu, liquidity_effect s pool owner mint r amount /\ amount <= tk_reserve r /\
    spl_moved (tk_vault r) to (pool_authority pid) amount (accts s) mu /\
    stores mu (token_account_of pid mint) (with_reserve r (tk_reserve r - amount)) (accts s') /\
    clock s' = clock s.
Proof using RL SL pid_not_spl.
  clear pool_isolated.
  intros Hu Hp. unfold process_liquidity in Hp.
  assert (Hau : fst (find_program_address pool_authority_seeds pid) = pool_authority pid) by done.
  prog_inv Hp. swap_facts. bool_inv.
  match goal with H : (ensure _ _ ≫= _) _ = _ |- _ => prog_inv H end. bool_inv. simpl in Hau. cbn [accts clock logs] in *.
  match goal with Hs : cpi _ _ _ (accts _) = Ok _ |- _ => apply cpi_spl_transfer_checked in Hs as [_ Hin] end.
  match goal with Hr : record_at pid _ _ _ |- _ =>
    pose proof (record_at_wf _ _ _ _ Hr) as Hw; pose proof Hr as (Ho & _ & Hl) end.
  apply swap_store_stores in Hp as (Hst & Hc & _);
    [|apply with_reserve_wf; [done|unfold TokenState_wf, is_u in *; lia]|done
     |eapply moved_owner; [done|]; congruence]. cbn [accts clock logs] in *.
  do 6 eexists. split; [|split; [|split; [|split; [|exact Hc]]]].
  - constructor; eauto. unfold is_u in Hu. lia.
  - done.
  - match goal with E : tk_vault _ = _ |- _ => rewrite E end. rewrite <- Hau. exact Hin.
  - match goal with E' : ai_key _ = token_account_of _ _ |- _ => rewrite <- E' end. exact Hst.
Qed.

Lemma seed_solvent owner m mint r from amount mu m' : owner <> pool_authority pid -> solvent m ->
  record_at pid m mint r -> spl_moved from (tk_vault r) owner amount m mu ->
  stores mu (token_account_of pid mint)
    (with_reserve r (tk_reserve r + (token_balance mu (tk_vault r) - token_balance m (tk_vault r)))) m' ->
  solvent m'.
Proof.
  intros Ha Hs Hr Hin Hst. destruct (Hs _ (pool_isolated mint) _ Hr) as [Ea Hv].
  assert (solvent mu) as Hsu by (by eapply solvent_deposit).
  eapply solvent_stores; [apply pool_isolated| |exact Hst| |by intros; apply Hsu]; [done|].
  apply vault_backs_reserve. eapply vault_backs_le; [|by eapply (vault_backs_received _ _ _ _ _ _ r 0)]. lia.
Qed.
Lemma withdraw_solvent m mint r to amount mu m' : solvent m -> record_at pid m mint r ->
  spl_moved (tk_vault r) to (pool_authority pid) amount m mu ->
  stores mu (token_account_of pid mint) (with_reserve r (tk_reserve r - amount)) m' -> solvent m'.
Proof.
  intros Hs Hr Hm Hst. destruct (Hs _ (pool_isolated mint) _ Hr) as [Ea Hv].
  eapply solvent_stores; [apply pool_isolated| |exact Hst| |]; [done| |].
  - eapply vault_backs_moved; [done| |].
    + intros _ _ _. apply vault_backs_reserve. eapply vault_backs_le; [|done]. lia.
    + apply vault_backs_reserve. eapply vault_backs_le; [|done]. pose proof (spl_enough _ _ _ _ _ _ Hm). lia.
  - eapply backed_payout; [done|done|apply pool_isolated|exact Hr|done].
Qed.

(** ** Prices *)

(** What a successful [SetPriceFrom] did, and the guards it passed. *)
Record price_effect (accounts : list account_info) (expected price : Z) (s s' : ledger) (pool : PoolState)
    (r : TokenState) : Prop := {
  pe_account : ai_key <$> accounts !! 2%nat = Some (token_account_of pid (tk_mint r));
  pe_pool : pool_at pid (accts s) pool;
  pe_oracle : exists oracle, oracle ∈ accounts /\ ai_key oracle = pl_oracle pool /\ is_signer oracle = true;
  pe_record : record_at pid (accts s) (tk_mint r) r;
  pe_not_hub : tk_mint r <> pl_hub_mint pool;
  pe_price : 0 < price;
  pe_expected : tk_price r = expected;
  pe_interval : tk_last_price_update r = 0 \/
    i_saturating_add 64 (tk_last_price_update r) (pl_min_price_update_interval pool) <= clock s;
  pe_step : Z.abs (price - tk_price r) <= tk_price r * pl_max_price_deviation_bps pool / BPS_DENOM;
  pe_stored : stores (accts s) (token_account_of pid (tk_mint r)) (with_price r price (clock s)) (accts s');
  pe_clock : clock s' = clock s;
}.

Lemma process_set_price_Ok accounts expected price s u s' : is_i 64 (clock s) -> is_u 128 price ->
  process_set_price pid accounts expected price s = Ok (u, s') ->
  exists pool r, price_effect accounts expected price s s' pool r.
Proof using RL SL pid_not_spl.
  clear pool_isolated.
  intros Hck Hu Hp. unfold process_set_price in Hp. prog_inv Hp. swap_facts. bool_inv. cbn [accts clock logs] in *.
  match goal with Hr : record_at pid _ (tk_mint ?r) ?r', Hd : borsh_de _ = Some ?r, Hk : ai_key _ = _ |- _ =>
    assert (r' = r) as -> by (destruct Hr as (_ & Hd' & _); rewrite <- Hk in Hd'; congruence) end.
  match goal with Hr : record_at pid _ _ _ |- _ =>
    pose proof (record_at_wf _ _ _ _ Hr) as (?&?&?&?&?); pose proof Hr as (Ho & _ & Hl) end.
  match goal with Hq : pool_at pid _ _ |- _ => pose proof (pool_at_wf _ _ _ Hq) as (?&?&?&?) end.
  match goal with Hm : mul_div_floor _ _ _ = Some _ |- _ =>
    apply mul_div_floor_Some in Hm as (_ & -> & _); [|done|by apply (is_u_widen 16)|done] end.
  apply swap_store_stores in Hp as (Hst & Hc & _); [|done|done|cbn [accts]; congruence]. cbn [accts clock logs] in *.
  do 2 eexists. constructor; eauto.
  - simpl. congruence.
  - eexists. split; [|done]. set_solver.
  - unfold is_u in Hu. lia.
  - match goal with Hi : _ && _ = false |- _ => apply andb_false_iff in Hi as [Hi|Hi]; bool_inv; auto end.
  - match goal with Hd : (if ?a <? ?b then _ else _) <= _ |- _ =>
      destruct (Z.ltb_spec a b); lia end.
  - match goal with E' : ai_key _ = token_account_of _ _ |- _ => rewrite <- E' end. exact Hst.
Qed.

Lemma price_solvent accounts expected price s s' pool r :
  price_effect accounts expected price s s' pool r -> solvent (accts s) -> solvent (accts s').
Proof.
  intros He Hs. destruct (Hs _ (pool_isolated _) _ (pe_record _ _ _ _ _ _ _ He)) as [Ea Hv].
  eapply solvent_stores; [apply pool_isolated| |exact (pe_stored _ _ _ _ _ _ _ He)| |by intros; apply Hs]; done.
Qed.

(** ** The pool's parameters *)

(** The ranges the administrative checks enforce. *)
Record pool_ok (p : PoolState) : Prop := {
  po_fee : pl_fee_bps p <= MAX_FEE_BPS;
  po_deviation : 1 <= pl_max_price_deviation_bps p <= BPS_DENOM;
  po_interval : 0 <= pl_min_price_update_interval p;
  po_age : 0 < pl_max_price_age p;
}.
Definition Role_wf (r : Role) : Prop :=
  match r with
  | RoleGuardian _ | RoleOracle _ => True
  | RoleFee n | RoleMaxPriceDeviation n => is_u 16 n
  | RoleMaxPriceAge n | RoleMinPriceUpdateInterval n => is_i 64 n
  end.
Lemma check_fee_Ok f u : check_fee_bps f = Ok u <-> f <= MAX_FEE_BPS.
Proof. unfold check_fee_bps. rewrite require_Ok, negb_true_iff, Z.ltb_ge. done. Qed.
Lemma check_deviation_Ok b u : is_u 16 b -> check_deviation_bps b = Ok u <-> 1 <= b <= BPS_DENOM.
Proof.
  unfold check_deviation_bps, is_u. intros Hb. rewrite require_Ok, negb_true_iff, orb_false_iff, Z.eqb_neq, Z.ltb_ge. lia.
Qed.
Lemma apply_role_Ok p r p' : PoolState_wf p -> Role_wf r -> apply_role p r = Ok p' ->
  PoolState_wf p' /\ (pool_ok p -> pool_ok p') /\ pl_owner p' = pl_owner p /\ pl_hub_mint p' = pl_hub_mint p /\
  pl_paused p' = pl_paused p.
Proof.
  intros (?&?&?&?) Hr Ha. destruct r; unfold apply_role in Ha; simpl in Hr; prog_inv Ha; bool_inv;
    repeat match goal with
    | H : check_fee_bps _ = Ok _ |- _ => apply check_fee_Ok in H
    | H : check_deviation_bps _ = Ok _ |- _ => apply check_deviation_Ok in H; [|done]
    end; (split_and!; [done|intros []; constructor; simpl; (done || lia)|done..]).
Qed.

(** A change of the pool's own record: who may make it and what it may change. *)
Record pool_change (accounts : list account_info) (s s' : ledger) (p p' : PoolState)
    : Prop := {
  pc_before : pool_at pid (accts s) p;
  pc_after : pool_at pid (accts s') p';
  pc_only : only_data (pool_account pid) (accts s) (accts s');
  pc_ok : pool_ok p -> pool_ok p';
  pc_owner : pl_owner p' = pl_owner p;
  pc_hub : pl_hub_mint p' = pl_hub_mint p;
  pc_signer : exists who, who ∈ accounts /\ is_signer who = true /\
    (ai_key who = pl_owner p \/
     ai_key who = pl_guardian p /\ pl_guardian p <> pubkey_default /\ p' = pool_with_paused p true);
  pc_clock : clock s' = clock s;
}.

Lemma swap_set_paused_Ok accounts b s u s' : swap_set_paused pid accounts b s = Ok (u, s') ->
  exists p, pool_change accounts s s' p (pool_with_paused p b).
Proof using RL SL pid_not_spl.
  clear pool_isolated.
  intros Hp. unfold swap_set_paused in Hp. prog_inv Hp. swap_facts.
  match goal with Hq : pool_at pid _ _ |- _ => pose proof (pool_at_wf _ _ _ Hq) as Hw; pose proof (proj1 Hq) end.
  pose proof (swap_store_Ok _ _ _ _ _ Hp) as (_ & _ & _ & Hc & _).
  apply (store_pool pid) in Hp as [Hp Ho]; [|done..]. eexists. constructor; eauto.
  - intros []. by constructor.
  - eexists. split; [|split; [done|]]; [set_solver|]. destruct b; bool_inv; auto.
    match goal with H : _ || _ = true |- _ => apply orb_true_iff in H as [H|H]; bool_inv; auto end.
Qed.
Lemma process_set_role_Ok accounts r s u s' : Role_wf r -> process_set_role pid accounts r s = Ok (u, s') ->
  exists p p', pool_change accounts s s' p p' /\ apply_role p r = Ok p' /\
    exists who, who ∈ accounts /\ is_signer who = true /\ ai_key who = pl_owner p.
Proof using RL SL pid_not_spl.
  clear pool_isolated.
  intros Hr Hp. unfold process_set_role in Hp. prog_inv Hp. swap_facts.
  match goal with Hq : pool_at pid _ _ |- _ => pose proof (pool_at_wf _ _ _ Hq) as Hw; pose proof (proj1 Hq) end.
  match goal with Ha : apply_role _ _ = Ok _ |- _ => pose proof (apply_role_Ok _ _ _ Hw Hr Ha) as (?&?&?&?&?) end.
  pose proof (swap_store_Ok _ _ _ _ _ Hp) as (_ & _ & _ & Hc & _).
  apply (store_pool pid) in Hp as [Hp Ho]; [|done..].
  do 2 eexists. split; [|split; [done|]].
  - constructor; eauto. eexists. split; [|split; [done|by left]]. set_solver.
  - eexists. split; [|split; [done|done]]. set_solver.
Qed.

(** ** Listing and initialising *)

(** A record came to exist at [a]; nothing else changed. *)
Record creates (m : gmap pubkey account) (a : pubkey) (r : TokenState) (m' : gmap pubkey account) : Prop := {
  cr_fresh : acc_data (acct m a) = [] /\ acc_owner (acct m a) = system_program_id;
  cr_record : listed_record m' a r;
  cr_others : forall k, k <> a -> acc_owner (acct m' k) = acc_owner (acct m k) /\
    acc_data (acct m' k) = acc_data (acct m k);
}.
Lemma create_store_creates payer ai sysp seeds bump space s u s1 r u' s' :
  create_pda payer ai sysp pid seeds bump space s = Ok (u, s1) -> TokenState_wf r -> tk_listed r = true ->
  swap_store ai r s1 = Ok (u', s') -> creates (accts s) (ai_key ai) r (accts s') /\ clock s' = clock s.
Proof.
  intros (Hd & Ho & Ho' & Hoth & Hc & _)%create_pda_Ok Hw Hl Hst.
  apply swap_store_stores in Hst as ((_ & [HO HD] & Hr) & Hc' & _); [|done..]. split; [|congruence].
  constructor; [done|done|]. intros k Hk. rewrite HO, HD by done. by apply Hoth.
Qed.
Lemma creates_solvent m a r m' : a = token_account_of pid (tk_mint r) -> creates m a r m' -> solvent m ->
  vault_backs m r 0 -> solvent m'.
Proof.
  intros Ea [[_ Ho] Hr Hoth] Hs Hv b Hb. destruct (decide (b = a)) as [->|Hne].
  - intros r' Hr'. rewrite (listed_record_unique _ _ _ _ Hr' Hr). split; [done|]. by eapply vault_backs_created.
  - eapply backed_created; eauto.
Qed.

Lemma checked_vault_backs ai mint tp s u s' r : check_vault pid ai mint tp s = Ok (u, s') -> tp = spl_token_id ->
  tk_mint r = mint -> tk_vault r = ai_key ai -> tk_reserve r = 0 -> vault_backs (accts s) r 0.
Proof.
  intros (_ & Ho & t & Ht & ? & ? & ? & ?)%check_vault_Ok -> <- Ev E0. unfold vault_backs. rewrite Ev, E0.
  split; [done|]. exists t. split_and!; try done. apply spl_amount_u64 in Ht. unfold is_u in Ht. lia.
Qed.
Lemma process_list_token_Ok accounts price s u s' : is_i 64 (clock s) -> is_u 128 price ->
  process_list_token pid accounts price s = Ok (u, s') ->
  exists pool owner r, pool_at pid (accts s) pool /\ owner ∈ accounts /\ is_signer owner = true /\
    ai_key owner = pl_owner pool /\ tk_price r = price /\ 0 < price /\ tk_reserve r = 0 /\
    creates (accts s) (token_account_of pid (tk_mint r)) r (accts s') /\ vault_backs (accts s) r 0 /\
    clock s' = clock s.
Proof using RL SL pid_not_spl.
  clear pool_isolated.
  intros Hck Hu Hp. unfold process_list_token in Hp. prog_inv Hp. swap_facts. bool_inv. 
  match goal with Hc : check_vault _ _ _ _ _ = Ok _ |- _ =>
    pose proof (fun r => checked_vault_backs _ _ _ _ _ _ r Hc) as Hv; apply check_vault_Ok in Hc as [-> _] end.
  match goal with Hd : spl_mint_unpack _ = Some _ |- _ => apply spl_mint_decimals_u8 in Hd end.
  match goal with Hc : create_pda _ _ _ _ _ _ _ _ = Ok _, Hst : swap_store _ ?r _ = Ok _ |- _ =>
    pose proof (create_pda_Ok _ _ _ _ _ _ _ _ _ Hc) as (_ & _ & _ & _ & Hck' & _);
    eapply create_store_creates in Hst as [Hcr Hc']; [|exact Hc| |done]; [|unfold TokenState_wf; simpl; rewrite Hck'; done];
    eexists _, _, r end.
  split_and!; cbn [accts clock]; try done; eauto.
  - set_solver.
  - unfold is_u in Hu. lia.
  - unfold token_account_of. simpl. match goal with E : find_program_address _ _ = _ |- _ => rewrite E end. simpl. congruence.
Qed.

(** The hub record handed to [Init] is at the hub mint's record address. The code
    leaves this to the runtime, which lets the program allocate that account only
    with the signature of that address. *)
Definition hub_record_named (accounts : list account_info) : Prop :=
  forall mint rec, accounts !! 2%nat = Some mint -> accounts !! 4%nat = Some rec ->
    ai_key rec = token_account_of pid (ai_key mint).

Record init_effect (accounts : list account_info) (args : InitPoolArgs) (s s' : ledger) (payer : account_info)
    (p : PoolState) (r : TokenState) (m : gmap pubkey account) : Prop := {
  ie_payer : payer ∈ accounts /\ is_signer payer = true;
  ie_authority : exists upgrade, bincode_loader_state (acc_data (acct (accts s)
      (fst (find_program_address [arr_bytes pid] bpf_loader_upgradeable_id)))) = Some (ProgramData upgrade) /\
    upgrade = Some (ai_key payer);
  ie_pool : p = MkPoolState (ai_key payer)
    (if bool_decide (ip_oracle args = pubkey_default) then ai_key payer else ip_oracle args)
    (ip_guardian args) (tk_mint r) (ip_fee_bps args) (ip_max_price_deviation_bps args)
    (ip_min_price_update_interval args) false DEFAULT_MAX_PRICE_AGE;
  ie_ok : pool_ok p;
  ie_fresh : acc_data (acct (accts s) (pool_account pid)) = [] /\
    acc_owner (acct (accts s) (pool_account pid)) = system_program_id;
  ie_created : pool_at pid m p;
  ie_others : forall k, k <> pool_account pid -> acc_owner (acct m k) = acc_owner (acct (accts s) k) /\
    acc_data (acct m k) = acc_data (acct (accts s) k);
  ie_hub : tk_price r = PRICE_ONE /\ tk_reserve r = 0;
  ie_vault : vault_backs m r 0;
  ie_record : hub_record_named accounts -> creates m (token_account_of pid (tk_mint r)) r (accts s');
}.

Lemma validate_init_Ok args u : is_u 16 (ip_max_price_deviation_bps args) ->
  validate_init_args args = Ok u -> ip_fee_bps args <= MAX_FEE_BPS /\
    1 <= ip_max_price_deviation_bps args <= BPS_DENOM /\ 0 <= ip_min_price_update_interval args.
Proof.
  intros Hd Hv. unfold validate_init_args in Hv. prog_inv Hv. bool_inv.
  repeat match goal with
  | H : check_fee_bps _ = Ok _ |- _ => apply check_fee_Ok in H
  | H : check_deviation_bps _ = Ok _ |- _ => apply check_deviation_Ok in H; [|done]
  end. lia.
Qed.
Lemma require_authority_Ok prog_ai pd who s u s' :
  swap_require_upgrade_authority pid prog_ai pd who s = Ok (u, s') -> s' = s /\
  exists upgrade, bincode_loader_state (acc_data (acct (accts s)
      (fst (find_program_address [arr_bytes pid] bpf_loader_upgradeable_id)))) = Some (ProgramData upgrade) /\
    upgrade = Some who.
Proof using RL SL pid_not_spl.
  clear pool_isolated.
  unfold swap_require_upgrade_authority. intros Hr.
  destruct (find_program_address [arr_bytes pid] bpf_loader_upgradeable_id) as [e b]. prog_inv Hr. bool_inv.
  match type of Hr with (match ?x with _ => _ end) _ = _ => destruct x end; prog_inv Hr; bool_inv. simpl.
  split; [done|]. eexists. split; [|done]. congruence.
Qed.

Lemma process_init_Ok accounts args s u s' : is_i 64 (clock s) -> SwapInstruction_wf (SwapInit args) ->
  process_init pid accounts args s = Ok (u, s') ->
  exists payer p r m, init_effect accounts args s s' payer p r m /\ clock s' = clock s.
Proof using RL SL pid_not_spl.
  clear pool_isolated.
  intros Hck (Hf & Hdv & Hiv) Hp. unfold process_init in Hp. prog_inv Hp. bool_inv.
  match goal with H : swap_require_upgrade_authority _ _ _ _ _ = _ |- _ =>
    apply require_authority_Ok in H as (-> & Hauth) end.
  match goal with H : validate_init_args _ = _ |- _ => apply validate_init_Ok in H as (Hfee & Hdev & Hint); [|done] end.
  assert (Hpa : fst (find_program_address pool_seeds pid) = pool_account pid) by done.
  match goal with E : find_program_address pool_seeds pid = _ |- _ => rewrite E in Hpa end. simpl in Hpa.
  match goal with Hd : spl_mint_unpack _ = Some _ |- _ => apply spl_mint_decimals_u8 in Hd end.
  match goal with Hc : check_vault _ _ _ _ _ = Ok _ |- _ =>
    pose proof (fun r => checked_vault_backs _ _ _ _ _ _ r Hc) as Hv; apply check_vault_Ok in Hc as [-> _] end.
  match goal with Hc : create_pda _ _ _ _ pool_seeds _ _ _ = Ok _, Hst : swap_store _ ?p _ = Ok _ |- _ =>
    apply create_pda_Ok in Hc as (Hd & Ho & Ho' & Hoth & Hc1 & _);
    pose proof (swap_store_Ok _ _ _ _ _ Hst) as (_ & _ & _ & Hc2 & _);
    apply (store_pool pid) in Hst as [Hp [HO HD]]; [|unfold PoolState_wf; simpl; split_and!; done|congruence|congruence] end.
  match goal with Hc : create_pda _ _ _ _ _ _ _ _ = Ok _, Hst : swap_store _ ?r _ = Ok _ |- _ =>
    pose proof (create_pda_Ok _ _ _ _ _ _ _ _ _ Hc) as (_ & _ & _ & _ & Hc3 & _);
    eapply create_store_creates in Hst as [Hcr Hc']; [|exact Hc|unfold TokenState_wf; simpl; rewrite Hc2, Hc1; done|done];
    match goal with Hp : pool_at pid ?m ?p |- _ => exists a0, p, r, m end end.
  split; [|cbn [clock]; congruence]. constructor; eauto; cbn [accts].
  - split; [set_solver|done].
  - constructor; simpl; lia || done.
  - subst. by rewrite <- Hpa.
  - intros k Hk. rewrite HO, HD by done. apply Hoth. congruence.
  - intros Hn. specialize (Hn a1 a3 eq_refl eq_refl). simpl. by rewrite <- Hn.
Qed.
End PoolEffects.
