(* ===== verification/PoolSafety.v ===== *)
(** Histories of the swap pool: its transactions interleaved with whatever other
    programs do, the invariants of every history, and what each instruction
    guarantees. *)

From S2P Require Import Prelude.
From S2P Require Import SolanaRuntime.
From S2P Require Import GateTypes.
From S2P Require Import SwapMath.
From S2P Require Import SolanaSwap.
From S2P Require Import PoolEffects.

Ltac run_step := erewrite prog_bind_run by done; cbn beta iota.

(** ** The Solana price keeper's decision for one token (solana-price-keeper.rs)
    from the pool, the token's record and the cluster clock it read. *)

Definition keeper_price_state (pool : PoolState) (rec : TokenState) (now : Z) : PriceState :=
  MkPriceState now (tk_price rec) (tk_price_set_at rec) (tk_last_price_update rec)
    (Some (effective_max_price_age pool)) (pl_min_price_update_interval pool)
    (pl_max_price_deviation_bps pool) (pl_fee_bps pool).

(** The instruction a [Plan::Set] sends, with its account list. *)
Definition keeper_instruction (pool_pda oracle record : pubkey) (p : Plan)
    : option (list account_info * SwapInstruction) :=
  match p with
  | PlanSet from price _ =>
      Some ([AccountInfo pool_pda false false; AccountInfo oracle true false; AccountInfo record false true],
            SetPriceFrom from price)
  | _ => None
  end.

Section Histories.
Context {RT : Runtime} {SB : SwapBorsh}.
Variable pid : pubkey.

(** No program-derived address signs a transaction at the top level. *)
Definition no_pool_signer (accounts : list account_info) : Prop :=
  forall ai, ai ∈ accounts -> is_signer ai = true -> ai_key ai <> pool_authority pid.

(** The rest of the chain: it can write none of the pool's records, and a token
    account only the pool controls keeps its mint and authority and loses nothing. *)
Record outside (s s' : ledger) : Prop := {
  out_records : forall a r, listed_record pid (accts s') a r <-> listed_record pid (accts s) a r;
  out_pool : forall p, pool_at pid (accts s') p <-> pool_at pid (accts s) p;
  out_vaults : forall v t, acc_owner (acct (accts s) v) = spl_token_id -> token_at (accts s) v = Some t ->
    ta_owner t = pool_authority pid -> ta_delegate t = None -> ta_close_authority t = None ->
    acc_owner (acct (accts s') v) = spl_token_id /\
    exists t', token_at (accts s') v = Some t' /\ ta_mint t' = ta_mint t /\ ta_owner t' = ta_owner t /\
      ta_delegate t' = None /\ ta_close_authority t' = None /\ ta_amount t <= ta_amount t';
  out_clock : clock s <= clock s';
}.

Inductive pool_step : ledger -> ledger -> Prop :=
  | PoolTx s accounts data ix s' :
      is_i 64 (clock s) -> swap_ix_try_from_slice data = Some ix -> no_pool_signer accounts ->
      (forall args, ix = SwapInit args -> hub_record_named pid accounts) ->
      swap_process_instruction pid accounts data s = Ok (tt, s') -> pool_step s s'
  | PoolOutside s s' : outside s s' -> pool_step s s'.

(** Before the pool is created. *)
Definition no_pool_yet (s : ledger) : Prop :=
  (forall a r, ~ listed_record pid (accts s) a r) /\ (forall p, ~ pool_at pid (accts s) p).
Definition pool_reachable (s : ledger) : Prop := exists s0, no_pool_yet s0 /\ rtc pool_step s0 s.
End Histories.

Section PoolSafety.
Context {RT : Runtime} {RL : RuntimeLaws} {SB : SwapBorsh} {SL : SwapBorshLaws}.
Variable pid : pubkey.
Hypothesis pid_not_spl : pid <> spl_token_id.
Hypothesis pool_isolated : forall mint, token_account_of pid mint <> pool_account pid.

(** ** What a transaction did, by instruction *)

Inductive tx_effect (accounts : list account_info) (s s' : ledger) : SwapInstruction -> Prop :=
  | TxInit args payer p r m : init_effect pid accounts args s s' payer p r m ->
      tx_effect accounts s s' (SwapInit args)
  | TxList pool owner r : pool_at pid (accts s) pool -> owner ∈ accounts -> is_signer owner = true ->
      ai_key owner = pl_owner pool -> 0 < tk_price r -> tk_reserve r = 0 ->
      creates pid (accts s) (token_account_of pid (tk_mint r)) r (accts s') -> vault_backs pid (accts s) r 0 ->
      tx_effect accounts s s' (ListToken (tk_price r))
  | TxPrice expected price pool r : price_effect pid accounts expected price s s' pool r ->
      tx_effect accounts s s' (SetPriceFrom expected price)
  | TxSeed amount pool owner mint r from mu : liquidity_effect pid s pool owner mint r amount ->
      owner ∈ accounts -> spl_moved from (tk_vault r) (ai_key owner) amount (accts s) mu ->
      stores pid mu (token_account_of pid mint) (with_reserve r
        (tk_reserve r + (token_balance mu (tk_vault r) - token_balance (accts s) (tk_vault r)))) (accts s') ->
      tx_effect accounts s s' (SeedLiquidity amount)
  | TxWithdraw amount pool owner mint r to mu : liquidity_effect pid s pool owner mint r amount ->
      amount <= tk_reserve r -> spl_moved (tk_vault r) to (pool_authority pid) amount (accts s) mu ->
      stores pid mu (token_account_of pid mint) (with_reserve r (tk_reserve r - amount)) (accts s') ->
      tx_effect accounts s s' (WithdrawLiquidity amount)
  | TxSwap n mn pool user ui uo mi mo ri ro out mu m1 m2 :
      swap_effect pid accounts n mn s s' pool (ai_key user) ui uo mi mo ri ro out mu m1 m2 ->
      user ∈ accounts -> is_signer user = true -> tx_effect accounts s s' (Swap n mn)
  | TxChange ix p p' : pool_change pid accounts s s' p p' -> tx_effect accounts s s' ix.

Lemma swap_process_instruction_decoded accounts data ix s : swap_ix_try_from_slice data = Some ix ->
  swap_process_instruction pid accounts data s = swap_dispatch pid accounts ix s.
Proof. intros Hix. unfold swap_process_instruction. by rewrite Hix. Qed.

Lemma swap_dispatch_Ok accounts ix s u s' : is_i 64 (clock s) -> SwapInstruction_wf ix ->
  swap_dispatch pid accounts ix s = Ok (u, s') -> tx_effect accounts s s' ix.
Proof.
  intros Hck Hwf Hp. destruct ix; simpl in Hwf, Hp.
  - apply process_init_Ok in Hp as (?&?&?&?&?&?); [|done..]. by econstructor.
  - apply process_list_token_Ok in Hp as (?&?&r&?&?&?&?&<-&?&?&?&?&?); [|done..]. by econstructor.
  - done.
  - apply process_seed_Ok in Hp as (?&?&?&?&?&?&?&?&?&?&?); [|done..]. by econstructor.
  - apply process_withdraw_Ok in Hp as (?&?&?&?&?&?&?&?&?&?&?); [|done..]. by econstructor.
  - apply process_swap_Ok in Hp as (?&?&?&?&?&?&?&?&?&?&?&?&?&?&?); [|by try apply Hwf..]. by econstructor.
  - apply swap_set_paused_Ok in Hp as (?&?); [|done..]. by econstructor.
  - apply swap_set_paused_Ok in Hp as (?&?); [|done..]. by econstructor.
  - apply process_set_role_Ok in Hp as (?&?&?&?); [|done..]. by econstructor.
  - apply process_set_role_Ok in Hp as (?&?&?&?); [|done..]. by econstructor.
  - apply process_set_role_Ok in Hp as (?&?&?&?); [|done..]. by econstructor.
  - apply process_set_role_Ok in Hp as (?&?&?&?); [|done..]. by econstructor.
  - apply process_set_role_Ok in Hp as (?&?&?&?); [|done..]. by econstructor.
  - apply process_set_role_Ok in Hp as (?&?&?&?); [|done..]. by econstructor.
  - apply process_set_price_Ok in Hp as (?&?&?); [|done||apply Hwf..]. by econstructor.
Qed.

(** ** Invariants *)

Lemma tx_solvent accounts s s' ix : no_pool_signer pid accounts ->
  (forall args, ix = SwapInit args -> hub_record_named pid accounts) ->
  tx_effect accounts s s' ix -> solvent pid (accts s) -> solvent pid (accts s').
Proof.
  intros Hn Hh He Hs. destruct He as [args payer p r m He|pool owner r Hp Ho Hsg Hk Hpr Hr Hc Hv
    |expected price pool r He|amount pool owner mint r from mu Hl Ho Hm Hst
    |amount pool owner mint r to mu Hl Hle Hm Hst|n mn pool user ui uo mi mo ri ro out mu m1 m2 He Hu Hsg|ix p p' Hc].
  - eapply (creates_solvent pid m _ r); [done|by eapply ie_record; eauto| |by eapply ie_vault].
    intros a Ha. eapply backed_created; [apply (ie_fresh _ _ _ _ _ _ _ _ _ He)| |done|by apply Hs].
    by eapply ie_others.
  - by eapply (creates_solvent pid (accts s) _ r).
  - by eapply price_solvent.
  - eapply seed_solvent; [done|done| |done|by eapply le_record|done|done]. apply Hn; [done|by eapply le_signed].
  - eapply withdraw_solvent; [done|done|done|by eapply le_record|done|done].
  - eapply swap_solvent; [done|done| |done|done]. by apply Hn.
  - eapply solvent_pool_store; [done| |by eapply pc_only|done]. apply (pc_before _ _ _ _ _ _ Hc).
Qed.
Lemma outside_solvent s s' : outside pid s s' -> solvent pid (accts s) -> solvent pid (accts s').
Proof.
  intros He Hs a Ha r Hr%(out_records _ _ _ He). destruct (Hs a Ha r Hr) as [Ea (Ho & t & Ht & Hm & Hw & Hd & Hc & Hle)].
  split; [done|]. destruct (out_vaults _ _ _ He _ _ Ho Ht Hw Hd Hc) as (Ho' & t' & ? & ? & ? & ? & ? & ?).
  split; [done|]. exists t'. split_and!; try done; [congruence|congruence|lia].
Qed.

(** The hub token's record: at price 1.0. *)
Definition hub_ok (m : gmap pubkey account) (k : pubkey) : Prop :=
  exists r, record_at pid m k r /\ tk_mint r = k /\ tk_price r = PRICE_ONE.
Definition pool_inv (m : gmap pubkey account) : Prop :=
  forall p, pool_at pid m p -> pool_ok p /\ hub_ok m (pl_hub_mint p).

Lemma hub_ok_iff m m' k : (forall r, record_at pid m k r -> record_at pid m' k r) -> hub_ok m k -> hub_ok m' k.
Proof. intros Hr (r & ? & ? & ?). exists r. eauto. Qed.
(** Rewriting a record: the hub's keeps its mint and price. *)
Lemma pool_inv_stores m mint r r' m' : stores pid m (token_account_of pid mint) r' m' ->
  record_at pid m mint r -> tk_mint r' = tk_mint r ->
  (forall p, pool_at pid m p -> tk_mint r = pl_hub_mint p -> tk_price r' = tk_price r) ->
  pool_inv m -> pool_inv m'.
Proof.
  intros (Ho & Hod & Hr') Hr Em Ep Hi p Hp. apply (only_data_pool pid _ _ _ p Hod) in Hp; [|apply pool_isolated].
  destruct (Hi p Hp) as [Hok (rh & Hrh & Hmh & Hph)]. split; [done|].
  destruct (decide (token_account_of pid (pl_hub_mint p) = token_account_of pid mint)) as [E|Hne].
  - assert (rh = r) as ->. { destruct Hrh as (_ & E1 & _), Hr as (_ & E2 & _). rewrite E in E1. congruence. }
    exists r'. split_and!; [|congruence|by rewrite (Ep p)]. unfold record_at. rewrite E. exact Hr'.
  - exists rh. split; [|done]. eapply only_data_record; [exact Hod|congruence|done].
Qed.
Lemma pool_inv_moved src dst auth n m m' : spl_moved src dst auth n m m' -> pool_inv m -> pool_inv m'.
Proof.
  intros Hm Hi p Hp%(spl_moved_pool pid _ _ _ _ _ _ _ pid_not_spl Hm). destruct (Hi p Hp) as [? Hh].
  split; [done|]. eapply hub_ok_iff; [|exact Hh]. intros r. by apply (spl_moved_record pid _ _ _ _ _ _ _ _ pid_not_spl Hm).
Qed.
Lemma record_nonempty m k r : record_at pid m k r -> acc_data (acct m (token_account_of pid k)) <> [].
Proof.
  intros (_ & Hd & _) E. apply borsh_de_len in Hd. rewrite E in Hd. unfold len in Hd. simpl in Hd. lia.
Qed.
Lemma pool_nonempty m p : pool_at pid m p -> acc_data (acct m (pool_account pid)) <> [].
Proof.
  intros (_ & Hd) E. apply borsh_de_len in Hd. rewrite E in Hd. unfold len in Hd. simpl in Hd. lia.
Qed.
Lemma pool_inv_creates m mint r m' : creates pid m (token_account_of pid mint) r m' -> pool_inv m -> pool_inv m'.
Proof.
  intros [[Hd _] Hr Hoth] Hi p [Ho Hb].
  destruct (Hoth (pool_account pid)) as [E1 E2]; [by apply not_eq_sym, pool_isolated|]. rewrite E1 in Ho. rewrite E2 in Hb.
  destruct (Hi p (conj Ho Hb)) as [Hok Hh]. split; [done|]. eapply hub_ok_iff; [|done].
  intros rh Hrh. pose proof (record_nonempty _ _ _ Hrh) as Hn. unfold record_at in *.
  destruct (Hoth (token_account_of pid (pl_hub_mint p))) as [-> ->]; [congruence|done].
Qed.

Lemma tx_pool_inv accounts s s' ix : (forall args, ix = SwapInit args -> hub_record_named pid accounts) ->
  tx_effect accounts s s' ix -> pool_inv (accts s) -> pool_inv (accts s').
Proof.
  intros Hh He Hi. destruct He as [args payer p r m He|pool owner r Hp Ho Hsg Hk Hpr Hr Hc Hv
    |expected price pool r He|amount pool owner mint r from mu Hl Ho Hm Hst
    |amount pool owner mint r to mu Hl Hle Hm Hst|n mn pool user ui uo mi mo ri ro out mu m1 m2 He Hu Hsg|ix p p' Hc].
  - pose proof (ie_record _ _ _ _ _ _ _ _ _ He (Hh _ eq_refl)) as Hcr.
    intros p' [Ho Hb]. destruct (cr_others _ _ _ _ _ Hcr (pool_account pid)) as [E1 E2];
      [by apply not_eq_sym, pool_isolated|]. rewrite E1 in Ho. rewrite E2 in Hb.
    rewrite (pool_at_unique _ _ _ _ (conj Ho Hb) (ie_created _ _ _ _ _ _ _ _ _ He)).
    split; [by eapply ie_ok|]. rewrite (ie_pool _ _ _ _ _ _ _ _ _ He). simpl. exists r.
    split_and!; [apply (cr_record _ _ _ _ _ Hcr)|done|apply (ie_hub _ _ _ _ _ _ _ _ _ He)].
  - by eapply pool_inv_creates.
  - eapply pool_inv_stores; [by eapply pe_stored|by eapply pe_record|done| |done].
    intros p Hp E. destruct (pe_not_hub _ _ _ _ _ _ _ _ He).
    by rewrite (pool_at_unique _ _ _ _ (pe_pool _ _ _ _ _ _ _ _ He) Hp).
  - eapply (pool_inv_stores mu mint r); [done| |done|done|by eapply pool_inv_moved].
    apply (spl_moved_record pid _ _ _ _ _ _ _ _ pid_not_spl Hm). by eapply le_record.
  - eapply (pool_inv_stores mu mint r); [done| |done|done|by eapply pool_inv_moved].
    apply (spl_moved_record pid _ _ _ _ _ _ _ _ pid_not_spl Hm). by eapply le_record.
  - assert (pool_inv mu) as Hu1 by (eapply pool_inv_moved; [by eapply se_paid|done]).
    pose proof (se_in _ _ _ _ _ _ _ _ _ _ _ _ _ _ _ _ _ _ He) as Hri.
    pose proof (se_out _ _ _ _ _ _ _ _ _ _ _ _ _ _ _ _ _ _ He) as Hro.
    pose proof (se_paid _ _ _ _ _ _ _ _ _ _ _ _ _ _ _ _ _ _ He) as Hm.
    pose proof (se_credited _ _ _ _ _ _ _ _ _ _ _ _ _ _ _ _ _ _ He) as H1.
    apply (spl_moved_record pid _ _ _ _ _ _ _ _ pid_not_spl Hm) in Hri, Hro.
    eapply pool_inv_moved; [by eapply se_got|].
    assert (pool_inv m1) as Hi1 by (by eapply (pool_inv_stores mu mi ri)).
    destruct (decide (token_account_of pid mi = token_account_of pid mo)) as [E|Hne].
    + assert (ri = ro) as -> by (destruct Hri as (_ & E1 & _), Hro as (_ & E2 & _); rewrite E in E1; congruence).
      eapply (pool_inv_stores m1 mo (with_reserve ro (tk_reserve ro + n))); [by eapply se_debited| |done|done|done].
      unfold record_at. rewrite <- E. apply H1.
    + eapply (pool_inv_stores m1 mo ro); [by eapply se_debited| |done|done|done].
      by apply (stores_listed_ne pid _ _ _ _ _ _ H1).
  - intros q Hq. rewrite (pool_at_unique _ _ _ _ Hq (pc_after _ _ _ _ _ _ Hc)).
    destruct (Hi p (pc_before _ _ _ _ _ _ Hc)) as [Hok Hh']. split; [by eapply pc_ok|].
    rewrite (pc_hub _ _ _ _ _ _ Hc). eapply hub_ok_iff; [|done]. intros r.
    eapply only_data_record; [by eapply pc_only|by apply not_eq_sym, pool_isolated].
Qed.

Lemma step_invariants s s' : pool_step pid s s' ->
  (solvent pid (accts s) -> solvent pid (accts s')) /\ (pool_inv (accts s) -> pool_inv (accts s')).
Proof.
  intros [s0 accounts data ix s0' Hck Hix Hn Hh Hp|s0 s0' He].
  - rewrite (swap_process_instruction_decoded _ _ _ _ Hix) in Hp.
    apply swap_dispatch_Ok in Hp; [|done|by eapply swap_ix_try_wf].
    split; [by eapply tx_solvent|by eapply tx_pool_inv].
  - split; [by apply outside_solvent|]. intros Hi p Hp%(out_pool _ _ _ He).
    destruct (Hi p Hp) as [? Hh]. split; [done|]. eapply hub_ok_iff; [|done]. intros r. apply (out_records _ _ _ He).
Qed.
Lemma reachable_invariants s : pool_reachable pid s -> solvent pid (accts s) /\ pool_inv (accts s).
Proof.
  intros (s0 & [Hr Hp] & Hs). assert (solvent pid (accts s0) /\ pool_inv (accts s0)) as H0.
  { split; [intros a _ r Ha; by destruct (Hr a r)|intros p Ha; by destruct (Hp p)]. }
  clear Hr Hp. induction Hs as [|s1 s2 s3 H1 _ IH]; [done|]. apply IH.
  destruct (step_invariants _ _ H1). naive_solver.
Qed.

Lemma ensure_pass {B} (b : bool) e (f : unit -> prog B) s r :
  b = true -> f tt s = r -> (ensure b e ≫= f) s = r.
Proof. intros -> <-. done. Qed.

Lemma load_pool_run ai s p : ai_key ai = pool_account pid -> pool_at pid (accts s) p ->
  load_pool pid ai s = Ok (p, s).
Proof.
  unfold load_pool, pool_at, pool_account. destruct (find_program_address pool_seeds pid) as [e b].
  simpl. intros Hk [Ho Hd]. run_step.
  apply ensure_pass; [by rewrite Hk, Ho, !bool_decide_eq_true_2|]. run_step. by rewrite Hk, Hd.
Qed.
Lemma load_token_run ai mint s r : ai_key ai = token_account_of pid mint -> record_at pid (accts s) mint r ->
  load_token pid ai mint s = Ok (r, s).
Proof.
  unfold load_token, record_at, token_account_of.
  destruct (find_program_address (token_seeds mint) pid) as [e b]. simpl. intros Hk (Ho & Hd & Hl).
  run_step. apply ensure_pass; [by rewrite Hk, Ho, !bool_decide_eq_true_2|]. run_step.
  erewrite prog_bind_run by (apply lift_Ok; by rewrite Hk, ok_or_Ok). cbn beta iota. by apply ensure_pass.
Qed.
Lemma swap_store_run ai mint r r' s : ai_key ai = token_account_of pid mint -> record_at pid (accts s) mint r ->
  TokenState_wf r' -> tk_listed r' = true ->
  exists s', swap_store ai r' s = Ok (tt, s') /\ record_at pid (accts s') mint r'.
Proof.
  intros Hk Hr Hw Hl. pose proof Hr as (Ho & Hd & _). apply borsh_de_len in Hd.
  pose proof (borsh_size _ Hw) as Hs. unfold len in *.
  assert (exists s', swap_store ai r' s = Ok (tt, s')) as [s' Hs'].
  { eexists. unfold swap_store. prog_run. rewrite Hk, bool_decide_eq_false_2 by lia. done. }
  exists s'. split; [done|]. eapply (store_record pid ai); eauto.
Qed.

(** A planned price passes every guard of the program. *)
Lemma process_set_price_run pool_ai oracle rec_ai rest pool r price s :
  ai_key pool_ai = pool_account pid -> pool_at pid (accts s) pool ->
  ai_key oracle = pl_oracle pool -> is_signer oracle = true ->
  ai_key rec_ai = token_account_of pid (tk_mint r) -> record_at pid (accts s) (tk_mint r) r ->
  tk_mint r <> pl_hub_mint pool -> price <> 0 -> is_u 128 price -> is_i 64 (clock s) ->
  pl_max_price_deviation_bps pool <= BPS_DENOM ->
  tk_last_price_update r = 0 \/
    i_saturating_add 64 (tk_last_price_update r) (pl_min_price_update_interval pool) <= clock s ->
  Z.abs (price - tk_price r) <= tk_price r * pl_max_price_deviation_bps pool / BPS_DENOM ->
  exists s', process_set_price pid (pool_ai :: oracle :: rec_ai :: rest) (tk_price r) price s = Ok (tt, s') /\
    record_at pid (accts s') (tk_mint r) (with_price r price (clock s)).
Proof.
  intros Hk Hp Ho Hs Hkr Hr Hh Hz Hu Hck Hdev Hcool Hstep.
  pose proof (record_at_wf _ _ _ _ Hr) as (_ & Hpr & _). pose proof (pool_at_wf _ _ _ Hp) as (_ & Hdv & _).
  set (now := clock s) in *.
  destruct (swap_store_run rec_ai _ r (with_price r price now)
    (Ledger (accts s) now (logs s ++ [LogMsg ("price " +:+ pretty (tk_price r) +:+ " -> " +:+ pretty price)])) Hkr Hr)
    as (s' & Hst & Hrec); [by pose proof (record_at_wf _ _ _ _ Hr) as (?&?&?&?&?)|apply Hr|].
  exists s'. split; [|done]. unfold process_set_price. do 3 run_step.
  erewrite prog_bind_run by by apply load_pool_run. cbn beta iota.
  apply ensure_pass; [by rewrite Ho, Hs, bool_decide_eq_true_2|].
  apply ensure_pass; [by rewrite (proj2 (Z.eqb_neq _ _))|]. run_step.
  erewrite prog_bind_run by (apply lift_Ok; rewrite Hkr, ok_or_Ok; split; [apply Hr|done]). cbn beta iota.
  erewrite prog_bind_run by by apply load_token_run. cbn beta iota.
  apply ensure_pass; [by rewrite bool_decide_eq_true_2|].
  apply ensure_pass; [by rewrite bool_decide_eq_false_2|].
  apply ensure_pass; [by apply Z.eqb_eq|]. run_step. fold now.
  apply ensure_pass.
  { apply negb_true_iff, andb_false_iff. destruct Hcool as [->|]; [by left|right]. by apply Z.ltb_ge. }
  assert (is_u 128 (tk_price r * pl_max_price_deviation_bps pool / BPS_DENOM)) as Hcap.
  { unfold is_u, BPS_DENOM in *. split; [apply Z.div_pos; nia|]. apply Z.div_lt_upper_bound; nia. }
  erewrite prog_bind_run by (apply lift_Ok; split; [|done]; apply ok_or_Ok, mul_div_floor_run;
    [done|by apply (is_u_widen 16)|done|done]). cbn beta iota.
  apply ensure_pass; [|run_step; exact Hst].
  apply negb_true_iff, Z.ltb_ge. destruct (Z.ltb_spec (tk_price r) price); lia.
Qed.

Lemma stores_pool m mint r m' p : stores pid m (token_account_of pid mint) r m' ->
  pool_at pid m' p <-> pool_at pid m p.
Proof. intros (_ & Hod & _). apply (only_data_pool pid _ _ _ p Hod), pool_isolated. Qed.
(** A transaction that does not go through [pool_change] leaves the pool record. *)
Lemma tx_pool_change accounts s s' ix p p' : tx_effect accounts s s' ix ->
  pool_at pid (accts s) p -> pool_at pid (accts s') p' -> p' = p \/ pool_change pid accounts s s' p p'.
Proof.
  intros He Hp Hp'. destruct He as [args payer q r m He|pool owner r Hq Ho Hsg Hk Hpr Hr Hc Hv
    |expected price pool r He|amount pool owner mint r from mu Hl Ho Hm Hst
    |amount pool owner mint r to mu Hl Hle Hm Hst|n mn pool user ui uo mi mo ri ro out mu m1 m2 He Hu Hsg|ix q q' Hc].
  - destruct (pool_nonempty _ _ Hp). apply (ie_fresh _ _ _ _ _ _ _ _ _ He).
  - left. destruct (cr_others _ _ _ _ _ Hc (pool_account pid)) as [E1 E2]; [by apply not_eq_sym, pool_isolated|].
    unfold pool_at in *. rewrite E1, E2 in Hp'. by eapply pool_at_unique.
  - left. apply (stores_pool _ _ _ _ _ (pe_stored _ _ _ _ _ _ _ _ He)) in Hp'. by eapply pool_at_unique.
  - left. apply (stores_pool _ _ _ _ _ Hst), (spl_moved_pool pid _ _ _ _ _ _ _ pid_not_spl Hm) in Hp'.
    by eapply pool_at_unique.
  - left. apply (stores_pool _ _ _ _ _ Hst), (spl_moved_pool pid _ _ _ _ _ _ _ pid_not_spl Hm) in Hp'.
    by eapply pool_at_unique.
  - left. apply (spl_moved_pool pid _ _ _ _ _ _ _ pid_not_spl (se_got _ _ _ _ _ _ _ _ _ _ _ _ _ _ _ _ _ _ He)) in Hp'.
    apply (stores_pool _ _ _ _ _ (se_debited _ _ _ _ _ _ _ _ _ _ _ _ _ _ _ _ _ _ He)),
      (stores_pool _ _ _ _ _ (se_credited _ _ _ _ _ _ _ _ _ _ _ _ _ _ _ _ _ _ He)),
      (spl_moved_pool pid _ _ _ _ _ _ _ pid_not_spl (se_paid _ _ _ _ _ _ _ _ _ _ _ _ _ _ _ _ _ _ He)) in Hp'.
    by eapply pool_at_unique.
  - right. by rewrite (pool_at_unique _ _ _ _ Hp (pc_before _ _ _ _ _ _ Hc)),
      (pool_at_unique _ _ _ _ Hp' (pc_after _ _ _ _ _ _ Hc)).
Qed.

(** ** What the pool guarantees *)

(** C21. In every reachable ledger, each listed record's vault is an SPL account of the
    record's mint owned by the pool authority, with no delegate and no close
    authority, and it holds at least the recorded reserve: the pool can always pay
    what its records say it owes. *)
Theorem pool_always_solvent s mint r : pool_reachable pid s -> record_at pid (accts s) mint r ->
  token_account_of pid mint = token_account_of pid (tk_mint r) /\ vault_backs pid (accts s) r 0.
Proof. intros [Hs _]%reachable_invariants Hr. exact (Hs _ (pool_isolated mint) _ Hr). Qed.

(** In every reachable ledger the pool's parameters are in the ranges its checks
    enforce (fee at most 10%, deviation cap in 1..10000 basis points, cooldown not
    negative, price age positive), and the hub token is listed at exactly 1.0. *)
Theorem pool_parameters_bounded s p : pool_reachable pid s -> pool_at pid (accts s) p ->
  pool_ok p /\ hub_ok (accts s) (pl_hub_mint p).
Proof. intros [_ Hi]%reachable_invariants. apply Hi. Qed.

(** C22. A successful swap: the pool is unpaused, both tokens are listed in it with
    fresh prices, a signing user paid [amount_in] into the registered vault and
    got exactly the quote out of the other one, at least the minimum asked and at
    most the recorded reserve; both records' reserves are adjusted by the amounts
    moved, nothing else in them changes, and the event names the trade. *)
Theorem swap_pays_quote accounts amount_in min_amount_out s s' : is_u 64 amount_in ->
  process_swap pid accounts amount_in min_amount_out s = Ok (tt, s') ->
  exists pool user user_in user_out mint_in mint_out rec_in rec_out out mu m1 m2,
    swap_effect pid accounts amount_in min_amount_out s s' pool (ai_key user) user_in user_out mint_in mint_out
      rec_in rec_out out mu m1 m2 /\ user ∈ accounts /\ is_signer user = true /\
    (token_account_of pid mint_in <> token_account_of pid mint_out ->
     record_at pid (accts s') mint_in (with_reserve rec_in (tk_reserve rec_in + amount_in)) /\
     record_at pid (accts s') mint_out (with_reserve rec_out (tk_reserve rec_out - out))).
Proof.
  intros Hu (pool & user & ui & uo & mi & mo & ri & ro & out & mu & m1 & m2 & He & Hin & Hsg)%process_swap_Ok; [|done..].
  do 12 eexists. split; [exact He|]. split_and!; [done..|]. intros Hne.
  pose proof (se_got _ _ _ _ _ _ _ _ _ _ _ _ _ _ _ _ _ _ He) as Hm.
  split; apply (spl_moved_record pid _ _ _ _ _ _ _ _ pid_not_spl Hm).
  - apply (stores_listed_ne pid _ _ _ _ _ _ (se_debited _ _ _ _ _ _ _ _ _ _ _ _ _ _ _ _ _ _ He)); [done|].
    apply (se_credited _ _ _ _ _ _ _ _ _ _ _ _ _ _ _ _ _ _ He).
  - apply (se_debited _ _ _ _ _ _ _ _ _ _ _ _ _ _ _ _ _ _ He).
Qed.

(** A price moves only under the oracle's signature, from exactly the price the
    oracle named, never for the hub token or to zero, outside the cooldown, and by
    no more than the deviation cap; only that record's price and time stamps
    change. *)
Theorem set_price_guarded accounts expected price s s' : is_i 64 (clock s) -> is_u 128 price ->
  process_set_price pid accounts expected price s = Ok (tt, s') ->
  exists pool r, price_effect pid accounts expected price s s' pool r /\
    record_at pid (accts s') (tk_mint r) (with_price r price (clock s)).
Proof.
  intros Hck Hu (pool & r & He)%process_set_price_Ok; [|done..]. exists pool, r. split; [done|].
  apply (pe_stored _ _ _ _ _ _ _ _ He).
Qed.

(** Whatever the price keeper decides to send, the program accepts: an update
    planned from the pool's, the token's and the clock's current values, sent by
    the pool's oracle, passes every guard and stores the planned price. *)
Theorem keeper_update_lands pool r target margin s ix :
  pool_at pid (accts s) pool -> pool_ok pool -> record_at pid (accts s) (tk_mint r) r ->
  tk_mint r <> pl_hub_mint pool -> 0 < tk_price r -> is_i 64 (clock s) -> is_u 128 target -> 0 < target ->
  keeper_instruction (pool_account pid) (pl_oracle pool) (token_account_of pid (tk_mint r))
    (plan (keeper_price_state pool r (clock s)) target margin) = Some ix ->
  exists price s', snd ix = SetPriceFrom (tk_price r) price /\ swap_dispatch pid (fst ix) (snd ix) s = Ok (tt, s') /\
    record_at pid (accts s') (tk_mint r) (with_price r price (clock s)).
Proof.
  intros Hp Hok Hr Hh Hp0 Hck Ht Ht0 Hix.
  pose proof (record_at_wf _ _ _ _ Hr) as (_ & Hpr & _ & Hlu & Hsa). pose proof (pool_at_wf _ _ _ Hp) as (Hfe & Hdv & Hin & Hag).
  destruct (po_deviation _ Hok) as [_ Hdev].
  assert (PriceState_wf (keeper_price_state pool r (clock s))) as Hwf.
  { constructor; simpl; try done. intros m [= <-]. unfold effective_max_price_age. by destruct (0 <? _). }
  rewrite plan_eq in Hix by done. destruct (plan_cap _ Hwf Hdev) as [_ Hcap].
  destruct (_ && _); [done|]. destruct (cooling _) eqn:Hcool; [done|]. destruct (_ && _); [done|].
  simpl in Hix. injection Hix as <-. set (st := keeper_price_state pool r (clock s)) in *.
  assert (step_cap st <= tk_price r * pl_max_price_deviation_bps pool / BPS_DENOM) as Hle.
  { unfold step_cap, step_cap_bps. simpl. apply Z.div_le_mono; [done|]. unfold is_u in *. nia. }
  assert (0 < toward st target /\ is_u 128 (toward st target) /\ Z.abs (toward st target - tk_price r) <= step_cap st)
    as (Hz & Hw & Habs).
  { unfold toward. change (ps_price st) with (tk_price r) in *. unfold is_u in *. lia. }
  edestruct (process_set_price_run (AccountInfo (pool_account pid) false false)
    (AccountInfo (pl_oracle pool) true false) (AccountInfo (token_account_of pid (tk_mint r)) false true) []
    pool r (toward st target) s) as (s' & Hs' & Hrec); try done; [lia| |lia|].
  { unfold cooling in Hcool. simpl in Hcool. apply andb_false_iff in Hcool as [?|?]; bool_inv; auto. }
  exists (toward st target), s'. done.
Qed.

(** The pool's own record changes only by its owner's signature, except that its
    guardian may pause it; the owner and the hub mint never change. *)
Theorem pool_changes_authorized accounts data ix s s' p p' :
  is_i 64 (clock s) -> swap_ix_try_from_slice data = Some ix ->
  swap_process_instruction pid accounts data s = Ok (tt, s') ->
  pool_at pid (accts s) p -> pool_at pid (accts s') p' ->
  pl_owner p' = pl_owner p /\ pl_hub_mint p' = pl_hub_mint p /\
  (p' <> p -> exists who, who ∈ accounts /\ is_signer who = true /\
    (ai_key who = pl_owner p \/
     ai_key who = pl_guardian p /\ pl_guardian p <> pubkey_default /\ p' = pool_with_paused p true)).
Proof.
  intros Hck Hix Hs Hp Hp'. rewrite (swap_process_instruction_decoded _ _ _ _ Hix) in Hs.
  apply swap_dispatch_Ok in Hs; [|done|by eapply swap_ix_try_wf].
  destruct (tx_pool_change _ _ _ _ _ _ Hs Hp Hp') as [->|[]]; [done|]. auto.
Qed.
End PoolSafety.
