(* ===== verification/Codecs.v ===== *)
(** The Borsh codecs the gate's and the pool's types derive, field by field, and
    the laws the two programs rely on. *)

From S2P Require Import Prelude.
From S2P Require Import Borsh.
From S2P Require Import SolanaRuntime.
From S2P Require Import GateTypes.
From S2P Require Import GateState.
From S2P Require Import SwapMath.
From S2P Require Import SolanaSwap.

(** A derived codec as the programs use it. *)
Definition codec_borsh {A} (c : codec A) : Borsh A := {| borsh_ser := enc c; borsh_de := deserialize c |}.
Lemma codec_laws {A} (c : codec A) wf size : (forall a, wf a <-> valid c a) ->
  (forall a, wf a -> len (enc c a) = size a) -> @BorshLaws A (codec_borsh c) wf size.
Proof.
  intros Hwf Hsz. constructor; simpl.
  - intros a rest Ha. by apply deserialize_enc, Hwf.
  - done.
  - intros l a [Ha _]%deserialize_inv. by apply Hwf.
  - intros l a [Ha [rest ->]]%deserialize_inv. rewrite <- Hsz by (by apply Hwf). unfold len. rewrite length_app. lia.
Qed.

Notation "c ×c d" := (c_pair c d) (at level 60, right associativity) : bridge_scope.
Local Abbreviation c32 := (c_arr 32).
Local Abbreviation c20 := (c_arr 20).

(** The two sides of an isomorphism between a record and the tuple of its fields. *)
Local Ltac iso :=
  first [ let b := fresh in intros b; destruct b; reflexivity
        | let a := fresh in intros a; repeat (match type of a with prod _ _ => destruct a as [? a] end); reflexivity ].
#[local] Obligation Tactic := iso.

(** * Stored records *)

Program Definition c_Config : codec Config :=
  c_iso (c32 ×c c32 ×c c32 ×c c_vec c20 ×c c_u32 ×c c_u64 ×c c_bool ×c c_u32 ×c c_u32 ×c
         c_vec (c_u64 ×c c_u64) ×c c_bool ×c c_i64)
    (fun '(o, (d, (g, (v, (t, (ch, (p, (mv, (mc, (n, (se, dl))))))))))) => MkConfig o d g v t ch p mv mc n se dl)
    (fun c => (cfg_owner c, (cfg_bridge_domain c, (cfg_guardian c, (cfg_validators c, (cfg_threshold c,
      (cfg_chain_id c, (cfg_paused c, (cfg_max_validators c, (cfg_max_corridors c, (cfg_nonce_to c,
      (cfg_sealed c, cfg_setup_deadline c)))))))))))) _ _.
Program Definition c_AssetConfig : codec AssetConfig :=
  c_iso (c32 ×c c32 ×c c32 ×c c_u8 ×c c_u8) (fun '(d, (m, (v, (b, l)))) => MkAssetConfig d m v b l)
    (fun a => (as_debridge_id a, (as_mint a, (as_vault a, (as_bridge_decimals a, as_local_decimals a))))) _ _.
Program Definition c_SentRecord : codec SentRecord :=
  c_iso (c32 ×c c32 ×c c32 ×c c32 ×c c_u64 ×c c_i64) (fun '(d, (s, (t, (m, (a, l))))) => MkSentRecord d s t m a l)
    (fun r => (sr_debridge_id r, (sr_sender r, (sr_source_token r, (sr_mint r, (sr_amount r, sr_locked_at r)))))) _ _.
Program Definition c_VaultBinding : codec VaultBinding :=
  c_iso (c32 ×c c_u8) (fun '(m, b) => MkVaultBinding m b) (fun v => (vb_mint v, vb_bridge_decimals v)) _ _.
Program Definition c_GovernanceSchedule : codec GovernanceSchedule :=
  c_iso c_i64 MkGovernanceSchedule ready_at _ _.

Lemma valid_all {A} (l : list A) (P : A -> Prop) : (forall a, P a) -> Forall P l.
Proof. intros Hp. by apply Forall_forall. Qed.

Lemma Config_codec_laws : @BorshLaws Config (codec_borsh c_Config) Config_wf
  (fun c => config_space (len (cfg_validators c)) (len (cfg_nonce_to c))).
Proof.
  apply codec_laws.
  - intros c. unfold Config_wf. destruct c. cbn -[is_u is_i]. split.
    + intros (?&?&?&?&?&?&?&?). split_and!; try done. by apply valid_all.
    + intros (?&?&?&(?&?)&?&?&?&?&?&(?&?)&?&?). split_and!; done.
  - intros c _. unfold len, config_space. destruct c. cbn -[enc_all le_bytes Z.mul Z.add Z.of_nat].
    repeat (rewrite ?length_app, ?length_arr, ?length_le_bytes; cbn [length]).
    rewrite (len_enc_all _ 20) by apply len_enc_arr.
    rewrite (len_enc_all _ 16) by (intros []; cbn -[le_bytes]; by rewrite length_app, !length_le_bytes).
    lia.
Qed.

Ltac fixed_size := intros a _; destruct a; unfold len; cbn -[le_bytes Z.mul Z.add Z.of_nat];
  repeat rewrite ?length_app, ?length_arr, ?length_le_bytes; reflexivity.
Ltac fixed_valid := intros a; destruct a; cbn -[is_u is_i]; tauto.

Lemma AssetConfig_codec_laws :
  @BorshLaws AssetConfig (codec_borsh c_AssetConfig) AssetConfig_wf (fun _ => ASSET_CONFIG_LEN).
Proof. apply codec_laws; [unfold AssetConfig_wf; fixed_valid|fixed_size]. Qed.
Lemma SentRecord_codec_laws :
  @BorshLaws SentRecord (codec_borsh c_SentRecord) SentRecord_wf (fun _ => SENT_RECORD_LEN).
Proof. apply codec_laws; [unfold SentRecord_wf; fixed_valid|fixed_size]. Qed.
Lemma VaultBinding_codec_laws :
  @BorshLaws VaultBinding (codec_borsh c_VaultBinding) VaultBinding_wf (fun _ => VAULT_BINDING_LEN).
Proof. apply codec_laws; [unfold VaultBinding_wf; fixed_valid|fixed_size]. Qed.
Lemma GovernanceSchedule_codec_laws : @BorshLaws GovernanceSchedule (codec_borsh c_GovernanceSchedule)
  GovernanceSchedule_wf (fun _ => GOVERNANCE_LEN).
Proof. apply codec_laws; [unfold GovernanceSchedule_wf; fixed_valid|fixed_size]. Qed.

(** * Instructions *)

Program Definition c_Auto : codec AutoParamsWire :=
  c_iso (c_u128 ×c c_u64 ×c c_bytes ×c c_bytes) (fun '(e, (f, (a, d))) => MkAutoParamsWire e f a d)
    (fun x => (execution_fee x, (flags x, (fallback_address x, auto_data x)))) _ _.
Program Definition c_InitArgs : codec InitArgs :=
  c_iso (c32 ×c c_vec c20 ×c c_u32 ×c c_u64 ×c c_u32 ×c c_u32 ×c c32)
    (fun '(d, (v, (t, (c, (mv, (mc, g)))))) => MkInitArgs d v t c mv mc g)
    (fun a => (ia_bridge_domain a, (ia_validators a, (ia_threshold a, (ia_chain_id a, (ia_max_validators a,
      (ia_max_corridors a, ia_guardian a))))))) _ _.
Program Definition c_SendArgs : codec SendArgs :=
  c_iso (c32 ×c c_u64 ×c c_u64 ×c c_bytes ×c c_option c_Auto) (fun '(d, (a, (c, (r, p)))) => MkSendArgs d a c r p)
    (fun a => (sa_debridge_id a, (sa_amount a, (sa_chain_id_to a, (sa_receiver a, sa_auto a))))) _ _.
Definition c_proof := c32 ×c c_u64 ×c c_u8 ×c c_u64 ×c c_u64 ×c c_bytes ×c c_option c_Auto ×c c_bytes ×c c_vec c_bytes.
Program Definition c_ClaimArgs : codec ClaimArgs :=
  c_iso c_proof (fun '(d, (a, (b, (c, (n, (r, (p, (s, sg)))))))) => MkClaimArgs d a b c n r p s sg)
    (fun a => (cl_debridge_id a, (cl_amount a, (cl_bridge_decimals a, (cl_chain_id_from a, (cl_nonce a,
      (cl_receiver a, (cl_auto a, (cl_native_sender a, cl_signatures a))))))))) _ _.
Program Definition c_CancelArgs : codec CancelArgs :=
  c_iso c_proof (fun '(d, (a, (b, (c, (n, (r, (p, (s, sg)))))))) => MkCancelArgs d a b c n r p s sg)
    (fun a => (ca_debridge_id a, (ca_amount a, (ca_bridge_decimals a, (ca_chain_id_from a, (ca_nonce a,
      (ca_receiver a, (ca_auto a, (ca_native_sender a, ca_signatures a))))))))) _ _.
Program Definition c_RefundArgs : codec RefundArgs :=
  c_iso c_proof (fun '(d, (a, (b, (c, (n, (r, (p, (s, sg)))))))) => MkRefundArgs d a b c n r p s sg)
    (fun a => (ra_debridge_id a, (ra_amount a, (ra_bridge_decimals a, (ra_chain_id_to a, (ra_nonce a,
      (ra_receiver a, (ra_auto a, (ra_native_sender a, ra_signatures a))))))))) _ _.

(** An enum: the variant's index, then its fields. *)
Definition variant {A B} (c : codec A) (f : A -> B) (l : list byte) : option (B * list byte) :=
  '(a, r) ← dec c l; Some (f a, r).
Definition unit_variant {B} (b : B) (l : list byte) : option (B * list byte) := Some (b, l).

Definition enc_action (a : GovernanceAction) : list byte :=
  match a with
  | GA_AddValidator v => Byte.x00 :: enc c20 v
  | GA_LowerThreshold t => Byte.x01 :: enc c_u32 t
  | GA_RegisterAsset d b => Byte.x02 :: enc (c32 ×c c_u8) (d, b)
  | GA_SetGuardian g => Byte.x03 :: enc c32 g
  end.
Definition dec_action (l : list byte) : option (GovernanceAction * list byte) :=
  match l with
  | Byte.x00 :: l => variant c20 GA_AddValidator l
  | Byte.x01 :: l => variant c_u32 GA_LowerThreshold l
  | Byte.x02 :: l => variant (c32 ×c c_u8) (fun '(d, b) => GA_RegisterAsset d b) l
  | Byte.x03 :: l => variant c32 GA_SetGuardian l
  | _ => None
  end.
Definition enc_gate_ix (ix : GateInstruction) : list byte :=
  match ix with
  | Init a => Byte.x00 :: enc c_InitArgs a
  | Send a => Byte.x01 :: enc c_SendArgs a
  | Claim a => Byte.x02 :: enc c_ClaimArgs a
  | SetValidator v b => Byte.x03 :: enc (c20 ×c c_bool) (v, b)
  | SetThreshold t => Byte.x04 :: enc c_u32 t
  | RegisterAsset d b => Byte.x05 :: enc (c32 ×c c_u8) (d, b)
  | RegisterCorridor c => Byte.x06 :: enc c_u64 c
  | Pause => [Byte.x07]
  | Unpause => [Byte.x08]
  | SetGuardian g => Byte.x09 :: enc c32 g
  | Cancel a => Byte.x0a :: enc c_CancelArgs a
  | Refund a => Byte.x0b :: enc c_RefundArgs a
  | ScheduleGovernance i => Byte.x0c :: enc c32 i
  | CancelScheduledGovernance i => Byte.x0d :: enc c32 i
  | Seal => [Byte.x0e]
  | ScheduleAction a => Byte.x0f :: enc_action a
  end.
Definition dec_gate_ix (l : list byte) : option (GateInstruction * list byte) :=
  match l with
  | Byte.x00 :: l => variant c_InitArgs Init l
  | Byte.x01 :: l => variant c_SendArgs Send l
  | Byte.x02 :: l => variant c_ClaimArgs Claim l
  | Byte.x03 :: l => variant (c20 ×c c_bool) (fun '(v, b) => SetValidator v b) l
  | Byte.x04 :: l => variant c_u32 SetThreshold l
  | Byte.x05 :: l => variant (c32 ×c c_u8) (fun '(d, b) => RegisterAsset d b) l
  | Byte.x06 :: l => variant c_u64 RegisterCorridor l
  | Byte.x07 :: l => unit_variant Pause l
  | Byte.x08 :: l => unit_variant Unpause l
  | Byte.x09 :: l => variant c32 SetGuardian l
  | Byte.x0a :: l => variant c_CancelArgs Cancel l
  | Byte.x0b :: l => variant c_RefundArgs Refund l
  | Byte.x0c :: l => variant c32 ScheduleGovernance l
  | Byte.x0d :: l => variant c32 CancelScheduledGovernance l
  | Byte.x0e :: l => unit_variant Seal l
  | Byte.x0f :: l => '(a, r) ← dec_action l; Some (ScheduleAction a, r)
  | _ => None
  end.
Definition whole {A} (x : option (A * list byte)) : option A :=
  match x with Some (a, []) => Some a | _ => None end.

Lemma variant_wf {A B} (c : codec A) (f : A -> B) (P : B -> Prop) l b r :
  (forall a, valid c a -> P (f a)) -> variant c f l = Some (b, r) -> P b.
Proof.
  intros HP. unfold variant. destruct (dec c l) as [[a r']|] eqn:E; [|done]. simpl. intros [= <- _].
  apply HP. by eapply dec_inv.
Qed.
Lemma dec_action_wf l a r : dec_action l = Some (a, r) -> GovernanceAction_wf a.
Proof.
  destruct l as [|[] l]; try done; simpl; apply (variant_wf _ _ GovernanceAction_wf); try done.
  by intros [? ?] [].
Qed.
Lemma dec_gate_ix_wf l ix r : dec_gate_ix l = Some (ix, r) -> GateInstruction_wf ix.
Proof.
  destruct l as [|[] l]; try done; simpl dec_gate_ix;
    try (apply (variant_wf _ _ GateInstruction_wf)); try by intros [= <- _].
  all: try done.
  all: try (intros a; destruct a as [] eqn:Ea; cbn -[is_u is_i];
    unfold InitArgs_wf, SendArgs_wf, ClaimArgs_wf, CancelArgs_wf, RefundArgs_wf, auto_wf; simpl;
    repeat case_match; simpl; tauto).
  destruct (dec_action l) as [[a r']|] eqn:E; [|done]. simpl. intros [= <- _]. by apply dec_action_wf in E.
Qed.

Program Definition c_SentEvent : codec SentEvent :=
  c_iso (c_u8 ×c c32 ×c c32 ×c c32 ×c c_u64 ×c c_u8 ×c c_u64 ×c c_u64 ×c c_u64 ×c c_bytes ×c c_bytes ×c c_option c_Auto)
    (fun '(v, (i, (d, (m, (a, (b, (cf, (ct, (n, (r, (s, p))))))))))) => MkSentEvent v i d m a b cf ct n r s p)
    (fun e => (se_version e, (se_submission_id e, (se_debridge_id e, (se_mint e, (se_amount e,
      (se_bridge_decimals e, (se_chain_id_from e, (se_chain_id_to e, (se_nonce e, (se_receiver e,
      (se_native_sender e, se_auto e)))))))))))) _ _.
Program Definition c_LifecycleEvent : codec LifecycleEvent :=
  c_iso (c_u8 ×c c32 ×c c32 ×c c_u64 ×c c_u64) (fun '(v, (i, (d, (c, n)))) => MkLifecycleEvent v i d c n)
    (fun e => (le_version e, (le_submission_id e, (le_debridge_id e, (le_chain_id e, le_nonce e))))) _ _.

#[export] Instance gate_codecs : GateBorsh := {|
  Config_borsh := codec_borsh c_Config;
  AssetConfig_borsh := codec_borsh c_AssetConfig;
  SentRecord_borsh := codec_borsh c_SentRecord;
  VaultBinding_borsh := codec_borsh c_VaultBinding;
  GovernanceSchedule_borsh := codec_borsh c_GovernanceSchedule;
  ix_try_from_slice := fun l => whole (dec_gate_ix l);
  SentEvent_to_vec := enc c_SentEvent;
  LifecycleEvent_to_vec := enc c_LifecycleEvent;
|}.
#[export] Instance gate_codec_laws `{Runtime} : GateBorshLaws.
Proof.
  constructor.
  - exact Config_codec_laws.
  - exact AssetConfig_codec_laws.
  - exact SentRecord_codec_laws.
  - exact VaultBinding_codec_laws.
  - exact GovernanceSchedule_codec_laws.
  - intros l ix Hix. simpl in Hix. unfold whole in Hix.
    destruct (dec_gate_ix l) as [[ix' []]|] eqn:E; simplify_eq. by eapply dec_gate_ix_wf.
  - intros r _. destruct r as [d sd st mt am lk]. change (Z.to_nat (SENT_RECORD_LEN - 8)) with 136%nat.
    cbn -[le_bytes take zeros]. rewrite !app_assoc, take_app_length'; [done|].
    by rewrite !length_app, !length_arr, length_le_bytes.
Qed.

(** * The pool *)

Program Definition c_PoolState : codec PoolState :=
  c_iso (c32 ×c c32 ×c c32 ×c c32 ×c c_u16 ×c c_u16 ×c c_i64 ×c c_bool ×c c_i64)
    (fun '(o, (r, (g, (h, (f, (d, (i, (p, a)))))))) => MkPoolState o r g h f d i p a)
    (fun p => (pl_owner p, (pl_oracle p, (pl_guardian p, (pl_hub_mint p, (pl_fee_bps p,
      (pl_max_price_deviation_bps p, (pl_min_price_update_interval p, (pl_paused p, pl_max_price_age p))))))))) _ _.
Program Definition c_TokenState : codec TokenState :=
  c_iso (c32 ×c c32 ×c c_u8 ×c c_u128 ×c c_u64 ×c c_i64 ×c c_bool ×c c_i64)
    (fun '(m, (v, (d, (p, (r, (l, (b, s))))))) => MkTokenState m v d p r l b s)
    (fun t => (tk_mint t, (tk_vault t, (tk_decimals t, (tk_price t, (tk_reserve t, (tk_last_price_update t,
      (tk_listed t, tk_price_set_at t)))))))) _ _.
Program Definition c_InitPoolArgs : codec InitPoolArgs :=
  c_iso (c_u16 ×c c_u16 ×c c_i64 ×c c32 ×c c32) (fun '(f, (d, (i, (g, o)))) => MkInitPoolArgs f d i g o)
    (fun a => (ip_fee_bps a, (ip_max_price_deviation_bps a, (ip_min_price_update_interval a, (ip_guardian a, ip_oracle a))))) _ _.
Program Definition c_SwappedEvent : codec SwappedEvent :=
  c_iso (c_u8 ×c c32 ×c c32 ×c c32 ×c c_u64 ×c c_u64 ×c c32) (fun '(v, (s, (i, (o, (a, (b, t)))))) => MkSwappedEvent v s i o a b t)
    (fun e => (sw_version e, (sw_sender e, (sw_mint_in e, (sw_mint_out e, (sw_amount_in e, (sw_amount_out e, sw_to e))))))) _ _.

Definition enc_swap_ix (ix : SwapInstruction) : list byte :=
  match ix with
  | SwapInit a => Byte.x00 :: enc c_InitPoolArgs a
  | ListToken p => Byte.x01 :: enc c_u128 p
  | SetPrice p => Byte.x02 :: enc c_u128 p
  | SeedLiquidity n => Byte.x03 :: enc c_u64 n
  | WithdrawLiquidity n => Byte.x04 :: enc c_u64 n
  | Swap n m => Byte.x05 :: enc (c_u64 ×c c_u64) (n, m)
  | SwapPause => [Byte.x06]
  | SwapUnpause => [Byte.x07]
  | SwapSetGuardian g => Byte.x08 :: enc c32 g
  | SetOracle o => Byte.x09 :: enc c32 o
  | SetFee f => Byte.x0a :: enc c_u16 f
  | SetMaxPriceDeviation b => Byte.x0b :: enc c_u16 b
  | SetMaxPriceAge s => Byte.x0c :: enc c_i64 s
  | SetMinPriceUpdateInterval s => Byte.x0d :: enc c_i64 s
  | SetPriceFrom e p => Byte.x0e :: enc (c_u128 ×c c_u128) (e, p)
  end.
Definition dec_swap_ix (l : list byte) : option (SwapInstruction * list byte) :=
  match l with
  | Byte.x00 :: l => variant c_InitPoolArgs SwapInit l
  | Byte.x01 :: l => variant c_u128 ListToken l
  | Byte.x02 :: l => variant c_u128 SetPrice l
  | Byte.x03 :: l => variant c_u64 SeedLiquidity l
  | Byte.x04 :: l => variant c_u64 WithdrawLiquidity l
  | Byte.x05 :: l => variant (c_u64 ×c c_u64) (fun '(n, m) => Swap n m) l
  | Byte.x06 :: l => unit_variant SwapPause l
  | Byte.x07 :: l => unit_variant SwapUnpause l
  | Byte.x08 :: l => variant c32 SwapSetGuardian l
  | Byte.x09 :: l => variant c32 SetOracle l
  | Byte.x0a :: l => variant c_u16 SetFee l
  | Byte.x0b :: l => variant c_u16 SetMaxPriceDeviation l
  | Byte.x0c :: l => variant c_i64 SetMaxPriceAge l
  | Byte.x0d :: l => variant c_i64 SetMinPriceUpdateInterval l
  | Byte.x0e :: l => variant (c_u128 ×c c_u128) (fun '(e, p) => SetPriceFrom e p) l
  | _ => None
  end.
Lemma dec_swap_ix_wf l ix r : dec_swap_ix l = Some (ix, r) -> SwapInstruction_wf ix.
Proof.
  destruct l as [|[] l]; try done; simpl dec_swap_ix;
    try (apply (variant_wf _ _ SwapInstruction_wf)); try by intros [= <- _].
  all: try done.
  all: intros a; destruct a; cbn -[is_u is_i]; tauto.
Qed.

#[export] Instance swap_codecs : SwapBorsh := {|
  PoolState_borsh := codec_borsh c_PoolState;
  TokenState_borsh := codec_borsh c_TokenState;
  swap_ix_try_from_slice := fun l => whole (dec_swap_ix l);
  SwappedEvent_to_vec := enc c_SwappedEvent;
|}.
#[export] Instance swap_codec_laws `{Runtime} : SwapBorshLaws.
Proof.
  constructor.
  - apply codec_laws; [unfold PoolState_wf; fixed_valid|fixed_size].
  - apply codec_laws; [unfold TokenState_wf; fixed_valid|fixed_size].
  - intros l ix Hix. simpl in Hix. unfold whole in Hix.
    destruct (dec_swap_ix l) as [[ix' []]|] eqn:E; simplify_eq. by eapply dec_swap_ix_wf.
Qed.
