(* ===== verification/Sample.v ===== *)
(** A small concrete runtime that satisfies [RuntimeLaws], on which the whole
    development evaluates: hashing and recovery are toys, accounts and transfers
    are as the real ones lay them out and move them. It shows that the hypotheses
    of the theorems can hold together. *)

From S2P Require Import Prelude.
From S2P Require Import Borsh.
From S2P Require Import SolanaRuntime.
From S2P Require Import GateTypes.
From S2P Require Import GateState.
From S2P Require Import SwapMath.
From S2P Require Import SolanaSwap.
From S2P Require Import Codecs.

Definition key (b : byte) : pubkey := arr_fill 32 b.
Definition toy_system : pubkey := pubkey_default.
Definition toy_spl : pubkey := key Byte.xf1.
Definition toy_loader : pubkey := key Byte.xf2.

(** A 32-byte digest whose first byte is zero. *)
Definition toy_arr (l : list byte) : pubkey := default pubkey_default (arr_of_list 32 l).
Definition toy_keccak (l : list byte) : hash32 :=
  let h := fold_left (fun acc b => (acc * 257 + Z_of_byte b + 1) mod 2 ^ 248) l 0 in
  toy_arr (Byte.x00 :: le_bytes 31 h).
(** A "signature" is the digest followed by the signer's key. *)
Definition toy_recover (digest : hash32) (recid : Z) (sig : list byte) : option (list byte) :=
  if bool_decide (take 32 sig = arr_bytes digest) then Some (drop 32 sig ++ drop 32 sig) else None.

(** Program-derived addresses: a tag for the first seed, then the second seed's
    bytes past its first. *)
Definition toy_tag (seed : list byte) : Z :=
  if bool_decide (seed = bytes_of_string "config") then 1
  else if bool_decide (seed = bytes_of_string "asset") then 2
  else if bool_decide (seed = bytes_of_string "sent") then 3
  else if bool_decide (seed = bytes_of_string "executed") then 4
  else if bool_decide (seed = bytes_of_string "refunded") then 5
  else if bool_decide (seed = bytes_of_string "vault") then 6
  else if bool_decide (seed = bytes_of_string "gov") then 7
  else if bool_decide (seed = bytes_of_string "vault_authority") then 8
  else if bool_decide (seed = bytes_of_string "pool") then 9
  else if bool_decide (seed = bytes_of_string "token") then 10
  else 11.
Definition toy_find (seeds : list (list byte)) (program_id : pubkey) : pubkey * byte :=
  let tag := toy_tag (default [] (seeds !! 0%nat)) in
  let id := default (zeros 32) (seeds !! 1%nat) in
  let mark := if bool_decide (head id = Some Byte.x00) then tag else tag + 128 in
  (toy_arr (byte_of_Z mark :: tl id), Byte.xff).

Program Definition c_token_account : codec token_account :=
  c_iso (c_pair (c_arr 32) (c_pair (c_arr 32) (c_pair c_u64 (c_pair (c_option (c_arr 32)) (c_option (c_arr 32))))))
    (fun '(m, (o, (a, (d, c)))) => TokenAccount m o a d c)
    (fun t => (ta_mint t, (ta_owner t, (ta_amount t, (ta_delegate t, ta_close_authority t))))) _ _.
Next Obligation. by intros []. Qed.
Next Obligation. by intros (? & ? & ? & ? & ?). Qed.
Definition toy_unpack (d : list byte) : option token_account := whole (dec c_token_account d).
Definition toy_mint (d : list byte) : option Z := match d with [b] => Some (Z_of_byte b) | _ => None end.
Definition toy_loader_state (d : list byte) : option loader_state :=
  match d with
  | Byte.x03 :: r => ProgramData <$> whole (dec (c_option (c_arr 32)) r)
  | [] => None
  | _ => Some OtherLoaderState
  end.

Definition toy_acct (m : gmap pubkey account) (k : pubkey) : account := default (Account 0 toy_system []) (m !! k).
Definition set_lamports (m : gmap pubkey account) (k : pubkey) (n : Z) : gmap pubkey account :=
  let a := toy_acct m k in <[k := Account n (acc_owner a) (acc_data a)]> m.
Definition set_token (m : gmap pubkey account) (k : pubkey) (t : token_account) : gmap pubkey account :=
  let a := toy_acct m k in <[k := Account (acc_lamports a) (acc_owner a) (enc c_token_account t)]> m.
Definition with_amount (t : token_account) (n : Z) : token_account :=
  TokenAccount (ta_mint t) (ta_owner t) n (ta_delegate t) (ta_close_authority t).

Definition toy_spl_transfer (src dst auth : pubkey) (n : Z) (m : gmap pubkey account)
    : result program_error (gmap pubkey account) :=
  ts ← ok_or (toy_unpack (acc_data (toy_acct m src))) (CpiError 1);
  td ← ok_or (toy_unpack (acc_data (toy_acct m dst))) (CpiError 1);
  _ ← require (bool_decide (acc_owner (toy_acct m src) = toy_spl) && bool_decide (acc_owner (toy_acct m dst) = toy_spl))
        (CpiError 2);
  _ ← require (bool_decide (ta_mint ts = ta_mint td)) (CpiError 3);
  _ ← require (bool_decide (ta_owner ts = auth) || bool_decide (ta_delegate ts = Some auth)) (CpiError 4);
  _ ← require ((0 <=? n) && (n <=? ta_amount ts)) (CpiError 5);
  if bool_decide (src = dst) then Ok m else
  _ ← require (ta_amount td + n <? 2 ^ 64) (CpiError 6);
  Ok (set_token (set_token m src (with_amount ts (ta_amount ts - n))) dst (with_amount td (ta_amount td + n))).

Definition toy_cpi (ix : cpi_instruction) (infos : list account_info) (seeds : list (list (list byte)))
    (m : gmap pubkey account) : result program_error (gmap pubkey account) :=
  match ix with
  | SysTransfer f t n =>
      _ ← require ((0 <=? n) && (n <=? acc_lamports (toy_acct m f))) (CpiError 7);
      let m1 := set_lamports m f (acc_lamports (toy_acct m f) - n) in
      Ok (set_lamports m1 t (acc_lamports (toy_acct m1 t) + n))
  | SysAllocate k n =>
      let a := toy_acct m k in
      _ ← require (bool_decide (acc_data a = []) && bool_decide (acc_owner a = toy_system)) (CpiError 8);
      Ok (<[k := Account (acc_lamports a) toy_system (zeros (Z.to_nat n))]> m)
  | SysAssign k o =>
      let a := toy_acct m k in
      _ ← require (bool_decide (acc_owner a = toy_system)) (CpiError 9);
      Ok (<[k := Account (acc_lamports a) o (acc_data a)]> m)
  | SplTransfer tp src dst auth n =>
      _ ← require (bool_decide (tp = toy_spl)) (CpiError 10);
      toy_spl_transfer src dst auth n m
  | SplTransferChecked tp src mint dst auth n d =>
      _ ← require (bool_decide (tp = toy_spl) && bool_decide (toy_mint (acc_data (toy_acct m mint)) = Some d)) (CpiError 10);
      toy_spl_transfer src dst auth n m
  end.

#[export] Instance toy_runtime : Runtime := {|
  system_program_id := toy_system;
  spl_token_id := toy_spl;
  bpf_loader_upgradeable_id := toy_loader;
  keccak := toy_keccak;
  secp256k1_recover := toy_recover;
  find_program_address := toy_find;
  rent_minimum_balance := fun n => n;
  spl_account_unpack := toy_unpack;
  spl_mint_unpack := toy_mint;
  bincode_loader_state := toy_loader_state;
  pubkey_to_string := fun k => "key";
  cpi := toy_cpi;
|}.

Lemma toy_unpack_enc t : valid c_token_account t -> toy_unpack (enc c_token_account t) = Some t.
Proof. intros Hv. unfold toy_unpack. rewrite <- (app_nil_r (enc c_token_account t)), dec_enc by done. done. Qed.
Lemma toy_unpack_valid d t : toy_unpack d = Some t -> valid c_token_account t.
Proof.
  unfold toy_unpack, whole. destruct (dec c_token_account d) as [[t' []]|] eqn:E; [|done..]. intros [= <-].
  by eapply dec_inv.
Qed.
Lemma acct_set_token m k k' t : acct (set_token m k t) k' =
  if decide (k = k') then Account (acc_lamports (acct m k)) (acc_owner (acct m k)) (enc c_token_account t) else acct m k'.
Proof. unfold set_token. destruct (decide (k = k')) as [->|]; [by rewrite acct_insert|by rewrite acct_insert_ne]. Qed.

Lemma token_at_set_token m k k' t : valid c_token_account t ->
  token_at (set_token m k t) k' = if decide (k = k') then Some t else token_at m k'.
Proof. intros Hv. unfold token_at. rewrite acct_set_token. case_decide; [by apply toy_unpack_enc|done]. Qed.

Lemma toy_spl_moved src dst auth n m m' : toy_spl_transfer src dst auth n m = Ok m' -> spl_moved src dst auth n m m'.
Proof.
  unfold toy_spl_transfer. change (@toy_acct) with (@acct toy_runtime). intros Hr. prog_inv Hr. bool_inv.
  case_bool_decide as Hsd.
  { subst dst. injection Hr as <-. constructor; try done.
    - intros t Ht. unfold token_at in Ht. simpl in Ht. simplify_eq. apply orb_true_iff in Hrun3 as [?|?]; bool_inv; auto.
    - unfold token_balance, token_at. simpl. rewrite Hrun. simpl. lia.
    - intros k t Ht. eauto. }
  prog_inv Hr. bool_inv. pose proof (toy_unpack_valid _ _ Hrun) as Hv. pose proof (toy_unpack_valid _ _ Hrun0) as Hv0.
  assert (Hw : forall t x, valid c_token_account t -> is_u 64 x -> valid c_token_account (with_amount t x)).
  { intros t x. destruct t. cbn -[is_u]. tauto. }
  assert (is_u 64 (ta_amount v) /\ is_u 64 (ta_amount v0)) as [Ha Ha0].
  { destruct v, v0. cbn -[is_u] in *. tauto. }
  unfold is_u in Ha, Ha0.
  set (t1 := with_amount v (ta_amount v - n)) in *. set (t2 := with_amount v0 (ta_amount v0 + n)) in *.
  assert (valid c_token_account t1 /\ valid c_token_account t2) as [H1v H2v] by (split; apply Hw; unfold is_u; done || lia).
  assert (Htok : forall k, token_at (set_token (set_token m src t1) dst t2) k =
    if decide (dst = k) then Some t2 else if decide (src = k) then Some t1 else token_at m k).
  { intros k. rewrite token_at_set_token by done. destruct (decide (dst = k)); [done|]. by rewrite token_at_set_token. }
  assert (Hts : token_at m src = Some v) by done. assert (Htd : token_at m dst = Some v0) by done.
  constructor; try done.
  - intros k. rewrite !acct_set_token. repeat case_decide; simplify_eq; done.
  - intros k Hk1 Hk2. rewrite !acct_set_token. repeat case_decide; simplify_eq; done.
  - intros t Ht. rewrite Hts in Ht. simplify_eq. apply orb_true_iff in Hrun3 as [?|?]; bool_inv; auto.
  - unfold token_balance. rewrite Hts. simpl. lia.
  - intros _. unfold token_balance. rewrite Htok, Hts, decide_False, decide_True by done. done.
  - intros _. unfold token_balance. rewrite Htok, Htd, decide_True by done. done.
  - intros _. unfold token_balance. rewrite Htok, decide_True by done. done.
  - intros k. rewrite Htok. repeat case_decide; subst; rewrite ?Hts, ?Htd; done.
  - intros k t Ht. rewrite Htok. destruct (decide (dst = k)) as [<-|];
      [|destruct (decide (src = k)) as [<-|]; [|eauto]].
    + rewrite Htd in Ht. simplify_eq. by exists t2.
    + rewrite Hts in Ht. simplify_eq. by exists t1.
Qed.

#[export] Instance toy_laws : RuntimeLaws.
Proof.
  constructor.
  - intros E. apply (f_equal arr_bytes) in E. by vm_compute in E.
  - intros d t Ht. apply toy_unpack_valid in Ht. destruct t. cbn -[is_u] in Ht. simpl. tauto.
  - intros d x Hd. simpl in Hd. unfold toy_mint in Hd. destruct d as [|b []]; simplify_eq. apply Z_of_byte_range.
  - intros f t n infos seeds m m' Hc. simpl in Hc. unfold toy_cpi in Hc. prog_inv Hc.
    intros k. change (@toy_acct) with (@acct toy_runtime). unfold set_lamports. change (@toy_acct) with (@acct toy_runtime).
    destruct (decide (t = k)) as [->|?]; [rewrite acct_insert|rewrite acct_insert_ne by done];
      (destruct (decide (f = k)) as [->|?]; [rewrite acct_insert|rewrite acct_insert_ne by done]); done.
  - intros k n infos seeds m m' Hc. simpl in Hc. unfold toy_cpi in Hc. change (@toy_acct) with (@acct toy_runtime) in Hc.
    prog_inv Hc. bool_inv. rewrite acct_insert. split_and!; try done. intros k' Hk. by rewrite acct_insert_ne.
  - intros k o infos seeds m m' Hc. simpl in Hc. unfold toy_cpi in Hc. change (@toy_acct) with (@acct toy_runtime) in Hc.
    prog_inv Hc. bool_inv. rewrite acct_insert. split_and!; try done; [by left|]. intros k' Hk. by rewrite acct_insert_ne.
  - intros tp src dst auth n infos seeds m m' Hc. simpl in Hc. unfold toy_cpi in Hc. prog_inv Hc. bool_inv.
    split; [done|]. by apply toy_spl_moved.
  - intros tp src mint dst auth n d infos seeds m m' Hc. simpl in Hc. unfold toy_cpi in Hc. prog_inv Hc. bool_inv.
    split; [done|]. by apply toy_spl_moved.
Qed.

(** * Running programs on the sample *)

Definition run {A} (p : prog A) (s : ledger) : ledger := match p s with Ok (_, s') => s' | Err _ => s end.
Definition succeeds {A} (p : prog A) (s : ledger) : bool := match p s with Ok _ => true | Err _ => false end.
Lemma run_Ok (p : prog unit) s : succeeds p s = true -> p s = Ok (tt, run p s).
Proof. unfold succeeds, run. by destruct (p s) as [[[] s']|]. Qed.
Lemma run_value {A} (p : prog A) s : succeeds p s = true -> exists a, p s = Ok (a, run p s).
Proof. unfold succeeds, run. destruct (p s) as [[a s']|]; [eauto|done]. Qed.
(** Reading a value that is there. *)
Definition is_some {A} (o : option A) : bool := match o with Some _ => true | None => false end.
Lemma some_default {A} (d : A) o : is_some o = true -> o = Some (default d o).
Proof. by destruct o. Qed.

(** A run named [s], and a decidable fact, by evaluation. *)
Ltac by_run s := unfold s at 1; apply run_Ok; vm_compute; reflexivity.
Ltac by_eval := apply (bool_decide_unpack _); vm_compute; exact I.

Definition ro (k : pubkey) : account_info := AccountInfo k false false.
Definition rw (k : pubkey) : account_info := AccountInfo k false true.
Definition sg (k : pubkey) : account_info := AccountInfo k true true.
Definition token (mint owner : pubkey) (n : Z) : list byte := enc c_token_account (TokenAccount mint owner n None None).

(** ** Sample addresses *)

Lemma toy_arr_bytes l : length l = 32%nat -> arr_bytes (toy_arr l) = l.
Proof.
  intros Hl. unfold toy_arr. destruct (arr_of_list 32 l) as [a|] eqn:E; [by apply arr_of_list_Some in E|].
  unfold arr_of_list in E. by destruct (decide (length l = 32%nat)).
Qed.
Definition id_mark (l : list byte) : Z := if bool_decide (head l = Some Byte.x00) then 0 else 128.
Lemma pda_bytes seed (id : hash32) pid : arr_bytes (fst (toy_find [seed; arr_bytes id] pid)) =
  byte_of_Z (toy_tag seed + id_mark id) :: tl id.
Proof.
  unfold toy_find. cbn -[toy_tag]. rewrite toy_arr_bytes; [|cbn [length]; pose proof (length_arr id); destruct (arr_bytes id); simpl in *; lia].
  f_equal. unfold id_mark. case_bool_decide; f_equal; lia.
Qed.
