(* ===== verification/GateWitness.v ===== *)
(** The gate on the sample runtime: a deployment, set up through the program's own
    instructions, on which every theorem about the gate applies. *)

From S2P Require Import Prelude.
From S2P Require Import Borsh.
From S2P Require Import SolanaRuntime.
From S2P Require Import GateTypes.
From S2P Require Import CoreHash.
From S2P Require Import GateHash.
From S2P Require Import GateState.
From S2P Require Import GateVerify.
From S2P Require Import GateGov.
From S2P Require Import GateTransfers.
From S2P Require Import GateAdmin.
From S2P Require Import GateAssets.
From S2P Require Import GateProgram.
From S2P Require Import GateSafety.
From S2P Require Import Codecs.
From S2P Require Import Sample.

(** * The deployment *)


Definition gate_id : pubkey := key Byte.x90.
Definition deployer : pubkey := key Byte.x91.
Definition wallet : pubkey := key Byte.x92.
Definition guardian_key : pubkey := key Byte.x93.
Definition mint_key : pubkey := key Byte.x94.
Definition vault_key : pubkey := key Byte.x95.
Definition user_token_key : pubkey := key Byte.x96.
Definition receiver_key : pubkey := key Byte.x97.
Definition domain : hash32 := key Byte.x98.
(** A debridge id starting with a zero byte, so that its accounts are its own. *)
Definition asset_id : hash32 := toy_arr (Byte.x00 :: replicate 31 Byte.x99).
Definition remote_chain : Z := 1961.
Definition noon : Z := 1750000000.

Definition pda (seeds : list (list byte)) : pubkey := fst (toy_find seeds gate_id).

(** Validator keys and what they sign with. *)
Definition validator_secret (b : byte) : list byte := replicate 32 b.
Definition validator_address (b : byte) : evm_address :=
  address_of_hash (toy_keccak (validator_secret b ++ validator_secret b)).
Definition sign (b : byte) (id : hash32) : list byte :=
  arr_bytes (eth_signed_digest id) ++ validator_secret b ++ [Byte.x1b].
Definition key_a : byte := Byte.x01.
Definition key_b : byte := Byte.x02.

Definition genesis : ledger := Ledger
  (<[deployer := Account 1000000 toy_system []]> $
   <[wallet := Account 1000000 toy_system []]> $
   <[gate_id := Account 1 toy_loader []]> $
   <[fst (toy_find [arr_bytes gate_id] toy_loader) :=
       Account 1 toy_loader (Byte.x03 :: enc (c_option (c_arr 32)) (Some deployer))]> $
   <[mint_key := Account 1 toy_spl [Byte.x08]]> $
   <[vault_key := Account 1 toy_spl (token mint_key (pda vault_authority_seeds) 500000)]> $
   <[user_token_key := Account 1 toy_spl (token mint_key wallet 700000)]> $
   <[receiver_key := Account 1 toy_spl (token mint_key (key Byte.xaa) 0)]> ∅) noon [].

Definition init_accounts : list account_info :=
  [rw (pda config_seeds); sg deployer; ro toy_system; ro gate_id; ro (fst (toy_find [arr_bytes gate_id] toy_loader))].
Definition init_args : InitArgs :=
  MkInitArgs domain [validator_address key_a; validator_address key_b] 2 SOLANA_CHAIN_ID 4 4 guardian_key.
Definition admin_accounts : list account_info := [rw (pda config_seeds); sg deployer].
Definition register_accounts : list account_info :=
  [rw (pda config_seeds); sg deployer; rw (pda (asset_seeds asset_id)); ro mint_key; ro vault_key; ro toy_spl;
   ro toy_system; rw (pda (vault_seeds vault_key))].

Definition s_init : ledger := run (process_init gate_id init_accounts init_args) genesis.
Definition s_asset : ledger := run (process_register_asset gate_id register_accounts asset_id 6) s_init.
Definition s_corridor : ledger := run (process_register_corridor gate_id admin_accounts remote_chain) s_asset.
(** The gate in operation. *)
Definition s_live : ledger := run (process_seal gate_id admin_accounts) s_corridor.


Lemma setup_runs : succeeds (process_init gate_id init_accounts init_args) genesis
  && succeeds (process_register_asset gate_id register_accounts asset_id 6) s_init
  && succeeds (process_register_corridor gate_id admin_accounts remote_chain) s_asset
  && succeeds (process_seal gate_id admin_accounts) s_corridor = true.
Proof. vm_compute. reflexivity. Qed.


Definition no_config : Config := MkConfig pubkey_default domain pubkey_default [] 0 0 false 0 0 [] false 0.
Definition config_in (s : ledger) : Config := default no_config (current_config gate_id (accts s)).
Definition live_config : Config := config_in s_live.
Lemma config_in_at s : is_some (current_config gate_id (accts s)) = true -> config_at gate_id (accts s) (config_in s).
Proof. intros Hs. by apply current_config_Some, (some_default no_config). Qed.
Lemma gate_not_spl : gate_id <> spl_token_id.
Proof. by vm_compute. Qed.

(** ** The sample addresses do not collide *)

Lemma pda_tags seed seed' (id id' : hash32) :
  bool_decide (byte_of_Z (toy_tag seed) = byte_of_Z (toy_tag seed')) || bool_decide (byte_of_Z (toy_tag seed + 128) = byte_of_Z (toy_tag seed'))
  || bool_decide (byte_of_Z (toy_tag seed) = byte_of_Z (toy_tag seed' + 128))
  || bool_decide (byte_of_Z (toy_tag seed + 128) = byte_of_Z (toy_tag seed' + 128)) = false ->
  fst (toy_find [seed; arr_bytes id] gate_id) <> fst (toy_find [seed'; arr_bytes id'] gate_id).
Proof.
  intros Hb E. bool_inv. apply (f_equal arr_bytes) in E. rewrite !pda_bytes in E. injection E as E _.
  unfold id_mark in E. repeat case_bool_decide; rewrite ?Z.add_0_r in E; done.
Qed.

Lemma sample_assets_isolated : assets_isolated gate_id asset_id.
Proof. constructor; intros; apply pda_tags; vm_compute; reflexivity. Qed.
Lemma sample_config_isolated : config_isolated gate_id.
Proof.
  assert (Hc : arr_bytes (config_account gate_id) = byte_of_Z 1 :: zeros 31) by (vm_compute; reflexivity).
  intros sd Hsd E. apply (f_equal arr_bytes) in E. rewrite Hc in E.
  destruct Hsd; apply (eq_trans (eq_sym (pda_bytes _ _ _))) in E; injection E as E _; unfold id_mark in E;
    case_bool_decide; by vm_compute in E.
Qed.
(** Two ids under one seed, the second starting with a zero byte. *)
Lemma pda_same seed (id aid : hash32) : byte_of_Z (toy_tag seed + 128) <> byte_of_Z (toy_tag seed) ->
  head (arr_bytes aid) = Some Byte.x00 -> [seed; arr_bytes id] <> [seed; arr_bytes aid] ->
  fst (toy_find [seed; arr_bytes id] gate_id) <> fst (toy_find [seed; arr_bytes aid] gate_id).
Proof.
  intros Ht Hz Hne E. apply Hne. do 2 f_equal. apply (f_equal arr_bytes) in E. rewrite !pda_bytes in E.
  injection E as E Et. unfold id_mark in E. rewrite (bool_decide_eq_true_2 _ Hz), Z.add_0_r in E.
  case_bool_decide as Hh; [|done].
  pose proof (length_arr id). pose proof (length_arr aid). destruct (arr_bytes id), (arr_bytes aid); by simplify_eq/=.
Qed.
Lemma sample_gov_isolated (aid : hash32) : head (arr_bytes aid) = Some Byte.x00 -> gov_isolated gate_id aid.
Proof.
  intros Hz. split.
  - intros E. symmetry in E. revert E. apply sample_config_isolated. constructor.
  - intros sd Hsd Hne. destruct Hsd; first [apply pda_tags; vm_compute; reflexivity|apply pda_same; done].
Qed.

(** * Transfers *)

Definition transfer_accounts_asset : pubkey := pda (asset_seeds asset_id).

(** An arriving transfer of 10 wire units (1000 local units). *)
Definition claim_args0 : ClaimArgs :=
  MkClaimArgs asset_id 10 6 remote_chain 7 (arr_bytes receiver_key) None (replicate 20 Byte.x44) [].
Definition the_claim_id : hash32 := claim_id live_config claim_args0.
(** Signatures in the order of the signers' addresses. *)
Definition quorum_sigs (id : hash32) : list (list byte) :=
  if bytes_leb (validator_address key_a) (validator_address key_b)
  then [sign key_a id; sign key_b id] else [sign key_b id; sign key_a id].
Definition claim_args : ClaimArgs :=
  MkClaimArgs asset_id 10 6 remote_chain 7 (arr_bytes receiver_key) None (replicate 20 Byte.x44)
    (quorum_sigs the_claim_id).
Definition claim_accounts : list account_info :=
  [ro (pda config_seeds); ro transfer_accounts_asset; rw (pda (executed_seeds the_claim_id)); sg wallet; rw vault_key;
   rw receiver_key; ro (pda vault_authority_seeds); ro toy_spl; ro toy_system].
Definition s_claimed : ledger := run (process_claim gate_id claim_accounts claim_args) s_live.

Definition cancel_args : CancelArgs :=
  MkCancelArgs asset_id 10 6 remote_chain 7 (arr_bytes receiver_key) None (replicate 20 Byte.x44)
    (quorum_sigs (cancel_id the_claim_id)).
Definition cancel_accounts : list account_info :=
  [ro (pda config_seeds); rw (pda (executed_seeds the_claim_id)); sg wallet; ro toy_system].
Definition s_cancelled : ledger := run (process_cancel gate_id cancel_accounts cancel_args) s_live.

Definition send_args : SendArgs := MkSendArgs asset_id 2500 remote_chain (replicate 20 Byte.x55) None.
Definition the_send_id : hash32 :=
  submission_id domain asset_id 6 25 SOLANA_CHAIN_ID remote_chain 0 (replicate 20 Byte.x55) None (arr_bytes wallet).
Definition send_accounts : list account_info :=
  [rw (pda config_seeds); ro transfer_accounts_asset; sg wallet; rw user_token_key; rw vault_key; ro toy_spl;
   rw (pda (sent_seeds the_send_id)); ro toy_system].
Definition s_sent : ledger := run (process_send gate_id send_accounts send_args) s_live.

Definition refund_args : RefundArgs :=
  MkRefundArgs asset_id 25 6 remote_chain 0 (replicate 20 Byte.x55) None (arr_bytes wallet)
    (quorum_sigs (refund_id the_send_id)).
Definition refund_accounts : list account_info :=
  [ro (pda config_seeds); ro transfer_accounts_asset; rw (pda (sent_seeds the_send_id));
   rw (pda (refunded_seeds the_send_id)); sg wallet; rw vault_key; rw user_token_key; ro (pda vault_authority_seeds);
   ro toy_spl; ro toy_system].
Definition s_refunded : ledger := run (process_refund gate_id refund_accounts refund_args) s_sent.

(** * Witnesses *)



Lemma claim_pays_exactly_witness :
  process_claim gate_id claim_accounts claim_args s_live = Ok (tt, s_claimed) /\
  exists c a receiver, claim_effect gate_id claim_args s_live s_claimed c a receiver.
Proof.
  assert (H : process_claim gate_id claim_accounts claim_args s_live = Ok (tt, s_claimed)).
  { by_run s_claimed. }
  split; [exact H|].
  destruct (claim_pays_exactly gate_id gate_not_spl claim_accounts claim_args s_live s_claimed H)
    as (c & a & r & He & _). eauto.
Defined.

Lemma cancel_marks_spent_witness :
  process_cancel gate_id cancel_accounts cancel_args s_live = Ok (tt, s_cancelled) /\
  exists c, cancel_effect gate_id cancel_args s_live s_cancelled c.
Proof.
  assert (H : process_cancel gate_id cancel_accounts cancel_args s_live = Ok (tt, s_cancelled)).
  { by_run s_cancelled. }
  split; [exact H|].
  destruct (cancel_marks_spent gate_id cancel_accounts cancel_args s_live s_cancelled H) as (c & He & _). eauto.
Defined.

Lemma send_locks_and_records_witness :
  SendArgs_wf send_args /\ is_i 64 (clock s_live) /\
  process_send gate_id send_accounts send_args s_live = Ok (tt, s_sent) /\
  exists c c' a wire payer user, send_effect gate_id send_args s_live s_sent c c' a wire payer user.
Proof.
  assert (H : process_send gate_id send_accounts send_args s_live = Ok (tt, s_sent)).
  { by_run s_sent. }
  assert (Hw : SendArgs_wf send_args) by by_eval.
  assert (Hc : is_i 64 (clock s_live)) by by_eval.
  split; [exact Hw|]. split; [exact Hc|]. split; [exact H|].
  destruct (send_locks_and_records gate_id gate_not_spl send_accounts send_args s_live s_sent Hw Hc H)
    as (c & c' & a & w & p & u & He & _). do 6 eexists. exact He.
Defined.

Lemma refund_returns_recorded_witness :
  process_refund gate_id refund_accounts refund_args s_sent = Ok (tt, s_refunded) /\
  exists c a r, refund_effect gate_id refund_args s_sent s_refunded c a r.
Proof.
  assert (H : process_refund gate_id refund_accounts refund_args s_sent = Ok (tt, s_refunded)).
  { by_run s_refunded. }
  split; [exact H|].
  destruct (refund_returns_recorded gate_id gate_not_spl refund_accounts refund_args s_sent s_refunded H)
    as (c & a & r & He & _). eauto.
Defined.

(** ** Setting up and stopping *)

Lemma init_creates_gate_witness :
  InitArgs_wf init_args /\ process_init gate_id init_accounts init_args genesis = Ok (tt, s_init) /\
  config_at gate_id (accts s_init) (initial_config init_args deployer (clock genesis)).
Proof.
  assert (Hw : InitArgs_wf init_args) by by_eval.
  assert (H : process_init gate_id init_accounts init_args genesis = Ok (tt, s_init)) by by_run s_init.
  split; [exact Hw|]. split; [exact H|].
  destruct (init_creates_gate gate_id init_accounts init_args genesis s_init Hw H) as (payer & Hs & _ & _ & Hc & _).
  assert (payer = deployer) as <-; [|exact Hc].
  clear Hc H. destruct Hs as (ai & Hin & <- & Hsg).
  repeat (apply elem_of_cons in Hin as [->|Hin]; [try discriminate Hsg; reflexivity|]).
  by apply elem_of_nil in Hin.
Defined.

Lemma register_asset_binds_witness :
  is_u 8 6 /\ assets_isolated gate_id asset_id /\ acc_owner (acct (accts s_init) pubkey_default) <> spl_token_id /\
  process_register_asset gate_id register_accounts asset_id 6 s_init = Ok (tt, s_asset) /\
  exists c a, as_bridge_decimals a = 6 /\ register_effect gate_id register_accounts s_init s_asset c a.
Proof.
  assert (Hu : is_u 8 6) by by_eval.
  assert (Hd : acc_owner (acct (accts s_init) pubkey_default) <> spl_token_id) by by_eval.
  assert (H : process_register_asset gate_id register_accounts asset_id 6 s_init = Ok (tt, s_asset)) by by_run s_asset.
  split; [exact Hu|]. split; [exact sample_assets_isolated|]. split; [exact Hd|]. split; [exact H|].
  destruct (register_asset_binds gate_id register_accounts asset_id 6 s_init s_asset Hu sample_assets_isolated Hd H)
    as (c & a & _ & Hb & He & _). exists c, a. split; [exact Hb|exact He].
Defined.

Definition guardian_accounts : list account_info := [rw (pda config_seeds); sg guardian_key].
Definition s_paused : ledger := run (process_set_paused gate_id guardian_accounts true) s_live.

(** ** Instructions as they arrive *)

Definition claim_data : list byte := enc_gate_ix (Claim claim_args).
Definition refund_data : list byte := enc_gate_ix (Refund refund_args).
Definition send_data : list byte := enc_gate_ix (Send send_args).
Definition decoded (d : list byte) : GateInstruction := default Seal (ix_try_from_slice d).
Definition after (accounts : list account_info) (d : list byte) (s : ledger) : ledger :=
  run (process_instruction gate_id accounts d) s.
Lemma tx_step s accounts d : bool_decide (is_i 64 (clock s)) && is_some (ix_try_from_slice d)
  && succeeds (process_instruction gate_id accounts d) s = true ->
  history gate_id s [event_of gate_id s accounts (decoded d)] (after accounts d s).
Proof.
  intros ([Hc%bool_decide_eq_true Hd]%andb_true_iff & Hs)%andb_true_iff.
  apply (HistorySnoc gate_id s [] s); [constructor|]. apply (GateTx gate_id s accounts d (decoded d)); [done| |].
  - by apply some_default.
  - by apply run_Ok.
Qed.

Lemma submission_spent_once_witness :
  history gate_id s_live [event_of gate_id s_live claim_accounts (decoded claim_data)]
    (after claim_accounts claim_data s_live) /\
  spent gate_id (accts (after claim_accounts claim_data s_live)) the_claim_id.
Proof.
  assert (H : history gate_id s_live [event_of gate_id s_live claim_accounts (decoded claim_data)]
    (after claim_accounts claim_data s_live)) by (apply tx_step; vm_compute; reflexivity).
  split; [exact H|].
  destruct (submission_spent_once gate_id gate_not_spl _ _ _ the_claim_id H) as (_ & _ & Hs & _).
  apply Hs. vm_compute. reflexivity.
Defined.

Lemma submission_refunded_once_witness :
  history gate_id s_sent [event_of gate_id s_sent refund_accounts (decoded refund_data)]
    (after refund_accounts refund_data s_sent) /\
  refunded gate_id (accts (after refund_accounts refund_data s_sent)) the_send_id.
Proof.
  assert (H : history gate_id s_sent [event_of gate_id s_sent refund_accounts (decoded refund_data)]
    (after refund_accounts refund_data s_sent)) by (apply tx_step; vm_compute; reflexivity).
  split; [exact H|].
  destruct (submission_refunded_once gate_id gate_not_spl _ _ _ the_send_id H) as (_ & _ & Hs & _).
  apply Hs. vm_compute. reflexivity.
Defined.

Lemma live_config_inv : config_inv live_config.
Proof.
  constructor; try (apply (bool_decide_unpack _); vm_compute; exact I).
Qed.

Lemma gate_refines_governance_witness :
  config_at gate_id (accts s_live) live_config /\ config_inv live_config /\
  exists c', config_at gate_id (accts (after guardian_accounts [Byte.x07] s_live)) c' /\ config_inv c'.
Proof.
  assert (Hc : config_at gate_id (accts s_live) live_config) by (apply config_in_at; vm_compute; reflexivity).
  assert (Hk : is_i 64 (clock s_live)) by by_eval.
  assert (H : process_instruction gate_id guardian_accounts [Byte.x07] s_live =
    Ok (tt, after guardian_accounts [Byte.x07] s_live)) by (apply run_Ok; vm_compute; reflexivity).
  split; [exact Hc|]. split; [exact live_config_inv|].
  destruct (gate_refines_governance gate_id gate_not_spl sample_config_isolated _ _ _ _ live_config Hk H Hc live_config_inv)
    as (c' & Hc' & Hi & _). exists c'. split; [exact Hc'|exact Hi].
Defined.

Lemma guardian_only_stops_witness :
  let s' := after guardian_accounts [Byte.x07] s_live in
  ~ signed guardian_accounts (cfg_owner live_config) /\ config_at gate_id (accts s') (config_in s') /\
  (config_in s' = live_config \/
   (exists chain, bump_nonce live_config chain = Ok (config_in s') /\ cfg_paused live_config = false /\
      cfg_sealed live_config = true) \/
   (config_in s' = with_paused live_config true /\ cfg_guardian live_config <> pubkey_default /\
      signed guardian_accounts (cfg_guardian live_config))).
Proof.
  intros s'.
  assert (Hc : config_at gate_id (accts s_live) live_config) by (apply config_in_at; vm_compute; reflexivity).
  assert (Hc' : config_at gate_id (accts s') (config_in s')) by (apply config_in_at; vm_compute; reflexivity).
  assert (Hk : is_i 64 (clock s_live)) by by_eval.
  assert (H : process_instruction gate_id guardian_accounts [Byte.x07] s_live = Ok (tt, s'))
    by (apply run_Ok; vm_compute; reflexivity).
  assert (Hn : ~ signed guardian_accounts (cfg_owner live_config)).
  { assert (Ho : cfg_owner live_config = deployer) by (apply (bool_decide_unpack _); vm_compute; exact I).
    rewrite Ho. clear. intros (ai & Hin & Hk & Hsg). unfold guardian_accounts in Hin.
    repeat (apply elem_of_cons in Hin as [->|Hin]; [try discriminate Hsg; apply (f_equal arr_bytes) in Hk; discriminate Hk|]).
    by apply elem_of_nil in Hin. }
  split; [exact Hn|]. split; [exact Hc'|].
  exact (guardian_only_stops gate_id gate_not_spl sample_config_isolated _ _ _ _ _ _ Hk H Hc Hc' Hn).
Defined.

Lemma send_nonces_consecutive_witness :
  let s' := after send_accounts send_data s_live in
  history gate_id s_live [event_of gate_id s_live send_accounts (decoded send_data)] s' /\
  exists c', config_at gate_id (accts s') c' /\ nonce c' remote_chain = nonce live_config remote_chain + 1.
Proof.
  intros s'.
  assert (H : history gate_id s_live [event_of gate_id s_live send_accounts (decoded send_data)] s')
    by (apply tx_step; vm_compute; reflexivity).
  assert (Hc : config_at gate_id (accts s_live) live_config) by (apply config_in_at; vm_compute; reflexivity).
  split; [exact H|].
  destruct (send_nonces_consecutive gate_id gate_not_spl sample_config_isolated _ _ _ _ remote_chain H Hc)
    as (c' & Hc' & _ & _ & _ & Hn). exists c'. split; [exact Hc'|]. rewrite Hn.
  apply (f_equal (Z.add _)). vm_compute. reflexivity.
Defined.

(** ** The timelock *)

Definition new_validator : evm_address := validator_address Byte.x03.
Definition add_id : hash32 := add_validator_action_id new_validator.
Definition schedule_accounts : list account_info :=
  [ro (pda config_seeds); sg deployer; rw (pda (gov_seeds add_id)); ro toy_system].
Definition schedule_data : list byte := enc_gate_ix (ScheduleAction (GA_AddValidator new_validator)).
Definition s_sched : ledger := after schedule_accounts schedule_data s_live.
(** Two days and an hour later. *)
Definition later (s : ledger) (d : Z) : ledger := Ledger (accts s) (clock s + d) (logs s).
Lemma later_env s d : 0 <= d -> environment gate_id s (later s d).
Proof. intros Hd. constructor; [apply evolves_refl|simpl; lia]. Qed.
Lemma later_acct s d k : acct (accts (later s d)) k = acct (accts s) k.
Proof. reflexivity. Qed.
Definition s_ready : ledger := later s_sched (GOVERNANCE_DELAY + 3600).
Definition set_validator_accounts : list account_info :=
  [rw (pda config_seeds); sg deployer; rw (pda (gov_seeds add_id))].
Definition set_validator_data : list byte := enc_gate_ix (SetValidator new_validator true).
Definition s_added : ledger := after set_validator_accounts set_validator_data s_ready.

Lemma in_window_eval r now : (0 <? r) && (r <=? now) && (now <=? i_saturating_add 64 r GOVERNANCE_GRACE) = true ->
  in_window r now.
Proof. intros H. bool_inv. unfold in_window. lia. Qed.
Lemma ready_matured : matured gate_id s_ready add_id.
Proof.
  exists (default GovernanceSchedule_default (schedule_at gate_id s_ready add_id)). split.
  - apply some_default. vm_compute. reflexivity.
  - apply in_window_eval. vm_compute. reflexivity.
Qed.
Lemma timelock_48h_witness :
  exists evs, (forall g, ~ approved gate_id add_id s_live g) /\ history gate_id s_live evs s_ready /\
    matured gate_id s_ready add_id /\
    exists pre post s1 s2, evs = pre ++ EvSchedule add_id (clock s1) :: post /\ owner_scheduled gate_id add_id s1 s2 /\
      clock s1 + GOVERNANCE_DELAY <= clock s_ready.
Proof.
  assert (Hn : forall g, ~ approved gate_id add_id s_live g).
  { intros g [Hg _]. assert (E : is_some (schedule_at gate_id s_live add_id) = false) by (vm_compute; reflexivity).
    rewrite Hg in E. discriminate E. }
  assert (H : history gate_id s_live ([event_of gate_id s_live schedule_accounts (decoded schedule_data)] ++ [EvOther]) s_ready).
  { unfold s_ready. apply (HistorySnoc gate_id s_live _ s_sched).
    - unfold s_sched. apply tx_step. vm_compute. reflexivity.
    - apply GateEnv, later_env. apply (bool_decide_unpack _). vm_compute. exact I. }
  assert (Hi : gov_isolated gate_id add_id) by (apply sample_gov_isolated; vm_compute; reflexivity).
  eexists. split; [exact Hn|]. split; [exact H|]. split; [exact ready_matured|].
  destruct (timelock_48h gate_id gate_not_spl add_id Hi _ _ _ Hn H ready_matured) as (pre & post & s1 & s2 & He & _ & _ & Ho & _ & Ht & _).
  exists pre, post, s1, s2. split; [exact He|]. split; [exact Ho|exact Ht].
Defined.

Lemma power_needs_timelock_witness :
  config_at gate_id (accts s_ready) (config_in s_ready) /\ config_at gate_id (accts s_added) (config_in s_added) /\
  (new_validator ∈ cfg_validators (config_in s_added)) /\ (new_validator ∉ cfg_validators (config_in s_ready)) /\
  signed set_validator_accounts (cfg_owner (config_in s_ready)) /\ matured gate_id s_ready add_id.
Proof.
  assert (Hc : config_at gate_id (accts s_ready) (config_in s_ready)) by (apply config_in_at; vm_compute; reflexivity).
  assert (Hc' : config_at gate_id (accts s_added) (config_in s_added)) by (apply config_in_at; vm_compute; reflexivity).
  assert (Hk : is_i 64 (clock s_ready)) by by_eval.
  assert (H : process_instruction gate_id set_validator_accounts set_validator_data s_ready = Ok (tt, s_added))
    by (unfold s_added, after at 1; apply run_Ok; vm_compute; reflexivity).
  assert (Hin : new_validator ∈ cfg_validators (config_in s_added)) by by_eval.
  assert (Hout : new_validator ∉ cfg_validators (config_in s_ready)) by by_eval.
  split; [exact Hc|]. split; [exact Hc'|]. split; [exact Hin|]. split; [exact Hout|].
  destruct (power_needs_timelock gate_id gate_not_spl sample_config_isolated _ _ _ _ _ _ Hk H Hc Hc') as (Hv & _).
  exact (Hv _ Hin Hout).
Defined.

Definition gov_ai : account_info := rw (pda (gov_seeds add_id)).
Definition write_it : prog Z := write_schedule gate_id (sg deployer) gov_ai (ro toy_system) add_id.
Definition s_written : ledger := run write_it s_live.
Definition s_early : ledger := later s_written 3600.
Lemma schedule_lifecycle_witness :
  exists r, write_it s_live = Ok (r, s_written) /\
    r = clock s_live + GOVERNANCE_DELAY /\ consume_governance gate_id gov_ai add_id s_early = Err (gate_err GovernanceNotReady).
Proof.
  assert (Hr : exists r, write_it s_live = Ok (r, s_written)) by (unfold s_written; apply run_value; vm_compute; reflexivity).
  destruct Hr as [r Hr]. assert (H0 : 0 <= clock s_live) by by_eval.
  exists r. split; [exact Hr|]. unfold write_it in Hr.
  assert (Ha : acct (accts s_early) (ai_key gov_ai) = acct (accts s_written) (ai_key gov_ai))
    by (unfold s_early; apply later_acct).
  destruct (schedule_lifecycle gate_id (sg deployer) gov_ai (ro toy_system) add_id s_live r s_written s_early H0 Hr Ha)
    as (Er & Hearly & _).
  split; [exact Er|]. apply Hearly. rewrite Er. apply (bool_decide_unpack _). vm_compute. exact I.
Defined.

(** ** State and identifiers *)

Lemma config_store_load_witness :
  Config_wf live_config /\ is_config_account gate_id s_live (pda config_seeds) /\
  exists s', store live_config (rw (pda config_seeds)) s_live = Ok (tt, s').
Proof.
  assert (Hw : Config_wf live_config) by (apply (@bool_decide_unpack _ (Config_wf_dec live_config)); vm_compute; exact I).
  assert (Hk : is_config_account gate_id s_live (pda config_seeds)).
  { split; [reflexivity|]. apply (bool_decide_unpack _). vm_compute. exact I. }
  split; [exact Hw|]. split; [exact Hk|].
  pose proof (config_store_load gate_id live_config (rw (pda config_seeds)) s_live Hw Hk) as H. cbv zeta in H.
  rewrite bool_decide_eq_true_2 in H by by_eval. destruct H as (s' & Hs & _). exists s'. exact Hs.
Defined.

Definition sample_asset : AssetConfig := MkAssetConfig asset_id mint_key vault_key 6 8.
Lemma wire_local_exact_witness :
  AssetConfig_wf sample_asset /\ unit_of sample_asset = Ok 100 /\ to_local sample_asset 10 = Ok 1000 /\
  match unit_of sample_asset with Ok u => u = 10 ^ 2 | Err _ => False end.
Proof.
  assert (Hw : AssetConfig_wf sample_asset) by by_eval.
  split; [exact Hw|]. split; [reflexivity|]. split; [reflexivity|].
  pose proof (wire_local_exact sample_asset Hw) as H. destruct (unit_of sample_asset) as [u|e] eqn:E.
  - destruct H as (Hu & _). exact Hu.
  - discriminate E.
Defined.

Definition sample_transfer : transfer :=
  Transfer domain asset_id 6 25 SOLANA_CHAIN_ID remote_chain 0 (replicate 20 Byte.x55) None (arr_bytes wallet).
Lemma sample_transfer_wf : transfer_wf sample_transfer.
Proof.
  split_and!; try by_eval. intros a Ha. discriminate Ha.
Qed.
Lemma transfer_preimage_inj_witness :
  transfer_wf sample_transfer /\ transfer_id sample_transfer = keccak (transfer_preimage sample_transfer).
Proof.
  split; [exact sample_transfer_wf|].
  exact (proj1 (transfer_preimage_inj sample_transfer sample_transfer sample_transfer_wf sample_transfer_wf)).
Defined.
Lemma action_preimage_inj_witness :
  gov_change_wf (ChangeLowerThreshold 1) /\
  action_id (ChangeLowerThreshold 1) = keccak (action_preimage (ChangeLowerThreshold 1)).
Proof.
  assert (Hw : gov_change_wf (ChangeLowerThreshold 1)) by (unfold gov_change_wf; by_eval).
  split; [exact Hw|]. exact (proj1 (action_preimage_inj (ChangeLowerThreshold 1) (ChangeLowerThreshold 1) Hw Hw)).
Defined.
Lemma compute_id_is_gate_id_witness :
  transfer_wf sample_transfer /\ compute_id (submission_of sample_transfer) = transfer_id sample_transfer.
Proof.
  split; [exact sample_transfer_wf|]. exact (proj1 (compute_id_is_gate_id sample_transfer sample_transfer_wf)).
Defined.
