(* ===== verification/PoolWitness.v ===== *)
(** The pool and its pricing on concrete values: a deployment of the swap program on
    the sample runtime, and numbers for the theorems about quotes, the planner and
    price strings. *)

From S2P Require Import Prelude.
From S2P Require Import Borsh.
From S2P Require Import SolanaRuntime.
From S2P Require Import GateTypes.
From S2P Require Import GateState.
From S2P Require Import SwapMath.
From S2P Require Import SolanaSwap.
From S2P Require Import PoolEffects.
From S2P Require Import PoolSafety.
From S2P Require Import Codecs.
From S2P Require Import Sample.


Definition pool_id : pubkey := key Byte.xa0.
Definition owner_key : pubkey := key Byte.xa1.
Definition oracle_key : pubkey := key Byte.xa2.
Definition trader : pubkey := key Byte.xa3.
Definition hub_mint : pubkey := key Byte.xa4.
Definition tok_mint : pubkey := key Byte.xa5.
Definition hub_vault : pubkey := key Byte.xa6.
Definition tok_vault : pubkey := key Byte.xa7.
Definition owner_hub : pubkey := key Byte.xa8.
Definition owner_tok : pubkey := key Byte.xa9.
Definition trader_hub : pubkey := key Byte.xaa.
Definition trader_tok : pubkey := key Byte.xab.
Definition now0 : Z := 1750000000.

Definition pool_data_key : pubkey := fst (toy_find [arr_bytes pool_id] toy_loader).
Definition pool_genesis : ledger := Ledger
  (<[owner_key := Account 1000000 toy_system []]> $
   <[pool_data_key := Account 1 toy_loader (Byte.x03 :: enc (c_option (c_arr 32)) (Some owner_key))]> $
   <[pool_id := Account 1 toy_loader []]> $
   <[hub_mint := Account 1 toy_spl [Byte.x06]]> $ <[tok_mint := Account 1 toy_spl [Byte.x08]]> $
   <[hub_vault := Account 1 toy_spl (token hub_mint (pool_authority pool_id) 0)]> $
   <[tok_vault := Account 1 toy_spl (token tok_mint (pool_authority pool_id) 0)]> $
   <[owner_hub := Account 1 toy_spl (token hub_mint owner_key 9000000)]> $
   <[owner_tok := Account 1 toy_spl (token tok_mint owner_key 900000000)]> $
   <[trader_hub := Account 1 toy_spl (token hub_mint trader 5000000)]> $
   <[trader_tok := Account 1 toy_spl (token tok_mint trader 0)]> ∅) now0 [].

Definition hub_rec : pubkey := token_account_of pool_id hub_mint.
Definition tok_rec : pubkey := token_account_of pool_id tok_mint.
Definition pool_init_args : InitPoolArgs := MkInitPoolArgs 30 1000 60 pubkey_default oracle_key.
Definition pool_init_accounts : list account_info :=
  [rw (pool_account pool_id); sg owner_key; ro hub_mint; ro hub_vault; rw hub_rec; ro toy_spl; ro toy_system;
   ro pool_id; ro pool_data_key].
Definition list_accounts : list account_info :=
  [ro (pool_account pool_id); sg owner_key; ro tok_mint; ro tok_vault; rw tok_rec; ro toy_spl; ro toy_system].
Definition seed_hub_accounts : list account_info :=
  [ro (pool_account pool_id); sg owner_key; rw hub_rec; rw owner_hub; rw hub_vault; ro hub_mint;
   ro (pool_authority pool_id); ro toy_spl].
Definition seed_tok_accounts : list account_info :=
  [ro (pool_account pool_id); sg owner_key; rw tok_rec; rw owner_tok; rw tok_vault; ro tok_mint;
   ro (pool_authority pool_id); ro toy_spl].
Definition swap_accounts : list account_info :=
  [ro (pool_account pool_id); sg trader; rw hub_rec; rw tok_rec; rw trader_hub; rw trader_tok; rw hub_vault;
   rw tok_vault; ro hub_mint; ro tok_mint; ro (pool_authority pool_id); ro toy_spl].
Definition price_accounts : list account_info := [ro (pool_account pool_id); sg oracle_key; rw tok_rec].

(** The listed token starts at 2.0. *)
Definition tx (accounts : list account_info) (ix : SwapInstruction) : prog unit :=
  swap_process_instruction pool_id accounts (enc_swap_ix ix).
Definition p_init : ledger := run (tx pool_init_accounts (SwapInit pool_init_args)) pool_genesis.
Definition p_list : ledger := run (tx list_accounts (ListToken (2 * PRICE_ONE))) p_init.
Definition p_hub : ledger := run (tx seed_hub_accounts (SeedLiquidity 3000000)) p_list.
Definition p_live : ledger := run (tx seed_tok_accounts (SeedLiquidity 400000000)) p_hub.
Definition p_swapped : ledger := run (process_swap pool_id swap_accounts 1000000 1) p_live.
Definition p_priced : ledger := run (process_set_price pool_id price_accounts (2 * PRICE_ONE) (21 * PRICE_ONE / 10)) p_live.

Lemma pool_runs : succeeds (tx pool_init_accounts (SwapInit pool_init_args)) pool_genesis
  && succeeds (tx list_accounts (ListToken (2 * PRICE_ONE))) p_init
  && succeeds (tx seed_hub_accounts (SeedLiquidity 3000000)) p_list
  && succeeds (tx seed_tok_accounts (SeedLiquidity 400000000)) p_hub
  && succeeds (process_swap pool_id swap_accounts 1000000 1) p_live
  && succeeds (process_set_price pool_id price_accounts (2 * PRICE_ONE) (21 * PRICE_ONE / 10)) p_live = true.
Proof. vm_compute. reflexivity. Qed.
(** One hub coin less 0.3% buys 0.4985 of a token worth two. *)
Example swap_balances : token_balance (accts p_swapped) trader_tok = 49850000 /\
  token_balance (accts p_swapped) tok_vault = 350150000 /\ token_balance (accts p_swapped) hub_vault = 4000000.
Proof. vm_compute. auto. Qed.

(** * Witnesses *)

Lemma pool_not_spl : pool_id <> spl_token_id.
Proof. by vm_compute. Qed.
Lemma sample_pool_isolated mint : token_account_of pool_id mint <> pool_account pool_id.
Proof.
  assert (Hp : arr_bytes (pool_account pool_id) = byte_of_Z 9 :: zeros 31) by (vm_compute; reflexivity).
  intros E. apply (f_equal arr_bytes) in E. rewrite Hp in E. apply (eq_trans (eq_sym (pda_bytes _ _ pool_id))) in E.
  injection E as E _. unfold id_mark in E. case_bool_decide; by vm_compute in E.
Qed.
Lemma unowned_genesis a : acc_owner (acct (accts pool_genesis) a) <> pool_id.
Proof.
  assert (H : map_Forall (fun _ x => acc_owner x <> pool_id) (accts pool_genesis)).
  { apply (@bool_decide_unpack _ (map_Forall_dec _ _)). vm_compute. exact I. }
  unfold acct. destruct (accts pool_genesis !! a) as [x|] eqn:E; simpl; [by apply (H a)|by vm_compute].
Qed.
Lemma genesis_no_pool : no_pool_yet pool_id pool_genesis.
Proof. split; [intros a r (Ho & _)|intros p (Ho & _)]; by apply unowned_genesis in Ho. Qed.

Lemma no_signer l : bool_decide (Forall (fun ai => is_signer ai = true -> ai_key ai <> pool_authority pool_id) l) = true ->
  no_pool_signer pool_id l.
Proof. intros Hl%bool_decide_eq_true ai Hin. by eapply Forall_forall in Hl. Qed.

Definition swap_decoded (ix : SwapInstruction) : SwapInstruction :=
  default SwapPause (swap_ix_try_from_slice (enc_swap_ix ix)).
Definition is_init (ix : SwapInstruction) : bool := match ix with SwapInit _ => true | _ => false end.
Lemma tx_pool_step accounts ix s : bool_decide (is_i 64 (clock s)) && is_some (swap_ix_try_from_slice (enc_swap_ix ix))
  && bool_decide (Forall (fun ai => is_signer ai = true -> ai_key ai <> pool_authority pool_id) accounts)
  && succeeds (tx accounts ix) s = true ->
  is_init (swap_decoded ix) = false \/ hub_record_named pool_id accounts ->
  pool_step pool_id s (run (tx accounts ix) s).
Proof.
  intros (((Hc%bool_decide_eq_true & Hd)%andb_true_iff & Hn)%andb_true_iff & Hs)%andb_true_iff Hi.
  apply (PoolTx pool_id s accounts (enc_swap_ix ix) (swap_decoded ix)); [done|by apply some_default|by apply no_signer| |by apply run_Ok].
  intros args Ha. destruct Hi as [Hi|Hi]; [by rewrite Ha in Hi|done].
Qed.
Lemma init_named : hub_record_named pool_id pool_init_accounts.
Proof. intros mint rec [= <-] [= <-]. reflexivity. Qed.
Lemma live_reachable : pool_reachable pool_id p_live.
Proof.
  exists pool_genesis. split; [exact genesis_no_pool|].
  eapply rtc_l; [apply (tx_pool_step pool_init_accounts (SwapInit pool_init_args)); [vm_compute; reflexivity|by right; apply init_named]|].
  eapply rtc_l; [apply (tx_pool_step list_accounts (ListToken (2 * PRICE_ONE))); [vm_compute; reflexivity|by left; vm_compute]|].
  eapply rtc_l; [apply (tx_pool_step seed_hub_accounts (SeedLiquidity 3000000)); [vm_compute; reflexivity|by left; vm_compute]|].
  eapply rtc_l; [apply (tx_pool_step seed_tok_accounts (SeedLiquidity 400000000)); [vm_compute; reflexivity|by left; vm_compute]|].
  apply rtc_refl.
Qed.

Definition no_token : TokenState := MkTokenState pubkey_default pubkey_default 0 0 0 0 false 0.
Definition token_in (s : ledger) (mint : pubkey) : TokenState :=
  default no_token (borsh_de (acc_data (acct (accts s) (token_account_of pool_id mint)))).
Definition no_pool : PoolState := MkPoolState pubkey_default pubkey_default pubkey_default pubkey_default 0 0 0 false 0.
Definition pool_in (s : ledger) : PoolState :=
  default no_pool (borsh_de (acc_data (acct (accts s) (pool_account pool_id)))).
Lemma token_in_at s mint : bool_decide (acc_owner (acct (accts s) (token_account_of pool_id mint)) = pool_id)
  && is_some (@borsh_de TokenState _ (acc_data (acct (accts s) (token_account_of pool_id mint))))
  && tk_listed (token_in s mint) = true -> record_at pool_id (accts s) mint (token_in s mint).
Proof.
  intros ((Ho%bool_decide_eq_true & Hd)%andb_true_iff & Hl)%andb_true_iff. split_and!; [done| |done].
  by apply some_default.
Qed.
Lemma pool_in_at s : bool_decide (acc_owner (acct (accts s) (pool_account pool_id)) = pool_id)
  && is_some (@borsh_de PoolState _ (acc_data (acct (accts s) (pool_account pool_id)))) = true ->
  pool_at pool_id (accts s) (pool_in s).
Proof. intros (Ho%bool_decide_eq_true & Hd)%andb_true_iff. split; [done|]. by apply some_default. Qed.

Lemma pool_always_solvent_witness :
  pool_reachable pool_id p_live /\ record_at pool_id (accts p_live) tok_mint (token_in p_live tok_mint) /\
  vault_backs pool_id (accts p_live) (token_in p_live tok_mint) 0 /\ tk_reserve (token_in p_live tok_mint) = 400000000.
Proof.
  assert (Hr : record_at pool_id (accts p_live) tok_mint (token_in p_live tok_mint)) by (apply token_in_at; vm_compute; reflexivity).
  split; [exact live_reachable|]. split; [exact Hr|]. split; [|vm_compute; reflexivity].
  exact (proj2 (pool_always_solvent pool_id pool_not_spl sample_pool_isolated p_live tok_mint _ live_reachable Hr)).
Defined.
Lemma pool_parameters_bounded_witness :
  pool_reachable pool_id p_live /\ pool_at pool_id (accts p_live) (pool_in p_live) /\ pool_ok (pool_in p_live).
Proof.
  assert (Hp : pool_at pool_id (accts p_live) (pool_in p_live)) by (apply pool_in_at; vm_compute; reflexivity).
  split; [exact live_reachable|]. split; [exact Hp|].
  exact (proj1 (pool_parameters_bounded pool_id pool_not_spl sample_pool_isolated p_live _ live_reachable Hp)).
Defined.
Lemma swap_pays_quote_witness :
  is_u 64 1000000 /\ process_swap pool_id swap_accounts 1000000 1 p_live = Ok (tt, p_swapped) /\
  exists pool user out mu m1 m2 ui uo mi mo ri ro,
    swap_effect pool_id swap_accounts 1000000 1 p_live p_swapped pool (ai_key user) ui uo mi mo ri ro out mu m1 m2.
Proof.
  assert (Hu : is_u 64 1000000) by by_eval.
  assert (H : process_swap pool_id swap_accounts 1000000 1 p_live = Ok (tt, p_swapped)) by by_run p_swapped.
  split; [exact Hu|]. split; [exact H|].
  destruct (swap_pays_quote pool_id pool_not_spl swap_accounts 1000000 1 p_live p_swapped Hu H)
    as (pool & user & ui & uo & mi & mo & ri & ro & out & mu & m1 & m2 & He & _).
  exists pool, user, out, mu, m1, m2, ui, uo, mi, mo, ri, ro. exact He.
Defined.
Lemma set_price_guarded_witness :
  process_set_price pool_id price_accounts (2 * PRICE_ONE) (21 * PRICE_ONE / 10) p_live = Ok (tt, p_priced) /\
  exists pool r, price_effect pool_id price_accounts (2 * PRICE_ONE) (21 * PRICE_ONE / 10) p_live p_priced pool r.
Proof.
  assert (Hk : is_i 64 (clock p_live)) by by_eval. assert (Hu : is_u 128 (21 * PRICE_ONE / 10)) by by_eval.
  assert (H : process_set_price pool_id price_accounts (2 * PRICE_ONE) (21 * PRICE_ONE / 10) p_live = Ok (tt, p_priced))
    by by_run p_priced.
  split; [exact H|].
  destruct (set_price_guarded pool_id pool_not_spl price_accounts _ _ p_live p_priced Hk Hu H) as (pool & r & He & _).
  exists pool, r. exact He.
Defined.

Definition live_tok : TokenState := token_in p_live tok_mint.
Definition the_plan : Plan := plan (keeper_price_state (pool_in p_live) live_tok (clock p_live)) (21 * PRICE_ONE / 10) 3600.
Definition keeper_ix : list account_info * SwapInstruction :=
  default ([], SwapPause) (keeper_instruction (pool_account pool_id) (pl_oracle (pool_in p_live))
    (token_account_of pool_id (tk_mint live_tok)) the_plan).
(** The step the keeper takes from 2.0 towards 2.1: the fee, 0.3%. *)
Example keeper_step : the_plan = PlanSet (2 * PRICE_ONE) (2006 * PRICE_ONE / 1000) true.
Proof. vm_compute. reflexivity. Qed.
Lemma keeper_update_lands_witness :
  pool_at pool_id (accts p_live) (pool_in p_live) /\
  exists price s', snd keeper_ix = SetPriceFrom (tk_price live_tok) price /\
    swap_dispatch pool_id (fst keeper_ix) (snd keeper_ix) p_live = Ok (tt, s').
Proof.
  assert (Hp : pool_at pool_id (accts p_live) (pool_in p_live)) by (apply pool_in_at; vm_compute; reflexivity).
  assert (Hok : pool_ok (pool_in p_live)) by (constructor; by_eval).
  assert (Hm : tk_mint live_tok = tok_mint) by (apply (bool_decide_unpack _); vm_compute; exact I).
  assert (Hr : record_at pool_id (accts p_live) (tk_mint live_tok) live_tok).
  { rewrite Hm. unfold live_tok. apply token_in_at. vm_compute. reflexivity. }
  assert (Hh : tk_mint live_tok <> pl_hub_mint (pool_in p_live)) by by_eval.
  assert (H0 : 0 < tk_price live_tok) by by_eval. assert (Hk : is_i 64 (clock p_live)) by by_eval.
  assert (Ht : is_u 128 (21 * PRICE_ONE / 10)) by by_eval. assert (Ht0 : 0 < 21 * PRICE_ONE / 10) by by_eval.
  assert (Hi : keeper_instruction (pool_account pool_id) (pl_oracle (pool_in p_live))
    (token_account_of pool_id (tk_mint live_tok)) the_plan = Some keeper_ix).
  { unfold keeper_ix. apply some_default. vm_compute. reflexivity. }
  split; [exact Hp|].
  destruct (keeper_update_lands pool_id (pool_in p_live) live_tok (21 * PRICE_ONE / 10) 3600 p_live keeper_ix
    Hp Hok Hr Hh H0 Hk Ht Ht0 Hi) as (price & s' & H1 & H2 & _).
  exists price, s'. split; [exact H1|exact H2].
Defined.

Definition owner_accounts : list account_info := [rw (pool_account pool_id); sg owner_key].
Definition p_fee : ledger := run (tx owner_accounts (SetFee 100)) p_live.
Lemma pool_changes_authorized_witness :
  pool_at pool_id (accts p_live) (pool_in p_live) /\ pool_at pool_id (accts p_fee) (pool_in p_fee) /\
  pl_fee_bps (pool_in p_fee) = 100 /\ pl_owner (pool_in p_fee) = pl_owner (pool_in p_live).
Proof.
  assert (Hp : pool_at pool_id (accts p_live) (pool_in p_live)) by (apply pool_in_at; vm_compute; reflexivity).
  assert (Hp' : pool_at pool_id (accts p_fee) (pool_in p_fee)) by (apply pool_in_at; vm_compute; reflexivity).
  assert (Hk : is_i 64 (clock p_live)) by by_eval.
  assert (Hix : swap_ix_try_from_slice (enc_swap_ix (SetFee 100)) = Some (swap_decoded (SetFee 100))).
  { apply some_default. vm_compute. reflexivity. }
  assert (H : swap_process_instruction pool_id owner_accounts (enc_swap_ix (SetFee 100)) p_live = Ok (tt, p_fee)).
  { unfold p_fee, tx at 1. apply run_Ok. vm_compute. reflexivity. }
  split; [exact Hp|]. split; [exact Hp'|]. split; [vm_compute; reflexivity|].
  exact (proj1 (pool_changes_authorized pool_id pool_not_spl sample_pool_isolated _ _ _ _ _ _ _ Hk Hix H Hp Hp')).
Defined.

(** ** Pricing *)

Lemma sample_quote : quote_wf 1000000 PRICE_ONE 6 (2 * PRICE_ONE) 8 30.
Proof. constructor; by_eval. Qed.
Lemma amount_out_exact_witness :
  quote_wf 1000000 PRICE_ONE 6 (2 * PRICE_ONE) 8 30 /\
  amount_out 1000000 PRICE_ONE 6 (2 * PRICE_ONE) 8 30 = Some 49850000 /\
  49850000 * (2 * PRICE_ONE) * 10 ^ 6 <= 1000000 * PRICE_ONE * 10 ^ 8.
Proof.
  assert (Ho : amount_out 1000000 PRICE_ONE 6 (2 * PRICE_ONE) 8 30 = Some 49850000) by (vm_compute; reflexivity).
  assert (Hf : 30 <= BPS_DENOM) by (vm_compute; discriminate).
  split; [exact sample_quote|]. split; [exact Ho|].
  exact (proj2 (amount_out_exact _ _ _ _ _ _ sample_quote Hf) _ Ho).
Defined.
Lemma round_trip_never_profits_witness :
  exists back, amount_out 49850000 (2006 * PRICE_ONE / 1000) 8 PRICE_ONE 6 30 = Some back /\ back <= 1000000.
Proof.
  assert (Ho : amount_out 1000000 PRICE_ONE 6 (2 * PRICE_ONE) 8 30 = Some 49850000) by (vm_compute; reflexivity).
  assert (Hb : amount_out 49850000 (2006 * PRICE_ONE / 1000) 8 PRICE_ONE 6 30 = Some 996991) by (vm_compute; reflexivity).
  assert (Hq : quote_wf 49850000 (2006 * PRICE_ONE / 1000) 8 PRICE_ONE 6 30) by (constructor; by_eval).
  assert (Hf : 30 <= MAX_FEE_BPS) by (vm_compute; discriminate).
  assert (Hs : (2006 * PRICE_ONE / 1000) * BPS_DENOM <= (2 * PRICE_ONE) * (BPS_DENOM + 30)) by (vm_compute; discriminate).
  eexists. split; [exact Hb|].
  exact (proj1 (round_trip_never_profits PRICE_ONE 6 8 (2 * PRICE_ONE) (2006 * PRICE_ONE / 1000) 30 1000000 49850000 996991
    sample_quote Hq Hf) Hs Ho Hb).
Defined.

Definition sample_price_state : PriceState := MkPriceState now0 (2 * PRICE_ONE) (now0 - 90000) (now0 - 90000) (Some 86400) 60 1000 30.
Lemma sample_price_state_wf : PriceState_wf sample_price_state.
Proof. constructor; try by_eval. intros m [= <-]. by_eval. Qed.
Lemma plan_respects_guards_witness :
  PriceState_wf sample_price_state /\
  match plan sample_price_state (3 * PRICE_ONE) 3600 with
  | PlanSet from price step => 0 < price /\ Z.abs (price - from) <= step_cap sample_price_state /\ step = true
  | _ => False
  end.
Proof.
  assert (Hd : ps_max_deviation_bps sample_price_state <= BPS_DENOM) by (vm_compute; discriminate).
  assert (Ht : is_u 128 (3 * PRICE_ONE)) by by_eval. assert (Ht0 : 0 < 3 * PRICE_ONE) by by_eval.
  assert (Hp : 0 < ps_price sample_price_state) by by_eval.
  split; [exact sample_price_state_wf|].
  pose proof (plan_respects_guards sample_price_state (3 * PRICE_ONE) 3600 sample_price_state_wf Hd Ht Ht0 Hp) as H.
  assert (E : plan sample_price_state (3 * PRICE_ONE) 3600 = PlanSet (2 * PRICE_ONE) (2006 * PRICE_ONE / 1000) true)
    by (vm_compute; reflexivity).
  rewrite E in *. destruct H as (_ & _ & H1 & _ & H2 & _). split; [exact H1|]. split; [exact H2|reflexivity].
Defined.
Lemma due_in_agrees_witness :
  due_in sample_price_state 3600 = Some 0 /\ is_due sample_price_state 3600 = true.
Proof.
  assert (Hm : is_i 64 3600) by by_eval. assert (Hn : ps_now sample_price_state < i_max 64) by (vm_compute; reflexivity).
  assert (E : due_in sample_price_state 3600 = Some 0) by (vm_compute; reflexivity).
  split; [exact E|].
  pose proof (due_in_agrees sample_price_state 3600 sample_price_state_wf Hm Hn) as H. rewrite E in H.
  exact (proj1 (proj2 H) eq_refl).
Defined.
