(* ===== verification/HostSample.v ===== *)
(** Concrete instances of what the off-chain processes take from libraries: hex as the
    crate prints it, an event line codec, signing and recovery that fit the sample
    runtime. They show that the laws the host-side theorems assume can hold. *)

From S2P Require Import Prelude.
From S2P Require Import Borsh.
From S2P Require Import Text.
From S2P Require Import SolanaRuntime.
From S2P Require Import GateTypes.
From S2P Require Import LogScan.
From S2P Require Import HostVerify.
From S2P Require Import HostRecord.
From S2P Require Import AbiParams.
From S2P Require Import SigStore.
From S2P Require Import Codecs.
From S2P Require Import Sample.

(** * Hexadecimal *)

Definition hex_digit (n : Z) : Z := if n <? 10 then 48 + n else 87 + n.
Definition digit_value (c : Z) : option Z :=
  if (48 <=? c) && (c <=? 57) then Some (c - 48)
  else if (97 <=? c) && (c <=? 102) then Some (c - 87)
  else if (65 <=? c) && (c <=? 70) then Some (c - 55) else None.
Definition hex_of_byte (b : byte) : text := [hex_digit (Z_of_byte b / 16); hex_digit (Z_of_byte b mod 16)].
Definition sample_hex_encode (l : list byte) : text := concat (map hex_of_byte l).
Fixpoint sample_hex_decode (l : text) : option (list byte) :=
  match l with
  | [] => Some []
  | hi :: lo :: l =>
      h ← digit_value hi; d ← digit_value lo; r ← sample_hex_decode l;
      Some (byte_of_Z (16 * h + d) :: r)
  | [_] => None
  end.
#[export] Instance sample_hex : HexCodec := {| hex_encode := sample_hex_encode; hex_decode := sample_hex_decode |}.

Lemma hex_byte b : digit_value (hex_digit (Z_of_byte b / 16)) ≫= (fun h =>
  digit_value (hex_digit (Z_of_byte b mod 16)) ≫= fun d => Some (byte_of_Z (16 * h + d))) = Some b.
Proof. destruct b; reflexivity. Qed.
#[export] Instance sample_hex_laws : HexLaws.
Proof.
  constructor.
  - intros b. simpl. induction b as [|b l IH]; [done|]. pose proof (hex_byte b) as Hb.
    change (sample_hex_encode (b :: l)) with
      (hex_digit (Z_of_byte b / 16) :: hex_digit (Z_of_byte b mod 16) :: sample_hex_encode l).
    cbn [sample_hex_decode]. rewrite IH. unfold mbind, option_bind in *.
    destruct (digit_value (hex_digit (Z_of_byte b / 16))) as [h|]; [|done].
    destruct (digit_value (hex_digit (Z_of_byte b mod 16))) as [d|]; [|done]. by injection Hb as ->.
  - intros b. simpl. induction b as [|b l IH]; [done|].
    change (sample_hex_encode (b :: l)) with (hex_of_byte b ++ sample_hex_encode l).
    rewrite length_app, IH. simpl. lia.
  - intros b. simpl. induction b as [|b l IH]; [constructor|].
    change (sample_hex_encode (b :: l)) with (hex_of_byte b ++ sample_hex_encode l).
    apply Forall_app. split; [|done]. destruct b; repeat constructor.
Qed.
Lemma hex_no_ws b : no_ws (sample_hex_encode b).
Proof.
  unfold no_ws. induction b as [|b l IH]; [constructor|].
  change (sample_hex_encode (b :: l)) with (hex_of_byte b ++ sample_hex_encode l).
  apply Forall_app. split; [|done]. destruct b; repeat constructor.
Qed.

(** Base64 stands for any whitespace-free encoding. *)
#[export] Instance sample_base64 : Base64 := {| b64_encode := sample_hex_encode; b64_decode := sample_hex_decode |}.
#[export] Instance sample_base64_laws : Base64Laws.
Proof.
  constructor.
  - apply (@hex_roundtrip sample_hex _).
  - apply hex_no_ws.
  - intros b Hb E. apply (f_equal length) in E. pose proof (@hex_length sample_hex _ b) as H. simpl in *.
    rewrite E in H. by destruct b.
Qed.

(** * The event *)

#[export] Instance sample_events : EventCodec := {| SentEvent_try_from_bytes := fun l => whole (dec c_SentEvent l) |}.
#[export] Instance sample_event_laws : EventCodecLaws.
Proof.
  constructor.
  - intros e He. change (whole (dec c_SentEvent (enc c_SentEvent e)) = Some e). unfold whole.
    rewrite <- (app_nil_r (enc c_SentEvent e)), dec_enc; [done|].
    unfold SentEvent_wf in He. destruct e as [v i d m a b cf ct n r s p]. cbn -[is_u is_i] in *.
    destruct He as (? & ? & ? & ? & ? & ? & ? & ? & Hp).
    repeat (refine (conj _ _); [done|]).
    refine (conj (conj _ _) (conj (conj _ _) _)); [done|by apply valid_all|done|by apply valid_all|].
    destruct p as [w|]; [|done]. destruct (Hp w eq_refl) as (? & ? & ? & ?).
    refine (conj _ (conj _ (conj (conj _ _) (conj _ _)))); [done..|by apply valid_all|done|by apply valid_all].
  - intros e E. simpl in E. by apply (f_equal length) in E.
Qed.

(** * Signatures *)

(** The sample recovery under the range check both libraries make. *)
Definition sample_recover (d : hash32) (r : Z) (sig : list byte) : option (list byte) :=
  if Z_of_be (drop 32 sig) <? secp_n then toy_recover d r sig else None.
#[export] Instance sample_crypto : HostCrypto := {| k256_recover := sample_recover; libsecp_recover := sample_recover |}.
Lemma sample_recover_range d r sig pk : sample_recover d r sig = Some pk -> Z_of_be (drop 32 sig) < secp_n.
Proof. unfold sample_recover. destruct (Z.ltb_spec (Z_of_be (drop 32 sig)) secp_n); done. Qed.
Lemma sample_recover_agrees d r sig : Z_of_be (drop 32 sig) <= secp_n / 2 -> sample_recover d r sig = toy_recover d r sig.
Proof.
  intros H. unfold sample_recover. rewrite (proj2 (Z.ltb_lt _ _)); [done|].
  assert (secp_n / 2 < secp_n) by (apply (bool_decide_unpack _); vm_compute; exact I). lia.
Qed.
#[export] Instance sample_crypto_laws : HostCryptoLaws.
Proof.
  constructor; simpl.
  1, 2: exact sample_recover_range.
  all: intros; by apply sample_recover_agrees.
Qed.

(** A signer whose signatures the sample recovery accepts. *)
#[export] Instance sample_signer : HostSigner := {| ecdsa_sign := fun d => (arr_bytes d ++ replicate 32 Byte.x01, 0) |}.

(** * The EVM side's parsers *)

Definition parse_bytes (n : nat) (s : text) : option (arr n) := b ← sample_hex_decode (strip_0x s); arr_of_list n b.
Definition is_low (c : list byte) : bool := Z_of_be (sig_s c) <=? secp_n / 2.
Definition sample_recover_msg (m : hash32) (raw : list byte) : option evm_address :=
  c ← HostVerify.canonical_signature raw; if is_low c then recovered_address (eth_signed_digest m) c else None.
#[export] Instance sample_alloy : Alloy := {|
  b256_from_str := parse_bytes 32;
  address_from_str := parse_bytes 20;
  u256_from_str := parse_uint 256;
  auto_params_decode := fun l => match decode_evm_auto_params l with
    | Ok (Some w) => Some (GateTypes.execution_fee w, GateTypes.flags w, GateTypes.fallback_address w, GateTypes.auto_data w)
    | _ => None end;
  signature_normalized := HostVerify.canonical_signature;
  recover_address_from_msg := sample_recover_msg;
|}.

Definition lower (c : Z) : Z := if (65 <=? c) && (c <=? 90) then c + 32 else c.
Lemma digit_lower c : digit_value (lower c) = digit_value c.
Proof.
  unfold lower, digit_value.
  destruct (Z.leb_spec 65 c), (Z.leb_spec c 90), (Z.leb_spec 48 c), (Z.leb_spec c 57), (Z.leb_spec 97 c),
    (Z.leb_spec c 102), (Z.leb_spec c 70); cbn [andb]; try lia;
    repeat match goal with |- context [?a <=? ?b] => destruct (Z.leb_spec a b); cbn [andb]; try lia end;
    try done; f_equal; lia.
Qed.
Lemma decode_lower l : sample_hex_decode (map lower l) = sample_hex_decode l.
Proof.
  revert l. fix IH 1. intros [|a [|b l]]; [done|done|]. cbn [map sample_hex_decode].
  by rewrite !digit_lower, IH.
Qed.
Lemma parse_case a b x y : map lower a = map lower b -> sample_hex_decode (strip_0x a) = Some x ->
  sample_hex_decode (strip_0x b) = Some y -> x = y.
Proof.
  assert (forall a b y, map lower (txt "0x" ++ a) = map lower b -> strip_prefix (txt "0x") b = None ->
    sample_hex_decode b = Some y -> False) as Hx.
  { intros a' b' y' E Hn Hd. rewrite <- decode_lower, <- E in Hd. done. }
  intros E Ha Hb. unfold strip_0x in *.
  destruct (strip_prefix (txt "0x") a) as [a'|] eqn:Ea, (strip_prefix (txt "0x") b) as [b'|] eqn:Eb;
    cbn [from_option id] in *.
  - apply strip_prefix_Some in Ea as ->, Eb as ->. rewrite !map_app in E. apply app_inv_head in E.
    rewrite <- decode_lower, E, decode_lower in Ha. congruence.
  - apply strip_prefix_Some in Ea as ->. by destruct (Hx a' b y E Eb Hb).
  - apply strip_prefix_Some in Eb as ->. by destruct (Hx b' a x (eq_sym E) Ea Ha).
  - rewrite <- decode_lower, E, decode_lower in Ha. congruence.
Qed.
Lemma canonical_fixed c : length c = 65%nat -> sig_v c = 27 \/ sig_v c = 28 -> is_low c = true ->
  HostVerify.canonical_signature c = Some c.
Proof.
  intros Hl Hv Hlow. destruct (sig_parts c Hl) as (E & Hr & Hs). unfold HostVerify.canonical_signature.
  rewrite bool_decide_eq_true_2 by done. cbn [negb]. rewrite is_high_s_spec by done. unfold is_low in Hlow.
  apply Z.leb_le in Hlow. rewrite (proj2 (Z.ltb_ge _ _)) by done.
  assert (take 64 c ++ [byte_of_Z (sig_v c)] = c) as E'.
  { rewrite E at 3. rewrite app_assoc. f_equal. unfold sig_r, sig_s. by rewrite take_take_drop. }
  destruct Hv as [H|H]; rewrite H in *; cbn; by rewrite E'.
Qed.
#[export] Instance sample_alloy_laws : AlloyLaws.
Proof.
  constructor.
  - intros a b x y E%bool_decide_eq_true Ha Hb. unfold b256_from_str in *. simpl in *. unfold parse_bytes in *.
    apply bind_Some in Ha as (la & Ha & Hx), Hb as (lb & Hb & Hy).
    assert (la = lb) as -> by exact (parse_case a b la lb E Ha Hb). congruence.
  - intros raw c m a Hr Hc. simpl in *. unfold sample_recover_msg in *. rewrite Hc in Hr. cbn [mbind option_bind] in Hr.
    destruct (is_low c) eqn:Hlow; [|done].
    assert (HostVerify.canonical_signature c = Some c) as Hf.
    { destruct (canonical_of_signature _ _ Hc) as [odd (Hl & _ & _ & Ho)]. apply canonical_fixed; [done| |done].
      destruct (secp_n / 2 <? Z_of_be (sig_s raw)); destruct Ho as [_ ->]; destruct odd; simpl; auto. }
    rewrite Hf. cbn [mbind option_bind]. by rewrite Hlow.
  - intros raw m a Hr. simpl in *. unfold sample_recover_msg in Hr. apply bind_Some in Hr as (c & -> & _). eauto.
Qed.
#[export] Instance sample_parses : AlloyParses.
Proof.
  constructor; simpl.
  - intros a. unfold parse_bytes. rewrite strip_0x_hex. rewrite (@hex_roundtrip sample_hex _). apply arr_of_list_bytes.
  - intros z Hz. apply (parse_uint_widen 128); [lia|]. by apply parse_to_dec.
  - intros w Hw. by rewrite decode_encode.
Qed.
