(* ===== verification/HostWitness.v ===== *)
(** The off-chain processes on the sample deployment: a send, its event line, the
    signed record and the votes about it, on which every theorem about the relayers
    applies. *)

From S2P Require Import Prelude.
From S2P Require Import Borsh.
From S2P Require Import Text.
From S2P Require Import SolanaRuntime.
From S2P Require Import GateTypes.
From S2P Require Import GateHash.
From S2P Require Import GateState.
From S2P Require Import GateVerify.
From S2P Require Import GateTransfers.
From S2P Require Import GateProgram.
From S2P Require Import GateSafety.
From S2P Require Import AbiParams.
From S2P Require Import EvmReader.
From S2P Require Import LogScan.
From S2P Require Import HostVerify.
From S2P Require Import HostRecord.
From S2P Require Import Origin.
From S2P Require Import SourceScan.
From S2P Require Import Attester.
From S2P Require Import Codecs.
From S2P Require Import Sample.
From S2P Require Import HostSample.
From S2P Require Import GateWitness.
From S2P Require HostHash.

(** * Isolation on the sample *)

Lemma sample_sent_isolated (id : hash32) : head (arr_bytes id) = Some Byte.x00 -> sent_isolated gate_id id.
Proof.
  intros Hz. split.
  - intros E. symmetry in E. revert E. apply sample_config_isolated. constructor.
  - intros sd Hsd Hne. destruct Hsd; first [apply pda_tags; vm_compute; reflexivity|apply pda_same; done].
Qed.
Lemma sample_executed_isolated (id : hash32) : head (arr_bytes id) = Some Byte.x00 -> executed_isolated gate_id id.
Proof.
  intros Hz. split.
  - intros E. symmetry in E. revert E. apply sample_config_isolated. constructor.
  - intros sd Hsd Hne. destruct Hsd; first [apply pda_tags; vm_compute; reflexivity|apply pda_same; done].
Qed.

(** * The source side: a send and its event *)

Definition s_locked : ledger := after send_accounts send_data s_live.
Definition send_events : list gate_event := [event_of gate_id s_live send_accounts (decoded send_data)].
Definition sent_event : SentEvent :=
  MkSentEvent SENT_EVENT_VERSION the_send_id asset_id mint_key 25 6 SOLANA_CHAIN_ID remote_chain 0
    (replicate 20 Byte.x55) (arr_bytes wallet) None.
Definition the_sent : Sent :=
  MkSent the_send_id asset_id 25 6 SOLANA_CHAIN_ID remote_chain (replicate 20 Byte.x55) 0 (arr_bytes wallet) None.
Definition scanner : ScannerConfig := MkScannerConfig gate_id domain SOLANA_CHAIN_ID (txt "0xsigner").
Definition scanner_reads (s : ledger) : reads :=
  MkReads (fun k => Ok (accts s !! k)) (fun _ => Some (fun _ => Ok (Some 6))) None (fun _ => StoreOk).
Definition the_record : SubmissionRecord := signed_record (sc_signer_address scanner) domain the_sent.
Definition no_cache : scale_cache := ∅.

Lemma send_history : history gate_id s_live send_events s_locked.
Proof. apply tx_step. vm_compute. reflexivity. Qed.
Lemma sent_event_ok : SentEvent_wf sent_event.
Proof. unfold SentEvent_wf. cbn -[is_u]. repeat (refine (conj _ _); [by_eval|]). done. Qed.
Lemma zero_record_bytes : borsh_ser zero_record = zeros (Z.to_nat SENT_RECORD_LEN).
Proof. vm_compute. reflexivity. Qed.

(** The outcome of a scan, when it is a signed record. *)
Definition is_signed (o : result HandleError (option SubmissionRecord) * scale_cache) : bool :=
  match fst o with Ok (Some _) => true | _ => false end.
Lemma signed_outcome o : is_signed o = true -> exists rec, o = (Ok (Some rec), snd o).
Proof. destruct o as [[[rec|]|] c]; [|done..]. by exists rec. Qed.

Lemma signed_event_genuine_witness :
  exists rec cache', handle scanner (scanner_reads s_locked) no_cache sent_event the_sent = (Ok (Some rec), cache') /\
  exists pre post to n, send_events = pre ++ EvSend to n :: post.
Proof.
  assert (Hs : is_signed (handle scanner (scanner_reads s_locked) no_cache sent_event the_sent) = true)
    by (vm_compute; reflexivity).
  destruct (signed_outcome _ Hs) as [rec Hr]. exists rec. eexists. split; [exact Hr|].
  assert (Hd : ~ live gate_id (accts s_live) (sent_account gate_id the_send_id)).
  { intros [_ H]. apply H. vm_compute. reflexivity. }
  destruct (signed_event_genuine scanner gate_not_spl zero_record_bytes (scanner_reads s_locked) no_cache sent_event
    the_sent rec _ s_live send_events s_locked (sample_sent_isolated the_send_id eq_refl) sent_event_ok eq_refl
    (or_introl eq_refl) Hd send_history eq_refl Hr) as (pre & post & s1 & s2 & args & c & c' & a & w & p & u & H & _).
  exists pre, post. do 2 eexists. exact H.
Defined.

Definition sample_asset : AssetConfig :=
  match decode_asset_config (acc_data (acct (accts s_live) (asset_account gate_id asset_id))) with
  | Ok a => a | Err _ => MkAssetConfig asset_id mint_key vault_key 0 0 end.
Lemma sample_asset_at : asset_at gate_id (accts s_live) asset_id sample_asset.
Proof. split; [|split]; vm_compute; reflexivity. Qed.
(** Every id of the sample starts with a zero byte. *)
Lemma arr_head_keccak l : head (arr_bytes (toy_keccak l)) = Some Byte.x00.
Proof.
  unfold toy_keccak. set (h := fold_left _ _ _). clearbody h.
  rewrite toy_arr_bytes; [done|]. cbn [length]. by rewrite length_le_bytes.
Qed.

(** [injection] would evaluate the two sides. *)
Lemma Ok_inj {E A} (a b : A) : @Ok E A a = Ok b -> a = b.
Proof. by intros [= ->]. Qed.

Lemma genuine_send_signed_witness :
  SendArgs_wf send_args /\ process_send gate_id send_accounts send_args s_live = Ok (tt, s_sent) /\
  exists e sent rec, fst (handle scanner (scanner_reads s_sent) no_cache e sent) = Ok (Some rec).
Proof.
  assert (H : process_send gate_id send_accounts send_args s_live = Ok (tt, s_sent)) by by_run s_sent.
  assert (Hw : SendArgs_wf send_args) by by_eval.
  assert (Hc : is_i 64 (clock s_live)) by by_eval.
  split; [exact Hw|]. split; [exact H|].
  destruct (genuine_send_signed scanner gate_not_spl send_accounts send_args s_live s_sent Hw Hc H)
    as (c & c' & a & w & p & u & He & sent & _ & _ & Hsign).
  assert (a = sample_asset) as ->.
  { destruct (sd_asset _ _ _ _ _ _ _ _ _ _ He) as (_ & Ha & _).
    destruct sample_asset_at as (_ & Hb & _). exact (Ok_inj _ _ (eq_trans (eq_sym Ha) Hb)). }
  assert (c = live_config) as ->.
  { pose proof (sd_config _ _ _ _ _ _ _ _ _ _ He) as H1. apply current_config_Some in H1.
    assert (H2 : config_at gate_id (accts s_live) live_config) by (apply config_in_at; vm_compute; reflexivity).
    apply current_config_Some in H2. exact (Some_inj _ _ (eq_trans (eq_sym H1) H2)). }
  do 3 eexists. apply (Hsign [] s_sent (scanner_reads s_sent) no_cache).
  - apply sample_sent_isolated. apply arr_head_keccak.
  - by_eval.
  - vm_compute. reflexivity.
  - constructor.
  - reflexivity.
  - intros k. reflexivity.
  - split; [|split]; vm_compute; reflexivity.
  - vm_compute. reflexivity.
  - reflexivity.
  - eexists. split; [reflexivity|]. vm_compute. reflexivity.
  - reflexivity.
  - reflexivity.
Defined.

(** * Votes *)

Definition claim_record : SubmissionRecord :=
  MkSubmissionRecord (hex0x (arr_bytes the_claim_id)) (hex0x (arr_bytes domain)) (hex0x (arr_bytes asset_id)) (txt "10")
    (Some 6) remote_chain SOLANA_CHAIN_ID 7 (hex0x (arr_bytes receiver_key)) (txt "0x")
    (hex0x (replicate 20 Byte.x44)) [] [] [] [].
(** An EVM gate that has sent every id and executed, cancelled and refunded none. *)
Definition yes_word : list byte := zeros 12 ++ replicate 20 Byte.x77.
Definition sample_node : evm_node :=
  MkEvmNode (Ok 1000) (fun b => Ok (noon + b * 12))
    (fun data _ => Ok (if bool_decide (take 4 data = selector "sentBy(bytes32)") then yes_word else zeros 32)).
Definition sample_reader : GateReader := MkGateReader sample_node 12.
Definition attester : AttesterConfig :=
  MkAttesterConfig SOLANA_CHAIN_ID (Some 3600) (fun _ => Some sample_reader) (arr_zero 20).
Definition cluster_at (s : ledger) : cluster := MkCluster (fun k => Ok (accts s !! k)) (Ok (clock s)).
Lemma cluster_reads s : reads_ledger (cluster_at s) s.
Proof. split; [intros k|]; reflexivity. Qed.

Definition cancel_data : list byte := enc_gate_ix (Cancel cancel_args).
Definition s_called_off : ledger := after cancel_accounts cancel_data s_live.
Definition cancel_events : list gate_event := [event_of gate_id s_live cancel_accounts (decoded cancel_data)].
Lemma cancel_history : history gate_id s_live cancel_events s_called_off.
Proof. apply tx_step. vm_compute. reflexivity. Qed.

(** A vote, as its two parts. *)
Definition vote_of (v : option (Decision * hash32)) : option Decision := fst <$> v.
Lemma vote_eq v d id : vote_of v = Some d -> bool_decide (snd <$> v = Some id) = true -> v = Some (d, id).
Proof. destruct v as [[d' id']|]; [|done]. intros [= <-] H%bool_decide_eq_true. simpl in H. congruence. Qed.

Lemma refund_vote_never_double_pays_witness :
  history gate_id s_live cancel_events s_called_off /\
  attest gate_id attester (cluster_at s_called_off) claim_record = Some (AttestRefund, the_claim_id) /\
  count (is_cancel the_claim_id) cancel_events = 1%nat.
Proof.
  assert (Hv : attest gate_id attester (cluster_at s_called_off) claim_record = Some (AttestRefund, the_claim_id))
    by (apply vote_eq; vm_compute; reflexivity).
  assert (H0 : marker_at gate_id (accts s_live) (executed_account gate_id the_claim_id) = None)
    by (vm_compute; reflexivity).
  split; [exact cancel_history|]. split; [exact Hv|].
  destruct (refund_vote_never_double_pays gate_id gate_not_spl attester (cluster_at s_called_off) claim_record
    the_claim_id s_live cancel_events s_called_off (sample_executed_isolated _ (arr_head_keccak _)) H0 cancel_history
    (cluster_reads _) eq_refl Hv) as (_ & Hc & _).
  exact Hc.
Defined.

(** The locked transfer, an hour and more after its send. *)
Definition s_waited : ledger := later s_locked 4000.
Lemma waited_history : history gate_id s_live (send_events ++ [EvOther]) s_waited.
Proof. apply (HistorySnoc _ _ _ _ _ _ send_history). apply GateEnv, later_env. lia. Qed.

Lemma source_vote_needs_send_witness :
  history gate_id s_live (send_events ++ [EvOther]) s_waited /\
  attest gate_id attester (cluster_at s_waited) the_record = Some (AttestCancel, the_send_id) /\
  exists pre post to n, send_events ++ [EvOther] = pre ++ EvSend to n :: post.
Proof.
  assert (Hv : attest gate_id attester (cluster_at s_waited) the_record = Some (AttestCancel, the_send_id))
    by (apply vote_eq; vm_compute; reflexivity).
  assert (Hd : ~ live gate_id (accts s_live) (sent_account gate_id the_send_id)).
  { intros [_ H]. apply H. vm_compute. reflexivity. }
  assert (Hto : rec_chain_id_to the_record <> at_chain_id attester) by (apply (bool_decide_unpack _); vm_compute; exact I).
  split; [exact waited_history|]. split; [exact Hv|].
  destruct (source_vote_needs_send gate_id gate_not_spl zero_record_bytes attester (cluster_at s_waited) the_record
    the_send_id AttestCancel s_live _ s_waited (sample_sent_isolated _ (arr_head_keccak _)) Hd waited_history
    (cluster_reads _) eq_refl Hto Hv (or_introl eq_refl))
    as (pre & post & s1 & s2 & args & c & c' & a & w & p & u & rd & dst & H & _).
  exists pre, post. do 2 eexists. exact H.
Defined.

Lemma observer_exact_witness :
  history gate_id s_live cancel_events s_called_off /\
  destination_terminal (account_view gate_id <$> accts s_called_off !! executed_account gate_id the_claim_id) = Some TCancelled.
Proof.
  assert (H0 : marker_at gate_id (accts s_live) (executed_account gate_id the_claim_id) = None)
    by (vm_compute; reflexivity).
  split; [exact cancel_history|].
  destruct (observer_exact gate_id gate_not_spl the_claim_id (sample_executed_isolated _ (arr_head_keccak _))
    s_live cancel_events s_called_off H0 cancel_history) as (_ & H & _).
  apply H. vm_compute. reflexivity.
Defined.

(** * Logs and lines *)

Definition pid_text : text := txt "Gate1111".
(** A call to the gate next to a program that imitates the runtime's framing. *)
Definition sample_trace : trace :=
  Call (txt "Liar2222") (Print LogLine (txt "invoke [1]") (Print DataLine (txt "AAAA") Done)) (Failed (txt "custom"))
    (Call pid_text (Print DataLine (txt "tag payload") (Print ConsumedLine (txt "5 of 9") Done)) Success Done).

Lemma event_line_roundtrip_witness :
  SentEvent_wf sent_event /\ parse_sent_event_line (txt "  " ++ sent_event_to_program_data_line sent_event) = Some (Ok sent_event).
Proof.
  assert (Hp : Forall (fun c => is_whitespace c = true) (txt "  ")) by by_eval.
  split; [exact sent_event_ok|]. exact (event_line_roundtrip sent_event (txt "  ") sent_event_ok Hp).
Defined.

Definition sample_payload : AutoParamsWire := MkAutoParamsWire 5 2 (replicate 20 Byte.x11) (bytes_of_string "call").
Lemma auto_params_roundtrip_witness :
  payload_wf sample_payload /\
  decode_evm_auto_params (encode_evm_auto_params sample_payload) = Ok (Some sample_payload).
Proof.
  assert (Hw : payload_wf sample_payload) by by_eval.
  split; [exact Hw|]. exact (proj1 (proj2 (auto_params_roundtrip sample_payload Hw))).
Defined.

(** * Records *)

Definition is_ok {E A} (r : result E A) : bool := match r with Ok _ => true | Err _ => false end.
Lemma is_ok_value {E A} (r : result E A) : is_ok r = true -> exists a, r = Ok a.
Proof. destruct r as [a|]; [by exists a|done]. Qed.
Lemma encodable_binds_witness :
  exists enc, encodable claim_record domain = Ok enc /\ bound_submission_id claim_record = Some (enc_id enc).
Proof.
  assert (Ho : is_ok (encodable claim_record domain) = true) by (vm_compute; reflexivity).
  destruct (is_ok_value _ Ho) as [enc He]. exists enc. split; [exact He|].
  exact (proj1 (encodable_binds claim_record domain enc He)).
Defined.

Lemma relayer_quorum_exact_witness :
  len (ordered_signatures the_claim_id (quorum_sigs the_claim_id ++ [zeros 65]) (default (MkGateConfig [] 0 domain)
         (gate_config_of live_config))) = 2 /\
  verify_threshold live_config the_claim_id (ordered_signatures the_claim_id (quorum_sigs the_claim_id ++ [zeros 65])
    (default (MkGateConfig [] 0 domain) (gate_config_of live_config))) = Ok tt.
Proof.
  assert (Hd : NoDup (cfg_validators live_config)) by by_eval.
  assert (Hz : arr_zero 20 ∉ cfg_validators live_config) by by_eval.
  assert (Ht : 0 < cfg_threshold live_config <= len (cfg_validators live_config)) by by_eval.
  assert (Hg : gate_config_of live_config = Some (default (MkGateConfig [] 0 domain) (gate_config_of live_config)))
    by (apply some_default; vm_compute; reflexivity).
  destruct (relayer_quorum_exact the_claim_id (quorum_sigs the_claim_id ++ [zeros 65]) live_config Hd Hz _ Hg Ht)
    as [Hl Hv].
  split.
  - transitivity (Z.min (cfg_threshold live_config)
      (len (backers the_claim_id (quorum_sigs the_claim_id ++ [zeros 65]) live_config))); [exact Hl|]. vm_compute. reflexivity.
  - transitivity (if bool_decide (cfg_threshold live_config <=
      len (backers the_claim_id (quorum_sigs the_claim_id ++ [zeros 65]) live_config)) then Ok tt
      else Err NotEnoughSignatures); [exact Hv|]. vm_compute. reflexivity.
Defined.

(** * The scanner's walk *)

Definition chain_history : list SignatureEntry :=
  [MkSignatureEntry (txt "d") false; MkSignatureEntry (txt "c") true; MkSignatureEntry (txt "b") false;
   MkSignatureEntry (txt "a") false].
Definition sample_rpc (before until : option text) (limit : nat) : result unit (list SignatureEntry) :=
  Ok (rpc_of Some chain_history before until limit).
Lemma collect_without_gap_witness :
  collect_since_cursor Some sample_rpc 2 false (Some (txt "a")) =
    Ok [MkSignatureEntry (txt "b") false; MkSignatureEntry (txt "c") true; MkSignatureEntry (txt "d") false].
Proof.
  assert (Hp : Forall (fun e => Some (sg_signature e) <> None) chain_history) by by_eval.
  assert (Hd : NoDup (map (fun e => Some (sg_signature e)) chain_history)) by by_eval.
  assert (Hm : (0 < 2)%nat) by lia.
  exact (collect_without_gap Some sample_rpc 2 false (Some (txt "a")) chain_history (fun _ _ _ => eq_refl) Hp Hd Hm).
Defined.

Definition fresh_scan : scan_state := MkScanState (MkCursor None []) no_cache 0 [].
Definition send_log : list text :=
  [invoke_line pid_text 1; sent_event_to_program_data_line sent_event; end_line pid_text Success].
Definition scan_logs (s : text) : result unit (list text) := if bool_decide (s = txt "d") then Err tt else Ok send_log.
Definition scanned : result ScanError Z * scan_state :=
  tick_entries scanner pid_text (fun _ => scanner_reads s_locked) scan_logs (reverse chain_history) fresh_scan.
Lemma tick_without_gap_witness :
  tick_entries scanner pid_text (fun _ => scanner_reads s_locked) scan_logs (reverse chain_history) fresh_scan =
    (fst scanned, snd scanned) /\
  exists done rest, reverse chain_history = done ++ rest /\ (length (sn_posted (snd scanned)) = 2)%nat.
Proof.
  assert (H : tick_entries scanner pid_text (fun _ => scanner_reads s_locked) scan_logs (reverse chain_history) fresh_scan =
    (fst scanned, snd scanned)) by (unfold scanned; apply surjective_pairing).
  split; [exact H|].
  destruct (tick_without_gap scanner pid_text (fun _ => scanner_reads s_locked) scan_logs _ _ _ _ H)
    as (dn & rest & E & _).
  exists dn, rest. split; [exact E|]. vm_compute. reflexivity.
Defined.

(** * Reading the EVM gate *)

Lemma aged_out_proof_witness :
  aged_out sample_reader the_send_id 3600 = Ok true /\
  exists block ret, nd_call sample_node (encode_bytes32_call "sentBy(bytes32)" the_send_id) block = Ok ret /\ len ret = 32.
Proof.
  assert (Ht : is_i 64 3600) by by_eval.
  assert (H : aged_out sample_reader the_send_id 3600 = Ok true) by (vm_compute; reflexivity).
  split; [exact H|].
  destruct (aged_out_proof sample_reader the_send_id 3600 Ht (fun E => ltac:(discriminate E)) H)
    as (latest & hts & block & bts & ret & _ & _ & _ & _ & _ & Hc & Hl & _).
  exists block, ret. split; [exact Hc|exact Hl].
Defined.

(** * One id on both sides *)

Definition sample_transfer : GateHash.transfer :=
  send_transfer live_config sample_asset send_args 25 wallet.
Lemma host_ids_agree_witness :
  is_u 64 (GateHash.tr_amount sample_transfer) /\
  HostHash.host_transfer_id sample_transfer = GateHash.transfer_id sample_transfer.
Proof.
  assert (Hu : is_u 64 (GateHash.tr_amount sample_transfer)) by by_eval.
  split; [exact Hu|]. exact (proj1 (HostHash.host_ids_agree sample_transfer domain mint_key vault_key Hu)).
Defined.
