(* ===== verification/StoreWitness.v ===== *)
(** The signature store and the refund queue on the sample deployment: the record of
    the sample send, posted by a validator, and by somebody who spells it otherwise. *)

From S2P Require Import Prelude.
From S2P Require Import Borsh.
From S2P Require Import Text.
From S2P Require Import SolanaRuntime.
From S2P Require Import GateTypes.
From S2P Require Import GateState.
From S2P Require Import LogScan.
From S2P Require Import HostVerify.
From S2P Require Import HostRecord.
From S2P Require Import SigStore.
From S2P Require Import RefundQueue.
From S2P Require Import Codecs.
From S2P Require Import Sample.
From S2P Require Import HostSample.
From S2P Require Import GateWitness.
From S2P Require Import HostWitness.

Definition signer_text : text := hex0x (arr_bytes (validator_address key_a)).
Definition posted : SubmissionRecord := signed_record signer_text domain the_sent.
Definition own_sig : SignerSig := MkSignerSig signer_text (HostRecord.sign the_send_id).
Definition no_store : gmap text SubmissionRecord := ∅.
Definition upserted (r : SubmissionRecord) (fs : gmap text SubmissionRecord) : SubmissionRecord * gmap text SubmissionRecord :=
  match upsert_signature fs r own_sig with Ok p => p | Err _ => (r, fs) end.
Definition stored : SubmissionRecord := fst (upserted (base posted) no_store).
Definition store1 : gmap text SubmissionRecord := snd (upserted (base posted) no_store).

Lemma upserted_Ok r fs : is_ok (upsert_signature fs r own_sig) = true ->
  upsert_signature fs r own_sig = Ok (upserted r fs).
Proof. unfold upserted. by destruct (upsert_signature fs r own_sig). Qed.
Lemma posted_unsigned : unsigned (base posted).
Proof. by intros []. Qed.
Lemma upsert_first : upsert_signature no_store (base posted) own_sig = Ok (stored, store1).
Proof. rewrite upserted_Ok by (vm_compute; reflexivity). unfold stored, store1. by rewrite <- surjective_pairing. Qed.
Lemma store1_reachable : reachable store1.
Proof. eapply ReachStep; [apply ReachEmpty|]. exact (StepUpsert _ _ _ _ _ posted_unsigned upsert_first). Qed.
Definition the_file : text := file_path (rec_submission_id posted).
Lemma stored_there : store1 !! the_file = Some stored.
Proof. vm_compute. reflexivity. Qed.

Lemma store_always_authentic_witness :
  store1 !! the_file = Some stored /\ length (rec_signatures stored) = 1%nat /\ exists id, record_ok the_file stored id.
Proof.
  split; [exact stored_there|]. split; [vm_compute; reflexivity|].
  exact (store_always_authentic store1 the_file stored store1_reachable stored_there).
Defined.

(** Posting again changes nothing. *)
Definition stored_again : SubmissionRecord := fst (upserted (base posted) store1).
Definition store2 : gmap text SubmissionRecord := snd (upserted (base posted) store1).
Lemma upsert_again : upsert_signature store1 (base posted) own_sig = Ok (stored_again, store2).
Proof. rewrite upserted_Ok by (vm_compute; reflexivity). unfold stored_again, store2. by rewrite <- surjective_pairing. Qed.
Lemma store_append_only_witness :
  rtc store_step store1 store2 /\ exists r', store2 !! the_file = Some r' /\ extends stored r'.
Proof.
  assert (Hs : rtc store_step store1 store2).
  { apply rtc_once. exact (StepUpsert _ _ _ _ _ posted_unsigned upsert_again). }
  split; [exact Hs|]. exact (store_append_only store1 store2 the_file stored store1_reachable Hs stored_there).
Defined.

Lemma scanner_record_stored_witness :
  SentEvent_wf sent_event /\ canonical_submission_id (base posted) = Ok the_send_id /\
  exists r fs', upsert_signature no_store (base posted) own_sig = Ok (r, fs').
Proof.
  assert (Hr : receiver_width sent_event) by (left; vm_compute; reflexivity).
  assert (Hto : to_sent sent_event = Some the_sent) by (vm_compute; reflexivity).
  assert (Hsg : signable the_sent domain SOLANA_CHAIN_ID = Ok tt) by (vm_compute; reflexivity).
  assert (Hns : len (se_native_sender sent_event) <= MAX_ACCOUNT_BYTES) by by_eval.
  assert (Had : address_from_str signer_text = Some (validator_address key_a)) by by_eval.
  assert (Hrec : recover_address_from_msg (se_submission_id sent_event) (raw_signature (se_submission_id sent_event)) =
    Some (validator_address key_a)) by by_eval.
  split; [exact sent_event_ok|].
  destruct (scanner_record_stored no_store signer_text (validator_address key_a) sent_event the_sent domain SOLANA_CHAIN_ID
    sent_event_ok Hr Hto Hsg Hns ltac:(intros w E; discriminate E) Had Hrec ltac:(intros old E; discriminate E))
    as (Hid & r & fs' & Hu & _).
  split; [exact Hid|]. exists r, fs'. exact Hu.
Defined.

Lemma respelled_record_blocks_witness :
  exists r' fs', upsert_signature no_store (respelled (base posted) (replicate 20 Byte.x55)) own_sig = Ok (r', fs') /\
    upsert_signature fs' (base posted) own_sig = Err (ParamsConflict (rec_submission_id posted)).
Proof.
  assert (Ha : exists s, admit_record (base posted) own_sig = Ok s).
  { apply is_ok_value. vm_compute. reflexivity. }
  destruct Ha as [s Ha].
  destruct (respelled_record_blocks no_store (base posted) (replicate 20 Byte.x55) own_sig s ReachEmpty posted_unsigned
    eq_refl eq_refl Ha) as (r' & fs' & Hu & Hno).
  exists r', fs'. split; [exact Hu|]. exact (Hno fs' own_sig s (rtc_refl _ _) Ha).
Defined.

(** * The refund queue *)

Lemma every_candidate_examined_witness :
  in_order sample_queue /\ sample_row 7 ∈ fst (fst (ticks (relayer_walk rec_submission_id) [failing_later; answering] None)).
Proof.
  assert (Hf : Forall (faithful sample_queue) [failing_later; answering]).
  { constructor; [|constructor; [|constructor]]; intros limit after; [destruct after; [right; by exists tt|by left]|by left]. }
  assert (Hst : stands sample_queue None 0) by (split; [lia|reflexivity]).
  assert (Hin : sample_row 7 ∈ sample_queue).
  { apply list_elem_of_lookup. exists 7%nat. vm_compute. reflexivity. }
  split; [exact sample_in_order|].
  pose proof (every_candidate_examined sample_queue [failing_later; answering] None 0 (sample_row 7) sample_in_order Hf Hst Hin) as H.
  destruct (ticks (relayer_walk rec_submission_id) [failing_later; answering] None) as [[l ok] c] eqn:E.
  apply H. right. split; [reflexivity|].
  assert (ok = 1%nat) as ->; [|vm_compute; lia].
  transitivity (snd (fst (ticks (relayer_walk rec_submission_id) [failing_later; answering] None))); [by rewrite E|].
  vm_compute. reflexivity.
Defined.
