(* ===== verification/NodeSample.v ===== *)
(** A small world for the EVM validator: two chains of three nodes each, of which one
    lies, one deposit, a destination that has registered its scale, a store, a disk and
    an operator who stays away. *)

From S2P Require Import Prelude.
From S2P Require Import SolanaRuntime.
From S2P Require Import Text.
From S2P Require Import ListSort.
From S2P Require Import Quorum.
From S2P Require Import Effects.
From S2P Require Import Failover.
From S2P Require Import Endpoints.
From S2P Require Import Allowlist.
From S2P Require Import ScannerState.
From S2P Require Import GateTypes.
From S2P Require Import HostRecord.
From S2P Require Import SigStore.
From S2P Require Import ScaleGuard.
From S2P Require Import Validator.
From S2P Require Import ValidatorSafety.
From S2P Require Import ValidatorRefund.
From S2P Require Import RefundVotes.
From S2P Require Import Codecs.
From S2P Require Import Sample.
From S2P Require Import HostSample.
From S2P Require CoreHash.

(** * Nodes *)

(** Nodes 0, 1, 2 serve chain 1, nodes 3, 4, 5 chain 2; 0 and 3 lie. *)
Definition liar (p : Z) : bool := p mod 3 =? 0.
Definition true_head : Z := 120.

Definition the_gate : evm_address := arr_fill 20 Byte.x61.
Definition the_token : evm_address := arr_fill 20 Byte.x62.
Definition depositor : evm_address := arr_fill 20 Byte.x63.
Definition sent_sig : hash32 := arr_fill 32 Byte.x64.
Definition the_domain : hash32 := arr_fill 32 Byte.x65.

Definition the_submission : CoreHash.Submission :=
  CoreHash.MkSubmission the_domain (CoreHash.debridge_id 1 the_token) 6 1000 1 2 0 (replicate 20 Byte.x66) None.
Definition the_id : hash32 := CoreHash.compute_id the_submission.
Definition the_event : EvmSent :=
  MkEvmSent the_id (CoreHash.debridge_id 1 the_token) 1000 6 1 2 (replicate 20 Byte.x66) 0 [] (arr_bytes depositor) the_token.
Definition forged_event : EvmSent :=
  MkEvmSent the_id (CoreHash.debridge_id 1 the_token) 999999 6 1 2 (replicate 20 Byte.x67) 0 [] (arr_bytes depositor) the_token.

(** The deposit is the first log of block 50. *)
Definition the_log : Log := MkLog the_gate [sent_sig] [Byte.x01] (Some 50) (Some 0) None false.
Definition forged_log : Log := MkLog the_gate [sent_sig] [Byte.x02] (Some 50) (Some 0) None false.
Definition chain_logs (from to : Z) : list Log := if (from <=? 50) && (50 <=? to) then [the_log] else [].
Definition decode_sample (address : evm_address) (topics : list hash32) (data : list byte) : option EvmSent :=
  match data with
  | [b] => if bool_decide (b = Byte.x01) then Some the_event else if bool_decide (b = Byte.x02) then Some forged_event else None
  | _ => None
  end.

Definition sample_heads (_ : nat) (p : Z) : result text Z := if liar p then Ok 1000 else Ok true_head.
Lemma sample_heads_u64 t p h : sample_heads t p = Ok h -> is_u 64 h.
Proof. unfold sample_heads. destruct (liar p); intros [= <-]; split; done. Qed.
#[export] Instance sample_network : Network :=
  @Build_Network Z sample_heads sample_heads_u64
    (fun _ p f => if liar p then Ok [forged_log] else Ok (chain_logs (flt_from f) (flt_to f))).

Definition node_url (p : Z) : text := txt "https://node" ++ [48 + p] ++ txt ".example/key".
Definition parse_node (u : text) : option Z := find (fun p => bool_decide (u = node_url p)) [0; 1; 2; 3; 4; 5].
#[export] Instance sample_nodes : @Nodes sample_network := {|
  parse_url := parse_node;
  chain_id_at := fun _ (p : Z) => Ok (if p <? 3 then 1 else 2);
  call_at := fun _ _ _ _ => Ok (zeros 32);
|}.
Definition node (p : Z) : Endpoint := MkEndpoint (redact_url (node_url p)) (p : Provider).
Definition source_urls : list text := [node_url 0; node_url 1; node_url 2].
Definition dest_urls : list text := [node_url 3; node_url 4; node_url 5].

(** The destination has registered 6 bridge decimals; its liar says 9. *)
#[export] Instance sample_scale : ScaleReads :=
  @Build_ScaleReads sample_network
    (fun _ (p : Z) _ _ => Ok (true, if liar p then 9 else 6))
    (fun _ _ _ _ => Err AbiError) (fun _ _ _ _ => Err AbiError)
    (fun _ _ _ => Err tt) hex_encode toy_keccak (fun _ => false).

(** * The store, the disk, the operator *)

Definition the_allowlist : Allowlist := MkAllowlist {[ to_ascii_lowercase (hex0x (arr_bytes (CoreHash.debridge_id 1 the_token))) ]} {[ (1, 2) ]}.
#[export] Instance sample_world : ValidatorWorld := {|
  decode_sent := decode_sample;
  upsert_at := fun _ _ _ => Ok tt;
  allowlist_at := fun _ => Ok (Enforcing the_allowlist);
  save_at := fun _ => true;
  operator_at := fun _ => [];
|}.
(** The same, but at one await point the operator asks for a rescan from block 20. *)
Definition rescanning_world (at_call : nat) : ValidatorWorld := {|
  decode_sent := decode_sample;
  upsert_at := fun _ _ _ => Ok tt;
  allowlist_at := fun _ => Ok (Enforcing the_allowlist);
  save_at := fun _ => true;
  operator_at := fun t => if bool_decide (t = at_call) then [OpRescan 20] else [];
|}.

Definition signer_id : evm_address := default (arr_zero 20) (recover_address_from_msg the_id (raw_signature the_id)).
Definition the_config : ScanConfig :=
  MkScanConfig the_gate sent_sig 10 100 the_domain (MkAllowlistPolicy true [] []) false signer_id.
Definition the_guard : ScaleGuard := ScaleGuard_new [Destination_new 2 the_gate dest_urls] [].
Definition source_failover : Failover := MkFailover (map node [0; 1; 2]) 0 [].
Definition fresh_persist : Persist := MkPersist 39 ∅ false None.
Definition fresh : Scanner :=
  MkScanner source_failover fresh_persist (FileHolds fresh_persist) the_guard (MkBatchProgress None ∅) None 0 100 None 0 [].

(** * Who tells the truth *)

Definition honest_node (i : nat) : bool := negb (i =? 0)%nat.
Definition chain_events (from to : Z) : list LogKey := live_keys (chain_logs from to).
Definition honest_peer (e : Endpoint) : Prop := liar (ep_provider e : Z) = false.
Definition true_scale (c : Z) (id : hash32) (v : option Z) : Prop := v = Some 6.

(** * The refund side *)

Definition sample_sent_by (c : Z) (g : evm_address) (b : Z) (id : hash32) : evm_address :=
  if (c =? 1) && (50 <=? b) then depositor else arr_zero 20.
Definition sample_time (c b : Z) : Z := 12 * Z.max 0 (Z.min b 1000000).
Definition the_record : option SubmissionRecord := record_from_sent_event the_event the_domain.
(** Nobody claims the transfer; the liars have it burned, and all blocks at once. *)
#[export] Instance sample_refunds : RefundWorld :=
  @Build_RefundWorld sample_network
    (fun _ (p : Z) _ _ _ => Ok (liar p)) (fun _ (p : Z) _ _ _ => Ok (liar p))
    (fun _ (p : Z) g id b => Ok (if liar p then depositor else sample_sent_by (if p <? 3 then 1 else 2) g b id))
    (fun _ (p : Z) _ _ _ => Ok (liar p))
    (fun _ (p : Z) b => Ok (Some (if liar p then 0 else sample_time (if p <? 3 then 1 else 2) b)))
    (fun _ _ after => Ok (match after, the_record with None, Some r => [r] | _, _ => [] end))
    (fun _ _ _ _ => Ok tt) (fun t => Z.of_nat t).
Definition refund_config : RefundConfig := MkRefundConfig 600 10 false signer_id.
Definition gate_text : text := hex0x (arr_bytes the_gate).
Definition refund_start : RefundLoop :=
  MkRefundLoop {[ 1 := LazyReader_new 1 gate_text source_urls ]} {[ 2 := LazyReader_new 2 gate_text dest_urls ]} None ∅ [].
