(* ===== verification/KeeperWitness.v ===== *)
(** A small world for the keeper: a gate of three validators, a record that two of them
    signed among rubbish, nodes that confirm at once or leave a transaction in the pool.
    The theorems about the keeper apply there. *)

From S2P Require Import Prelude.
From S2P Require Import Text.
From S2P Require Import SolanaRuntime.
From S2P Require Import Effects.
From S2P Require Import Allowlist.
From S2P Require Import GateTypes.
From S2P Require Import HostRecord.
From S2P Require Import AbiParams.
From S2P Require Import SigStore.
From S2P Require Import KeeperTx.
From S2P Require Import KeeperSigs.
From S2P Require Import KeeperQueue.
From S2P Require Import Keeper.
From S2P Require Import KeeperLoop.
From S2P Require Import KeeperSafety.
From S2P Require Import KeeperProgress.
From S2P Require Import Sample.
From S2P Require Import HostSample.
From S2P Require CoreHash.

(** * Signatures *)

(** Bytes that name the message and the signer; all 65-byte strings are canonical. *)
Definition keeper_recover (m : hash32) (raw : list byte) : option evm_address :=
  if bool_decide (length raw = 65%nat) && bool_decide (take 32 raw = arr_bytes m)
  then a ← arr_of_list 20 (take 20 (drop 32 raw)); if bool_decide (a = arr_zero 20) then None else Some a
  else None.
Definition keeper_normalized (raw : list byte) : option (list byte) :=
  if bool_decide (length raw = 65%nat) then Some raw else None.
#[export] Instance keeper_alloy : Alloy := {|
  b256_from_str := parse_bytes 32;
  address_from_str := parse_bytes 20;
  u256_from_str := parse_uint 256;
  auto_params_decode := @auto_params_decode sample_alloy;
  signature_normalized := keeper_normalized;
  recover_address_from_msg := keeper_recover;
|}.
Lemma keeper_recover_length m raw a : keeper_recover m raw = Some a -> keeper_normalized raw = Some raw.
Proof.
  unfold keeper_recover, keeper_normalized. destruct (bool_decide (length raw = 65%nat)) eqn:E; [|done]. done.
Qed.
#[export] Instance keeper_alloy_laws : @AlloyLaws keeper_alloy.
Proof.
  constructor.
  - exact (@b256_case sample_alloy _).
  - intros raw raw' m a Hr Hn. cbn in *. pose proof (keeper_recover_length _ _ _ Hr) as Hn'.
    rewrite Hn' in Hn. by injection Hn as <-.
  - intros raw m a Hr. cbn in *. rewrite (keeper_recover_length _ _ _ Hr). by eexists.
Qed.
#[export] Instance keeper_parses : @AlloyParses _ _ keeper_alloy.
Proof.
  constructor; [exact (@b256_printed _ _ sample_alloy _)|exact (@u256_printed _ _ sample_alloy _)|
    exact (@auto_params_printed _ _ sample_alloy _)].
Qed.
#[export] Instance keeper_prints : @AlloyPrints _ _ keeper_alloy.
Proof.
  constructor; simpl.
  - intros z Hz. unfold u256_dec, parse_uint. assert (0 <= z < 10 ^ (Z.of_nat 77 + 1)) as Hr.
    { destruct Hz as [H1 H2]. split; [done|]. assert (2 ^ 256 < 10 ^ (Z.of_nat 77 + 1)) by (vm_compute; done). lia. }
    destruct (dec_digits_spec 77 z Hr) as (Hv & Hd & Hn & Hh). set (l := dec_digits 77 z) in *. clearbody l.
    destruct l as [|c l]; [done|]. destruct (Z.eqb_spec c 43); [by subst|].
    rewrite bool_decide_eq_false_2, Hd, Hv by done. by apply u_checked_Some.
  - intros a. unfold parse_bytes. rewrite strip_0x_hex. rewrite (@hex_roundtrip sample_hex _). apply arr_of_list_bytes.
Qed.
#[export] Instance keeper_ecdsa : Ecdsa := keeper_recover.
#[export] Instance keeper_ecdsa_laws : @EcdsaLaws keeper_alloy keeper_ecdsa.
Proof.
  constructor; [done|]. intros m raw a. unfold ecdsa_recover, keeper_ecdsa, keeper_recover.
  destruct (_ && _); [|done]. destruct (arr_of_list 20 _) as [x|]; [|done]. cbn. case_bool_decide; [done|]. by intros [= <-].
Qed.

(** * The record *)

Definition k_gate : evm_address := arr_fill 20 Byte.x61.
Definition k_domain : hash32 := arr_fill 32 Byte.x65.
Definition k_debridge : hash32 := arr_fill 32 Byte.x66.
Definition k_me : evm_address := arr_fill 20 Byte.x67.
Definition val_a : evm_address := arr_fill 20 Byte.x0a.
Definition val_b : evm_address := arr_fill 20 Byte.x0b.
Definition val_c : evm_address := arr_fill 20 Byte.x0c.
Definition k_stranger : evm_address := arr_fill 20 Byte.x01.
Definition k_validators : list evm_address := [val_a; val_b; val_c].
Definition k_is_validator (a : evm_address) : bool := bool_decide (a ∈ k_validators).

Definition k_receiver : list byte := replicate 20 Byte.x77.
Definition k_params : CallParams := MkCallParams k_debridge 1000 6 1 4 k_receiver [] k_receiver.
Definition k_id : hash32 := CoreHash.submission_id k_domain k_debridge 6 1000 1 2 4 k_receiver.
Definition row (label signer : evm_address) (m : hash32) : SignerSig :=
  MkSignerSig (hex0x (arr_bytes label)) (hex0x (arr_bytes m ++ arr_bytes signer ++ replicate 13 Byte.x01)).
(** Two validators signed; a stranger did too, one row is mislabelled, one is repeated. *)
Definition k_rows : list SignerSig :=
  [row val_b val_b k_id; row k_stranger k_stranger k_id; row val_c k_stranger k_id; row val_b val_b k_id;
   MkSignerSig (txt "0x") (txt "zz"); row val_a val_a k_id].
Definition k_record : SubmissionRecord :=
  MkSubmissionRecord (hex0x (arr_bytes k_id)) (hex0x (arr_bytes k_domain)) (hex0x (arr_bytes k_debridge)) (txt "1000")
    (Some 6) 1 2 4 (hex0x k_receiver) (txt "0x") (hex0x k_receiver) [] k_rows [] [].
Definition k_config : LoopConfig := MkLoopConfig 2 k_gate k_domain k_me "claim" ∅ [] (MkAllowlistPolicy false [] []).

(** * Nodes *)

(** A minute passes between two looks at the clock. [stuck]: the transaction stays in the
    pool and no receipt comes; otherwise it is mined at once. *)
Definition k_hash (tx : TransactionRequest) : hash32 := arr_fill 32 (byte_of_Z (fee_cap tx)).
Definition keeper_world (stuck : bool) : KeeperWorld := {|
  kw_now := fun t => nanos (60 * Z.of_nat t);
  kw_executed := fun _ _ => Ok false;
  kw_cancelled := fun _ _ => Ok false;
  kw_refunded := fun _ _ => Ok false;
  kw_sent_by := fun _ _ => Ok (arr_zero 20);
  kw_token_of := fun _ _ => Ok k_stranger;
  kw_threshold := fun _ => Ok 2;
  kw_validator_count := fun _ => Ok 3;
  kw_is_validator := fun _ a => Ok (k_is_validator a);
  kw_finalized := fun _ _ _ => Ok false;
  kw_refund_of := fun _ _ _ => Ok (arr_zero 20);
  kw_owner := fun _ _ => Ok (arr_zero 20);
  kw_guardian := fun _ _ => Ok (arr_zero 20);
  kw_code := fun _ _ => Ok [];
  kw_receipt := fun _ _ => if stuck then Ok None else Ok (Some true);
  kw_known := fun _ _ => Ok true;
  kw_latest := fun _ => Ok 7;
  kw_next_nonce := fun _ => Ok 7;
  kw_estimate_gas := fun _ _ => Ok 90000;
  kw_fees := fun _ => Ok (MkEstimation 30 2);
  kw_gas_price := fun _ => Ok 20;
  kw_send := fun _ tx => Ok (k_hash tx);
  kw_await := fun _ h => if stuck then AwaitTimeout else AwaitReceipt h true;
  kw_allowlist := fun _ => Ok NotConfigured;
  kw_pending_claims := fun _ => Ok [k_record];
  kw_pending_refunds := fun _ => Ok [];
  kw_mark_claimed := fun _ => Ok tt;
  kw_history := fun _ => Ok [];
  kw_load := fun _ _ => Ok None;
  kw_dir := true;
  kw_other := fun _ s => s;
|}.
Definition k_view : GateView := MkGateView 2 3 ∅ 0.
Definition k_start : Loop := loop_init k_view (MkSendState ∅ None None).

Lemma k_reads stuck : @gate_reads (keeper_world stuck) 2 3 k_is_validator.
Proof.
  constructor; cbn; try (intros; congruence); [by split|]. exists k_validators. split; [done|].
  intros a. unfold k_is_validator. by rewrite bool_decide_eq_true.
Qed.
Lemma k_fees_sane stuck t e : @kw_fees (keeper_world stuck) t = Ok e -> estimation_ok e.
Proof. cbn. intros [= <-]. unfold estimation_ok; cbn. lia. Qed.
Lemma k_prices_sane stuck t p : @kw_gas_price (keeper_world stuck) t = Ok p -> price_ok p.
Proof. cbn. intros [= <-]. unfold price_ok. lia. Qed.

Abbreviation k_tick stuck := (target_tick (KW := keeper_world stuck) k_config).
Definition k_run (stuck : bool) (n : nat) := ticks (k_tick stuck) n k_start 0%nat.
Definition causes (l : list Broadcast) : list Cause := map bc_cause l.
Lemma k_run_marks : map fst (lp_marks (k_run false 1).1.2) = [rec_submission_id k_record].
Proof. vm_compute. reflexivity. Qed.
Lemma k_run_stuck : causes (lp_broadcasts (k_run true 2).1.2) = [FirstSend; FeeBump].
Proof. vm_compute. reflexivity. Qed.

(** * Witnesses *)

Lemma keeper_calls_accepted_witness : exists b, b ∈ lp_broadcasts (k_run true 2).1.2 /\ bc_cause b = FeeBump /\
  call_accepted k_config 2 3 k_is_validator (tr_input (bc_tx b)).
Proof.
  pose proof k_run_stuck as H. destruct (k_run true 2) as [[r s'] t'] eqn:E. cbn [fst snd] in H |- *.
  destruct (lp_broadcasts s') as [|b0 [|b []]] eqn:El; try discriminate H. injection H as _ Hb.
  assert (Hin : b ∈ lp_broadcasts s') by (rewrite El, !elem_of_cons; auto). exists b. rewrite <- El. split; [exact Hin|]. split; [exact Hb|].
  unfold k_run in E. pose proof (keeper_calls_accepted (KW := keeper_world true) k_config 2 3 k_is_validator (k_reads true) (k_tick true) 2
    k_start s' 0%nat r t' eq_refl eq_refl eq_refl eq_refl eq_refl (TargetLoop k_config) E b Hin) as Hok.
  apply Hok. rewrite Hb. discriminate.
Defined.

Lemma fee_bumps_bounded_witness : exists b, b ∈ lp_broadcasts (k_run true 2).1.2 /\ bc_cause b = FeeBump /\
  bump_ok (lp_broadcasts (k_run true 2).1.2) (bc_tx b).
Proof.
  pose proof k_run_stuck as H. destruct (k_run true 2) as [[r s'] t'] eqn:E. cbn [fst snd] in H |- *.
  unfold k_run in E. destruct (fee_bumps_bounded (KW := keeper_world true) k_config (k_fees_sane true) (k_prices_sane true) (k_tick true) 2 k_start s' 0%nat r t'
    eq_refl eq_refl eq_refl (TargetLoop k_config) E) as [_ Hall].
  destruct (lp_broadcasts s') as [|b0 [|b []]] eqn:El; try discriminate H. injection H as _ Hb.
  exists b. assert (Hin : b ∈ [b0; b]) by (rewrite !elem_of_cons; auto). split; [exact Hin|]. split; [exact Hb|]. by apply Hall.
Defined.

Lemma k_run_remembers : is_Some (lp_pending (k_run true 2).1.2 !! pending_key (rec_submission_id k_record) Transfer).
Proof. apply (bool_decide_unpack _). vm_compute. exact I. Qed.
Lemma in_flight_well_formed_witness : exists k f, lp_pending (k_run true 2).1.2 !! k = Some f /\ flight_wf k_config f.
Proof.
  pose proof k_run_remembers as [f Hf]. destruct (k_run true 2) as [[r s'] t'] eqn:E. cbn [fst snd] in Hf |- *.
  exists (pending_key (rec_submission_id k_record) Transfer), f. split; [exact Hf|].
  unfold k_run in E. exact (in_flight_well_formed (KW := keeper_world true) k_config (k_fees_sane true) (k_prices_sane true) (k_tick true) 2 k_start s' 0%nat r t'
    eq_refl eq_refl eq_refl (TargetLoop k_config) E _ f Hf).
Defined.

Lemma claim_marked_after_receipt_witness : exists h p signatures b hash text,
  (rec_submission_id k_record, text) ∈ lp_marks (k_run false 1).1.2 /\
  gate_id_for k_domain (cp_chain_id p) 2 p = Some h /\ b ∈ lp_broadcasts (k_run false 1).1.2 /\
  tr_input (bc_tx b) = CallClaim p signatures /\ bc_result b = Ok hash.
Proof.
  pose proof k_run_marks as H. destruct (k_run false 1) as [[r s'] t'] eqn:E. cbn [fst snd] in H |- *.
  destruct (lp_marks s') as [|[id text] []] eqn:El; try discriminate H.
  assert (Hid : id = rec_submission_id k_record) by exact (f_equal (fun l => default [] (head l)) H).
  assert (Hin : (id, text) ∈ lp_marks s') by (rewrite El, elem_of_cons; auto).
  unfold k_run in E. destruct (claim_marked_after_receipt (KW := keeper_world false) k_config (k_fees_sane false) (k_prices_sane false) (k_tick false) 1 k_start s' 0%nat
    r t' id text eq_refl eq_refl eq_refl (TargetLoop k_config) E Hin) as (h & p & sigs & b & hash & _ & Hg & Hb & _ & Hc & Hr & _).
  exists h, p, sigs, b, hash, text. rewrite <- Hid, <- El. split_and!; assumption.
Defined.

(** A remembered claim, still in the pool. *)
Definition k_flight : InFlight :=
  InFlight_new (set_fees 30 2 (set_gas 90000 (set_nonce 7 (set_from k_me (call_request k_gate (CallClaim k_params [])))))) (arr_fill 32 Byte.x1e) 0.
Definition k_waiting : Loop := upd_pending (<[pending_key (rec_submission_id k_record) Transfer := k_flight]>) k_start.
Lemma k_unsettled : unsettled (KW := keeper_world true) k_flight.
Proof. split; [cbn; discriminate|]. exists (arr_fill 32 Byte.x1e). split; [cbn; rewrite elem_of_cons; auto|cbn; discriminate]. Qed.
Lemma in_flight_not_resent_witness : exists r s' t',
  claim_record (KW := keeper_world true) k_config None k_record k_waiting 0%nat = (r, s', t') /\
  only_bumped k_flight k_waiting s'.
Proof.
  destruct (claim_record (KW := keeper_world true) k_config None k_record k_waiting 0%nat) as [[r s'] t'] eqn:E.
  exists r, s', t'. split; [reflexivity|].
  refine (in_flight_not_resent (KW := keeper_world true) k_config k_record Transfer _ k_flight k_waiting 0%nat r s' t' _ k_unsettled
    (SubmitsClaim k_config k_record None) E). cbn [lp_pending upd_pending k_waiting]. apply lookup_insert_eq.
Defined.

(** ** A quorum among rubbish *)

Lemma k_claimable : claimable k_config None k_record k_id k_debridge k_params.
Proof.
  constructor.
  - reflexivity.
  - apply (@b256_printed _ _ keeper_alloy _).
  - vm_compute. reflexivity.
  - vm_compute. reflexivity.
  - apply (@b256_printed _ _ keeper_alloy _).
  - exists 1000. split; vm_compute; reflexivity.
  - vm_compute. reflexivity.
  - exact I.
Qed.
Lemma k_nodes_up : nodes_up (KW := keeper_world false) k_is_validator k_id k_debridge.
Proof. constructor; cbn; try (intros; eexists; reflexivity); try reflexivity. intros t. exists k_stranger. split; [reflexivity|discriminate]. Qed.
Lemma ok_is {E} (r : result E evm_address) a : match r with Ok x => bool_decide (x = a) | Err _ => false end = true -> r = Ok a.
Proof. destruct r; [|done]. by intros ->%bool_decide_eq_true. Qed.
Lemma k_voter_a : verify_attestation k_id Transfer (row val_a val_a k_id) = Ok val_a.
Proof. apply ok_is. vm_compute. reflexivity. Qed.
Lemma k_voter_b : verify_attestation k_id Transfer (row val_b val_b k_id) = Ok val_b.
Proof. apply ok_is. vm_compute. reflexivity. Qed.
Lemma k_calls_ok : calls_ok k_config 2 3 k_is_validator k_start.
Proof. constructor; [split_and!; [reflexivity..|intros a m E; discriminate E]|constructor|intros k f E; discriminate E]. Qed.
Lemma quorum_is_relayed_witness : exists r s' t',
  target_record (KW := keeper_world false) k_config None k_record k_start 0%nat = (r, s', t') /\
  claim_sent k_config 2 3 k_is_validator k_params k_start s'.
Proof.
  destruct (target_record (KW := keeper_world false) k_config None k_record k_start 0%nat) as [[r s'] t'] eqn:E.
  exists r, s', t'. split; [reflexivity|].
  refine (quorum_is_relayed (KW := keeper_world false) k_config 2 3 k_is_validator (k_reads false) None k_record k_id k_debridge k_params
    [val_a; val_b] k_start 0%nat r s' t' k_calls_ok eq_refl k_claimable k_nodes_up _ _ _ _ E).
  - apply (bool_decide_unpack _). vm_compute. exact I.
  - unfold len. cbn. lia.
  - intros a Ha. apply elem_of_cons in Ha as [->|Ha]; [|apply elem_of_cons in Ha as [->|[]%elem_of_nil]].
    + split; [reflexivity|]. exists (row val_a val_a k_id). split; [exact (list_elem_of_lookup_2 k_rows 5 _ eq_refl)|exact k_voter_a].
    + split; [reflexivity|]. exists (row val_b val_b k_id). split; [exact (list_elem_of_lookup_2 k_rows 0 _ eq_refl)|exact k_voter_b].
  - intros [|w ws] _ Hw; [unfold len; cbn; lia|]. destruct (Hw w) as (_ & sig & Hs & _); [rewrite elem_of_cons; auto|].
    destruct (proj1 (elem_of_nil sig) Hs).
Defined.

(** ** A stuck head *)

Definition k_stalled : Loop := loop_init k_view (MkSendState ∅ (Some (MkHeadStall 7 0 None 0 None None)) None).
Definition stuck_nonces : KeeperWorld := {|
  kw_now := fun t => nanos (60 * Z.of_nat t); kw_executed := fun _ _ => Err tt; kw_cancelled := fun _ _ => Err tt;
  kw_refunded := fun _ _ => Err tt; kw_sent_by := fun _ _ => Err tt; kw_token_of := fun _ _ => Err tt; kw_threshold := fun _ => Err tt;
  kw_validator_count := fun _ => Err tt; kw_is_validator := fun _ _ => Err tt; kw_finalized := fun _ _ _ => Err tt;
  kw_refund_of := fun _ _ _ => Err tt; kw_owner := fun _ _ => Err tt; kw_guardian := fun _ _ => Err tt; kw_code := fun _ _ => Err tt;
  kw_receipt := fun _ _ => Err tt; kw_known := fun _ _ => Err tt; kw_latest := fun _ => Ok 7; kw_next_nonce := fun _ => Ok 9;
  kw_estimate_gas := fun _ _ => Err tt; kw_fees := fun _ => Ok (MkEstimation 30 2); kw_gas_price := fun _ => Err tt;
  kw_send := fun _ tx => Ok (k_hash tx); kw_await := fun _ _ => AwaitFailed; kw_allowlist := fun _ => Err tt;
  kw_pending_claims := fun _ => Err tt; kw_pending_refunds := fun _ => Err tt; kw_mark_claimed := fun _ => Err tt;
  kw_history := fun _ => Err tt; kw_load := fun _ _ => Err tt; kw_dir := true; kw_other := fun _ s => s |}.
Lemma stuck_fees t e : @kw_fees stuck_nonces t = Ok e -> estimation_ok e.
Proof. cbn. intros [= <-]. unfold estimation_ok; cbn. lia. Qed.
Lemma stuck_prices t p : @kw_gas_price stuck_nonces t = Ok p -> price_ok p.
Proof. cbn. discriminate. Qed.
Lemma k_head_sent : causes (lp_broadcasts (unwedge_head (KW := stuck_nonces) k_config k_stalled 0%nat).1.2) = [HeadTransfer].
Proof. vm_compute. reflexivity. Qed.
Lemma head_transfer_safe_witness : exists b nonce,
  lp_broadcasts (unwedge_head (KW := stuck_nonces) k_config k_stalled 0%nat).1.2 = [b] /\ self_transfer k_me nonce (bc_tx b).
Proof.
  pose proof k_head_sent as H. destruct (unwedge_head (KW := stuck_nonces) k_config k_stalled 0%nat) as [[r s'] t'] eqn:E. cbn [fst snd] in H |- *.
  destruct (head_transfer_safe (KW := stuck_nonces) k_config stuck_fees stuck_prices k_stalled 0%nat r s' t') as (_ & new & Hl & _ & Hall).
  - intros t. cbn. unfold stall_ok, MAX_FEE_BUMPS; cbn. split; [lia|]. split; [reflexivity|exact I].
  - exact E.
  - cbn in Hl. destruct new as [|b [|b' new]]; rewrite Hl in H; try discriminate H.
    destruct (Hall b) as (_ & nonce & st & c & Hs & _); [rewrite elem_of_cons; auto|]. exists b, nonce. split; [exact Hl|exact Hs].
Defined.
