(* ===== verification/SubmitterWitness.v ===== *)
(** The submitter on the sample deployment: a record with a quorum of its validators, the
    instruction sent for it, and a cancellation that fails on the way. *)

From S2P Require Import Prelude.
From S2P Require Import Borsh.
From S2P Require Import Text.
From S2P Require Import SolanaRuntime.
From S2P Require Import Effects.
From S2P Require Import GateTypes.
From S2P Require Import GateHash.
From S2P Require Import GateState.
From S2P Require Import GateVerify.
From S2P Require Import GateTransfers.
From S2P Require Import GateAdmin.
From S2P Require Import GateProgram.
From S2P Require Import AbiParams.
From S2P Require Import HostVerify.
From S2P Require Import HostRecord.
From S2P Require Import Submitter.
From S2P Require Import SubmitterGate.
From S2P Require Import SubmitterSafety.
From S2P Require Import Codecs.
From S2P Require Import Sample.
From S2P Require Import HostSample.
From S2P Require GateWitness.
Import GateWitness.

(** * The derived codecs *)

Program Definition c_ConfigView : codec ConfigView :=
  c_iso (c_arr 32 ×c c_arr 32 ×c c_arr 32 ×c c_vec (c_arr 20) ×c c_u32 ×c c_u64 ×c c_bool)
    (fun '(o, (d, (g, (v, (t, (ch, p)))))) => MkConfigView o d g v t ch p)
    (fun c => (cv_owner c, (cv_bridge_domain c, (cv_guardian c, (cv_validators c, (cv_threshold c, (cv_chain_id c, cv_paused c))))))) _ _.
Next Obligation. by intros []. Qed.
Next Obligation. by intros (? & ? & ? & ? & ? & ? & ?). Qed.
#[export] Instance submit_codecs : SubmitBorsh := {|
  ConfigView_deserialize := deserialize c_ConfigView;
  ClaimArgs_serialize := enc c_ClaimArgs;
  CancelArgs_serialize := enc c_CancelArgs;
  RefundArgs_serialize := enc c_RefundArgs;
|}.

Lemma fits_u32 {A} (l : list A) : fits l -> is_u 32 (len l).
Proof. unfold fits, is_u, len. lia. Qed.
Lemma valid_bytes l : fits l -> valid c_bytes l.
Proof. intros H. split; [by apply fits_u32|by apply valid_all]. Qed.
Lemma valid_proof d a b ch n r p s sg : is_u 64 a -> is_u 8 b -> is_u 64 ch -> is_u 64 n -> auto_wf p ->
  proof_fits r p s sg -> valid c_proof (d, (a, (b, (ch, (n, (r, (p, (s, sg)))))))).
Proof.
  intros Ha Hb Hc Hn Hp (Hr & Hau & Hs & Hsg & Hall).
  refine (conj I (conj Ha (conj Hb (conj Hc (conj Hn (conj (valid_bytes _ Hr) (conj _ (conj (valid_bytes _ Hs) (conj _ _))))))))).
  - destruct p as [w|]; [|done]. destruct Hp as [H1 H2], (Hau w eq_refl) as [H3 H4].
    refine (conj H1 (conj H2 (conj (valid_bytes _ H3) (valid_bytes _ H4)))).
  - by apply fits_u32.
  - eapply Forall_impl; [exact Hall|]. apply valid_bytes.
Qed.
Lemma variant_enc {A B} (c : codec A) (f : A -> B) a : valid c a -> whole (variant c f (enc c a)) = Some (f a).
Proof. intros Ha. unfold variant. rewrite <- (app_nil_r (enc c a)), dec_enc by done. done. Qed.
#[export] Instance submit_codec_laws : SubmitBorshLaws.
Proof.
  constructor.
  - intros d c H. apply deserialize_inv in H as [Hv [rest ->]]. destruct c as [o dm g v t ch p mv mc n se dl].
    destruct Hv as (V1 & V2 & V3 & V4 & V5 & V6 & V7 & _).
    assert (exists tail, enc c_Config (MkConfig o dm g v t ch p mv mc n se dl) ++ rest =
      enc c_ConfigView (MkConfigView o dm g v t ch p) ++ tail) as [tail ->].
    { eexists. cbn -[le_bytes enc_all c_vec c_u32 c_u64 c_i64 c_bool]. rewrite <- !app_assoc. reflexivity. }
    apply deserialize_enc. refine (conj V1 (conj V2 (conj V3 (conj V4 (conj V5 (conj V6 V7)))))).
  - intros [d a b ch n r p s sg] (Ha & Hb & Hc & Hn & Hp) Hf. apply (variant_enc c_ClaimArgs Claim). by apply valid_proof.
  - intros [d a b ch n r p s sg] (Ha & Hb & Hc & Hn & Hp) Hf. apply (variant_enc c_CancelArgs Cancel). by apply valid_proof.
  - intros [d a b ch n r p s sg] (Ha & Hb & Hc & Hn & Hp) Hf. apply (variant_enc c_RefundArgs Refund). by apply valid_proof.
Qed.

(** * The deployment *)

Definition sig_rows (l : list (list byte)) : list SignerSig := map (fun s => MkSignerSig (txt "0xsigner") (hex0x s)) l.
Definition quorum_record (cancels : list SignerSig) : SubmissionRecord :=
  MkSubmissionRecord (hex0x (arr_bytes the_claim_id)) (hex0x (arr_bytes domain)) (hex0x (arr_bytes asset_id)) (txt "10")
    (Some 6) remote_chain SOLANA_CHAIN_ID 7 (hex0x (arr_bytes receiver_key)) (txt "0x")
    (hex0x (replicate 20 Byte.x44)) [] (sig_rows (zeros 65 :: quorum_sigs the_claim_id)) cancels [].
(** Nodes that show one ledger; the store serves one record; [lost] is a call for a
    blockhash that goes unanswered. *)
Definition node_at (s : ledger) (r : SubmissionRecord) (lost : option nat) : SolanaNode := {|
  sn_get_account := fun _ k => ok_or (accts s !! k) tt;
  sn_account := fun _ k => Ok (accts s !! k);
  sn_blockhash := fun t => match lost with Some n => if Nat.eqb t n then Err tt else Ok tt | None => Ok tt end;
  sn_send_and_confirm := fun _ _ => Ok tt;
  sn_pending_claims := fun _ => Ok [r];
  sn_pending_refunds := fun _ => Ok [];
|}.
Definition idle : Submitter := MkSubmitter ∅ [].
Definition one_tick (r : SubmissionRecord) (lost : option nat) : result unit unit * Submitter * nat :=
  Submitter.run (SN := node_at s_live r lost) gate_id wallet SOLANA_CHAIN_ID 1 idle 0%nat.

(** The first byte of each instruction sent. *)
Definition sent_kinds (s : Submitter) : list (option byte) := map (fun x => head (in_data (sg_instruction x))) (sb_sent s).
Lemma quorum_record_claimed : sent_kinds (one_tick (quorum_record []) None).1.2 = [Some Byte.x02].
Proof. vm_compute. reflexivity. Qed.

(** A cancel quorum whose transaction cannot be sent: the same pass claims the transfer
    instead, although the comment of [tick] calls that the wrong outcome. *)
Lemma claimed_after_failed_cancel :
  sent_kinds (one_tick (quorum_record (sig_rows (quorum_sigs (cancel_id the_claim_id)))) (Some 4%nat)).1.2 = [Some Byte.x02].
Proof. vm_compute. reflexivity. Qed.

Lemma quorum_record_fits : record_fits (quorum_record []).
Proof.
  constructor; try by_eval.
  - intros d [= <-]. by_eval.
  - intros b. cbn [quorum_record rec_receiver]. rewrite hex_bytes_0x. intros [= <-]. unfold fits. by_eval.
  - intros b. cbn [quorum_record rec_native_sender]. rewrite hex_bytes_0x. intros [= <-]. unfold fits. by_eval.
  - intros b o [= <-] [= <-] w. done.
Qed.
Lemma live_config_at : config_at gate_id (accts s_live) live_config.
Proof. apply config_in_at. vm_compute. reflexivity. Qed.
Lemma live_chain : cfg_chain_id live_config = SOLANA_CHAIN_ID.
Proof. vm_compute. reflexivity. Qed.
Lemma get_read (m : gmap pubkey account) k a : ok_or (m !! k) tt = Ok a -> a = acct m k.
Proof. intros H%ok_or_Ok. unfold acct. by rewrite H. Qed.
Lemma ok_list {A E} (P : A -> Prop) (l l' : list A) : Ok (E := E) l = Ok l' -> Forall P l -> Forall P l'.
Proof. by intros [= ->]. Qed.
Lemma shown_live lost : gate_shown (SN := node_at s_live (quorum_record []) lost) gate_id SOLANA_CHAIN_ID (accts s_live) live_config.
Proof.
  constructor.
  - exact live_config_at.
  - exact live_config_inv.
  - exact live_chain.
  - intros t a H. exact (f_equal acc_data (get_read _ _ _ H)).
  - intros t d a H. exact (conj (f_equal acc_owner (get_read _ _ _ H)) (f_equal acc_data (get_read _ _ _ H))).
  - intros t l H. exact (ok_list _ _ _ H (Forall_cons_2 _ _ _ quorum_record_fits (Forall_nil_2 _))).
  - intros t l H. exact (ok_list _ _ _ H (Forall_nil_2 _)).
Qed.

Lemma run_eta {A B C} (p : A * B * C) : p = (p.1.1, p.1.2, p.2).
Proof. by destruct p as [[? ?] ?]. Qed.
Lemma sent_in (s : Submitter) k : sent_kinds s = [k] -> exists x, x ∈ sb_sent s.
Proof. unfold sent_kinds. destruct (sb_sent s) as [|x l]; [done|]. intros _. exists x. by left. Qed.


Definition live_gate : GateConfig := default (MkGateConfig [] 0 domain) (gate_config_of live_config).
Definition quorum_enc : EncodableRecord :=
  MkEncodableRecord the_claim_id asset_id 10 6 (arr_bytes receiver_key) (replicate 20 Byte.x44) None.
Definition live_asset : AssetConfig :=
  match decode_asset_config (acc_data (acct (accts s_live) (asset_account gate_id asset_id))) with
  | Ok a => a | Err _ => MkAssetConfig asset_id mint_key vault_key 0 0 end.
Lemma shown_at (m : gmap pubkey account) k : is_Some (m !! k) -> exists a, ok_or (m !! k) tt = Ok a.
Proof. intros [a ->]. by exists a. Qed.
Lemma asset_there : is_Some (accts s_live !! asset_account gate_id asset_id).
Proof. apply (bool_decide_unpack _). vm_compute. exact I. Qed.
Lemma quorum_is_submitted_witness : exists o s' t',
  claim_one (SN := node_at s_live (quorum_record []) None) gate_id wallet SOLANA_CHAIN_ID live_gate (quorum_record []) idle 0%nat = (o, s', t') /\
  claim_submitted gate_id wallet live_config (quorum_record []) quorum_enc receiver_key live_asset idle s'.
Proof.
  do 3 eexists. split; [exact (run_eta _)|].
  eapply (quorum_is_submitted (SN := node_at s_live (quorum_record []) None) gate_id wallet SOLANA_CHAIN_ID (accts s_live)
    live_config (shown_live None) live_gate (quorum_record []) quorum_enc receiver_key live_asset idle 0%nat); [..|exact (run_eta _)].
  - apply some_default. vm_compute. reflexivity.
  - constructor.
    + reflexivity.
    + vm_compute. reflexivity.
    + apply arr_of_list_bytes.
    + split; [|split]; vm_compute; reflexivity.
    + intros t. eexists. split; [reflexivity|]. vm_compute. reflexivity.
    + intros t. exact (shown_at _ _ asset_there).
    + intros t. reflexivity.
  - by_eval.
  - by_eval.
Defined.
