(* ===== verification/ObserverWitness.v ===== *)
(** The observer on the sample deployment: a transfer called off there, a transaction that
    only mentions its marker, and the one that created it. *)

From S2P Require Import Prelude.
From S2P Require Import Text.
From S2P Require Import SolanaRuntime.
From S2P Require Import Effects.
From S2P Require Import GateTypes.
From S2P Require Import GateHash.
From S2P Require Import GateState.
From S2P Require Import GateVerify.
From S2P Require Import GateTransfers.
From S2P Require Import GateAdmin.
From S2P Require Import GateProgram.
From S2P Require Import GateSafety.
From S2P Require Import HostRecord.
From S2P Require Import Attester.
From S2P Require Import Submitter.
From S2P Require Import Observer.
From S2P Require Import ObserverSafety.
From S2P Require Import Codecs.
From S2P Require Import Sample.
From S2P Require Import HostSample.
From S2P Require GateWitness.
Import GateWitness.
From S2P Require HostWitness.
Import HostWitness.

#[export] Instance sample_base58 : Base58 := {| bs58_encode := sample_hex_encode; bs58_decode := sample_hex_decode |}.
#[export] Instance sample_base58_laws : Base58Laws.
Proof. constructor. exact (@hex_roundtrip sample_hex sample_hex_laws). Qed.
#[export] Instance sample_tags : InstructionTags.
Proof.
  constructor. intros l ix H. cbn [ix_try_from_slice gate_codecs] in H. unfold whole in H.
  destruct (dec_gate_ix l) as [[ix' [|]]|] eqn:E; try done. injection H as ->. revert E.
  destruct l as [|[] l]; try done; simpl dec_gate_ix; cbn [head];
    try (apply (variant_wf _ _ (fun i => Some _ = Some (ix_tag i)))); try (by intros [= <- _]); try (by intros [] ?).
  all: try done.
  destruct (dec_action l) as [[a r']|]; [|done]. by intros [= <- _].
Qed.

Lemma sample_refunded_isolated (id : hash32) : head (arr_bytes id) = Some Byte.x00 -> refunded_isolated gate_id id.
Proof.
  intros Hz. split.
  - intros E. symmetry in E. revert E. apply sample_config_isolated. constructor.
  - intros sd Hsd Hne. destruct Hsd; first [apply pda_tags; vm_compute; reflexivity|apply pda_same; done].
Qed.

(** * Transactions *)

Definition the_marker : pubkey := executed_account gate_id the_claim_id.
Definition called_off_keys : list text := key_text gate_id :: map (fun a => key_text (ai_key a)) cancel_accounts.
Definition cancel_ix : UiCompiledInstruction :=
  MkUiCompiledInstruction 0 (map Z.of_nat (seq 1 (length cancel_accounts))) (bs58_encode cancel_data).
Definition ok_meta (inner : list (list UiInstruction)) : UiTransactionStatusMeta :=
  MkUiTransactionStatusMeta false false None (Some inner).
(** The cancellation, called by another program. *)
Definition called_off_tx : EncodedConfirmedTransaction :=
  MkEncodedConfirmedTransaction (EtJson (UiRaw called_off_keys [MkUiCompiledInstruction 4 [2] (bs58_encode [Byte.x02])]))
    (Some (ok_meta [[UiParsed; UiCompiled cancel_ix]])).
(** A call of the gate that lists the marker as one account too many. *)
Definition mention_tx : EncodedConfirmedTransaction :=
  MkEncodedConfirmedTransaction (EtJson (UiRaw called_off_keys [MkUiCompiledInstruction 0 [1; 1; 3; 2] (bs58_encode [Byte.x0a])]))
    (Some (ok_meta [])).
Definition called_off : gate_call := MkGateCall cancel_accounts cancel_data s_live s_called_off.

Lemma called_off_ran : ran gate_id called_off.
Proof.
  assert (H : bool_decide (is_i 64 (clock s_live)) && succeeds (process_instruction gate_id cancel_accounts cancel_data) s_live = true)
    by (vm_compute; reflexivity).
  apply andb_true_iff in H as [Hc%bool_decide_eq_true Hs]. split; [exact Hc|]. by apply run_Ok.
Qed.
Lemma called_off_prints : prints called_off_keys cancel_ix called_off.
Proof.
  split; [apply bs58_roundtrip|]. intros n. unfold cancel_ix, slot, called_off. cbn [ui_accounts gc_accounts].
  do 5 (destruct n as [|n]; [vm_compute; reflexivity|]). reflexivity.
Qed.
Lemma called_off_shown : shows gate_id called_off_tx [called_off].
Proof.
  exists (ok_meta [[UiParsed; UiCompiled cancel_ix]]), called_off_keys, [MkUiCompiledInstruction 4 [2] (bs58_encode [Byte.x02])].
  refine (conj eq_refl (conj eq_refl (conj eq_refl (conj eq_refl (conj _ (conj _ _)))))).
  - apply Forall_singleton. exact called_off_ran.
  - intros ix [Hin Hk]. exists called_off. split; [by left|]. cbn in Hin. rewrite app_nil_r in Hk.
    apply elem_of_cons in Hin as [-> |Hin]; [exfalso; vm_compute in Hk; discriminate|].
    apply list_elem_of_singleton in Hin as ->. unfold loaded_keys. cbn [ok_meta tm_loaded_addresses]. rewrite app_nil_r.
    exact called_off_prints.
  - intros c Hc. apply list_elem_of_singleton in Hc as ->. exists cancel_ix. unfold loaded_keys. cbn [ok_meta tm_loaded_addresses].
    rewrite app_nil_r. split; [|exact called_off_prints]. split; [cbn; right; by left|vm_compute; reflexivity].
Qed.

Lemma creates_marker_exact_witness : shows gate_id called_off_tx [called_off] /\
  creates_marker mention_tx gate_id the_marker Destination = false /\
  creates_marker called_off_tx gate_id the_marker Destination = true /\
  exists c, c ∈ [called_off] /\ turned_on gate_id the_marker c.
Proof.
  assert (Hc : creates_marker called_off_tx gate_id the_marker Destination = true) by (vm_compute; reflexivity).
  split; [exact called_off_shown|]. split; [vm_compute; reflexivity|]. split; [exact Hc|].
  exact (proj1 (creates_marker_exact gate_id gate_not_spl called_off_tx [called_off] Destination the_claim_id called_off_shown
    (sample_executed_isolated _ (arr_head_keccak _))) Hc).
Defined.

(** * Runs *)

(** Nodes that show one ledger, a store that lists one record, and an answer to a report
    that is lost at one call. *)
Definition shown_at (s : ledger) (r : SubmissionRecord) : SolanaNode := {|
  sn_get_account := fun _ k => ok_or (accts s !! k) tt;
  sn_account := fun _ k => Ok (accts s !! k);
  sn_blockhash := fun _ => Ok tt;
  sn_send_and_confirm := fun _ _ => Ok tt;
  sn_pending_claims := fun _ => Ok [r];
  sn_pending_refunds := fun _ => Ok [];
|}.
Definition sig_text (b : byte) : text := bs58_encode [b].
(** Newest first: a failed replay, the cancellation, and before it the mention. *)
Definition marker_signatures : list SignatureInfo :=
  [MkSignatureInfo (sig_text Byte.x03) true; MkSignatureInfo (sig_text Byte.x02) false; MkSignatureInfo (sig_text Byte.x01) false].
Definition history_node (lost : option nat) : ObserverNode := {|
  signature_from_str := bs58_decode;
  on_signatures := fun _ _ _ => Ok marker_signatures;
  on_transaction := fun _ sig => Ok (if bool_decide (sig = [Byte.x01]) then mention_tx else called_off_tx);
  on_report := fun t _ => match lost with Some n => if Nat.eqb t n then Err tt else Ok tt | None => Ok tt end;
|}.
Definition observe_for (lost : option nat) (n : nat) : result unit unit * Observer * nat :=
  Observer.run (SN := shown_at s_called_off claim_record) (ON := history_node lost) gate_id SOLANA_CHAIN_ID n fresh_observer 0%nat.
Definition sightings (x : result unit unit * Observer * nat) : list (Terminal * text * result unit unit) :=
  map (fun s => (sy_what s, sy_tx s, sy_answer s)) (ob_sightings x.1.2).

Lemma lost_then_accepted : sightings (observe_for (Some 6%nat) 3) =
  [(TCancelled, sig_text Byte.x02, Err tt); (TCancelled, sig_text Byte.x02, Ok tt)].
Proof. vm_compute. reflexivity. Qed.
Lemma sightings_about : Forall (fun x => sy_id x = rec_submission_id claim_record) (ob_sightings (observe_for (Some 6%nat) 3).1.2).
Proof. apply (bool_decide_unpack _). vm_compute. exact I. Qed.
Lemma first_sighting : exists x, x ∈ ob_sightings (observe_for (Some 6%nat) 3).1.2 /\
  sy_id x = rec_submission_id claim_record /\ sy_what x = TCancelled.
Proof.
  pose proof lost_then_accepted as H. unfold sightings in H. pose proof sightings_about as Ha.
  destruct (ob_sightings (observe_for (Some 6%nat) 3).1.2) as [|x l]; [done|]. exists x. injection H as H1 _ _ _.
  apply Forall_cons in Ha as [Ha _]. split; [by left|]. by split.
Qed.
Lemma claim_record_id : hex32 (rec_submission_id claim_record) = Some the_claim_id.
Proof. apply hex32_0x. Qed.
Lemma unmarked_live side : unmarked gate_id side the_claim_id s_live.
Proof. destruct side; vm_compute; reflexivity. Qed.
Lemma claim_isolated side : marker_isolated gate_id side the_claim_id.
Proof. destruct side; [exact (sample_executed_isolated _ (arr_head_keccak _))|exact (sample_refunded_isolated _ (arr_head_keccak _))]. Qed.
Lemma read_end (m : gmap pubkey account) k a : Ok (E := unit) (m !! k) = Ok a -> a = m !! k.
Proof. by intros [= ->]. Qed.
Lemma called_off_read : reads_history (SN := shown_at s_called_off claim_record) gate_id s_live cancel_events s_called_off.
Proof.
  intros t k a H. exists cancel_events, [], s_called_off. split; [by rewrite app_nil_r|]. split; [exact cancel_history|].
  split; [constructor|]. exact (read_end _ _ _ H).
Qed.
Lemma observe_eta (x : result unit unit * Observer * nat) : x = (x.1.1, x.1.2, x.2).
Proof. by destruct x as [[? ?] ?]. Qed.

Lemma observed_reports_true_witness : exists x, x ∈ ob_sightings (observe_for (Some 6%nat) 3).1.2 /\
  happened (sy_what x) the_claim_id cancel_events.
Proof.
  destruct first_sighting as (x & Hx & Hi & Hw). exists x. split; [exact Hx|].
  assert (Hid : hex32 (sy_id x) = Some the_claim_id) by (rewrite Hi; exact claim_record_id).
  rewrite <- (app_nil_r cancel_events).
  exact (proj1 (observed_reports_true (SN := shown_at s_called_off claim_record) (ON := history_node (Some 6%nat)) gate_id
    SOLANA_CHAIN_ID gate_not_spl s_live cancel_events s_called_off 3 _ _ _ x the_claim_id [] s_called_off called_off_read
    (observe_eta _) Hx Hid (claim_isolated Destination) (claim_isolated Source) (unmarked_live Destination) (unmarked_live Source)
    (HistoryNil _ _))).
Defined.

Lemma reported_once_witness : exists x, ob_sightings (observe_for (Some 6%nat) 3).1.2 <> [] /\ sy_answer x = Ok tt /\
  exists pre post, ob_sightings (observe_for (Some 6%nat) 3).1.2 = pre ++ x :: post /\ Forall (fun y => key_of y <> key_of x) post.
Proof.
  pose proof lost_then_accepted as H. unfold sightings in H. pose proof sightings_about as Ha.
  destruct (ob_sightings (observe_for (Some 6%nat) 3).1.2) as [|y [|x l]] eqn:E; [discriminate H|discriminate H|].
  assert (Hx : sy_answer x = Ok tt) by (by injection H).
  assert (Hi : to_ascii_lowercase (sy_id x) = to_ascii_lowercase (rec_submission_id claim_record)).
  { apply Forall_cons in Ha as [_ Ha]. apply Forall_cons in Ha as [-> _]. reflexivity. }
  exists x. split; [discriminate|]. split; [exact Hx|]. exists [y], l. split; [reflexivity|].
  assert (Hq : forall queue, queues_of (SN := shown_at s_called_off claim_record) queue ->
    to_ascii_lowercase (rec_submission_id claim_record) ∈ queue_ids queue).
  { intros q (t & t' & c & r & [= <-] & [= <-] & ->). unfold queue_ids. apply elem_of_list_to_set. by left. }
  exact (reported_once (SN := shown_at s_called_off claim_record) (ON := history_node (Some 6%nat)) gate_id SOLANA_CHAIN_ID
    _ 3 _ _ _ [y] x l Hq (observe_eta _) E Hi Hx).
Defined.

Lemma terminal_gets_reported_witness : exists x, x ∈ ob_sightings (observe_for None 1).1.2 /\ sy_answer x = Ok tt /\
  sy_what x = TCancelled.
Proof.
  assert (Hh : happened TCancelled the_claim_id cancel_events) by (vm_compute; split; reflexivity).
  assert (Hs : side_of claim_record SOLANA_CHAIN_ID = Some Destination) by (vm_compute; reflexivity).
  destruct (terminal_gets_reported (SN := shown_at s_called_off claim_record) (ON := history_node None) gate_id SOLANA_CHAIN_ID
    gate_not_spl s_live cancel_events s_called_off TCancelled the_claim_id claim_record 0 _ _ _ (claim_isolated Destination)
    (unmarked_live Destination) cancel_history Hh claim_record_id Hs (fun _ => eq_refl)
    (fun _ _ => ex_intro _ [claim_record] (ex_intro _ [] (conj eq_refl (conj eq_refl (list_elem_of_here _ _)))))
    (fun _ _ => eq_refl) (observe_eta _)) as (_ & x & Hx & Ha & Hw & _).
  exists x. exact (conj Hx (conj Ha Hw)).
Defined.
