(* ===== verification/DbWitness.v ===== *)
(** The database and its server on the sample record: a validator posts its signature, the
    indexers report, and two of them interleave as no care between statements prevents. *)

From S2P Require Import Prelude.
From S2P Require Import Text.
From S2P Require Import SolanaRuntime.
From S2P Require Import GateTypes.
From S2P Require Import HostVerify.
From S2P Require Import HostRecord.
From S2P Require Import SigStore.
From S2P Require Import Interleave.
From S2P Require Import Db.
From S2P Require Import DbSafety.
From S2P Require Import DbLifecycle.
From S2P Require Import SigServer.
From S2P Require Import ServerSafety.
From S2P Require Import Sample.
From S2P Require Import HostSample.
From S2P Require Import GateWitness.
From S2P Require Import HostWitness.
From S2P Require Import StoreWitness.

Lemma strip_0x_lower l : sample_hex_decode (strip_0x l) <> None ->
  strip_0x (to_ascii_lowercase l) = to_ascii_lowercase (strip_0x l).
Proof.
  intros H. unfold strip_0x in *. destruct (strip_prefix (txt "0x") l) as [l'|] eqn:E.
  - by apply strip_prefix_Some in E as ->.
  - cbn [from_option] in *. destruct (strip_prefix (txt "0x") (to_ascii_lowercase l)) as [l'|] eqn:E'; [|done].
    apply strip_prefix_Some in E'. exfalso. apply H. cbn [id]. rewrite <- decode_lower.
    change (map lower l) with (to_ascii_lowercase l). by rewrite E'.
Qed.
#[export] Instance sample_text : AlloyText.
Proof.
  constructor.
  - intros s _. change (parse_bytes 32 (norm_id s) = parse_bytes 32 s). unfold parse_bytes.
    assert (E : strip_0x (norm_id s) = map lower (strip_0x s)).
    { unfold norm_id. unfold strip_0x at 1. by rewrite strip_prefix_app. }
    by rewrite E, decode_lower.
  - intros s a. change (parse_bytes 20 s = Some a -> parse_bytes 20 (to_ascii_lowercase s) = Some a). unfold parse_bytes. intros H.
    destruct (sample_hex_decode (strip_0x s)) as [b|] eqn:E; [|done].
    rewrite strip_0x_lower by (by rewrite E). change (to_ascii_lowercase (strip_0x s)) with (map lower (strip_0x s)).
    by rewrite decode_lower, E.
Qed.

(** * Schedules as runs *)

Lemma schedule_run {S E} (calls : sprog S E unit -> Prop) l y : rtc (sys_step calls) y (schedule l y).
Proof.
  revert y. induction l as [|c l IH]; intros y; cbn; [constructor|]. eapply rtc_l; [apply SysTurn|apply IH].
Qed.
Lemma call_run {S E} (calls : sprog S E unit -> Prop) l d ts p : calls p ->
  rtc (sys_step calls) (MkSystem d ts) (schedule l (MkSystem d (ts ++ [p]))).
Proof. intros Hp. eapply rtc_l; [by apply SysCall|]. cbn. apply schedule_run. Qed.

Definition turns (n thread : nat) (t : Z) : list Turn := replicate n (MkTurn thread t Answered).
Definition the_id : text := rec_submission_id posted.
Definition the_tx : text := txt "0xc1a1".
Definition strict : gset text := {[signer_text]}.
Definition no_set : gset text := ∅.

(** A signature, then a claim that is reported. *)
Definition y_signed : System Tables DbError :=
  schedule (turns 8 0 100) (MkSystem empty_tables ([] ++ [discard (upsert_signature no_set (base posted) own_sig)])).
Definition y_claimed : System Tables DbError :=
  schedule (turns 3 1 200) (MkSystem (sys_state y_signed) (sys_threads y_signed ++ [mark_claimed the_id the_tx])).
Definition summary (y : System Tables DbError) : option (Status * option text * list text) :=
  (fun l => (lf_status l, lf_claim_tx l, map fst (signatures_of (sys_state y) the_id))) <$> lifecycle_at (sys_state y) the_id.
Lemma signed_run : rtc (sys_step (db_call no_set)) db_start y_signed.
Proof. exact (call_run (db_call no_set) _ empty_tables [] _ (CallUpsert no_set _ _)). Qed.
Lemma claimed_run : rtc (sys_step (db_call no_set)) y_signed y_claimed.
Proof.
  unfold y_claimed. generalize y_signed. intros [d ts]. exact (call_run (db_call no_set) _ d ts _ (CallClaimed no_set _ _ _)).
Qed.
Lemma y_claimed_eval : summary y_signed = Some (Signed, None, [signer_text]) /\
  summary y_claimed = Some (Claimed, Some the_tx, [signer_text]).
Proof. vm_compute. split; reflexivity. Qed.
Lemma db_always_authentic_witness :
  rtc (sys_step (db_call no_set)) db_start y_claimed /\
  summary y_claimed = Some (Claimed, Some the_tx, [signer_text]) /\ tables_ok no_set (sys_state y_claimed).
Proof.
  assert (H : rtc (sys_step (db_call no_set)) db_start y_claimed) by (etransitivity; [exact signed_run|exact claimed_run]).
  split; [exact H|]. split; [exact (proj2 y_claimed_eval)|]. exact (db_always_authentic no_set y_claimed H).
Defined.
Lemma history_never_rewritten_witness :
  rtc (sys_step (db_call no_set)) y_signed y_claimed /\
  summary y_signed = Some (Signed, None, [signer_text]) /\ kept (sys_state y_signed) (sys_state y_claimed).
Proof.
  split; [exact claimed_run|]. split; [exact (proj1 y_claimed_eval)|].
  exact (history_never_rewritten no_set y_signed y_claimed signed_run claimed_run).
Defined.

(** The claim is seen before the signature and the transfer, the refund after. *)
Definition reports : list (Z * Observation) :=
  [(10, SeenClaimed the_id the_tx); (20, SeenSignature (base posted) own_sig); (30, SeenSent (base posted)); (40, SeenRefunded the_id the_tx)].
Definition reported : Tables := report_all no_set reports empty_tables.
Definition reported_row : SubmissionRow :=
  default (MkSubmissionRow (base posted) None new_lifecycle None None 0 0) (db_submissions reported !! the_id).
Definition has_row (d : Tables) : bool := match db_submissions d !! the_id with Some _ => true | None => false end.
Lemma reported_eval : has_row reported && chain_order [] reports = true /\
  row_lifecycle reported_row = MkLifecycle Claimed (Some the_tx) Refunded (Some the_tx) None.
Proof. vm_compute. split; reflexivity. Qed.
Lemma arrival_order_irrelevant_witness :
  db_submissions reported !! the_id = Some reported_row /\
  abstract_lifecycle the_id reports = MkLifecycle Claimed (Some the_tx) Refunded (Some the_tx) None.
Proof.
  destruct reported_eval as [[H1 H2]%andb_true_iff H3].
  assert (H : db_submissions reported !! the_id = Some reported_row).
  { unfold reported_row. unfold has_row in H1. destruct (db_submissions reported !! the_id); [reflexivity|]. discriminate H1. }
  split; [exact H|]. unfold reported in H. pose proof (arrival_order_irrelevant no_set reports the_id reported_row H2 H) as E.
  exact (eq_trans (eq_sym E) H3).
Defined.

(** * The server *)

Definition secret : text := txt "s3cret".
Definition keeper_token : text := txt "keeper".
Definition the_args : Args :=
  MkArgs None None (txt "alice:s3cret") (txt "alice:" ++ signer_text) (Some keeper_token) None None (Some (txt "eyes")) false.
Definition the_server : Server :=
  match start the_args with Ok s => s | Err _ => MkServer Auth_disabled (MkSignerPolicy ∅ ∅) end.
Definition a_post : SubmissionRecord := with_signatures (base posted) (rec_token (base posted)) [own_sig] [] [].
Definition post : sprog Tables DbError unit := discard (serve the_server secret true (PostSubmission a_post)).
Definition holders (t : text) : Prop := t = secret \/ t = keeper_token.
Definition y_posted : System Tables DbError := schedule (turns 9 0 100) (MkSystem empty_tables ([] ++ [post])).
Lemma server_eval : is_ok (start the_args) = true /\
  policy_enforced (sv_signers the_server) && grants (sv_auth the_server) secret Sign &&
  permit_signer the_server secret signer_text && negb (grants (sv_auth the_server) secret Indexer) &&
  negb (grants (sv_auth the_server) keeper_token Indexer) = true.
Proof. vm_compute. split; reflexivity. Qed.
Lemma posted_run : rtc (sys_step (served the_server holders)) (MkSystem empty_tables []) y_posted.
Proof.
  assert (H : served the_server holders post) by (unfold post; apply Serves; by left).
  unfold y_posted. exact (call_run (served the_server holders) _ empty_tables [] post H).
Qed.
Lemma y_posted_eval : map fst (signatures_of (sys_state y_posted) the_id) = [signer_text].
Proof. vm_compute. reflexivity. Qed.
Lemma lifecycle_needs_indexer_witness :
  rtc (sys_step (served the_server holders)) (MkSystem empty_tables []) y_posted /\
  same_or_new (lifecycle_at empty_tables the_id) (lifecycle_at (sys_state y_posted) the_id).
Proof.
  split; [exact posted_run|].
  destruct (lifecycle_needs_indexer the_server holders empty_tables y_posted the_id (empty_ok _) posted_run (lookup_empty _)) as [_ H].
  apply H. destruct server_eval as [_ [[_ H1%negb_true_iff]%andb_true_iff H2%negb_true_iff]%andb_true_iff].
  intros token [-> | ->]; assumption.
Defined.
Lemma start_the_server : start the_args = Ok the_server.
Proof. unfold the_server. destruct (start the_args) eqn:E; [reflexivity|]. destruct server_eval as [H _]. rewrite E in H. discriminate H. Qed.
Lemma own_sig_eval : verify_signature the_send_id own_sig = Ok (validator_address key_a) /\ is_ok (canonical_signature own_sig) = true /\
  verify_binding (base_of a_post) = Ok the_send_id.
Proof. vm_compute. repeat split; reflexivity. Qed.
Lemma validator_never_locked_out_witness :
  exists r d', reply the_server 100 secret true (PostSubmission a_post) empty_tables = (ok (OneRecord r), d') /\
    exists s', MkSignerSig (to_ascii_lowercase signer_text) s' ∈ rec_signatures r.
Proof.
  destruct own_sig_eval as (Hv & Hc%is_ok_value & Hb). destruct Hc as [canonical Hc].
  destruct server_eval as [_ [[[[H1 H2]%andb_true_iff H3]%andb_true_iff _]%andb_true_iff _]%andb_true_iff].
  refine (validator_never_locked_out the_server the_args secret a_post own_sig empty_tables 100 (validator_address key_a) canonical
    start_the_server H1 H2 H3 eq_refl _ _ Hc).
  - split; [exists the_send_id; exact Hb|]. cbn [db_submissions empty_tables]. by rewrite lookup_empty.
  - intros h Hh. rewrite Hb in Hh. injection Hh as <-. exact Hv.
Defined.

(** * What interleaving costs *)

(** The indexer of the destination reports the claim while the indexer of the source reports
    the transfer. The marker is parked between the two statements that fold markers in and
    drop them. *)
Definition racing : System Tables DbError :=
  MkSystem empty_tables [mark_claimed the_id the_tx; observe_submission (base posted)].
Definition race : list Turn := turns 2 0 10 ++ turns 3 1 11 ++ turns 1 0 12 ++ turns 1 1 13 ++ turns 3 0 14.
(** Both calls succeed, and the claim is nowhere. *)
Lemma parked_claim_lost :
  sys_threads (schedule race racing) = [Ret (Ok tt); Ret (Ok tt)] /\
  lifecycle_at (sys_state (schedule race racing)) the_id = Some new_lifecycle /\
  db_lifecycle (sys_state (schedule race racing)) !! the_id = None.
Proof. vm_compute. repeat split; reflexivity. Qed.

(** A cancellation reported after the refund, both before the transfer: on a row the refund
    would stand, parked it is undone. *)
Definition late_cancel : list (Z * Observation) :=
  [(10, SeenRefunded the_id the_tx); (20, SeenCancelled the_id the_tx); (30, SeenSent (base posted))].
Lemma parked_refund_regresses :
  lf_refund_status <$> lifecycle_at (report_all no_set late_cancel empty_tables) the_id = Some Cancelled /\
  lf_refund_status (abstract_lifecycle the_id late_cancel) = Refunded.
Proof. vm_compute. split; reflexivity. Qed.
