(* ===== verification/IndexerWitness.v ===== *)
(** The indexer on a chain of the sample network: one turn that reads a [Sent], against the
    database it shares with the server. *)

From S2P Require Import Prelude.
From S2P Require Import Text.
From S2P Require Import SolanaRuntime.
From S2P Require Import Quorum.
From S2P Require Import HostRecord.
From S2P Require Import SigStore.
From S2P Require Import Interleave.
From S2P Require Import Db.
From S2P Require Import DbSafety.
From S2P Require Import DbLifecycle.
From S2P Require Import SigServer.
From S2P Require Import ServerSafety.
From S2P Require Import Validator.
From S2P Require Import Indexer.
From S2P Require Import IndexerSafety.
From S2P Require Import Sample.
From S2P Require Import HostSample.
From S2P Require Import NodeSample.
From S2P Require Import DbWitness.

#[export] Instance sample_evm_events : EvmEvents := {|
  gate_sent := fun l => decode_sample (log_address l) (log_topics l) (log_data l);
  gate_claimed := fun _ => None; gate_cancelled := fun _ => None; gate_refunded := fun _ => None;
  pool_swapped := fun _ => None; router_swap_bridged := fun _ => None; router_finalized := fun _ => None;
  router_finalize_deferred := fun _ => None; router_finalize_fallback := fun _ => None;
|}.
Definition the_chain : ChainCfg := MkChainCfg 1 (Some the_gate) None None 40 10 100.
Definition chain_table (c : Z) : option ChainCfg := if c =? 1 then Some the_chain else None.
Definition domain_table (c : Z) : hash32 := the_domain.
Definition logged (c : Z) (a : evm_address) (n : Z) : list Log := chain_logs n n.
Definition end_hash : hash32 := arr_fill 32 Byte.x66.
Definition answers : ScanAnswers :=
  MkScanAnswers (Ok 120) (fun _ from to =>
    Ok (map (fun l => MkIndexedLog l (Some end_hash)) (chain_logs from to), Some (MkHeader to end_hash))).
Definition a_turn : TurnAnswers := MkTurnAnswers (Ok 120) answers answers answers.
Definition indexing : sprog Tables DbError unit := run_chain the_chain [Err tt; Ok 1] [Ok the_domain] [a_turn].
Definition y_indexed : System Tables DbError := schedule (turns 6 0 500) (MkSystem empty_tables ([] ++ [indexing])).

Lemma answers_vouch c a : vouches logged c a answers.
Proof.
  intros from to logs block H _ _ n log Hn Hin. cbn in H. injection H as <- _. unfold logged, chain_logs in *.
  destruct (Z.leb_spec n 50), (Z.leb_spec 50 n); cbn in Hin; try by apply elem_of_nil in Hin.
  apply list_elem_of_singleton in Hin as ->. split; [reflexivity|]. exists (Some end_hash).
  rewrite (proj2 (Z.leb_le from 50)), (proj2 (Z.leb_le 50 to)) by lia. apply list_elem_of_here.
Qed.
Lemma start_indexed : indexed_ok the_server chain_table domain_table logged empty_tables empty_tables.
Proof.
  split; [apply empty_ok|intros id m; cbn; by rewrite lookup_empty|reflexivity|intros c b; cbn; by rewrite lookup_empty].
Qed.
Lemma indexed_run : rtc (sys_step (deployed the_server chain_table domain_table logged holders)) (MkSystem empty_tables []) y_indexed.
Proof.
  assert (H : deployed the_server chain_table domain_table logged holders indexing).
  { unfold indexing. apply RunsIndexer; [reflexivity|by cbn| |].
    - intros x [[= ->]|Hx%elem_of_nil]%elem_of_cons; done.
    - constructor; [|constructor]. split_and!; intros x _; apply answers_vouch. }
  unfold y_indexed. exact (call_run (deployed the_server chain_table domain_table logged holders) _ empty_tables [] indexing H).
Qed.
Lemma y_indexed_eval : db_cursors (sys_state y_indexed) !! 1 = Some 110 /\ sys_threads y_indexed = [Ret (Ok tt)].
Proof. vm_compute. split; reflexivity. Qed.
Lemma record_eval : (match the_record with Some r => match check_storable r with Ok _ => true | Err _ => false end | None => false end) = true.
Proof. vm_compute. reflexivity. Qed.
Lemma cursor_passes_only_recorded_witness :
  exists r, record_from_sent_event the_event the_domain = Some r /\
    at_row (sys_state y_indexed) (norm_id (rec_submission_id r)) seen.
Proof.
  pose proof (cursor_passes_only_recorded the_server chain_table domain_table logged empty_tables holders y_indexed 1 110
    start_indexed indexed_run (proj1 y_indexed_eval)) as H.
  destruct (H the_chain eq_refl) as [Hg _]. pose proof record_eval as Er. unfold the_record in Er.
  destruct (record_from_sent_event the_event the_domain) as [r|] eqn:E; [|discriminate Er]. exists r. split; [reflexivity|].
  assert (Hin : the_log ∈ logged 1 the_gate 50) by apply list_elem_of_here.
  assert (Hs : gate_sent the_log = Some the_event) by reflexivity.
  specialize (Hg the_gate 50 the_log eq_refl ltac:(split; discriminate) Hin). unfold gate_recorded in Hg. rewrite Hs in Hg.
  apply Hg; [exact E|]. destruct (check_storable r) as [[]|]; [reflexivity|discriminate Er].
Defined.
